(* ===== verification/_CoqProject ===== *)
-Q . S2P
Prelude.v
Fonts.v
Memory.v
Util.v
Strings.v
MmCore.v
Multiboot.v
Vesa.v
Video.v
Ports.v
Interrupts.v
Screen.v
Panel.v
Log.v
Panic.v
Keyboard.v
Pcie.v
Acpi.v
AcpiAgree.v
Mmu.v
VirtMem.v
MmPage.v
MmPageRep.v
MmPageFrames.v
MmPageMap.v
MmPageClear.v
MmPageUnmap.v
MmPageSample.v
MmPageScript.v
MemFrame.v
MemHeap.v
MemSections.v
MemFrameMap.v
MemPage.v
MemMap.v
KernelMain.v
KernelBoot.v
MmHeap.v
HeapTiling.v
MmHeapRep.v
MmHeapLists.v
MmHeapOps.v
MmHeapAlloc.v
MmHeapFree.v
MmHeapTop.v
MmHeapClient.v
MmAllocator.v
MmAllocatorRep.v
MmAllocatorOps.v
MmAllocatorTake.v
MmAllocatorFree.v
MmAllocatorTop.v
Nvme.v
MmHeapPages.v
MmBoot.v
