(* ===== verification/Prelude.v ===== *)
(** * cing: a verification library for the kernel

    The program is a small x86-64 kernel in C.  [kernel/kernel_main.c] reads
    the multiboot information, starts the drivers and the memory manager, and
    halts.  The library models the C code under [src/src] file by file, with
    shallow definitions in a state monad, and proves what each part promises.

    ** How the code is modelled

    - [M S A] (this file) is a computation over a state [S] whose outcome is
      [Done], [Assert] (a failed [kernel_assert]), [Panic], [Fault] (a CPU
      exception or undefined behaviour) or [Timeout] (the fuel of a loop ran
      out).  A theorem that a computation is [Done] is therefore a theorem of
      total correctness.  [kernel_assert_d] is checked, as in a debug build.
    - Integers are [Z] with the wrap-around of their width written out: the
      operators of [u64_scope] wrap at 64 bits, [u8], [u16] and [u32] truncate.
    - [Memory] is the byte memory: a finite map from 64-bit addresses to bytes
      in which an absent byte reads as 0, with little-endian reads and writes.
      During boot the virtual addresses equal the physical ones, and the files
      that run then use it directly.  The run-time memory manager goes through
      the page tables ([VirtMem]): an access to an address that CR3's tables do
      not translate is a [Fault].
    - Objects of static storage are a [Record] per C file; addresses that the
      linker chooses are parameters (classes [Link], [VmLink], [BootLink], ...) with the
      disjointness and alignment the code relies on as their laws.

    ** Which file models what

    - [Prelude]: integers, the monad, its weakest precondition [wp] and tactics.
      [Memory]: memories, footprints and the rules of reads and writes.
    - [Util]: [util/util_math.c], [util/util_random.c].
    - [Strings]: [containers/containers_string.c], formatting and parsing.
    - [MmCore]: [mm/mm.c], alignment, byte blocks and the address layout of
      [mm/mm_private.h].
    - [Multiboot], [KernelMain]: [kernel/kernel_main.c]; the tag reader, then
      the order in which the parts of the kernel are started.  [KernelBoot] puts
      the theorems on the parts together, from the entry to the halt;
      [AcpiAgree] says which memory the firmware's tables depend on.
    - [Vesa], [Ports], [Interrupts], [Screen], [Keyboard], [Pcie], [Acpi], [Nvme]:
      the drivers of the same names ([Ports] holds the serial line, [Keyboard] the
      timer), and [interrupts/interrupts.c].
    - [Fonts]: the two tables of glyphs.  [Video]: [video/video.c] and [tui/tui.c],
      drawing on the frame buffer of [Vesa].
    - [Log]: [log/log.c] on [Strings], the serial line and the frame buffer.
      [Panic]: [kernel/kernel_panic.c].  [Panel]: [panel/panel.c] and
      [panel/panel_text.c] on the text screen.
    - [Mmu]: the page-table format of the CPU and address translation as the
      hardware does it, with the lemmas about trees of tables.
    - [MemFrame], [MemSections], [MemFrameMap], [MemPage], [MemMap]: the
      boot-time memory manager [mem/mem.c], [mem/mem_frame.c],
      [mem/mem_page.c] against [Mmu]: [MemFrame] the definitions, [MemSections]
      the memory map and the kernel image, [MemFrameMap] the place of the map of
      the frames, [MemPage] single mappings and the first table, [MemMap] ranges
      and the second table.  [MemHeap]: its heap, [mem/mem_heap.c].
    - [VirtMem]: reads and writes at virtual addresses.
    - [MmPage]: [mm/mm_frame.c], [mm/mm_page.c] and the boot part of
      [mm/mm.c], all definitions.  [MmPageRep] is the invariant of the
      direct-access window, [MmPageFrames] the window and the frame allocator,
      [MmPageMap] the mapping of a page, [MmPageClear] and [MmPageUnmap] the
      removal of a mapping with the tables that become empty, [MmPageSample] a
      concrete paging state and the theorems on it, [MmPageScript] sequences of
      requests.
    - [MmHeap]: [mm/mm_heap.c], definitions over an abstract source of pages
      (class [PageSource], with its laws [PageSourceSpec]).  [HeapTiling] is
      the geometry of buddies, [MmHeapRep] the representation invariant,
      [MmHeapLists] the free lists, [MmHeapOps] splitting, coalescing and
      growth, [MmHeapAlloc], [MmHeapFree] and [MmHeapTop] the operations and the
      checks of the built-in test, and
      [MmHeapClient] the abstract allocator they refine.  [MmHeapPages] makes
      the page tables of [MmPage] the heap's source of pages, discharges
      the laws of the class, and joins the bytes of the heap and the memory
      behind the page tables in one memory of the machine.
    - [MmAllocator]: [mm/mm_allocator.c], the object allocator, on the heap.
      [MmAllocatorRep] is its invariant, [MmAllocatorOps] the making of
      allocators and areas, [MmAllocatorTake] a request, [MmAllocatorFree] the
      release, [MmAllocatorTop] the contract.  [MmBoot]: [mm_bootstrap] and all of
      these on the real page tables.

    ** What the theorems show

    - The start as a whole, its log lines left out: on boot information whose
      four tags have their formats, with a memory map and devices that fit
      together and parts of the kernel that stand apart, the kernel runs to its
      halt without a failed assertion; the managed memory, the extent of the
      kernel, the place of the frame map and the PCI express functions are then
      those that the boot information and the firmware's tables describe, and
      the loaded page tables translate the memory below the last page boundary
      of the kernel, the frame buffer's window and nothing else.
    - The kernel heap refines an allocator of disjoint live blocks: an
      allocation returns a block of the asked length that overlaps no live one
      and keeps the contents of the others, a release makes it available again
      and merges it with its free buddies, and wrong requests stop in an
      assertion: a block that was freed cannot be freed again, even when it has
      been merged into a larger one.
    - The object allocator hands out aligned regions that overlap no other
      region of any allocator, and gives every area back when it is freed.
    - The run-time page tables: the window shows one frame at a time and is
      shut between the operations, frames are handed out like a stack, mapping
      a page adds exactly one translation or answers no, unmapping removes
      exactly that one and gives the emptied tables back, every sequence of
      accepted requests keeps this so, and the heap and the object allocator
      run on top of it without a page fault and keep what is stored in them in
      one physical memory, in which different bytes of the heap have different
      addresses.
    - The boot page tables: mapping a page adds exactly one translation, a
      range is mapped page by page in order, and the two bootstrap tables
      translate what they say they do.
    - The boot memory map, the kernel image, multiboot tags, ACPI tables and
      the PCIe bus are read as their formats define them, each against an
      abstract reading of the same bytes; the place of the frame map is found
      when a byte is left between every large section and every device.
    - Interrupt gates round-trip through the format of the CPU, dispatch calls
      the registered handler once and acknowledges the right controllers, and
      polling loops end as soon as the device answers.
    - Text and number formatting is equivalent to a reference definition;
      log lines and panic reports arrive completely and in order; glyphs, panels
      and widgets change exactly the cells or pixels they are to change.
    - Where the code does not do what it means to, a theorem says what it does:
      no heap map of the boot memory manager can be initialised, a panel refuses
      rows once its ring is full, a request that fills an area exactly stops the
      kernel, and the built-in walk over the heap skips blocks.

    ** Fuel

    Every loop of C runs under [loop fuel].  Where the code bounds the number
    of rounds the fuel is a constant that the proofs show to be enough (66 for
    loops over the bits of a word, 4 for the levels of a table, the number of
    classes in the heap); where it depends on data the fuel is an argument and
    the theorems ask for as much as the data needs and no more.

    ** Not modelled

    Assembly: the boot code and the stubs of the interrupt vectors, whose
    addresses are parameters.  The log lines that other files print are left out
    of them (the log itself is modelled): they write to the serial line and,
    once the screen is switched on, into the frame buffer.  That they return is
    not part of the theorems on those files; it takes a serial line that gets
    ready and, on the screen, a display of at least 16 lines.  A failed assertion
    or a panic of another file ends the run instead of drawing its report.  Caches, the TLB and
    other processors (the kernel runs on one).  Devices are parameters: what a
    port or a register answers is a function of the history. *)
From stdpp Require Export base gmap list strings numbers.

#[global] Open Scope Z_scope.

(* ===================================================================== *)
(** ** Machine integers

    An unsigned C integer of width [w] is a [Z] in [0, 2^w); arithmetic
    wraps.  Code expressions on [u64_t], [usz_t], [uptr_t] and [ucnt_t] are
    written in the scope [u64_scope], whose operators wrap at 64 bits. *)

Definition U64_SPAN : Z := 18446744073709551616.
Definition U32_SPAN : Z := 4294967296.
Definition U16_SPAN : Z := 65536.
Definition U8_SPAN : Z := 256.

Definition u64 (x : Z) : Z := x `mod` 18446744073709551616.
Definition u32 (x : Z) : Z := x `mod` 4294967296.
Definition u16 (x : Z) : Z := x `mod` 65536.
Definition u8 (x : Z) : Z := x `mod` 256.

Definition U64_MAX : Z := 18446744073709551615.
Definition BYTE_MAX : Z := 255.
Definition UPTR_NULL : Z := 0.
Definition NULL : Z := 0.

(** The wrapping operators.  Each is a definition of its own so that its
    operands are read in [u64_scope] again. *)
Definition uadd (x y : Z) : Z := u64 (Z.add x y).
Definition usub (x y : Z) : Z := u64 (Z.sub x y).
Definition umul (x y : Z) : Z := u64 (Z.mul x y).
Definition udiv (x y : Z) : Z := Z.div x y.
Definition umod (x y : Z) : Z := Z.modulo x y.
Definition ushl (x y : Z) : Z := u64 (Z.shiftl x y).
Definition ushr (x y : Z) : Z := Z.shiftr x y.
Definition uand (x y : Z) : Z := Z.land x y.
Definition uor (x y : Z) : Z := Z.lor x y.
Definition uxor (x y : Z) : Z := Z.lxor x y.
Definition unot (x : Z) : Z := u64 (Z.lnot x).
Definition ueqb (x y : Z) : bool := Z.eqb x y.
Definition ultb (x y : Z) : bool := Z.ltb x y.
Definition uleb (x y : Z) : bool := Z.leb x y.

Declare Scope u64_scope.
Delimit Scope u64_scope with u64.
Arguments uadd (x y)%_u64_scope.
Arguments usub (x y)%_u64_scope.
Arguments umul (x y)%_u64_scope.
Arguments udiv (x y)%_u64_scope.
Arguments umod (x y)%_u64_scope.
Arguments ushl (x y)%_u64_scope.
Arguments ushr (x y)%_u64_scope.
Arguments uand (x y)%_u64_scope.
Arguments uor (x y)%_u64_scope.
Arguments uxor (x y)%_u64_scope.
Arguments unot (x)%_u64_scope.
Arguments ueqb (x y)%_u64_scope.
Arguments ultb (x y)%_u64_scope.
Arguments uleb (x y)%_u64_scope.

Notation "x + y" := (uadd x y) : u64_scope.
Notation "x - y" := (usub x y) : u64_scope.
Notation "x * y" := (umul x y) : u64_scope.
Notation "x / y" := (udiv x y) : u64_scope.
Notation "x 'mod' y" := (umod x y) : u64_scope.
Notation "x << y" := (ushl x y) (at level 43, left associativity) : u64_scope.
Notation "x >> y" := (ushr x y) (at level 43, left associativity) : u64_scope.
Notation "x & y" := (uand x y) (at level 44, left associativity) : u64_scope.
Notation "x ∣∣ y" := (uor x y) (at level 46, left associativity) : u64_scope.
Notation "x ⊻ y" := (uxor x y) (at level 46, left associativity) : u64_scope.
Notation "~ x" := (unot x) : u64_scope.
Notation "x =? y" := (ueqb x y) : u64_scope.
Notation "x <? y" := (ultb x y) : u64_scope.
Notation "x <=? y" := (uleb x y) : u64_scope.

(** Showing the wrapping of code expressions to the arithmetic tactics. *)
Ltac u64_unfold :=
  unfold uadd, usub, umul, udiv, umod, ushl, ushr, uand, uor, uxor, unot, ueqb, ultb, uleb in *.

Definition is_u64 (x : Z) : Prop := 0 <= x < 18446744073709551616.
Definition is_u8 (x : Z) : Prop := 0 <= x < 256.

(* ===================================================================== *)
(** ** Outcomes and the kernel monad

    [kernel_assert] and [kernel_panic] (src/include/kernel_panic.h) write a
    message and halt the machine: the run ends in [Assert] or [Panic msg].
    [Fault] is undefined behaviour of the C program (a page fault, an access
    outside an array, the read of an uninitialised variable) and [Timeout]
    is an exhausted fuel.  Debug builds are the default of CMakeLists.txt
    ([BUILD_DEBUG_ENABLED ON]), so [kernel_assert_d], [kernel_expect] and
    [kernel_ensure] are [kernel_assert]. *)

Inductive result (A : Type) : Type :=
| Done (a : A)
| Assert
| Panic (msg : string)
| Fault
| Timeout.
Arguments Done {A} _.
Arguments Assert {A}.
Arguments Panic {A} _.
Arguments Fault {A}.
Arguments Timeout {A}.

(** A computation over a state [S] that returns an [A]. *)
Definition M (S A : Type) : Type := S → result (A * S).

#[export] Instance M_ret {S} : MRet (M S) := λ A a s, Done (a, s).
#[export] Instance M_bind {S} : MBind (M S) := λ A B f m s,
  match m s with
  | Done (a, s') => f a s'
  | Assert => Assert
  | Panic msg => Panic msg
  | Fault => Fault
  | Timeout => Timeout
  end.

Definition kernel_assert {S} (b : bool) : M S unit :=
  λ s, if b then Done ((), s) else Assert.
Definition kernel_panic {S A} (msg : string) : M S A := λ _, Panic msg.
Definition fault {S A} : M S A := λ _, Fault.
Definition timeout {S A} : M S A := λ _, Timeout.
Definition gets {S A} (f : S → A) : M S A := λ s, Done (f s, s).
Definition modify {S} (f : S → S) : M S unit := λ s, Done ((), f s).
Definition of_option {S A} (o : option A) : M S A :=
  match o with Some a => mret a | None => fault end.

Abbreviation kernel_assert_d := kernel_assert (only parsing).
Abbreviation kernel_expect := kernel_assert (only parsing).
Abbreviation kernel_ensure := kernel_assert (only parsing).

(** A [while]-like loop on the locals [X]: [inl] goes round again, [inr]
    leaves the loop. *)
Fixpoint loop {S X A} (fuel : nat) (body : X → M S (X + A)) (x : X) : M S A :=
  match fuel with
  | O => timeout
  | Datatypes.S fuel =>
      r ← body x;
      match r with
      | inl x' => loop fuel body x'
      | inr a => mret a
      end
  end.

(** [for (i = lo; n iterations; i++) body(i)] *)
Fixpoint for_n {S} (n : nat) (lo : Z) (body : Z → M S unit) : M S unit :=
  match n with
  | O => mret ()
  | Datatypes.S n => body lo ;; for_n n (lo + 1) body
  end.

(** Running a computation of a part of the state. *)
Definition zoom {S T A} (get : S → T) (set : T → S → S) (m : M T A) : M S A := λ s,
  match m (get s) with
  | Done (a, t) => Done (a, set t s)
  | Assert => Assert
  | Panic msg => Panic msg
  | Fault => Fault
  | Timeout => Timeout
  end.

(* ===================================================================== *)
(** ** Total-correctness weakest preconditions

    [wp m Q s]: run from [s], [m] returns (no failed assertion, no panic, no
    undefined behaviour, no exhausted fuel) in a state satisfying [Q]. *)

Definition wp {S A} (m : M S A) (Q : A → S → Prop) (s : S) : Prop :=
  match m s with
  | Done (a, s') => Q a s'
  | _ => False
  end.

Section wp_rules.
Context {S : Type}.

Lemma wp_bind {A B} (m : M S A) (f : A → M S B) Q s :
  wp m (λ a s', wp (f a) Q s') s → wp (m ≫= f) Q s.
Proof. unfold wp, mbind, M_bind. by destruct (m s) as [[a s']| | | |]. Qed.

Lemma wp_mono {A} (m : M S A) (Q R : A → S → Prop) s :
  wp m Q s → (∀ a s', Q a s' → R a s') → wp m R s.
Proof. unfold wp. destruct (m s) as [[a s']| | | |]; eauto. Qed.

Lemma wp_ret {A} (a : A) (Q : A → S → Prop) s : Q a s → wp (mret a) Q s.
Proof. done. Qed.

Lemma wp_gets {A} (f : S → A) (Q : A → S → Prop) s : Q (f s) s → wp (gets f) Q s.
Proof. done. Qed.

Lemma wp_modify (f : S → S) (Q : unit → S → Prop) s : Q () (f s) → wp (modify f) Q s.
Proof. done. Qed.

Lemma wp_assert (b : bool) (Q : unit → S → Prop) s :
  b = true → Q () s → wp (kernel_assert b) Q s.
Proof. by intros ->. Qed.

Lemma wp_of_option {A} (o : option A) (a : A) (Q : A → S → Prop) s :
  o = Some a → Q a s → wp (of_option o) Q s.
Proof. by intros ->. Qed.

Lemma wp_done {A} (m : M S A) (Q : A → S → Prop) s :
  wp m Q s ↔ ∃ a s', m s = Done (a, s') ∧ Q a s'.
Proof.
  unfold wp. destruct (m s) as [[a s']| | | |]; split; try done; try (by intros (?&?&?&?)).
  - eauto.
  - intros (a0&s0&[= -> ->]&?). done.
Qed.

(** A loop whose body keeps [I] and decreases the measure [μ] returns. *)
Lemma wp_loop {X A} (I : X → S → Prop) (μ : X → nat) (body : X → M S (X + A)) Q n x s :
  I x s → (μ x < n)%nat →
  (∀ x s, I x s → wp (body x) (λ r s', match r with
     | inl x' => I x' s' ∧ (μ x' < μ x)%nat
     | inr a => Q a s'
     end) s) →
  wp (loop n body x) Q s.
Proof.
  intros HI Hn Hb. revert x s HI Hn. induction n as [|n IH]; intros x s HI Hn; [lia|].
  simpl. apply wp_bind. eapply wp_mono; [by apply Hb|].
  intros [x'|a] s'; [|done]. intros [??]. apply IH; [done|lia].
Qed.

(** One round of a loop. *)
Lemma wp_loop_step {X A} (body : X → M S (X + A)) (Q : A → S → Prop) n x s :
  wp (body x) (λ r s', match r with inl x' => wp (loop n body x') Q s' | inr a => Q a s' end) s →
  wp (loop (Datatypes.S n) body x) Q s.
Proof. intros Hb. simpl. apply wp_bind. eapply wp_mono; [exact Hb|]. by intros [x'|a] s'. Qed.

(** A loop whose rounds decrease a measure of locals and state ends, in
    whatever way. *)
Lemma loop_ends {X A} (I : X → S → Prop) (μ : X → S → nat) (body : X → M S (X + A)) n x s :
  I x s → (μ x s < n)%nat →
  (∀ x s, I x s → match body x s with
     | Done (inl x', s') => I x' s' ∧ (μ x' s' < μ x s)%nat
     | Timeout => False
     | _ => True
     end) →
  loop n body x s ≠ Timeout.
Proof.
  intros HI Hn Hb. revert x s HI Hn. induction n as [|n IH]; intros x s HI Hn; [lia|].
  simpl. unfold mbind, M_bind. specialize (Hb x s HI). destruct (body x s) as [[[x'|a] s']| | | |]; try done.
  destruct Hb as [HI' Hmu]. apply IH; [done|lia].
Qed.

(** A counted loop keeps an invariant indexed by the counter. *)
Lemma wp_for_n (I : Z → S → Prop) (body : Z → M S unit) (n : nat) lo (Q : unit → S → Prop) s :
  I lo s →
  (∀ i s, lo <= i < lo + Z.of_nat n → I i s → wp (body i) (λ _ s', I (i + 1) s') s) →
  (∀ s', I (lo + Z.of_nat n) s' → Q () s') →
  wp (for_n n lo body) Q s.
Proof.
  revert lo s. induction n as [|n IH]; intros lo s HI Hb HQ; simpl.
  - apply wp_ret, HQ. by rewrite Z.add_0_r.
  - apply wp_bind. eapply wp_mono; [apply Hb; [lia|done]|].
    intros [] s' HI'. apply IH; [done| |].
    + intros i s'' Hi. apply Hb. lia.
    + intros s''. replace (lo + 1 + Z.of_nat n) with (lo + Z.of_nat (Datatypes.S n)) by lia.
      apply HQ.
Qed.

Lemma wp_zoom {T A} (get : S → T) (set : T → S → S) (m : M T A) (Q : A → S → Prop) s :
  wp m (λ a t, Q a (set t s)) (get s) → wp (zoom get set m) Q s.
Proof. unfold wp, zoom. by destruct (m (get s)) as [[a t]| | | |]. Qed.

(** The postcondition of a run that is known. *)
Lemma wp_run {A} (m : M S A) (Q : A → S → Prop) s a s' :
  m s = Done (a, s') → wp m Q s → Q a s'.
Proof. unfold wp. by intros ->. Qed.

End wp_rules.

#[global] Opaque wp.

(** [M_bind] equations for runs that are known not to return. *)
Lemma bind_done {S A B} (m : M S A) (f : A → M S B) s a s' :
  m s = Done (a, s') → (m ≫= f) s = f a s'.
Proof. unfold mbind, M_bind. by intros ->. Qed.

Lemma bind_assert {S A B} (m : M S A) (f : A → M S B) s :
  m s = Assert → (m ≫= f) s = Assert.
Proof. unfold mbind, M_bind. by intros ->. Qed.

Lemma bind_panic {S A B} (m : M S A) (f : A → M S B) s msg :
  m s = Panic msg → (m ≫= f) s = Panic msg.
Proof. unfold mbind, M_bind. by intros ->. Qed.

Lemma bind_fault {S A B} (m : M S A) (f : A → M S B) s :
  m s = Fault → (m ≫= f) s = Fault.
Proof. unfold mbind, M_bind. by intros ->. Qed.

(** A computation that fails an assertion after a part that returns. *)
Lemma then_assert {S A B} (m : M S A) (f : A → M S B) t : wp m (λ a t', f a t' = Assert) t → (m ≫= f) t = Assert.
Proof. intros (a&t'&Hm&Hf)%wp_done. by rewrite (bind_done _ _ _ _ _ Hm). Qed.

(** A guard decides between the rest of a computation and a failed assertion. *)
Lemma assert_then {S A} (b : bool) (m : M S A) s :
  (kernel_assert b ;; m) s = if b then m s else Assert.
Proof. by destruct b. Qed.

(* ===================================================================== *)
(** ** Automation *)

(** Stepping through a computation. *)
Ltac wp_step :=
  lazymatch goal with
  | |- wp (mbind _ _) _ _ => apply wp_bind
  | |- wp (mret _) _ _ => apply wp_ret
  | |- wp (gets _) _ _ => apply wp_gets; cbv beta
  | |- wp (modify _) _ _ => apply wp_modify
  | |- wp (kernel_assert _) _ _ => apply wp_assert
  end.
Ltac wp_steps := repeat (wp_step; cbv beta).

(** [lia] with euclidean division by constants. *)
Ltac zlia := Z.div_mod_to_equations; lia.

(** Boolean tests of the code and their propositions. *)
Ltac bsimp :=
  repeat match goal with
  | H : _ && _ = true |- _ => apply andb_true_iff in H as [? ?]
  | H : (_ =? _) = true |- _ => apply Z.eqb_eq in H
  | H : (_ =? _) = false |- _ => apply Z.eqb_neq in H
  | H : (_ <? _) = true |- _ => apply Z.ltb_lt in H
  | H : (_ <? _) = false |- _ => apply Z.ltb_ge in H
  | H : (_ <=? _) = true |- _ => apply Z.leb_le in H
  | H : (_ <=? _) = false |- _ => apply Z.leb_gt in H
  | |- _ && _ = true => apply andb_true_iff; split
  | |- (_ =? _) = true => apply Z.eqb_eq
  | |- (_ =? _) = false => apply Z.eqb_neq
  | |- (_ <? _) = true => apply Z.ltb_lt
  | |- (_ <? _) = false => apply Z.ltb_ge
  | |- (_ <=? _) = true => apply Z.leb_le
  | |- (_ <=? _) = false => apply Z.leb_gt
  end.

Create HintDb cing.

(* ===================================================================== *)
(** ** Shared arithmetic *)

Lemma u64_small x : 0 <= x < 18446744073709551616 → u64 x = x.
Proof. apply Z.mod_small. Qed.

Lemma u64_range x : 0 <= u64 x < 18446744073709551616.
Proof. by apply Z.mod_pos_bound. Qed.

Lemma u64_idemp x : u64 (u64 x) = u64 x.
Proof. apply Z.mod_mod. lia. Qed.

Lemma u64_plus_span x : u64 (x + 18446744073709551616) = u64 x.
Proof.
  unfold u64. replace (x + 18446744073709551616) with (x + 1 * 18446744073709551616) by lia.
  apply Z_mod_plus_full.
Qed.

Lemma u8_range x : 0 <= u8 x < 256.
Proof. by apply Z.mod_pos_bound. Qed.

Lemma u8_small x : 0 <= x < 256 → u8 x = x.
Proof. apply Z.mod_small. Qed.

Lemma u32_small x : 0 <= x < 4294967296 → u32 x = x.
Proof. apply Z.mod_small. Qed.

Lemma pow2_64 : 2 ^ 64 = 18446744073709551616.
Proof. reflexivity. Qed.

Lemma mod_divide_iff a b : b ≠ 0 → a `mod` b = 0 ↔ (b | a).
Proof. apply Z.mod_divide. Qed.

(** Powers of two divide one another. *)
Lemma pow2_divide a b : 0 <= a <= b → (2 ^ a | 2 ^ b).
Proof.
  intros H. exists (2 ^ (b - a)). rewrite <-Z.pow_add_r by lia. f_equal. lia.
Qed.

Lemma pow2_pos a : 0 <= a → 0 < 2 ^ a.
Proof. intros. by apply Z.pow_pos_nonneg. Qed.

(** Two multiples of [d] that are closer than [d] are equal. *)
Lemma divide_close d x y : 0 < d → (d | x) → (d | y) → x <= y < x + d → x = y.
Proof. intros Hd [a ->] [b ->] H. f_equal. nia. Qed.

(** [|] of numbers without common bits is [+]. *)
Lemma lor_add k a b : 0 <= k → (2 ^ k | a) → 0 <= b < 2 ^ k → Z.lor a b = a + b.
Proof.
  intros Hk [q ->] Hb.
  assert (Z.land (q * 2 ^ k) b = 0) as Hland.
  { apply Z.bits_inj'. intros n Hn. rewrite Z.land_spec, Z.bits_0, <-Z.shiftl_mul_pow2 by done.
    destruct (decide (n < k)).
    - by rewrite Z.shiftl_spec_low.
    - rewrite (Z.testbit_eqb b) by done.
      rewrite Z.div_small; [by rewrite andb_false_r|].
      pose proof (Z.pow_le_mono_r 2 k n ltac:(lia) ltac:(lia)). lia. }
  rewrite <-Z.lxor_lor by done. symmetry. by apply Z.add_nocarry_lxor.
Qed.

(** A check of all the numbers below a bound, by evaluation. *)
Lemma forallb_seqZ (P : Z → bool) n i : forallb P (seqZ 0 n) = true → 0 <= i < n → P i = true.
Proof.
  intros Hall Hi. rewrite forallb_forall in Hall. apply Hall, list_elem_of_In, elem_of_seqZ. lia.
Qed.

#[export] Hint Resolve u64_range u8_range pow2_pos : cing.
