(* ===== verification/Fonts.v ===== *)
(** The 8x16 fonts, src/video/video.c and src/tui/tui_fonts.c: sixteen bytes for
    each of the 256 characters, one line of the glyph per byte, the leftmost
    pixel in bit 7.

    A glyph is written as one number of sixteen bytes, its top line first: the
    hexadecimal digits are those of the row of the table in the source. *)
From S2P Require Import Prelude.

(** The sixteen bytes of a glyph, the most significant one first. *)
Definition glyph_bytes (g : Z) : list Z := (λ i, Z.land (Z.shiftr g (8 * (15 - i))) 0xff) <$> seqZ 0 16.

(** The characters from 0 to 127, and from 128 on. *)
Definition font_vga_8x16_low : list Z := [
  0x00000000000000000000000000000000;
  0x00007e81a58181bd9981817e00000000;
  0x00007effdbffffc3e7ffff7e00000000;
  0x00000000367f7f7f3e1c080800000000;
  0x00000000081c3e7f7f3e1c0800000000;
  0x00003c7e3cc3e7e7db18183c00000000;
  0x0000081c3e7f7f7f3e08081c00000000;
  0x0000000000001c3e3e1c000000000000;
  0xffffffffffffe3c1c1e3ffffffffffff;
  0x00000000003c766262763c0000000000;
  0xffffffffffc3899d9d89c3ffffffffff;
  0x00003f0f1d387e636363633e00000000;
  0x00003e636363633e1c7f1c1c00000000;
  0x000c0e0d0d0e0d0d0c1c7f1c00000000;
  0x00071f3b33373b333337755770000000;
  0x0000001818db3ce73cdb181800000000;
  0x006070787c7e7f7e7c78706000000000;
  0x0003070f1f3f7f3f1f0f070300000000;
  0x00001c3e7f1c1c1c7f3e1c0000000000;
  0x00006363636363636300636300000000;
  0x00003f6d6d6d3d0d0d0d0d0d00000000;
  0x00003e63603e63633e03633e00000000;
  0x0000000000000000ffffffff00000000;
  0x00001c3e7f1c1c1c7f3e1c7f00000000;
  0x00001c3e7f1c1c1c1c1c1c1c00000000;
  0x00001c1c1c1c1c1c1c7f3e1c00000000;
  0x000000381c0e7f7f0e1c380000000000;
  0x0000000e1c387f7f381c0e0000000000;
  0x0000000000006060607f000000000000;
  0x000000000014367f3614000000000000;
  0x00000000081c1c3e3e7f7f0000000000;
  0x000000007f7f3e3e1c1c080000000000;
  0x00000000000000000000000000000000;
  0x00181818181818181800181800000000;
  0x003377eedc0000000000000000000000;
  0x00006666ffff6666ffff666600000000;
  0x0018183c6630180c663c181800000000;
  0x0000705173060c183067450700000000;
  0x00003c66663c386b6666663f00000000;
  0x000e1c38700000000000000000000000;
  0x00001c30606060606060301c00000000;
  0x0000380c0606060606060c3800000000;
  0x0000000063361c7f1c36630000000000;
  0x00000000181818ff1818180000000000;
  0x000000000000000000180c0c18300000;
  0x000000000000007f0000000000000000;
  0x00000000000000000000181800000000;
  0x000000000103060c1830604000000000;
  0x00001c3663636b6b6363361c00000000;
  0x00000e1e366606060606060600000000;
  0x00003e6303060c183060607f00000000;
  0x00007e0303033e030303037e00000000;
  0x0000070f1b3363637f03030300000000;
  0x00007f6060607e030303037e00000000;
  0x00001f3060607e636363633e00000000;
  0x00007f6303060c183030303000000000;
  0x00003e6363361c366363633e00000000;
  0x00003e6363633f030303067c00000000;
  0x00000000001818000000181800000000;
  0x00000000000c0c0000000c0c18300000;
  0x000000060c18306030180c0600000000;
  0x00000000007e0000007e000000000000;
  0x0000006030180c060c18306000000000;
  0x00003e6363060c0c0c000c0c00000000;
  0x00003e63636f6b6b6e60603e00000000;
  0x00001c366363637f6363636300000000;
  0x00007e6363637e636363637e00000000;
  0x00001e33616060606061331e00000000;
  0x00007c66636363636363667c00000000;
  0x00007f6060607e606060607f00000000;
  0x00007f6060607c606060606000000000;
  0x00001e33636060676363331e00000000;
  0x0000636363637f636363636300000000;
  0x00007e18181818181818187e00000000;
  0x00000606060606066666663c00000000;
  0x00006666666c78786c66666600000000;
  0x00006060606060606060607e00000000;
  0x000063777f6b6b636363636300000000;
  0x00006363736b67636363636300000000;
  0x00003e63636363636363633e00000000;
  0x00007e636363637e6060606000000000;
  0x00003e6363636363637b6f3e06030000;
  0x00007e6363637e6c6666636300000000;
  0x00003e636330180c0663633e00000000;
  0x0000ff18181818181818181800000000;
  0x00006363636363636363633e00000000;
  0x000063636363636363361c0800000000;
  0x000063636363636b6b7f776300000000;
  0x0000636322361c1c3622636300000000;
  0x0000636363633e0c0c0c0c0c00000000;
  0x00007f0303060c183060607f00000000;
  0x00003e30303030303030303e00000000;
  0x00006060303018180c0c060600000000;
  0x00003e06060606060606063e00000000;
  0x00081c36630000000000000000000000;
  0x0000000000000000000000000000ff00;
  0x0070381c0e0000000000000000000000;
  0x00000000003c06063e66663f00000000;
  0x00006060606e73636363736e00000000;
  0x00000000003e63606060633e00000000;
  0x00000303033b67636363673b00000000;
  0x00000000003e63637e60603f00000000;
  0x00001e3330307c303030303000000000;
  0x00000000003b67636363673b03037e00;
  0x00006060606e73636363636300000000;
  0x00001818003818181818181800000000;
  0x00000606000606060606060666663c00;
  0x0000606060667c70787c666600000000;
  0x00001818181818181818180c00000000;
  0x0000000000767f6b6b6b636300000000;
  0x00000000006c76666666666600000000;
  0x00000000003e63636363633e00000000;
  0x00000000006e73636363736e60606000;
  0x00000000003b67636363673b03030300;
  0x0000000000763b303030303000000000;
  0x00000000003c6630180c663c00000000;
  0x00001818187e18181818180c00000000;
  0x00000000006666666666663b00000000;
  0x000000000066666666663c1800000000;
  0x000000000063636b6b6b7f3600000000;
  0x000000000063361c1c1c366300000000;
  0x00000000006363636363673b03037e00;
  0x00000000007e060c1830607e00000000;
  0x00000e18181870181818180e00000000;
  0x00181818181800181818181800000000;
  0x0000701818180e181818187000000000;
  0x00003b6e000000000000000000000000;
  0x00000000081c366363637f0000000000].

Definition font_vga_8x16_high : list Z := [
  0x00001e33616060606061331e06067c00;
  0x00006666006666666666663b00000000;
  0x00060c18003e63637e60603f00000000;
  0x00081c36003c06063e66663f00000000;
  0x00003636003c06063e66663f00000000;
  0x00180c06003c06063e66663f00000000;
  0x001c361c003c06063e66663f00000000;
  0x00000000003e63606060633e06063c00;
  0x00081c36003e63637e60603f00000000;
  0x00003636003e63637e60603f00000000;
  0x00180c06003e63637e60603f00000000;
  0x00006c6c003818181818181800000000;
  0x00183c66003818181818181800000000;
  0x0030180c003818181818181800000000;
  0x0063001c3663637f6363636300000000;
  0x001c361c3663637f6363636300000000;
  0x000e187f6060607e6060607f00000000;
  0x0000000000663b1b3f6c6c3700000000;
  0x00001f3c6c6c7f6c6c6c6c6f00000000;
  0x00081c36003e63636363633e00000000;
  0x00003636003e63636363633e00000000;
  0x00180c06003e63636363633e00000000;
  0x00183c66006666666666663b00000000;
  0x0030180c006666666666663b00000000;
  0x00003636006363636363673b03037e00;
  0x0063003e636363636363633e00000000;
  0x00630063636363636363633e00000000;
  0x0018183c66626062663c181800000000;
  0x00001c3e3230307e3030337e00000000;
  0x0000666666663c187e18181800000000;
  0x006c7666667864646e64646600000000;
  0x000e191818187f0c0c0c4c3800000000;
  0x00060c18003c06063e66663f00000000;
  0x00060c18003818181818181800000000;
  0x00060c18003e63636363633e00000000;
  0x000c1830006666666666663b00000000;
  0x00003b6e006c76666666666600000000;
  0x00738c636363736b6763636300000000;
  0x003e66663f007f000000000000000000;
  0x003c66663c007e000000000000000000;
  0x00001818001818183073633e00000000;
  0x00000000007f7f707070700000000000;
  0x00000000007f7f070707070000000000;
  0x0060606163660c18306e43060c1f0000;
  0x0060606163660c1833674b133f030000;
  0x00001818001818181818181818000000;
  0x00000000003366cc6633000000000000;
  0x0000000000cc663366cc000000000000;
  0x11441144114411441144114411441144;
  0x55aa55aa55aa55aa55aa55aa55aa55aa;
  0xdd77dd77dd77dd77dd77dd77dd77dd77;
  0x18181818181818181818181818181818;
  0x18181818181818f81818181818181818;
  0x1818181818f818f81818181818181818;
  0x36363636363636f63636363636363636;
  0x00000000000000fe3636363636363636;
  0x0000000000f818f81818181818181818;
  0x3636363636f606f63636363636363636;
  0x36363636363636363636363636363636;
  0x0000000000fe06f63636363636363636;
  0x3636363636f606fe0000000000000000;
  0x36363636363636fe0000000000000000;
  0x1818181818f818f80000000000000000;
  0x00000000000000f81818181818181818;
  0x181818181818181f0000000000000000;
  0x18181818181818ff0000000000000000;
  0x00000000000000ff1818181818181818;
  0x181818181818181f1818181818181818;
  0x00000000000000ff0000000000000000;
  0x18181818181818ff1818181818181818;
  0x18181818181f181f1818181818181818;
  0x36363636363636373636363636363636;
  0x363636363637303f0000000000000000;
  0x00000000003f30373636363636363636;
  0x3636363636f700ff0000000000000000;
  0x0000000000ff00f73636363636363636;
  0x36363636363730373636363636363636;
  0x0000000000ff00ff0000000000000000;
  0x3636363636f700f73636363636363636;
  0x1818181818ff00ff0000000000000000;
  0x36363636363636ff0000000000000000;
  0x0000000000ff00ff1818181818181818;
  0x00000000000000ff3636363636363636;
  0x363636363636363f0000000000000000;
  0x18181818181f181f0000000000000000;
  0x00000000001f181f1818181818181818;
  0x000000000000003f3636363636363636;
  0x36363636363636ff3636363636363636;
  0x1818181818ff18ff1818181818181818;
  0x18181818181818f80000000000000000;
  0x000000000000001f1818181818181818;
  0xffffffffffffffffffffffffffffffff;
  0x00000000000000ffffffffffffffffff;
  0xf0f0f0f0f0f0f0f0f0f0f0f0f0f0f0f0;
  0x0f0f0f0f0f0f0f0f0f0f0f0f0f0f0f0f;
  0xffffffffffffff000000000000000000;
  0x00000000007bceccccccce7b00000000;
  0x00002c7666666e636363636e00000000;
  0x00007f63606060606060606000000000;
  0x00000000007fb6363636363600000000;
  0x00007f6330180c0c1830637f00000000;
  0x00000000003f66666666663c00000000;
  0x00000000006666666666667b60606000;
  0x00000000007f8c0c0c0c0c0c00000000;
  0x000018187edbdbdbdb7e181800000000;
  0x00003c66c3c3bdc3c3c3663c00000000;
  0x00003c66c3c3c3c3c36666e700000000;
  0x00003e73381c3e636363633e00000000;
  0x0000000000007edbdb7e000000000000;
  0x0000181818187edbdbdb7e1818180000;
  0x00000000001e30603c60301e00000000;
  0x00003e63636363636363636300000000;
  0x0000007f0000007f0000007f00000000;
  0x0000001818187e18181800ff00000000;
  0x00000070381c0e1c3870007e00000000;
  0x0000000e1c3870381c0e007e00000000;
  0x00000e1b1b1818181818181818181818;
  0x1818181818181818d8d8d87000000000;
  0x000000001818007e0018180000000000;
  0x00000000003b6e003b6e000000000000;
  0x003c66663c0000000000000000000000;
  0x00000000000018180000000000000000;
  0x00000000000000001800000000000000;
  0x000f0f0c0c0c0ccccc6c6c3c1c000000;
  0x006c7666666666000000000000000000;
  0x003c260c18303e000000000000000000;
  0x000000003e3e3e3e3e3e3e0000000000;
  0x00000000000000000000000000000000].

Definition font_vga_8x16 : list Z := (font_vga_8x16_low ++ font_vga_8x16_high) ≫= glyph_bytes.

Definition FONT_VGA_8x16_low : list Z := [
  0x00000000000000000000000000000000;
  0x00007e81a58181bd9981817e00000000;
  0x00007effdbffffc3e7ffff7e00000000;
  0x00000000367f7f7f3e1c080800000000;
  0x00000000081c3e7f7f3e1c0800000000;
  0x00003c7e3cc3e7e7db18183c00000000;
  0x0000081c3e7f7f7f3e08081c00000000;
  0x0000000000001c3e3e1c000000000000;
  0xffffffffffffe3c1c1e3ffffffffffff;
  0x00000000003c766262763c0000000000;
  0xffffffffffc3899d9d89c3ffffffffff;
  0x00003f0f1d387e636363633e00000000;
  0x00003e636363633e1c7f1c1c00000000;
  0x000c0e0d0d0e0d0d0c1c7f1c00000000;
  0x00071f3b33373b333337755770000000;
  0x0000001818db3ce73cdb181800000000;
  0x006070787c7e7f7e7c78706000000000;
  0x0003070f1f3f7f3f1f0f070300000000;
  0x00001c3e7f1c1c1c7f3e1c0000000000;
  0x00006363636363636300636300000000;
  0x00003f6d6d6d3d0d0d0d0d0d00000000;
  0x00003e63603e63633e03633e00000000;
  0x0000000000000000ffffffff00000000;
  0x00001c3e7f1c1c1c7f3e1c7f00000000;
  0x00001c3e7f1c1c1c1c1c1c1c00000000;
  0x00001c1c1c1c1c1c1c7f3e1c00000000;
  0x000000381c0e7f7f0e1c380000000000;
  0x0000000e1c387f7f381c0e0000000000;
  0x0000000000006060607f000000000000;
  0x000000000014367f3614000000000000;
  0x00000000081c1c3e3e7f7f0000000000;
  0x000000007f7f3e3e1c1c080000000000;
  0x00000000000000000000000000000000;
  0x00181818181818181800181800000000;
  0x003377eedc0000000000000000000000;
  0x00006666ffff6666ffff666600000000;
  0x0018183c6630180c663c181800000000;
  0x0000705173060c183067450700000000;
  0x00003c66663c386b6666663f00000000;
  0x000e1c38700000000000000000000000;
  0x00001c30606060606060301c00000000;
  0x0000380c0606060606060c3800000000;
  0x0000000063361c7f1c36630000000000;
  0x00000000181818ff1818180000000000;
  0x000000000000000000180c0c18300000;
  0x000000000000007f0000000000000000;
  0x00000000000000000000181800000000;
  0x000000000103060c1830604000000000;
  0x00001c3663636b6b6363361c00000000;
  0x00000e1e366606060606060600000000;
  0x00003e6303060c183060607f00000000;
  0x00007e0303033e030303037e00000000;
  0x0000070f1b3363637f03030300000000;
  0x00007f6060607e030303037e00000000;
  0x00001f3060607e636363633e00000000;
  0x00007f6303060c183030303000000000;
  0x00003e6363361c366363633e00000000;
  0x00003e6363633f030303067c00000000;
  0x00000000001818000000181800000000;
  0x00000000000c0c0000000c0c18300000;
  0x000000060c18306030180c0600000000;
  0x00000000007e0000007e000000000000;
  0x0000006030180c060c18306000000000;
  0x00003e6363060c0c0c000c0c00000000;
  0x00003e63636f6b6b6e60603e00000000;
  0x00001c366363637f6363636300000000;
  0x00007e6363637e636363637e00000000;
  0x00001e33616060606061331e00000000;
  0x00007c66636363636363667c00000000;
  0x00007f6060607e606060607f00000000;
  0x00007f6060607c606060606000000000;
  0x00001e33636060676363331e00000000;
  0x0000636363637f636363636300000000;
  0x00007e18181818181818187e00000000;
  0x00000606060606066666663c00000000;
  0x00006666666c78786c66666600000000;
  0x00006060606060606060607e00000000;
  0x000063777f6b6b636363636300000000;
  0x00006363736b67636363636300000000;
  0x00003e63636363636363633e00000000;
  0x00007e636363637e6060606000000000;
  0x00003e6363636363637b6f3e06030000;
  0x00007e6363637e6c6666636300000000;
  0x00003e636330180c0663633e00000000;
  0x0000ff18181818181818181800000000;
  0x00006363636363636363633e00000000;
  0x000063636363636363361c0800000000;
  0x000063636363636b6b7f776300000000;
  0x0000636322361c1c3622636300000000;
  0x0000636363633e0c0c0c0c0c00000000;
  0x00007f0303060c183060607f00000000;
  0x00003e30303030303030303e00000000;
  0x00006060303018180c0c060600000000;
  0x00003e06060606060606063e00000000;
  0x00081c36630000000000000000000000;
  0x0000000000000000000000000000ff00;
  0x0070381c0e0000000000000000000000;
  0x00000000003c06063e66663f00000000;
  0x00006060606e73636363736e00000000;
  0x00000000003e63606060633e00000000;
  0x00000303033b67636363673b00000000;
  0x00000000003e63637e60603f00000000;
  0x00001e3330307c303030303000000000;
  0x00000000003b67636363673b03037e00;
  0x00006060606e73636363636300000000;
  0x00001818003818181818181800000000;
  0x00000606000606060606060666663c00;
  0x0000606060667c70787c666600000000;
  0x00001818181818181818180c00000000;
  0x0000000000767f6b6b6b636300000000;
  0x00000000006c76666666666600000000;
  0x00000000003e63636363633e00000000;
  0x00000000006e73636363736e60606000;
  0x00000000003b67636363673b03030300;
  0x0000000000763b303030303000000000;
  0x00000000003c6630180c663c00000000;
  0x00001818187e18181818180c00000000;
  0x00000000006666666666663b00000000;
  0x000000000066666666663c1800000000;
  0x000000000063636b6b6b7f3600000000;
  0x000000000063361c1c1c366300000000;
  0x00000000006363636363673b03037e00;
  0x00000000007e060c1830607e00000000;
  0x00000e18181870181818180e00000000;
  0x00181818181800181818181800000000;
  0x0000701818180e181818187000000000;
  0x00003b6e000000000000000000000000;
  0x00000000081c366363637f0000000000].

Definition FONT_VGA_8x16_high : list Z := [
  0x00001e33616060606061331e06067c00;
  0x00006666006666666666663b00000000;
  0x00060c18003e63637e60603f00000000;
  0x00081c36003c06063e66663f00000000;
  0x00003636003c06063e66663f00000000;
  0x00180c06003c06063e66663f00000000;
  0x001c361c003c06063e66663f00000000;
  0x00000000003e63606060633e06063c00;
  0x00081c36003e63637e60603f00000000;
  0x00003636003e63637e60603f00000000;
  0x00180c06003e63637e60603f00000000;
  0x00006c6c003818181818181800000000;
  0x00183c66003818181818181800000000;
  0x0030180c003818181818181800000000;
  0x0063001c3663637f6363636300000000;
  0x001c361c3663637f6363636300000000;
  0x000e187f6060607e6060607f00000000;
  0x0000000000663b1b3f6c6c3700000000;
  0x00001f3c6c6c7f6c6c6c6c6f00000000;
  0x00081c36003e63636363633e00000000;
  0x00003636003e63636363633e00000000;
  0x00180c06003e63636363633e00000000;
  0x00183c66006666666666663b00000000;
  0x0030180c006666666666663b00000000;
  0x00003636006363636363673b03037e00;
  0x0063003e636363636363633e00000000;
  0x00630063636363636363633e00000000;
  0x0018183c66626062663c181800000000;
  0x00001c3e3230307e3030337e00000000;
  0x0000666666663c187e18181800000000;
  0x006c7666667864646e64646600000000;
  0x000e191818187f0c0c0c4c3800000000;
  0x00060c18003c06063e66663f00000000;
  0x00060c18003818181818181800000000;
  0x00060c18003e63636363633e00000000;
  0x000c1830006666666666663b00000000;
  0x00003b6e006c76666666666600000000;
  0x00738c636363736b6763636300000000;
  0x003e66663f007f000000000000000000;
  0x003c66663c007e000000000000000000;
  0x00001818001818183073633e00000000;
  0x00000000007f7f707070700000000000;
  0x00000000007f7f070707070000000000;
  0x0060606163660c18306e43060c1f0000;
  0x0060606163660c1833674b133f030000;
  0x00001818001818181818181818000000;
  0x00000000003366cc6633000000000000;
  0x0000000000cc663366cc000000000000;
  0x11441144114411441144114411441144;
  0x55aa55aa55aa55aa55aa55aa55aa55aa;
  0xdd77dd77dd77dd77dd77dd77dd77dd77;
  0x18181818181818181818181818181818;
  0x18181818181818f81818181818181818;
  0x1818181818f818f81818181818181818;
  0x36363636363636f63636363636363636;
  0x00000000000000fe3636363636363636;
  0x0000000000f818f81818181818181818;
  0x3636363636f606f63636363636363636;
  0x36363636363636363636363636363636;
  0x0000000000fe06f63636363636363636;
  0x3636363636f606fe0000000000000000;
  0x36363636363636fe0000000000000000;
  0x1818181818f818f80000000000000000;
  0x00000000000000f81818181818181818;
  0x181818181818181f0000000000000000;
  0x18181818181818ff0000000000000000;
  0x00000000000000ff1818181818181818;
  0x181818181818181f1818181818181818;
  0x00000000000000ff0000000000000000;
  0x18181818181818ff1818181818181818;
  0x18181818181f181f1818181818181818;
  0x36363636363636373636363636363636;
  0x363636363637303f0000000000000000;
  0x00000000003f30373636363636363636;
  0x3636363636f700ff0000000000000000;
  0x0000000000ff00f73636363636363636;
  0x36363636363730373636363636363636;
  0x0000000000ff00ff0000000000000000;
  0x3636363636f700f73636363636363636;
  0x1818181818ff00ff0000000000000000;
  0x36363636363636ff0000000000000000;
  0x0000000000ff00ff1818181818181818;
  0x00000000000000ff3636363636363636;
  0x363636363636363f0000000000000000;
  0x18181818181f181f0000000000000000;
  0x00000000001f181f1818181818181818;
  0x000000000000003f3636363636363636;
  0x36363636363636ff3636363636363636;
  0x1818181818ff18ff1818181818181818;
  0x18181818181818f80000000000000000;
  0x000000000000001f1818181818181818;
  0xffffffffffffffffffffffffffffffff;
  0x00000000000000ffffffffffffffffff;
  0xf0f0f0f0f0f0f0f0f0f0f0f0f0f0f0f0;
  0x0f0f0f0f0f0f0f0f0f0f0f0f0f0f0f0f;
  0xffffffffffffff000000000000000000;
  0x00000000007bceccccccce7b00000000;
  0x00002c7666666e636363636e00000000;
  0x00007f63606060606060606000000000;
  0x00000000007fb6363636363600000000;
  0x00007f6330180c0c1830637f00000000;
  0x00000000003f66666666663c00000000;
  0x00000000006666666666667b60606000;
  0x00000000007f8c0c0c0c0c0c00000000;
  0x000018187edbdbdbdb7e181800000000;
  0x00003c66c3c3bdc3c3c3663c00000000;
  0x00003c66c3c3c3c3c36666e700000000;
  0x00003e73381c3e636363633e00000000;
  0x0000000000007edbdb7e000000000000;
  0x0000181818187edbdbdb7e1818180000;
  0x00000000001e30603c60301e00000000;
  0x00003e63636363636363636300000000;
  0x0000007f0000007f0000007f00000000;
  0x0000001818187e18181800ff00000000;
  0x00000070381c0e1c3870007e00000000;
  0x0000000e1c3870381c0e007e00000000;
  0x00000e1b1b1818181818181818181818;
  0x1818181818181818d8d8d87000000000;
  0x000000001818007e0018180000000000;
  0x00000000003b6e003b6e000000000000;
  0x003c66663c0000000000000000000000;
  0x00000000000018180000000000000000;
  0x00000000000000001800000000000000;
  0x000f0f0c0c0c0ccccc6c6c3c1c000000;
  0x006c7666666666000000000000000000;
  0x003c260c18303e000000000000000000;
  0x000000003e3e3e3e3e3e3e0000000000;
  0x00000000000000000000000000000000].

Definition FONT_VGA_8x16 : list Z := (FONT_VGA_8x16_low ++ FONT_VGA_8x16_high) ≫= glyph_bytes.

(** Both files hold the same font, with all its lines. *)
Lemma fonts_agree : font_vga_8x16 = FONT_VGA_8x16 ∧ length font_vga_8x16 = 4096%nat.
Proof. split; vm_compute; reflexivity. Qed.

Lemma font_bytes : Forall is_u8 font_vga_8x16.
Proof.
  assert (forallb (λ b, (0 <=? b) && (b <? 256)) font_vga_8x16 = true) as Hb by (vm_compute; reflexivity).
  rewrite forallb_forall in Hb. apply Forall_forall. intros b Hin%Hb. bsimp. unfold is_u8. lia.
Qed.
