(* ===== verification/Memory.v ===== *)
(** Byte-addressed memory.

    Every component that follows pointers (page tables, heap headers, boot
    information, ACPI tables, the interrupt descriptor table) works on a
    [memory]: a finite map from addresses to bytes.  A byte that was never
    written has some unknown content; since the theorems quantify over the
    initial map, absent addresses may as well read as 0.  [load]/[store]
    are the little-endian multi-byte accesses that the x86-64 code performs
    through casts such as [*(u64_t * )entry]. *)
From S2P Require Import Prelude.

Abbreviation memory := (gmap Z Z).

Definition load8 (m : memory) (a : Z) : Z := u8 (default 0 (m !! a)).
Definition store8 (a v : Z) (m : memory) : memory := <[a := u8 v]> m.

Fixpoint load (n : nat) (m : memory) (a : Z) : Z :=
  match n with
  | O => 0
  | S n => load8 m a + 256 * load n m (a + 1)
  end.

Fixpoint store (n : nat) (a v : Z) (m : memory) : memory :=
  match n with
  | O => m
  | S n => store n (a + 1) (v / 256) (store8 a v m)
  end.

(** [for (i = 0; i < n; i++) mem[i] = v] *)
Fixpoint fill (n : nat) (a v : Z) (m : memory) : memory :=
  match n with
  | O => m
  | S n => fill n (a + 1) v (store8 a v m)
  end.

Definition load64 (m : memory) (a : Z) : Z := load 8 m a.
Definition store64 (a v : Z) (m : memory) : memory := store 8 a v m.
Definition load32 (m : memory) (a : Z) : Z := load 4 m a.
Definition load16 (m : memory) (a : Z) : Z := load 2 m a.

(** Two memories with the same contents on [lo, hi). *)
Definition agree (lo hi : Z) (m m' : memory) : Prop :=
  ∀ i, lo <= i < hi → load8 m i = load8 m' i.

(** Memories are compared by the bytes they hold. *)
#[export] Instance memory_equiv : Equiv memory := λ m m', ∀ a, load8 m a = load8 m' a.

(* --------------------------------------------------------------------- *)

#[export] Instance memory_equivalence : Equivalence (≡@{memory}).
Proof.
  split.
  - by intros m a.
  - intros m m' H a. by rewrite H.
  - intros m m' m'' H H' a. by rewrite H, H'.
Qed.

#[export] Instance agree_equivalence lo hi : Equivalence (agree lo hi).
Proof.
  split.
  - by intros m i Hi.
  - intros m m' H i Hi. by rewrite H.
  - intros m m' m'' H H' i Hi. by rewrite H, H'.
Qed.

Lemma agree_equiv lo hi m m' : m ≡ m' → agree lo hi m m'.
Proof. intros H i _. apply H. Qed.

Lemma agree_weaken lo hi lo' hi' m m' :
  agree lo hi m m' → lo <= lo' → hi' <= hi → agree lo' hi' m m'.
Proof. intros H ?? i Hi. apply H. lia. Qed.

Lemma load8_range m a : 0 <= load8 m a < 256.
Proof. apply u8_range. Qed.

Lemma load8_store8_eq m a v : load8 (store8 a v m) a = u8 v.
Proof.
  unfold load8, store8. rewrite lookup_insert_eq. cbn.
  apply u8_small, u8_range.
Qed.

Lemma load8_store8_ne m a b v : a ≠ b → load8 (store8 a v m) b = load8 m b.
Proof. intros H. unfold load8, store8. by rewrite lookup_insert_ne. Qed.

Lemma load8_store_ne n m a v b :
  b < a ∨ a + Z.of_nat n <= b → load8 (store n a v m) b = load8 m b.
Proof.
  revert a v m. induction n as [|n IH]; intros a v m H; [done|].
  simpl. rewrite IH by lia. apply load8_store8_ne. lia.
Qed.

Lemma load8_fill n m a v b :
  load8 (fill n a v m) b = if decide (a <= b < a + Z.of_nat n) then u8 v else load8 m b.
Proof.
  revert a m. induction n as [|n IH]; intros a m; simpl fill.
  - rewrite decide_False by lia. done.
  - rewrite IH. destruct (decide (a = b)) as [->|Hne].
    + rewrite decide_False by lia. rewrite decide_True by lia. apply load8_store8_eq.
    + rewrite load8_store8_ne by done.
      destruct (decide (a + 1 <= b < a + 1 + Z.of_nat n)).
      * by rewrite decide_True by lia.
      * by rewrite decide_False by lia.
Qed.

Lemma load_agree n m m' a : agree a (a + Z.of_nat n) m m' → load n m a = load n m' a.
Proof.
  revert a. induction n as [|n IH]; intros a H; [done|]. simpl.
  rewrite H by lia. f_equal. f_equal. apply IH. intros i Hi. apply H. lia.
Qed.

#[export] Instance load_proper n : Proper ((≡@{memory}) ==> eq ==> eq) (load n).
Proof. intros m m' H a ? <-. apply load_agree. by apply agree_equiv. Qed.

Lemma store_agree n m a v lo hi :
  hi <= a ∨ a + Z.of_nat n <= lo → agree lo hi (store n a v m) m.
Proof. intros H i Hi. apply load8_store_ne. lia. Qed.

Lemma fill_agree n m a v lo hi :
  hi <= a ∨ a + Z.of_nat n <= lo → agree lo hi (fill n a v m) m.
Proof. intros H i Hi. rewrite load8_fill. by rewrite decide_False by lia. Qed.

Lemma load_store_ne n n' m a b v :
  b + Z.of_nat n <= a ∨ a + Z.of_nat n' <= b → load n (store n' a v m) b = load n m b.
Proof. intros H. apply load_agree, store_agree. done. Qed.

Lemma load_fill_ne n n' m a b v :
  b + Z.of_nat n <= a ∨ a + Z.of_nat n' <= b → load n (fill n' a v m) b = load n m b.
Proof. intros H. apply load_agree, fill_agree. done. Qed.

Lemma pow256_succ n : 256 ^ Z.of_nat (S n) = 256 * 256 ^ Z.of_nat n.
Proof. rewrite Nat2Z.inj_succ, Z.pow_succ_r by lia. done. Qed.

Lemma load_range n m a : 0 <= load n m a < 256 ^ Z.of_nat n.
Proof.
  revert a. induction n as [|n IH]; intros a; [simpl; lia|].
  rewrite pow256_succ. simpl load.
  pose proof (load8_range m a). specialize (IH (a + 1)). lia.
Qed.

Lemma load_store_eq n m a v : load n (store n a v m) a = v `mod` 256 ^ Z.of_nat n.
Proof.
  revert a v m. induction n as [|n IH]; intros a v m; [by rewrite Z.mod_1_r|].
  simpl. rewrite load8_store_ne by lia. rewrite load8_store8_eq, IH.
  rewrite pow256_succ. unfold u8.
  rewrite Z.rem_mul_r; [done|lia|]. apply Z.pow_pos_nonneg; lia.
Qed.

Lemma load_store_small n m a v :
  0 <= v < 256 ^ Z.of_nat n → load n (store n a v m) a = v.
Proof. intros H. rewrite load_store_eq. by apply Z.mod_small. Qed.

Lemma load_zero n m a :
  (∀ i, a <= i < a + Z.of_nat n → load8 m i = 0) → load n m a = 0.
Proof.
  revert a. induction n as [|n IH]; intros a H; [done|]. simpl.
  rewrite H by lia. rewrite IH; [lia|]. intros i Hi. apply H. lia.
Qed.

Lemma load_fill_zero n n' m a b :
  a <= b → b + Z.of_nat n <= a + Z.of_nat n' → load n (fill n' a 0 m) b = 0.
Proof.
  intros ??. apply load_zero. intros i Hi. rewrite load8_fill.
  by rewrite decide_True by lia.
Qed.

Lemma load64_range m a : 0 <= load64 m a < 18446744073709551616.
Proof. apply (load_range 8). Qed.

Lemma load64_store64_eq m a v : is_u64 v → load64 (store64 a v m) a = v.
Proof. intros H. by apply (load_store_small 8). Qed.

Lemma load64_store64_ne m a b v :
  b + 8 <= a ∨ a + 8 <= b → load64 (store64 a v m) b = load64 m b.
Proof. intros H. apply (load_store_ne 8 8). lia. Qed.

#[export] Hint Resolve load8_range load64_range : cing.

#[global] Arguments load : simpl never.
#[global] Arguments store : simpl never.
#[global] Arguments fill : simpl never.

Lemma load_1 m a : load 1 m a = load8 m a.
Proof. unfold load. lia. Qed.

Lemma store_1 a v m : store 1 a v m = store8 a v m.
Proof. reflexivity. Qed.

(** The round trip of a multi-byte access, as a check of the byte order. *)
Example load_store_bytes :
  let m := store64 4096 0x1122334455667788 ∅ in
  load8 m 4096 = 0x88 ∧ load8 m 4103 = 0x11 ∧ load32 m 4100 = 0x11223344.
Proof. vm_compute. done. Qed.

(* ===================================================================== *)
(** ** The interface of a state that holds a memory *)

Class HasMemory (S : Type) := {
  mem_of : S → memory;
  set_mem : memory → S → S;
  mem_of_set m s : mem_of (set_mem m s) = m;
  set_mem_set m m' s : set_mem m (set_mem m' s) = set_mem m s;
  set_mem_id s : set_mem (mem_of s) s = s;
}.

#[export] Instance memory_has_memory : HasMemory memory.
Proof. by refine {| mem_of m := m; set_mem m _ := m |}. Defined.

Definition read {S} `{HasMemory S} (n : nat) (a : Z) : M S Z :=
  gets (λ s, load n (mem_of s) a).
Definition write {S} `{HasMemory S} (n : nat) (a v : Z) : M S unit :=
  modify (λ s, set_mem (store n a v (mem_of s)) s).

Lemma wp_read {S} `{HasMemory S} n a (Q : Z → S → Prop) s :
  Q (load n (mem_of s) a) s → wp (read n a) Q s.
Proof. intros. unfold read. by apply wp_gets. Qed.

Lemma wp_write {S} `{HasMemory S} n a v (Q : unit → S → Prop) s :
  Q () (set_mem (store n a v (mem_of s)) s) → wp (write n a v) Q s.
Proof. intros. unfold write. by apply wp_modify. Qed.

Lemma read_then {S A} `{HasMemory S} n a (f : Z → M S A) s :
  (read n a ≫= f) s = f (load n (mem_of s) a) s.
Proof. done. Qed.

Ltac mem_step :=
  lazymatch goal with
  | |- wp (read _ _) _ _ => apply wp_read
  | |- wp (write _ _ _) _ _ => apply wp_write
  | _ => wp_step
  end.
Ltac mem_steps := repeat (mem_step; cbv beta).

(* ===================================================================== *)
(** ** Components: a memory and static variables

    The state of a component is the memory together with a record of its
    [static] variables. *)

Record world (T : Type) := World { w_mem : memory; w_st : T }.
Arguments World {T} _ _.
Arguments w_mem {T} _.
Arguments w_st {T} _.

#[export] Instance world_has_memory {T} : HasMemory (world T).
Proof.
  refine {| mem_of := w_mem; set_mem m w := World m (w_st w) |}; try done. by intros [].
Defined.

(** Reading and writing static variables. *)
Definition static {T A} (f : T → A) : M (world T) A := gets (λ w, f (w_st w)).
Definition static_set {T} (f : T → T) : M (world T) unit :=
  modify (λ w, World (w_mem w) (f (w_st w))).

(** Calling into a component whose variables are part of one's own. *)
Definition within {T U A} (get : T → U) (put : U → T → T) (m : M (world U) A) : M (world T) A :=
  zoom (λ w, World (w_mem w) (get (w_st w))) (λ v w, World (w_mem v) (put (w_st v) (w_st w))) m.

Lemma wp_static {T A} (f : T → A) (Q : A → world T → Prop) w :
  Q (f (w_st w)) w → wp (static f) Q w.
Proof. intros. unfold static. by apply wp_gets. Qed.

Lemma wp_static_set {T} (f : T → T) (Q : unit → world T → Prop) w :
  Q () (World (w_mem w) (f (w_st w))) → wp (static_set f) Q w.
Proof. intros. unfold static_set. by apply wp_modify. Qed.

Lemma wp_within {T U A} (get : T → U) (put : U → T → T) (m : M (world U) A) Q w :
  wp m (λ a v, Q a (World (w_mem v) (put (w_st v) (w_st w)))) (World (w_mem w) (get (w_st w))) →
  wp (within get put m) Q w.
Proof. intros. unfold within. by apply wp_zoom. Qed.

(** An array element by a C index: out of bounds is undefined behaviour. *)
Definition array_get {S A} (l : list A) (i : Z) : M S A :=
  if (0 <=? i)%Z then of_option (l !! Z.to_nat i) else fault.

(** The array with one element changed. *)
Definition array_set {S A} (l : list A) (i : Z) (x : A) : M S (list A) :=
  if bool_decide (0 <= i < Z.of_nat (length l)) then mret (<[Z.to_nat i := x]> l) else fault.

Lemma wp_array_get {S A} (l : list A) i x (Q : A → S → Prop) s :
  0 <= i → l !! Z.to_nat i = Some x → Q x s → wp (array_get l i) Q s.
Proof.
  intros Hi Hl HQ. unfold array_get. rewrite (proj2 (Z.leb_le 0 i) Hi). by eapply wp_of_option.
Qed.

Lemma wp_array_set {S A} (l : list A) i x (Q : list A → S → Prop) s :
  0 <= i < Z.of_nat (length l) → Q (<[Z.to_nat i := x]> l) s → wp (array_set l i x) Q s.
Proof. intros Hi HQ. unfold array_set. rewrite bool_decide_true by done. by apply wp_ret. Qed.
