(* ===== verification/Util.v ===== *)
(** The arithmetic helpers of src/util: [util_math.c] (integer logarithms and
    powers of two) and [util_random.c] (the generator that drives the
    built-in tests). *)
From S2P Require Import Prelude.

(* ===================================================================== *)
(** ** util_math.c *)

(** The loop [while (res < val) { res *= 2; exp++; }]. *)
Definition log_2_down_loop {S} (fuel : nat) (val : Z) : M S (Z * Z) :=
  loop fuel (λ '(res, exp),
    mret (if res <? val then inl ((res * 2)%u64, (exp + 1)%u64) else inr (res, exp)))
  (1, 0).

Definition util_math_log_2_down_fuel {S} (fuel : nat) (val : Z) : M S Z :=
  kernel_assert (0 <? val) ;;
  '(res, exp) ← log_2_down_loop fuel val;
  if val <? res then
    let exp := (exp - 1)%u64 in
    let res := (res / 2)%u64 in
    kernel_assert (res <? val) ;;
    mret exp
  else
    kernel_assert (res =? val) ;;
    mret exp.

(** 65 rounds take [res] from 1 past 2^63, see [log_2_down_ok]. *)
Definition util_math_log_2_down {S} (val : Z) : M S Z :=
  util_math_log_2_down_fuel 65 val.

(** The loop [while (true) { val /= 2; if (val == 0) break; res++; }]. *)
Definition log_2_up_loop {S} (fuel : nat) (val : Z) : M S Z :=
  loop fuel (λ '(val, res),
    let val := (val / 2)%u64 in
    mret (if val =? 0 then inr res else inl (val, (res + 1)%u64)))
  (val, 0).

Definition util_math_log_2_up {S} (val : Z) : M S Z :=
  if val =? 0 then mret 1
  else
    res ← log_2_up_loop 65 (val - 1)%u64;
    mret (res + 1)%u64.

(** The argument is a [u8_t]; a shift by 64 or more is undefined. *)
Definition util_math_2_exp {S} (exp : Z) : M S Z :=
  if u8 exp <? 64 then mret (1 << u8 exp)%u64 else fault.

Definition util_math_is_pow2 (n : Z) : bool := ((n & (n - 1)) =? 0)%u64.

(* ===================================================================== *)
(** ** util_random.c *)

Definition RAND_1 : Z := 151117737.
Definition RAND_2 : Z := 119785373.
Definition RAND_3 : Z := 85689495.
Definition RAND_4 : Z := 76595339.
Definition RAND_SUM_2 : Z := 98781234.
Definition RAND_SUM_3 : Z := 126792457.
Definition RAND_SUM_4 : Z := 63498502.
Definition RAND_XOR_1 : Z := 187678878.
Definition RAND_XOR_2 : Z := 143537923.

Definition util_rand_int_next (curr : Z) : Z :=
  let bit_cnt := (8 * 8)%u64 in
  let curr := (RAND_2 * curr + RAND_SUM_3)%u64 in
  let curr := (RAND_XOR_1 ⊻ curr)%u64 in
  let curr := ((curr << 20) + (curr >> (bit_cnt - 20)))%u64 in
  let curr := (RAND_3 * curr + RAND_SUM_4)%u64 in
  let curr := (RAND_XOR_2 ⊻ curr)%u64 in
  let curr := ((curr << 20) + (curr >> (bit_cnt - 20)))%u64 in
  let curr := (RAND_1 * curr + RAND_SUM_2)%u64 in
  curr.

(* ===================================================================== *)
(** ** Logarithms *)

Lemma shiftl_1 e : 0 <= e → Z.shiftl 1 e = 2 ^ e.
Proof. intros. rewrite Z.shiftl_mul_pow2 by done. lia. Qed.

Lemma pow2_lt_64 e : 0 <= e < 64 → 0 < 2 ^ e < 18446744073709551616.
Proof.
  intros. split; [apply pow2_pos; lia|]. rewrite <-pow2_64. apply Z.pow_lt_mono_r; lia.
Qed.

Lemma util_math_2_exp_pow {S} e : 0 <= e < 64 → util_math_2_exp (S:=S) e = mret (2 ^ e).
Proof.
  intros. unfold util_math_2_exp, u8. rewrite Z.mod_small by lia.
  rewrite (proj2 (Z.ltb_lt e 64)) by lia. u64_unfold. rewrite shiftl_1 by lia.
  by rewrite u64_small by (pose proof (pow2_lt_64 e); lia).
Qed.

(** The doubling loop stops at the first power of two that reaches [val]. *)
Lemma log_2_down_loop_ok {S} val (s : S) :
  0 < val <= 9223372036854775808 →
  wp (log_2_down_loop 65 val) (λ '(res, exp) s', s' = s ∧ 0 <= exp <= 63 ∧ res = 2 ^ exp ∧
    val <= res ∧ (exp = 0 ∨ 2 ^ (exp - 1) < val)) s.
Proof.
  intros Hval. unfold log_2_down_loop.
  apply (wp_loop (λ '(res, exp) s', s' = s ∧ 0 <= exp <= 63 ∧ res = 2 ^ exp ∧
    (exp = 0 ∨ 2 ^ (exp - 1) < val)) (λ '(res, exp), Z.to_nat (64 - exp))); [naive_solver lia|lia|].
  intros [res exp] s' (-> & He & -> & Hlow). apply wp_ret. u64_unfold.
  destruct (2 ^ exp <? val) eqn:Hlt; bsimp; [|naive_solver].
  assert (exp ≠ 63) by (intros ->; lia).
  pose proof (pow2_lt_64 (exp + 1)).
  assert (2 ^ exp * 2 = 2 ^ (exp + 1)) as Hd by (rewrite Z.pow_add_r; lia).
  rewrite Hd, !u64_small by lia. split_and!; [done|lia|lia|done| |lia].
  right. by replace (exp + 1 - 1) with exp by lia.
Qed.

(** The halving loop counts the digits of [val] after the first. *)
Lemma log_2_up_loop_ok {S} val (s : S) :
  0 <= val < 18446744073709551616 →
  wp (log_2_up_loop 65 val) (λ res s', s' = s ∧ res = Z.log2 val) s.
Proof.
  intros Hval. unfold log_2_up_loop.
  apply (wp_loop (λ '(v, res) s', s' = s ∧ 0 <= v ∧ 0 <= res ∧ v < 2 ^ (64 - res) ∧ res <= 64 ∧
    res + Z.log2 v = Z.log2 val) (λ '(v, res), Z.to_nat (64 - res))).
  - split_and!; [done|lia..|]. done.
  - lia.
  - intros [v res] s' (-> & Hv & Hr & Hlt & Hle & Hlog). apply wp_ret. u64_unfold. cbv zeta.
    destruct (v / 2 =? 0) eqn:Hz; bsimp.
    + assert (v < 2) as Hv2 by zlia. split; [done|].
      assert (Z.log2 v = 0) by (apply Z.log2_null; lia). lia.
    + assert (2 <= v) as Hv2 by zlia.
      assert (Z.log2 v = Z.log2 (v / 2) + 1) as Hl.
      { rewrite <-Z.div2_div, Z.div2_spec, Z.log2_shiftr by lia.
        pose proof (Z.log2_le_mono 2 v Hv2) as Hl2. change (Z.log2 2) with 1 in Hl2. lia. }
      assert (res ≠ 64) by (intros ->; rewrite Z.sub_diag in Hlt; lia).
      rewrite u64_small by lia.
      replace (64 - res) with (1 + (64 - (res + 1))) in Hlt by lia.
      rewrite Z.pow_add_r, Z.pow_1_r in Hlt by lia.
      split_and!; [done|zlia|lia|zlia|lia|lia|lia].
Qed.

Lemma log_2_up_wp {S} val (Q : Z → S → Prop) s :
  2 <= val < 18446744073709551616 → Q (Z.log2_up val) s → wp (util_math_log_2_up val) Q s.
Proof.
  intros Hv HQ. unfold util_math_log_2_up. u64_unfold.
  destruct (val =? 0) eqn:Hz; bsimp; [lia|].
  apply wp_bind. rewrite u64_small by lia.
  eapply wp_mono; [apply log_2_up_loop_ok; lia|]. intros res s' [-> ->].
  apply wp_ret. rewrite u64_small.
  - rewrite Z.log2_up_eqn in HQ by lia. by replace (Z.pred val) with (val - 1) in HQ by lia.
  - pose proof (Z.log2_nonneg (val - 1)). pose proof (Z.log2_le_lin (val - 1)). lia.
Qed.

(** On every argument up to 2^63 the rounded-down logarithm returns, and
    it is the integer logarithm. *)
Theorem log_2_down_ok {S} (val : Z) (s : S) (Hval : 0 < val <= 9223372036854775808) :
  util_math_log_2_down val s = Done (Z.log2 val, s).
Proof.
  cut (wp (util_math_log_2_down val) (λ r s', r = Z.log2 val ∧ s' = s) s).
  { intros (r & s' & -> & -> & ->)%wp_done. done. }
  unfold util_math_log_2_down, util_math_log_2_down_fuel. wp_step. wp_step; [bsimp; lia|].
  wp_step. eapply wp_mono; [by apply log_2_down_loop_ok|].
  intros [res exp] s' (-> & He & -> & Hge & Hlow). u64_unfold.
  destruct (val <? 2 ^ exp) eqn:Hlt; bsimp.
  - assert (exp ≠ 0) by (intros ->; rewrite Z.pow_0_r in Hlt; lia).
    rewrite u64_small by lia. destruct Hlow as [?|Hlow]; [done|].
    assert (2 ^ exp = 2 * 2 ^ (exp - 1)) as Hs by (rewrite <-Z.pow_succ_r by lia; f_equal; lia).
    assert (2 ^ exp / 2 = 2 ^ (exp - 1)) as -> by (rewrite Hs; zlia).
    wp_steps; [bsimp; lia|]. split; [|done]. symmetry. apply Z.log2_unique; [lia|].
    replace (Z.succ (exp - 1)) with exp by lia. lia.
  - wp_steps; [bsimp; lia|]. split; [|done].
    assert (val = 2 ^ exp) as -> by lia. by rewrite Z.log2_pow2 by lia.
Qed.

Lemma log_2_down_ok_witness :
  0 < 5000 <= 9223372036854775808 ∧ util_math_log_2_down 5000 () = Done (12, ()).
Proof. split; [lia|]. apply (log_2_down_ok (S := unit) 5000 ()). lia. Defined.

(** The rounded-up logarithm returns the smallest [x] with
    [2^x >= val], as util.h documents, for every argument of at least 2. *)
Theorem log_2_up_ok {S} (val : Z) (s : S) (Hval : 2 <= val < 18446744073709551616) :
  ∃ x, util_math_log_2_up val s = Done (x, s) ∧ val <= 2 ^ x ∧ ∀ y, 0 <= y → val <= 2 ^ y → x <= y.
Proof.
  exists (Z.log2_up val). split_and!.
  - cut (wp (util_math_log_2_up val) (λ r s', r = Z.log2_up val ∧ s' = s) s).
    { intros (r & s' & -> & -> & ->)%wp_done. done. }
    by apply log_2_up_wp.
  - pose proof (Z.log2_log2_up_spec val). lia.
  - intros y Hy Hle. apply Z.log2_up_le_pow2; lia.
Qed.

Lemma log_2_up_ok_witness :
  2 <= 4097 < 18446744073709551616 ∧
  ∃ x, util_math_log_2_up 4097 () = Done (x, ()) ∧ 4097 <= 2 ^ x ∧
       ∀ y, 0 <= y → 4097 <= 2 ^ y → x <= y.
Proof. split; [lia|]. apply (log_2_up_ok (S := unit)). lia. Defined.

(** The documented value at 1 would be 0. *)
Lemma log_2_up_at_1 {S} (s : S) : util_math_log_2_up 1 s = Done (1, s).
Proof. reflexivity. Qed.

Lemma log_2_down_stuck {S} fuel val res exp (s : S) :
  9223372036854775808 < val < 18446744073709551616 →
  (res = 0 ∨ ∃ k, 0 <= k <= 63 ∧ res = 2 ^ k) →
  loop fuel (λ '(res, exp),
    mret (if res <? val then inl ((res * 2)%u64, (exp + 1)%u64) else inr (res, exp)))
    (res, exp) s = Timeout.
Proof.
  intros Hval. revert res exp. induction fuel as [|fuel IH]; intros res exp Hres; [done|].
  simpl. u64_unfold. assert (res < val ∧ (u64 (res * 2) = 0 ∨ ∃ k, 0 <= k <= 63 ∧ u64 (res * 2) = 2 ^ k))
    as [Hlt Hnext].
  { destruct Hres as [->|(k & Hk & ->)]; [split; [lia|by left]|].
    pose proof (Z.pow_le_mono_r 2 k 63 ltac:(lia) ltac:(lia)) as Hle.
    change (2 ^ 63) with 9223372036854775808 in Hle. split; [lia|].
    destruct (decide (k = 63)) as [->|Hne]; [by left|]. right. exists (k + 1). split; [lia|].
    replace (2 ^ k * 2) with (2 ^ (k + 1)) by (rewrite Z.pow_add_r; lia).
    apply u64_small. pose proof (pow2_lt_64 (k + 1)). lia. }
  unfold mbind, M_bind, mret, M_ret. rewrite (proj2 (Z.ltb_lt _ _) Hlt). by apply IH.
Qed.

(** Above 2^63 the doubling overflows to 0 and the rounded-down
    logarithm loops for ever: no amount of fuel makes it return. *)
Theorem log_2_down_diverges {S} (val : Z) (s : S)
    (Hval : 9223372036854775808 < val < 18446744073709551616) :
  ∀ fuel, util_math_log_2_down_fuel fuel val s = Timeout.
Proof.
  intros fuel. unfold util_math_log_2_down_fuel, log_2_down_loop.
  rewrite (bind_done _ _ s () s) by (unfold kernel_assert; by rewrite (proj2 (Z.ltb_lt _ _)) by lia).
  unfold mbind, M_bind. rewrite log_2_down_stuck; [done..|]. right. by exists 0.
Qed.

Lemma log_2_down_diverges_witness :
  9223372036854775808 < 9223372036854775809 < 18446744073709551616 ∧
  ∀ fuel, util_math_log_2_down_fuel fuel 9223372036854775809 () = Timeout.
Proof. split; [lia|]. apply (log_2_down_diverges (S := unit)). lia. Defined.

(* ===================================================================== *)
(** ** Powers of two *)

Lemma land_pred_pow2 k : 0 <= k → Z.land (2 ^ k) (2 ^ k - 1) = 0.
Proof.
  intros Hk. replace (2 ^ k - 1) with (Z.ones k) by (rewrite Z.ones_equiv; lia).
  rewrite Z.land_ones by done. apply Z_mod_same_full.
Qed.

Lemma land_pred_nonzero n : 0 < n → n ≠ 2 ^ Z.log2 n → Z.land n (n - 1) ≠ 0.
Proof.
  intros Hn Hne H0. pose proof (Z.log2_spec n Hn) as [Hlo Hhi].
  assert (Z.log2 (n - 1) = Z.log2 n) as Hl by (apply Z.log2_unique; [apply Z.log2_nonneg|lia]).
  assert (2 <= n).
  { destruct (decide (n = 1)) as [->|]; [by destruct Hne|lia]. }
  apply (f_equal (λ z, Z.testbit z (Z.log2 n))) in H0.
  rewrite Z.land_spec, Z.bits_0, Z.bit_log2 in H0 by lia.
  rewrite <-Hl, Z.bit_log2 in H0 by lia. done.
Qed.

(** The bit trick recognises exactly the powers of two (and 0). *)
Theorem is_pow2_iff (n : Z) (Hn : 0 < n < 18446744073709551616) :
  util_math_is_pow2 n = true ↔ ∃ k, 0 <= k < 64 ∧ n = 2 ^ k.
Proof.
  unfold util_math_is_pow2. u64_unfold. rewrite u64_small by lia. rewrite Z.eqb_eq. split.
  - intros H0. exists (Z.log2 n).
    destruct (decide (n = 2 ^ Z.log2 n)) as [He|Hne]; 
      [|by destruct (land_pred_nonzero n ltac:(lia) Hne H0)].
    split; [|done]. split; [apply Z.log2_nonneg|].
    apply Z.log2_lt_pow2; [lia|]. rewrite pow2_64. lia.
  - intros (k & Hk & ->). apply land_pred_pow2. lia.
Qed.

Lemma is_pow2_iff_witness :
  0 < 4096 < 18446744073709551616 ∧
  (util_math_is_pow2 4096 = true ↔ ∃ k, 0 <= k < 64 ∧ 4096 = 2 ^ k).
Proof. split; [lia|]. apply is_pow2_iff. lia. Defined.

(* ===================================================================== *)
(** ** The random sequence *)

Lemma mul_odd_inj c x y :
  Z.gcd c 18446744073709551616 = 1 → is_u64 x → is_u64 y →
  ∀ d, u64 (c * x + d) = u64 (c * y + d) → x = y.
Proof.
  unfold is_u64, u64. intros Hc Hx Hy d Heq.
  assert ((18446744073709551616 | c * (x - y))) as Hdiv.
  { apply Z.mod_divide; [lia|].
    replace (c * (x - y)) with ((c * x + d) - (c * y + d)) by lia.
    rewrite Zminus_mod, Heq, Z.sub_diag. done. }
  apply Z.gauss in Hdiv; [|by rewrite Z.gcd_comm]. destruct Hdiv as [q Hq]. lia.
Qed.

Lemma lxor_inj c x y : Z.lxor c x = Z.lxor c y → x = y.
Proof.
  intros H. apply (f_equal (Z.lxor c)) in H.
  by rewrite <-!Z.lxor_assoc, Z.lxor_nilpotent, !Z.lxor_0_l in H.
Qed.

Lemma lxor_u64 c x : is_u64 c → is_u64 x → is_u64 (Z.lxor c x).
Proof.
  unfold is_u64. intros Hc Hx. split; [apply Z.lxor_nonneg; lia|].
  destruct (decide (Z.lxor c x = 0)) as [->|Hne]; [lia|].
  assert (0 < Z.lxor c x) by (assert (0 <= Z.lxor c x) by (apply Z.lxor_nonneg; lia); lia).
  rewrite <-pow2_64. apply Z.log2_lt_pow2; [done|].
  pose proof (Z.log2_lxor c x ltac:(lia) ltac:(lia)).
  assert (∀ z, 0 <= z < 18446744073709551616 → Z.log2 z < 64) as Hl.
  { intros z Hz. destruct (decide (z = 0)) as [->|]; [done|]. apply Z.log2_lt_pow2; [lia|]. rewrite pow2_64; lia. }
  pose proof (Hl c Hc). pose proof (Hl x Hx). lia.
Qed.

(** The sum of the two shifts is a rotation by 20 bits: nothing is lost. *)
Lemma rotate20_inj x y :
  is_u64 x → is_u64 y →
  u64 (u64 (Z.shiftl x 20) + Z.shiftr x 44) = u64 (u64 (Z.shiftl y 20) + Z.shiftr y 44) → x = y.
Proof.
  unfold is_u64. intros Hx Hy.
  assert (∀ z, 0 <= z < 18446744073709551616 →
    u64 (u64 (Z.shiftl z 20) + Z.shiftr z 44) =
      (z `mod` 17592186044416) * 1048576 + z / 17592186044416) as Hrot.
  { intros z Hz. rewrite Z.shiftl_mul_pow2, Z.shiftr_div_pow2 by lia. unfold u64.
    change (2 ^ 20) with 1048576. change (2 ^ 44) with 17592186044416. zlia. }
  rewrite !Hrot by done. zlia.
Qed.

Lemma u64_mul_add c d x : u64 (u64 (c * x) + d) = u64 (c * x + d).
Proof. apply Zplus_mod_idemp_l. Qed.

(** The generator of the built-in tests is injective on 64-bit words, so
    its orbits are cycles and no two seeds ever collide. *)
Theorem rand_next_injective (x y : Z) (Hx : is_u64 x) (Hy : is_u64 y)
    (Heq : util_rand_int_next x = util_rand_int_next y) : x = y.
Proof.
  unfold util_rand_int_next in Heq. u64_unfold. cbv zeta in Heq.
  change (u64 (u64 (8 * 8) - 20)) with 44 in Heq. rewrite !u64_mul_add in Heq.
  apply mul_odd_inj in Heq; [|done|apply u64_range..].
  apply rotate20_inj, lxor_inj in Heq; [|apply lxor_u64; [done|apply u64_range]..].
  apply mul_odd_inj in Heq; [|done|apply u64_range..].
  apply rotate20_inj, lxor_inj in Heq; [|apply lxor_u64; [done|apply u64_range]..].
  by apply mul_odd_inj in Heq.
Qed.

Lemma rand_next_injective_witness :
  is_u64 7 ∧ is_u64 7 ∧ util_rand_int_next 7 = util_rand_int_next 7 ∧ 7 = 7.
Proof.
  split; [unfold is_u64; lia|]. split; [unfold is_u64; lia|]. split; [reflexivity|].
  apply rand_next_injective; [unfold is_u64; lia..|reflexivity].
Defined.
