(* ===== verification/Strings.v ===== *)
(** The string helpers of src/containers/containers_string.c: measuring,
    copying, decimal and hexadecimal output, the formatter behind the log and
    the panic screen, and the bit operations on bytes.

    Buffers and strings are addresses in the memory; a [va_list] is the list
    of the remaining arguments (integers and addresses). *)
From S2P Require Import Prelude Memory.

(** Characters of the code. *)
Definition CH_0 : Z := 48.
Definition CH_9 : Z := 57.
Definition CH_A : Z := 65.
Definition CH_SPACE : Z := 32.
Definition CH_PERCENT : Z := 37.
Definition CH_s : Z := 115.
Definition CH_l : Z := 108.
Definition CH_u : Z := 117.
Definition CH_DOT : Z := 46.

Definition _SIZE_UNITS : list Z :=
  [1024 * 1024 * 1024 * 1024 * 1024 * 1024; 1024 * 1024 * 1024 * 1024 * 1024;
   1024 * 1024 * 1024 * 1024; 1024 * 1024 * 1024; 1024 * 1024; 1024].

(** The two characters of each unit. *)
Definition _SIZE_NOTES : list (Z * Z) :=
  [(90, 66); (80, 66); (84, 66); (71, 66); (77, 66); (75, 66)].

Definition str_char_is_digit (ch : Z) : bool := (CH_0 <=? ch) && (ch <=? CH_9).
Definition str_char_to_uint (ch : Z) : Z := (ch - CH_0)%u64.

(** The two hexadecimal digits of a byte. *)
Definition hex_digit {S} (val : Z) : M S Z :=
  if val <? 10 then mret (val + CH_0)
  else
    kernel_assert (val <? 16) ;;
    mret (val - 10 + CH_A).

Section strings.
Context {S : Type} `{HasMemory S}.

(** The walk stops at the terminator; [fuel] bounds the strings considered. *)
Definition str_len (fuel : nat) (str : Z) : M S Z :=
  loop fuel (λ len,
    c ← read 1 (str + len)%u64;
    mret (if c =? 0 then inr len else inl (len + 1)%u64)) 0.

(** Returns the value and, for [*out_len], the number of digits. *)
Definition str_to_uint (str str_off str_len : Z) : M S (Z * Z) :=
  '(val, str_ptr) ← loop (Datatypes.S (Z.to_nat (str_len - str_off))) (λ '(val, str_ptr),
    if str_ptr <? str_len then
      c ← read 1 (str + str_ptr)%u64;
      if str_char_is_digit c then
        mret (inl ((val * 10 + str_char_to_uint c)%u64, (str_ptr + 1)%u64))
      else mret (inr (val, str_ptr))
    else mret (inr (val, str_ptr))) (0, str_off);
  kernel_assert (str_off <? str_ptr) ;;
  mret (val, (str_ptr - str_off)%u64).

Definition str_buf_marshal_str (buf buf_off buf_len str str_len : Z) : M S Z :=
  kernel_assert (str_len <? buf_len - buf_off)%u64 ;;
  for_n (Z.to_nat str_len) 0 (λ i,
    c ← read 1 (str + i)%u64;
    write 1 (buf + (buf_off + i))%u64 c) ;;
  mret str_len.

Definition _buf_marshal_byte_in_hex (buf buf_off buf_len byte : Z) : M S unit :=
  kernel_assert (buf_off <? buf_len - 2)%u64 ;;
  d ← hex_digit ((byte >> 4) & 0x0f)%u64;
  write 1 (buf + buf_off)%u64 d ;;
  d ← hex_digit (byte & 0x0f)%u64;
  write 1 (buf + (buf_off + 1))%u64 d.

Definition str_buf_marshal_bytes_in_hex (buf buf_off buf_len str str_len : Z) : M S Z :=
  kernel_assert (negb (buf =? NULL)) ;;
  kernel_assert (negb (str =? NULL)) ;;
  kernel_assert (0 <? str_len) ;;
  kernel_assert (0 <? buf_len) ;;
  kernel_assert (buf_off <? buf_len) ;;
  kernel_assert (str_len * 3 - 1 <? buf_len - buf_off)%u64 ;;
  let buf_ptr := buf_off in
  b ← read 1 str;
  _buf_marshal_byte_in_hex buf buf_ptr buf_len b ;;
  let buf_ptr := (buf_ptr + 2)%u64 in
  buf_ptr ← loop (Z.to_nat str_len) (λ '(i, buf_ptr),
    if i <? str_len then
      write 1 (buf + buf_ptr)%u64 CH_SPACE ;;
      let buf_ptr := (buf_ptr + 1)%u64 in
      b ← read 1 (str + i)%u64;
      _buf_marshal_byte_in_hex buf buf_ptr buf_len b ;;
      mret (inl (i + 1, (buf_ptr + 2)%u64))
    else mret (inr buf_ptr)) (1, buf_ptr);
  kernel_assert (buf_ptr <? buf_len) ;;
  mret (buf_ptr - buf_off)%u64.

(** [do { val_pro /= 10; digit_cnt++; } while (val_pro > 0)]: a 64-bit value
    has at most 20 digits. *)
Definition count_digits (val : Z) : M S Z :=
  loop 20 (λ '(val_pro, digit_cnt),
    let val_pro := (val_pro / 10)%u64 in
    let digit_cnt := (digit_cnt + 1)%u64 in
    mret (if 0 <? val_pro then inl (val_pro, digit_cnt) else inr digit_cnt)) (val, 0).

(** The digits are written from the last one backwards. *)
Definition write_digits (buf val buf_off : Z) : M S Z :=
  loop 20 (λ '(val_pro, buf_off_pro),
    let digit := (val_pro mod 10)%u64 in
    write 1 (buf + buf_off_pro)%u64 (digit + CH_0) ;;
    let val_pro := (val_pro / 10)%u64 in
    mret (if val_pro =? 0 then inr buf_off_pro else inl (val_pro, (buf_off_pro - 1)%u64)))
    (val, buf_off).

Definition str_buf_marshal_uint (buf buf_off buf_len val : Z) : M S Z :=
  digit_cnt ← count_digits val;
  kernel_assert (digit_cnt <? buf_len - buf_off)%u64 ;;
  buf_off_pro ← write_digits buf val (buf_off + digit_cnt - 1)%u64;
  kernel_assert (buf_off_pro =? buf_off) ;;
  mret digit_cnt.

(** The unit is copied from the constant table [_SIZE_NOTES]; [note] is its
    address there. *)
Definition size_round (note : nat → Z) (buf buf_len val : Z) : nat * Z → M S (nat * Z + Z) := λ '(i, buf_ptr),
  if (i <? 6)%nat then
    unit ← array_get _SIZE_UNITS (Z.of_nat i);
    let part := (val / unit)%u64 in
    buf_ptr ←
      (if 0 <? part then
         n ← str_buf_marshal_uint buf buf_ptr buf_len part;
         let buf_ptr := (buf_ptr + n)%u64 in
         kernel_assert_d (buf_ptr + 2 <=? buf_len)%u64 ;;
         str_buf_marshal_str buf buf_ptr buf_len (note i) 2 ;;
         mret buf_ptr
       else mret buf_ptr);
    mret (inl (Datatypes.S i, buf_ptr))
  else mret (inr buf_ptr).

Definition str_buf_marshal_uint_in_size (note : nat → Z) (buf buf_off buf_len val : Z) : M S Z :=
  kernel_assert (buf_off <? buf_len) ;;
  buf_ptr ← loop 7 (size_round note buf buf_len val) (O, buf_off);
  kernel_assert_d (buf_ptr <=? buf_len) ;;
  mret (buf_ptr - buf_off)%u64.

Definition str_buf_marshal_terminator (buf buf_off buf_len : Z) : M S Z :=
  kernel_assert (1 <? buf_len - buf_off)%u64 ;;
  write 1 (buf + buf_off)%u64 0 ;;
  mret 1.

(** [%.NNs]: at most [strlen] characters of [str]. *)
Definition copy_at_most (buf buf_len str strlen buf_ptr : Z) : M S Z :=
  loop (Datatypes.S (Z.to_nat strlen)) (λ '(str_ptr, buf_ptr),
    if str_ptr <? strlen then
      c ← read 1 (str + str_ptr)%u64;
      if c =? 0 then mret (inr buf_ptr)
      else
        kernel_assert (buf_ptr <? buf_len) ;;
        write 1 (buf + buf_ptr)%u64 c ;;
        mret (inl ((str_ptr + 1)%u64, (buf_ptr + 1)%u64))
    else mret (inr buf_ptr)) (0, buf_ptr).

(** [va_arg] *)
Definition va_arg (va : list Z) : M S (Z * list Z) :=
  match va with
  | x :: va => mret (x, va)
  | [] => fault
  end.

(** One round of the loop over the format; the locals are [format_ptr],
    [buf_ptr] and the remaining arguments.  The loop's own [format_ptr++] is
    the [+ 1] of every branch. *)
Definition format_step (fuel : nat) (buf buf_len format format_len : Z)
    (x : Z * Z * list Z) : M S (Z * Z * list Z) :=
  let '(format_ptr, buf_ptr, va) := x in
  c ← read 1 (format + format_ptr)%u64;
  if negb (c =? CH_PERCENT) then
    write 1 (buf + buf_ptr)%u64 c ;;
    mret ((format_ptr + 1)%u64, (buf_ptr + 1)%u64, va)
  else
    let format_ptr := (format_ptr + 1)%u64 in
    c ← read 1 (format + format_ptr)%u64;
    if c =? CH_PERCENT then
      write 1 (buf + buf_ptr)%u64 CH_PERCENT ;;
      mret ((format_ptr + 1)%u64, (buf_ptr + 1)%u64, va)
    else if c =? CH_s then
      '(str, va) ← va_arg va;
      len ← str_len fuel str;
      n ← str_buf_marshal_str buf buf_ptr buf_len str len;
      mret ((format_ptr + 1)%u64, (buf_ptr + n)%u64, va)
    else if c =? CH_l then
      let format_ptr := (format_ptr + 1)%u64 in
      c ← read 1 (format + format_ptr)%u64;
      if c =? CH_u then
        '(uval, va) ← va_arg va;
        n ← str_buf_marshal_uint buf buf_ptr buf_len uval;
        mret ((format_ptr + 1)%u64, (buf_ptr + n)%u64, va)
      else kernel_panic "TODO"
    else if c =? CH_DOT then
      let format_ptr := (format_ptr + 1)%u64 in
      '(strlen, strlenlen) ← str_to_uint format format_ptr format_len;
      let format_ptr := (format_ptr + strlenlen)%u64 in
      '(str, va) ← va_arg va;
      buf_ptr ← copy_at_most buf buf_len str strlen buf_ptr;
      mret ((format_ptr + 1)%u64, buf_ptr, va)
    else kernel_panic "TODO".

(** Every round consumes a character of the format. *)
Definition str_buf_marshal_format_v (fuel : nat) (buf buf_off buf_len format format_len : Z)
    (va : list Z) : M S Z :=
  kernel_assert (buf_off <? buf_len) ;;
  buf_ptr ← loop (Datatypes.S (Z.to_nat format_len)) (λ x,
    let '(format_ptr, buf_ptr, va) := x in
    if format_ptr <? format_len then
      x ← format_step fuel buf buf_len format format_len x;
      mret (inl x)
    else mret (inr buf_ptr)) (0, buf_off, va);
  kernel_assert (buf_ptr <=? buf_len) ;;
  mret (buf_ptr - buf_off)%u64.

Definition str_buf_marshal_format (fuel : nat) (buf buf_off buf_len format : Z) (va : list Z) : M S Z :=
  format_len ← str_len fuel format;
  len ← str_buf_marshal_format_v fuel buf buf_off buf_len format format_len va;
  kernel_assert (buf_off + len <=? buf_len)%u64 ;;
  mret len.

(* --------------------------------------------------------------------- *)
(** ** Bits and bytes *)

Definition byte_bit_get (byte bit : Z) : M S bool :=
  kernel_assert (bit <? 8) ;;
  mret (negb (Z.land byte (Z.shiftl 1 bit) =? 0)).

Definition byte_bit_set (byte bit : Z) : M S Z :=
  kernel_assert (bit <? 8) ;;
  mret (u8 (Z.lor byte (u8 (Z.shiftl 1 bit)))).

Definition byte_bit_clear (byte bit : Z) : M S Z :=
  kernel_assert (bit <? 8) ;;
  mret (u8 (Z.land byte (u8 (Z.lnot (u8 (Z.shiftl 1 bit)))))).

Definition byte_get (ival byte : Z) : M S Z :=
  kernel_assert (byte <? 4) ;;
  let v64 := ((ival >> (8 * byte)) & 0xff)%u64 in
  kernel_assert (v64 <=? BYTE_MAX) ;;
  mret (u8 v64).

End strings.

(* ===================================================================== *)
(** ** Reference definitions *)

(** The bytes [l] stand at address [a]. *)
Definition bytes_at (m : memory) (a : Z) (l : list Z) : Prop :=
  ∀ i c, l !! i = Some c → load8 m (a + Z.of_nat i) = c.

(** [m'] is [m] with the bytes [l] written at [a]. *)
Definition wrote (a : Z) (l : list Z) (m m' : memory) : Prop :=
  bytes_at m' a l ∧ ∀ x, ¬ (a <= x < a + Z.of_nat (length l)) → load8 m' x = load8 m x.

(** The decimal digits of a number, most significant first. *)
Fixpoint decimal_fuel (fuel : nat) (v : Z) : list Z :=
  match fuel with
  | O => []
  | Datatypes.S fuel =>
      if v <? 10 then [v + CH_0] else decimal_fuel fuel (v / 10) ++ [v `mod` 10 + CH_0]
  end.
Definition decimal (v : Z) : list Z := decimal_fuel 20 v.

Definition decimal_value (l : list Z) : Z := foldl (λ v c, v * 10 + (c - CH_0)) 0 l.

Definition nibble (v : Z) : Z := if v <? 10 then v + CH_0 else v - 10 + CH_A.
Definition hex_byte (b : Z) : list Z := [nibble (b / 16); nibble (b `mod` 16)].

(** Bytes in hexadecimal, separated by spaces. *)
Fixpoint hex_bytes (l : list Z) : list Z :=
  match l with
  | [] => []
  | [b] => hex_byte b
  | b :: l => hex_byte b ++ CH_SPACE :: hex_bytes l
  end.

(* --------------------------------------------------------------------- *)
(** ** Writing *)

Lemma bytes_at_app m a l1 l2 :
  bytes_at m a (l1 ++ l2) ↔ bytes_at m a l1 ∧ bytes_at m (a + Z.of_nat (length l1)) l2.
Proof.
  split.
  - intros Hb. split; intros i c Hi.
    + apply Hb. by apply lookup_app_l_Some.
    + rewrite <-Z.add_assoc, <-Nat2Z.inj_add. apply Hb.
      rewrite lookup_app_r by lia. by replace (length l1 + i - length l1)%nat with i by lia.
  - intros [H1 H2] i c [Hi|[Hge Hi]]%lookup_app_Some; [by apply H1|].
    specialize (H2 _ _ Hi). rewrite <-H2. f_equal. lia.
Qed.

Lemma bytes_at_cons m a c l : bytes_at m a (c :: l) ↔ load8 m a = c ∧ bytes_at m (a + 1) l.
Proof.
  rewrite (bytes_at_app m a [c] l). simpl. change (Z.of_nat 1) with 1.
  split; intros [H1 H2]; (split; [|done]).
  - specialize (H1 0%nat c eq_refl). by rewrite Z.add_0_r in H1.
  - intros [|i] d; [|done]. intros [= <-]. by rewrite Z.add_0_r.
Qed.

Lemma bytes_at_agree m m' a l :
  agree a (a + Z.of_nat (length l)) m m' → bytes_at m a l → bytes_at m' a l.
Proof.
  intros Hag Hb i c Hi. rewrite <-(Hb i c Hi). symmetry. apply Hag.
  apply lookup_lt_Some in Hi. lia.
Qed.

Lemma wrote_nil a m : wrote a [] m m.
Proof. split; [|done]. by intros i c. Qed.

Lemma wrote_store8 a v m : is_u8 v → wrote a [v] m (store8 a v m).
Proof.
  intros Hv. split.
  - intros [|i] c; [|done]. intros [= <-]. rewrite Z.add_0_r, load8_store8_eq. by apply u8_small.
  - intros x Hx. simpl in Hx. apply load8_store8_ne. lia.
Qed.

Lemma wrote_app a l1 l2 m m1 m2 :
  wrote a l1 m m1 → wrote (a + Z.of_nat (length l1)) l2 m1 m2 → wrote a (l1 ++ l2) m m2.
Proof.
  intros [Hb1 Ho1] [Hb2 Ho2]. split.
  - apply bytes_at_app. split; [|done]. intros i c Hi. rewrite Ho2; [by apply Hb1|].
    apply lookup_lt_Some in Hi. lia.
  - intros x Hx. rewrite length_app in Hx. rewrite Ho2, Ho1 by lia. done.
Qed.

(** Writing the last byte first, as the decimal output does. *)
Lemma wrote_snoc a l c m m1 m2 :
  wrote (a + Z.of_nat (length l)) [c] m m1 → wrote a l m1 m2 → wrote a (l ++ [c]) m m2.
Proof.
  intros [Hb1 Ho1] [Hb2 Ho2]. simpl in Ho1. split.
  - apply bytes_at_app. split; [done|]. intros i d Hi. rewrite Ho2; [by apply Hb1|]. lia.
  - intros x Hx. rewrite length_app in Hx. simpl in Hx. rewrite Ho2, Ho1 by lia. done.
Qed.

Lemma wrote_outside a l m m' lo hi :
  wrote a l m m' → hi <= a ∨ a + Z.of_nat (length l) <= lo → agree lo hi m m'.
Proof. intros [_ Ho] Hd x Hx. rewrite Ho by lia. done. Qed.

(** Strings and buffers that the writes do not reach. *)
Lemma bytes_at_wrote a l m m' b k :
  wrote a l m m' → b + Z.of_nat (length k) <= a ∨ a + Z.of_nat (length l) <= b →
  bytes_at m b k → bytes_at m' b k.
Proof. intros Hw Hd. apply bytes_at_agree. eapply wrote_outside; [done|lia]. Qed.

(* --------------------------------------------------------------------- *)
(** ** Decimal digits *)

Lemma decimal_fuel_value n v :
  0 <= v < 10 ^ Z.of_nat n → (0 < n)%nat → decimal_value (decimal_fuel n v) = v.
Proof.
  revert v. induction n as [|n IH]; intros v Hv Hn; [lia|]. simpl.
  destruct (v <? 10) eqn:Hlt; bsimp; [unfold decimal_value; simpl; lia|].
  rewrite Nat2Z.inj_succ, Z.pow_succ_r in Hv by lia.
  unfold decimal_value. rewrite foldl_app. fold (decimal_value (decimal_fuel n (v / 10))).
  destruct n as [|n]; [simpl in Hv; lia|].
  rewrite IH by zlia. simpl. zlia.
Qed.

Lemma decimal_fuel_digits n v : 0 <= v → Forall (λ c, CH_0 <= c <= CH_9) (decimal_fuel n v).
Proof.
  unfold CH_0, CH_9. revert v. induction n as [|n IH]; intros v Hv; [done|]. simpl.
  destruct (v <? 10) eqn:Hlt; bsimp.
  - repeat constructor; unfold CH_0; lia.
  - apply Forall_app. split; [apply IH; zlia|]. repeat constructor; unfold CH_0; zlia.
Qed.

Lemma decimal_length n v : 0 <= v → (0 < n)%nat → (0 < length (decimal_fuel n v) <= n)%nat.
Proof.
  revert v. induction n as [|n IH]; intros v Hv Hn; [lia|]. simpl.
  destruct (v <? 10) eqn:Hlt; bsimp; [simpl; lia|]. rewrite length_app. simpl.
  destruct n as [|n]; [simpl; lia|]. pose proof (IH (v / 10) ltac:(zlia) ltac:(lia)). lia.
Qed.

(** More fuel than digits changes nothing. *)
Lemma decimal_fuel_enough n k v :
  0 <= v < 10 ^ Z.of_nat n → (0 < n <= k)%nat → decimal_fuel k v = decimal_fuel n v.
Proof.
  revert k v. induction n as [|n IH]; intros k v Hv Hk; [lia|].
  destruct k as [|k]; [lia|]. simpl. destruct (v <? 10) eqn:Hlt; bsimp; [done|].
  rewrite Nat2Z.inj_succ, Z.pow_succ_r in Hv by lia.
  destruct n as [|n]; [simpl in Hv; lia|]. rewrite (IH k) by zlia. done.
Qed.

Lemma pow10_20 : 18446744073709551616 < 10 ^ Z.of_nat 20.
Proof. reflexivity. Qed.

Lemma decimal_fuel_step n v : 10 <= v < 10 ^ Z.of_nat n →
  decimal_fuel n v = decimal_fuel n (v / 10) ++ [v `mod` 10 + CH_0].
Proof.
  intros Hv. destruct n as [|n]; [simpl in Hv; lia|].
  rewrite Nat2Z.inj_succ, Z.pow_succ_r in Hv by lia.
  destruct n as [|n]; [simpl in Hv; lia|].
  rewrite (decimal_fuel_enough (S n) (S (S n)) (v / 10)) by (zlia || lia).
  remember (S n) as k. cbn [decimal_fuel]. destruct (v <? 10) eqn:Hlt; bsimp; [lia|done].
Qed.

Lemma decimal_step v : 10 <= v < 18446744073709551616 →
  decimal v = decimal (v / 10) ++ [v `mod` 10 + CH_0].
Proof.
  intros Hv. apply decimal_fuel_step. split; [apply Hv|].
  eapply Z.lt_trans; [apply Hv|exact pow10_20].
Qed.

Lemma decimal_small v : 0 <= v < 10 → decimal v = [v + CH_0].
Proof.
  intros Hv. unfold decimal. generalize 19%nat. intros n. cbn [decimal_fuel].
  destruct (v <? 10) eqn:Hlt; bsimp; [done|lia].
Qed.

#[global] Arguments decimal : simpl never.

(* ===================================================================== *)
(** ** The marshalling functions *)

Section marshal.
Context {S : Type} `{HasMemory S}.
Implicit Types (s : S).

(** The state after [l] was written at [a], with the number of bytes. *)
Definition writes (a : Z) (l : list Z) (s : S) (Q : Z → S → Prop) : Prop :=
  ∀ m', wrote a l (mem_of s) m' → Q (Z.of_nat (length l)) (set_mem m' s).

Lemma wp_write_byte a v s (Q : unit → S → Prop) :
  is_u8 v → (∀ m', wrote a [v] (mem_of s) m' → Q () (set_mem m' s)) → wp (write 1 a v) Q s.
Proof. intros Hv HQ. apply wp_write. apply HQ. rewrite store_1. by apply wrote_store8. Qed.

Lemma wp_count_loop n val d s (Q : Z → S → Prop) :
  0 <= val < 10 ^ Z.of_nat n → val < 18446744073709551616 → (0 < n)%nat →
  0 <= d → d + Z.of_nat n < 18446744073709551616 →
  Q (d + Z.of_nat (length (decimal_fuel n val))) s →
  wp (loop n (λ '(val_pro, digit_cnt),
    let val_pro := (val_pro / 10)%u64 in
    let digit_cnt := (digit_cnt + 1)%u64 in
    mret (if 0 <? val_pro then inl (val_pro, digit_cnt) else inr digit_cnt)) (val, d)) Q s.
Proof.
  revert val d. induction n as [|n IH]; intros val d Hv Hv64 Hn Hd Hdn HQ; [lia|].
  cbn [loop decimal_fuel] in *. wp_step. apply wp_ret. u64_unfold.
  rewrite Nat2Z.inj_succ, Z.pow_succ_r in Hv by lia. rewrite (u64_small (d + 1)) by lia.
  destruct (val <? 10) eqn:Hlt; bsimp.
  - rewrite Z.div_small by lia. apply wp_ret. simpl in HQ. by rewrite Z.add_comm, Z.add_comm.
  - destruct (0 <? val / 10) eqn:Hpos; bsimp; [|zlia].
    destruct n as [|n]; [simpl in Hv; lia|]. apply IH; [zlia|zlia|lia|lia|lia|].
    rewrite length_app in HQ. simpl length in HQ.
    by replace (d + 1 + Z.of_nat (length (decimal_fuel (Datatypes.S n) (val / 10))))
      with (d + Z.of_nat (length (decimal_fuel (Datatypes.S n) (val / 10)) + 1)) by lia.
Qed.

Lemma wp_digits_loop buf n val off s (Q : Z → S → Prop) :
  0 <= val < 10 ^ Z.of_nat n → val < 18446744073709551616 → (0 < n)%nat →
  Z.of_nat (length (decimal_fuel n val)) <= off + 1 → 0 <= buf → 0 <= off →
  buf + off < 18446744073709551616 →
  (∀ m', let k := Z.of_nat (length (decimal_fuel n val)) in
     wrote (buf + (off + 1 - k)) (decimal_fuel n val) (mem_of s) m' →
     Q (off + 1 - k) (set_mem m' s)) →
  wp (loop n (λ '(val_pro, buf_off_pro),
    let digit := (val_pro mod 10)%u64 in
    write 1 (buf + buf_off_pro)%u64 (digit + CH_0) ;;
    let val_pro := (val_pro / 10)%u64 in
    mret (if val_pro =? 0 then inr buf_off_pro else inl (val_pro, (buf_off_pro - 1)%u64)))
    (val, off)) Q s.
Proof.
  revert val off s. induction n as [|n IH]; intros val off s Hv Hv64 Hn Hlen Hbuf Hoff Hb HQ; [lia|].
  cbn [loop decimal_fuel] in *. u64_unfold. rewrite Nat2Z.inj_succ, Z.pow_succ_r in Hv by lia.
  wp_step. wp_step. rewrite (u64_small (buf + off)) by lia.
  pose proof (Z.mod_pos_bound val 10 ltac:(lia)) as Hmod.
  apply wp_write_byte; [unfold CH_0, is_u8; lia|]. intros m1 Hw1. apply wp_ret.
  destruct (val <? 10) eqn:Hlt; bsimp.
  - rewrite Z.div_small, Z.mod_small in * by lia. change (0 =? 0) with true. apply wp_ret.
    simpl length in HQ. specialize (HQ m1). replace (off + 1 - Z.of_nat 1) with off in HQ by lia.
    by apply HQ.
  - destruct (val / 10 =? 0) eqn:Hz; bsimp; [zlia|].
    destruct n as [|n]; [simpl in Hv; lia|].
    set (l := decimal_fuel (Datatypes.S n) (val / 10)) in *.
    pose proof (decimal_length (Datatypes.S n) (val / 10) ltac:(zlia) ltac:(lia)) as Hl. fold l in Hl.
    rewrite length_app in HQ, Hlen. simpl length in HQ, Hlen.
    rewrite (u64_small (off - 1)) by lia.
    apply IH; [zlia|zlia|lia|fold l; lia|lia|lia|lia|]. fold l. intros m2. rewrite mem_of_set. intros Hw2.
    rewrite set_mem_set. replace (off - 1 + 1) with off in * by lia.
    replace (off - Z.of_nat (length l)) with (off + 1 - Z.of_nat (length l + 1)) in * by lia.
    apply HQ. eapply wrote_snoc; [|done].
    by replace (buf + (off + 1 - Z.of_nat (length l + 1)) + Z.of_nat (length l)) with (buf + off) by lia.
Qed.

Lemma wp_marshal_uint buf off len val s (Q : Z → S → Prop) :
  is_u64 val → 0 <= buf → 0 <= off <= len → buf + len < 18446744073709551616 →
  Z.of_nat (length (decimal val)) < len - off →
  writes (buf + off) (decimal val) s Q →
  wp (str_buf_marshal_uint buf off len val) Q s.
Proof.
  intros Hv Hbuf Hoff Hb Hroom HQ. unfold is_u64 in Hv.
  assert (0 <= val < 10 ^ Z.of_nat 20) as Hv20.
  { split; [lia|]. eapply Z.lt_trans; [apply Hv|exact pow10_20]. }
  pose proof (decimal_length 20 val ltac:(lia) ltac:(lia)) as Hl. fold (decimal val) in Hl.
  unfold str_buf_marshal_uint, count_digits, write_digits. u64_unfold.
  wp_step. apply wp_count_loop; [done|lia|lia|lia|lia|]. fold (decimal val). rewrite Z.add_0_l.
  wp_step. wp_step; [rewrite u64_small by lia; bsimp; lia|].
  wp_step. rewrite (u64_small (off + _)) by lia. rewrite u64_small by lia.
  apply wp_digits_loop; [done|lia|lia|fold (decimal val); lia|lia|lia|lia|].
  fold (decimal val). intros m'. cbv zeta.
  replace (off + Z.of_nat (length (decimal val)) - 1 + 1 - Z.of_nat (length (decimal val)))
    with off by lia.
  intros Hw. wp_step. wp_step; [by bsimp|]. wp_step. by apply HQ.
Qed.

(** Copying a string that the buffer does not overlap. *)
Lemma wp_marshal_str buf off len str l s (Q : Z → S → Prop) :
  bytes_at (mem_of s) str l → Forall is_u8 l →
  0 <= buf → 0 <= off <= len → buf + len < 18446744073709551616 →
  0 <= str → str + Z.of_nat (length l) <= 18446744073709551616 →
  str + Z.of_nat (length l) <= buf + off ∨ buf + off + Z.of_nat (length l) <= str →
  Z.of_nat (length l) < len - off →
  writes (buf + off) l s Q →
  wp (str_buf_marshal_str buf off len str (Z.of_nat (length l))) Q s.
Proof.
  intros Hstr Hl8 Hbuf Hoff Hb Hs0 Hs1 Hdis Hroom HQ. unfold str_buf_marshal_str. u64_unfold.
  wp_step. wp_step; [rewrite u64_small by lia; bsimp; lia|].
  wp_step. rewrite Nat2Z.id.
  apply (wp_for_n (λ i s', ∃ m', s' = set_mem m' s ∧
    wrote (buf + off) (take (Z.to_nat i) l) (mem_of s) m')).
  - exists (mem_of s). split; [by rewrite set_mem_id|]. apply wrote_nil.
  - rewrite Z.add_0_l. intros i s' Hi (m' & -> & Hw).
    destruct (lookup_lt_is_Some_2 l (Z.to_nat i) ltac:(lia)) as [c Hc].
    assert (length (take (Z.to_nat i) l) = Z.to_nat i) as Htl by (rewrite length_take; lia).
    wp_step. apply wp_read. rewrite mem_of_set, load_1.
    rewrite (u64_small (off + i)), (u64_small (str + i)), (u64_small (buf + (off + i))) by lia.
    assert (load8 m' (str + i) = c) as ->.
    { pose proof (bytes_at_wrote _ _ _ _ str l Hw ltac:(lia) Hstr (Z.to_nat i) c Hc) as E.
      by replace (str + i) with (str + Z.of_nat (Z.to_nat i)) by lia. }
    apply wp_write_byte; [by eapply (proj1 (Forall_lookup _ _) Hl8)|].
    rewrite mem_of_set. intros m2 Hw2. exists m2. rewrite set_mem_set. split; [done|].
    replace (Z.to_nat (i + 1)) with (Datatypes.S (Z.to_nat i)) by lia.
    erewrite take_S_r by done. eapply wrote_app; [done|].
    by replace (buf + off + Z.of_nat (length (take (Z.to_nat i) l))) with (buf + (off + i)) by lia.
  - rewrite Z.add_0_l, Nat2Z.id, take_ge by lia. intros s' (m' & -> & Hw). wp_step. by apply HQ.
Qed.

Lemma wp_str_len fuel str l s (Q : Z → S → Prop) :
  bytes_at (mem_of s) str (l ++ [0]) → Forall (λ c, c ≠ 0) l → (length l < fuel)%nat →
  0 <= str → str + Z.of_nat (length l) < 18446744073709551616 →
  Q (Z.of_nat (length l)) s → wp (str_len fuel str) Q s.
Proof.
  intros Hb Hl Hf Hs0 Hs1 HQ. unfold str_len. u64_unfold.
  apply (wp_loop (λ len s', s' = s ∧ 0 <= len <= Z.of_nat (length l))
    (λ len, length l - Z.to_nat len)%nat); [split; [done|lia]|lia|].
  intros len s' [-> Hlen]. wp_step. apply wp_read. rewrite load_1, u64_small by lia.
  replace (str + len) with (str + Z.of_nat (Z.to_nat len)) by lia.
  apply wp_ret. destruct (decide (len = Z.of_nat (length l))) as [->|Hne].
  - rewrite (Hb _ 0); [done|]. rewrite Nat2Z.id, lookup_app_r by lia. by rewrite Nat.sub_diag.
  - destruct (lookup_lt_is_Some_2 l (Z.to_nat len) ltac:(lia)) as [c Hc].
    rewrite (Hb _ c) by (by apply lookup_app_l_Some).
    pose proof (proj1 (Forall_lookup _ _) Hl _ _ Hc) as Hc0. simpl in Hc0.
    destruct (c =? 0) eqn:Hz; bsimp; [done|]. rewrite u64_small by lia. split; [split; [done|lia]|lia].
Qed.

(** Reading a decimal number back. *)
Lemma wp_str_to_uint str off len ds s (Q : Z * Z → S → Prop) :
  bytes_at (mem_of s) (str + off) ds → Forall (λ c, CH_0 <= c <= CH_9) ds → ds ≠ [] →
  (off + Z.of_nat (length ds) = len ∨
   off + Z.of_nat (length ds) < len ∧
   str_char_is_digit (load8 (mem_of s) (str + off + Z.of_nat (length ds))) = false) →
  decimal_value ds < 18446744073709551616 → 0 <= str → 0 <= off → str + len < 18446744073709551616 →
  Q (decimal_value ds, Z.of_nat (length ds)) s →
  wp (str_to_uint str off len) Q s.
Proof.
  intros Hb Hds Hne Hend Hval Hstr Hoff Hlen HQ. unfold str_to_uint. u64_unfold.
  assert (0 < length ds)%nat as Hpos by (destruct ds; [done|simpl; lia]).
  assert (∀ k, (k <= length ds)%nat → 0 <= decimal_value (take k ds) <= decimal_value ds) as Hmono.
  { assert (∀ l v, Forall (λ c, CH_0 <= c <= CH_9) l → 0 <= v →
      v <= foldl (λ v c, v * 10 + (c - CH_0)) v l) as Hge.
    { induction l as [|c l IHl]; intros v Hl Hv; simpl; [lia|].
      apply list.Forall_cons in Hl as [Hc Hl]. unfold CH_0, CH_9 in *.
      specialize (IHl (v * 10 + (c - 48)) Hl ltac:(lia)). lia. }
    intros k Hk. rewrite <-(take_drop k ds) in Hds at 1. apply Forall_app in Hds as [Ht Hd].
    pose proof (Hge _ 0 Ht ltac:(lia)) as H0. split; [exact H0|].
    rewrite <-(take_drop k ds) at 2. unfold decimal_value. rewrite foldl_app. by apply Hge. }
  wp_step. apply (wp_loop (λ x s', s' = s ∧ ∃ k, (k <= length ds)%nat ∧
      x = (decimal_value (take k ds), off + Z.of_nat k))
    (λ x, Z.to_nat (off + Z.of_nat (length ds) - x.2))).
  - split; [done|]. exists 0%nat. split; [lia|]. by rewrite Z.add_0_r.
  - simpl. lia.
  - intros x s' [-> (k & Hk & ->)]. cbv beta iota.
    destruct (off + Z.of_nat k <? len) eqn:Hlt; bsimp.
    + wp_step. apply wp_read. rewrite load_1, u64_small by lia.
      destruct (decide (k = length ds)) as [->|Hkn].
      * destruct Hend as [Hend|[_ Hend]]; [lia|]. rewrite Z.add_assoc, Hend.
        repeat apply wp_ret. rewrite take_ge by lia.
        wp_step. wp_step; [bsimp; lia|]. wp_step.
        rewrite u64_small by lia. by replace (off + Z.of_nat (length ds) - off) with (Z.of_nat (length ds)) by lia.
      * destruct (lookup_lt_is_Some_2 ds k ltac:(lia)) as [c Hc].
        rewrite Z.add_assoc, (Hb k c Hc).
        pose proof (proj1 (Forall_lookup _ _) Hds _ _ Hc) as Hcd. simpl in Hcd.
        unfold str_char_is_digit, str_char_to_uint. unfold CH_0, CH_9 in *.
        assert ((48 <=? c) && (c <=? 57) = true) as -> by (bsimp; lia).
        u64_unfold. apply wp_ret.
        assert (decimal_value (take (Datatypes.S k) ds) = decimal_value (take k ds) * 10 + (c - 48)) as E.
        { erewrite take_S_r by done. unfold decimal_value. by rewrite foldl_app. }
        pose proof (Hmono k Hk) as Hm. pose proof (Hmono (Datatypes.S k) ltac:(lia)) as Hm'.
        rewrite (u64_small (c - 48)) by lia.
        rewrite (u64_small (decimal_value (take k ds) * 10)) by lia.
        rewrite <-E, (u64_small (decimal_value _)), (u64_small (off + _ + 1)) by lia.
        split; [split; [done|]|simpl; lia]. exists (Datatypes.S k). split; [lia|]. f_equal. lia.
    + assert (k = length ds) as -> by lia. rewrite take_ge by lia. apply wp_ret.
      wp_step. wp_step; [bsimp; lia|]. wp_step. rewrite u64_small by lia.
      by replace (off + Z.of_nat (length ds) - off) with (Z.of_nat (length ds)) by lia.
Qed.

(* --------------------------------------------------------------------- *)
(** ** The formatter *)

Lemma wp_copy_at_most buf len str n l off s (Q : Z → S → Prop) :
  bytes_at (mem_of s) str (l ++ [0]) → Forall (λ c, c ≠ 0 ∧ is_u8 c) l →
  0 <= n < 18446744073709551616 - 1 → 0 <= buf → 0 <= off → buf + len < 18446744073709551616 →
  0 <= str → str + Z.of_nat (length l) < 18446744073709551616 →
  str + Z.of_nat (length l) + 1 <= buf + off ∨ buf + len <= str →
  off + Z.of_nat (length (take (Z.to_nat n) l)) < len →
  (∀ m', wrote (buf + off) (take (Z.to_nat n) l) (mem_of s) m' →
     Q (off + Z.of_nat (length (take (Z.to_nat n) l))) (set_mem m' s)) →
  wp (copy_at_most buf len str n off) Q s.
Proof.
  intros Hstr Hl Hn Hbuf Hoff Hb Hs0 Hs1 Hdis Hroom HQ. unfold copy_at_most. u64_unfold.
  rewrite length_take in *.
  apply (wp_loop (λ x s', ∃ k m', (k <= Nat.min (Z.to_nat n) (length l))%nat ∧ s' = set_mem m' s ∧
      wrote (buf + off) (take k l) (mem_of s) m' ∧ x = (Z.of_nat k, off + Z.of_nat k))
    (λ x, (Z.to_nat n - Z.to_nat x.1)%nat)).
  - exists 0%nat, (mem_of s). split_and!; [lia|by rewrite set_mem_id|apply wrote_nil|by rewrite Z.add_0_r].
  - simpl. lia.
  - intros x s' (k & m' & Hk & -> & Hw & ->). cbv beta iota.
    destruct (Z.of_nat k <? n) eqn:Hlt; bsimp.
    + assert (length (take k l) = k) as Htl by (rewrite length_take; lia).
      pose proof (bytes_at_wrote _ _ _ _ str (l ++ [0]) Hw
        ltac:(rewrite length_app; simpl; lia) Hstr) as Hstr'.
      wp_step. apply wp_read. rewrite mem_of_set, load_1, u64_small by lia.
      destruct (decide (k = length l)) as [->|Hkl].
      * rewrite (Hstr' _ 0) by (rewrite lookup_app_r, Nat.sub_diag by lia; done).
        apply wp_ret. rewrite take_ge in Hw by lia. rewrite take_ge in HQ by lia.
        replace (Nat.min (Z.to_nat n) (length l)) with (length l) in HQ by lia. by apply HQ.
      * destruct (lookup_lt_is_Some_2 l k ltac:(lia)) as [c Hc].
        rewrite (Hstr' _ c) by (by apply lookup_app_l_Some).
        destruct (proj1 (Forall_lookup _ _) Hl _ _ Hc) as [Hc0 Hc8].
        destruct (c =? 0) eqn:Hz; bsimp; [done|].
        wp_step. wp_step; [bsimp; lia|]. wp_step. rewrite (u64_small (buf + _)) by lia.
        apply wp_write_byte; [done|]. rewrite mem_of_set. intros m2 Hw2. apply wp_ret.
        rewrite set_mem_set, !u64_small by lia.
        split; [|simpl; lia]. exists (Datatypes.S k), m2. split_and!; [lia|done| |f_equal; lia].
        erewrite take_S_r by done. eapply wrote_app; [done|]. rewrite Htl.
        by replace (buf + off + Z.of_nat k) with (buf + (off + Z.of_nat k)) by lia.
    + apply wp_ret. replace (Nat.min (Z.to_nat n) (length l)) with k in HQ by lia.
      replace (Z.to_nat n) with k in HQ by lia. by apply HQ.
Qed.

End marshal.

(** A format string as the pieces it consists of, with their arguments. *)
Inductive piece :=
| PChar (c : Z)                          (* an ordinary character *)
| PPercent                               (* %% *)
| PStr (p : Z) (l : list Z)              (* %s, the string [l] at [p] *)
| PULong (v : Z)                         (* %lu *)
| PPrefix (n : Z) (p : Z) (l : list Z).  (* %.ns *)

Definition piece_format (x : piece) : list Z :=
  match x with
  | PChar c => [c]
  | PPercent => [CH_PERCENT; CH_PERCENT]
  | PStr _ _ => [CH_PERCENT; CH_s]
  | PULong _ => [CH_PERCENT; CH_l; CH_u]
  | PPrefix n _ _ => CH_PERCENT :: CH_DOT :: decimal n ++ [CH_s]
  end.

Definition piece_args (x : piece) : list Z :=
  match x with
  | PStr p _ | PPrefix _ p _ => [p]
  | PULong v => [v]
  | _ => []
  end.

(** What the piece stands for in the output. *)
Definition piece_output (x : piece) : list Z :=
  match x with
  | PChar c => [c]
  | PPercent => [CH_PERCENT]
  | PStr _ l => l
  | PULong v => decimal v
  | PPrefix n _ l => take (Z.to_nat n) l
  end.

(** A zero-terminated string at [p] that the buffer [lo, hi) does not
    overlap. *)
Definition c_string (m : memory) (lo hi p : Z) (l : list Z) : Prop :=
  bytes_at m p (l ++ [0]) ∧ Forall (λ c, c ≠ 0 ∧ is_u8 c) l ∧
  0 <= p ∧ p + Z.of_nat (length l) < 18446744073709551616 ∧
  (p + Z.of_nat (length l) + 1 <= lo ∨ hi <= p).

Definition piece_ok (fuel : nat) (m : memory) (lo hi : Z) (x : piece) : Prop :=
  match x with
  | PChar c => c ≠ CH_PERCENT ∧ is_u8 c
  | PPercent => True
  | PStr p l => c_string m lo hi p l ∧ (length l < fuel)%nat
  | PULong v => is_u64 v
  | PPrefix n p l => c_string m lo hi p l ∧ 0 <= n < 18446744073709551616 - 1
  end.

Lemma c_string_wrote m m' lo hi p l a k :
  wrote a k m m' → lo <= a → a + Z.of_nat (length k) <= hi →
  c_string m lo hi p l → c_string m' lo hi p l.
Proof.
  intros Hw Ha Hh (Hb & Hl & H0 & H1 & Hd). split_and!; [|done..].
  eapply bytes_at_wrote; [done| |done]. rewrite length_app. simpl. lia.
Qed.

Lemma piece_ok_wrote fuel m m' lo hi x a k :
  wrote a k m m' → lo <= a → a + Z.of_nat (length k) <= hi →
  piece_ok fuel m lo hi x → piece_ok fuel m' lo hi x.
Proof.
  intros Hw Ha Hh. destruct x; simpl; [done|done| |done|];
    (intros [Hc ?]; split; [|done]); by eapply c_string_wrote.
Qed.

Lemma decimal_value_decimal v : is_u64 v → decimal_value (decimal v) = v.
Proof.
  intros Hv. apply decimal_fuel_value; [|lia]. split; [apply Hv|].
  eapply Z.lt_trans; [apply Hv|exact pow10_20].
Qed.

Section format.
Context {S : Type} `{HasMemory S}.
Implicit Types (s : S).

(** One round of the loop handles one piece. *)
Lemma wp_format_step fuel buf len fmt fmt_len fp bp lo x rest va s (Q : Z * Z * list Z → S → Prop) :
  bytes_at (mem_of s) (fmt + fp) (piece_format x ++ rest) →
  piece_ok fuel (mem_of s) lo (buf + len) x → lo <= buf + bp →
  0 <= fmt → 0 <= fp → fmt + fmt_len < 18446744073709551616 →
  fp + Z.of_nat (length (piece_format x)) <= fmt_len →
  0 <= buf → 0 <= bp → buf + len < 18446744073709551616 →
  bp + Z.of_nat (length (piece_output x)) < len →
  (∀ m', wrote (buf + bp) (piece_output x) (mem_of s) m' →
     Q (fp + Z.of_nat (length (piece_format x)), bp + Z.of_nat (length (piece_output x)), va)
       (set_mem m' s)) →
  wp (format_step fuel buf len fmt fmt_len (fp, bp, piece_args x ++ va)) Q s.
Proof.
  intros Hfmt Hok Hlo Hf0 Hfp Hf1 Hflen Hb0 Hbp Hb1 Hroom HQ. unfold format_step. u64_unfold.
  apply bytes_at_app in Hfmt as [Hfmt _].
  destruct x as [c| |p l|v|n p l]; simpl in Hok, Hroom, Hflen, HQ, Hfmt |- *;
    apply bytes_at_cons in Hfmt as [E1 Hfmt]; wp_step; apply wp_read;
    rewrite load_1, (u64_small (fmt + fp)), E1 by lia.
  - destruct Hok as [Hc Hc8]. destruct (c =? CH_PERCENT) eqn:Hp; bsimp; [done|]. simpl.
    wp_step. rewrite (u64_small (buf + bp)) by lia. apply wp_write_byte; [done|].
    intros m' Hw. wp_step. rewrite !u64_small by lia. by apply HQ.
  - apply bytes_at_cons in Hfmt as [E2 _]. simpl. wp_step. apply wp_read.
    rewrite (u64_small (fp + 1)), load_1, (u64_small (fmt + (fp + 1))), Z.add_assoc, E2 by lia. simpl.
    wp_step. rewrite (u64_small (buf + bp)) by lia. apply wp_write_byte; [done|].
    intros m' Hw. wp_step. rewrite !u64_small by lia. rewrite <-Z.add_assoc. by apply HQ.
  - apply bytes_at_cons in Hfmt as [E2 _]. simpl. wp_step. apply wp_read.
    rewrite (u64_small (fp + 1)), load_1, (u64_small (fmt + (fp + 1))), Z.add_assoc, E2 by lia. simpl.
    destruct Hok as [(Hs & Hl & Hp0 & Hp1 & Hd) Hfu]. apply wp_bind, wp_ret. wp_step.
    eapply wp_str_len; [done| |done|done|done|].
    { eapply list.Forall_impl; [exact Hl|]. by intros ? []. }
    wp_step. apply bytes_at_app in Hs as [Hs _]. eapply wp_marshal_str; [done| |lia..|].
    { eapply list.Forall_impl; [exact Hl|]. by intros ? []. }
    intros m' Hw. wp_step. rewrite !u64_small by lia. rewrite <-Z.add_assoc. by apply HQ.
  - apply bytes_at_cons in Hfmt as [E2 Hfmt]. apply bytes_at_cons in Hfmt as [E3 _].
    simpl. wp_step. apply wp_read.
    rewrite (u64_small (fp + 1)), load_1, (u64_small (fmt + (fp + 1))), Z.add_assoc, E2 by lia. simpl.
    wp_step. apply wp_read. rewrite (u64_small (fp + 1 + 1)), load_1 by lia.
    rewrite (u64_small (fmt + (fp + 1 + 1))), !Z.add_assoc, E3 by lia. simpl.
    apply wp_bind, wp_ret. wp_step. apply wp_marshal_uint; [done|lia..|].
    intros m' Hw. wp_step. rewrite !u64_small by lia.
    replace (fp + 1 + 1 + 1) with (fp + 3) by lia. by apply HQ.
  - apply bytes_at_cons in Hfmt as [E2 Hfmt]. apply bytes_at_app in Hfmt as [E3 Hend].
    apply bytes_at_cons in Hend as [E4 _].
    destruct Hok as [(Hs & Hl & Hp0 & Hp1 & Hd) Hn]. rewrite length_app in Hflen, HQ. simpl in Hflen, HQ.
    simpl. wp_step. apply wp_read.
    rewrite (u64_small (fp + 1)), load_1, (u64_small (fmt + (fp + 1))), Z.add_assoc, E2 by lia. simpl.
    wp_step. rewrite (u64_small (fp + 1 + 1)) by lia.
    assert (is_u64 n) as Hn64 by (unfold is_u64; lia).
    apply (wp_str_to_uint _ _ _ (decimal n));
      [by rewrite !Z.add_assoc|apply decimal_fuel_digits; lia| | | |lia|lia|lia|].
    { intros Hnil. pose proof (decimal_length 20 n ltac:(lia) ltac:(lia)) as Hdl.
      fold (decimal n) in Hdl. rewrite Hnil in Hdl. simpl in Hdl. lia. }
    { right. rewrite !Z.add_assoc, E4. split; [lia|done]. }
    { rewrite decimal_value_decimal by done. lia. }
    rewrite decimal_value_decimal by done. wp_step. apply wp_ret. wp_step.
    eapply (wp_copy_at_most buf len p n l bp); [done|done|lia|lia|lia|lia|lia|lia|lia|lia|].
    intros m' Hw. wp_step. rewrite (u64_small (fp + 1 + 1 + _)), u64_small by lia.
    replace (fp + 1 + 1 + Z.of_nat (length (decimal n)) + 1) with
      (fp + Z.of_nat (Datatypes.S (Datatypes.S (length (decimal n) + 1)))) by lia. by apply HQ.
Qed.

Definition format_of (xs : list piece) : list Z := xs ≫= piece_format.
Definition args_of (xs : list piece) : list Z := xs ≫= piece_args.
Definition output_of (xs : list piece) : list Z := xs ≫= piece_output.

Lemma wp_format_loop fuel buf len fmt fmt_len n xs fp bp lo va s (Q : Z → S → Prop) :
  bytes_at (mem_of s) (fmt + fp) (format_of xs) → Forall (piece_ok fuel (mem_of s) lo (buf + len)) xs →
  fp + Z.of_nat (length (format_of xs)) = fmt_len → (length xs < n)%nat →
  lo <= buf + bp → 0 <= fmt → 0 <= fp → fmt + fmt_len < 18446744073709551616 →
  fmt + fmt_len <= lo ∨ buf + len <= fmt →
  0 <= buf → 0 <= bp → buf + len < 18446744073709551616 →
  bp + Z.of_nat (length (output_of xs)) < len →
  (∀ m', wrote (buf + bp) (output_of xs) (mem_of s) m' →
     Q (bp + Z.of_nat (length (output_of xs))) (set_mem m' s)) →
  wp (loop n (λ x,
    let '(format_ptr, buf_ptr, va) := x in
    if format_ptr <? fmt_len then
      x ← format_step fuel buf len fmt fmt_len x;
      mret (inl x)
    else mret (inr buf_ptr)) (fp, bp, args_of xs ++ va)) Q s.
Proof.
  revert n fp bp s. induction xs as [|x xs IH]; intros n fp bp s Hfmt Hok Hend Hn Hlo Hf0 Hfp Hf1
    Hdis Hb0 Hbp Hb1 Hroom HQ; (destruct n as [|n]; [simpl in Hn; lia|]); cbn [loop].
  - simpl in Hend, HQ. destruct (fp <? fmt_len) eqn:Hlt; bsimp; [lia|].
    wp_step. repeat apply wp_ret. rewrite Z.add_0_r in HQ. rewrite <-(set_mem_id s).
    apply HQ, wrote_nil.
  - unfold format_of, args_of, output_of in *. cbn [mbind list_bind] in *.
    fold (format_of xs) (args_of xs) (output_of xs) in *.
    rewrite !length_app in *. simpl in Hn.
    apply list.Forall_cons in Hok as [Hx Hok].
    assert (0 < length (piece_format x))%nat as Hpos by (destruct x; simpl; lia).
    destruct (fp <? fmt_len) eqn:Hlt; bsimp; [|lia].
    wp_step. wp_step. rewrite <-app_assoc.
    eapply wp_format_step; [exact Hfmt|exact Hx|lia..|].
    intros m' Hw. repeat apply wp_ret. rewrite app_assoc, <-app_assoc || idtac.
    apply IH; rewrite ?mem_of_set; [| |lia|lia|lia|lia|lia|lia|lia|lia|lia|lia|lia|].
    + eapply bytes_at_wrote; [done|lia|]. apply bytes_at_app in Hfmt as [_ Hfmt].
      by rewrite Z.add_assoc.
    + eapply list.Forall_impl; [exact Hok|]. intros y. eapply piece_ok_wrote; [done|lia|lia].
    + intros m2 Hw2. rewrite set_mem_set.
      replace (bp + Z.of_nat (length (piece_output x)) + Z.of_nat (length (output_of xs))) with
        (bp + Z.of_nat (length (piece_output x) + length (output_of xs))) by lia.
      apply HQ. eapply wrote_app; [done|]. by rewrite <-Z.add_assoc.
Qed.

Lemma wp_marshal_format_v fuel buf off len fmt xs s (Q : Z → S → Prop) :
  bytes_at (mem_of s) fmt (format_of xs) → Forall (piece_ok fuel (mem_of s) (buf + off) (buf + len)) xs →
  0 <= fmt ∧ fmt + Z.of_nat (length (format_of xs)) < 18446744073709551616 →
  fmt + Z.of_nat (length (format_of xs)) <= buf + off ∨ buf + len <= fmt →
  0 <= buf ∧ 0 <= off ∧ buf + len < 18446744073709551616 → off + Z.of_nat (length (output_of xs)) < len →
  writes (buf + off) (output_of xs) s Q →
  wp (str_buf_marshal_format_v fuel buf off len fmt (Z.of_nat (length (format_of xs))) (args_of xs)) Q s.
Proof.
  intros Hfmt Hok Hf Hdis Hb Hroom HQ.
  unfold str_buf_marshal_format_v. u64_unfold. wp_step. wp_step; [bsimp; lia|]. wp_step.
  rewrite <-(app_nil_r (args_of xs)), Nat2Z.id.
  assert (length xs <= length (format_of xs))%nat as Hlen.
  { unfold format_of. clear. induction xs as [|x xs IH]; [done|]. cbn [mbind list_bind].
    rewrite length_app. cbn [mbind] in IH. destruct x; simpl in *; lia. }
  eapply (wp_format_loop _ _ _ _ _ _ _ _ _ (buf + off)); [by rewrite Z.add_0_r|done|lia..|].
  intros m' Hw. wp_step. wp_step; [bsimp; lia|]. wp_step.
  replace (off + Z.of_nat (length (output_of xs)) - off) with (Z.of_nat (length (output_of xs))) by lia.
  rewrite u64_small by lia. by apply HQ.
Qed.

(** What [str_buf_marshal_uint_in_size] writes: for every unit that the value
    reaches, the whole value in that unit. *)
Definition size_parts (val : Z) (units : list Z) : list Z := filter (λ p, 0 < p) ((λ u, val / u) <$> units).
Definition size_text (val : Z) (units : list Z) : list Z := size_parts val units ≫= decimal.
Definition size_unit (i : nat) : list Z :=
  match _SIZE_NOTES !! i with Some (a, b) => [a; b] | None => [] end.

(** Writing over the tail of what was written. *)
Lemma wrote_over a l u l2 m m1 m2 : wrote a (l ++ u) m m1 → wrote (a + Z.of_nat (length l)) l2 m1 m2 →
  (length u <= length l2)%nat → wrote a (l ++ l2) m m2.
Proof.
  intros [Hb1 Ho1] [Hb2 Ho2] Hu. split.
  - apply bytes_at_app. split; [|done]. apply bytes_at_app in Hb1 as [Hb1 _]. intros i c Hi.
    rewrite Ho2; [by apply Hb1|]. apply lookup_lt_Some in Hi. lia.
  - intros x Hx. rewrite length_app in Hx. rewrite Ho2, Ho1; [done|rewrite length_app|]; lia.
Qed.

Lemma wp_size_round note buf off len val i u a b t l s (Q : nat * Z + Z → S → Prop) m0 : is_u64 val →
  (i < 6)%nat → _SIZE_UNITS !! i = Some u → _SIZE_NOTES !! i = Some (a, b) →
  bytes_at (mem_of s) (note i) [a; b] → 0 <= note i ∧ note i + 2 <= 18446744073709551616 →
  note i + 2 <= buf ∨ buf + len <= note i →
  0 <= buf → 0 <= off → buf + len < 18446744073709551616 →
  wrote (buf + off) (t ++ l) m0 (mem_of s) → (length l <= 2)%nat →
  (0 < val / u → off + Z.of_nat (length t) + Z.of_nat (length (decimal (val / u))) + 2 < len) →
  (∀ m' l', wrote (buf + off) ((t ++ size_text val [u]) ++ l') m0 m' → l' = (if 0 <? val / u then [a; b] else l) →
     Q (inl (Datatypes.S i, off + Z.of_nat (length (t ++ size_text val [u])))) (set_mem m' s)) →
  wp (size_round note buf len val (i, off + Z.of_nat (length t))) Q s.
Proof.
  intros Hv Hi Hu Hn Hnote Hn0 Hdis Hbuf Hoff Hb Hw Hl Hroom HQ.
  unfold size_round. destruct (i <? 6)%nat eqn:E; [|apply Nat.ltb_ge in E; lia].
  wp_step. eapply wp_array_get; [lia|by rewrite Nat2Z.id|]. cbv zeta. unfold udiv.
  assert (1 <= u) as Hu1.
  { assert (Forall (λ u, 1 <= u) _SIZE_UNITS) as HF by (repeat constructor; lia). by eapply (proj1 (Forall_lookup _ _) HF). }
  assert (0 <= val / u <= val) as Hp.
  { unfold is_u64 in Hv. split; [by apply Z.div_pos; lia|]. apply Z.div_le_upper_bound; nia. }
  unfold size_text, size_parts in HQ. cbn [fmap list_fmap filter list_filter] in HQ.
  destruct (0 <? val / u) eqn:Hpos; bsimp; cycle 1.
  { rewrite decide_False in HQ by lia. cbn [mbind list_bind] in HQ. rewrite app_nil_r in HQ.
    wp_step. apply wp_ret, wp_ret. rewrite <-(set_mem_id s). by eapply HQ. }
  rewrite decide_True in HQ by done. cbn [mbind list_bind] in HQ. rewrite app_nil_r in HQ.
  specialize (Hroom Hpos). set (d := decimal (val / u)) in *.
  wp_step. wp_step. apply wp_marshal_uint; [unfold is_u64 in *; lia|done|lia|done|fold d; lia|].
  fold d. intros m1 Hw1. u64_unfold. cbv zeta. rewrite (u64_small (off + _ + _)) by lia.
  wp_step. wp_step; [rewrite u64_small by lia; bsimp; lia|].
  wp_step.
  assert (is_u8 a ∧ is_u8 b) as [Ha Hb8].
  { assert (Forall (λ p, is_u8 p.1 ∧ is_u8 p.2) _SIZE_NOTES) as HF by (repeat constructor; unfold is_u8; cbn; lia).
    exact (proj1 (Forall_lookup _ _) HF _ _ Hn). }
  apply (wp_marshal_str buf _ len (note i) [a; b]); [|by repeat (apply Forall_cons_2; [done|])|lia|lia|done|lia|cbn [length]; lia
    |cbn [length]; lia|cbn [length]; lia|].
  { rewrite mem_of_set. eapply bytes_at_wrote; [exact Hw1|fold d; cbn [length]; lia|done]. }
  intros m2 Hw2. rewrite set_mem_set, mem_of_set in *. wp_step. apply wp_ret.
  rewrite <-Z.add_assoc, <-Nat2Z.inj_add, <-length_app. apply (HQ m2 [a; b]); [|done]. rewrite <-app_assoc.
  eapply wrote_over; [exact Hw| |rewrite length_app; cbn [length]; lia].
  eapply wrote_app; [by rewrite <-Z.add_assoc|]. by rewrite !Z.add_assoc in Hw2.
Qed.

(** The unit that follows the text after [i] rounds. *)
Definition size_tail (val : Z) (i : nat) : list Z :=
  match i with
  | O => []
  | Datatypes.S j => if 0 <? val / default 1 (_SIZE_UNITS !! j) then size_unit j else []
  end.

Lemma size_tail_length val i : (length (size_tail val i) <= 2)%nat.
Proof.
  destruct i as [|j]; cbn [size_tail length]; [lia|]. destruct (0 <? _); [|cbn; lia].
  unfold size_unit. destruct (_SIZE_NOTES !! j) as [[a b]|]; cbn; lia.
Qed.

Lemma size_tail_step val i u a b : is_u64 val → _SIZE_UNITS !! i = Some u → _SIZE_NOTES !! i = Some (a, b) →
  (if 0 <? val / u then [a; b] else size_tail val i) = size_tail val (Datatypes.S i).
Proof.
  intros Hv Hu Hn. cbn [size_tail]. rewrite Hu. cbn [from_option id]. unfold size_unit. rewrite Hn.
  destruct (0 <? val / u) eqn:Hpos; [done|]. bsimp. destruct i as [|j]; [done|]. cbn [size_tail].
  destruct (_SIZE_UNITS !! j) as [w|] eqn:Hw; cycle 1.
  { apply lookup_ge_None in Hw. apply lookup_lt_Some in Hu. lia. }
  cbn [from_option id]. destruct (0 <? val / w) eqn:Hpos2; [|done]. bsimp. exfalso.
  assert (0 < u <= w) as Huw.
  { do 6 (destruct j as [|j]; [vm_compute in Hu, Hw; simplify_eq; lia|]). by vm_compute in Hw. }
  pose proof (Z.div_le_compat_l val u w ltac:(unfold is_u64 in Hv; lia) Huw). lia.
Qed.

Lemma size_text_app val l1 l2 : size_text val (l1 ++ l2) = size_text val l1 ++ size_text val l2.
Proof. unfold size_text, size_parts. by rewrite fmap_app, list.filter_app, bind_app. Qed.

(** [str_buf_marshal_uint_in_size] writes, for every unit that the value
    reaches, the whole value in that unit, one after the other without the
    units, and the unit KB at the end, which the length it returns does not
    count. *)
Theorem uint_in_size_ok (note : nat → Z) (buf off len val : Z) (s : S) (Hv : is_u64 val)
    (Hnote : ∀ i, (i < 6)%nat → bytes_at (mem_of s) (note i) (size_unit i) ∧
       0 <= note i ∧ note i + 2 <= 18446744073709551616 ∧ (note i + 2 <= buf ∨ buf + len <= note i))
    (Hb : 0 <= buf ∧ 0 <= off ∧ buf + len < 18446744073709551616)
    (Hroom : off + Z.of_nat (length (size_text val _SIZE_UNITS)) + 2 < len) :
  ∃ m', str_buf_marshal_uint_in_size note buf off len val s =
          Done (Z.of_nat (length (size_text val _SIZE_UNITS)), set_mem m' s) ∧
        wrote (buf + off) (size_text val _SIZE_UNITS ++ (if 1024 <=? val then [75; 66] else [])) (mem_of s) m'.
Proof.
  cut (wp (str_buf_marshal_uint_in_size note buf off len val)
    (λ n s', n = Z.of_nat (length (size_text val _SIZE_UNITS)) ∧ ∃ m', s' = set_mem m' s ∧
       wrote (buf + off) (size_text val _SIZE_UNITS ++ size_tail val 6) (mem_of s) m') s).
  { intros (n&s'&Hrun&->&m'&->&Hw)%wp_done. exists m'. split; [done|]. enough ((0 <? val / 1024) = (1024 <=? val)) as E.
    { cbn in Hw. by rewrite E in Hw. }
    apply eq_true_iff_eq. rewrite Z.ltb_lt, Z.leb_le. zlia. }
  unfold str_buf_marshal_uint_in_size. wp_step. wp_step; [bsimp; lia|]. wp_step.
  apply (wp_loop (λ x s', ∃ i m', (i <= 6)%nat ∧ s' = set_mem m' s ∧
      x = (i, off + Z.of_nat (length (size_text val (take i _SIZE_UNITS)))) ∧
      wrote (buf + off) (size_text val (take i _SIZE_UNITS) ++ size_tail val i) (mem_of s) m') (λ x, 6 - x.1)%nat).
  - exists 0%nat, (mem_of s). rewrite set_mem_id. split_and!; [lia|done|by rewrite Z.add_0_r|apply wrote_nil].
  - cbn. lia.
  - intros x s' (i&m'&Hi&->&->&Hw). destruct (decide (i = 6%nat)) as [->|Hne].
    { change (take 6 _SIZE_UNITS) with _SIZE_UNITS in *. unfold size_round. cbn [Nat.ltb]. apply wp_ret. wp_step. wp_step; [bsimp; lia|]. wp_step. u64_unfold.
      rewrite Z.add_simpl_l, u64_small by lia. split; [done|]. by exists m'. }
    destruct (lookup_lt_is_Some_2 _SIZE_UNITS i ltac:(cbn; lia)) as [u Hu].
    destruct (lookup_lt_is_Some_2 _SIZE_NOTES i ltac:(cbn; lia)) as [[a b] Hn].
    destruct (Hnote i ltac:(lia)) as (Hni&?&?&Hdis). unfold size_unit in Hni. rewrite Hn in Hni.
    assert (size_text val (take (Datatypes.S i) _SIZE_UNITS) = size_text val (take i _SIZE_UNITS) ++ size_text val [u]) as Et.
    { by rewrite (take_S_r _ _ u Hu), size_text_app. }
    assert (length (size_text val (take i _SIZE_UNITS)) + length (size_text val [u]) <= length (size_text val _SIZE_UNITS))%nat as Hle.
    { rewrite <-length_app, <-Et. rewrite <-(take_drop (Datatypes.S i) _SIZE_UNITS) at 2. rewrite size_text_app, length_app. lia. }
    eapply (wp_size_round note buf off len val i u a b _ _ _ _ (mem_of s));
      [done|lia|done|done| |done|done|lia|lia|lia|by rewrite mem_of_set|apply size_tail_length| |].
    + rewrite mem_of_set. eapply bytes_at_wrote; [exact Hw| |done]. rewrite length_app.
      pose proof (size_tail_length val i). cbn [length]. lia.
    + intros Hpos. unfold size_text at 2, size_parts in Hle. cbn [fmap list_fmap filter list_filter] in Hle.
      rewrite decide_True in Hle by done. cbn [mbind list_bind] in Hle. rewrite app_nil_r in Hle. lia.
    + intros m2 l' Hw2 ->. rewrite set_mem_set. split; [|cbn; lia]. exists (Datatypes.S i), m2. rewrite Et.
      split_and!; [lia|done|done|]. by rewrite <-(size_tail_step val i u a b).
Qed.


(** C22: the formatter implements the reference semantics of format strings:
    for a format made of ordinary characters, %%, %s, %lu and %.ns pieces,
    with their arguments, it writes exactly the concatenation of the pieces'
    texts into the buffer and returns its length, provided the text fits; the
    rest of the memory is unchanged. *)
Theorem format_ok (fuel : nat) (buf off len fmt : Z) (xs : list piece) (s : S)
    (Hfmt : bytes_at (mem_of s) fmt (format_of xs))
    (Hok : Forall (piece_ok fuel (mem_of s) (buf + off) (buf + len)) xs)
    (Hf : 0 <= fmt ∧ fmt + Z.of_nat (length (format_of xs)) < 18446744073709551616)
    (Hdis : fmt + Z.of_nat (length (format_of xs)) <= buf + off ∨ buf + len <= fmt)
    (Hb : 0 <= buf ∧ 0 <= off ∧ buf + len < 18446744073709551616)
    (Hroom : off + Z.of_nat (length (output_of xs)) < len) :
  ∃ m', str_buf_marshal_format_v fuel buf off len fmt (Z.of_nat (length (format_of xs))) (args_of xs) s =
          Done (Z.of_nat (length (output_of xs)), set_mem m' s) ∧
        wrote (buf + off) (output_of xs) (mem_of s) m'.
Proof.
  assert (wp (str_buf_marshal_format_v fuel buf off len fmt (Z.of_nat (length (format_of xs))) (args_of xs))
    (λ n s', n = Z.of_nat (length (output_of xs)) ∧
      ∃ m', s' = set_mem m' s ∧ wrote (buf + off) (output_of xs) (mem_of s) m') s)
    as (n & s' & Hrun & -> & m' & -> & Hw)%wp_done; [|by exists m'].
  apply wp_marshal_format_v; [done..|]. intros m' Hw. split; [done|]. by exists m'.
Qed.

(** C23: a 64-bit number survives the round trip through its decimal text. *)
Theorem uint_roundtrip (buf off len val : Z) (s : S) (Hv : is_u64 val)
    (Hb : 0 <= buf ∧ 0 <= off ∧ buf + len < 18446744073709551616)
    (Hroom : off + Z.of_nat (length (decimal val)) < len) :
  ∃ n s', str_buf_marshal_uint buf off len val s = Done (n, s') ∧
    0 < n <= 20 ∧ str_to_uint buf off (off + n) s' = Done ((val, n), s').
Proof.
  cut (wp (str_buf_marshal_uint buf off len val) (λ n s', 0 < n <= 20 ∧
    wp (str_to_uint buf off (off + n)) (λ r s'', r = (val, n) ∧ s'' = s') s') s).
  { intros (n & s' & Hrun & Hn & Hback)%wp_done.
    apply wp_done in Hback as (r & s'' & Hrun' & -> & ->). by exists n, s'. }
  assert (0 <= val) as Hv0 by apply Hv.
  pose proof (decimal_length 20 val Hv0 ltac:(lia)) as Hl. fold (decimal val) in Hl.
  apply wp_marshal_uint; [done|lia..|]. intros m' [Hw _]. split; [lia|].
  apply (wp_str_to_uint _ _ _ (decimal val)).
  - by rewrite mem_of_set.
  - by apply decimal_fuel_digits.
  - intros E. rewrite E in Hl. simpl in Hl. lia.
  - left. lia.
  - rewrite decimal_value_decimal by done. apply Hv.
  - lia.
  - lia.
  - lia.
  - by rewrite decimal_value_decimal.
Qed.

End format.

(* --------------------------------------------------------------------- *)
(** ** Concrete instances *)

(** A memory with given bytes, and the bytes of a memory. *)
Fixpoint poke (a : Z) (l : list Z) (m : memory) : memory :=
  match l with
  | [] => m
  | c :: l => poke (a + 1) l (store8 a c m)
  end.
Fixpoint peek (m : memory) (a : Z) (n : nat) : list Z :=
  match n with
  | O => []
  | S n => load8 m a :: peek m (a + 1) n
  end.

Lemma peek_bytes_at m a l : peek m a (length l) = l → bytes_at m a l.
Proof.
  revert a. induction l as [|c l IH]; intros a Hp; [by intros i d|].
  simpl in Hp. injection Hp as Hc Hp. apply bytes_at_cons. split; [done|by apply IH].
Qed.

Lemma bytes_at_peek m a l : bytes_at m a l → peek m a (length l) = l.
Proof.
  revert a. induction l as [|c l IH]; intros a Hp; [done|].
  apply bytes_at_cons in Hp as [Hc Hp]. simpl. by rewrite Hc, IH.
Qed.

#[export] Instance bytes_at_dec m a l : Decision (bytes_at m a l).
Proof.
  refine (cast_if (decide (peek m a (length l) = l))); [by apply peek_bytes_at|].
  by intros Hb%bytes_at_peek.
Defined.

(** The format "%s=%lu" with the string "x" and 42. *)
Definition sample_format_memory : memory := poke 8192 [37; 115; 61; 37; 108; 117; 0] (poke 12288 [120; 0] ∅).
Definition sample_pieces : list piece := [PStr 12288 [120]; PChar 61; PULong 42].

Lemma format_ok_witness :
  format_of sample_pieces = [37; 115; 61; 37; 108; 117] ∧ output_of sample_pieces = [120; 61; 52; 50] ∧
  ∃ m', str_buf_marshal_format_v 10 4096 0 64 8192 6 [12288; 42] sample_format_memory =
          Done (4, m') ∧ wrote 4096 [120; 61; 52; 50] sample_format_memory m'.
Proof.
  split; [reflexivity|]. split; [vm_compute; reflexivity|].
  refine (format_ok 10 4096 0 64 8192 sample_pieces sample_format_memory _ _ _ _ _ _).
  - apply peek_bytes_at. vm_compute. reflexivity.
  - apply Forall_cons_2; [|apply Forall_cons_2; [|apply Forall_cons_2; [|constructor]]].
    + split; [|simpl; lia]. split; [apply peek_bytes_at; vm_compute; reflexivity|].
      split; [apply Forall_singleton; unfold is_u8; lia|simpl; lia].
    + unfold piece_ok, CH_PERCENT, is_u8. lia.
    + unfold piece_ok, is_u64. lia.
  - simpl. lia.
  - simpl. lia.
  - lia.
  - vm_compute. reflexivity.
Defined.

Lemma uint_roundtrip_witness :
  is_u64 18446744073709551615 ∧
  ∃ n s', str_buf_marshal_uint 4096 0 64 18446744073709551615 (∅ : memory) = Done (n, s') ∧
    0 < n <= 20 ∧ str_to_uint 4096 0 (0 + n) s' = Done ((18446744073709551615, n), s').
Proof.
  assert (is_u64 18446744073709551615) as Hv by (unfold is_u64; lia).
  split; [exact Hv|]. apply (uint_roundtrip 4096 0 64 _ (∅ : memory) Hv); [lia|].
  vm_compute. reflexivity.
Defined.

(* ===================================================================== *)
(** ** Sizes with units, and bits *)

(** 1.5 MiB: the unit is not counted into the length, and the smaller units
    print the whole value again, so "MB" is overwritten and the reported
    length cuts the text to "11536". *)
Example uint_in_size_1536K :
  match str_buf_marshal_uint_in_size (λ i, 12288 + 2 * Z.of_nat i) 4096 0 128 (1536 * 1024)
    (poke 12288 [90; 66; 80; 66; 84; 66; 71; 66; 77; 66; 75; 66] ∅) with
  | Done (n, m) => n = 5 ∧ peek m 4096 7 = [49; 49; 53; 51; 54; 75; 66]
  | _ => False
  end.
Proof. vm_compute. done. Qed.

(** All bytes and bits at once, by computation. *)
Definition bits_agree (b bit j : Z) : bool :=
  match byte_bit_set b bit tt, byte_bit_clear b bit tt with
  | Done (x, _), Done (y, _) =>
      match byte_bit_get x j tt, byte_bit_get y j tt, byte_bit_get b j tt with
      | Done (gx, _), Done (gy, _), Done (g, _) =>
          (x <? 256) && (y <? 256) &&
          if bit =? j then gx && negb gy else Bool.eqb gx g && Bool.eqb gy g
      | _, _, _ => false
      end
  | _, _ => false
  end.

Lemma bits_agree_all :
  forallb (λ b, forallb (λ i, forallb (bits_agree b i) (seqZ 0 8)) (seqZ 0 8)) (seqZ 0 256) = true.
Proof. vm_compute. reflexivity. Qed.

Lemma bits_agree_true b i j : is_u8 b → 0 <= i < 8 → 0 <= j < 8 → bits_agree b i j = true.
Proof.
  intros Hb Hi Hj. apply (forallb_seqZ (bits_agree b i) 8); [|done].
  apply (forallb_seqZ (λ i, forallb (bits_agree b i) (seqZ 0 8)) 8); [|done].
  by apply (forallb_seqZ (λ b, forallb (λ i, forallb (bits_agree b i) (seqZ 0 8)) (seqZ 0 8)) 256); [apply bits_agree_all|].
Qed.

(** Setting and clearing a bit of a byte changes that bit and no other,
    for every byte and bit number. *)
Theorem byte_bits_ok (b bit j : Z) (Hb : is_u8 b) (Hbit : 0 <= bit < 8) (Hj : 0 <= j < 8) :
  ∃ x y g, byte_bit_set b bit () = Done (x, ()) ∧ byte_bit_clear b bit () = Done (y, ()) ∧
    byte_bit_get b j () = Done (g, ()) ∧
    byte_bit_get x j () = Done (if bit =? j then true else g, ()) ∧
    byte_bit_get y j () = Done (if bit =? j then false else g, ()).
Proof.
  pose proof (bits_agree_true b bit j Hb Hbit Hj) as Hc. unfold bits_agree in Hc.
  destruct (byte_bit_set b bit ()) as [[x []]| | | |]; try done.
  destruct (byte_bit_clear b bit ()) as [[y []]| | | |]; try done.
  destruct (byte_bit_get x j ()) as [[gx []]| | | |] eqn:Ex; try done.
  destruct (byte_bit_get y j ()) as [[gy []]| | | |] eqn:Ey; try done.
  destruct (byte_bit_get b j ()) as [[g []]| | | |]; try done.
  exists x, y, g. rewrite Ex, Ey. apply andb_true_iff in Hc as [_ Hc].
  destruct (bit =? j); apply andb_true_iff in Hc as [H1 H2].
  - apply negb_true_iff in H2. subst. done.
  - apply eqb_prop in H1, H2. subst. done.
Qed.

Lemma byte_bits_ok_witness :
  is_u8 0x80 ∧ ∃ x y g, byte_bit_set 0x80 7 () = Done (x, ()) ∧ byte_bit_clear 0x80 7 () = Done (y, ()) ∧
    byte_bit_get 0x80 7 () = Done (g, ()) ∧ byte_bit_get x 7 () = Done (true, ()) ∧
    byte_bit_get y 7 () = Done (false, ()).
Proof.
  assert (is_u8 0x80) as Hb by (unfold is_u8; lia). split; [exact Hb|].
  apply (byte_bits_ok 0x80 7 7 Hb); lia.
Defined.

(* ===================================================================== *)
(** ** Messages

    [kernel_panic(msg)] with a message that was composed in memory. *)

Definition string_of_bytes (l : list Z) : string :=
  String.string_of_list_ascii (map (λ c, Ascii.ascii_of_N (Z.to_N c)) l).

Definition bytes_of (s : string) : list Z :=
  map (λ c, Z.of_N (Ascii.N_of_ascii c)) (String.list_ascii_of_string s).

Definition c_string_bytes {S} `{HasMemory S} (fuel : nat) (p : Z) : M S (list Z) :=
  loop fuel (λ '(i, acc),
    c ← read 1 (p + i)%u64;
    mret (if c =? 0 then inr (reverse acc) else inl (i + 1, c :: acc))) (0, []).

Definition kernel_panic_at {S A} `{HasMemory S} (fuel : nat) (msg : Z) : M S A :=
  l ← c_string_bytes fuel msg;
  kernel_panic (string_of_bytes l).

Lemma wp_c_string_bytes {S} `{HasMemory S} fuel p l (s : S) (Q : list Z → S → Prop) :
  0 <= p → p + Z.of_nat (length l) < 18446744073709551616 → (length l < fuel)%nat →
  bytes_at (mem_of s) p (l ++ [0]) → Forall (λ c, c ≠ 0) l → Q l s → wp (c_string_bytes fuel p) Q s.
Proof.
  intros Hp Hend Hfuel Hb Hnz HQ. apply bytes_at_app in Hb as [Hb H0].
  apply bytes_at_cons in H0 as [H0 _].
  eapply (wp_loop (λ '(i, acc) s', s' = s ∧ ∃ k, i = Z.of_nat k ∧ (k <= length l)%nat ∧ acc = reverse (take k l))
    (λ '(i, acc), (length l - Z.to_nat i)%nat)).
  - split; [done|]. exists O. split; [done|]. split; [lia|done].
  - lia.
  - intros [i acc] s' (->&k&->&Hk&->). apply wp_bind, wp_read.
    unfold uadd. rewrite u64_small, load_1 by lia. apply wp_ret.
    destruct (decide (k < length l)%nat) as [Hlt|Hge].
    + destruct (lookup_lt_is_Some_2 l k Hlt) as [c Hc]. rewrite (Hb k c Hc).
      pose proof (Forall_lookup_1 _ _ _ _ Hnz Hc) as Hcz. rewrite (proj2 (Z.eqb_neq _ _) Hcz).
      split; [|lia]. split; [done|]. exists (Datatypes.S k). split; [lia|]. split; [lia|].
      by rewrite (take_S_r _ _ _ Hc), reverse_snoc.
    + assert (k = length l) as -> by lia. rewrite H0. simpl. rewrite reverse_involutive, take_ge by lia. done.
Qed.

(** A composed message is what the panic reports. *)
Lemma kernel_panic_at_run {S A B} `{HasMemory S} fuel p l (s s' : S) (m : M S B) (b : B) :
  m s = Done (b, s') → 0 <= p → p + Z.of_nat (length l) < 18446744073709551616 → (length l < fuel)%nat →
  bytes_at (mem_of s') p (l ++ [0]) → Forall (λ c, c ≠ 0) l →
  (m ≫= λ _, kernel_panic_at (A := A) fuel p) s = Panic (string_of_bytes l).
Proof.
  intros Hm Hp Hend Hfuel Hb Hnz. rewrite (bind_done _ _ _ _ _ Hm). unfold kernel_panic_at.
  assert (wp (c_string_bytes fuel p) (λ r t, r = l ∧ t = s') s') as Hw by (by eapply wp_c_string_bytes).
  apply wp_done in Hw as (r&t&Hr&->&->). by rewrite (bind_done _ _ _ _ _ Hr).
Qed.
