(* ===== verification/MmCore.v ===== *)
(** The base of the two memory managers: page sizes and the virtual address
    layout ([mm_private.h], [mem_private.h]), alignment and byte-block
    helpers ([mm.c], [mem.c]). *)
From stdpp Require Import sorting.
From S2P Require Import Prelude Memory Util.

(* ===================================================================== *)
(** ** Page sizes and the virtual address layout *)

Definition PAGE_SIZE_VALUE_LOG_4K : Z := 12.
Definition PAGE_SIZE_VALUE_4K : Z := 4096.
Definition PAGE_SIZE_4K : Z := PAGE_SIZE_VALUE_4K.
Definition PAGE_SIZE_2M : Z := 2 * 1024 * 1024.
Definition PAGE_SIZE_1G : Z := 1024 * 1024 * 1024.

Definition VA_48_LOW_START : Z := 0.
Definition VA_48_LOW_END : Z := 0x00007FFFFFFFFFFF.
Definition VA_48_HIGH_START : Z := 0xFFFF800000000000.
Definition VA_48_STACK_TOP_GUARD : Z := VA_48_HIGH_START.
Definition VA_48_STACK_TOP : Z := (VA_48_HIGH_START + PAGE_SIZE_VALUE_4K)%u64.
Definition VA_48_STACK_BOTTOM : Z := (VA_48_STACK_TOP + 253 * PAGE_SIZE_VALUE_4K)%u64.
Definition VA_48_STACK_BOTTOM_GUARD : Z := (VA_48_STACK_BOTTOM + PAGE_SIZE_VALUE_4K)%u64.
Definition VA_48_FRAME_BUFFER : Z := (VA_48_STACK_BOTTOM_GUARD + PAGE_SIZE_VALUE_4K)%u64.
Definition VA_48_PCIE_CFG_START : Z := (VA_48_HIGH_START + 4096 * PAGE_SIZE_VALUE_4K)%u64.
Definition VA_48_PCIE_CFG_END : Z := (VA_48_PCIE_CFG_START + 1024 * 1024 * PAGE_SIZE_VALUE_4K)%u64.
Definition VA_48_DIRECT_ACCESS_PAGE : Z := VA_48_PCIE_CFG_END.
Definition VA_48_HEAP : Z := (VA_48_DIRECT_ACCESS_PAGE + PAGE_SIZE_VALUE_4K)%u64.
Definition VA_48_HIGH_END : Z := 0xFFFFFFFFFFFFFFFF.
(** [mem_private.h] ends the frame buffer where the PCIe space starts. *)
Definition VA_48_FRAME_BUFFER_END : Z := (VA_48_HIGH_START + 4096 * PAGE_SIZE_VALUE_4K)%u64.

Definition mm_va_pcie_cfg_space : Z := VA_48_PCIE_CFG_START.
Definition mm_va_pcie_cfg_space_bound : Z := VA_48_PCIE_CFG_END.
Definition mm_va_stack_bottom : Z := VA_48_STACK_BOTTOM.
Definition mm_va_stack_top : Z := VA_48_STACK_TOP.

(* ===================================================================== *)
(** ** Alignment (mm.c) *)

Definition _math_is_pow2 (n : Z) : bool := ((n & (n - 1)) =? 0)%u64.

Definition mm_align_up {S} (p align : Z) : M S Z :=
  let a := (align - 1)%u64 in
  kernel_assert (0 <? align) ;;
  kernel_assert (_math_is_pow2 align) ;;
  mret ((p + a) & ~ a)%u64.

Definition mm_align_down {S} (p align : Z) : M S Z :=
  let a := (align - 1)%u64 in
  kernel_assert (0 <? align) ;;
  kernel_assert (_math_is_pow2 align) ;;
  mret (p & ~ a)%u64.

Definition mm_align_check (p align : Z) : bool := (p mod align =? 0)%u64.

(** [p % align] with the divide error of the CPU. *)
Definition urem {S} (p align : Z) : M S Z :=
  if align =? 0 then fault else mret (p mod align)%u64.

(** [align] doubles at most 64 times before it wraps to 0. *)
Definition mm_align_class {S} (p : Z) : M S Z :=
  align ← loop 66 (λ align,
    r ← urem p align;
    mret (if r =? 0 then inl (align * 2)%u64 else inr align)) 1;
  let align := (align / 2)%u64 in
  r ← urem p align;
  kernel_assert (r =? 0) ;;
  kernel_assert (1 <? align) ;;
  mret align.

(* ===================================================================== *)
(** ** The same helpers in mem.c *)

Definition mem_align_check (p align : Z) : bool := (p mod align =? 0)%u64.

Definition mem_align_up {S} (p align : Z) : M S Z :=
  let a := (align - 1)%u64 in
  kernel_assert (0 <? align) ;;
  kernel_assert (util_math_is_pow2 align) ;;
  mret ((p + a) & ~ a)%u64.

Definition mem_align_down {S} (p align : Z) : M S Z :=
  let a := (align - 1)%u64 in
  kernel_assert (0 <? align) ;;
  kernel_assert (util_math_is_pow2 align) ;;
  mret (p & ~ a)%u64.

(* ===================================================================== *)
(** ** Blocks of bytes (mm.c, mem.c) *)

Section blocks.
Context {S : Type} `{HasMemory S}.

Definition mm_copy (dest src copy_len : Z) : M S unit :=
  for_n (Z.to_nat copy_len) 0 (λ i,
    b ← read 1 (src + i)%u64;
    write 1 (dest + i)%u64 b).

Definition mm_clean (mem size : Z) : M S unit :=
  kernel_assert (0 <? size) ;;
  for_n (Z.to_nat size) 0 (λ i, write 1 (mem + i)%u64 0).

Definition mm_fill_bytes (mem size data : Z) : M S unit :=
  for_n (Z.to_nat size) 0 (λ i, write 1 (mem + i)%u64 data).

Definition mm_compare (mem1 mem2 len : Z) : M S Z :=
  kernel_assert (0 <? len) ;;
  loop (Datatypes.S (Z.to_nat len)) (λ '(i, cmp),
    if i <? len then
      x ← read 1 (mem1 + i)%u64;
      y ← read 1 (mem2 + i)%u64;
      let cmp := x - y in
      mret (if cmp =? 0 then inl (i + 1, cmp) else inr cmp)
    else mret (inr cmp)) (0, 0).

Definition mem_clean (mem size : Z) : M S unit :=
  kernel_assert (0 <? size) ;;
  for_n (Z.to_nat size) 0 (λ i, write 1 (mem + i)%u64 0).

End blocks.

(* ===================================================================== *)
(** ** The layout *)

Lemma VA_48_HEAP_val : VA_48_HEAP = 18446603340532944896.
Proof. reflexivity. Qed.

(** The kernel regions of the layout table are page aligned, pairwise
    disjoint and in the documented order in the high half, and the whole
    table fits below the end of the address space. *)
Theorem va_layout_ordered :
  Sorted (<) [VA_48_LOW_START; VA_48_LOW_END; VA_48_HIGH_START; VA_48_STACK_TOP; VA_48_STACK_BOTTOM;
    VA_48_STACK_BOTTOM_GUARD; VA_48_FRAME_BUFFER; VA_48_PCIE_CFG_START; VA_48_PCIE_CFG_END;
    VA_48_HEAP; VA_48_HIGH_END] ∧
  Forall (λ va, mm_align_check va PAGE_SIZE_4K = true)
    [VA_48_HIGH_START; VA_48_STACK_TOP; VA_48_STACK_BOTTOM; VA_48_STACK_BOTTOM_GUARD;
     VA_48_FRAME_BUFFER; VA_48_PCIE_CFG_START; VA_48_DIRECT_ACCESS_PAGE; VA_48_HEAP] ∧
  VA_48_FRAME_BUFFER_END = VA_48_PCIE_CFG_START.
Proof.
  split_and!.
  - repeat (apply Sorted_cons || apply Sorted_nil || apply HdRel_cons || apply HdRel_nil); done.
  - repeat constructor.
  - reflexivity.
Qed.

(* ===================================================================== *)
(** ** Alignment *)

Lemma align_check_iff p align : 0 < align → mm_align_check p align = true ↔ (align | p).
Proof.
  intros. unfold mm_align_check. u64_unfold. rewrite Z.eqb_eq. apply Z.mod_divide. lia.
Qed.

Lemma align_check_true p align : 0 < align → (align | p) → mm_align_check p align = true.
Proof. intros. by apply align_check_iff. Qed.

Lemma is_pow2_pow2 k : 0 <= k < 64 → _math_is_pow2 (2 ^ k) = true.
Proof.
  intros Hk. pose proof (pow2_lt_64 k Hk). apply (is_pow2_iff (2 ^ k)); [lia|]. by exists k.
Qed.

(** Masking with the complement of [2^k - 1] rounds down. *)
Lemma land_mask p k :
  0 <= k < 64 → is_u64 p → Z.land p (u64 (Z.lnot (2 ^ k - 1))) = p - p `mod` 2 ^ k.
Proof.
  unfold is_u64. intros Hk Hp.
  replace (2 ^ k - 1) with (Z.ones k) by (rewrite Z.ones_equiv; lia).
  assert (∀ x, u64 x = Z.land x (Z.ones 64)) as Hu by (intros; by rewrite Z.land_ones by lia).
  rewrite Hu, (Z.land_comm (Z.lnot _)), Z.land_assoc, Z.land_ones by lia.
  change (2 ^ 64) with 18446744073709551616.
  rewrite (Z.mod_small p) by lia.
  rewrite <-Z.ldiff_land, Z.ldiff_ones_r, Z.shiftl_mul_pow2, Z.shiftr_div_pow2 by lia.
  pose proof (Z.div_mod p (2 ^ k) ltac:(apply Z.pow_nonzero; lia)). lia.
Qed.

Lemma wp_align_down {S} p k (Q : Z → S → Prop) s :
  0 <= k < 64 → is_u64 p → Q (p - p `mod` 2 ^ k) s → wp (mm_align_down p (2 ^ k)) Q s.
Proof.
  intros Hk Hp HQ. pose proof (pow2_lt_64 k Hk). unfold mm_align_down.
  wp_step. wp_step; [bsimp; lia|]. wp_step. wp_step; [by apply is_pow2_pow2|].
  wp_step. u64_unfold. rewrite (u64_small (2 ^ k - 1)) by lia. by rewrite land_mask.
Qed.

Lemma wp_align_up {S} p k (Q : Z → S → Prop) s :
  0 <= k < 64 → is_u64 p →
  Q (u64 (p + (2 ^ k - 1)) - u64 (p + (2 ^ k - 1)) `mod` 2 ^ k) s → wp (mm_align_up p (2 ^ k)) Q s.
Proof.
  intros Hk Hp HQ. pose proof (pow2_lt_64 k Hk). unfold mm_align_up.
  wp_step. wp_step; [bsimp; lia|]. wp_step. wp_step; [by apply is_pow2_pow2|].
  wp_step. u64_unfold. rewrite (u64_small (2 ^ k - 1)) by lia.
  rewrite land_mask; [done|lia|apply u64_range].
Qed.

Lemma round_down_divide p d : 0 < d → (d | p - p `mod` d).
Proof. intros. exists (p / d). pose proof (Z.div_mod p d). lia. Qed.

(** On a power of two, [mm_align_up] returns the smallest aligned address
    that is not below [p]; above the last aligned address the sum wraps and
    it returns 0. *)
Theorem align_up_ok {S} (p k : Z) (s : S) (Hk : 0 <= k < 64) (Hp : is_u64 p) :
  ∃ r, mm_align_up p (2 ^ k) s = Done (r, s) ∧ (2 ^ k | r) ∧
    (if p <=? 18446744073709551616 - 2 ^ k
     then p <= r ∧ ∀ q, (2 ^ k | q) → p <= q → r <= q
     else r = 0).
Proof.
  pose proof (pow2_lt_64 k Hk). unfold is_u64 in Hp.
  set (t := u64 (p + (2 ^ k - 1))). exists (t - t `mod` 2 ^ k).
  assert (2 ^ k | t - t `mod` 2 ^ k) by (apply round_down_divide; lia).
  pose proof (Z.mod_pos_bound t (2 ^ k) ltac:(lia)) as Hm.
  split_and!; [|done|].
  { cut (wp (mm_align_up p (2 ^ k)) (λ r s', r = t - t `mod` 2 ^ k ∧ s' = s) s).
    { intros (r & s' & -> & -> & ->)%wp_done. done. }
    by apply wp_align_up. }
  destruct (p <=? 18446744073709551616 - 2 ^ k) eqn:Hle; bsimp.
  - assert (t = p + (2 ^ k - 1)) as Ht by (apply u64_small; lia).
    split; [lia|]. intros q Hq Hpq.
    destruct (decide (q < t - t `mod` 2 ^ k)) as [Hlt|]; [|lia].
    assert (q = t - t `mod` 2 ^ k); [|lia].
    apply (divide_close (2 ^ k)); try done; lia.
  - assert (t = p + (2 ^ k - 1) - 18446744073709551616) as Ht.
    { unfold t, u64. symmetry. apply Z.mod_unique with 1; lia. }
    rewrite Z.mod_small by lia. lia.
Qed.

Lemma align_up_ok_witness :
  (0 <= 12 < 64) ∧ is_u64 4097 ∧ ∃ r, mm_align_up 4097 (2 ^ 12) () = Done (r, ()) ∧ (2 ^ 12 | r) ∧
    (if 4097 <=? 18446744073709551616 - 2 ^ 12
     then 4097 <= r ∧ ∀ q, (2 ^ 12 | q) → 4097 <= q → r <= q else r = 0).
Proof.
  split; [lia|]. split; [unfold is_u64; lia|].
  apply (align_up_ok (S := unit)); [lia|unfold is_u64; lia].
Defined.

Lemma align_up_not_pow2 {S} p align (s : S) :
  0 < align < 18446744073709551616 → (∀ k, 0 <= k < 64 → align ≠ 2 ^ k) →
  mm_align_up p align s = Assert ∧ mm_align_down p align s = Assert.
Proof.
  intros Ha Hk.
  assert (_math_is_pow2 align = false) as Hf.
  { apply not_true_is_false. intros (k & ? & ->)%is_pow2_iff; [|lia]. by eapply Hk. }
  unfold mm_align_up, mm_align_down, kernel_assert, mbind, M_bind.
  rewrite (proj2 (Z.ltb_lt 0 align)) by lia. rewrite Hf. done.
Qed.

(* ===================================================================== *)
(** ** The alignment class of an address *)

Lemma wp_urem {S} p d (Q : Z → S → Prop) s : d ≠ 0 → Q (p `mod` d) s → wp (urem p d) Q s.
Proof. intros Hd HQ. unfold urem. destruct (d =? 0) eqn:H; bsimp; [done|]. by apply wp_ret. Qed.

Lemma pow2_divide_bound k p : 0 <= k → 0 < p < 9223372036854775808 → (2 ^ k | p) → k < 63.
Proof.
  intros Hk Hp Hd. apply Z.divide_pos_le in Hd; [|lia].
  destruct (decide (k < 63)); [done|].
  pose proof (Z.pow_le_mono_r 2 63 k). change (2 ^ 63) with 9223372036854775808 in *. lia.
Qed.

(** The doubling loop stops at the first power of two that does not divide. *)
Lemma align_class_loop_ok {S} p (s : S) :
  0 < p < 9223372036854775808 →
  wp (loop 66 (λ align,
        r ← urem p align;
        mret (if r =? 0 then inl (align * 2)%u64 else inr align)) 1)
     (λ align s', s' = s ∧ ∃ k, 0 <= k < 64 ∧ align = 2 ^ k ∧ ¬ (2 ^ k | p) ∧
        (0 < k → (2 ^ (k - 1) | p))) s.
Proof.
  intros Hp.
  apply (wp_loop (λ align s', s' = s ∧ ∃ k, 0 <= k < 64 ∧ align = 2 ^ k ∧ (0 < k → (2 ^ (k - 1) | p)))
    (λ align, Z.to_nat (65 - Z.log2 align))); [|change (Z.log2 1) with 0; lia|].
  { split; [done|]. exists 0. split_and!; [lia..|]. lia. }
  intros align s' (-> & k & Hk & -> & Hlow).
  pose proof (pow2_lt_64 k Hk). wp_step. apply wp_urem; [lia|]. wp_step.
  destruct (p `mod` 2 ^ k =? 0) eqn:Hz; bsimp.
  - apply Z.mod_divide in Hz; [|lia]. pose proof (pow2_divide_bound k p ltac:(lia) Hp Hz).
    assert (2 ^ k * 2 = 2 ^ (k + 1)) as Hd by (rewrite Z.pow_add_r; lia).
    pose proof (pow2_lt_64 (k + 1)). u64_unfold. rewrite Hd, u64_small by lia.
    rewrite !Z.log2_pow2 by lia.
    split; [|lia]. split; [done|]. exists (k + 1). split_and!; [lia..|done|].
    intros _. by replace (k + 1 - 1) with k by lia.
  - split; [done|]. exists k. split_and!; [lia..|done| |done]. intros Hd. apply Hz.
    by apply Z.mod_divide; [lia|].
Qed.

(** On an even address below 2^63, [mm_align_class] returns the largest
    power of two that divides it; on an odd one its assertion fails, and at 0
    the doubled alignment wraps to 0 and the CPU divides by zero. *)
Theorem align_class_ok {S} (p : Z) (s : S) (Hp : 0 <= p < 9223372036854775808) :
  if p =? 0 then mm_align_class p s = Fault
  else if Z.odd p then mm_align_class p s = Assert
  else ∃ k, mm_align_class p s = Done (2 ^ k, s) ∧ 0 < k < 63 ∧ (2 ^ k | p) ∧ ¬ (2 ^ (k + 1) | p).
Proof.
  destruct (p =? 0) eqn:H0; bsimp; [by subst p|].
  assert (0 < p < 9223372036854775808) as Hp' by lia.
  pose proof (align_class_loop_ok p s Hp') as (align & s' & Hloop & -> & k & Hk & -> & Hno & Hyes)%wp_done.
  unfold mm_align_class. rewrite (bind_done _ _ _ _ _ Hloop).
  destruct (decide (k = 0)) as [->|Hk0]; [by destruct Hno; exists p; lia|].
  specialize (Hyes ltac:(lia)). pose proof (pow2_divide_bound (k - 1) p ltac:(lia) Hp' Hyes).
  assert (2 ^ k = 2 * 2 ^ (k - 1)) as Hpk by (rewrite <-Z.pow_succ_r by lia; f_equal; lia).
  pose proof (pow2_lt_64 (k - 1)). u64_unfold.
  assert (2 ^ k / 2 = 2 ^ (k - 1)) as -> by (rewrite Hpk; zlia).
  rewrite (bind_done _ _ s (p `mod` 2 ^ (k - 1)) s)
    by (unfold urem; rewrite (proj2 (Z.eqb_neq _ 0)) by lia; done).
  rewrite (proj2 (Z.mod_divide p (2 ^ (k - 1)) ltac:(lia)) Hyes). cbn [kernel_assert].
  destruct (decide (k = 1)) as [->|Hk1].
  - assert (Z.odd p = true) as ->; [|done].
    apply not_false_is_true. intros Hodd. apply Hno. rewrite Z.pow_1_r.
    apply Z.mod_divide; [lia|]. rewrite Zmod_odd, Hodd. done.
  - assert (2 <= 2 ^ (k - 1)).
    { pose proof (Z.pow_le_mono_r 2 1 (k - 1)). lia. }
    assert (Z.odd p = false) as ->.
    { apply not_true_is_false. intros Hodd.
      assert ((2 | p)) as [q ->].
      { eapply Z.divide_trans; [|exact Hyes]. replace 2 with (2 ^ 1) at 1 by done.
        apply pow2_divide. lia. }
      rewrite Z.odd_mul in Hodd. by rewrite andb_false_r in Hodd. }
    exists (k - 1). split_and!; [|lia..|done|].
    + unfold mbind, M_bind, kernel_assert. cbn. rewrite (proj2 (Z.ltb_lt 1 _)) by lia. done.
    + by replace (k - 1 + 1) with k by lia.
Qed.

Lemma align_class_ok_witness :
  0 <= 12288 < 9223372036854775808 ∧
  ∃ k, mm_align_class 12288 () = Done (2 ^ k, ()) ∧ 0 < k < 63 ∧ (2 ^ k | 12288) ∧ ¬ (2 ^ (k + 1) | 12288).
Proof. split; [lia|]. apply (align_class_ok (S := unit) 12288 ()). lia. Defined.

(* ===================================================================== *)
(** ** Blocks of bytes *)

Section block_lemmas.
Context {S : Type} `{HasMemory S}.


Lemma fill_snoc n a v m : fill (Datatypes.S n) a v m = store8 (a + Z.of_nat n) v (fill n a v m).
Proof.
  revert a m. induction n as [|n IH]; intros a m.
  - unfold fill. by rewrite Z.add_0_r.
  - change (fill (Datatypes.S (Datatypes.S n)) a v m) with (fill (Datatypes.S n) (a + 1) v (store8 a v m)).
    rewrite IH. change (fill (Datatypes.S n) a v m) with (fill n (a + 1) v (store8 a v m)).
    f_equal. lia.
Qed.

Lemma wp_fill_loop mem v n (Q : unit → S → Prop) s :
  0 <= mem → mem + Z.of_nat n <= 18446744073709551616 →
  Q () (set_mem (fill n mem v (mem_of s)) s) →
  wp (for_n n 0 (λ i, write 1 (mem + i)%u64 v)) Q s.
Proof.
  intros Hm Hn HQ.
  apply (wp_for_n (λ i s', s' = set_mem (fill (Z.to_nat i) mem v (mem_of s)) s)).
  - change (Z.to_nat 0) with O. unfold fill. by rewrite set_mem_id.
  - intros i s' Hi ->. apply wp_write. u64_unfold. rewrite u64_small by lia.
    rewrite mem_of_set, set_mem_set. f_equal.
    replace (Z.to_nat (i + 1)) with (Datatypes.S (Z.to_nat i)) by lia.
    rewrite fill_snoc. by rewrite Z2Nat.id by lia.
  - intros s' ->. by rewrite Z.add_0_l, Nat2Z.id.
Qed.

Lemma wp_mm_clean mem size (Q : unit → S → Prop) s :
  0 <= mem → 0 < size → mem + size <= 18446744073709551616 →
  Q () (set_mem (fill (Z.to_nat size) mem 0 (mem_of s)) s) → wp (mm_clean mem size) Q s.
Proof.
  intros ??? HQ. unfold mm_clean. wp_step. wp_step; [bsimp; lia|].
  apply wp_fill_loop; [lia|lia|done].
Qed.

Lemma wp_mem_clean mem size (Q : unit → S → Prop) s :
  0 <= mem → 0 < size → mem + size <= 18446744073709551616 →
  Q () (set_mem (fill (Z.to_nat size) mem 0 (mem_of s)) s) → wp (mem_clean mem size) Q s.
Proof. apply wp_mm_clean. Qed.

Lemma wp_mm_copy dest src len s (Q : unit → S → Prop) :
  0 <= dest ∧ dest + len <= 18446744073709551616 → 0 <= src ∧ src + len <= 18446744073709551616 → 0 <= len →
  dest <= src ∨ src + len <= dest →
  (∀ m, (∀ b, load8 m b =
      if decide (dest <= b < dest + len) then load8 (mem_of s) (src + (b - dest)) else load8 (mem_of s) b) →
    Q () (set_mem m s)) →
  wp (mm_copy dest src len) Q s.
Proof.
  intros Hd Hs Hl Hov HQ.
  set (I i (s' : S) := ∃ m, s' = set_mem m s ∧ ∀ b, load8 m b =
      if decide (dest <= b < dest + i) then load8 (mem_of s) (src + (b - dest))
      else load8 (mem_of s) b).
  unfold mm_copy. apply (wp_for_n I).
  - exists (mem_of s). split; [by rewrite set_mem_id|]. intros b. by rewrite decide_False by lia.
  - intros i s' Hi (m & -> & Hm). wp_step. apply wp_read, wp_write.
    u64_unfold. rewrite !u64_small, load_1, !mem_of_set, set_mem_set by lia.
    eexists. split; [done|]. intros b. rewrite store_1.
    destruct (decide (b = dest + i)) as [->|Hne].
    + rewrite load8_store8_eq, u8_small by apply load8_range.
      rewrite decide_True by lia. rewrite Hm. rewrite decide_False by lia.
      f_equal. lia.
    + rewrite load8_store8_ne by done. rewrite Hm.
      destruct (decide (dest <= b < dest + i)); [by rewrite decide_True by lia|].
      by rewrite decide_False by lia.
  - intros s' (m & -> & Hm). apply HQ. by rewrite Z.add_0_l, Z2Nat.id in Hm by lia.
Qed.

(** Whatever overlaps, [mm_copy] returns and writes the destination only. *)
Lemma wp_mm_copy_within dest src len s (Q : unit → S → Prop) :
  0 <= dest ∧ dest + len <= 18446744073709551616 → 0 <= len →
  (∀ m, (∀ b, ¬ (dest <= b < dest + len) → load8 m b = load8 (mem_of s) b) → Q () (set_mem m s)) →
  wp (mm_copy dest src len) Q s.
Proof.
  intros Hd Hl HQ. unfold mm_copy.
  apply (wp_for_n (λ i s', ∃ m, s' = set_mem m s ∧
    ∀ b, ¬ (dest <= b < dest + len) → load8 m b = load8 (mem_of s) b)).
  - exists (mem_of s). by rewrite set_mem_id.
  - intros i s' Hi (m & -> & Hm). wp_step. apply wp_read, wp_write.
    unfold uadd at 1. rewrite (u64_small (dest + i)), set_mem_set, store_1 by lia.
    eexists. split; [done|]. intros b Hb. rewrite mem_of_set, load8_store8_ne by lia. by apply Hm.
  - intros s' (m & -> & Hm). by apply HQ.
Qed.

(** [mm_copy] moves a block byte for byte and touches nothing else, also
    when the destination overlaps the source from below. *)
Theorem mm_copy_ok (dest src len : Z) (s : S)
    (Hd : 0 <= dest /\ dest + len <= 18446744073709551616)
    (Hs : 0 <= src /\ src + len <= 18446744073709551616) (Hl : 0 <= len)
    (Hov : dest <= src \/ src + len <= dest) :
  ∃ m, mm_copy dest src len s = Done ((), set_mem m s) ∧
    ∀ b, load8 m b =
      if decide (dest <= b < dest + len) then load8 (mem_of s) (src + (b - dest))
      else load8 (mem_of s) b.
Proof.
  cut (wp (mm_copy dest src len) (λ _ s', ∃ m, s' = set_mem m s ∧ ∀ b, load8 m b =
      if decide (dest <= b < dest + len) then load8 (mem_of s) (src + (b - dest)) else load8 (mem_of s) b) s).
  { intros ([] & s' & Hr & m & -> & Hm)%wp_done. eauto. }
  apply wp_mm_copy; eauto.
Qed.

(** Two blocks agree on their first [n] bytes. *)
Definition same_bytes (m : memory) (a b n : Z) : Prop := ∀ i, 0 <= i < n → load8 m (a + i) = load8 m (b + i).

Lemma wp_mm_compare mem1 mem2 len s (Q : Z → S → Prop) : 0 < len →
  0 <= mem1 ∧ mem1 + len <= 18446744073709551616 → 0 <= mem2 ∧ mem2 + len <= 18446744073709551616 →
  (same_bytes (mem_of s) mem1 mem2 len → Q 0 s) →
  (∀ i, 0 <= i < len → same_bytes (mem_of s) mem1 mem2 i →
    load8 (mem_of s) (mem1 + i) ≠ load8 (mem_of s) (mem2 + i) →
    Q (load8 (mem_of s) (mem1 + i) - load8 (mem_of s) (mem2 + i)) s) →
  wp (mm_compare mem1 mem2 len) Q s.
Proof.
  intros Hl H1 H2 Hsame Hdiff.
  unfold mm_compare. wp_step. wp_step; [bsimp; lia|].
  apply (wp_loop (λ '(i, cmp) s', s' = s ∧ 0 <= i <= len ∧ same_bytes (mem_of s) mem1 mem2 i ∧ cmp = 0)
    (λ '(i, cmp), Z.to_nat (len - i))).
  - split_and!; [done|lia|lia| |done]. intros j Hj. lia.
  - lia.
  - intros [i cmp] s' (-> & Hi & Heq & ->).
    destruct (i <? len) eqn:Hlt; bsimp.
    + do 2 (wp_step; apply wp_read). wp_step. cbv zeta.
      u64_unfold. rewrite !u64_small, !load_1 by lia.
      destruct (load8 (mem_of s) (mem1 + i) - load8 (mem_of s) (mem2 + i) =? 0) eqn:Hz; bsimp.
      * split; [|lia]. split_and!; [done|lia|lia| |lia].
        intros j Hj. destruct (decide (j = i)) as [->|]; [lia|]. apply Heq. lia.
      * apply Hdiff; [lia|done|lia].
    + apply wp_ret, Hsame. by replace len with i by lia.
Qed.

(** [mm_compare] returns 0 exactly on equal blocks, and otherwise the
    difference of the first bytes that differ. *)
Theorem mm_compare_ok (mem1 mem2 len : Z) (s : S) (Hl : 0 < len)
    (H1 : 0 <= mem1 /\ mem1 + len <= 18446744073709551616)
    (H2 : 0 <= mem2 /\ mem2 + len <= 18446744073709551616) :
  ∃ r, mm_compare mem1 mem2 len s = Done (r, s) ∧
    ((r = 0 ∧ ∀ i, 0 <= i < len → load8 (mem_of s) (mem1 + i) = load8 (mem_of s) (mem2 + i)) ∨
     (r ≠ 0 ∧ ∃ i, 0 <= i < len ∧
       (∀ j, 0 <= j < i → load8 (mem_of s) (mem1 + j) = load8 (mem_of s) (mem2 + j)) ∧
       r = load8 (mem_of s) (mem1 + i) - load8 (mem_of s) (mem2 + i))).
Proof.
  cut (wp (mm_compare mem1 mem2 len) (λ r s', s' = s ∧
    ((r = 0 ∧ same_bytes (mem_of s) mem1 mem2 len) ∨ (r ≠ 0 ∧ ∃ i, 0 <= i < len ∧ same_bytes (mem_of s) mem1 mem2 i ∧
      r = load8 (mem_of s) (mem1 + i) - load8 (mem_of s) (mem2 + i)))) s).
  { intros (r & s' & Hr & -> & Hpost)%wp_done. exists r. split; [done|]. exact Hpost. }
  apply wp_mm_compare; [done|done|done| |].
  - intros Hs. split; [done|]. by left.
  - intros i Hi Hs Hne. split; [done|]. right. split; [lia|]. by exists i.
Qed.

End block_lemmas.

Lemma mm_copy_ok_witness :
  let m := store64 100 0xAABBCCDD ∅ in
  (0 <= 200 /\ 200 + 8 <= 18446744073709551616) ∧
  ∃ m', mm_copy 200 100 8 m = Done ((), m') ∧
    ∀ b, load8 m' b = if decide (200 <= b < 200 + 8) then load8 m (100 + (b - 200)) else load8 m b.
Proof.
  intros m. split; [lia|].
  destruct (mm_copy_ok (S := memory) 200 100 8 m ltac:(lia) ltac:(lia) ltac:(lia) ltac:(right; lia)) as (m' & Hr & Hm).
  exists m'. split; [exact Hr|exact Hm].
Defined.

Lemma mm_compare_ok_witness :
  let m := store8 22 7 ∅ : memory in
  0 < 4 ∧ ∃ r, mm_compare 10 20 4 m = Done (r, m) ∧
    ((r = 0 ∧ ∀ i, 0 <= i < 4 → load8 m (10 + i) = load8 m (20 + i)) ∨
     (r ≠ 0 ∧ ∃ i, 0 <= i < 4 ∧ (∀ j, 0 <= j < i → load8 m (10 + j) = load8 m (20 + j)) ∧
       r = load8 m (10 + i) - load8 m (20 + i))).
Proof.
  intros m. split; [lia|].
  exact (mm_compare_ok (S := memory) 10 20 4 m ltac:(lia) ltac:(lia) ltac:(lia)).
Defined.
