(* ===== verification/Multiboot.v ===== *)
(** The boot information, src/kernel/kernel_main.c: the copy of the
    Multiboot 2 tag list and the table of its tags.

    Theorems: parsing is inverse to the tag format, and it ends on every
    input, however malformed. *)
From S2P Require Import Prelude Memory Strings Util MmCore.

Definition _MULTI_BOOT_TAG_TYPE_MMAP : Z := 6.
Definition _MULTI_BOOT_TAG_TYPE_VBE : Z := 7.
Definition _MULTI_BOOT_TAG_TYPE_FRAME_BUFFER : Z := 8.
Definition _MULTI_BOOT_TAG_TYPE_ELF_SYMBOLS : Z := 9.
Definition _MULTI_BOOT_TAG_TYPE_ACPI_OLD : Z := 14.
Definition _MULTI_BOOT_TAG_TYPE_ACPI_NEW : Z := 15.
Definition MULTI_BOOT_INFO_SLOT_COUNT : Z := 128.
Definition MULTI_BOOT_INFO_CAP : Z := 1024 * 1024.

(** Where [_boot_info.info], the message buffer and the message are. *)
Class BootLink := {
  boot_info_info : Z;
  boot_msg : Z;
  text_tag : Z;      (* "Invalid multiboot info tag type: " *)
}.

(** The rest of [_boot_info]: null pointers are 0. *)
Record multi_boot_info_t := BootInfo {
  total_size : Z;
  ptrs : list Z;
  lens : list Z;
}.

Definition set_total (n : Z) (b : multi_boot_info_t) : multi_boot_info_t := BootInfo n (ptrs b) (lens b).
Definition set_ptrs (l : list Z) (b : multi_boot_info_t) : multi_boot_info_t := BootInfo (total_size b) l (lens b).
Definition set_lens (l : list Z) (b : multi_boot_info_t) : multi_boot_info_t := BootInfo (total_size b) (ptrs b) l.

Abbreviation BM := (M (world multi_boot_info_t)).

Section multiboot.
Context `{BootLink}.

Definition _MSG_LEN : Z := 128.

(** The default branch of the switch. *)
Definition invalid_tag {A} (type : Z) : BM A :=
  len ← str_len 128 text_tag;
  n ← str_buf_marshal_str boot_msg 0 _MSG_LEN text_tag len;
  let msg_ptr := (0 + n)%u64 in
  n ← str_buf_marshal_uint boot_msg msg_ptr _MSG_LEN type;
  let msg_ptr := (msg_ptr + n)%u64 in
  write 1 (boot_msg + msg_ptr)%u64 0 ;;
  kernel_panic_at 128 boot_msg.

(** The other cases of the switch, which only break. *)
Definition known_tags : list Z :=
  [1; 2; 4; 5; _MULTI_BOOT_TAG_TYPE_MMAP; _MULTI_BOOT_TAG_TYPE_VBE; _MULTI_BOOT_TAG_TYPE_FRAME_BUFFER;
   _MULTI_BOOT_TAG_TYPE_ELF_SYMBOLS; 10; _MULTI_BOOT_TAG_TYPE_ACPI_OLD; _MULTI_BOOT_TAG_TYPE_ACPI_NEW].

Definition _multi_boot_info_save_tag (ptr type size : Z) : BM Z :=
  (if decide (type ∈ known_tags) then mret () else invalid_tag type) ;;
  kernel_assert (type <? MULTI_BOOT_INFO_SLOT_COUNT) ;;
  ps ← static ptrs;
  p ← array_get ps type;
  kernel_assert (p =? NULL) ;;
  ls ← static lens;
  l ← array_get ls type;
  kernel_assert (l =? 0) ;;
  ls ← array_set ls type (u32 (size - 8));
  static_set (set_lens ls) ;;
  ps ← array_set ps type ptr;
  static_set (set_ptrs ps) ;;
  mret (ptr + size - 8)%u64.

(** Returns the pointer, the type and the size. *)
Definition _multi_boot_info_process_tag_header (ptr : Z) : BM (Z * Z * Z) :=
  kernel_assert (ptr mod 8 =? 0)%u64 ;;
  type ← read 4 ptr;
  let ptr := (ptr + 4)%u64 in
  size ← read 4 ptr;
  let ptr := (ptr + 4)%u64 in
  mret (ptr, type, size).

Definition clear_slots : BM unit :=
  for_n (Z.to_nat MULTI_BOOT_INFO_SLOT_COUNT) 0 (λ i,
    ps ← static ptrs;
    ps ← array_set ps i NULL;
    static_set (set_ptrs ps) ;;
    ls ← static lens;
    ls ← array_set ls i 0;
    static_set (set_lens ls)).

(** Each round but the last fills the slot of a tag of its own. *)
Definition tag_fuel : nat := 12.

(** The body of the loop. *)
Definition tag_round (ptr : Z) : BM (Z + Z) :=
  total ← static total_size;
  if (ptr - boot_info_info <? total)%u64 then
    '(ptr, type, size) ← _multi_boot_info_process_tag_header ptr;
    if type =? 0 then mret (inr ptr)
    else
      ptr ← _multi_boot_info_save_tag ptr type size;
      ptr ← mm_align_up ptr 8;
      mret (inl ptr)
  else mret (inr ptr).

Definition _multi_boot_info_save (boot : Z) : BM unit :=
  total ← read 4 boot;
  static_set (set_total total) ;;
  reserved ← read 4 (boot + 4)%u64;
  kernel_assert (total <? MULTI_BOOT_INFO_CAP) ;;
  kernel_assert (reserved =? 0) ;;
  mm_copy boot_info_info boot total ;;
  clear_slots ;;
  ptr ← loop tag_fuel tag_round (boot_info_info + 8)%u64;
  kernel_assert (ptr - boot_info_info =? total)%u64.

End multiboot.

(* ===================================================================== *)
(** ** The tag format *)

Record tag := Tag {
  t_type : Z;
  t_data : list Z;
}.

(** The [n] little-endian bytes of a number. *)
Fixpoint le (n : nat) (v : Z) : list Z :=
  match n with
  | O => []
  | Datatypes.S n => v `mod` 256 :: le n (v `div` 256)
  end.

(** Tags are padded to a multiple of 8 bytes. *)
Definition padding (n : Z) : Z := (- n) `mod` 8.

Definition encode_tag (t : tag) : list Z :=
  le 4 (t_type t) ++ le 4 (8 + Z.of_nat (length (t_data t))) ++ t_data t ++
  replicate (Z.to_nat (padding (Z.of_nat (length (t_data t))))) 0.

Definition encode_tags (ts : list tag) : list Z := (ts ≫= encode_tag) ++ le 4 0 ++ le 4 8.

Definition encode (ts : list tag) : list Z :=
  le 4 (8 + Z.of_nat (length (encode_tags ts))) ++ le 4 0 ++ encode_tags ts.

Lemma le_length n v : length (le n v) = n.
Proof. revert v. induction n as [|n IH]; intros v; [done|]. simpl. by rewrite IH. Qed.

Lemma load_le n m a v : 0 <= v < 256 ^ Z.of_nat n → bytes_at m a (le n v) → load n m a = v.
Proof.
  revert a v. induction n as [|n IH]; intros a v Hv Hb; [simpl in Hv; unfold load; lia|].
  apply bytes_at_cons in Hb as [H1 H2]. rewrite pow256_succ in Hv.
  change (load (Datatypes.S n) m a) with (load8 m a + 256 * load n m (a + 1)).
  rewrite H1, (IH (a + 1) (v `div` 256)); [zlia|zlia|done].
Qed.

Lemma encode_tag_length t :
  Z.of_nat (length (encode_tag t)) = 8 + Z.of_nat (length (t_data t)) + padding (Z.of_nat (length (t_data t))).
Proof.
  unfold encode_tag. rewrite !length_app, !le_length, length_replicate.
  assert (0 <= padding (Z.of_nat (length (t_data t))) < 8) by (by apply Z.mod_pos_bound). lia.
Qed.

Lemma known_tag_range type : type ∈ known_tags → 0 < type < 128.
Proof.
  intros Ht. assert (Forall (λ x, 0 < x < 128) known_tags) as Hall by (repeat constructor; done).
  rewrite list.Forall_forall in Hall. by apply Hall.
Qed.

(** The address after the next multiple of 8. *)
Lemma wp_align_8 {S} p n (s : S) (Q : Z → S → Prop) : (8 | p) → 0 <= p → 0 <= n →
  p + n + 8 <= 18446744073709551616 → Q (p + n + padding n) s → wp (mm_align_up (p + n)%Z 8) Q s.
Proof.
  intros [q ->] Hp Hn Hend HQ. apply (wp_align_up _ 3); [lia|unfold is_u64; lia|].
  change (2 ^ 3) with 8. rewrite u64_small by lia. unfold padding in HQ.
  replace (q * 8 + n + (8 - 1) - (q * 8 + n + (8 - 1)) `mod` 8) with (q * 8 + n + (- n) `mod` 8); [done|zlia].
Qed.

Section proofs.
Context `{BootLink}.

(** The slot of a tag type. *)
Definition slot (b : multi_boot_info_t) (type p n : Z) : Prop :=
  ptrs b !! Z.to_nat type = Some p ∧ lens b !! Z.to_nat type = Some n.
Definition set_slot (type p n : Z) (b : multi_boot_info_t) : multi_boot_info_t :=
  BootInfo (total_size b) (<[Z.to_nat type := p]> (ptrs b)) (<[Z.to_nat type := n]> (lens b)).
Definition slots_sized (b : multi_boot_info_t) : Prop :=
  length (ptrs b) = 128%nat ∧ length (lens b) = 128%nat.

Lemma set_slot_sized type p n b : slots_sized b → slots_sized (set_slot type p n b).
Proof. intros [H1 H2]. split; cbn; by rewrite length_insert. Qed.

Lemma set_slot_same type p n b : slots_sized b → 0 <= type < 128 → slot (set_slot type p n b) type p n.
Proof. intros [H1 H2] Ht. split; cbn; apply list_lookup_insert_eq; lia. Qed.

Lemma set_slot_other type type' p n b q k : 0 <= type → 0 <= type' → type ≠ type' →
  slot (set_slot type p n b) type' q k ↔ slot b type' q k.
Proof. intros Ht Ht' Hne. unfold slot; cbn. by rewrite !list_lookup_insert_ne by lia. Qed.

Lemma wp_save_tag ptr type size w (Q : Z → world multi_boot_info_t → Prop) :
  type ∈ known_tags → slots_sized (w_st w) → slot (w_st w) type NULL 0 →
  Q (ptr + size - 8)%u64 (World (w_mem w) (set_slot type ptr (u32 (size - 8)) (w_st w))) →
  wp (_multi_boot_info_save_tag ptr type size) Q w.
Proof.
  intros Hk [Hs1 Hs2] [Hp Hl] HQ. pose proof (known_tag_range _ Hk) as Hr. unfold _multi_boot_info_save_tag.
  rewrite decide_True by done. apply wp_bind, wp_ret. apply wp_bind, wp_assert; [unfold MULTI_BOOT_INFO_SLOT_COUNT; bsimp; lia|].
  apply wp_bind, wp_static. apply wp_bind. eapply wp_array_get; [lia|exact Hp|]. apply wp_bind, wp_assert; [done|].
  apply wp_bind, wp_static. apply wp_bind. eapply wp_array_get; [lia|exact Hl|]. apply wp_bind, wp_assert; [done|].
  apply wp_bind, wp_array_set; [lia|]. apply wp_bind, wp_static_set.
  apply wp_bind, wp_array_set; [lia|]. apply wp_bind, wp_static_set. by apply wp_ret.
Qed.

Lemma wp_tag_header ptr w (Q : Z * Z * Z → world multi_boot_info_t → Prop) :
  (8 | ptr) → 0 <= ptr → ptr + 8 < 18446744073709551616 →
  Q (ptr + 8, load 4 (w_mem w) ptr, load 4 (w_mem w) (ptr + 4)) w →
  wp (_multi_boot_info_process_tag_header ptr) Q w.
Proof.
  intros Hd H0' H1' HQ. unfold _multi_boot_info_process_tag_header.
  apply wp_bind, wp_assert; [by apply (align_check_true ptr 8)|].
  mem_steps. u64_unfold. rewrite (u64_small (ptr + 4)), (u64_small (ptr + 4 + 4)) by lia.
  by replace (ptr + 4 + 4) with (ptr + 8) by lia.
Qed.

(** The tags [ts] have been recorded, with their data in [m]. *)
Definition recorded (m : memory) (ts : list tag) (b : multi_boot_info_t) : Prop :=
  ∀ t, t ∈ ts → ∃ p, p ≠ NULL ∧ slot b (t_type t) p (Z.of_nat (length (t_data t))) ∧ bytes_at m p (t_data t) ∧
    boot_info_info <= p ∧ p + Z.of_nat (length (t_data t)) <= boot_info_info + MULTI_BOOT_INFO_CAP.

(** Tag lists that the kernel understands. *)
Record tags_ok (ts : list tag) : Prop := {
  to_known : Forall (λ t, t_type t ∈ known_tags) ts;
  to_nodup : NoDup (t_type <$> ts);
}.

Lemma wp_tags ts n off w (Q : Z → world multi_boot_info_t → Prop) :
  let total := total_size (w_st w) in
  tags_ok ts → (length ts < n)%nat → (8 | boot_info_info) → 0 <= boot_info_info →
  boot_info_info + 1048576 + 8 <= 18446744073709551616 → total < MULTI_BOOT_INFO_CAP → 0 <= off → (8 | off) →
  off + Z.of_nat (length (encode_tags ts)) = total →
  bytes_at (w_mem w) (boot_info_info + off) (encode_tags ts) →
  slots_sized (w_st w) → (∀ type, type ∈ t_type <$> ts → slot (w_st w) type NULL 0) →
  (∀ b, recorded (w_mem w) ts b → slots_sized b → total_size b = total →
    (∀ type q k, 0 <= type → type ∉ t_type <$> ts → slot b type q k ↔ slot (w_st w) type q k) →
    Q (boot_info_info + total) (World (w_mem w) b)) →
  wp (loop n tag_round (boot_info_info + off)) Q w.
Proof.
  intros total. subst total. unfold MULTI_BOOT_INFO_CAP.
  revert n off w. induction ts as [|t ts IH]; intros n off w Hok Hn Hi8 Hi0 Hi1 Ht Hoff Ho8 Hlen Hb Hsz Hnull HQ;
    (destruct n as [|n]; [lia|]); apply wp_loop_step; unfold tag_round; apply wp_bind, wp_static.
  - change (length (encode_tags [])) with 8%nat in Hlen. u64_unfold.
    replace (boot_info_info + off - boot_info_info) with off by lia. rewrite u64_small by lia.
    rewrite (proj2 (Z.ltb_lt _ _)) by lia. apply wp_bind, wp_tag_header; [by apply Z.divide_add_r|lia|lia|].
    rewrite (load_le 4 _ _ 0); [|done|]. 2:{ exact (proj1 (proj1 (bytes_at_app _ _ (le 4 0) (le 4 8)) Hb)). }
    cbn [Z.eqb]. apply wp_ret. rewrite <-Z.add_assoc. replace (off + 8) with (total_size (w_st w)) by lia.
    destruct w as [m b]. apply HQ; [|done|done|done]. intros t Ht'. by apply elem_of_nil in Ht'.
  - destruct Hok as [[Hk Hks]%list.Forall_cons [Hnin Hnd]%list.NoDup_cons].
    pose proof (known_tag_range _ Hk) as Hr.
    unfold encode_tags in Hlen, Hb. rewrite bind_cons, <-app_assoc in Hlen, Hb. fold (encode_tags ts) in Hlen, Hb.
    rewrite length_app, Nat2Z.inj_add, encode_tag_length in Hlen.
    set (len := Z.of_nat (length (t_data t))) in *. assert (0 <= padding len < 8) as Hpad by (by apply Z.mod_pos_bound).
    apply bytes_at_app in Hb as [Hb Hb']. rewrite encode_tag_length in Hb'. fold len in Hb'.
    apply bytes_at_app in Hb as [Hb1 Hb]. apply bytes_at_app in Hb as [Hb2 Hb].
    apply bytes_at_app in Hb as [Hb3 _]. rewrite !le_length in *.
    u64_unfold. replace (boot_info_info + off - boot_info_info) with off by lia. rewrite u64_small by lia.
    rewrite (proj2 (Z.ltb_lt _ _)) by lia. apply wp_bind, wp_tag_header; [by apply Z.divide_add_r|lia|lia|].
    rewrite (load_le 4 _ _ (t_type t) ltac:(simpl; lia) Hb1). change (Z.of_nat 4) with 4 in *.
    rewrite (load_le 4 _ _ (8 + len) ltac:(simpl; lia) Hb2). rewrite (proj2 (Z.eqb_neq _ _)) by lia.
    apply wp_bind, wp_save_tag; [done|done|apply Hnull; by left|].
    assert ((Z.add (boot_info_info + off)%Z 8 + (8 + len)%Z - 8)%u64 = boot_info_info + off + 8 + len) as ->.
    { u64_unfold. rewrite (u64_small (boot_info_info + off + 8 + _)), u64_small by lia. lia. }
    replace (8 + len - 8) with len by lia. rewrite (u32_small len) by lia.
    apply wp_bind, wp_align_8; [|lia|lia|lia|].
    { apply Z.divide_add_r; [by apply Z.divide_add_r|by exists 1]. }
    apply wp_ret.
    replace (boot_info_info + off + 8 + len + padding len) with (boot_info_info + (off + (8 + len + padding len))) by lia.
    set (b1 := set_slot _ _ _ _).
    apply IH; cbn [w_st w_mem]; [by split|simpl in Hn; lia|done|done|done|done|lia| | | | | |].
    + apply Z.divide_add_r; [done|]. unfold padding. exists ((8 + len + (- len) `mod` 8) `div` 8). zlia.
    + change (total_size b1) with (total_size (w_st w)). lia.
    + by rewrite Z.add_assoc.
    + by apply set_slot_sized.
    + intros type Hty. unfold b1. rewrite set_slot_other; [apply Hnull; by right|lia| |].
      * apply list_elem_of_fmap in Hty as (t'&->&Hin). rewrite list.Forall_forall in Hks.
        pose proof (known_tag_range _ (Hks _ Hin)). lia.
      * intros <-. by apply Hnin.
    + intros b Hrec Hsz' Htot Hother. change (total_size b1) with (total_size (w_st w)) in *.
      apply HQ; [|done|done|].
      * intros t' [->|Hin]%elem_of_cons; [|by apply Hrec]. eexists. split.
        -- assert (boot_info_info + off + 8 ≠ 0) as Hp0 by lia. exact Hp0.
        -- split; [apply Hother; [lia|done|]; apply set_slot_same; [done|lia]|].
           split; [|unfold MULTI_BOOT_INFO_CAP; fold len; lia]. by replace (boot_info_info + off + 8) with (boot_info_info + off + 4 + 4) by lia.
      * intros type q k Hty Hnot. rewrite fmap_cons, not_elem_of_cons in Hnot. destruct Hnot as [Hne Hnot].
        rewrite Hother by done. unfold b1. apply set_slot_other; [lia|done|done].
Qed.

Lemma wp_clear_slots w (Q : unit → world multi_boot_info_t → Prop) : slots_sized (w_st w) →
  (∀ b, slots_sized b → total_size b = total_size (w_st w) → (∀ type, 0 <= type < 128 → slot b type NULL 0) →
    Q () (World (w_mem w) b)) →
  wp clear_slots Q w.
Proof.
  intros Hsz HQ. unfold clear_slots.
  apply (wp_for_n (λ i w', w_mem w' = w_mem w ∧ slots_sized (w_st w') ∧ total_size (w_st w') = total_size (w_st w) ∧
    ∀ type, 0 <= type < i → slot (w_st w') type NULL 0)).
  - split; [done|]. split; [done|]. split; [done|]. intros type Ht. lia.
  - intros i w' Hi (Hm&Hs&Ht&Hnull). unfold MULTI_BOOT_INFO_SLOT_COUNT in Hi. pose proof Hs as [Hs1 Hs2].
    apply wp_bind, wp_static. apply wp_bind, wp_array_set; [lia|]. apply wp_bind, wp_static_set.
    apply wp_bind, wp_static. cbn [w_st set_ptrs lens]. apply wp_bind, wp_array_set; [lia|]. apply wp_static_set.
    cbn [w_st w_mem].
    change (set_lens _ _) with (set_slot i NULL 0 (w_st w')).
    split; [done|]. split; [by apply set_slot_sized|]. split; [done|]. intros type Hty.
    destruct (decide (type = i)) as [->|Hne]; [apply set_slot_same; [done|lia]|].
    apply set_slot_other; [lia|lia|done|]. apply Hnull. lia.
  - intros [m b] (Hm&Hs&Ht&Hnull). cbn [w_mem w_st] in *. rewrite Hm. apply HQ; [done|done|].
    intros type Hty. apply Hnull. unfold MULTI_BOOT_INFO_SLOT_COUNT. lia.
Qed.

Lemma known_tags_count ts : tags_ok ts → (length ts <= 11)%nat.
Proof.
  intros [Hk Hnd]. rewrite <-(length_fmap t_type ts). change 11%nat with (length known_tags).
  apply submseteq_length, NoDup_submseteq; [done|]. intros type (t&->&Hin)%list_elem_of_fmap.
  rewrite list.Forall_forall in Hk. by apply Hk.
Qed.

Lemma wp_multi_boot_save (boot : Z) (ts : list tag) (w : world multi_boot_info_t)
    (Hts : tags_ok ts) (Hcap : Z.of_nat (length (encode ts)) < MULTI_BOOT_INFO_CAP)
    (Hboot : 0 <= boot ∧ boot + Z.of_nat (length (encode ts)) <= 18446744073709551616)
    (Hb : bytes_at (w_mem w) boot (encode ts))
    (Hinfo : (8 | boot_info_info) ∧ 0 <= boot_info_info ∧ boot_info_info + 1048576 + 8 <= 18446744073709551616)
    (Hover : boot_info_info <= boot ∨ boot + Z.of_nat (length (encode ts)) <= boot_info_info)
    (Hsz : slots_sized (w_st w)) :
  wp (_multi_boot_info_save boot) (λ _ w',
    total_size (w_st w') = Z.of_nat (length (encode ts)) ∧
    recorded (w_mem w') ts (w_st w') ∧
    (∀ type, 0 <= type < MULTI_BOOT_INFO_SLOT_COUNT → type ∉ t_type <$> ts → slot (w_st w') type NULL 0) ∧
    ∀ a, ¬ (boot_info_info <= a < boot_info_info + MULTI_BOOT_INFO_CAP) → load8 (w_mem w') a = load8 (w_mem w) a) w.
Proof.
  destruct Hinfo as (Hi8&Hi0&Hi1). unfold MULTI_BOOT_INFO_CAP, MULTI_BOOT_INFO_SLOT_COUNT in *.
  set (total := Z.of_nat (length (encode ts))) in *.
  assert (total = 8 + Z.of_nat (length (encode_tags ts))) as Etot.
  { unfold total, encode. rewrite !length_app, !le_length. lia. }
  unfold encode in Hb. rewrite <-Etot in Hb. apply bytes_at_app in Hb as [Hb1 Hb]. apply bytes_at_app in Hb as [Hb2 Hb].
  rewrite !le_length in *. change (Z.of_nat 4) with 4 in *.
  unfold _multi_boot_info_save, MULTI_BOOT_INFO_CAP.
  apply wp_bind, wp_read. cbn [mem_of world_has_memory]. rewrite (load_le 4 _ _ total ltac:(simpl; lia) Hb1).
  apply wp_bind, wp_static_set. apply wp_bind, wp_read. cbn [mem_of world_has_memory w_mem].
  assert ((boot + 4)%u64 = boot + 4) as -> by (unfold uadd; rewrite u64_small; lia).
  rewrite (load_le 4 _ _ 0 ltac:(done) Hb2).
  apply wp_bind, wp_assert; [bsimp; lia|]. apply wp_bind, wp_assert; [done|].
  apply wp_bind, wp_mm_copy; [lia|lia|lia|lia|]. intros m Hm. cbn [mem_of set_mem world_has_memory w_mem w_st] in *.
  apply wp_bind, wp_clear_slots; [done|]. intros b Hb_sz Hb_tot Hb_null. cbn [w_mem w_st] in *.
  assert ((boot_info_info + 8)%u64 = boot_info_info + 8) as -> by (unfold uadd; rewrite u64_small; lia).
  apply wp_bind, (wp_tags ts); cbn [w_mem w_st]; rewrite ?Hb_tot; cbn [total_size set_total];
    [done|apply known_tags_count in Hts; unfold tag_fuel; lia|done|done|done|done|lia|by exists 1|lia| |done| |].
  - intros i c Hi. rewrite Hm. pose proof (lookup_lt_Some _ _ _ Hi). rewrite decide_True by lia.
    rewrite <-(Hb i c Hi). f_equal. lia.
  - intros type (t&->&Hin)%list_elem_of_fmap. destruct Hts as [Hk _]. rewrite list.Forall_forall in Hk.
    pose proof (known_tag_range _ (Hk _ Hin)). apply Hb_null. lia.
  - intros b' Hrec Hsz' Htot' Hother.
    apply wp_assert.
    { u64_unfold. replace (boot_info_info + total - boot_info_info) with total by lia. rewrite u64_small by lia. by bsimp. }
    cbn [w_mem w_st]. split; [done|]. split; [done|]. split.
    + intros type Hty Hnot. apply Hother; [lia|done|]. apply Hb_null. lia.
    + intros a Ha. rewrite Hm. by rewrite decide_False by lia.
Qed.

(** C18: parsing the boot information is inverse to the Multiboot 2 format.
    From the encoding of any list of known tags with distinct types,
    [_multi_boot_info_save] returns with the table in which every tag of the
    list has a pointer to a copy of its data and the length of it, all other
    entries are empty, and the memory outside the copy is unchanged. *)
Theorem multi_boot_roundtrip (boot : Z) (ts : list tag) (w : world multi_boot_info_t)
    (Hts : tags_ok ts) (Hcap : Z.of_nat (length (encode ts)) < MULTI_BOOT_INFO_CAP)
    (Hboot : 0 <= boot ∧ boot + Z.of_nat (length (encode ts)) <= 18446744073709551616)
    (Hb : bytes_at (w_mem w) boot (encode ts))
    (Hinfo : (8 | boot_info_info) ∧ 0 <= boot_info_info ∧ boot_info_info + 1048576 + 8 <= 18446744073709551616)
    (Hover : boot_info_info <= boot ∨ boot + Z.of_nat (length (encode ts)) <= boot_info_info)
    (Hsz : slots_sized (w_st w)) :
  wp (_multi_boot_info_save boot) (λ _ w',
    total_size (w_st w') = Z.of_nat (length (encode ts)) ∧
    recorded (w_mem w') ts (w_st w') ∧
    (∀ type, 0 <= type < MULTI_BOOT_INFO_SLOT_COUNT → type ∉ t_type <$> ts → slot (w_st w') type NULL 0) ∧
    ∀ a, ¬ (boot_info_info <= a < boot_info_info + MULTI_BOOT_INFO_CAP) → load8 (w_mem w') a = load8 (w_mem w) a) w.
Proof. by apply wp_multi_boot_save. Qed.

(* --------------------------------------------------------------------- *)
(** ** Malformed tag lists *)

Definition invalid_text : list Z := bytes_of "Invalid multiboot info tag type: ".

(** The text and the message buffer, apart from each other and from the copy. *)
Record text_tag_ok (m : memory) : Prop := {
  tt_bytes : bytes_at m text_tag (invalid_text ++ [0]);
  tt_text : 0 <= text_tag ∧ text_tag + 34 <= 18446744073709551616;
  tt_msg : 0 <= boot_msg ∧ boot_msg + _MSG_LEN < 18446744073709551616;
  tt_apart : text_tag + 34 <= boot_msg ∨ boot_msg + _MSG_LEN <= text_tag;
  tt_copy : text_tag + 34 <= boot_info_info ∨ boot_info_info + MULTI_BOOT_INFO_CAP <= text_tag;
}.

Lemma text_tag_ok_agree m m' : (∀ a, text_tag <= a < text_tag + 34 → load8 m' a = load8 m a) →
  text_tag_ok m → text_tag_ok m'.
Proof.
  intros Hag [Hb ????]. split; try done. eapply bytes_at_agree; [|done]. intros a Ha. symmetry. by apply Hag.
Qed.

Lemma invalid_tag_run {A} type w : text_tag_ok (w_mem w) → is_u64 type →
  invalid_tag (A := A) type w = Panic (string_of_bytes (invalid_text ++ decimal type)).
Proof.
  intros [Hb Ht Hm Hap _] Hty. unfold _MSG_LEN in *. unfold is_u64 in Hty.
  pose proof (decimal_length 20 type ltac:(lia) ltac:(lia)) as Hd. fold (decimal type) in Hd.
  assert (length invalid_text = 33%nat) as Hl by reflexivity.
  assert (Forall (λ c, is_u8 c ∧ c ≠ 0) invalid_text) as Hc by (repeat constructor; done).
  assert (Forall (λ c, c ≠ 0) invalid_text) as Hnz by (eapply list.Forall_impl; [exact Hc|by intros ? [? ?]]).
  assert (Forall is_u8 invalid_text) as Hu8 by (eapply list.Forall_impl; [exact Hc|by intros ? [? ?]]).
  set (m1 := len ← str_len 128 text_tag; n ← str_buf_marshal_str boot_msg 0 128 text_tag len;
    k ← str_buf_marshal_uint boot_msg (0 + n)%u64 128 type; write 1 (boot_msg + (0 + n + k))%u64 0 : BM unit).
  assert (invalid_tag (A := A) type w = (m1 ≫= λ _, kernel_panic_at 128 boot_msg) w) as ->.
  { unfold invalid_tag, m1, _MSG_LEN, mbind, M_bind.
    destruct (str_len _ _ _) as [[? ?]| | | |]; try done. destruct (str_buf_marshal_str _ _ _ _ _ _) as [[? ?]| | | |]; try done.
    by destruct (str_buf_marshal_uint _ _ _ _ _) as [[? ?]| | | |]. }
  assert (wp m1 (λ _ w', bytes_at (w_mem w') boot_msg ((invalid_text ++ decimal type) ++ [0])) w) as Hrun.
  { unfold m1. apply wp_bind, (wp_str_len _ _ invalid_text); [done|done|lia|lia|lia|]. rewrite Hl.
    pose proof (proj1 (proj1 (bytes_at_app _ _ _ _) Hb)) as Hb1.
    apply wp_bind. rewrite <-Hl. apply wp_marshal_str; [done|done|lia|lia|lia|lia|lia|lia|lia|]. intros ma Hwa.
    rewrite Z.add_0_r in Hwa. cbn [set_mem world_has_memory mem_of] in *. rewrite Hl in *. change (Z.of_nat 33) with 33 in *.
    change (0 + 33)%u64 with 33. apply wp_bind, wp_marshal_uint; [done|lia|lia|lia|lia|]. intros mb Hwb.
    cbn [set_mem world_has_memory mem_of w_mem w_st] in *. change (Z.of_nat 33) with 33 in *.
    assert ((boot_msg + (33 + Z.of_nat (length (decimal type))))%u64 =
      boot_msg + Z.of_nat (length (invalid_text ++ decimal type))) as ->.
    { u64_unfold. rewrite (u64_small (33 + _)), u64_small by lia. rewrite length_app, Hl. lia. }
    assert (wrote (boot_msg + Z.of_nat (length invalid_text)) (decimal type) ma mb) as Hwb' by (by rewrite Hl).
    apply wp_write_byte; [done|]. intros mc Hwc. cbn [set_mem world_has_memory mem_of w_mem w_st] in *.
    by destruct (wrote_app _ _ _ _ _ _ (wrote_app _ _ _ _ _ _ Hwa Hwb') Hwc) as [Hbytes _]. }
  apply wp_done in Hrun as (r&w2&Hr&Hbw). eapply kernel_panic_at_run; [exact Hr|lia| | |exact Hbw|].
  - rewrite length_app, Hl. lia.
  - rewrite length_app, Hl. lia.
  - apply Forall_app. split; [done|]. eapply list.Forall_impl; [by apply (decimal_fuel_digits 20); lia|].
    unfold CH_0. intros c Hc'. simpl in Hc'. lia.
Qed.

(** The known tags whose slot is still empty. *)
Definition empty_slot (b : multi_boot_info_t) (type : Z) : Prop := ptrs b !! Z.to_nat type = Some NULL.
#[local] Instance empty_slot_dec b type : Decision (empty_slot b type).
Proof. unfold empty_slot. apply _. Defined.
Definition empties (b : multi_boot_info_t) : nat := length (filter (empty_slot b) known_tags).
#[local] Arguments empties : simpl never.

Lemma filter_fewer {A} (P R : A → Prop) `{∀ x, Decision (P x)} `{∀ x, Decision (R x)} l x :
  (∀ y, y ∈ l → R y → P y) → x ∈ l → P x → ¬ R x → (length (filter R l) < length (filter P l))%nat.
Proof.
  intros Hsub Hx HP HR. induction l as [|y l IH]; [by apply elem_of_nil in Hx|].
  assert (∀ k, (∀ z, z ∈ k → R z → P z) → (length (filter R k) <= length (filter P k))%nat) as Hle.
  { clear. induction k as [|z k IHk]; intros Hk; [done|]. rewrite !list.filter_cons.
    assert ((length (filter R k) <= length (filter P k))%nat) by (apply IHk; intros; apply Hk; [by right|done]).
    destruct (decide (R z)); destruct (decide (P z)); simpl; try lia. exfalso. by apply n, Hk; [left|]. }
  rewrite !list.filter_cons. apply elem_of_cons in Hx as [->|Hx].
  - rewrite decide_False, decide_True by done. simpl. pose proof (Hle l). 
    assert ((length (filter R l) <= length (filter P l))%nat) by (apply Hle; intros; apply Hsub; [by right|done]). lia.
  - assert ((length (filter R l) < length (filter P l))%nat) by (apply IH; [intros; apply Hsub; [by right|done]|done]).
    destruct (decide (R y)); destruct (decide (P y)); simpl; try lia. exfalso. by apply n, Hsub; [left|].
Qed.

Lemma save_tag_cases ptr type size w : type ∈ known_tags → slots_sized (w_st w) →
  _multi_boot_info_save_tag ptr type size w = Assert ∨
  (slot (w_st w) type NULL 0 ∧ _multi_boot_info_save_tag ptr type size w =
    Done ((ptr + size - 8)%u64, World (w_mem w) (set_slot type ptr (u32 (size - 8)) (w_st w)))).
Proof.
  intros Hk [Hs1 Hs2]. pose proof (known_tag_range _ Hk) as Hr.
  destruct (lookup_lt_is_Some_2 (ptrs (w_st w)) (Z.to_nat type) ltac:(lia)) as [p Hp].
  destruct (lookup_lt_is_Some_2 (lens (w_st w)) (Z.to_nat type) ltac:(lia)) as [l Hl].
  destruct (decide (p = NULL ∧ l = 0)) as [[-> ->]|Hne].
  - right. split; [done|].
    assert (wp (_multi_boot_info_save_tag ptr type size) (λ r w', r = (ptr + size - 8)%u64 ∧
      w' = World (w_mem w) (set_slot type ptr (u32 (size - 8)) (w_st w))) w) as Hw by (by apply wp_save_tag).
    by apply wp_done in Hw as (r&w'&->&->&->).
  - left. unfold _multi_boot_info_save_tag. rewrite decide_True by done.
    unfold mbind, M_bind, kernel_assert, static, gets, array_get, MULTI_BOOT_INFO_SLOT_COUNT. cbn [mret M_ret].
    rewrite (proj2 (Z.ltb_lt _ _)), (proj2 (Z.leb_le 0 type)), Hp by lia. cbn [of_option mret M_ret].
    destruct (Z.eqb_spec p NULL) as [->|]; [|done]. rewrite Hl. cbn [of_option mret M_ret].
    destruct (Z.eqb_spec l 0) as [->|]; [|done]. by destruct Hne.
Qed.

Lemma align_8_run {S} p (s : S) : is_u64 p → ∃ r, mm_align_up p 8 s = Done (r, s) ∧ is_u64 r.
Proof.
  intros Hp. assert (wp (mm_align_up p 8) (λ r s', s' = s ∧ is_u64 r) s) as Hw.
  { apply (wp_align_up p 3); [lia|done|]. split; [done|]. change (2 ^ 3) with 8.
    pose proof (u64_range (p + (8 - 1))). unfold is_u64. zlia. }
  apply wp_done in Hw as (r&s'&Hr&->&?). eauto.
Qed.

Definition round_inv (ptr : Z) (w : world multi_boot_info_t) : Prop :=
  is_u64 ptr ∧ slots_sized (w_st w) ∧ text_tag_ok (w_mem w) ∧ total_size (w_st w) < MULTI_BOOT_INFO_CAP.

Lemma tag_round_ends ptr w : 0 <= boot_info_info → boot_info_info + 1048576 + 8 <= 18446744073709551616 →
  round_inv ptr w →
  match tag_round ptr w with
  | Done (inl ptr', w') => round_inv ptr' w' ∧ (empties (w_st w') < empties (w_st w))%nat
  | Timeout => False
  | _ => True
  end.
Proof.
  intros Hi0 Hi1 (Hptr&Hsz&Htext&Htot). unfold tag_round. rewrite (bind_done _ _ _ _ _ (eq_refl : static total_size w = _)).
  destruct (_ <? _)%u64 eqn:Hlt; [|done].
  assert (0 < (ptr + 4 + 4)%u64) as Hpos.
  { unfold ultb, usub in Hlt. apply Z.ltb_lt in Hlt. unfold is_u64, MULTI_BOOT_INFO_CAP, uadd, u64 in *. zlia. }
  set (body := λ '(ptr, type, size), if type =? 0 then _ else _). 
  assert (∀ p ty sz, is_u64 p → 0 < p → is_u64 ty → match body (p, ty, sz) w with
    | Done (inl ptr', w') => round_inv ptr' w' ∧ (empties (w_st w') < empties (w_st w))%nat
    | Timeout => False
    | _ => True
    end) as Hbody.
  { intros p ty sz Hp Hp0 Hty. unfold body. destruct (Z.eqb_spec ty 0); [done|].
    destruct (decide (ty ∈ known_tags)) as [Hk|Hk].
    - destruct (save_tag_cases p ty sz w Hk Hsz) as [Ha|[[Hn1 Hn2] Hd]]; [by rewrite (bind_assert _ _ _ Ha)|].
      rewrite (bind_done _ _ _ _ _ Hd).
      destruct (align_8_run (p + sz - 8)%u64 (World (w_mem w) (set_slot ty p (u32 (sz - 8)) (w_st w)))) as (r&Hr&Hru).
      { apply u64_range. }
      rewrite (bind_done _ _ _ _ _ Hr). cbn. split.
      + split; [done|]. split; [by apply set_slot_sized|]. done.
      + pose proof (known_tag_range _ Hk). apply (filter_fewer _ _ _ ty); [|done|done|].
        * intros y Hy. unfold empty_slot. cbn. destruct (decide (y = ty)) as [->|Hne]; [done|].
          pose proof (known_tag_range _ Hy). by rewrite list_lookup_insert_ne by lia.
        * unfold empty_slot. cbn. destruct Hsz as [Hs1 _]. rewrite list_lookup_insert_eq by lia. unfold NULL. intros [= ?]. lia.
    - unfold _multi_boot_info_save_tag. rewrite decide_False by done.
      assert (invalid_tag (A := unit) ty w = Panic (string_of_bytes (invalid_text ++ decimal ty))) as Hinv
        by (by apply invalid_tag_run).
      erewrite (bind_panic _ _ w); [done|]. by apply bind_panic. }
  assert (_multi_boot_info_process_tag_header ptr w = if (ptr mod 8 =? 0)%u64
    then Done ((ptr + 4 + 4)%u64, load 4 (w_mem w) ptr, load 4 (w_mem w) (ptr + 4)%u64, w) else Assert) as Hh.
  { unfold _multi_boot_info_process_tag_header. by rewrite assert_then. }
  destruct (ptr mod 8 =? 0)%u64; [|by rewrite (bind_assert _ _ _ Hh)]. rewrite (bind_done _ _ _ _ _ Hh).
  pose proof (load_range 4 (w_mem w) ptr) as Hl. change (256 ^ Z.of_nat 4) with 4294967296 in Hl.
  apply Hbody; [apply u64_range|done|unfold is_u64; lia].
Qed.

(** C33: parsing ends on every input.  Whatever the memory at [boot] holds -
    sizes that point backwards, repeated or unknown types - the function
    returns, fails an assertion or panics; twelve rounds are enough, because
    every round but the last fills the slot of one of the eleven known tags. *)
Theorem multi_boot_ends (boot : Z) (w : world multi_boot_info_t)
    (Hinfo : 0 <= boot_info_info ∧ boot_info_info + 1048576 + 8 <= 18446744073709551616)
    (Hsz : slots_sized (w_st w)) (Ht : text_tag_ok (w_mem w)) :
  _multi_boot_info_save boot w ≠ Timeout.
Proof.
  destruct Hinfo as [Hi0 Hi1]. unfold _multi_boot_info_save. rewrite read_then. cbn [mem_of world_has_memory].
  set (total := load 4 (w_mem w) boot). set (w1 := World (w_mem w) (set_total total (w_st w))).
  rewrite (bind_done _ _ w () w1) by done. rewrite read_then, !assert_then.
  destruct (total <? MULTI_BOOT_INFO_CAP) eqn:Hcap; [|done]. destruct (load 4 _ _ =? 0); [|done]. bsimp.
  pose proof (load_range 4 (w_mem w) boot) as Hl. fold total in Hl. unfold MULTI_BOOT_INFO_CAP in Hcap.
  assert (wp (mm_copy boot_info_info boot total) (λ _ w', text_tag_ok (w_mem w') ∧ w_st w' = w_st w1) w1) as Hcopy.
  { apply wp_mm_copy_within; [lia|lia|]. intros m Hm. cbn [mem_of set_mem world_has_memory w_mem w_st w1] in *.
    split; [|done]. eapply text_tag_ok_agree; [|exact Ht]. intros a Ha. apply Hm.
    destruct Ht as [_ _ _ _ Htc]. unfold MULTI_BOOT_INFO_CAP in Htc. lia. }
  apply wp_done in Hcopy as ([]&w2&Hc&Ht2&Hst2). rewrite (bind_done _ _ _ _ _ Hc).
  assert (wp clear_slots (λ _ w', w_mem w' = w_mem w2 ∧ slots_sized (w_st w') ∧ total_size (w_st w') = total) w2) as Hclr.
  { apply wp_clear_slots; [by rewrite Hst2|]. intros b Hb Htot _. cbn. by rewrite Htot, Hst2. }
  apply wp_done in Hclr as ([]&w3&Hc3&Hm3&Hsz3&Htot3). rewrite (bind_done _ _ _ _ _ Hc3).
  assert (loop tag_fuel tag_round (boot_info_info + 8)%u64 w3 ≠ Timeout) as Hloop.
  { apply (loop_ends round_inv (λ _ w, empties (w_st w))).
    - split; [apply u64_range|]. split; [done|]. split; [by rewrite Hm3|]. rewrite Htot3. unfold MULTI_BOOT_INFO_CAP. lia.
    - unfold empties, tag_fuel. pose proof (length_filter (empty_slot (w_st w3)) known_tags) as Hf.
      change (length known_tags) with 11%nat in Hf. lia.
    - intros p w' Hinv. by apply tag_round_ends. }
  unfold mbind, M_bind. destruct (loop _ _ _ w3) as [[p w4]| | | |]; try done.
  unfold kernel_assert. by destruct (_ =? _)%u64.
Qed.
End proofs.

(* ===================================================================== *)
(** ** Sample boot information *)

Definition sample_boot_link : BootLink :=
  {| boot_info_info := 0x800000; boot_msg := 0x20000; text_tag := 0x30000 |}.

Definition sample_tags : list tag := [Tag 1 [99; 105; 110; 103; 0]; Tag 6 [24; 0; 0; 0; 0; 0; 0; 0]].

Definition empty_info : multi_boot_info_t := BootInfo 0 (replicate 128 0) (replicate 128 0).

Definition sample_boot : world multi_boot_info_t := World (poke 0x10000 (encode sample_tags) ∅) empty_info.

Lemma sample_tags_ok : tags_ok sample_tags.
Proof. split; [repeat constructor; by apply (bool_decide_unpack _)|by apply (bool_decide_unpack _)]. Qed.

Lemma multi_boot_roundtrip_witness :
  wp (@_multi_boot_info_save sample_boot_link 0x10000) (λ _ w',
    total_size (w_st w') = 48 ∧ @recorded sample_boot_link (w_mem w') sample_tags (w_st w') ∧
    (∀ type, 0 <= type < 128 → type ∉ [1; 6] → slot (w_st w') type NULL 0) ∧
    ∀ a, ¬ (0x800000 <= a < 0x900000) → load8 (w_mem w') a = load8 (w_mem sample_boot) a) sample_boot.
Proof.
  refine (@multi_boot_roundtrip sample_boot_link 0x10000 sample_tags sample_boot sample_tags_ok _ _ _ _ _ _).
  - done.
  - done.
  - apply peek_bytes_at. by vm_compute.
  - split; [by exists 0x100000|done].
  - by right.
  - done.
Defined.

(** A tag of size 0 that repeats itself. *)
Definition looping_boot : world multi_boot_info_t :=
  World (poke 0x10000 (le 4 24 ++ le 4 0 ++ le 4 1 ++ le 4 0) (poke 0x30000 (invalid_text ++ [0]) ∅)) empty_info.

Lemma multi_boot_ends_witness :
  @_multi_boot_info_save sample_boot_link 0x10000 looping_boot ≠ Timeout ∧
  @_multi_boot_info_save sample_boot_link 0x10000 looping_boot = Assert.
Proof.
  split; [|by vm_compute].
  refine (@multi_boot_ends sample_boot_link 0x10000 looping_boot _ _ _).
  - done.
  - done.
  - split; [apply peek_bytes_at; by vm_compute|done|done|by right|by left].
Defined.
