(* ===== verification/Vesa.v ===== *)
(** The frame buffer driver, src/drivers/drivers_vesa.c: the geometry read
    from the boot information and the drawing of a pixel. *)
From S2P Require Import Prelude Memory Strings.

(** The static variables of the driver. *)
Record vesa := Vesa {
  _buf : Z;
  _width : Z;
  _height : Z;
  _depth : Z;
}.

(** [_buf] starts at the legacy VGA address. *)
Definition vesa_initial : vesa := Vesa 0xB8000 0 0 0.

Definition set_buf (p : Z) (v : vesa) : vesa := Vesa p (_width v) (_height v) (_depth v).

Abbreviation VM := (M (world vesa)).

(** [frame_buffer_info_t] is packed: paddr 0, pitch 8, width 12, height 16,
    depth 20, colour_type 21, reserved 22, the colour fields up to 28. *)
Definition d_vesa_bootstrap (fb fb_len : Z) : VM unit :=
  colour_type ← read 1 (fb + 21)%u64;
  kernel_assert (colour_type =? 1) ;;
  depth ← read 1 (fb + 20)%u64;
  kernel_assert (depth =? 32) ;;
  reserved ← read 1 (fb + 22)%u64;
  kernel_assert (reserved =? 0) ;;
  kernel_assert (fb_len =? 30) ;;
  paddr ← read 8 fb;
  width ← read 4 (fb + 12)%u64;
  height ← read 4 (fb + 16)%u64;
  depth ← read 1 (fb + 20)%u64;
  kernel_assert (depth mod 8 =? 0)%u64 ;;
  static_set (λ _, Vesa paddr width height (depth / 8)%u64).

Definition d_vesa_draw_pixel (x y red green blue : Z) : VM unit :=
  v ← static id;
  kernel_assert (x <? _width v) ;;
  kernel_assert (y <? _height v) ;;
  let idx := ((y * _width v + x) * _depth v)%u64 in
  write 1 (_buf v + idx)%u64 blue ;;
  write 1 (_buf v + (idx + 1))%u64 green ;;
  write 1 (_buf v + (idx + 2))%u64 red.

Definition d_vesa_get_frame_buffer : VM Z := static _buf.
Definition d_vesa_set_frame_buffer (fb : Z) : VM unit := static_set (set_buf fb).
Definition d_vesa_get_frame_buffer_len : VM Z :=
  static (λ v, (_width v * _height v * _depth v)%u64).
Definition d_vesa_get_width : VM Z := static _width.
Definition d_vesa_get_height : VM Z := static _height.

(* --------------------------------------------------------------------- *)

(** The bytes of the pixel at column [x] of line [y]. *)
Definition pixel_address (v : vesa) (x y : Z) : Z := _buf v + (y * _width v + x) * _depth v.

(** The frame buffer as boot information may describe it: at least three
    bytes per pixel, and no address beyond 64 bits. *)
Definition vesa_ok (v : vesa) : Prop :=
  3 <= _depth v ∧ 0 <= _width v ∧ 0 <= _height v ∧ 0 <= _buf v ∧
  _buf v + _width v * _height v * _depth v < 18446744073709551616.

(** The index of a pixel in the frame buffer. *)
Lemma pixel_bound x y w h d : 0 <= x < w → 0 <= y < h → 0 < d →
  0 <= (y * w + x) * d ∧ (y * w + x) * d + d <= w * h * d ∧ y * w + x < w * h.
Proof.
  intros Hx Hy Hd.
  assert ((y + 1) * w <= h * w) by (apply Z.mul_le_mono_nonneg_r; lia).
  assert (0 <= y * w) by (apply Z.mul_nonneg_nonneg; lia).
  assert (y * w + x + 1 <= w * h) as Hle by lia.
  assert ((y * w + x + 1) * d <= w * h * d) by (apply Z.mul_le_mono_nonneg_r; lia).
  split; [apply Z.mul_nonneg_nonneg; lia|]. lia.
Qed.

(** A pixel inside the screen is drawn by writing its three colour bytes,
    inside the frame buffer and nowhere else. *)
Theorem draw_pixel_ok (x y r g b : Z) (v : vesa) (m : memory) (Hv : vesa_ok v)
    (Hx : 0 <= x < _width v) (Hy : 0 <= y < _height v)
    (Hr : is_u8 r) (Hg : is_u8 g) (Hb : is_u8 b) :
  ∃ m', d_vesa_draw_pixel x y r g b (World m v) = Done ((), World m' v) ∧
    wrote (pixel_address v x y) [b; g; r] m m' ∧
    _buf v <= pixel_address v x y ∧
    pixel_address v x y + 3 <= _buf v + _width v * _height v * _depth v.
Proof.
  destruct Hv as (Hd & Hw & Hh & Hbuf & Hend).
  destruct (pixel_bound x y (_width v) (_height v) (_depth v) Hx Hy ltac:(lia)) as (H0 & H1 & H2).
  assert (0 <= y * _width v) by (apply Z.mul_nonneg_nonneg; lia).
  assert (0 <= _width v * _height v) by (apply Z.mul_nonneg_nonneg; lia).
  pose proof (Z.mul_le_mono_nonneg_l 1 (_depth v) (_width v * _height v) ltac:(lia) ltac:(lia)).
  cut (wp (d_vesa_draw_pixel x y r g b) (λ _ w, ∃ m', w = World m' v ∧
    wrote (pixel_address v x y) [b; g; r] m m') (World m v)).
  { intros ([] & w & Hrun & m' & -> & Hwr)%wp_done. exists m'.
    unfold pixel_address in *. split_and!; [done|done|lia|lia]. }
  unfold d_vesa_draw_pixel, pixel_address in *. wp_step. apply wp_static. simpl. unfold id.
  wp_step. wp_step; [bsimp; lia|]. wp_step. wp_step; [bsimp; lia|].
  u64_unfold. rewrite (u64_small (y * _width v)), (u64_small (y * _width v + x)) by lia.
  rewrite (u64_small ((y * _width v + x) * _depth v)) by lia.
  set (i := (y * _width v + x) * _depth v) in *.
  rewrite (u64_small (_buf v + i)), (u64_small (i + 1)), (u64_small (i + 2)) by lia.
  rewrite (u64_small (_buf v + (i + 1))), (u64_small (_buf v + (i + 2))) by lia.
  wp_step. apply wp_write_byte; [done|]. intros m1 Hw1.
  wp_step. apply wp_write_byte; [done|]. intros m2 Hw2.
  apply wp_write_byte; [done|]. intros m3 Hw3. exists m3. split; [done|].
  simpl in *. apply (wrote_app _ [b] [g; r] _ m1); [done|]. simpl.
  apply (wrote_app _ [g] [r] _ m2); simpl.
  - by rewrite <-Z.add_assoc.
  - by replace (_buf v + i + Z.of_nat 1 + Z.of_nat 1) with (_buf v + (i + 2)) by lia.
Qed.

(** Outside the screen an assertion fails, and nothing is written. *)
Theorem draw_pixel_rejects (x y r g b : Z) (w : world vesa)
    (Hout : _width (w_st w) <= x ∨ _height (w_st w) <= y) :
  d_vesa_draw_pixel x y r g b w = Assert.
Proof.
  unfold d_vesa_draw_pixel. rewrite (bind_done _ _ w (w_st w) w) by done.
  destruct (x <? _width (w_st w)) eqn:Hx; bsimp; [|by apply bind_assert].
  rewrite (bind_done _ _ w () w) by done.
  destruct (y <? _height (w_st w)) eqn:Hy; bsimp; [lia|by apply bind_assert].
Qed.

Definition sample_vesa : vesa := Vesa 0xfd000000 1024 768 4.

Lemma draw_pixel_ok_witness :
  vesa_ok sample_vesa ∧
  ∃ m', d_vesa_draw_pixel 1023 767 1 2 3 (World ∅ sample_vesa) = Done ((), World m' sample_vesa).
Proof.
  assert (vesa_ok sample_vesa) as Hv by (unfold vesa_ok; simpl; lia).
  split; [exact Hv|].
  destruct (draw_pixel_ok 1023 767 1 2 3 sample_vesa ∅ Hv) as (m' & Hrun & _);
    [simpl; lia|simpl; lia|unfold is_u8; lia..|].
  exists m'. exact Hrun.
Defined.

Lemma draw_pixel_rejects_witness :
  _width sample_vesa <= 1024 ∧ d_vesa_draw_pixel 1024 0 1 2 3 (World ∅ sample_vesa) = Assert.
Proof. split; [simpl; lia|]. apply draw_pixel_rejects. simpl. lia. Defined.
