(* ===== verification/Video.v ===== *)
(** Characters on the frame buffer, src/video/video.c, and the tiles of the
    text user interface, src/tui/tui.c: both draw pixels through the frame
    buffer driver. *)
From S2P Require Import Prelude Memory Strings Vesa Fonts.

(* ===================================================================== *)
(** ** Characters (video.c) *)

Definition video_char_row_max : VM Z := h ← d_vesa_get_height; mret (h / 16)%u64.
Definition video_char_col_max : VM Z := w ← d_vesa_get_width; mret (w / 8)%u64.

(** One line of a glyph: bit 7 is the leftmost pixel. *)
Definition draw_glyph_line (row col ln ln_byte : Z) : VM unit :=
  for_n 8 0 (λ bit,
    on ← byte_bit_get ln_byte (8 - bit - 1)%u64;
    if on : bool then d_vesa_draw_pixel (col * 8 + bit)%u64 (row * 16 + ln)%u64 255 255 255
    else mret ()).

Definition video_draw_char (row col ch : Z) : VM unit :=
  row_max ← video_char_row_max;
  kernel_assert (row <? row_max) ;;
  col_max ← video_char_col_max;
  kernel_assert (col <? col_max) ;;
  let off := (ch * 16)%u64 in
  for_n 16 0 (λ ln,
    ln_byte ← array_get font_vga_8x16 (off + ln)%u64;
    draw_glyph_line row col ln ln_byte).

Definition test_video : VM unit :=
  for_n 255 0 (λ c, video_draw_char 19 c c).

(* ===================================================================== *)
(** ** Tiles (tui.c) *)

Definition _TILE_WIDTH : Z := 8.
Definition _TILE_HEIGHT : Z := 8.
Definition _TILE_X_MAX : Z := 240.
Definition _TILE_Y_MAX : Z := 135.
Definition _CHAR_WIDTH : Z := 8.
Definition _CHAR_HEIGHT : Z := 16.

Record tui_color := TuiColor { red : Z; green : Z; blue : Z }.
Record tui_widget_menu := TuiMenu { start_x : Z; start_y : Z; menu_width : Z; menu_bg : tui_color }.

Definition tui_screen_draw_tile_line (x y line_no line : Z) (color : tui_color) : VM unit :=
  kernel_assert (line_no <? _TILE_HEIGHT) ;;
  let pixel_y := (y * _TILE_HEIGHT + line_no)%u64 in
  for_n (Z.to_nat _TILE_WIDTH) 0 (λ i,
    on ← byte_bit_get line (8 - i - 1)%u64;
    if on : bool then
      d_vesa_draw_pixel (x * _TILE_WIDTH + i)%u64 pixel_y (red color) (green color) (blue color)
    else mret ()).

Definition tui_screen_draw_tile_full (x y : Z) (color : tui_color) : VM unit :=
  for_n (Z.to_nat _TILE_HEIGHT) 0 (λ i, tui_screen_draw_tile_line x y i 0xFF color).

Definition tui_widget_menu_draw (menu : tui_widget_menu) : VM unit :=
  for_n (Z.to_nat (menu_width menu)) 0 (λ i,
    tui_screen_draw_tile_full (start_x menu + i)%u64 (start_y menu) (menu_bg menu) ;;
    tui_screen_draw_tile_full (start_x menu + i)%u64 (start_y menu + 1)%u64 (menu_bg menu)).

Definition tui_start : VM unit :=
  width ← d_vesa_get_width;
  kernel_assert (_TILE_X_MAX <=? width / _TILE_WIDTH)%u64 ;;
  height ← d_vesa_get_height;
  kernel_assert (_TILE_Y_MAX <=? height / _TILE_HEIGHT)%u64 ;;
  tui_widget_menu_draw (TuiMenu 0 0 _TILE_X_MAX (TuiColor 187 187 187)).

(* ===================================================================== *)
(** ** What is painted *)

(** The byte [a] belongs to the pixel at column [x] of line [y]. *)
Definition pixel_byte (v : vesa) (x y a : Z) : bool :=
  (pixel_address v x y <=? a) && (a <? pixel_address v x y + 3).

(** The bytes of [P] got the value [c], and no others changed. *)
Definition painted (c : Z) (P : Z → bool) (m m' : memory) : Prop :=
  ∀ a, load8 m' a = if P a then c else load8 m a.

(** One of the pixels [f 0 .. f (n - 1)]. *)
Definition any_of (n : Z) (f : Z → Z → bool) (a : Z) : bool := existsb (λ i, f i a) (seqZ 0 n).

Lemma painted_none c m : painted c (λ _, false) m m.
Proof. done. Qed.

Lemma painted_then c P R m m1 m2 : painted c P m m1 → painted c R m1 m2 → painted c (λ a, P a || R a) m m2.
Proof. intros H1 H2 a. rewrite H2, H1. by destruct (P a), (R a). Qed.

Lemma painted_ext c P R m m' : (∀ a, P a = R a) → painted c P m m' → painted c R m m'.
Proof. intros HPR HP a. by rewrite <-HPR. Qed.

Lemma any_of_succ n f a : 0 <= n → any_of (n + 1) f a = any_of n f a || f n a.
Proof.
  intros Hn. unfold any_of. replace (n + 1) with (Z.of_nat (S (Z.to_nat n))) by lia.
  rewrite seqZ_S, existsb_app, Z2Nat.id by lia. cbn [existsb]. by rewrite orb_false_r, Z.add_0_l.
Qed.

(** A loop that paints [f i] in round [i] paints all of them. *)
Lemma wp_paint_loop c n f body v m (Q : unit → world vesa → Prop) :
  (∀ i m1 R, 0 <= i < Z.of_nat n → (∀ m2, painted c (f i) m1 m2 → R () (World m2 v)) → wp (body i) R (World m1 v)) →
  (∀ m', painted c (any_of (Z.of_nat n) f) m m' → Q () (World m' v)) → wp (for_n n 0 body) Q (World m v).
Proof.
  intros Hbody HQ. apply (wp_for_n (λ i w, ∃ m1, w = World m1 v ∧ painted c (any_of i f) m m1)).
  - exists m. split; [done|]. apply painted_none.
  - intros i s Hi (m1&->&Hp). apply Hbody; [lia|]. intros m2 Hp2. exists m2. split; [done|].
    eapply painted_ext; [|exact (painted_then _ _ _ _ _ _ Hp Hp2)]. intros a. by rewrite any_of_succ by lia.
  - intros s (m1&->&Hp). rewrite Z.add_0_l in Hp. by apply HQ.
Qed.

(** A grey pixel. *)
Lemma wp_grey_pixel x y c v m (Q : unit → world vesa → Prop) : vesa_ok v → is_u8 c →
  0 <= x < _width v → 0 <= y < _height v →
  (∀ m', painted c (pixel_byte v x y) m m' → Q () (World m' v)) → wp (d_vesa_draw_pixel x y c c c) Q (World m v).
Proof.
  intros Hv Hc Hx Hy HQ. destruct (draw_pixel_ok x y c c c v m Hv Hx Hy Hc Hc Hc) as (m'&Hrun&[Hb Ho]&_).
  apply wp_done. exists (), (World m' v). split; [done|]. apply HQ. intros a. unfold pixel_byte.
  set (p := pixel_address v x y) in *. destruct (Z.leb_spec p a); cbn [andb]; [destruct (Z.ltb_spec a (p + 3))|].
  - replace a with (p + Z.of_nat (Z.to_nat (a - p))) by lia. apply Hb.
    assert (a - p = 0 ∨ a - p = 1 ∨ a - p = 2) as [->|[->| ->]] by lia; done.
  - apply Ho. cbn [length]. lia.
  - apply Ho. cbn [length]. lia.
Qed.

Lemma any_of_true n f a : any_of n f a = true ↔ ∃ i, 0 <= i < n ∧ f i a = true.
Proof.
  unfold any_of. rewrite existsb_exists. split; intros (i&Hi&Hf); exists i; (split; [|done]).
  - by apply list_elem_of_In, elem_of_seqZ in Hi.
  - apply list_elem_of_In, elem_of_seqZ. lia.
Qed.

Lemma land_bit x n : 0 <= n → negb (Z.land x (Z.shiftl 1 n) =? 0) = Z.testbit x n.
Proof.
  intros Hn. rewrite Z.shiftl_1_l. destruct (Z.testbit x n) eqn:Hb.
  - apply negb_true_iff, Z.eqb_neq. intros E.
    assert (Z.testbit (Z.land x (2 ^ n)) n = true) as Ht by (by rewrite Z.land_spec, Hb, Z.pow2_bits_true).
    by rewrite E, Z.bits_0 in Ht.
  - apply negb_false_iff, Z.eqb_eq. apply Z.bits_inj_0. intros i. rewrite Z.land_spec, Z.pow2_bits_eqb by done.
    destruct (Z.eqb_spec n i) as [<-|]; [by rewrite Hb|by rewrite andb_false_r].
Qed.

Lemma wp_byte_bit_get byte bit (Q : bool → world vesa → Prop) w : 0 <= bit < 8 → Q (Z.testbit byte bit) w →
  wp (byte_bit_get byte bit) Q w.
Proof.
  intros Hb HQ. unfold byte_bit_get. wp_step. wp_step; [bsimp; lia|]. wp_step.
  rewrite land_bit by lia. exact HQ.
Qed.

(** A line of eight pixels, drawn where its byte has a bit. *)
Lemma wp_paint_line x0 y byte c v m (body : Z → VM unit) (Q : unit → world vesa → Prop) : vesa_ok v → is_u8 c →
  0 <= x0 → x0 + 8 <= _width v → 0 <= y < _height v →
  (∀ i, 0 <= i < 8 → body i = (on ← byte_bit_get byte (7 - i); if on : bool then d_vesa_draw_pixel (x0 + i) y c c c else mret ())) →
  (∀ m', painted c (any_of 8 (λ i a, Z.testbit byte (7 - i) && pixel_byte v (x0 + i) y a)) m m' → Q () (World m' v)) →
  wp (for_n 8 0 body) Q (World m v).
Proof.
  intros Hv Hc Hx0 Hx Hy Hbody HQ. apply (wp_paint_loop c 8 (λ i a, Z.testbit byte (7 - i) && pixel_byte v (x0 + i) y a)); [|exact HQ].
  intros i m1 R Hi HR. change (Z.of_nat 8) with 8 in Hi. rewrite Hbody by lia. wp_step. apply wp_byte_bit_get; [lia|].
  destruct (Z.testbit byte (7 - i)).
  - apply wp_grey_pixel; [done|done|lia|done|exact HR].
  - apply wp_ret, HR. apply painted_none.
Qed.

(** The pixel at line [ln], column [bit] of the glyph of [ch] is set. *)
Definition glyph_bit (ch ln bit : Z) : bool := Z.testbit (font_vga_8x16 !!! Z.to_nat (ch * 16 + ln)) (7 - bit).

(** The byte [a] belongs to a set pixel of [ch] in the cell at [row], [col]. *)
Definition lit (v : vesa) (row col ch a : Z) : bool :=
  any_of 16 (λ ln, any_of 8 (λ bit a, glyph_bit ch ln bit && pixel_byte v (col * 8 + bit) (row * 16 + ln) a)) a.

(** The cell lies inside the screen, and its coordinates are words. *)
Lemma cell_bounds v row col : vesa_ok v → 0 <= row < _height v / 16 → 0 <= col < _width v / 8 →
  row * 16 + 16 <= _height v ∧ col * 8 + 8 <= _width v ∧ _height v < 18446744073709551616 ∧ _width v < 18446744073709551616.
Proof.
  intros (Hd&Hw&Hh&Hb&He) Hr Hc. assert (row * 16 + 16 <= _height v ∧ col * 8 + 8 <= _width v) as [Hr' Hc'] by zlia.
  assert (0 <= _width v * _height v) by (apply Z.mul_nonneg_nonneg; lia).
  assert (_width v * _height v * 1 <= _width v * _height v * _depth v) by (apply Z.mul_le_mono_nonneg_l; lia).
  assert (1 * _height v <= _width v * _height v) by (apply Z.mul_le_mono_nonneg_r; lia).
  assert (_width v * 1 <= _width v * _height v) by (apply Z.mul_le_mono_nonneg_l; lia). lia.
Qed.

Lemma wp_video_draw_char row col ch v m (Q : unit → world vesa → Prop) : vesa_ok v → is_u8 ch →
  0 <= row < _height v / 16 → 0 <= col < _width v / 8 →
  (∀ m', painted 255 (lit v row col ch) m m' → Q () (World m' v)) → wp (video_draw_char row col ch) Q (World m v).
Proof.
  intros Hv [Hch0 Hch] Hr Hc HQ. destruct (cell_bounds v row col Hv Hr Hc) as (Hr'&Hc'&Hh&Hw).
  unfold video_draw_char, video_char_row_max, video_char_col_max, d_vesa_get_height, d_vesa_get_width.
  wp_step. wp_step. apply wp_static. cbn [w_st]. wp_step. wp_step. wp_step; [unfold udiv; bsimp; lia|].
  wp_step. wp_step. apply wp_static. cbn [w_st]. wp_step. wp_step. wp_step; [unfold udiv; bsimp; lia|].
  apply (wp_paint_loop 255 16 (λ ln, any_of 8 (λ bit a, glyph_bit ch ln bit && pixel_byte v (col * 8 + bit) (row * 16 + ln) a))); [|exact HQ].
  intros ln m1 R Hln HR. change (Z.of_nat 16) with 16 in Hln.
  assert ((ch * 16 + ln)%u64 = ch * 16 + ln) as -> by (u64_unfold; rewrite (u64_small (ch * 16)), u64_small by lia; done).
  wp_step. assert (font_vga_8x16 !! Z.to_nat (ch * 16 + ln) = Some (font_vga_8x16 !!! Z.to_nat (ch * 16 + ln))) as Hl.
  { apply list_lookup_lookup_total_lt. destruct fonts_agree as [_ ->]. lia. }
  eapply wp_array_get; [lia|exact Hl|]. unfold draw_glyph_line.
  apply (wp_paint_line (col * 8) (row * 16 + ln) (font_vga_8x16 !!! Z.to_nat (ch * 16 + ln)) 255); [done|unfold is_u8; lia|lia|lia|lia| |exact HR].
  intros i Hi. u64_unfold. rewrite (u64_small (8 - i)), (u64_small (8 - i - 1)) by lia.
  rewrite (u64_small (col * 8)), (u64_small (row * 16)) by lia. rewrite !u64_small by lia. by replace (8 - i - 1) with (7 - i) by lia.
Qed.

(** C30: [video_draw_char] of a cell inside the screen paints exactly the set
    pixels of the character's glyph white: all three bytes of each of them, and
    no other byte of the memory.  Outside the screen it fails an assertion. *)
Theorem video_draw_char_ok (row col ch : Z) (v : vesa) (m : memory) (Hv : vesa_ok v) (Hch : is_u8 ch)
    (Hrow : 0 <= row) (Hcol : 0 <= col) :
  if (row <? _height v / 16) && (col <? _width v / 8)
  then ∃ m', video_draw_char row col ch (World m v) = Done ((), World m' v) ∧ painted 255 (lit v row col ch) m m'
  else video_draw_char row col ch (World m v) = Assert.
Proof.
  destruct ((row <? _height v / 16) && (col <? _width v / 8)) eqn:Hin.
  - bsimp. assert (wp (video_draw_char row col ch) (λ _ w, ∃ m', w = World m' v ∧ painted 255 (lit v row col ch) m m') (World m v))
      as ([]&w&Hrun&m'&->&Hp)%wp_done by (apply wp_video_draw_char; [done|done|lia|lia|eauto]). eauto.
  - unfold video_draw_char. change (video_char_row_max (World m v)) with (Done ((_height v / 16)%u64, World m v)).
    rewrite (bind_done _ _ (World m v) (_height v / 16) (World m v)) by done. rewrite assert_then. unfold ultb.
    destruct (row <? _height v / 16); [|done]. cbn [andb] in Hin.
    rewrite (bind_done _ _ (World m v) (_width v / 8) (World m v)) by done. rewrite assert_then. by rewrite Hin.
Qed.

(* --------------------------------------------------------------------- *)
(** ** The menu bar *)

(** The byte [a] belongs to the tile at [x], [y]. *)
Definition tile_byte (v : vesa) (x y a : Z) : bool :=
  any_of 8 (λ ln, any_of 8 (λ i, pixel_byte v (x * 8 + i) (y * 8 + ln))) a.

Lemma tile_byte_true v x y a : tile_byte v x y a = true ↔
  ∃ px py, x * 8 <= px < x * 8 + 8 ∧ y * 8 <= py < y * 8 + 8 ∧ pixel_byte v px py a = true.
Proof.
  unfold tile_byte. rewrite any_of_true. setoid_rewrite any_of_true. split.
  - intros (ln&Hln&i&Hi&Hp). exists (x * 8 + i), (y * 8 + ln). split; [lia|]. split; [lia|done].
  - intros (px&py&Hx&Hy&Hp). exists (py - y * 8). split; [lia|]. exists (px - x * 8). split; [lia|].
    by replace (x * 8 + (px - x * 8)) with px by lia; replace (y * 8 + (py - y * 8)) with py by lia.
Qed.

Lemma wp_draw_tile x y c v m (Q : unit → world vesa → Prop) : vesa_ok v → is_u8 c →
  0 <= x → x * 8 + 8 <= _width v → 0 <= y → y * 8 + 8 <= _height v →
  _width v < 18446744073709551616 → _height v < 18446744073709551616 →
  (∀ m', painted c (tile_byte v x y) m m' → Q () (World m' v)) →
  wp (tui_screen_draw_tile_full x y (TuiColor c c c)) Q (World m v).
Proof.
  intros Hv Hc Hx Hxw Hy Hyh Hw Hh HQ. unfold tui_screen_draw_tile_full.
  apply (wp_paint_loop c 8 (λ ln, any_of 8 (λ i, pixel_byte v (x * 8 + i) (y * 8 + ln)))); [|exact HQ].
  intros ln m1 R Hln HR. change (Z.of_nat 8) with 8 in Hln. unfold tui_screen_draw_tile_line, _TILE_HEIGHT, _TILE_WIDTH.
  wp_step. wp_step; [bsimp; lia|]. cbn [red green blue].
  assert ((y * 8 + ln)%u64 = y * 8 + ln) as -> by (u64_unfold; rewrite (u64_small (y * 8)), u64_small by lia; done).
  apply (wp_paint_line (x * 8) (y * 8 + ln) 0xFF c); [done|done|lia|lia|lia| |].
  - intros i Hi. u64_unfold. rewrite (u64_small (8 - i)), (u64_small (8 - i - 1)) by lia.
    rewrite (u64_small (x * 8)) by lia. rewrite !u64_small by lia. by replace (8 - i - 1) with (7 - i) by lia.
  - intros m2 Hp. apply HR. eapply painted_ext; [|exact Hp]. intros a. unfold any_of.
    assert (∀ i, i ∈ seqZ 0 8 → Z.testbit 255 (7 - i) = true) as Hbits.
    { intros i Hi%elem_of_seqZ. by apply (forallb_seqZ (λ i, Z.testbit 255 (7 - i)) 8); [vm_compute; reflexivity|lia]. }
    induction (seqZ 0 8) as [|i l IH]; [done|]. cbn [existsb]. rewrite Hbits by left. cbn [andb].
    f_equal. apply IH. intros j Hj. apply Hbits. by right.
Qed.

(** The first sixteen lines of the screen, 1920 columns wide. *)
Definition menu_bar (v : vesa) (a : Z) : bool := any_of 16 (λ y, any_of 1920 (λ x, pixel_byte v x y)) a.

Lemma menu_bar_tiles v a : any_of 240 (λ i a, tile_byte v i 0 a || tile_byte v i 1 a) a = menu_bar v a.
Proof.
  apply eq_true_iff_eq. unfold menu_bar. rewrite !any_of_true. setoid_rewrite any_of_true.
  setoid_rewrite orb_true_iff. setoid_rewrite tile_byte_true. split.
  - intros (i&Hi&[(px&py&Hx&Hy&Hp)|(px&py&Hx&Hy&Hp)]); exists py; (split; [lia|]); exists px; (split; [lia|done]).
  - intros (y&Hy&x&Hx&Hp). exists (x / 8). split; [zlia|]. destruct (decide (y < 8)); [left|right];
      exists x, y; (split; [zlia|]); (split; [lia|done]).
Qed.

(** [tui_start] on a screen of at least 1920 x 1080 paints the menu bar,
    sixteen full lines of grey, and nothing else; on a smaller screen it fails
    an assertion. *)
Theorem tui_start_ok (v : vesa) (m : memory) (Hv : vesa_ok v) :
  if (240 <=? _width v / 8) && (135 <=? _height v / 8)
  then ∃ m', tui_start (World m v) = Done ((), World m' v) ∧ painted 187 (menu_bar v) m m'
  else tui_start (World m v) = Assert.
Proof.
  destruct ((240 <=? _width v / 8) && (135 <=? _height v / 8)) eqn:Hin.
  - bsimp. assert (0 <= 0 < _height v / 16 ∧ 0 <= 0 < _width v / 8) as [Hr Hc] by zlia.
    destruct (cell_bounds v 0 0 Hv Hr Hc) as (_&_&Hh&Hw).
    assert (wp tui_start (λ _ w, ∃ m', w = World m' v ∧ painted 187 (menu_bar v) m m') (World m v))
      as ([]&w&Hrun&m'&->&Hp)%wp_done; [|eauto].
    unfold tui_start, d_vesa_get_width, d_vesa_get_height, _TILE_X_MAX, _TILE_Y_MAX, _TILE_WIDTH, _TILE_HEIGHT.
    wp_step. apply wp_static. wp_step. wp_step; [u64_unfold; cbn [w_st]; bsimp; done|].
    wp_step. apply wp_static. wp_step. wp_step; [u64_unfold; cbn [w_st]; bsimp; done|].
    unfold tui_widget_menu_draw. cbn [start_x start_y menu_width menu_bg].
    apply (wp_paint_loop 187 (Z.to_nat 240) (λ i a, tile_byte v i 0 a || tile_byte v i 1 a)).
    + intros i m1 R Hi HR. change (Z.of_nat (Z.to_nat 240)) with 240 in Hi. unfold uadd. rewrite !u64_small by lia. rewrite Z.add_0_l.
      wp_step. apply wp_draw_tile; [done|unfold is_u8; lia|lia|zlia|lia|zlia|done|done|]. intros m2 Hp2.
      apply wp_draw_tile; [done|unfold is_u8; lia|lia|zlia|lia|zlia|done|done|]. intros m3 Hp3.
      apply HR. exact (painted_then _ _ _ _ _ _ Hp2 Hp3).
    + intros m' Hp. exists m'. split; [done|]. eapply painted_ext; [|exact Hp]. intros a. by rewrite <-menu_bar_tiles.
  - unfold tui_start. rewrite (bind_done _ _ (World m v) (_width v) (World m v)) by done. rewrite assert_then.
    unfold uleb, udiv, _TILE_X_MAX, _TILE_WIDTH. destruct (240 <=? _width v / 8); [|done]. cbn [andb] in Hin.
    rewrite (bind_done _ _ (World m v) (_height v) (World m v)) by done. rewrite assert_then.
    unfold uleb, udiv, _TILE_Y_MAX, _TILE_HEIGHT. by rewrite Hin.
Qed.

(* --------------------------------------------------------------------- *)
(** ** Instances *)

Definition full_hd : vesa := Vesa 0xfd000000 1920 1080 4.

Lemma full_hd_ok : vesa_ok full_hd.
Proof. unfold vesa_ok. cbn. lia. Qed.

Lemma video_draw_char_ok_witness : vesa_ok full_hd ∧ is_u8 65 ∧
  ∃ m', video_draw_char 66 239 65 (World ∅ full_hd) = Done ((), World m' full_hd) ∧ painted 255 (lit full_hd 66 239 65) ∅ m'.
Proof.
  split; [exact full_hd_ok|]. split; [unfold is_u8; lia|].
  exact (video_draw_char_ok 66 239 65 full_hd ∅ full_hd_ok ltac:(unfold is_u8; lia) ltac:(lia) ltac:(lia)).
Defined.

Lemma tui_start_ok_witness : vesa_ok full_hd ∧
  ∃ m', tui_start (World ∅ full_hd) = Done ((), World m' full_hd) ∧ painted 187 (menu_bar full_hd) ∅ m'.
Proof. split; [exact full_hd_ok|]. exact (tui_start_ok full_hd ∅ full_hd_ok). Defined.
