(* ===== verification/Ports.v ===== *)
(** Port-mapped I/O, src/drivers/drivers_port.c, and the devices that are
    driven through ports only: the serial line (drivers_serial.c) and the
    timer (drivers_time.c).

    [in] and [out] are observable: the state is the list of the accesses so
    far, the latest first.  What a device answers to an [in] is not code of
    the kernel: it is the parameter [answer], which may depend on everything
    that happened before. *)
From S2P Require Import Prelude Memory Strings.

Inductive io_event :=
| Out (port data : Z)
| In (port : Z).

#[export] Instance io_event_eq_dec : EqDecision io_event.
Proof. solve_decision. Defined.

Class Device := answer : list io_event → Z → Z.

Definition PORT_NO_PIC_MASTER_CMD : Z := 0x20.
Definition PORT_NO_PIC_MASTER_DATA : Z := 0x21.
Definition PORT_NO_PIC_SLAVE_CMD : Z := 0xA0.
Definition PORT_NO_PIC_SLAVE_DATA : Z := 0xa1.
Definition PORT_NO_KEYBOARD_CMD : Z := 0x64.
Definition PORT_NO_KEYBOARD_DATA : Z := 0x60.
Definition PORT_NO_VGA_CMD : Z := 0x3d4.
Definition PORT_NO_VGA_DATA : Z := 0x3d5.
Definition PORT_NO_VGA_STATUS_1 : Z := 0x3da.
Definition PORT_NO_VGA_ATTRIBUTE_WRITE : Z := 0x3c0.
Definition PORT_NO_VGA_ATTRIBUTE_READ : Z := 0x3c1.
Definition PORT_NO_SERIAL_COM1 : Z := 0x3f8.
Definition PORT_NO_SERIAL_COM1_DATA : Z := 0x03f8 + 1.
Definition PORT_NO_SERIAL_COM1_CMD_FIFO : Z := 0x03f8 + 2.
Definition PORT_NO_SERIAL_COM1_CMD_LINE : Z := 0x03f8 + 3.
Definition PORT_NO_SERIAL_COM1_CMD_MODEM : Z := 0x03f8 + 4.
Definition PORT_NO_SERIAL_COM1_STATUS_LINE : Z := 0x03f8 + 5.

(** A state with an access history next to its memory. *)
Class HasPorts (S : Type) := {
  ports_mem :: HasMemory S;
  io_of : S → list io_event;
  set_io : list io_event → S → S;
  io_of_set h s : io_of (set_io h s) = h;
  set_io_set h h' s : set_io h (set_io h' s) = set_io h s;
  set_io_id s : set_io (io_of s) s = s;
  mem_of_set_io h s : mem_of (set_io h s) = mem_of s;
  io_of_set_mem m s : io_of (set_mem m s) = io_of s;
}.

Section ports.
Context `{Device} {S : Type} `{HasPorts S}.

Definition port_write_byte (port data : Z) : M S unit :=
  modify (λ s, set_io (Out (u16 port) (u8 data) :: io_of s) s).

Definition port_read_byte (port : Z) : M S Z := λ s,
  Done (u8 (answer (io_of s) (u16 port)), set_io (In (u16 port) :: io_of s) s).

Lemma wp_port_write port data (Q : unit → S → Prop) s :
  Q () (set_io (Out (u16 port) (u8 data) :: io_of s) s) → wp (port_write_byte port data) Q s.
Proof. intros HQ. by apply wp_modify. Qed.

Lemma wp_port_read port (Q : Z → S → Prop) s :
  Q (u8 (answer (io_of s) (u16 port))) (set_io (In (u16 port) :: io_of s) s) → wp (port_read_byte port) Q s.
Proof. intros HQ. apply wp_done. by do 2 eexists. Qed.

(** [do status = port_read_byte(port); while (!done(status));] *)
Definition poll_until (fuel : nat) (port : Z) (done_ : Z → M S bool) : M S unit :=
  loop fuel (λ _,
    status ← port_read_byte port;
    ok ← done_ status;
    mret (if ok : bool then inr () else inl ())) ().

(** The history after [k] more reads of [port]. *)
Fixpoint polled (port : Z) (k : nat) (h : list io_event) : list io_event :=
  match k with
  | O => h
  | Datatypes.S k => polled port k (In (u16 port) :: h)
  end.

(** At the history [h] the device shows a status with [ok] at the latest at
    read number [n], counted from 0. *)
Fixpoint answers_within (port : Z) (ok : Z → bool) (n : nat) (h : list io_event) : Prop :=
  ok (u8 (answer h (u16 port))) = true ∨
  match n with
  | O => False
  | Datatypes.S n => answers_within port ok n (In (u16 port) :: h)
  end.

(** Read number [k] of [port], counted from 1, is the first that shows a status
    with [ok]. *)
Definition first_ready (port : Z) (ok : Z → bool) (k : nat) (h : list io_event) : Prop :=
  (0 < k)%nat ∧ ok (u8 (answer (polled port (k - 1) h) (u16 port))) = true ∧
  ∀ j, (j < k - 1)%nat → ok (u8 (answer (polled port j h) (u16 port))) = false.

Lemma first_ready_1 port ok h : ok (u8 (answer h (u16 port))) = true → first_ready port ok 1 h.
Proof. intros Hok. split; [lia|]. split; [exact Hok|]. intros j Hj. lia. Qed.

Lemma first_ready_next port ok k h : ok (u8 (answer h (u16 port))) = false →
  first_ready port ok k (In (u16 port) :: h) → first_ready port ok (Datatypes.S k) h.
Proof.
  intros Hno (Hk&Hok&Hj). split; [lia|]. destruct k as [|k]; [lia|]. cbn [Nat.sub] in *. rewrite Nat.sub_0_r in *.
  split; [exact Hok|]. intros [|j] Hlt; [exact Hno|]. apply Hj. lia.
Qed.

Lemma wp_poll_until n fuel port test (ok : Z → bool) s (Q : unit → S → Prop) :
  (∀ status (R : bool → S → Prop) t, 0 <= status < 256 → R (ok status) t → wp (test status) R t) →
  answers_within port ok n (io_of s) → (n < fuel)%nat →
  (∀ k, (k <= n + 1)%nat → first_ready port ok k (io_of s) → Q () (set_io (polled port k (io_of s)) s)) →
  wp (poll_until fuel port test) Q s.
Proof.
  intros Htest. revert fuel s. induction n as [|n IH]; intros fuel s Hans Hfuel HQ;
    (destruct fuel as [|fuel]; [lia|]); unfold poll_until; apply wp_loop_step;
    apply wp_bind, wp_port_read, wp_bind, Htest; try apply u8_range; apply wp_ret.
  - destruct Hans as [Hok|[]]. rewrite Hok. apply (HQ 1%nat); [lia|by apply first_ready_1].
  - destruct (ok _) eqn:Hok; [apply (HQ 1%nat); [lia|by apply first_ready_1]|].
    destruct Hans as [?|Hans]; [congruence|]. apply IH; rewrite ?io_of_set; [done|lia|].
    intros k Hk Hfirst. rewrite set_io_set. apply (HQ (Datatypes.S k)); [lia|by apply first_ready_next].
Qed.

End ports.

(* ===================================================================== *)
(** ** The serial line *)

Definition _SPEED_115200_BAUDS : Z := 1.

Section serial.
Context `{Device} {S : Type} `{HasPorts S}.

Definition serial_init : M S unit :=
  port_write_byte PORT_NO_SERIAL_COM1_CMD_LINE 0x80 ;;
  b ← byte_get _SPEED_115200_BAUDS 1;
  port_write_byte PORT_NO_SERIAL_COM1_DATA b ;;
  b ← byte_get _SPEED_115200_BAUDS 0;
  port_write_byte PORT_NO_SERIAL_COM1_DATA b ;;
  port_write_byte PORT_NO_SERIAL_COM1_CMD_LINE 0x03 ;;
  port_write_byte PORT_NO_SERIAL_COM1_CMD_FIFO 0xc7 ;;
  port_write_byte PORT_NO_SERIAL_COM1_CMD_MODEM 0x0B.

Definition _fifo_transmit_is_empty : M S bool :=
  data ← port_read_byte PORT_NO_SERIAL_COM1_STATUS_LINE;
  mret (negb (Z.land data 0x20 =? 0)).

(** [fuel] bounds the reads of the status register. *)
Definition _write_char (fuel : nat) (c : Z) : M S unit :=
  loop fuel (λ _,
    empty ← _fifo_transmit_is_empty;
    mret (if empty : bool then inr () else inl ())) () ;;
  port_write_byte PORT_NO_SERIAL_COM1 c.

Definition serial_write_str (fuel : nat) (str len : Z) : M S unit :=
  for_n (Z.to_nat len) 0 (λ i,
    c ← read 1 (str + i)%u64;
    _write_char fuel c).

(* --------------------------------------------------------------------- *)

Definition transmit_empty (status : Z) : bool := negb (Z.land status 0x20 =? 0).

(** The bytes sent on the line, the latest first. *)
Fixpoint sent (h : list io_event) : list Z :=
  match h with
  | [] => []
  | Out port data :: h => if port =? PORT_NO_SERIAL_COM1 then data :: sent h else sent h
  | In _ :: h => sent h
  end.

Lemma sent_polled port k h : sent (polled port k h) = sent h.
Proof. revert h. induction k as [|k IH]; intros h; [done|]. simpl. by rewrite IH. Qed.

Lemma wp_write_char n fuel c s (Q : unit → S → Prop) :
  answers_within PORT_NO_SERIAL_COM1_STATUS_LINE transmit_empty n (io_of s) → (n < fuel)%nat →
  (∀ h, sent h = u8 c :: sent (io_of s) → Q () (set_io h s)) →
  wp (_write_char fuel c) Q s.
Proof.
  intros Hans Hfuel HQ. unfold _write_char. apply wp_bind.
  assert (∀ R : unit → S → Prop, wp (poll_until fuel PORT_NO_SERIAL_COM1_STATUS_LINE
      (λ d, mret (negb (Z.land d 0x20 =? 0)))) R s →
    wp (loop fuel (λ _, empty ← _fifo_transmit_is_empty; mret (if empty : bool then inr () else inl ())) ()) R s)
    as Hloop.
  { intros R HR. unfold poll_until, _fifo_transmit_is_empty in *. exact HR. }
  apply Hloop. eapply (wp_poll_until n _ _ _ transmit_empty); [|done|done|].
  - intros st R t _ HR. by apply wp_ret.
  - intros k Hk _. apply wp_port_write. rewrite io_of_set, set_io_set. apply HQ.
    cbn [sent]. by rewrite sent_polled.
Qed.

Lemma serial_str_loop n fuel str len k bytes s (Q : unit → S → Prop) :
  (∀ h, answers_within PORT_NO_SERIAL_COM1_STATUS_LINE transmit_empty n h) → (n < fuel)%nat →
  0 <= str → 0 <= k → str + k + Z.of_nat (length bytes) <= 18446744073709551616 →
  len = length bytes → bytes_at (mem_of s) (str + k) bytes →
  (∀ h, sent h = reverse bytes ++ sent (io_of s) → Q () (set_io h s)) →
  wp (for_n len k (λ i, c ← read 1 (str + i)%u64; _write_char fuel c)) Q s.
Proof.
  intros Hans Hfuel Hstr. revert len k s. induction bytes as [|b bytes IH]; intros len k s Hk Hend -> Hb HQ.
  - apply wp_ret. rewrite <-(set_io_id s). by apply HQ.
  - cbn [length for_n]. cbn [length] in Hend. apply bytes_at_cons in Hb as [Hb1 Hb2].
    apply wp_bind, wp_bind, wp_read. unfold uadd. rewrite u64_small, load_1, Hb1 by lia.
    eapply wp_write_char; [apply Hans|done|]. intros h Hh.
    replace (str + k + 1) with (str + (k + 1)) in Hb2 by lia.
    apply IH; [lia|lia|done|by rewrite mem_of_set_io|].
    intros h' Hh'. rewrite set_io_set, io_of_set in *. apply HQ.
    pose proof (load8_range (mem_of s) (str + k)) as Hr. rewrite Hb1 in Hr.
    rewrite Hh', Hh, u8_small by done. rewrite reverse_cons. by rewrite <-app_assoc.
Qed.

(** Liveness of the serial line.  When the device empties its transmit
    register after at most [n] reads of the status, whatever happened before,
    [serial_write_str] returns and the line carries exactly the bytes of the
    string, in order; the memory is unchanged. *)
Theorem serial_write_ok (n fuel : nat) (str : Z) (bytes : list Z) (s : S)
    (Hans : ∀ h, answers_within PORT_NO_SERIAL_COM1_STATUS_LINE transmit_empty n h) (Hfuel : (n < fuel)%nat)
    (Hstr : 0 <= str) (Hend : str + Z.of_nat (length bytes) <= 18446744073709551616)
    (Hb : bytes_at (mem_of s) str bytes) :
  wp (serial_write_str fuel str (Z.of_nat (length bytes))) (λ _ s',
    sent (io_of s') = reverse bytes ++ sent (io_of s) ∧ mem_of s' = mem_of s) s.
Proof.
  unfold serial_write_str. rewrite Nat2Z.id.
  eapply serial_str_loop; [done|done|done|done|by rewrite Z.add_0_r|done|by rewrite Z.add_0_r|].
  intros h Hh. by rewrite io_of_set, mem_of_set_io.
Qed.

End serial.

(* ===================================================================== *)
(** ** A machine with nothing but ports and memory *)

#[export] Instance world_io_ports : HasPorts (world (list io_event)).
Proof.
  refine {| ports_mem := world_has_memory; io_of := w_st; set_io h w := World (w_mem w) h |};
    try done; by intros [].
Defined.

(** A line that needs one read before it is ready. *)
Definition slow_line : Device := λ h _, match h with In _ :: _ => 0x60 | _ => 0x40 end.

Lemma serial_write_ok_witness :
  let w := World (<[8192 := 72]> (<[8193 := 105]> ∅)) [] in
  wp (@serial_write_str slow_line _ world_io_ports 2 8192 2) (λ _ w', sent (w_st w') = [105; 72] ∧ w_mem w' = w_mem w) w.
Proof.
  refine (@serial_write_ok slow_line _ world_io_ports 1 2 8192 [72; 105] (World _ []) _ _ _ _ _).
  - intros [|[] h]; vm_compute; auto.
  - lia.
  - lia.
  - simpl. lia.
  - intros [|[|i]] c; [..|done]; by intros [= <-].
Defined.
