(* ===== verification/Interrupts.v ===== *)
(** Interrupts, src/interrupts/interrupts.c: the descriptor table, the
    controller set-up, and the dispatch of interrupt requests to registered
    handlers.

    The entry stubs of the 256 vectors are assembly: their addresses are
    parameters, as are the places where the linker and the stack put the
    table, the message texts and the local buffers.  [run] is the C function
    behind a registered handler pointer. *)
From S2P Require Import Prelude Memory Strings Ports.

Inductive idt_gate_type_t := IDT_GATE_TYPE_INTERRUPT | IDT_GATE_TYPE_TRAP.

Definition IDT_GATE_LEN : Z := 16.
Definition IDT_GATE_COUNT : Z := 256.
Definition GDT_CODE_SEGMENT_OFFSET : Z := 0x08.
Definition IRQ_HANDLER_BASE : Z := 32.
Definition INTR_ID_IRQ_TIME : Z := 32.
Definition INTR_ID_IRQ_KEYBOARD : Z := 33.
Definition INTR_ID_MAX : Z := 40.

Class IntrLink := {
  _idt : Z;
  isr : Z → Z;           (* isr0 .. isr31, isr37 .. isr255 *)
  irq : Z → Z;           (* irq0 .. irq4 *)
  idt_register : Z;      (* local of _intr_load_idt_register *)
  msg : Z;               (* local of the two handlers *)
  text_isr : Z;          (* "TODO: intr_isr_handler, id = " *)
  text_irq : Z;          (* "Unhandled IRQ, id: " *)
}.

(** The static variables and the CPU and port state they go with: [handlers]
    (0 is NULL), the IDT register, the interrupt flag, the port accesses. *)
Record intr := Intr {
  handlers : list Z;
  idtr : Z * Z;
  irq_enabled : bool;
  intr_io : list io_event;
}.

Definition set_handlers (l : list Z) (s : intr) : intr := Intr l (idtr s) (irq_enabled s) (intr_io s).
Definition set_idtr (r : Z * Z) (s : intr) : intr := Intr (handlers s) r (irq_enabled s) (intr_io s).
Definition set_irq_enabled (b : bool) (s : intr) : intr := Intr (handlers s) (idtr s) b (intr_io s).
Definition set_intr_io (h : list io_event) (s : intr) : intr := Intr (handlers s) (idtr s) (irq_enabled s) h.

Abbreviation IM := (M (world intr)).

#[export] Instance intr_ports : HasPorts (world intr).
Proof.
  refine {| ports_mem := world_has_memory; io_of w := intr_io (w_st w);
    set_io h w := World (w_mem w) (set_intr_io h (w_st w)) |}; try done; by intros [? []].
Defined.

Section interrupts.
Context `{IntrLink} `{Device}.

(* ===================================================================== *)
(** ** The descriptor table *)

(** Returns the address of the gate. *)
Definition _idt_gate_encode (gate_idx : Z) (type : idt_gate_type_t) (handler : Z) : IM Z :=
  kernel_assert (gate_idx <? IDT_GATE_COUNT) ;;
  let gate := (_idt + gate_idx * IDT_GATE_LEN)%u64 in
  write 2 gate (u16 handler) ;;
  write 2 (gate + 2)%u64 GDT_CODE_SEGMENT_OFFSET ;;
  write 1 (gate + 4)%u64 0 ;;
  write 1 (gate + 5)%u64 (match type with IDT_GATE_TYPE_INTERRUPT => 0x8f | IDT_GATE_TYPE_TRAP => 0x8e end) ;;
  write 2 (gate + 6)%u64 (u16 (handler >> 16)%u64) ;;
  write 4 (gate + 8)%u64 (u32 (handler >> 32)%u64) ;;
  write 4 (gate + 12)%u64 0 ;;
  mret gate.

Definition _intr_init_pic_8259 : IM unit :=
  port_write_byte PORT_NO_PIC_MASTER_CMD 0x11 ;;
  port_write_byte PORT_NO_PIC_SLAVE_CMD 0x11 ;;
  port_write_byte PORT_NO_PIC_MASTER_DATA IRQ_HANDLER_BASE ;;
  port_write_byte PORT_NO_PIC_SLAVE_DATA (IRQ_HANDLER_BASE + 8) ;;
  port_write_byte PORT_NO_PIC_MASTER_DATA 0x04 ;;
  port_write_byte PORT_NO_PIC_SLAVE_DATA 0x02 ;;
  port_write_byte PORT_NO_PIC_MASTER_DATA 0x01 ;;
  port_write_byte PORT_NO_PIC_SLAVE_DATA 0x01 ;;
  port_write_byte PORT_NO_PIC_MASTER_DATA 0x00 ;;
  port_write_byte PORT_NO_PIC_SLAVE_DATA 0x00.

(** [_intr_init_idt] encodes the gates one by one: the exceptions 0 .. 31,
    the five interrupt requests, and the other vectors. *)
Definition init_exception_gates : IM unit :=
  for_n 32 0 (λ i, _idt_gate_encode i IDT_GATE_TYPE_INTERRUPT (isr i) ;; mret ()).
Definition init_irq_gates : IM unit :=
  for_n 5 0 (λ i, _idt_gate_encode (u8 (IRQ_HANDLER_BASE + i)) IDT_GATE_TYPE_INTERRUPT (irq i) ;; mret ()).
Definition init_other_gates : IM unit :=
  for_n 219 37 (λ i, _idt_gate_encode i IDT_GATE_TYPE_INTERRUPT (isr i) ;; mret ()).

Definition _intr_init_idt : IM unit :=
  init_exception_gates ;; init_irq_gates ;; init_other_gates.

(** [lidt] loads ten bytes: limit and base. *)
Definition lidt (p : Z) : IM unit :=
  limit ← read 2 p;
  base ← read 8 (p + 2)%u64;
  static_set (set_idtr (limit, base)).

Definition _intr_load_idt_register : IM unit :=
  write 2 idt_register (IDT_GATE_LEN * IDT_GATE_COUNT - 1) ;;
  write 8 (idt_register + 2)%u64 _idt ;;
  lidt idt_register.

Definition intr_init : IM unit :=
  _intr_init_idt ;;
  _intr_load_idt_register ;;
  _intr_init_pic_8259 ;;
  for_n (Z.to_nat IDT_GATE_COUNT) 0 (λ i,
    hs ← static handlers;
    hs ← array_set hs i NULL;
    static_set (set_handlers hs)).

Definition intr_irq_enable : IM unit := static_set (set_irq_enabled true).
Definition intr_irq_disable : IM unit := static_set (set_irq_enabled false).

(* ===================================================================== *)
(** ** Dispatch *)

Definition MSG_CAP : Z := 128.
Definition msg_fuel : nat := 128.

(** The message of an unexpected interrupt, composed in [msg]. *)
Definition isr_message (id : Z) : IM Z :=
  len ← str_len msg_fuel text_isr;
  n ← str_buf_marshal_str msg 0 MSG_CAP text_isr len;
  let msg_len := (0 + n)%u64 in
  n ← str_buf_marshal_uint msg msg_len MSG_CAP id;
  let msg_len := (msg_len + n)%u64 in
  n ← str_buf_marshal_terminator msg msg_len MSG_CAP;
  mret (msg_len + n)%u64.

Definition irq_message (id : Z) : IM Z :=
  len ← str_len msg_fuel text_irq;
  msg_len ← str_buf_marshal_str msg 0 MSG_CAP text_irq len;
  n ← str_buf_marshal_uint msg msg_len MSG_CAP id;
  let msg_len := (msg_len + n)%u64 in
  n ← str_buf_marshal_terminator msg msg_len MSG_CAP;
  mret (msg_len + n)%u64.

Definition intr_isr_handler (id stack_addr : Z) : IM unit :=
  kernel_assert (id <? INTR_ID_MAX) ;;
  isr_message id ≫= λ _, kernel_panic_at msg_fuel msg.

Section handler.
(** The function at a handler's address, called with (id, parameters). *)
Variable run : Z → Z → Z → IM unit.

(** The end-of-interrupt commands. *)
Definition end_of_interrupt (id : Z) : IM unit :=
  (if 40 <=? id then port_write_byte PORT_NO_PIC_SLAVE_CMD 0x20 else mret ()) ;;
  port_write_byte PORT_NO_PIC_MASTER_CMD 0x20.

Definition intr_irq_handler (id stack_addr : Z) : IM unit :=
  end_of_interrupt id ;;
  kernel_assert (id <? INTR_ID_MAX) ;;
  hs ← static handlers;
  hand ← array_get hs id;
  if hand =? NULL then irq_message id ≫= λ _, kernel_panic_at msg_fuel msg
  else run hand id stack_addr.

End handler.

Definition intr_handler_register (id handler : Z) : IM unit :=
  kernel_assert (id <? INTR_ID_MAX) ;;
  hs ← static handlers;
  old ← array_get hs id;
  kernel_assert (old =? NULL) ;;
  kernel_assert (negb (handler =? NULL)) ;;
  hs ← array_set hs id handler;
  static_set (set_handlers hs).

End interrupts.

(* ===================================================================== *)
(** ** Reference definitions *)

(** What the processor reads from a gate. *)
Record gate := Gate {
  g_offset : Z;
  g_selector : Z;
  g_ist : Z;
  g_trap : bool;    (* further interrupts stay enabled in the handler *)
  g_valid : bool;   (* the fixed bits of the type *)
  g_dpl : Z;
  g_present : bool;
}.

Definition gate_at (m : memory) (a : Z) : gate :=
  let attr := load 1 m (a + 5) in
  Gate (load 2 m a + 65536 * load 2 m (a + 6) + 4294967296 * load 4 m (a + 8)) (load 2 m (a + 2))
    (Z.land (load 1 m (a + 4)) 7) (Z.testbit attr 0)
    (Z.testbit attr 1 && Z.testbit attr 2 && Z.testbit attr 3 && negb (Z.testbit attr 4))
    (Z.land (Z.shiftr attr 5) 3) (Z.testbit attr 7).

Definition kernel_gate (type : idt_gate_type_t) (handler : Z) : gate :=
  Gate handler GDT_CODE_SEGMENT_OFFSET 0
    (match type with IDT_GATE_TYPE_INTERRUPT => true | IDT_GATE_TYPE_TRAP => false end) true 0 true.

(** The programming sequence that moves the controllers' requests to the
    vectors 32 .. 47 and unmasks them, the latest access first. *)
Definition pic_sequence : list io_event := reverse
  [Out 0x20 0x11; Out 0xA0 0x11; Out 0x21 32; Out 0xA1 40; Out 0x21 4; Out 0xA1 2;
   Out 0x21 1; Out 0xA1 1; Out 0x21 0; Out 0xA1 0].

Section proofs.
Context `{IntrLink} `{Device}.

(** Where the linker may put the table. *)
Definition idt_placed : Prop := 0 <= _idt ∧ _idt + 4096 <= 18446744073709551616.

Lemma gate_small i k : idt_placed → 0 <= i < 256 → 0 <= k <= 16 →
  (_idt + i * IDT_GATE_LEN)%u64 = _idt + 16 * i ∧
  (k < 16 → (Z.add _idt (16 * i)%Z + k)%u64 = _idt + 16 * i + k).
Proof.
  intros [H0' H1] Hi Hk. unfold IDT_GATE_LEN. u64_unfold. rewrite (u64_small (i * 16)) by lia.
  split; [rewrite u64_small; lia|]. intros ?. rewrite u64_small; lia.
Qed.

Lemma handler_split h : is_u64 h → u16 h + 65536 * u16 (h >> 16)%u64 + 4294967296 * u32 (h >> 32)%u64 = h.
Proof.
  unfold is_u64, ushr, u16, u32. intros Hh. rewrite !Z.shiftr_div_pow2 by lia.
  change (2 ^ 16) with 65536. change (2 ^ 32) with 4294967296. zlia.
Qed.

Lemma wp_gate_encode i type h s (Q : Z → world intr → Prop) :
  idt_placed → 0 <= i < 256 → is_u64 h →
  (∀ m', gate_at m' (_idt + 16 * i) = kernel_gate type h →
    (∀ a, a < _idt + 16 * i ∨ _idt + 16 * i + 16 <= a → load8 m' a = load8 (w_mem s) a) →
    Q (_idt + 16 * i) (World m' (w_st s))) →
  wp (_idt_gate_encode i type h) Q s.
Proof.
  intros Hp Hi Hh HQ. pose proof (λ k, gate_small i k Hp Hi) as Hg.
  unfold _idt_gate_encode. apply wp_bind, wp_assert; [unfold IDT_GATE_COUNT; bsimp; lia|].
  rewrite (proj1 (Hg 0 ltac:(lia))). 
  rewrite (proj2 (Hg 2 ltac:(lia)) ltac:(lia)), (proj2 (Hg 4 ltac:(lia)) ltac:(lia)), (proj2 (Hg 5 ltac:(lia)) ltac:(lia)),
    (proj2 (Hg 6 ltac:(lia)) ltac:(lia)), (proj2 (Hg 8 ltac:(lia)) ltac:(lia)), (proj2 (Hg 12 ltac:(lia)) ltac:(lia)).
  mem_steps. cbn [mem_of set_mem world_has_memory w_mem w_st]. apply HQ.
  - unfold gate_at, kernel_gate.
    assert (∀ x, 0 <= u16 x < 65536) as B16 by (intros; apply Z.mod_pos_bound; lia).
    assert (∀ x, 0 <= u32 x < 4294967296) as B32 by (intros; apply Z.mod_pos_bound; lia).
    set (m := store 4 (_idt + 16 * i + 12) 0 _).
    assert (load 2 m (_idt + 16 * i) = u16 h) as ->.
    { subst m. rewrite !load_store_ne by lia. apply load_store_small, B16. }
    assert (load 2 m (_idt + 16 * i + 2) = 8) as ->.
    { subst m. rewrite !load_store_ne by lia. by apply load_store_small. }
    assert (load 1 m (_idt + 16 * i + 4) = 0) as ->.
    { subst m. rewrite !load_store_ne by lia. by apply load_store_small. }
    assert (load 1 m (_idt + 16 * i + 5) = match type with IDT_GATE_TYPE_INTERRUPT => 0x8f | IDT_GATE_TYPE_TRAP => 0x8e end) as ->.
    { subst m. rewrite !load_store_ne by lia. apply load_store_small. by destruct type. }
    assert (load 2 m (_idt + 16 * i + 6) = u16 (h >> 16)%u64) as ->.
    { subst m. rewrite !load_store_ne by lia. apply load_store_small, B16. }
    assert (load 4 m (_idt + 16 * i + 8) = u32 (h >> 32)%u64) as ->.
    { subst m. rewrite !load_store_ne by lia. apply load_store_small, B32. }
    rewrite (handler_split h Hh). by destruct type.
  - intros a Ha. by rewrite !load8_store_ne by lia.
Qed.

(** C28: encoding a gate is inverse to what the processor decodes.  Whatever
    the 64-bit handler address, the gate written for it is a present, valid
    ring-0 gate of the kernel's code segment that leads to that address, and
    the other gates stay.  Its kind is the opposite of the name:
    [IDT_GATE_TYPE_INTERRUPT] encodes a trap gate. *)
Theorem idt_gate_roundtrip (i : Z) (type : idt_gate_type_t) (handler : Z) (s : world intr)
    (Hp : idt_placed) (Hi : 0 <= i < IDT_GATE_COUNT) (Hh : is_u64 handler) :
  wp (_idt_gate_encode i type handler) (λ a s',
    a = _idt + 16 * i ∧ gate_at (w_mem s') a = kernel_gate type handler ∧ w_st s' = w_st s ∧
    ∀ j, 0 <= j < IDT_GATE_COUNT → j ≠ i → gate_at (w_mem s') (_idt + 16 * j) = gate_at (w_mem s) (_idt + 16 * j)) s.
Proof.
  unfold IDT_GATE_COUNT in *. apply wp_gate_encode; [done..|]. intros m' Hg Hout. cbn [w_mem w_st].
  split; [done|]. split; [done|]. split; [done|]. intros j Hj Hne. unfold gate_at.
  assert (∀ n k, 0 <= k → k + Z.of_nat n <= 16 → load n m' (_idt + 16 * j + k) = load n (w_mem s) (_idt + 16 * j + k)) as Hl.
  { intros n k Hk Hn. apply load_agree. intros a Ha. apply Hout. lia. }
  rewrite !Hl by lia. pose proof (Hl 2%nat 0 ltac:(lia) ltac:(lia)) as H0'. rewrite Z.add_0_r in H0'. by rewrite H0'.
Qed.

(** The stub of a vector. *)
Definition stub (v : Z) : Z := if (32 <=? v) && (v <? 37) then irq (v - 32) else isr v.

(** The gates of the vectors below [k] lead to their stubs. *)
Definition gates_below (k : Z) (m : memory) : Prop :=
  ∀ v, 0 <= v < k → gate_at m (_idt + 16 * v) = kernel_gate IDT_GATE_TYPE_INTERRUPT (stub v).

Definition stubs_ok : Prop := (∀ v, is_u64 (isr v)) ∧ (∀ v, is_u64 (irq v)).

Lemma gate_at_agree m m' a : (∀ b, a <= b < a + 16 → load8 m' b = load8 m b) → gate_at m' a = gate_at m a.
Proof.
  intros Hag. unfold gate_at.
  assert (∀ n k, 0 <= k → k + Z.of_nat n <= 16 → load n m' (a + k) = load n m (a + k)) as Hl.
  { intros n k Hk Hn. apply load_agree. intros b Hb. apply Hag. lia. }
  rewrite !Hl by lia. pose proof (Hl 2%nat 0 ltac:(lia) ltac:(lia)) as H0'. rewrite Z.add_0_r in H0'. by rewrite H0'.
Qed.

(** A run of gates. *)
Lemma wp_init_gates n lo (idx h : Z → Z) s0 s (Q : unit → world intr → Prop) :
  idt_placed → stubs_ok → 0 <= lo → ∀ k0, 0 <= k0 → k0 + Z.of_nat n <= 256 →
  (∀ i, lo <= i < lo + Z.of_nat n → idx i = k0 + (i - lo) ∧ h i = stub (k0 + (i - lo))) →
  gates_below k0 (w_mem s) → w_st s = w_st s0 →
  (∀ a, a < _idt ∨ _idt + 4096 <= a → load8 (w_mem s) a = load8 (w_mem s0) a) →
  (∀ s', gates_below (k0 + Z.of_nat n) (w_mem s') → w_st s' = w_st s0 →
    (∀ a, a < _idt ∨ _idt + 4096 <= a → load8 (w_mem s') a = load8 (w_mem s0) a) → Q () s') →
  wp (for_n n lo (λ i, _idt_gate_encode (idx i) IDT_GATE_TYPE_INTERRUPT (h i) ;; mret ())) Q s.
Proof.
  intros Hp [Hs1 Hs2] Hlo k0 Hk0 Hk Hidx Hg Hst Hout HQ.
  apply (wp_for_n (λ i s', gates_below (k0 + (i - lo)) (w_mem s') ∧ w_st s' = w_st s0 ∧
    ∀ a, a < _idt ∨ _idt + 4096 <= a → load8 (w_mem s') a = load8 (w_mem s0) a)).
  - rewrite Z.sub_diag, Z.add_0_r. done.
  - intros i s' Hi (Hg'&Hst'&Hout'). destruct (Hidx i Hi) as [-> ->].
    apply wp_bind, wp_gate_encode; [done|lia| |].
    { unfold stub. by destruct (_ && _). }
    intros m' Hgm Hom. apply wp_ret. split; [|split].
    + intros v Hv. cbn [w_mem]. destruct (decide (v = k0 + (i - lo))) as [->|Hne]; [done|].
      rewrite (gate_at_agree (w_mem s')); [apply Hg'; lia|]. intros b Hb. apply Hom. lia.
    + done.
    + intros a Ha. cbn [w_mem]. rewrite Hom by lia. by apply Hout'.
  - intros s' (?&?&?). apply HQ; [|done|done]. by replace (k0 + Z.of_nat n) with (k0 + (lo + Z.of_nat n - lo)) by lia.
Qed.

(** A local buffer away from the table. *)
Definition buffer_placed (p len : Z) : Prop :=
  0 <= p ∧ p + len <= 18446744073709551616 ∧ (p + len <= _idt ∨ _idt + 4096 <= p).

Lemma wp_init_idt s (Q : unit → world intr → Prop) : idt_placed → stubs_ok →
  (∀ s', gates_below 256 (w_mem s') → w_st s' = w_st s →
    (∀ a, a < _idt ∨ _idt + 4096 <= a → load8 (w_mem s') a = load8 (w_mem s) a) → Q () s') →
  wp _intr_init_idt Q s.
Proof.
  intros Hp Hs HQ. unfold _intr_init_idt, init_exception_gates, init_irq_gates, init_other_gates.
  apply wp_bind, (wp_init_gates 32 0 (λ i, i) isr s) with (k0 := 0); try done.
  { intros i Hi. split; [lia|]. unfold stub. replace (0 + (i - 0)) with i by lia.
    by rewrite (proj2 (Z.leb_gt 32 i)) by lia. }
  { intros v Hv. lia. }
  intros s1 Hg1 Hst1 Ho1.
  apply wp_bind, (wp_init_gates 5 0 (λ i, u8 (IRQ_HANDLER_BASE + i)) irq s) with (k0 := 32); try done.
  { intros i Hi. unfold IRQ_HANDLER_BASE. rewrite u8_small by lia. split; [lia|]. unfold stub.
    rewrite (proj2 (Z.leb_le 32 _)), (proj2 (Z.ltb_lt _ 37)) by lia. simpl. f_equal. lia. }
  intros s2 Hg2 Hst2 Ho2.
  apply (wp_init_gates 219 37 (λ i, i) isr s) with (k0 := 37); try done.
  intros i Hi. split; [lia|]. unfold stub. replace (37 + (i - 37)) with i by lia.
  rewrite (proj2 (Z.ltb_ge i 37)) by lia. by rewrite andb_false_r.
Qed.

Lemma wp_init_handlers s (Q : unit → world intr → Prop) : length (handlers (w_st s)) = 256%nat →
  Q () (World (w_mem s) (set_handlers (replicate 256 NULL) (w_st s))) →
  wp (for_n (Z.to_nat IDT_GATE_COUNT) 0 (λ i,
    hs ← static handlers; hs ← array_set hs i NULL; static_set (set_handlers hs))) Q s.
Proof.
  intros Hlen HQ. change (Z.to_nat IDT_GATE_COUNT) with 256%nat.
  apply (wp_for_n (λ i s', s' = World (w_mem s) (set_handlers
    (replicate (Z.to_nat i) NULL ++ drop (Z.to_nat i) (handlers (w_st s))) (w_st s)))).
  - simpl. by destruct s as [? []].
  - intros i s' Hi ->. apply wp_bind, wp_static. cbn [w_st handlers set_handlers].
    apply wp_bind, wp_array_set.
    + rewrite length_app, length_replicate, length_drop. lia.
    + apply wp_static_set. cbn [w_mem w_st]. f_equal. unfold set_handlers. cbn. f_equal.
      replace (Z.to_nat (i + 1)) with (Datatypes.S (Z.to_nat i)) by lia.
      destruct (lookup_lt_is_Some_2 (handlers (w_st s)) (Z.to_nat i) ltac:(lia)) as [h Hh].
      rewrite (drop_S _ _ _ Hh). rewrite insert_app_r_alt by (rewrite length_replicate; lia).
      rewrite length_replicate, Nat.sub_diag. cbn [list_insert insert].
      rewrite (replicate_S_end (Z.to_nat i)). by rewrite <-app_assoc.
  - intros s' ->. rewrite Z.add_0_l, Nat2Z.id, drop_ge, app_nil_r by lia. done.
Qed.

(** The interrupt system is initialised; [buf] is the 10-byte register image. *)
Record intr_ready (s s' : world intr) : Prop := {
  ir_gates : gates_below 256 (w_mem s');
  ir_static : w_st s' = set_handlers (replicate 256 NULL)
    (set_intr_io (pic_sequence ++ intr_io (w_st s)) (set_idtr (IDT_GATE_LEN * IDT_GATE_COUNT - 1, _idt) (w_st s)));
  ir_outside : ∀ a, a < _idt ∨ _idt + 4096 <= a → a < idt_register ∨ idt_register + 10 <= a →
    load8 (w_mem s') a = load8 (w_mem s) a;
}.

Lemma wp_intr_init (s : world intr) : idt_placed → stubs_ok → buffer_placed idt_register 10 →
  length (handlers (w_st s)) = 256%nat → wp intr_init (λ _ s', intr_ready s s') s.
Proof.
  intros Hp Hs (Hb0&Hb1&Hb2) Hlen. pose proof Hp as [Hp0 Hp1]. unfold intr_init.
  apply wp_bind, wp_init_idt; [done|done|]. intros s1 Hg Hst Ho1.
  apply wp_bind. unfold _intr_load_idt_register, lidt.
  assert ((idt_register + 2)%u64 = idt_register + 2) as -> by (unfold uadd; rewrite u64_small; lia).
  mem_steps. cbn [mem_of set_mem world_has_memory w_mem w_st]. apply wp_static_set. cbn [w_mem w_st].
  rewrite (load_store_ne 2 8) by lia. rewrite (load_store_small 2) by done. rewrite (load_store_small 8) by (simpl; lia).
  apply wp_bind. unfold _intr_init_pic_8259. do 9 apply wp_bind, wp_port_write. apply wp_port_write.
  apply wp_init_handlers; cbn [w_st w_mem set_io io_of intr_ports set_intr_io handlers set_idtr]; [by rewrite Hst|].
  split; cbn [w_mem w_st].
  - intros v Hv. rewrite (gate_at_agree (w_mem s1)); [by apply Hg|].
    intros b Hb. by rewrite !load8_store_ne by (simpl; lia).
  - rewrite Hst. done.
  - intros a Ha Hr. rewrite !load8_store_ne by (simpl; lia). by apply Ho1.
Qed.

(** C27: the initialised interrupt system.  [intr_init] returns; every one of
    the 256 vectors has a present ring-0 gate to its own stub, the table
    register covers exactly the table, no handler is registered, and the
    controllers were programmed to send the requests to vectors 32 .. 47. *)
Theorem intr_init_ok (s : world intr) (Hp : idt_placed) (Hs : stubs_ok)
    (Hbuf : buffer_placed idt_register 10) (Hlen : length (handlers (w_st s)) = 256%nat) :
  wp intr_init (λ _ s',
    (∀ v, 0 <= v < IDT_GATE_COUNT → gate_at (w_mem s') (_idt + 16 * v) = kernel_gate IDT_GATE_TYPE_INTERRUPT (stub v)) ∧
    idtr (w_st s') = (IDT_GATE_LEN * IDT_GATE_COUNT - 1, _idt) ∧
    handlers (w_st s') = replicate 256 NULL ∧
    intr_io (w_st s') = pic_sequence ++ intr_io (w_st s) ∧ irq_enabled (w_st s') = irq_enabled (w_st s)) s.
Proof.
  eapply wp_mono; [by apply wp_intr_init|]. intros _ s' [Hg Hst _]. rewrite Hst. by split_and!.
Qed.

(* ===================================================================== *)
(** ** Messages and dispatch *)

(** The text [l] stands at [text], away from the buffer [msg]. *)
Record text_placed (m : memory) (text : Z) (l : list Z) : Prop := {
  tp_bytes : bytes_at m text (l ++ [0]);
  tp_chars : Forall (λ c, is_u8 c ∧ c ≠ 0) l;
  tp_len : Z.of_nat (length l) < 100;
  tp_addr : 0 <= text ∧ text + Z.of_nat (length l) < 18446744073709551616;
  tp_msg : 0 <= msg ∧ msg + MSG_CAP < 18446744073709551616;
  tp_apart : text + Z.of_nat (length l) <= msg ∨ msg + MSG_CAP <= text;
}.

Lemma decimal_nonzero v : 0 <= v → Forall (λ c, c ≠ 0) (decimal v).
Proof.
  intros Hv. eapply list.Forall_impl; [by apply (decimal_fuel_digits 20)|].
  unfold CH_0. intros c Hc. simpl in Hc. lia.
Qed.

Lemma wp_text_uint text l id s (Q : Z → world intr → Prop) :
  text_placed (w_mem s) text l → is_u64 id →
  (∀ r m', bytes_at m' msg (l ++ decimal id ++ [0]) → Q r (World m' (w_st s))) →
  wp (len ← str_len msg_fuel text;
      n ← str_buf_marshal_str msg 0 MSG_CAP text len;
      k ← str_buf_marshal_uint msg n MSG_CAP id;
      j ← str_buf_marshal_terminator msg (n + k)%u64 MSG_CAP;
      mret (n + k + j)%u64) Q s.
Proof.
  intros [Hb Hc Hl [Ht0 Ht1] [Hm0 Hm1] Hap] Hid HQ. unfold MSG_CAP in *. unfold is_u64 in Hid.
  pose proof (decimal_length 20 id ltac:(lia) ltac:(lia)) as Hd. fold (decimal id) in Hd.
  assert (Forall (λ c, c ≠ 0) l) as Hnz by (eapply list.Forall_impl; [exact Hc|by intros ? [? ?]]).
  assert (Forall is_u8 l) as Hu8 by (eapply list.Forall_impl; [exact Hc|by intros ? [? ?]]).
  apply wp_bind, (wp_str_len _ _ l); [done|done|unfold msg_fuel; lia|lia|lia|].
  pose proof (proj1 (proj1 (bytes_at_app _ _ _ _) Hb)) as Hb1.
  apply wp_bind, wp_marshal_str; [done|done|lia|lia|lia|lia|lia|lia|lia|]. intros m1 Hw1.
  rewrite Z.add_0_r in Hw1. cbn [set_mem world_has_memory mem_of] in *.
  apply wp_bind, wp_marshal_uint; [done|lia|lia|lia|lia|]. intros m2 Hw2. cbn [set_mem world_has_memory mem_of w_mem w_st] in *.
  assert ((Z.of_nat (length l) + Z.of_nat (length (decimal id)))%u64 = Z.of_nat (length (l ++ decimal id))) as ->.
  { unfold uadd. rewrite u64_small by lia. rewrite length_app. lia. }
  pose proof (wrote_app _ _ _ _ _ _ Hw1 Hw2) as Hw12.
  assert (Z.of_nat (length (l ++ decimal id)) < 121) as Hlen12 by (rewrite length_app; lia).
  apply wp_bind. unfold str_buf_marshal_terminator.
  apply wp_bind, wp_assert; [u64_unfold; rewrite u64_small by lia; apply Z.ltb_lt; lia|].
  apply wp_bind. unfold uadd at 1. rewrite u64_small by lia.
  apply wp_write_byte; [done|]. intros m3 Hw3. cbn [set_mem world_has_memory mem_of w_mem w_st] in *.
  apply wp_ret, wp_ret. apply HQ.
  pose proof (wrote_app _ _ _ _ _ _ Hw12 Hw3) as [Hbytes _]. by rewrite <-app_assoc in Hbytes.
Qed.

(** The interrupt controllers have been told that request [id] is served. *)
Definition acknowledged (id : Z) (s : world intr) : world intr :=
  set_io (Out 0x20 0x20 :: (if 40 <=? id then Out 0xA0 0x20 :: io_of s else io_of s)) s.

Lemma end_of_interrupt_run id s : end_of_interrupt id s = Done ((), acknowledged id s).
Proof. unfold end_of_interrupt, acknowledged. by destruct (40 <=? id). Qed.

Lemma wp_register id h s (Q : unit → world intr → Prop) : 0 <= id < INTR_ID_MAX → h ≠ NULL →
  length (handlers (w_st s)) = 256%nat → handlers (w_st s) !! Z.to_nat id = Some NULL →
  Q () (World (w_mem s) (set_handlers (<[Z.to_nat id := h]> (handlers (w_st s))) (w_st s))) →
  wp (intr_handler_register id h) Q s.
Proof.
  unfold INTR_ID_MAX. intros Hid Hne Hlen Hnull HQ. unfold intr_handler_register, INTR_ID_MAX.
  apply wp_bind, wp_assert; [bsimp; lia|]. apply wp_bind, wp_static.
  apply wp_bind. eapply wp_array_get; [lia|exact Hnull|]. apply wp_bind, wp_assert; [done|].
  apply wp_bind, wp_assert; [by apply negb_true_iff, Z.eqb_neq|].
  apply wp_bind, wp_array_set; [lia|]. by apply wp_static_set.
Qed.

Lemma wp_dispatch run id stack h s (Q : unit → world intr → Prop) : 0 <= id < INTR_ID_MAX →
  handlers (w_st s) !! Z.to_nat id = Some h → h ≠ NULL →
  wp (run h id stack) Q (acknowledged id s) → wp (intr_irq_handler run id stack) Q s.
Proof.
  intros Hid Hh Hne HQ. unfold intr_irq_handler. apply wp_bind.
  assert (wp (end_of_interrupt id) (λ _ s', s' = acknowledged id s) s) as Hend.
  { apply wp_done. do 2 eexists. split; [apply end_of_interrupt_run|done]. }
  eapply wp_mono; [exact Hend|]. intros _ s' ->.
  apply wp_bind, wp_assert; [bsimp; lia|]. apply wp_bind, wp_static.
  apply wp_bind. eapply wp_array_get; [lia|exact Hh|]. by rewrite (proj2 (Z.eqb_neq _ _) Hne).
Qed.

(** C32: the dispatch of interrupt requests.  The controllers are acknowledged
    first, before the handler runs, although the comment in
    [intr_irq_handler] speaks of the end of the interrupt routine.  A request
    with a registered handler runs that handler on its number and the saved
    registers; a request without one panics with its number; a vector from 40
    on, which [intr_id_t] does not know, fails an assertion. *)
Theorem irq_dispatch (run : Z → Z → Z → IM unit) (id stack h : Z) (s : world intr)
    (Hid : 0 <= id) (Hh : id < INTR_ID_MAX → handlers (w_st s) !! Z.to_nat id = Some h)
    (Ht : text_placed (w_mem s) text_irq (bytes_of "Unhandled IRQ, id: ")) :
  (INTR_ID_MAX <= id → intr_irq_handler run id stack s = Assert) ∧
  (id < INTR_ID_MAX → h ≠ NULL → intr_irq_handler run id stack s = run h id stack (acknowledged id s)) ∧
  (id < INTR_ID_MAX → h = NULL → intr_irq_handler run id stack s =
    Panic (string_of_bytes (bytes_of "Unhandled IRQ, id: " ++ decimal id))).
Proof.
  unfold INTR_ID_MAX in *. unfold intr_irq_handler. rewrite (bind_done _ _ _ _ _ (end_of_interrupt_run id s)).
  unfold INTR_ID_MAX. set (s1 := acknowledged id s).
  assert (id < 40 → ∀ f : Z → IM unit, (kernel_assert (id <? 40) ;; hs ← static handlers; hand ← array_get hs id; f hand) s1
    = f h s1) as Hget.
  { intros Hlt f. rewrite (proj2 (Z.ltb_lt _ _) Hlt). unfold mbind, M_bind, kernel_assert, static, gets, array_get.
    rewrite (proj2 (Z.leb_le _ _) Hid). change (handlers (w_st s1)) with (handlers (w_st s)). by rewrite (Hh Hlt). }
  split; [|split].
  - intros Hge. by rewrite (proj2 (Z.ltb_ge _ _) Hge).
  - intros Hlt Hne. rewrite Hget by done. by rewrite (proj2 (Z.eqb_neq _ _) Hne).
  - intros Hlt ->. rewrite Hget by done. rewrite Z.eqb_refl.
    assert (is_u64 id) as Hid64 by (unfold is_u64; lia).
    assert (wp (irq_message id) (λ _ s', bytes_at (w_mem s') msg
      ((bytes_of "Unhandled IRQ, id: " ++ decimal id) ++ [0])) s1) as Hm.
    { apply (wp_text_uint text_irq (bytes_of "Unhandled IRQ, id: ")); [done|done|].
      intros r m' Hb. by rewrite <-app_assoc. }
    apply wp_done in Hm as (r&s2&Hr&Hb).
    destruct (tp_msg _ _ _ Ht) as [Hm0 Hm1]. unfold MSG_CAP in Hm1.
    pose proof (decimal_length 20 id ltac:(lia) ltac:(lia)) as Hd. fold (decimal id) in Hd.
    assert (length (bytes_of "Unhandled IRQ, id: ") = 19%nat) as Hl19 by reflexivity.
    eapply kernel_panic_at_run; [exact Hr|done| | |exact Hb|].
    + rewrite length_app, Hl19. lia.
    + rewrite length_app, Hl19. unfold msg_fuel. lia.
    + apply Forall_app. split; [by repeat constructor|]. by apply decimal_nonzero.
Qed.

(** Registering a handler.  It succeeds exactly for a known number without
    a handler; then the next request of that number runs the handler, and
    every other slot is as before. *)
Theorem register_ok (run : Z → Z → Z → IM unit) (id h : Z) (s : world intr)
    (Hid : 0 <= id) (Hlen : length (handlers (w_st s)) = 256%nat) :
  (id < INTR_ID_MAX ∧ handlers (w_st s) !! Z.to_nat id = Some NULL ∧ h ≠ NULL →
   wp (intr_handler_register id h) (λ _ s',
     (∀ stack, intr_irq_handler run id stack s' = run h id stack (acknowledged id s')) ∧
     (∀ j, j ≠ Z.to_nat id → handlers (w_st s') !! j = handlers (w_st s) !! j) ∧
     length (handlers (w_st s')) = 256%nat ∧ w_mem s' = w_mem s) s) ∧
  (¬ (id < INTR_ID_MAX ∧ handlers (w_st s) !! Z.to_nat id = Some NULL ∧ h ≠ NULL) →
   intr_handler_register id h s = Assert).
Proof.
  unfold INTR_ID_MAX. split.
  - intros (Hlt&Hnull&Hne). apply wp_register; [unfold INTR_ID_MAX; lia|done..|]. cbn [w_st w_mem handlers set_handlers].
    split; [|split; [|split; [by rewrite length_insert|done]]].
    + intros stack. unfold intr_irq_handler. rewrite (bind_done _ _ _ _ _ (end_of_interrupt_run id _)).
      unfold INTR_ID_MAX. rewrite (proj2 (Z.ltb_lt _ _) Hlt).
      unfold mbind, M_bind, kernel_assert, static, gets, array_get.
      rewrite (proj2 (Z.leb_le _ _) Hid). cbn [w_st acknowledged set_io intr_ports handlers set_intr_io set_handlers].
      rewrite list_lookup_insert_eq by lia. cbn [of_option mret M_ret].
      by rewrite (proj2 (Z.eqb_neq _ _) Hne).
    + intros j Hj. by apply list_lookup_insert_ne.
  - intros Hno. unfold intr_handler_register, INTR_ID_MAX, mbind, M_bind, kernel_assert, static, gets, array_get.
    destruct (Z.ltb_spec id 40) as [Hlt|Hge]; [|done]. rewrite (proj2 (Z.leb_le _ _) Hid).
    destruct (lookup_lt_is_Some_2 (handlers (w_st s)) (Z.to_nat id) ltac:(lia)) as [o Ho]. rewrite Ho.
    cbn [of_option mret M_ret]. destruct (Z.eqb_spec o NULL) as [->|]; [|done].
    destruct (Z.eqb_spec h NULL) as [->|Hne]; [done|]. by destruct Hno.
Qed.

End proofs.

(* ===================================================================== *)
(** ** A sample machine *)

Definition sample_intr_link : IntrLink := {|
  _idt := 0x10000;
  isr v := 0x100000 + 16 * (v `mod` 256);
  irq v := 0x110000 + 16 * (v `mod` 256);
  idt_register := 0x20000;
  msg := 0x20100;
  text_isr := 0x30000;
  text_irq := 0x30100;
|}.

Definition silent : Device := λ _ _, 0.

Definition sample_intr : world intr :=
  World (poke 0x30100 (bytes_of "Unhandled IRQ, id: " ++ [0]) ∅) (Intr (replicate 256 NULL) (0, 0) false []).

Lemma sample_stubs : @stubs_ok sample_intr_link.
Proof. split; intros v; unfold is_u64; cbn [isr irq sample_intr_link]; zlia. Qed.

Lemma sample_text : @text_placed sample_intr_link (w_mem sample_intr) 0x30100 (bytes_of "Unhandled IRQ, id: ").
Proof.
  split.
  - apply peek_bytes_at. by vm_compute.
  - repeat constructor; done.
  - done.
  - done.
  - done.
  - by right.
Qed.

Lemma idt_gate_roundtrip_witness :
  wp (@_idt_gate_encode sample_intr_link 33 IDT_GATE_TYPE_INTERRUPT 0xFFFF800012345678) (λ a s',
    a = 0x10000 + 16 * 33 ∧ gate_at (w_mem s') a = kernel_gate IDT_GATE_TYPE_INTERRUPT 0xFFFF800012345678 ∧
    w_st s' = w_st sample_intr ∧
    ∀ j, 0 <= j < 256 → j ≠ 33 → gate_at (w_mem s') (0x10000 + 16 * j) = gate_at (w_mem sample_intr) (0x10000 + 16 * j)) sample_intr.
Proof.
  refine (@idt_gate_roundtrip sample_intr_link 33 IDT_GATE_TYPE_INTERRUPT 0xFFFF800012345678 sample_intr _ _ _); done.
Defined.

Lemma intr_init_ok_witness :
  wp (@intr_init sample_intr_link) (λ _ s',
    (∀ v, 0 <= v < 256 → gate_at (w_mem s') (0x10000 + 16 * v) =
      kernel_gate IDT_GATE_TYPE_INTERRUPT (@stub sample_intr_link v)) ∧
    idtr (w_st s') = (4095, 0x10000) ∧ handlers (w_st s') = replicate 256 NULL ∧
    intr_io (w_st s') = pic_sequence ++ [] ∧ irq_enabled (w_st s') = false) sample_intr.
Proof.
  refine (@intr_init_ok sample_intr_link sample_intr _ sample_stubs _ _).
  - done.
  - split; [done|]. split; [done|]. by right.
  - done.
Defined.

Definition no_op (h id stack : Z) : IM unit := mret ().

Lemma irq_dispatch_witness :
  @intr_irq_handler sample_intr_link no_op 34 0 sample_intr = Panic "Unhandled IRQ, id: 34".
Proof.
  refine (proj2 (proj2 (@irq_dispatch sample_intr_link no_op 34 0 NULL sample_intr _ _ sample_text)) _ _); done.
Defined.

Lemma register_ok_witness :
  wp (intr_handler_register 33 0x105000) (λ _ s',
     (∀ stack, @intr_irq_handler sample_intr_link no_op 33 stack s' = no_op 0x105000 33 stack (acknowledged 33 s')) ∧
     (∀ j, j ≠ 33%nat → handlers (w_st s') !! j = handlers (w_st sample_intr) !! j) ∧
     length (handlers (w_st s')) = 256%nat ∧ w_mem s' = w_mem sample_intr) sample_intr.
Proof.
  refine (proj1 (@register_ok sample_intr_link no_op 33 0x105000 sample_intr _ _) _); done.
Defined.
