(* ===== verification/Screen.v ===== *)
(** The VGA text screen, src/drivers/drivers_screen.c: 25 rows of 80 cells of
    two bytes, a character and an attribute, in video memory.

    Theorems: a cell operation changes that cell's character, foreground or
    background only and rejects a position off the screen; a string is
    written clipped to its row; cleaning reaches every cell. *)
From S2P Require Import Prelude Memory Strings Ports.

Inductive screen_color :=
| SCREEN_COLOR_BLACK | SCREEN_COLOR_BLUE | SCREEN_COLOR_GREEN | SCREEN_COLOR_CYAN
| SCREEN_COLOR_RED | SCREEN_COLOR_MAGENTA | SCREEN_COLOR_BROWN | SCREEN_COLOR_LIGHT_GREY
| SCREEN_COLOR_DARK_GREY | SCREEN_COLOR_LIGHT_BLUE | SCREEN_COLOR_LIGHT_GREEN | SCREEN_COLOR_LIGHT_CYAN
| SCREEN_COLOR_LIGHT_RED | SCREEN_COLOR_LIGHT_MAGENTA | SCREEN_COLOR_LIGHT_BROWN | SCREEN_COLOR_WHITE.

(** The value of the enumerator. *)
Definition color_code (c : screen_color) : Z :=
  match c with
  | SCREEN_COLOR_BLACK => 0 | SCREEN_COLOR_BLUE => 1 | SCREEN_COLOR_GREEN => 2 | SCREEN_COLOR_CYAN => 3
  | SCREEN_COLOR_RED => 4 | SCREEN_COLOR_MAGENTA => 5 | SCREEN_COLOR_BROWN => 6 | SCREEN_COLOR_LIGHT_GREY => 7
  | SCREEN_COLOR_DARK_GREY => 8 | SCREEN_COLOR_LIGHT_BLUE => 9 | SCREEN_COLOR_LIGHT_GREEN => 10
  | SCREEN_COLOR_LIGHT_CYAN => 11 | SCREEN_COLOR_LIGHT_RED => 12 | SCREEN_COLOR_LIGHT_MAGENTA => 13
  | SCREEN_COLOR_LIGHT_BROWN => 14 | SCREEN_COLOR_WHITE => 15
  end.

Definition SCREEN_WIDTH : Z := 80.
Definition SCREEN_HEIGHT : Z := 25.
Definition _video_buffer : Z := 0xB8000.
Definition _CHAR_NULL : Z := 0.

(* ===================================================================== *)
(** ** Cells *)

Section cells.
Context {S : Type} `{HasMemory S}.

Definition _offset_max : Z := 2 * SCREEN_WIDTH * SCREEN_HEIGHT.

Definition _offset_of_char (row col : Z) : M S Z :=
  kernel_assert (row <? SCREEN_HEIGHT) ;;
  kernel_assert (col <? SCREEN_WIDTH) ;;
  let offset := (2 * (row * SCREEN_WIDTH + col))%u64 in
  kernel_assert (offset + 1 <? _offset_max)%u64 ;;
  mret offset.

Definition _offset_of_attr (row col : Z) : M S Z :=
  off ← _offset_of_char row col;
  mret (off + 1)%u64.

Definition screen_set_attr_at (fg bg : screen_color) (row col : Z) : M S unit :=
  let fg_c := u8 (color_code fg) in
  let bg_c := u8 (color_code bg) in
  let cc := Z.lor fg_c (u8 (Z.shiftl bg_c 4)) in
  offset ← _offset_of_attr row col;
  write 1 (_video_buffer + offset)%u64 cc.

Definition screen_set_fg_at (fg : screen_color) (row col : Z) : M S unit :=
  let fg_c := u8 (color_code fg) in
  offset ← _offset_of_attr row col;
  attr ← read 1 (_video_buffer + offset)%u64;
  let attr := u8 (Z.lor (Z.land attr 0xf0) fg_c) in
  write 1 (_video_buffer + offset)%u64 attr.

Definition screen_set_bg_at (bg : screen_color) (row col : Z) : M S unit :=
  let cc := u8 (color_code bg) in
  offset ← _offset_of_attr row col;
  attr ← read 1 (_video_buffer + offset)%u64;
  let attr := u8 (Z.lor (Z.land attr 0x0f) (Z.shiftl cc 4)) in
  write 1 (_video_buffer + offset)%u64 attr.

Definition screen_write_at (c row col : Z) : M S unit :=
  offset ← _offset_of_char row col;
  write 1 (_video_buffer + offset)%u64 c.

Definition screen_clean_at (bg : screen_color) (row col : Z) : M S unit :=
  screen_write_at _CHAR_NULL row col ;;
  screen_set_bg_at bg row col.

Definition screen_box_thin_border_v_at (row col : Z) : M S unit := screen_write_at 179 row col.
Definition screen_box_thin_border_h_at (row col : Z) : M S unit := screen_write_at 196 row col.
Definition screen_box_thin_corner_ne_at (row col : Z) : M S unit := screen_write_at 191 row col.
Definition screen_box_thin_corner_sw_at (row col : Z) : M S unit := screen_write_at 192 row col.
Definition screen_box_thin_corner_se_at (row col : Z) : M S unit := screen_write_at 217 row col.
Definition screen_box_thin_corner_nw_at (row col : Z) : M S unit := screen_write_at 218 row col.

Definition screen_clean (bg : screen_color) : M S unit :=
  for_n (Z.to_nat SCREEN_HEIGHT) 0 (λ row,
    for_n (Z.to_nat SCREEN_WIDTH) 0 (λ col, screen_clean_at bg row col)).

(** At most 80 characters are written before [i + col] leaves the row. *)
Definition screen_write_str (str : Z) (fg bg : screen_color) (row col : Z) : M S unit :=
  loop 81 (λ i,
    if (i + col <? SCREEN_WIDTH)%u64 then
      c ← read 1 (str + i)%u64;
      if c =? 0 then mret (inr ())
      else screen_write_at c row (i + col)%u64 ;; mret (inl (i + 1)%u64)
    else mret (inr ())) 0.

(** [msg] is the local buffer. *)
Definition screen_write_uint (msg val : Z) (fg bg : screen_color) (row col : Z) : M S unit :=
  msg_ptr ← str_buf_marshal_uint msg 0 128 val;
  write 1 (msg + msg_ptr)%u64 0 ;;
  screen_write_str msg fg bg row col.

Definition screen_write_byte_hex (msg bytes len : Z) (fg bg : screen_color) (row col : Z) : M S unit :=
  n ← str_buf_marshal_bytes_in_hex msg 0 SCREEN_WIDTH bytes len;
  let msg_len := (0 + n)%u64 in
  n ← str_buf_marshal_terminator msg msg_len SCREEN_WIDTH;
  screen_write_str msg fg bg row col.

End cells.

(* ===================================================================== *)
(** ** Cursor and blinking *)

Section controller.
Context `{Device} {S : Type} `{HasPorts S}.

Definition screen_cursor_disable : M S unit :=
  port_write_byte PORT_NO_VGA_CMD 0x0a ;;
  port_write_byte PORT_NO_VGA_DATA 0x20.

Definition screen_blink_disable : M S unit :=
  port_read_byte PORT_NO_VGA_STATUS_1 ;;
  port_write_byte PORT_NO_VGA_ATTRIBUTE_WRITE 0x30 ;;
  data ← port_read_byte PORT_NO_VGA_ATTRIBUTE_READ;
  data ← byte_bit_clear data 3;
  port_write_byte PORT_NO_VGA_ATTRIBUTE_WRITE data.

Definition screen_init : M S unit :=
  screen_cursor_disable ;; screen_blink_disable.

End controller.

(* ===================================================================== *)
(** ** The screen as a grid of cells *)

Definition on_screen (row col : Z) : Prop := 0 <= row < SCREEN_HEIGHT ∧ 0 <= col < SCREEN_WIDTH.

(** The address of a cell. *)
Definition cell (row col : Z) : Z := _video_buffer + 2 * (row * SCREEN_WIDTH + col).

Definition char_at (m : memory) (row col : Z) : Z := load8 m (cell row col).
Definition fg_at (m : memory) (row col : Z) : Z := load8 m (cell row col + 1) `mod` 16.
Definition bg_at (m : memory) (row col : Z) : Z := load8 m (cell row col + 1) `div` 16.

Definition in_video (a : Z) : Prop := _video_buffer <= a < _video_buffer + _offset_max.

(** Outside the bytes [P] nothing changes. *)
Definition same_but (P : Z → Prop) (m m' : memory) : Prop := ∀ a, ¬ P a → load8 m' a = load8 m a.

Lemma cell_inj row col row' col' : on_screen row col → on_screen row' col' →
  cell row col = cell row' col' → row = row' ∧ col = col'.
Proof. unfold on_screen, cell, SCREEN_HEIGHT, SCREEN_WIDTH. lia. Qed.

Lemma cell_in_video row col a : on_screen row col → cell row col <= a <= cell row col + 1 → in_video a.
Proof. unfold on_screen, cell, in_video, _offset_max, SCREEN_WIDTH, SCREEN_HEIGHT. lia. Qed.

(** Replacing one half of an attribute byte. *)
Definition set_low (a f : Z) : Z := u8 (Z.lor (Z.land a 0xf0) f).
Definition set_high (a b : Z) : Z := u8 (Z.lor (Z.land a 0x0f) (Z.shiftl b 4)).
Definition both_halves (f b : Z) : Z := Z.lor f (u8 (Z.shiftl b 4)).

Definition halves_check (a f : Z) : bool :=
  (set_low a f `mod` 16 =? f) && (set_low a f `div` 16 =? a `div` 16) &&
  (set_high a f `mod` 16 =? a `mod` 16) && (set_high a f `div` 16 =? f) &&
  (both_halves (a `mod` 16) f `mod` 16 =? a `mod` 16) && (both_halves (a `mod` 16) f `div` 16 =? f) &&
  (0 <=? both_halves (a `mod` 16) f) && (both_halves (a `mod` 16) f <? 256).

Lemma halves_all : forallb (λ a, forallb (halves_check a) (seqZ 0 16)) (seqZ 0 256) = true.
Proof. vm_compute. reflexivity. Qed.

Lemma halves a f : 0 <= a < 256 → 0 <= f < 16 → halves_check a f = true.
Proof.
  intros Ha Hf. apply (forallb_seqZ (halves_check a) 16); [|done].
  by apply (forallb_seqZ (λ a, forallb (halves_check a) (seqZ 0 16)) 256); [apply halves_all|].
Qed.

Lemma color_code_range c : 0 <= color_code c < 16.
Proof. by destruct c. Qed.

Section proofs.
Context {S : Type} `{HasMemory S}.

Lemma wp_offset_of_char row col (s : S) (Q : Z → S → Prop) :
  on_screen row col → Q (2 * (row * SCREEN_WIDTH + col)) s → wp (_offset_of_char row col) Q s.
Proof.
  unfold on_screen, SCREEN_HEIGHT, SCREEN_WIDTH. intros [Hr Hc] HQ. unfold _offset_of_char, SCREEN_HEIGHT, SCREEN_WIDTH.
  wp_step. wp_step; [bsimp; lia|]. wp_step. wp_step; [bsimp; lia|].
  assert ((2 * (row * 80 + col))%u64 = 2 * (row * 80 + col)) as ->.
  { u64_unfold. rewrite (u64_small (row * 80)), (u64_small (_ + col)), u64_small by lia. done. }
  wp_step. wp_step; [|by apply wp_ret].
  u64_unfold. rewrite u64_small by lia. apply Z.ltb_lt. unfold _offset_max, SCREEN_HEIGHT, SCREEN_WIDTH. lia.
Qed.

Lemma offset_of_char_rejects row col (s : S) : 0 <= row → 0 <= col → ¬ on_screen row col → _offset_of_char row col s = Assert.
Proof.
  intros Hr Hc Hn. unfold _offset_of_char. rewrite !assert_then.
  destruct (Z.ltb_spec row SCREEN_HEIGHT); [|done]. destruct (Z.ltb_spec col SCREEN_WIDTH); [|done].
  exfalso. by apply Hn.
Qed.

Lemma wp_offset_of_attr row col (s : S) (Q : Z → S → Prop) :
  on_screen row col → Q (2 * (row * SCREEN_WIDTH + col) + 1) s → wp (_offset_of_attr row col) Q s.
Proof.
  intros Ho HQ. unfold _offset_of_attr. wp_step. apply wp_offset_of_char; [done|]. apply wp_ret.
  unfold on_screen, SCREEN_HEIGHT, SCREEN_WIDTH in *. unfold uadd. by rewrite u64_small by lia.
Qed.

Lemma cell_address row col k : on_screen row col → 0 <= k <= 1 →
  (Z.add _video_buffer 0 + (Z.add (2 * (row * SCREEN_WIDTH + col))%Z k))%u64 = Z.add (cell row col) k.
Proof.
  unfold on_screen, SCREEN_HEIGHT, cell, SCREEN_WIDTH, _video_buffer, uadd. intros [Hr Hc] Hk.
  rewrite u64_small by lia. lia.
Qed.

(** Writing one byte of a cell. *)
Definition cell_write (row col k v : Z) (s : S) : S := set_mem (store8 (cell row col + k) v (mem_of s)) s.

Lemma wp_screen_write c row col (s : S) (Q : unit → S → Prop) :
  on_screen row col → Q () (cell_write row col 0 c s) → wp (screen_write_at c row col) Q s.
Proof.
  intros Ho HQ. unfold screen_write_at. wp_step. apply wp_offset_of_char; [done|]. apply wp_write.
  pose proof (cell_address row col 0 Ho ltac:(lia)) as Ha. rewrite !Z.add_0_r in Ha. rewrite Ha, store_1.
  unfold cell_write in HQ. by rewrite Z.add_0_r in HQ.
Qed.

Lemma wp_change_attr (f : Z → Z) row col (s : S) (Q : unit → S → Prop) :
  on_screen row col → Q () (cell_write row col 1 (f (load8 (mem_of s) (cell row col + 1))) s) →
  wp (offset ← _offset_of_attr row col;
      attr ← read 1 (_video_buffer + offset)%u64;
      write 1 (_video_buffer + offset)%u64 (f attr)) Q s.
Proof.
  intros Ho HQ. wp_step. apply wp_offset_of_attr; [done|].
  pose proof (cell_address row col 1 Ho ltac:(lia)) as Ha. rewrite Z.add_0_r in Ha. rewrite Ha.
  wp_step. apply wp_read. rewrite load_1. apply wp_write. by rewrite store_1.
Qed.

Lemma wp_set_bg bg row col (s : S) (Q : unit → S → Prop) :
  on_screen row col →
  Q () (cell_write row col 1 (set_high (load8 (mem_of s) (cell row col + 1)) (color_code bg)) s) →
  wp (screen_set_bg_at bg row col) Q s.
Proof.
  intros Ho HQ. apply (wp_change_attr (λ a, set_high a (u8 (color_code bg)))); [done|].
  by rewrite (u8_small (color_code bg)) by (pose proof (color_code_range bg); lia).
Qed.

Lemma wp_set_fg fg row col (s : S) (Q : unit → S → Prop) :
  on_screen row col →
  Q () (cell_write row col 1 (set_low (load8 (mem_of s) (cell row col + 1)) (color_code fg)) s) →
  wp (screen_set_fg_at fg row col) Q s.
Proof.
  intros Ho HQ. apply (wp_change_attr (λ a, set_low a (u8 (color_code fg)))); [done|].
  by rewrite (u8_small (color_code fg)) by (pose proof (color_code_range fg); lia).
Qed.

Lemma wp_set_attr fg bg row col (s : S) (Q : unit → S → Prop) :
  on_screen row col → Q () (cell_write row col 1 (both_halves (color_code fg) (color_code bg)) s) →
  wp (screen_set_attr_at fg bg row col) Q s.
Proof.
  intros Ho HQ. unfold screen_set_attr_at. wp_step. apply wp_offset_of_attr; [done|]. apply wp_write.
  pose proof (cell_address row col 1 Ho ltac:(lia)) as Ha. rewrite Z.add_0_r in Ha. rewrite Ha, store_1.
  pose proof (color_code_range fg). pose proof (color_code_range bg).
  by rewrite (u8_small (color_code fg)), (u8_small (color_code bg)) by lia.
Qed.

(** What a cell shows. *)
Definition shows (m : memory) (row col c fg bg : Z) : Prop :=
  char_at m row col = c ∧ fg_at m row col = fg ∧ bg_at m row col = bg.

Definition cell_only (row col : Z) (m m' : memory) : Prop :=
  same_but (λ a, cell row col <= a <= cell row col + 1) m m'.

Lemma cell_write_other row col k v (s : S) : 0 <= k <= 1 →
  cell_only row col (mem_of s) (mem_of (cell_write row col k v s)).
Proof. intros Hk a Ha. unfold cell_write. rewrite mem_of_set. apply load8_store8_ne. lia. Qed.

(** The operations on a cell.  On the screen each of them changes its own
    part of its own cell - the character, the foreground, the background, or
    both colours - and nothing else in the memory; off the screen each of
    them fails an assertion. *)
Theorem cell_operations_ok (c row col : Z) (fg bg : screen_color) (s : S)
    (Hc : is_u8 c) (Hrow : 0 <= row) (Hcol : 0 <= col) :
  let m := mem_of s in
  (on_screen row col →
    wp (screen_write_at c row col) (λ _ s',
      shows (mem_of s') row col c (fg_at m row col) (bg_at m row col) ∧ cell_only row col m (mem_of s')) s ∧
    wp (screen_set_fg_at fg row col) (λ _ s',
      shows (mem_of s') row col (char_at m row col) (color_code fg) (bg_at m row col) ∧ cell_only row col m (mem_of s')) s ∧
    wp (screen_set_bg_at bg row col) (λ _ s',
      shows (mem_of s') row col (char_at m row col) (fg_at m row col) (color_code bg) ∧ cell_only row col m (mem_of s')) s ∧
    wp (screen_set_attr_at fg bg row col) (λ _ s',
      shows (mem_of s') row col (char_at m row col) (color_code fg) (color_code bg) ∧ cell_only row col m (mem_of s')) s) ∧
  (¬ on_screen row col →
    screen_write_at c row col s = Assert ∧ screen_set_fg_at fg row col s = Assert ∧
    screen_set_bg_at bg row col s = Assert ∧ screen_set_attr_at fg bg row col s = Assert).
Proof.
  intros m. split.
  - intros Ho. pose proof (color_code_range fg) as Hf. pose proof (color_code_range bg) as Hb.
    set (a := load8 m (cell row col + 1)). assert (0 <= a < 256) as Ha by apply load8_range.
    pose proof (halves a _ Ha Hf) as Hhf. pose proof (halves a _ Ha Hb) as Hhb. unfold halves_check in Hhf, Hhb. bsimp.
    assert (∀ k v, 0 <= k <= 1 → cell_only row col m (mem_of (cell_write row col k v s))) as Hother
      by (intros; by apply cell_write_other).
    unfold shows, char_at, fg_at, bg_at.
    assert (∀ v, load8 (mem_of (cell_write row col 1 v s)) (cell row col) = load8 m (cell row col)) as Hchar.
    { intros v. unfold cell_write. rewrite mem_of_set. apply load8_store8_ne. lia. }
    assert (∀ v, load8 (mem_of (cell_write row col 1 v s)) (cell row col + 1) = u8 v) as Hattr.
    { intros v. unfold cell_write. rewrite mem_of_set. apply load8_store8_eq. }
    split; [|split; [|split]].
    + apply wp_screen_write; [done|]. split; [|by apply Hother]. unfold cell_write.
      rewrite mem_of_set, Z.add_0_r, load8_store8_eq, u8_small by done.
      by rewrite load8_store8_ne by lia.
    + apply wp_set_fg; [done|]. fold m a. split; [|by apply Hother]. rewrite Hchar, Hattr.
      unfold set_low in *. rewrite (u8_small (u8 _)) by apply u8_range. done.
    + apply wp_set_bg; [done|]. fold m a. split; [|by apply Hother]. rewrite Hchar, Hattr.
      unfold set_high in *. rewrite (u8_small (u8 _)) by apply u8_range. done.
    + apply wp_set_attr; [done|]. split; [|by apply Hother]. rewrite Hchar, Hattr.
      pose proof (halves (color_code fg) _ ltac:(lia) Hb) as Hh. unfold halves_check in Hh. bsimp.
      rewrite (Z.mod_small (color_code fg)) in * by lia.
      by rewrite u8_small by lia.
  - intros Ho. pose proof (offset_of_char_rejects row col s Hrow Hcol Ho) as Hr.
    unfold screen_write_at, screen_set_fg_at, screen_set_bg_at, screen_set_attr_at, _offset_of_attr.
    split; [by apply bind_assert|]. split; [|split]; by do 2 apply bind_assert.
Qed.

(** The state with the memory of another one. *)
Definition only_memory (s s' : S) : Prop := s' = set_mem (mem_of s') s.

(** The first [n] characters of [l] stand in the row from [col] on, and that
    is all that changed. *)
Definition row_shows (row col : Z) (l : list Z) (n : Z) (s s' : S) : Prop :=
  (∀ i c, 0 <= i < n → l !! Z.to_nat i = Some c → char_at (mem_of s') row (col + i) = c) ∧
  same_but (λ a, ∃ i, 0 <= i < n ∧ a = cell row (col + i)) (mem_of s) (mem_of s') ∧ only_memory s s'.

Lemma row_shows_write row col l i c s s' : on_screen row (col + i) → 0 <= col → 0 <= i →
  l !! Z.to_nat i = Some c → is_u8 c → row_shows row col l i s s' →
  row_shows row col l (i + 1) s (cell_write row (col + i) 0 c s').
Proof.
  intros Ho Hcol Hi Hc Hc8 (Hch&Hsame&Honly). unfold cell_write. rewrite Z.add_0_r. split; [|split].
  - intros j d Hj Hd. rewrite mem_of_set. unfold char_at. destruct (decide (j = i)) as [->|Hne].
    + rewrite load8_store8_eq, u8_small by done. congruence.
    + rewrite load8_store8_ne by (unfold cell; lia). apply Hch; [lia|done].
  - intros a Ha. rewrite mem_of_set. rewrite load8_store8_ne.
    + apply Hsame. intros (j&Hj&->). apply Ha. exists j. split; [lia|done].
    + intros Heq. apply Ha. exists i. split; [lia|done].
  - unfold only_memory. rewrite mem_of_set. generalize (store8 (cell row (col + i)) c (mem_of s')). intros m'.
    unfold only_memory in Honly. rewrite Honly. by rewrite set_mem_set.
Qed.

(** A string that does not overlap the video memory. *)
Definition string_placed (m : memory) (str : Z) (l : list Z) : Prop :=
  bytes_at m str (l ++ [0]) ∧ Forall (λ c, is_u8 c ∧ c ≠ 0) l ∧
  0 <= str ∧ str + Z.of_nat (length l) < 18446744073709551616 ∧
  (str + Z.of_nat (length l) < _video_buffer ∨ _video_buffer + _offset_max <= str).

Lemma string_survives (m m' : memory) str l : same_but in_video m m' → string_placed m str l → string_placed m' str l.
Proof.
  intros Hs (Hb&Hl&?&?&Hap). split_and!; [|done..]. eapply bytes_at_agree; [|exact Hb].
  intros a Ha. symmetry. apply Hs. rewrite length_app in Ha. cbn [length] in Ha. unfold in_video. lia.
Qed.

Lemma row_shows_string row col l n str s s' : on_screen row col → n <= SCREEN_WIDTH - col →
  row_shows row col l n s s' → string_placed (mem_of s) str l → bytes_at (mem_of s') str (l ++ [0]).
Proof.
  intros Ho Hn (_&Hsame&_) (Hb&_&_&_&Hap). eapply bytes_at_agree; [|exact Hb].
  intros a Ha. rewrite Hsame; [done|]. intros (i&Hi&->). rewrite length_app in Ha. simpl in Ha.
  unfold on_screen, cell, _offset_max, SCREEN_WIDTH, SCREEN_HEIGHT in *. lia.
Qed.

Lemma wp_write_str str l fg bg row col s (Q : unit → S → Prop) : on_screen row col →
  string_placed (mem_of s) str l →
  (∀ s', row_shows row col l (Z.min (Z.of_nat (length l)) (SCREEN_WIDTH - col)) s s' → Q () s') →
  wp (screen_write_str str fg bg row col) Q s.
Proof.
  intros Ho Hstr HQ. unfold screen_write_str. pose proof Hstr as (_&Hl&Hs0&Hs1&_).
  set (n := Z.min (Z.of_nat (length l)) (SCREEN_WIDTH - col)) in *.
  assert (0 <= n <= 80 ∧ n <= SCREEN_WIDTH - col ∧ n <= Z.of_nat (length l)) as (Hn&Hn'&Hnl) by (unfold on_screen, n, SCREEN_WIDTH in *; lia).
  apply (wp_loop (λ i s', 0 <= i <= n ∧ row_shows row col l i s s') (λ i, Z.to_nat (80 - i))).
  - split; [lia|]. split; [intros j c Hj; lia|]. split; [by intros a Ha|]. unfold only_memory. by rewrite set_mem_id.
  - lia.
  - intros i s' [Hi Hrow]. assert (0 <= col < 80) as Hcol by (unfold on_screen, SCREEN_WIDTH in Ho; lia).
    assert ((i + col)%u64 = col + i) as -> by (unfold uadd; rewrite u64_small by lia; lia).
    unfold ultb. destruct (col + i <? SCREEN_WIDTH) eqn:Hlt; bsimp; cycle 1.
    { apply wp_ret, HQ. by replace n with i by lia. }
    pose proof (row_shows_string row col l i str s s' Ho ltac:(lia) Hrow Hstr) as Hb.
    wp_step. apply wp_read. unfold uadd. rewrite (u64_small (str + i)), load_1 by lia.
    destruct (decide (i < Z.of_nat (length l))) as [Hil|Hil].
    + destruct (lookup_lt_is_Some_2 l (Z.to_nat i) ltac:(lia)) as [c Hc].
      pose proof (Hb (Z.to_nat i) c ltac:(by rewrite lookup_app_l by lia)) as Hbc. rewrite Z2Nat.id in Hbc by lia.
      rewrite Hbc. destruct (list.Forall_lookup_1 _ _ _ _ Hl Hc) as [Hc8 Hc0].
      rewrite (proj2 (Z.eqb_neq _ _) Hc0). assert (on_screen row (col + i)) as Hoi by (unfold on_screen in *; lia).
      wp_step. apply wp_screen_write; [done|]. apply wp_ret. rewrite u64_small by lia.
      split; [|lia]. split; [unfold n in *; lia|]. apply row_shows_write; [done|lia|lia|done|done|done].
    + pose proof (Hb (length l) 0 ltac:(by rewrite list_lookup_middle)) as Hb0.
      assert (i = Z.of_nat (length l)) as -> by lia. rewrite Hb0. cbn [Z.eqb].
      apply wp_ret, HQ. by replace n with (Z.of_nat (length l)) by lia.
Qed.

(** A string is written into its row, clipped at the right edge: after
    [screen_write_str] the cells from the position on show its characters as
    far as the row reaches, and nothing else in the memory changed. *)
Theorem screen_write_str_ok (str row col : Z) (l : list Z) (fg bg : screen_color) (s : S)
    (Ho : on_screen row col) (Hl : string_placed (mem_of s) str l) :
  wp (screen_write_str str fg bg row col) (λ _ s',
    (∀ i c, 0 <= i → l !! Z.to_nat i = Some c → on_screen row (col + i) → char_at (mem_of s') row (col + i) = c) ∧
    same_but (λ a, ∃ i, 0 <= i < Z.of_nat (length l) ∧ on_screen row (col + i) ∧ a = cell row (col + i))
      (mem_of s) (mem_of s')) s.
Proof.
  eapply wp_write_str; [done|done|]. intros s' (Hch&Hsame&_). unfold on_screen in *. split.
  - intros i c Hi Hc Hi2. apply Hch; [|done]. apply lookup_lt_Some in Hc. lia.
  - intros a Ha. apply Hsame. intros (i&Hi&->). apply Ha. exists i. split; [lia|]. split; [|done]. lia.
Qed.

(** Cleaning one cell, and the whole screen. *)
Definition cleaned (bg : screen_color) (s : S) (P : Z → Z → Prop) (s' : S) : Prop :=
  (∀ row col, on_screen row col → P row col →
    shows (mem_of s') row col _CHAR_NULL (fg_at (mem_of s) row col) (color_code bg)) ∧
  same_but (λ a, ∃ row col, on_screen row col ∧ P row col ∧ cell row col <= a <= cell row col + 1) (mem_of s) (mem_of s').

Lemma wp_clean_at bg row col s s' (P : Z → Z → Prop) (Q : unit → S → Prop) : on_screen row col → ¬ P row col →
  cleaned bg s P s' → (∀ s'', cleaned bg s (λ r c, P r c ∨ (r = row ∧ c = col)) s'' → Q () s'') →
  wp (screen_clean_at bg row col) Q s'.
Proof.
  intros Ho HnP [Hsh Hsame] HQ. unfold screen_clean_at. wp_step. apply wp_screen_write; [done|].
  apply wp_set_bg; [done|]. apply HQ. unfold cell_write. rewrite set_mem_set, !mem_of_set, Z.add_0_r.
  assert (load8 (mem_of s') (cell row col + 1) = load8 (mem_of s) (cell row col + 1)) as Hold.
  { apply Hsame. intros (r&c&Hr&HP&Ha). apply HnP.
    destruct (cell_inj row col r c) as [-> ->]; [done|done| |done]. unfold cell in *. lia. }
  rewrite load8_store8_ne by lia. rewrite Hold. split.
  - intros r c Hrc HP. destruct (decide (r = row ∧ c = col)) as [[-> ->]|Hne].
    + pose proof (halves (load8 (mem_of s) (cell row col + 1)) _ (load8_range _ _) (color_code_range bg)) as Hh.
      unfold halves_check in Hh. bsimp. unfold shows, char_at, fg_at, bg_at. rewrite mem_of_set.
      rewrite load8_store8_ne, load8_store8_eq by lia. split; [done|]. rewrite load8_store8_eq.
      unfold set_high in *. rewrite (u8_small (u8 _)) by apply u8_range. done.
    + destruct HP as [HP|]; [|done]. destruct (Hsh r c Hrc HP) as (H1&H2&H3).
      assert (cell r c + 1 < cell row col ∨ cell row col + 1 < cell r c) as Hd.
      { destruct (decide (cell r c = cell row col)) as [E|E]; [by apply cell_inj in E|]. unfold cell in *. lia. }
      unfold shows, char_at, fg_at, bg_at in *. rewrite mem_of_set. by rewrite !load8_store8_ne by lia.
  - intros a Ha. rewrite mem_of_set. rewrite !load8_store8_ne.
    + apply Hsame. intros (r&c&Hr&HP&Hb). apply Ha. exists r, c. auto.
    + intros Heq. apply Ha. exists row, col. split; [done|]. split; [by right|lia].
    + intros Heq. apply Ha. exists row, col. split; [done|]. split; [by right|lia].
Qed.

(** After [screen_clean] every cell of the screen is empty with the given
    background and its old foreground, and no other byte has changed. *)
Theorem screen_clean_ok (bg : screen_color) (s : S) :
  wp (screen_clean bg) (λ _ s',
    (∀ row col, on_screen row col →
      shows (mem_of s') row col _CHAR_NULL (fg_at (mem_of s) row col) (color_code bg)) ∧
    same_but (λ a, _video_buffer <= a < _video_buffer + _offset_max) (mem_of s) (mem_of s')) s.
Proof.
  unfold screen_clean.
  apply (wp_for_n (λ row s', cleaned bg s (λ r _, r < row) s')).
  - split; [intros r c [? _] ?; lia|]. by intros a Ha.
  - intros row s' Hrow Hcl. rewrite Z.add_0_l, Z2Nat.id in Hrow by (unfold SCREEN_HEIGHT; lia).
    apply (wp_for_n (λ col s', cleaned bg s (λ r c, r < row ∨ (r = row ∧ c < col)) s')).
    + destruct Hcl as [H1 H2]. split.
      * intros r c Ho HP. apply H1; [done|]. unfold on_screen in Ho. lia.
      * intros a Ha. apply H2. intros (r&c&?&?&?). apply Ha. exists r, c. auto.
    + intros col s1 Hcol Hcl1. rewrite Z.add_0_l, Z2Nat.id in Hcol by (unfold SCREEN_WIDTH; lia).
      apply (wp_clean_at bg row col s s1 (λ r c, r < row ∨ (r = row ∧ c < col))); [done|lia|exact Hcl1|]. intros s2 [H1 H2]. split.
      * intros r c Ho HP. apply H1; [done|]. lia.
      * intros a Ha. apply H2. intros (r&c&?&?&?). apply Ha. exists r, c. split; [done|]. split; [lia|done].
    + intros s1 [H1 H2]. rewrite Z.add_0_l, Z2Nat.id in * by (unfold SCREEN_WIDTH; lia). split.
      * intros r c Ho HP. apply H1; [done|]. unfold on_screen in Ho. lia.
      * intros a Ha. apply H2. intros (r&c&?&?&?). apply Ha. exists r, c. split; [done|]. split; [lia|done].
  - intros s' [H1 H2]. rewrite Z.add_0_l, Z2Nat.id in * by (unfold SCREEN_HEIGHT; lia). split.
    + intros row col Ho. apply H1; [done|]. unfold on_screen in Ho. lia.
    + intros a Ha. apply H2. intros (r&c&Ho&_&Hb). apply Ha.
      unfold on_screen, cell, _offset_max, SCREEN_WIDTH, SCREEN_HEIGHT in *. lia.
Qed.

End proofs.

(* ===================================================================== *)
(** ** A string at the right edge *)

Lemma screen_write_str_ok_witness :
  let m := poke 0x10000 [99; 105; 110; 103; 0] ∅ in
  wp (screen_write_str 0x10000 SCREEN_COLOR_WHITE SCREEN_COLOR_BLACK 24 77) (λ _ m',
    (∀ i c, 0 <= i → [99; 105; 110; 103] !! Z.to_nat i = Some c → on_screen 24 (77 + i) → char_at m' 24 (77 + i) = c) ∧
    same_but (λ a, ∃ i, 0 <= i < 4 ∧ on_screen 24 (77 + i) ∧ a = cell 24 (77 + i)) m m') m.
Proof.
  refine (screen_write_str_ok (S := memory) 0x10000 24 77 [99; 105; 110; 103] SCREEN_COLOR_WHITE SCREEN_COLOR_BLACK _ _ _).
  - done.
  - split; [apply peek_bytes_at; by vm_compute|]. split; [repeat constructor; done|]. split; [done|]. split; [done|]. by left.
Defined.
