(* ===== verification/Panel.v ===== *)
(** The text panel of the VGA screen, src/panel/panel_text.c and
    src/panel/panel.c: a box on the screen and a bounded buffer of rows.

    The structure of a panel lies in the memory at the offsets the compiler
    gives its fields; the address of the log panel and of a literal are
    parameters. *)
From S2P Require Import Prelude Memory Strings Ports Screen.

(** struct panel_text *)
Definition OFF_start_row : Z := 0.
Definition OFF_start_col : Z := 8.
Definition OFF_end_row : Z := 16.
Definition OFF_end_col : Z := 24.
Definition OFF_box_color : Z := 32.
Definition OFF_body_color : Z := 36.
Definition OFF_buf : Z := 40.
Definition OFF_row_lens : Z := 40 + 1048576.
Definition OFF_buf_len : Z := 40 + 1048576 + 8 * 1048576.
Definition OFF_buf_tail : Z := OFF_buf_len + 8.
Definition OFF_window_head : Z := OFF_buf_len + 16.
Definition OFF_write_cnt : Z := OFF_buf_len + 24.
Definition SIZE_panel_text : Z := OFF_buf_len + 32.

Definition color_of_code (c : Z) : option screen_color :=
  list_find (λ x, color_code x = c)
    [SCREEN_COLOR_BLACK; SCREEN_COLOR_BLUE; SCREEN_COLOR_GREEN; SCREEN_COLOR_CYAN; SCREEN_COLOR_RED;
     SCREEN_COLOR_MAGENTA; SCREEN_COLOR_BROWN; SCREEN_COLOR_LIGHT_GREY; SCREEN_COLOR_DARK_GREY;
     SCREEN_COLOR_LIGHT_BLUE; SCREEN_COLOR_LIGHT_GREEN; SCREEN_COLOR_LIGHT_CYAN; SCREEN_COLOR_LIGHT_RED;
     SCREEN_COLOR_LIGHT_MAGENTA; SCREEN_COLOR_LIGHT_BROWN; SCREEN_COLOR_WHITE] ≫= λ '(_, x), Some x.

Class PanelLink := {
  _log_txt : Z;    (* static in panel.c *)
  log_item : Z;    (* the literal "Log" *)
}.

(* ===================================================================== *)
(** ** Writing to the screen (panel.c) *)

Section panel.
Context {S : Type} `{HasMemory S}.

Definition panel_write_char (c row col : Z) : M S unit :=
  kernel_assert (row <? SCREEN_HEIGHT) ;;
  kernel_assert (col <? SCREEN_WIDTH) ;;
  screen_write_at c row col.

(** At most 80 characters are written before [i + col] leaves the row. *)
Definition panel_write_str (str row col : Z) : M S unit :=
  kernel_assert (negb (str =? 0)) ;;
  loop 81 (λ i,
    if (i + col <? SCREEN_WIDTH)%u64 then
      c ← read 1 (str + i)%u64;
      if c =? 0 then mret (inr ())
      else
        c ← read 1 (str + i)%u64;
        panel_write_char c row (col + i)%u64 ;; mret (inl (i + 1)%u64)
    else mret (inr ())) 0.

Definition panel_write_str_len (str str_len row col : Z) : M S unit :=
  kernel_assert (col + str_len <? SCREEN_WIDTH)%u64 ;;
  for_n (Z.to_nat str_len) 0 (λ i,
    c ← read 1 (str + i)%u64;
    panel_write_char c row (col + i)%u64).

(* ===================================================================== *)
(** ** The rows of a panel (panel_text.c) *)

Definition not_null (p : Z) : bool := negb (p =? 0).

Definition get (tx off : Z) : M S Z := read 8 (tx + off)%u64.
Definition set (tx off v : Z) : M S unit := write 8 (tx + off)%u64 v.

Definition panel_text_init (tx row0 col0 rowx colx : Z) : M S unit :=
  kernel_assert (not_null tx) ;;
  set tx OFF_start_row row0 ;;
  set tx OFF_start_col col0 ;;
  set tx OFF_end_row rowx ;;
  set tx OFF_end_col colx ;;
  write 4 (tx + OFF_box_color)%u64 (color_code SCREEN_COLOR_BLUE) ;;
  end_col ← get tx OFF_end_col;
  start_col ← get tx OFF_start_col;
  let width := ((end_col - start_col)%u64 - 1)%u64 in
  (if width =? 0 then fault else set tx OFF_buf_len (1048576 / width)%u64) ;;
  set tx OFF_buf_tail 0 ;;
  set tx OFF_write_cnt 0 ;;
  set tx OFF_window_head 0.

Definition panel_text_width (txt : Z) : M S Z :=
  kernel_assert (not_null txt) ;;
  end_col ← get txt OFF_end_col;
  start_col ← get txt OFF_start_col;
  mret ((end_col - start_col)%u64 - 1)%u64.

Definition panel_text_height (txt : Z) : M S Z :=
  kernel_assert (not_null txt) ;;
  end_row ← get txt OFF_end_row;
  start_row ← get txt OFF_start_row;
  mret ((end_row - start_row)%u64 - 1)%u64.

Definition _buf_row_total (txt : Z) : M S Z :=
  buf_len ← get txt OFF_buf_len;
  width ← panel_text_width txt;
  if width =? 0 then fault else mret (buf_len / width)%u64.

Definition _buf_row_offs (txt row : Z) : M S Z :=
  kernel_assert (not_null txt) ;;
  total ← _buf_row_total txt;
  kernel_assert (row <? total) ;;
  width ← panel_text_width txt;
  mret (width * row)%u64.

Definition _buf_tail_next (t : Z) : M S Z :=
  kernel_assert (not_null t) ;;
  buf_tail ← get t OFF_buf_tail;
  total ← _buf_row_total t;
  if total =? 0 then fault else mret ((buf_tail + 1) mod total)%u64.

Definition panel_text_is_full (t : Z) : M S bool :=
  kernel_assert (not_null t) ;;
  next ← _buf_tail_next t;
  window_head ← get t OFF_window_head;
  mret (next =? window_head).

Definition _txt_start_row (txt : Z) : M S Z := r ← get txt OFF_start_row; mret (r + 1)%u64.
Definition _txt_start_col (txt : Z) : M S Z := c ← get txt OFF_start_col; mret (c + 1)%u64.

(** The address of row_lens[row]. *)
Definition row_len_at (txt row : Z) : Z := ((txt + OFF_row_lens)%Z + 8 * row)%u64.

Definition _draw_txt (txt : Z) : M S unit :=
  row_cnt ← panel_text_height txt;
  write_cnt ← get txt OFF_write_cnt;
  let row_cnt := if write_cnt <? row_cnt then write_cnt else row_cnt in
  for_n (Z.to_nat row_cnt) 0 (λ i,
    window_head ← get txt OFF_window_head;
    off ← _buf_row_offs txt (i + window_head)%u64;
    row_len ← read 8 (row_len_at txt (i + window_head)%u64);
    row ← _txt_start_row txt;
    col ← _txt_start_col txt;
    panel_write_str_len ((txt + OFF_buf)%Z + off)%u64 row_len (row + i)%u64 col).

(** A character of the box in the panel's colour. *)
Definition draw_box_at (draw : Z → Z → M S unit) (txt row col : Z) : M S unit :=
  draw row col ;;
  code ← read 4 (txt + OFF_box_color)%u64;
  color ← of_option (color_of_code code);
  screen_set_fg_at color row col.

(** Each loop stops at the edge of the screen, if only by an assertion. *)
Definition panel_text_draw (txt : Z) : M S unit :=
  kernel_assert (not_null txt) ;;
  r ← get txt OFF_start_row; c ← get txt OFF_start_col;
  draw_box_at screen_box_thin_corner_nw_at txt r c ;;
  r ← get txt OFF_start_row; c ← get txt OFF_end_col;
  draw_box_at screen_box_thin_corner_ne_at txt r c ;;
  r ← get txt OFF_end_row; c ← get txt OFF_start_col;
  draw_box_at screen_box_thin_corner_sw_at txt r c ;;
  r ← get txt OFF_end_row; c ← get txt OFF_end_col;
  draw_box_at screen_box_thin_corner_se_at txt r c ;;
  r ← get txt OFF_start_row;
  loop 26 (λ i,
    r ← get txt OFF_end_row;
    if i <? r then
      c ← get txt OFF_start_col;
      draw_box_at screen_box_thin_border_v_at txt i c ;;
      c ← get txt OFF_end_col;
      draw_box_at screen_box_thin_border_v_at txt i c ;;
      mret (inl (i + 1)%u64)
    else mret (inr ())) (r + 1)%u64 ;;
  c ← get txt OFF_start_col;
  loop 81 (λ i,
    c ← get txt OFF_end_col;
    if i <? c then
      r ← get txt OFF_start_row;
      draw_box_at screen_box_thin_border_h_at txt r i ;;
      r ← get txt OFF_end_row;
      draw_box_at screen_box_thin_border_h_at txt r i ;;
      mret (inl (i + 1)%u64)
    else mret (inr ())) (c + 1)%u64 ;;
  _draw_txt txt.

Definition panel_text_write_row (txt str str_len : Z) : M S bool :=
  kernel_assert (not_null txt) ;;
  kernel_assert (not_null str) ;;
  width ← panel_text_width txt;
  kernel_assert (str_len <? width) ;;
  full ← panel_text_is_full txt;
  if full : bool then mret false
  else
    buf_tail ← get txt OFF_buf_tail;
    off ← _buf_row_offs txt buf_tail;
    for_n (Z.to_nat str_len) 0 (λ i,
      c ← read 1 (str + i)%u64;
      write 1 ((txt + OFF_buf)%Z + (off + i)%Z)%u64 c) ;;
    buf_tail ← get txt OFF_buf_tail;
    write 8 (row_len_at txt buf_tail) str_len ;;
    next ← _buf_tail_next txt;
    set txt OFF_buf_tail next ;;
    write_cnt ← get txt OFF_write_cnt;
    set txt OFF_write_cnt (write_cnt + 1)%u64 ;;
    mret true.

End panel.

(* ===================================================================== *)
(** ** The panel of the kernel (panel.c) *)

Definition _NAV_BG : screen_color := SCREEN_COLOR_LIGHT_GREY.

Section start.
Context `{PanelLink} {S : Type} `{HasMemory S}.

Definition panel_nav_init : M S unit :=
  for_n (Z.to_nat SCREEN_WIDTH) 0 (λ c, screen_clean_at _NAV_BG 0 c) ;;
  c ← read 1 (log_item + 0)%u64;
  panel_write_char c 0 2 ;;
  panel_write_str (log_item + 1)%u64 0 3.

Definition panel_start : M S unit :=
  screen_clean SCREEN_COLOR_BLACK ;;
  panel_nav_init ;;
  panel_text_init _log_txt 1 0 (SCREEN_HEIGHT - 2) (SCREEN_WIDTH - 1) ;;
  panel_text_draw _log_txt.

Definition panel_get_log_text : Z := _log_txt.

End start.

(* ===================================================================== *)
(** ** A panel as a box and a list of rows *)

Record geometry := Geometry { row0 : Z; col0 : Z; rowx : Z; colx : Z }.

Definition text_width (g : geometry) : Z := colx g - col0 g - 1.
Definition text_height (g : geometry) : Z := rowx g - row0 g - 1.

(** The number of rows of the ring; one of them stays unused. *)
Definition ring_rows (g : geometry) : Z := 1048576 / text_width g / text_width g.

(** The box is on the screen and has room for a column. *)
Definition fits (g : geometry) : Prop :=
  0 <= row0 g < rowx g ∧ rowx g < SCREEN_HEIGHT ∧ 0 <= col0 g ∧ col0 g + 1 < colx g ∧ colx g < SCREEN_WIDTH.

(** The structure does not overlap the video memory. *)
Definition panel_placed (tx : Z) : Prop :=
  0 < tx ∧ tx + SIZE_panel_text < 18446744073709551616 ∧
  (tx + SIZE_panel_text <= _video_buffer ∨ _video_buffer + _offset_max <= tx).

Record panel_rep (m : memory) (tx : Z) (g : geometry) (rows : list (list Z)) : Prop := {
  pn_row0 : load64 m (tx + OFF_start_row) = row0 g;
  pn_col0 : load64 m (tx + OFF_start_col) = col0 g;
  pn_rowx : load64 m (tx + OFF_end_row) = rowx g;
  pn_colx : load64 m (tx + OFF_end_col) = colx g;
  pn_color : load32 m (tx + OFF_box_color) = color_code SCREEN_COLOR_BLUE;
  pn_len : load64 m (tx + OFF_buf_len) = 1048576 / text_width g;
  pn_tail : load64 m (tx + OFF_buf_tail) = Z.of_nat (length rows);
  pn_head : load64 m (tx + OFF_window_head) = 0;
  pn_cnt : load64 m (tx + OFF_write_cnt) = Z.of_nat (length rows);
  pn_rows : ∀ i r, rows !! i = Some r →
    load64 m (tx + OFF_row_lens + 8 * Z.of_nat i) = Z.of_nat (length r) ∧
    bytes_at m (tx + OFF_buf + text_width g * Z.of_nat i) r ∧ Z.of_nat (length r) < text_width g;
  pn_room : Z.of_nat (length rows) < ring_rows g;
}.

Ltac panel_offsets := unfold OFF_start_row, OFF_start_col, OFF_end_row, OFF_end_col, OFF_box_color, OFF_body_color,
  OFF_buf, OFF_row_lens, OFF_buf_tail, OFF_window_head, OFF_write_cnt, SIZE_panel_text, OFF_buf_len in *.

Lemma width_range g : fits g → 1 <= text_width g <= 78.
Proof. unfold fits, text_width, SCREEN_WIDTH. lia. Qed.

Lemma ring_bounds g : fits g → 2 <= ring_rows g ∧ text_width g * ring_rows g <= 1048576.
Proof.
  intros Hg. pose proof (width_range g Hg) as Hw. unfold ring_rows. set (w := text_width g) in *. split.
  - rewrite Z.div_div by lia. apply Z.div_le_lower_bound; nia.
  - transitivity (1048576 / w); [apply Z.mul_div_le; lia|]. apply Z.div_le_upper_bound; nia.
Qed.

(** The bytes of the first free row. *)
Definition free_slot (tx : Z) (g : geometry) (n a : Z) : Prop :=
  tx + OFF_buf + text_width g * n <= a < tx + OFF_buf + text_width g * n + text_width g ∨
  tx + OFF_row_lens + 8 * n <= a < tx + OFF_row_lens + 8 * n + 8.

(** Only the free row matters not. *)
Lemma panel_rep_slot m m' tx g rows : fits g →
  (∀ a, tx <= a < tx + SIZE_panel_text → ¬ free_slot tx g (Z.of_nat (length rows)) a → load8 m' a = load8 m a) →
  panel_rep m tx g rows → panel_rep m' tx g rows.
Proof.
  intros Hg Hag [A B C D E F G H I J K]. pose proof (ring_bounds g Hg) as [_ Hring]. pose proof (width_range g Hg) as Hw.
  assert (text_width g * Z.of_nat (length rows) + text_width g <= 1048576) as Hend by nia.
  assert (Z.of_nat (length rows) < 1048576) as Hcnt by nia.
  assert (∀ n o, 0 <= o → o + Z.of_nat n <= OFF_buf ∨ OFF_buf_len <= o → o + Z.of_nat n <= SIZE_panel_text →
    load n m' (tx + o) = load n m (tx + o)) as Hload.
  { intros n o Ho Ho' Hn. apply load_agree. intros a Ha. apply Hag; [lia|]. unfold free_slot. panel_offsets. lia. }
  split; unfold load64, load32. 1-9: rewrite Hload; [assumption|panel_offsets; lia..].
  2: done.
  intros i r Hi. destruct (J i r Hi) as (Hl&Hb&Hlt). pose proof (lookup_lt_Some _ _ _ Hi) as Hii.
  assert (text_width g * Z.of_nat i + text_width g <= text_width g * Z.of_nat (length rows)) by nia. split_and!; [| |done].
  - rewrite <-Hl. apply load_agree. intros a Ha. apply Hag; [panel_offsets; lia|]. unfold free_slot. panel_offsets. lia.
  - eapply bytes_at_agree; [|exact Hb]. intros a Ha. symmetry. apply Hag; [panel_offsets; lia|]. unfold free_slot. panel_offsets. lia.
Qed.

Lemma panel_rep_agree m m' tx g rows : fits g → agree tx (tx + SIZE_panel_text) m m' →
  panel_rep m tx g rows → panel_rep m' tx g rows.
Proof. intros Hg Hag. apply panel_rep_slot; [done|]. intros a Ha _. symmetry. by apply Hag. Qed.

(** The free row becomes the last one. *)
Lemma panel_rep_push m tx g rows r : fits g → panel_rep m tx g rows →
  let n := Z.of_nat (length rows) in
  load64 m (tx + OFF_row_lens + 8 * n) = Z.of_nat (length r) →
  bytes_at m (tx + OFF_buf + text_width g * n) r → Z.of_nat (length r) < text_width g → n + 1 < ring_rows g →
  panel_rep (store64 (tx + OFF_write_cnt) (n + 1) (store64 (tx + OFF_buf_tail) (n + 1) m)) tx g (rows ++ [r]).
Proof.
  intros Hg [A B C D E F G H I J K] n Hlen Hb Hlt Hroom. pose proof (ring_bounds g Hg) as [_ Hring].
  pose proof (width_range g Hg) as Hw. assert (text_width g * n + text_width g <= 1048576) as Hend by nia.
  set (m' := store64 _ _ _). assert (length (rows ++ [r]) = S (length rows)) as Hl by (rewrite length_app; simpl; lia).
  assert (∀ k o, o + Z.of_nat k <= OFF_buf_tail → load k m' (tx + o) = load k m (tx + o)) as Hload.
  { intros k o Ho. unfold m', store64. rewrite !load_store_ne by (panel_offsets; lia). done. }
  split.
  1-6: unfold load64, load32; rewrite Hload; [assumption|panel_offsets; lia].
  - unfold m'. rewrite load64_store64_ne by (panel_offsets; lia).
    rewrite load64_store64_eq; [|unfold is_u64; nia]. rewrite Hl. lia.
  - unfold m'. by rewrite !load64_store64_ne by (panel_offsets; lia).
  - unfold m'. rewrite load64_store64_eq; [|unfold is_u64; nia]. rewrite Hl. lia.
  - intros i x Hi.
    assert (load64 m (tx + OFF_row_lens + 8 * Z.of_nat i) = Z.of_nat (length x) ∧
      bytes_at m (tx + OFF_buf + text_width g * Z.of_nat i) x ∧ Z.of_nat (length x) < text_width g ∧ Z.of_nat i <= n) as (Hl'&Hb'&?&?).
    { apply lookup_app_Some in Hi as [Hi|[Hge Hi]].
      - pose proof (lookup_lt_Some _ _ _ Hi). destruct (J i x Hi) as (?&?&?). split_and!; [done..|lia].
      - apply list_lookup_singleton_Some in Hi as [Hi ->]. assert (i = length rows) as -> by lia. split_and!; [done..|lia]. }
    assert (text_width g * Z.of_nat i + text_width g <= 1048576) by nia. split_and!; [| |done].
    + unfold m'. rewrite !load64_store64_ne; [done|panel_offsets; nia..].
    + eapply bytes_at_agree; [|exact Hb']. intros a Ha. unfold m', store64. rewrite !load8_store_ne; [done|panel_offsets; lia..].
  - rewrite Hl. lia.
Qed.

Section panel_proofs.
Context {S : Type} `{HasMemory S}.

Lemma wp_get tx off v (s : S) (Q : Z → S → Prop) : panel_placed tx → 0 <= off <= SIZE_panel_text →
  load64 (mem_of s) (tx + off) = v → Q v s → wp (get tx off) Q s.
Proof.
  intros (?&?&_) Ho <- HQ. apply wp_read. unfold uadd. rewrite u64_small by (unfold OFF_start_row in *; lia). exact HQ.
Qed.

Lemma placed_not_null tx : panel_placed tx → not_null tx = true.
Proof. intros (?&_). apply negb_true_iff, Z.eqb_neq. lia. Qed.

Context {tx : Z} {g : geometry} (Htx : panel_placed tx) (Hg : fits g).

(** The fields, read in one step. *)
Ltac field lem := apply wp_bind; eapply (wp_get tx); [exact Htx|panel_offsets; lia|eapply lem; eassumption|cbv beta].
Ltac nonnull := apply wp_bind, wp_assert; [by apply placed_not_null|].

Lemma wp_text_width rows s (Q : Z → S → Prop) : panel_rep (mem_of s) tx g rows → Q (text_width g) s →
  wp (panel_text_width tx) Q s.
Proof.
  intros Hr HQ. unfold panel_text_width. nonnull. field pn_colx. field pn_col0. apply wp_ret. u64_unfold.
  unfold fits, SCREEN_WIDTH, text_width in *. by rewrite (u64_small (colx g - col0 g)), u64_small by lia.
Qed.

Lemma wp_text_height rows s (Q : Z → S → Prop) : panel_rep (mem_of s) tx g rows → Q (text_height g) s →
  wp (panel_text_height tx) Q s.
Proof.
  intros Hr HQ. unfold panel_text_height. nonnull. field pn_rowx. field pn_row0. apply wp_ret. u64_unfold.
  unfold fits, SCREEN_HEIGHT, text_height in *. by rewrite (u64_small (rowx g - row0 g)), u64_small by lia.
Qed.

Lemma wp_row_total rows s (Q : Z → S → Prop) : panel_rep (mem_of s) tx g rows → Q (ring_rows g) s →
  wp (_buf_row_total tx) Q s.
Proof.
  intros Hr HQ. unfold _buf_row_total. field pn_len. apply wp_bind. eapply wp_text_width; [done|].
  pose proof (width_range g Hg). rewrite (proj2 (Z.eqb_neq _ _)) by lia. by apply wp_ret.
Qed.

Lemma wp_row_offs row rows s (Q : Z → S → Prop) : panel_rep (mem_of s) tx g rows → 0 <= row < ring_rows g →
  Q (text_width g * row) s → wp (_buf_row_offs tx row) Q s.
Proof.
  intros Hr Hrow HQ. unfold _buf_row_offs. nonnull. apply wp_bind. eapply wp_row_total; [done|].
  wp_step. wp_step; [bsimp; lia|]. wp_step. eapply wp_text_width; [done|]. wp_step. u64_unfold.
  pose proof (width_range g Hg). pose proof (ring_bounds g Hg). by rewrite u64_small by nia.
Qed.

Lemma wp_tail_next rows s (Q : Z → S → Prop) : panel_rep (mem_of s) tx g rows →
  Q ((Z.of_nat (length rows) + 1) mod ring_rows g) s → wp (_buf_tail_next tx) Q s.
Proof.
  intros Hr HQ. unfold _buf_tail_next. nonnull. field pn_tail. apply wp_bind. eapply wp_row_total; [done|].
  pose proof (ring_bounds g Hg) as [? ?]. pose proof (width_range g Hg). pose proof (pn_room _ _ _ _ Hr).
  rewrite (proj2 (Z.eqb_neq _ _)) by lia. wp_step. u64_unfold. by rewrite u64_small by nia.
Qed.

(** The ring is full when a single row is left. *)
Lemma wp_is_full rows s (Q : bool → S → Prop) : panel_rep (mem_of s) tx g rows →
  Q (Z.of_nat (length rows) + 1 =? ring_rows g) s → wp (panel_text_is_full tx) Q s.
Proof.
  intros Hr HQ. unfold panel_text_is_full. nonnull. apply wp_bind. eapply wp_tail_next; [done|].
  field pn_head. apply wp_ret. pose proof (ring_bounds g Hg) as [? ?]. pose proof (pn_room _ _ _ _ Hr).
  destruct (Z.eqb_spec (Z.of_nat (length rows) + 1) (ring_rows g)) as [->|Hne].
  - by rewrite Z.mod_same by lia.
  - rewrite Z.mod_small by lia. by rewrite (proj2 (Z.eqb_neq _ _)) by lia.
Qed.

(** The loop that copies a row. *)
Lemma wp_copy_row dst off str r s (Q : unit → S → Prop) :
  bytes_at (mem_of s) str r → 0 <= str → str + Z.of_nat (length r) < 18446744073709551616 →
  0 <= dst → 0 <= off → dst + off + Z.of_nat (length r) < 18446744073709551616 →
  str + Z.of_nat (length r) <= dst + off ∨ dst + off + Z.of_nat (length r) <= str →
  (∀ m', wrote (dst + off) r (mem_of s) m' → Q () (set_mem m' s)) →
  wp (for_n (length r) 0 (λ i,
    c ← read 1 (str + i)%u64;
    write 1 (dst + (off + i)%Z)%u64 c)) Q s.
Proof.
  intros Hb Hs0 Hs1 Hd0 Ho Hd1 Hdis HQ.
  apply (wp_for_n (λ i s', ∃ m', s' = set_mem m' s ∧ wrote (dst + off) (take (Z.to_nat i) r) (mem_of s) m')).
  - exists (mem_of s). split; [by rewrite set_mem_id|apply wrote_nil].
  - intros i s' Hi (m'&->&Hw). u64_unfold.
    destruct (lookup_lt_is_Some_2 r (Z.to_nat i) ltac:(lia)) as [c Hc].
    assert (length (take (Z.to_nat i) r) = Z.to_nat i) as Hl by (rewrite length_take; lia).
    pose proof (bytes_at_wrote _ _ _ _ str r Hw ltac:(lia) Hb (Z.to_nat i) c Hc) as Hr.
    rewrite Z2Nat.id in Hr by lia.
    assert (is_u8 c) as Hc8 by (rewrite <-Hr; apply load8_range).
    wp_step. apply wp_read. rewrite mem_of_set, load_1, (u64_small (str + i)), (u64_small (dst + _)), Hr by lia.
    apply wp_write_byte; [done|]. rewrite mem_of_set. intros m2 Hw2. rewrite set_mem_set. exists m2. split; [done|].
    replace (Z.to_nat (i + 1)) with (Datatypes.S (Z.to_nat i)) by lia. erewrite take_S_r by done.
    eapply wrote_app; [done|]. rewrite Hl, Z2Nat.id by lia. by rewrite <-Z.add_assoc.
  - intros s' (m'&->&Hw). rewrite Z.add_0_l, Nat2Z.id, take_ge in Hw by lia. by apply HQ.
Qed.

Lemma wp_write_row rows str r s (Q : bool → S → Prop) : panel_rep (mem_of s) tx g rows →
  bytes_at (mem_of s) str r → Z.of_nat (length r) < text_width g → 0 < str →
  str + Z.of_nat (length r) < 18446744073709551616 → str + Z.of_nat (length r) <= tx ∨ tx + SIZE_panel_text <= str →
  (Z.of_nat (length rows) + 1 = ring_rows g → Q false s) →
  (∀ m', Z.of_nat (length rows) + 1 < ring_rows g → panel_rep m' tx g (rows ++ [r]) →
    same_but (λ a, tx <= a < tx + SIZE_panel_text) (mem_of s) m' → Q true (set_mem m' s)) →
  wp (panel_text_write_row tx str (Z.of_nat (length r))) Q s.
Proof.
  intros Hr Hb Hlt Hs0 Hs1 Hdis Hfull Hpush. pose proof (ring_bounds g Hg) as [_ Hring].
  pose proof (width_range g Hg) as Hw. pose proof (pn_room _ _ _ _ Hr) as Hroom.
  unfold panel_text_write_row. nonnull. wp_step. wp_step; [apply negb_true_iff, Z.eqb_neq; lia|].
  wp_step. eapply wp_text_width; [done|]. wp_step. wp_step; [bsimp; lia|].
  wp_step. eapply wp_is_full; [done|]. destruct (Z.eqb_spec (Z.of_nat (length rows) + 1) (ring_rows g)) as [He|Hne].
  { apply wp_ret. by apply Hfull. }
  set (n := Z.of_nat (length rows)) in *. field pn_tail. wp_step. eapply wp_row_offs; [done|lia|].
  assert (text_width g * n + text_width g <= 1048576) as Hend by nia.
  assert (n < 1048576) as Hcnt by nia. destruct Htx as (Ht0&Ht1&_). wp_step. rewrite Nat2Z.id.
  apply wp_copy_row; [done|lia|lia|panel_offsets; lia|nia|panel_offsets; lia|panel_offsets; lia|]. intros m1 [Hw1 Ho1].
  assert (panel_rep m1 tx g rows) as Hr1.
  { eapply panel_rep_slot; [done| |exact Hr]. intros a _ Ha. apply Ho1. unfold free_slot in Ha. lia. }
  apply wp_bind. eapply (wp_get tx); [exact Htx|panel_offsets; lia|rewrite mem_of_set; by apply (pn_tail _ _ _ _ Hr1)|].
  assert (row_len_at tx n = tx + OFF_row_lens + 8 * n) as Hat.
  { unfold row_len_at. u64_unfold. rewrite (u64_small (8 * n)), u64_small by (panel_offsets; lia). done. }
  fold n. rewrite Hat. wp_step. apply wp_write. rewrite mem_of_set, set_mem_set.
  set (m2 := store 8 _ _ _). assert (panel_rep m2 tx g rows) as Hr2.
  { eapply panel_rep_slot; [done| |exact Hr1]. intros a _ Ha. apply load8_store_ne. unfold free_slot in Ha. lia. }
  wp_step. eapply wp_tail_next; [by rewrite mem_of_set|]. fold n. rewrite Z.mod_small by lia.
  assert (∀ off, 0 <= off <= SIZE_panel_text → (tx + off)%u64 = tx + off) as Hoff.
  { intros off ?. unfold uadd. by rewrite u64_small by lia. }
  wp_step. unfold set. rewrite Hoff by (panel_offsets; lia). apply wp_write. rewrite mem_of_set, set_mem_set.
  wp_step. unfold get. rewrite Hoff by (panel_offsets; lia). apply wp_read. rewrite mem_of_set, load_store_ne by (panel_offsets; lia).
  change (load 8 m2 ?a) with (load64 m2 a). rewrite (pn_cnt _ _ _ _ Hr2). fold n.
  wp_step. apply wp_write. rewrite mem_of_set, set_mem_set. wp_step. unfold uadd. rewrite u64_small by nia.
  apply Hpush; [lia| |].
  - apply (panel_rep_push m2); [done|done| | |done|lia].
    + fold n. unfold m2. rewrite load64_store64_eq; [done|unfold is_u64; nia].
    + fold n. eapply bytes_at_agree; [|exact Hw1]. intros a Ha. unfold m2. rewrite load8_store_ne; [done|panel_offsets; lia].
  - intros a Ha. unfold m2. rewrite !load8_store_ne by (panel_offsets; lia). apply Ho1. panel_offsets. lia.
Qed.
End panel_proofs.

(* ===================================================================== *)
(** ** What stands on the screen *)

(** The characters [P] and the foregrounds [B] in colour [c] were put on the
    screen, and nothing else in the memory changed. *)
Record displays {S} `{HasMemory S} (P : Z → Z → Z → Prop) (B : Z → Z → Prop) (f : Z) (s s' : S) : Prop := {
  dp_char : ∀ row col c, P row col c → on_screen row col ∧ char_at (mem_of s') row col = c;
  dp_fg : ∀ row col, B row col → on_screen row col ∧ fg_at (mem_of s') row col = f;
  dp_bg : ∀ row col, on_screen row col → bg_at (mem_of s') row col = bg_at (mem_of s) row col;
  dp_same : same_but (λ a, ∃ row col, on_screen row col ∧
    ((∃ c, P row col c) ∧ a = cell row col ∨ B row col ∧ a = cell row col + 1)) (mem_of s) (mem_of s');
  dp_only : only_memory s s';
}.

Section displays.
Context {S : Type} `{HasMemory S}.
Implicit Types (P : Z → Z → Z → Prop) (B : Z → Z → Prop).

Lemma displays_start f (s : S) : displays (λ _ _ _, False) (λ _ _, False) f s s.
Proof. split; [done|done|done|by intros a _|]. unfold only_memory. by rewrite set_mem_id. Qed.

Lemma displays_ext P B P' B' f (s s' : S) : displays P B f s s' → (∀ r k c, P r k c ↔ P' r k c) →
  (∀ r k, B r k ↔ B' r k) → displays P' B' f s s'.
Proof.
  intros [Hc Hf Hb Hs Ho] HP HB. split; [|by intros r k Hr; apply Hf, HB|done| |done].
  - intros r k c Hr. by apply Hc, HP.
  - intros a Ha. apply Hs. intros (r&k&Hrk&Hor). apply Ha. exists r, k. split; [done|].
    destruct Hor as [[[c Hrc] ->]|[Hr ->]]; [left|right]; (split; [|done]); [exists c; by apply HP|by apply HB].
Qed.

Lemma only_memory_cell (s s' : S) row col k v : only_memory s s' → only_memory s (cell_write row col k v s').
Proof.
  unfold only_memory, cell_write. rewrite mem_of_set. intros Ho.
  generalize (store8 (cell row col + k) v (mem_of s')). intros m. rewrite Ho. by rewrite set_mem_set.
Qed.

Lemma other_cell row col row' col' : on_screen row col → on_screen row' col' → ¬ (row = row' ∧ col = col') →
  cell row col + 1 < cell row' col' ∨ cell row' col' + 1 < cell row col.
Proof.
  intros Ho Ho' Hn. destruct (decide (cell row col = cell row' col')) as [E|E]; [by apply cell_inj in E|].
  unfold cell in *. lia.
Qed.

(** One more character. *)
Lemma wp_put P B f c row col (s s' : S) (Q : unit → S → Prop) : on_screen row col → is_u8 c →
  (∀ c', P row col c' → c' = c) → displays P B f s s' →
  (∀ s'', displays (λ r k d, P r k d ∨ (r = row ∧ k = col ∧ d = c)) B f s s'' → Q () s'') →
  wp (screen_write_at c row col) Q s'.
Proof.
  intros Ho Hc8 Hfresh [Hc Hf Hb Hs Hon] HQ. apply wp_screen_write; [done|]. apply HQ.
  assert (∀ a, a ≠ cell row col → load8 (mem_of (cell_write row col 0 c s')) a = load8 (mem_of s') a) as Hne.
  { intros a Ha. unfold cell_write. rewrite mem_of_set. apply load8_store8_ne. lia. }
  split.
  - intros r k d [HP|(->&->&->)].
    + destruct (Hc r k d HP) as [Hrk Hd]. split; [done|]. unfold char_at. destruct (decide (r = row ∧ k = col)) as [[-> ->]|Hx].
      * unfold cell_write. rewrite mem_of_set, Z.add_0_r, load8_store8_eq, u8_small by done. symmetry. by apply Hfresh.
      * rewrite Hne; [done|]. pose proof (other_cell row col r k Ho Hrk ltac:(naive_solver)). lia.
    + split; [done|]. unfold char_at, cell_write. by rewrite mem_of_set, Z.add_0_r, load8_store8_eq, u8_small by done.
  - intros r k HB. destruct (Hf r k HB) as [Hrk Hd]. split; [done|]. unfold fg_at. rewrite Hne; [done|]. unfold cell. lia.
  - intros r k Hrk. rewrite <-Hb by done. unfold bg_at. rewrite Hne; [done|]. unfold cell. lia.
  - intros a Ha. rewrite Hne.
    + apply Hs. intros (r&k&Hrk&Hor). apply Ha. exists r, k. split; [done|]. naive_solver.
    + intros ->. apply Ha. exists row, col. split; [done|]. left. split; [|done]. exists c. auto.
  - by apply only_memory_cell.
Qed.

(** One more coloured cell. *)
Lemma wp_colour P B fg row col (s s' : S) (Q : unit → S → Prop) : on_screen row col →
  displays P B (color_code fg) s s' →
  (∀ s'', displays P (λ r k, B r k ∨ (r = row ∧ k = col)) (color_code fg) s s'' → Q () s'') →
  wp (screen_set_fg_at fg row col) Q s'.
Proof.
  intros Ho [Hc Hf Hb Hs Hon] HQ. apply wp_set_fg; [done|]. apply HQ. set (v := set_low _ _).
  assert (∀ a, a ≠ cell row col + 1 → load8 (mem_of (cell_write row col 1 v s')) a = load8 (mem_of s') a) as Hne.
  { intros a Ha. unfold cell_write. rewrite mem_of_set. apply load8_store8_ne. lia. }
  assert (load8 (mem_of (cell_write row col 1 v s')) (cell row col + 1) = v) as Heq.
  { unfold cell_write. rewrite mem_of_set, load8_store8_eq. unfold v, set_low. by rewrite (u8_small (u8 _)) by apply u8_range. }
  pose proof (halves (load8 (mem_of s') (cell row col + 1)) _ (load8_range _ _) (color_code_range fg)) as Hh.
    unfold halves_check in Hh. bsimp.
  split.
  - intros r k d HP. destruct (Hc r k d HP) as [Hrk Hd]. split; [done|]. unfold char_at. rewrite Hne; [done|]. unfold cell. lia.
  - intros r k HB. destruct (decide (r = row ∧ k = col)) as [[-> ->]|Hx].
    + split; [done|]. unfold fg_at. by rewrite Heq.
    + destruct HB as [HB|]; [|naive_solver]. destruct (Hf r k HB) as [Hrk Hd]. split; [done|]. unfold fg_at. rewrite Hne; [done|].
      pose proof (other_cell row col r k Ho Hrk ltac:(naive_solver)). lia.
  - intros r k Hrk. rewrite <-Hb by done. unfold bg_at. destruct (decide (r = row ∧ k = col)) as [[-> ->]|Hx].
    + by rewrite Heq.
    + rewrite Hne; [done|]. pose proof (other_cell row col r k Ho Hrk ltac:(naive_solver)). lia.
  - intros a Ha. rewrite Hne.
    + apply Hs. intros (r&k&Hrk&Hor). apply Ha. exists r, k. split; [done|]. naive_solver.
    + intros ->. apply Ha. exists row, col. split; [done|]. right. auto.
  - by apply only_memory_cell.
Qed.

(** The panel's structure is not touched. *)
Lemma displays_panel P B f (s s' : S) tx g rows : displays P B f s s' → panel_placed tx → fits g →
  panel_rep (mem_of s) tx g rows → panel_rep (mem_of s') tx g rows.
Proof.
  intros Hd (_&_&Hv) Hg. apply panel_rep_agree; [done|]. intros a Ha. symmetry. apply (dp_same _ _ _ _ _ Hd).
  intros (r&k&Hrk&Hor). unfold on_screen, cell, _offset_max, SCREEN_WIDTH, SCREEN_HEIGHT in *. lia.
Qed.
End displays.

(* ===================================================================== *)
(** ** Drawing a panel *)

(** The box, and the text inside of it. *)
Definition corner (g : geometry) (row col c : Z) : Prop :=
  (row = row0 g ∧ col = col0 g ∧ c = 218) ∨ (row = row0 g ∧ col = colx g ∧ c = 191) ∨
  (row = rowx g ∧ col = col0 g ∧ c = 192) ∨ (row = rowx g ∧ col = colx g ∧ c = 217).
Definition upright (g : geometry) (end_row row col c : Z) : Prop :=
  c = 179 ∧ row0 g < row < end_row ∧ (col = col0 g ∨ col = colx g).
Definition level (g : geometry) (end_col row col c : Z) : Prop :=
  c = 196 ∧ col0 g < col < end_col ∧ (row = row0 g ∨ row = rowx g).
Definition box_char (g : geometry) (row col c : Z) : Prop :=
  corner g row col c ∨ upright g (rowx g) row col c ∨ level g (colx g) row col c.
Definition text_char (g : geometry) (rows : list (list Z)) (n row col c : Z) : Prop :=
  ∃ r, row0 g < row <= row0 g + n ∧ col0 g < col ∧ rows !! Z.to_nat (row - row0 g - 1) = Some r ∧
    r !! Z.to_nat (col - col0 g - 1) = Some c.

(** The rows that fit in the box. *)
Definition rows_shown (g : geometry) (rows : list (list Z)) : Z := Z.min (text_height g) (Z.of_nat (length rows)).

Section draw.
Context {S : Type} `{HasMemory S}.
Context {tx : Z} {g : geometry} {rows : list (list Z)} (Htx : panel_placed tx) (Hg : fits g).
Context {s : S} (Hrep : panel_rep (mem_of s) tx g rows).

(** Characters in the colour of the box. *)
Definition boxed (P : Z → Z → Z → Prop) (s' : S) : Prop := displays P (λ r k, ∃ c, P r k c) (color_code SCREEN_COLOR_BLUE) s s'.

Ltac field lem := apply wp_bind; eapply (wp_get tx); [exact Htx|panel_offsets; lia|
  eapply lem; eapply displays_panel; [eassumption|exact Htx|exact Hg|exact Hrep]|cbv beta].

Lemma wp_draw_box draw P P' c row col s' (Q : unit → S → Prop) : boxed P s' → (∀ r k, draw r k = screen_write_at c r k) →
  on_screen row col → is_u8 c → (∀ c', P row col c' → c' = c) →
  (∀ r k d, P r k d ∨ (r = row ∧ k = col ∧ d = c) ↔ P' r k d) →
  (∀ s'', boxed P' s'' → Q () s'') → wp (draw_box_at draw tx row col) Q s'.
Proof.
  intros Hb Hdraw Ho Hc Hfresh HP HQ. unfold draw_box_at. rewrite Hdraw. apply wp_bind.
  eapply wp_put; [done|done|exact Hfresh|exact Hb|]. intros s1 Hd1.
  pose proof (displays_panel _ _ _ _ _ _ _ _ Hd1 Htx Hg Hrep) as Hr1. destruct Htx as (?&?&_).
  wp_step. apply wp_read. unfold uadd. rewrite u64_small by (panel_offsets; lia).
  change (load 4 ?m ?a) with (load32 m a). rewrite (pn_color _ _ _ _ Hr1).
  apply wp_bind, (wp_of_option _ SCREEN_COLOR_BLUE); [reflexivity|].
  eapply wp_colour; [done|exact Hd1|]. intros s2 Hd2. apply HQ.
  eapply displays_ext; [exact Hd2|exact HP|].
  intros r k. split.
  - intros [[d Hd]|[-> ->]]; [exists d; apply HP; by left|exists c; apply HP; by right].
  - intros [d [Hd|(->&->&->)]%HP]; [left; by exists d|by right].
Qed.

(** Membership in the pictures is arithmetic. *)
Ltac picture_unfold := unfold upright, level, fits, on_screen, is_u8, SCREEN_WIDTH, SCREEN_HEIGHT in *.
Ltac picture :=
  repeat match goal with Hb : boxed _ _ |- _ => clear Hb end; clear Hrep; cbn beta;
  first [ solve [picture_unfold; intros; lia]
        | intros; match goal with |- context [corner g ?r ?k ?c] => generalize (corner g r k c); intros end;
          picture_unfold; solve [intuition lia]
        | solve [picture_unfold; intros; intuition lia]
        | solve [unfold corner in *; picture_unfold; intros; lia] ].

Lemma wp_corners (k : unit → M S unit) (Q : unit → S → Prop) s' : boxed (λ _ _ _, False) s' →
  (∀ s'', boxed (corner g) s'' → wp (k ()) Q s'') →
  wp ((r ← get tx OFF_start_row; c ← get tx OFF_start_col; draw_box_at screen_box_thin_corner_nw_at tx r c ;;
       r ← get tx OFF_start_row; c ← get tx OFF_end_col; draw_box_at screen_box_thin_corner_ne_at tx r c ;;
       r ← get tx OFF_end_row; c ← get tx OFF_start_col; draw_box_at screen_box_thin_corner_sw_at tx r c ;;
       r ← get tx OFF_end_row; c ← get tx OFF_end_col; draw_box_at screen_box_thin_corner_se_at tx r c ;; k ())) Q s'.
Proof.
  intros Hd HQ. field pn_row0. field pn_col0. apply wp_bind.
  eapply (wp_draw_box _ _ (λ r k c, r = row0 g ∧ k = col0 g ∧ c = 218)); [exact Hd|done|picture|picture|done|picture|]. intros s1 Hd1.
  field pn_row0. field pn_colx. apply wp_bind.
  eapply (wp_draw_box _ _ (λ r k c, (r = row0 g ∧ k = col0 g ∧ c = 218) ∨ r = row0 g ∧ k = colx g ∧ c = 191));
    [exact Hd1|done|picture|picture|cbn; picture|cbn; picture|]. intros s2 Hd2.
  field pn_rowx. field pn_col0. apply wp_bind.
  eapply (wp_draw_box _ _ (λ r k c, (r = row0 g ∧ k = col0 g ∧ c = 218) ∨ (r = row0 g ∧ k = colx g ∧ c = 191) ∨
    r = rowx g ∧ k = col0 g ∧ c = 192)); [exact Hd2|done|picture|picture|cbn; picture|cbn; picture|]. intros s3 Hd3.
  field pn_rowx. field pn_colx. apply wp_bind.
  eapply (wp_draw_box _ _ (corner g)); [exact Hd3|done|picture|picture|cbn; picture|cbn; picture|]. exact HQ.
Qed.

Lemma wp_uprights s' (Q : unit → S → Prop) : boxed (corner g) s' →
  (∀ s'', boxed (λ r k c, corner g r k c ∨ upright g (rowx g) r k c) s'' → Q () s'') →
  wp (loop 26 (λ i,
    r ← get tx OFF_end_row;
    if i <? r then
      c ← get tx OFF_start_col;
      draw_box_at screen_box_thin_border_v_at tx i c ;;
      c ← get tx OFF_end_col;
      draw_box_at screen_box_thin_border_v_at tx i c ;;
      mret (inl (i + 1)%u64)
    else mret (inr ())) (row0 g + 1)) Q s'.
Proof.
  intros Hd HQ.
  apply (wp_loop (λ i s', row0 g < i <= rowx g ∧ boxed (λ r k c, corner g r k c ∨ upright g i r k c) s') (λ i, Z.to_nat (25 - i))).
  - split; [picture|]. eapply displays_ext; [exact Hd|picture|]. intros r k. split; intros [c Hc]; exists c; picture.
  - picture.
  - intros i s1 [Hi Hd1]. field pn_rowx. destruct (Z.ltb_spec i (rowx g)); cycle 1.
    { apply wp_ret, HQ. by replace i with (rowx g) in Hd1 by lia. }
    field pn_col0. apply wp_bind.
    eapply (wp_draw_box _ _ (λ r k c, corner g r k c ∨ upright g i r k c ∨ r = i ∧ k = col0 g ∧ c = 179));
      [exact Hd1|done|picture|picture|cbn; picture|cbn; picture|]. intros s2 Hd2.
    field pn_colx. apply wp_bind.
    eapply (wp_draw_box _ _ (λ r k c, corner g r k c ∨ upright g (i + 1) r k c));
      [exact Hd2|done|picture|picture|cbn; picture|cbn; picture|]. intros s3 Hd3.
    apply wp_ret. unfold uadd. rewrite u64_small by picture. split; [split; [lia|done]|picture].
Qed.

Lemma wp_levels s' (Q : unit → S → Prop) : boxed (λ r k c, corner g r k c ∨ upright g (rowx g) r k c) s' →
  (∀ s'', boxed (box_char g) s'' → Q () s'') →
  wp (loop 81 (λ i,
    c ← get tx OFF_end_col;
    if i <? c then
      r ← get tx OFF_start_row;
      draw_box_at screen_box_thin_border_h_at tx r i ;;
      r ← get tx OFF_end_row;
      draw_box_at screen_box_thin_border_h_at tx r i ;;
      mret (inl (i + 1)%u64)
    else mret (inr ())) (col0 g + 1)) Q s'.
Proof.
  intros Hd HQ. set (U := λ r k c, corner g r k c ∨ upright g (rowx g) r k c) in *.
  apply (wp_loop (λ i s', col0 g < i <= colx g ∧ boxed (λ r k c, U r k c ∨ level g i r k c) s') (λ i, Z.to_nat (80 - i))).
  - split; [picture|]. eapply displays_ext; [exact Hd|picture|]. intros r k. split; intros [c Hc]; exists c; picture.
  - picture.
  - intros i s1 [Hi Hd1]. field pn_colx. destruct (Z.ltb_spec i (colx g)); cycle 1.
    { apply wp_ret, HQ. replace i with (colx g) in Hd1 by lia. eapply displays_ext; [exact Hd1|..]; unfold box_char, U; naive_solver. }
    field pn_row0. apply wp_bind.
    eapply (wp_draw_box _ _ (λ r k c, U r k c ∨ level g i r k c ∨ r = row0 g ∧ k = i ∧ c = 196));
      [exact Hd1|done|picture|picture|unfold U; cbn; picture|cbn; picture|]. intros s2 Hd2.
    field pn_rowx. apply wp_bind.
    eapply (wp_draw_box _ _ (λ r k c, U r k c ∨ level g (i + 1) r k c));
      [exact Hd2|done|picture|picture|unfold U; cbn; picture|cbn; picture|]. intros s3 Hd3.
    apply wp_ret. unfold uadd. rewrite u64_small by picture. split; [split; [lia|done]|picture].
Qed.

(** The first [i] rows, and [j] characters of the next. *)
Definition text_upto (i j row col c : Z) : Prop :=
  text_char g rows i row col c ∨ text_char g rows (i + 1) row col c ∧ row = row0 g + 1 + i ∧ col <= col0 g + j.

Definition lettered (P : Z → Z → Z → Prop) (s' : S) : Prop :=
  displays (λ r k c, box_char g r k c ∨ P r k c) (λ r k, ∃ c, box_char g r k c) (color_code SCREEN_COLOR_BLUE) s s'.

Lemma text_char_inside n row col c : n <= text_height g → text_char g rows n row col c →
  row0 g < row < rowx g ∧ col0 g < col < colx g ∧ row - row0 g <= n.
Proof.
  intros Hn (r&Hrow&Hcol&Hr&Hc). destruct (pn_rows _ _ _ _ Hrep _ _ Hr) as (_&_&Hlt).
  apply lookup_lt_Some in Hc. unfold text_height, text_width in *. lia.
Qed.

(** One character of a row. *)
Lemma wp_letter i j r c s' (Q : unit → S → Prop) : 0 <= i < rows_shown g rows → rows !! Z.to_nat i = Some r →
  0 <= j → r !! Z.to_nat j = Some c → is_u8 c → lettered (text_upto i j) s' →
  (∀ s'', lettered (text_upto i (j + 1)) s'' → Q () s'') →
  wp (panel_write_char c (row0 g + 1 + i) (col0 g + 1 + j)) Q s'.
Proof.
  intros Hi Hr Hj Hc Hc8 Hl HQ. unfold rows_shown in Hi.
  assert (text_char g rows (i + 1) (row0 g + 1 + i) (col0 g + 1 + j) c) as Ht.
  { exists r. replace (row0 g + 1 + i - row0 g - 1) with i by lia. replace (col0 g + 1 + j - col0 g - 1) with j by lia.
    split_and!; [lia|lia|lia|done|done]. }
  pose proof (text_char_inside (i + 1) _ _ _ ltac:(lia) Ht) as (Hrow&Hcol&_).
  assert (on_screen (row0 g + 1 + i) (col0 g + 1 + j)) as Ho by (clear Hl; picture).
  unfold panel_write_char. wp_step. wp_step; [apply Z.ltb_lt, Ho|]. wp_step. wp_step; [apply Z.ltb_lt, Ho|].
  eapply wp_put; [done|done| |exact Hl|].
  - intros c' [Hb|[(x&Hx&_)|[(x&_&_&Hx&Hx')_]]]; [exfalso; unfold box_char, corner, upright, level in Hb; lia|lia|].
    replace (row0 g + 1 + i - row0 g - 1) with i in Hx by lia. replace (col0 g + 1 + j - col0 g - 1) with j in Hx' by lia.
    rewrite Hr in Hx. injection Hx as <-. congruence.
  - intros s2 Hs2. apply HQ. eapply displays_ext; [exact Hs2| |done]. intros r' k' d. unfold text_upto. split.
    + intros [[?|[?|(?&?&?)]]|(->&->&->)]; [by left|right; by left|right; right; split_and!; [done..|lia]|right; right; split_and!; [done..|lia]].
    + intros [?|[?|(Hd&->&Hk)]]; [left; by left|left; right; by left|].
      destruct (decide (k' = col0 g + 1 + j)) as [->|]; [|left; right; right; split_and!; [done..|lia]].
      right. split_and!; [done..|]. destruct Hd as (x&_&_&Hx&Hx').
      replace (row0 g + 1 + i - row0 g - 1) with i in Hx by lia. replace (col0 g + 1 + j - col0 g - 1) with j in Hx' by lia.
      rewrite Hr in Hx. injection Hx as <-. congruence.
Qed.

(** One row. *)
Lemma wp_text_row i r s' (Q : unit → S → Prop) : 0 <= i < rows_shown g rows → rows !! Z.to_nat i = Some r →
  lettered (text_char g rows i) s' → (∀ s'', lettered (text_char g rows (i + 1)) s'' → Q () s'') →
  wp (panel_write_str_len (tx + OFF_buf + text_width g * i) (Z.of_nat (length r)) (row0 g + 1 + i) (col0 g + 1)) Q s'.
Proof.
  intros Hi Hr Hl HQ. destruct (pn_rows _ _ _ _ Hrep _ _ Hr) as (_&_&Hlt). unfold panel_write_str_len.
  pose proof Htx as (Ht0&Ht1&_). pose proof (ring_bounds g Hg) as [_ Hring]. pose proof (pn_room _ _ _ _ Hrep) as Hroom.
  pose proof (width_range g Hg) as Hw. unfold rows_shown in Hi.
  assert (text_width g * i + text_width g <= 1048576) as Hend by nia.
  assert (is_u64 (col0 g + 1 + Z.of_nat (length r)) ∧ col0 g + 1 + Z.of_nat (length r) < SCREEN_WIDTH) as [Hu Hlen].
  { clear Hl. unfold is_u64, text_width in *. picture. }
  wp_step. wp_step; [unfold ultb, uadd; rewrite u64_small by done; by apply Z.ltb_lt|]. rewrite Nat2Z.id.
  apply (wp_for_n (λ j s', lettered (text_upto i j) s')).
  - eapply displays_ext; [exact Hl| |done]. intros r' k c. unfold text_upto. split; [tauto|].
    intros [?|[?|[(x&?)[_ ?]]]]; [tauto|tauto|lia].
  - intros j s1 Hj Hs1. destruct (lookup_lt_is_Some_2 r (Z.to_nat j) ltac:(lia)) as [c Hc].
    destruct (pn_rows _ _ _ _ (displays_panel _ _ _ _ _ _ _ _ Hs1 Htx Hg Hrep) _ _ Hr) as (_&Hb&_).
    rewrite Z2Nat.id in Hb by lia. specialize (Hb (Z.to_nat j) c Hc). rewrite Z2Nat.id in Hb by lia.
    wp_step. apply wp_read. rewrite load_1. unfold uadd. rewrite (u64_small (tx + _ + _ + j)) by (panel_offsets; nia).
    rewrite (u64_small (col0 g + 1 + j)) by (destruct Hg as (_&_&?&_); unfold is_u64 in *; lia). rewrite Hb.
    eapply wp_letter; [unfold rows_shown; lia|exact Hr|lia|exact Hc|rewrite <-Hb; apply load8_range|exact Hs1|done].
  - intros s1 Hs1. apply HQ. eapply displays_ext; [exact Hs1| |done]. intros r' k c. unfold text_upto. split.
    + intros [?|[(x&Hx)|[? _]]]; [by left| |by right]. right. exists x. split; [lia|]. apply Hx.
    + intros [?|Ht]; [by left|]. right. pose proof Ht as (x&Hx&Hk&Hrow&Hcol).
      destruct (decide (r' = row0 g + 1 + i)) as [->|Hne]; [right|left; exists x; split; [lia|done]].
      split_and!; [done..|]. replace (row0 g + 1 + i - row0 g - 1) with i in Hrow by lia. rewrite Hr in Hrow. injection Hrow as <-.
      apply lookup_lt_Some in Hcol. lia.
Qed.

Lemma wp_draw_txt s' (Q : unit → S → Prop) : boxed (box_char g) s' →
  (∀ s'', lettered (text_char g rows (rows_shown g rows)) s'' → Q () s'') → wp (_draw_txt tx) Q s'.
Proof.
  intros Hd HQ. pose proof (displays_panel _ _ _ _ _ _ _ _ Hd Htx Hg Hrep) as Hr'. unfold _draw_txt.
  apply wp_bind. eapply wp_text_height; [exact Htx|exact Hg|exact Hr'|]. field pn_cnt.
  assert ((if Z.of_nat (length rows) <? text_height g then Z.of_nat (length rows) else text_height g) = rows_shown g rows) as ->.
  { unfold rows_shown. destruct (Z.ltb_spec (Z.of_nat (length rows)) (text_height g)); lia. }
  assert (0 <= rows_shown g rows <= text_height g) as Hn by (clear Hd; unfold rows_shown, text_height; picture).
  assert (0 <= text_height g < 25) as Hh by (clear Hd; unfold text_height; picture).
  pose proof Htx as (Ht0&Ht1&_). pose proof (ring_bounds g Hg) as [_ Hring]. pose proof (pn_room _ _ _ _ Hrep) as Hroom.
  pose proof (width_range g Hg) as Hw.
  apply (wp_for_n (λ i s', lettered (text_char g rows i) s')).
  - eapply displays_ext; [exact Hd| |done]. intros r k c. split; [by left|]. intros [?|(x&?&_)]; [done|lia].
  - intros i s1 Hi Hs1. rewrite Z2Nat.id, Z.add_0_l in Hi by lia.
    destruct (lookup_lt_is_Some_2 rows (Z.to_nat i) ltac:(unfold rows_shown in *; lia)) as [r Hr].
    pose proof (displays_panel _ _ _ _ _ _ _ _ Hs1 Htx Hg Hrep) as Hrep1. destruct (pn_rows _ _ _ _ Hrep1 _ _ Hr) as (Hl&_&_).
    assert (i < ring_rows g) as Hir by (unfold rows_shown in *; lia). rewrite Z2Nat.id in Hl by lia.
    assert (text_width g * i + text_width g <= 1048576) as Hend by nia.
    assert (0 <= row0 g < 25 ∧ 0 <= col0 g < 80) as [Hr0 Hc0] by (clear Hd Hs1; picture).
    assert ((i + 0)%u64 = i) as Hi0 by (unfold uadd; rewrite Z.add_0_r, u64_small by lia; done).
    field pn_head. rewrite Hi0. apply wp_bind. eapply wp_row_offs; [exact Htx|exact Hg|exact Hrep1|lia|].
    assert (row_len_at tx i = tx + OFF_row_lens + 8 * i) as ->.
    { unfold row_len_at. u64_unfold. rewrite (u64_small (8 * i)), u64_small by (panel_offsets; nia). done. }
    wp_step. apply wp_read. change (load 8 ?m ?a) with (load64 m a). rewrite Hl.
    unfold _txt_start_row, _txt_start_col. apply wp_bind. field pn_row0. wp_step. apply wp_bind. field pn_col0. wp_step.
    u64_unfold. rewrite (u64_small (row0 g + 1)), (u64_small (row0 g + 1 + i)), (u64_small (col0 g + 1)) by lia.
    rewrite u64_small by (panel_offsets; nia). by apply (wp_text_row i r).
  - intros s1 Hs1. rewrite Z2Nat.id, Z.add_0_l in Hs1 by lia. by apply HQ.
Qed.

Lemma wp_panel_draw (Q : unit → S → Prop) :
  (∀ s', lettered (text_char g rows (rows_shown g rows)) s' → Q () s') → wp (panel_text_draw tx) Q s.
Proof.
  intros HQ. unfold panel_text_draw. apply wp_bind, wp_assert; [by apply placed_not_null|].
  assert (boxed (λ _ _ _, False) s) as H0.
  { eapply displays_ext; [apply displays_start|done|]. intros r k. split; [done|by intros [? ?]]. }
  apply (wp_corners (λ _, _)); [exact H0|]. intros s1 Hd1. field pn_row0.
  assert (0 <= row0 g < 25 ∧ 0 <= col0 g < 80) as [Hr0 Hc0] by (clear H0 Hd1; picture).
  assert ((row0 g + 1)%u64 = row0 g + 1) as -> by (unfold uadd; by rewrite u64_small by lia).
  apply wp_bind, wp_uprights; [exact Hd1|]. intros s2 Hd2. field pn_col0.
  assert ((col0 g + 1)%u64 = col0 g + 1) as -> by (unfold uadd; by rewrite u64_small by lia).
  apply wp_bind, wp_levels; [exact Hd2|]. intros s3 Hd3.
  by apply wp_draw_txt.
Qed.
End draw.

(* ===================================================================== *)
(** ** The panel's promises *)

Section promises.
Context {S : Type} `{HasMemory S}.

(** C26: the buffer of a panel is a bounded list of rows.  On a panel that holds
    [rows], [panel_text_write_row] of a row that is shorter than the text area
    appends it and returns true as long as the ring keeps a free row, changing
    only the panel's structure; on a full ring it returns false and changes
    nothing. *)
Theorem panel_write_row_ok (tx str : Z) (g : geometry) (rows : list (list Z)) (r : list Z) (s : S)
    (Htx : panel_placed tx) (Hg : fits g) (Hrep : panel_rep (mem_of s) tx g rows)
    (Hb : bytes_at (mem_of s) str r) (Hlen : Z.of_nat (length r) < text_width g)
    (Hstr : 0 < str ∧ str + Z.of_nat (length r) < 18446744073709551616)
    (Hdis : str + Z.of_nat (length r) <= tx ∨ tx + SIZE_panel_text <= str) :
  if Z.of_nat (length rows) + 1 <? ring_rows g
  then ∃ m', panel_text_write_row tx str (Z.of_nat (length r)) s = Done (true, set_mem m' s) ∧
    panel_rep m' tx g (rows ++ [r]) ∧ same_but (λ a, tx <= a < tx + SIZE_panel_text) (mem_of s) m'
  else panel_text_write_row tx str (Z.of_nat (length r)) s = Done (false, s).
Proof.
  pose proof (pn_room _ _ _ _ Hrep) as Hroom.
  assert (wp (panel_text_write_row tx str (Z.of_nat (length r))) (λ ok s',
    if Z.of_nat (length rows) + 1 <? ring_rows g
    then ∃ m', ok = true ∧ s' = set_mem m' s ∧ panel_rep m' tx g (rows ++ [r]) ∧
      same_but (λ a, tx <= a < tx + SIZE_panel_text) (mem_of s) m'
    else ok = false ∧ s' = s) s) as (ok&s'&Hrun&HQ)%wp_done.
  { eapply wp_write_row; [done..|apply Hstr|apply Hstr|done| |].
    - intros He. by rewrite (proj2 (Z.ltb_ge _ _)) by lia.
    - intros m' Hlt Hr Hs. rewrite (proj2 (Z.ltb_lt _ _)) by lia. by exists m'. }
  destruct (Z.ltb_spec (Z.of_nat (length rows) + 1) (ring_rows g)).
  - destruct HQ as (m'&->&->&?&?). by exists m'.
  - by destruct HQ as [-> ->].
Qed.

(** C25: drawing a panel puts on the screen its box in its colour and, inside,
    the first rows of its text, one below the other and as many as the box has
    room for; no other byte of the memory changes. *)
Theorem panel_draw_ok (tx : Z) (g : geometry) (rows : list (list Z)) (s : S)
    (Htx : panel_placed tx) (Hg : fits g) (Hrep : panel_rep (mem_of s) tx g rows) :
  ∃ s', panel_text_draw tx s = Done ((), s') ∧
    displays (λ row col c, box_char g row col c ∨ text_char g rows (rows_shown g rows) row col c)
      (λ row col, ∃ c, box_char g row col c) (color_code SCREEN_COLOR_BLUE) s s' ∧
    panel_rep (mem_of s') tx g rows.
Proof.
  assert (wp (panel_text_draw tx) (λ _ s', lettered (g := g) (s := s) (text_char g rows (rows_shown g rows)) s') s)
    as ([]&s'&Hrun&Hd)%wp_done by by eapply wp_panel_draw.
  exists s'. split; [exact Hrun|]. split; [exact Hd|]. by eapply displays_panel.
Qed.

(** A fresh panel has no rows. *)
Lemma wp_panel_init tx g s (Q : unit → S → Prop) : panel_placed tx → fits g →
  (∀ m', panel_rep m' tx g [] → same_but (λ a, tx <= a < tx + SIZE_panel_text) (mem_of s) m' → Q () (set_mem m' s)) →
  wp (panel_text_init tx (row0 g) (col0 g) (rowx g) (colx g)) Q s.
Proof.
  intros Htx Hg HQ. pose proof Htx as (Ht0&Ht1&_). unfold panel_text_init.
  assert (∀ off, 0 <= off <= SIZE_panel_text → (tx + off)%u64 = tx + off) as Hoff.
  { intros off ?. unfold uadd. by rewrite u64_small by lia. }
  assert (is_u64 (row0 g) ∧ is_u64 (col0 g) ∧ is_u64 (rowx g) ∧ is_u64 (colx g)) as (?&?&?&?).
  { unfold fits, is_u64, SCREEN_WIDTH, SCREEN_HEIGHT in *. lia. }
  apply wp_bind, wp_assert; [by apply placed_not_null|]. unfold set, get.
  do 5 (apply wp_bind; rewrite Hoff by (panel_offsets; lia); apply wp_write). rewrite !set_mem_set, !mem_of_set.
  set (m5 := store 4 _ _ _).
  assert (load64 m5 (tx + OFF_end_col) = colx g ∧ load64 m5 (tx + OFF_start_col) = col0 g) as [E1 E2].
  { unfold m5, load64. rewrite !load_store_ne by (panel_offsets; lia). split.
    - by apply load64_store64_eq.
    - rewrite !load_store_ne by (panel_offsets; lia). by apply load64_store64_eq. }
  do 2 (apply wp_bind; rewrite Hoff by (panel_offsets; lia); apply wp_read; rewrite mem_of_set).
  change (load 8 m5 ?a) with (load64 m5 a). rewrite E1, E2.
  pose proof (width_range g Hg) as Hw. u64_unfold.
  rewrite (u64_small (colx g - col0 g)), (u64_small (colx g - col0 g - 1)) by (unfold text_width, is_u64 in *; lia).
  change (colx g - col0 g - 1) with (text_width g). rewrite (proj2 (Z.eqb_neq (text_width g) 0)) by lia.
  rewrite !Hoff by (panel_offsets; lia). do 3 (apply wp_bind, wp_write). apply wp_write.
  rewrite !set_mem_set, !mem_of_set. apply HQ.
  - assert (is_u64 (1048576 / text_width g)).
    { split; [apply Z.div_pos; lia|]. apply (Z.le_lt_trans _ 1048576); [|lia]. apply Z.div_le_upper_bound; nia. }
    pose proof (ring_bounds g Hg). unfold m5. split; unfold load64, load32.
    all: try (repeat (rewrite load_store_ne by (panel_offsets; lia)); (apply load64_store64_eq || apply load_store_small); done).
    + done.
    + cbn [length]. lia.
  - intros a Ha. unfold m5. rewrite !load8_store_ne by (panel_offsets; lia). done.
Qed.


(** Where nothing was put, nothing changed. *)
Lemma displays_elsewhere P B f (s s' : S) row col : displays P B f s s' → on_screen row col →
  ((∀ c, ¬ P row col c) → char_at (mem_of s') row col = char_at (mem_of s) row col) ∧
  (¬ B row col → fg_at (mem_of s') row col = fg_at (mem_of s) row col).
Proof.
  intros Hd Ho. split; intros Hn; [apply (dp_same _ _ _ _ _ Hd)|unfold fg_at; f_equal; apply (dp_same _ _ _ _ _ Hd)];
    intros (r&k&Hrk&Hor); destruct (decide (r = row ∧ k = col)) as [[-> ->]|Hx];
    try (pose proof (other_cell row col r k Ho Hrk ltac:(naive_solver)); lia); destruct Hor as [[[c Hc] E]|[HB E]].
  - by eapply Hn.
  - unfold cell in *. lia.
  - unfold cell in *. lia.
  - done.
Qed.

(** A string that ends in its row. *)
Lemma wp_panel_write_str P B f str l row col (s0 s : S) (Q : unit → S → Prop) :
  displays P B f s0 s → string_placed (mem_of s) str l → 0 < str →
  0 <= row < SCREEN_HEIGHT → 0 <= col → col + Z.of_nat (length l) < SCREEN_WIDTH →
  (∀ k c, col <= k → ¬ P row k c) →
  (∀ s', displays (λ r k c, P r k c ∨ (r = row ∧ col <= k ∧ l !! Z.to_nat (k - col) = Some c)) B f s0 s' → Q () s') →
  wp (panel_write_str str row col) Q s.
Proof.
  intros Hd Hstr Hs Hrow Hcol Hend Hfree HQ. pose proof Hstr as (Hb&Hl&Hs0&Hs1&Hap). unfold panel_write_str, SCREEN_WIDTH in *.
  wp_step. wp_step; [apply negb_true_iff, Z.eqb_neq; lia|].
  set (D := λ i, displays (λ r k c, P r k c ∨ (r = row ∧ col <= k < col + i ∧ l !! Z.to_nat (k - col) = Some c)) B f s0).
  apply (wp_loop (λ i s', 0 <= i <= Z.of_nat (length l) ∧ D i s' ∧ bytes_at (mem_of s') str (l ++ [0])) (λ i, Z.to_nat (80 - i))).
  - split; [lia|]. split; [|done]. eapply displays_ext; [exact Hd| |done]. intros r k c. split; [by left|]. intros [?|?]; [done|lia].
  - lia.
  - intros i s1 (Hi&H1&Hb1). assert ((i + col)%u64 = i + col) as -> by (unfold uadd; by rewrite u64_small by lia).
    unfold ultb. rewrite (proj2 (Z.ltb_lt _ _)) by lia.
    assert ((str + i)%u64 = str + i) as -> by (unfold uadd; by rewrite u64_small by lia).
    wp_step. apply wp_read. rewrite load_1. destruct (decide (i = Z.of_nat (length l))) as [->|Hne].
    { rewrite (Hb1 (length l) 0) by (by rewrite list_lookup_middle). cbn [Z.eqb]. apply wp_ret, HQ.
      eapply displays_ext; [exact H1| |done]. intros r k c. split; (intros [?|(->&Hk&Hc)]; [by left|right]); [split_and!; [done|lia|done]|].
      pose proof (lookup_lt_Some _ _ _ Hc). split_and!; [done|lia|lia|done]. }
    destruct (lookup_lt_is_Some_2 l (Z.to_nat i) ltac:(lia)) as [c Hc].
    pose proof (Hb1 (Z.to_nat i) c ltac:(by rewrite lookup_app_l by lia)) as Hbc. rewrite Z2Nat.id in Hbc by lia.
    destruct (list.Forall_lookup_1 _ _ _ _ Hl Hc) as [Hc8 Hc0]. rewrite Hbc, (proj2 (Z.eqb_neq _ _) Hc0).
    wp_step. apply wp_read. rewrite load_1, Hbc.
    assert ((col + i)%u64 = col + i) as -> by (unfold uadd; by rewrite u64_small by lia).
    unfold panel_write_char. wp_step. wp_step. wp_step; [bsimp; lia|]. wp_step. wp_step; [unfold SCREEN_WIDTH; bsimp; lia|].
    eapply wp_put; [unfold on_screen, SCREEN_WIDTH; lia|done| |exact H1|].
    + intros c' [Hp|(_&?&_)]; [|lia]. exfalso. apply (Hfree (col + i) c'); [lia|done].
    + intros s2 H2. apply wp_ret. unfold uadd. rewrite u64_small by lia. split; [|lia]. split; [lia|].
      assert (D (i + 1) s2) as H3.
      { eapply displays_ext; [exact H2| |done]. intros r k d. split.
        - intros [[?|(->&?&?)]|(->&->&->)]; [by left|right; split_and!; [done|lia|lia|done]|right].
          replace (col + i - col) with i by lia. split_and!; [done|lia|lia|done].
        - intros [?|(->&Hk&Hd')]; [left; by left|]. destruct (decide (k = col + i)) as [->|].
          + right. replace (col + i - col) with i in Hd' by lia. split_and!; [done|done|congruence].
          + left. right. split_and!; [done|lia|lia|done]. }
      split; [done|]. eapply bytes_at_agree; [|exact Hb1]. intros a Ha. symmetry.
      transitivity (load8 (mem_of s0) a); [apply (dp_same _ _ _ _ _ H3)|symmetry; apply (dp_same _ _ _ _ _ H1)];
        intros (r&k&Hrk&Hor); rewrite length_app in Ha; cbn [length] in Ha;
        unfold on_screen, cell, _offset_max, SCREEN_WIDTH, SCREEN_HEIGHT in *; lia.
Qed.
End promises.

(** The panel that [panel_start] sets up. *)
Definition log_geometry : geometry := Geometry 1 0 (SCREEN_HEIGHT - 2) (SCREEN_WIDTH - 1).
Definition log_label : list Z := [76; 111; 103].
Definition label_char (row col c : Z) : Prop := row = 0 ∧ 2 <= col ∧ log_label !! Z.to_nat (col - 2) = Some c.

Lemma log_fits : fits log_geometry.
Proof. unfold fits, log_geometry, SCREEN_WIDTH, SCREEN_HEIGHT. cbn. lia. Qed.

Section start_ok.
Context `{PanelLink} {S : Type} `{HasMemory S}.

Lemma displays_video P B f (s s' : S) : displays P B f s s' → same_but in_video (mem_of s) (mem_of s').
Proof.
  intros Hd a Ha. apply (dp_same _ _ _ _ _ Hd). intros (r&k&Hrk&Hor). apply Ha. apply (cell_in_video r k); [done|lia].
Qed.

(** The bar at the top. *)
Definition bar_shows (s s' : S) : Prop :=
  (∀ row col, on_screen row col →
    (∀ c, label_char row col c → char_at (mem_of s') row col = c) ∧
    ((∀ c, ¬ label_char row col c) → row = 0 → char_at (mem_of s') row col = _CHAR_NULL) ∧
    (row ≠ 0 → char_at (mem_of s') row col = char_at (mem_of s) row col) ∧
    bg_at (mem_of s') row col = (if row =? 0 then color_code _NAV_BG else bg_at (mem_of s) row col)) ∧
  same_but in_video (mem_of s) (mem_of s').

Lemma wp_nav_init s (Q : unit → S → Prop) : string_placed (mem_of s) log_item log_label → 0 < log_item →
  (∀ s', bar_shows s s' → Q () s') → wp panel_nav_init Q s.
Proof.
  intros Hstr Hpos HQ. unfold panel_nav_init. apply wp_bind.
  apply (wp_for_n (λ col s', cleaned _NAV_BG s (λ r c, r = 0 ∧ c < col) s')).
  { split; [intros r c [_ ?] [_ ?]; lia|]. by intros a _. }
  { intros col s1 Hcol Hs1. rewrite Z.add_0_l, Z2Nat.id in Hcol by (unfold SCREEN_WIDTH; lia).
    apply (wp_clean_at _NAV_BG 0 col s s1 (λ r c, r = 0 ∧ c < col)); [split; [done|exact Hcol]|lia|exact Hs1|].
    intros s2 [H1 H2]. split.
    - intros r c Ho HP. apply H1; [done|]. lia.
    - intros a Ha. apply H2. intros (r&c&?&?&?). apply Ha. exists r, c. split; [done|]. split; [lia|done]. }
  intros s1 [Hcl Hsame]. rewrite Z2Nat.id, Z.add_0_l in * by (unfold SCREEN_WIDTH; lia).
  assert (same_but in_video (mem_of s) (mem_of s1)) as Hv.
  { intros a Ha. apply Hsame. intros (r&c&Ho&_&Hac). apply Ha. by apply (cell_in_video r c). }
  pose proof (string_survives _ _ _ _ Hv Hstr) as Hst1. pose proof Hst1 as (Hb&Hl&Hp0&Hp1&Hap). cbn [length log_label] in Hp1, Hap.
  assert ((log_item + 0)%u64 = log_item ∧ (log_item + 1)%u64 = log_item + 1) as [-> ->].
  { unfold uadd. rewrite !u64_small by lia. split; lia. }
  apply bytes_at_cons in Hb as [Hb0 Hb]. wp_step. apply wp_read. rewrite load_1, Hb0.
  wp_step. unfold panel_write_char. wp_step. wp_step; [done|]. wp_step. wp_step; [done|].
  eapply (wp_put _ _ 0); [done|done| |apply displays_start|]; [done|]. intros s2 H2.
  assert (string_placed (mem_of s2) (log_item + 1) [111; 103]) as Hst2.
  { eapply string_survives; [exact (displays_video _ _ _ _ _ H2)|]. split_and!; [exact Hb|by inversion Hl|lia|cbn [length]; lia|cbn [length]; lia]. }
  eapply wp_panel_write_str; [exact H2|exact Hst2|lia|done|lia|done|intros k c Hk [?|?]; [done|lia]|].
  intros s3 H3. apply HQ.
  assert (displays label_char (λ _ _, False) 0 s1 s3) as Hd.
  { eapply displays_ext; [exact H3| |done]. intros r k c. unfold label_char, log_label. split.
    - intros [[?|(->&->&->)]|(->&Hk&Hc)]; [done|done|]. split_and!; [done|lia|].
      replace (Z.to_nat (k - 2)) with (Datatypes.S (Z.to_nat (k - 3))) by lia. done.
    - intros (->&Hk&Hc). destruct (decide (k = 2)) as [->|]; [left; right; by injection Hc as <-|right].
      replace (Z.to_nat (k - 2)) with (Datatypes.S (Z.to_nat (k - 3))) in Hc by lia. split_and!; [done|lia|done]. }
  split.
  - intros row col Ho. destruct (displays_elsewhere _ _ _ _ _ row col Hd Ho) as [Hch _]. split_and!.
    + intros c Hc. by apply (dp_char _ _ _ _ _ Hd).
    + intros Hno ->. rewrite Hch by done. apply Hcl; [done|]. split; [done|apply Ho].
    + intros Hr. rewrite Hch by (intros c [? _]; done). apply Hsame. intros (r&c&Hrc&[-> _]&Ha).
      pose proof (other_cell 0 c row col Hrc Ho ltac:(naive_solver)). lia.
    + rewrite (dp_bg _ _ _ _ _ Hd) by done. destruct (Z.eqb_spec row 0) as [->|Hr].
      * apply Hcl; [done|]. split; [done|apply Ho].
      * unfold bg_at. f_equal. apply Hsame. intros (r&c&Hrc&[-> _]&Ha).
        pose proof (other_cell 0 c row col Hrc Ho ltac:(naive_solver)). lia.
  - intros a Ha. rewrite (displays_video _ _ _ _ _ Hd a Ha). by apply Hv.
Qed.

(** What the screen shows after [panel_start]. *)
Definition start_char (row col c : Z) : Prop := label_char row col c ∨ box_char log_geometry row col c.

(** C31: [panel_start] cleans the screen, shows the label "Log" in a light grey
    bar at the top and the blue box of the log panel below, leaves every other
    cell empty on black, and makes the log panel empty; outside of the video
    memory and the panel's structure nothing changes. *)
Theorem panel_start_ok (s : S) (Htx : panel_placed _log_txt)
    (Hitem : string_placed (mem_of s) log_item log_label) (Hpos : 0 < log_item) :
  ∃ s', panel_start s = Done ((), s') ∧ panel_rep (mem_of s') _log_txt log_geometry [] ∧
    (∀ row col, on_screen row col →
      (∀ c, start_char row col c → char_at (mem_of s') row col = c) ∧
      ((∀ c, ¬ start_char row col c) → char_at (mem_of s') row col = _CHAR_NULL) ∧
      bg_at (mem_of s') row col = color_code (if row =? 0 then _NAV_BG else SCREEN_COLOR_BLACK) ∧
      ((∃ c, box_char log_geometry row col c) → fg_at (mem_of s') row col = color_code SCREEN_COLOR_BLUE)) ∧
    same_but (λ a, in_video a ∨ _log_txt <= a < _log_txt + SIZE_panel_text) (mem_of s) (mem_of s').
Proof.
  cut (wp panel_start (λ _ s', panel_rep (mem_of s') _log_txt log_geometry [] ∧
    (∀ row col, on_screen row col →
      (∀ c, start_char row col c → char_at (mem_of s') row col = c) ∧
      ((∀ c, ¬ start_char row col c) → char_at (mem_of s') row col = _CHAR_NULL) ∧
      bg_at (mem_of s') row col = color_code (if row =? 0 then _NAV_BG else SCREEN_COLOR_BLACK) ∧
      ((∃ c, box_char log_geometry row col c) → fg_at (mem_of s') row col = color_code SCREEN_COLOR_BLUE)) ∧
    same_but (λ a, in_video a ∨ _log_txt <= a < _log_txt + SIZE_panel_text) (mem_of s) (mem_of s')) s).
  { intros Hw. destruct (proj1 (wp_done _ _ _) Hw) as (u&s'&Hok). destruct u. exists s'. exact Hok. }
  unfold panel_start. wp_step. eapply wp_mono; [apply screen_clean_ok|]. intros _ s1 [Hclean Hv1]. cbv beta.
  wp_step. apply wp_nav_init; [by apply (string_survives _ _ _ _ Hv1)|done|]. intros s2 [Hbar Hv2].
  wp_step. apply (wp_panel_init _log_txt log_geometry); [done|exact log_fits|]. intros m3 Hrep Hv3.
  set (s3 := set_mem m3 s2). assert (mem_of s3 = m3) as Hm3 by apply mem_of_set.
  assert (panel_rep (mem_of s3) _log_txt log_geometry []) as Hrep3 by (by rewrite Hm3).
  eapply wp_panel_draw; [exact Htx|exact log_fits|exact Hrep3|]. intros s4 H4.
  assert (∀ a, in_video a → load8 (mem_of s3) a = load8 (mem_of s2) a) as H32.
  { intros a Ha. rewrite Hm3. apply Hv3. destruct Htx as (_&_&?). unfold in_video in Ha. lia. }
  split; [|split].
  - eapply displays_panel; [exact H4|exact Htx|exact log_fits|exact Hrep3].
  - intros row col Ho. destruct (displays_elsewhere _ _ _ _ _ row col H4 Ho) as [Hch _].
    destruct (Hbar row col Ho) as (Hlabel&Hempty&Hrest&Hbg). destruct (Hclean row col Ho) as (Hc1&_&Hb1).
    assert (char_at (mem_of s3) row col = char_at (mem_of s2) row col) as E1 by (apply H32, (cell_in_video row col); [done|lia]).
    assert (bg_at (mem_of s3) row col = bg_at (mem_of s2) row col) as E2.
    { unfold bg_at. f_equal. apply H32, (cell_in_video row col); [done|lia]. }
    assert (∀ c, ¬ text_char log_geometry [] (rows_shown log_geometry []) row col c) as Hnotext by (by intros c (r&_&_&Hr&_)).
    split_and!.
    + intros c [Hl|Hb]; [|apply (dp_char _ _ _ _ _ H4); by left]. rewrite Hch, E1; [by apply Hlabel|].
      intros d [Hb|Hb]; [|by apply (Hnotext d)]. destruct Hl as [-> _].
      unfold box_char, corner, upright, level, log_geometry, SCREEN_HEIGHT in Hb. cbn in Hb. lia.
    + intros Hno. rewrite Hch, E1; [|intros d [Hb|Hb]; [apply (Hno d); by right|by apply (Hnotext d)]].
      destruct (decide (row = 0)) as [->|Hr]; [apply Hempty; [|done]|rewrite Hrest by done; exact Hc1].
      intros c Hc. apply (Hno c). by left.
    + rewrite (dp_bg _ _ _ _ _ H4), E2, Hbg by done. by destruct (row =? 0).
    + intros Hb. by apply (dp_fg _ _ _ _ _ H4).
  - intros a Ha. rewrite (displays_video _ _ _ _ _ H4) by (intros Hx; apply Ha; by left).
    rewrite Hm3, Hv3 by (intros Hx; apply Ha; by right). rewrite Hv2 by (intros Hx; apply Ha; by left).
    apply Hv1. intros Hx. apply Ha. by left.
Qed.
End start_ok.

(* ===================================================================== *)
(** ** A panel in the memory *)

#[export] Instance sample_panel_link : PanelLink := {| _log_txt := 0x1000000; log_item := 0x200000 |}.

Lemma sample_panel_placed : panel_placed 0x1000000.
Proof. split; [|split]; [..|right]; vm_compute; congruence. Qed.

Lemma panel_start_ok_witness :
  ∃ m', panel_start (poke 0x200000 [76; 111; 103; 0] ∅) = Done ((), m') ∧ panel_rep m' 0x1000000 log_geometry [].
Proof.
  destruct (panel_start_ok (S := memory) (poke 0x200000 [76; 111; 103; 0] ∅)) as (m'&Hrun&Hrep&_).
  - exact sample_panel_placed.
  - split; [apply peek_bytes_at; by vm_compute|]. split; [repeat constructor; done|]. split; [done|]. split; [done|]. right. by vm_compute.
  - done.
  - exists m'. split; [exact Hrun|exact Hrep].
Defined.

(** A panel with the row "ab", and room for a row at 0x200000. *)
Definition sample_panel_memory : memory :=
  poke 0x200000 [99; 100]
  (store64 (0x1000000 + OFF_write_cnt) 1 (store64 (0x1000000 + OFF_window_head) 0 (store64 (0x1000000 + OFF_buf_tail) 1
  (store64 (0x1000000 + OFF_row_lens) 2 (poke (0x1000000 + OFF_buf) [97; 98]
  (store64 (0x1000000 + OFF_buf_len) 13443 (store 4 (0x1000000 + OFF_box_color) 1
  (store64 (0x1000000 + OFF_end_col) 79 (store64 (0x1000000 + OFF_end_row) 23
  (store64 (0x1000000 + OFF_start_col) 0 (store64 (0x1000000 + OFF_start_row) 1 ∅))))))))))).

Lemma sample_panel_rep : panel_rep sample_panel_memory 0x1000000 log_geometry [[97; 98]].
Proof.
  split. 1-9: vm_compute; reflexivity. 2: vm_compute; reflexivity.
  intros i r Hi. apply list_lookup_singleton_Some in Hi as [-> <-].
  split; [vm_compute; reflexivity|]. split; [|vm_compute; reflexivity]. apply peek_bytes_at. vm_compute. reflexivity.
Qed.

Lemma panel_write_row_ok_witness : ∃ m',
  panel_text_write_row 0x1000000 0x200000 2 sample_panel_memory = Done (true, m') ∧
  panel_rep m' 0x1000000 log_geometry [[97; 98]; [99; 100]].
Proof.
  pose proof (panel_write_row_ok (S := memory) 0x1000000 0x200000 log_geometry [[97; 98]] [99; 100] sample_panel_memory
    sample_panel_placed log_fits sample_panel_rep) as Hok.
  destruct Hok as (m'&Hrun&Hrep&_).
  - apply peek_bytes_at. vm_compute. reflexivity.
  - vm_compute. reflexivity.
  - split; [lia|vm_compute; reflexivity].
  - left. vm_compute. congruence.
  - exists m'. split; [exact Hrun|exact Hrep].
Defined.

Lemma panel_draw_ok_witness : ∃ m',
  panel_text_draw 0x1000000 sample_panel_memory = Done ((), m') ∧
  char_at m' 1 0 = 218 ∧ char_at m' 2 1 = 97 ∧ char_at m' 2 2 = 98.
Proof.
  destruct (@panel_draw_ok memory memory_has_memory 0x1000000 log_geometry [[97; 98]] sample_panel_memory
    sample_panel_placed log_fits sample_panel_rep) as (m'&Hrun&Hd&_).
  exists m'. split; [exact Hrun|clear Hrun]. split_and!.
  - apply (dp_char _ _ _ _ _ Hd). left. left. left. done.
  - apply (dp_char _ _ _ _ _ Hd). right. by exists [97; 98].
  - apply (dp_char _ _ _ _ _ Hd). right. by exists [97; 98].
Defined.
