(* ===== verification/Log.v ===== *)
(** Log lines, src/log/log.c: text to the serial line and, once enabled, to the
    rows of the frame buffer.

    The addresses of string literals and of the local buffers are parameters;
    [fuel] bounds the polls of the serial line and the lengths of strings. *)
From S2P Require Import Prelude Memory Strings Vesa Ports Video.

(** The characters of a literal. *)
Fixpoint chars (s : string) : list Z :=
  match s with
  | EmptyString => []
  | String c s => Z.of_N (Ascii.N_of_ascii c) :: chars s
  end.

Class LogLink := {
  literal : string → Z;
  log_msg : Z;   (* local of log_uint *)
  log_buf : Z;   (* local of _log_line_format_v *)
}.

(** The static variables of the console: the driver's and the log's. *)
Record console := Console {
  cs_vesa : vesa;
  cs_io : list io_event;
  _screen_row : Z;
  _screen_col : Z;
  _write_screen : bool;
}.

Definition set_vesa (v : vesa) (s : console) : console :=
  Console v (cs_io s) (_screen_row s) (_screen_col s) (_write_screen s).
Definition set_console_io (h : list io_event) (s : console) : console :=
  Console (cs_vesa s) h (_screen_row s) (_screen_col s) (_write_screen s).
Definition set_position (row col : Z) (s : console) : console :=
  Console (cs_vesa s) (cs_io s) row col (_write_screen s).
Definition set_write_screen (b : bool) (s : console) : console :=
  Console (cs_vesa s) (cs_io s) (_screen_row s) (_screen_col s) b.

#[export] Instance console_ports : HasPorts (world console).
Proof.
  refine {| ports_mem := world_has_memory; io_of w := cs_io (w_st w);
            set_io h w := World (w_mem w) (set_console_io h (w_st w)) |}; try done; by intros [m []].
Defined.

Definition LOG_LEVEL_SELF_TEST : Z := 0.
Definition LOG_LEVEL_DEBUG : Z := 1.
Definition LOG_LEVEL_INFO : Z := 2.
Definition LOG_LEVEL_WARN : Z := 3.
Definition LOG_LEVEL_ERROR : Z := 4.
Definition LOG_LEVEL_FATAL : Z := 5.

Definition _LINE_PREFIX_LEVEL : list string := ["[STE]"; "[DBG]"; "[INF]"; "[WRN]"; "[ERR]"; "[FAT]"]%string.
Definition _LINE_PREFIX_LEVEL_LEN : Z := 6.

Section log.
Context `{Device} `{LogLink} (fuel : nat).

Local Abbreviation LM := (M (world console)).

Definition video {A} (m : VM A) : LM A := within cs_vesa set_vesa m.

Definition log_enable_video_write : LM unit := static_set (set_write_screen true).

Definition log_str_len (lv str len : Z) : LM unit :=
  serial_write_str fuel str len ;;
  write_screen ← static _write_screen;
  if write_screen : bool then
    video_width ← video video_char_col_max;
    col ← static _screen_col;
    kernel_assert_d (col <=? video_width) ;;
    let write_len := if (video_width - col <? len)%u64 then (video_width - col)%u64 else len in
    for_n (Z.to_nat write_len) 0 (λ i,
      row ← static _screen_row;
      col ← static _screen_col;
      static_set (set_position row (col + 1)%u64) ;;
      c ← read 1 (str + i)%u64;
      video (video_draw_char row col c))
  else mret ().

Definition log_str (lv str : Z) : LM unit :=
  len ← str_len fuel str;
  log_str_len lv str len.

Definition log_uint (lv uval : Z) : LM unit :=
  msg_len ← str_buf_marshal_uint log_msg 0 64 uval;
  log_str_len lv log_msg msg_len.

(** One round of [_file_strip]: the locals are [idx], [score] and [res]; the
    end of the name is tested with the character '0'. *)
Definition strip_round (file : Z) : Z * Z * Z → LM (Z * Z * Z + Z) := λ '(idx, score, res),
  c ← read 1 (file + idx)%u64;
  if c =? 48 then mret (inr res)
  else
    '(score, res) ←
      (if score =? 0 then mret (if c =? 47 then 1 else 0, res)
       else if score =? 1 then mret (if c =? 115 then 2 else 0, res)
       else if score =? 2 then mret (if c =? 114 then 3 else 0, res)
       else if score =? 3 then mret (if c =? 99 then 4 else 0, res)
       else if score =? 4 then mret (if c =? 47 then 5 else 0, res)
       else if score =? 5 then mret (6, (file + idx)%u64)
       else kernel_panic "Unreachable code.");
    kernel_assert_d (score <=? 6) ;;
    mret (if score =? 6 then inr res else inl ((idx + 1)%u64, score, res)).

Definition _file_strip (file : Z) : LM Z := loop fuel (strip_round file) (0, 0, file).

Definition _log_line_start (lv file line : Z) : LM unit :=
  prefix ← array_get _LINE_PREFIX_LEVEL lv;
  log_str_len lv (literal prefix) _LINE_PREFIX_LEVEL_LEN ;;
  log_str_len lv (literal " "%string) 1 ;;
  stripped ← _file_strip file;
  log_str lv stripped ;;
  log_str_len lv (literal ":"%string) 1 ;;
  log_uint lv line ;;
  log_str_len lv (literal " "%string) 1.

(** "\r\n" *)
Definition CRLF : string := String (Ascii.ascii_of_N 13) (String (Ascii.ascii_of_N 10) EmptyString).

Definition _log_line_end (lv : Z) : LM unit :=
  write_screen ← static _write_screen;
  (if write_screen : bool then
     row_max ← video video_char_row_max;
     row ← static _screen_row;
     row ← (if row_max =? 0 then fault else mret ((row + 1) mod row_max)%u64);
     static_set (set_position row 0)
   else mret ()) ;;
  serial_write_str fuel (literal CRLF) 2.

Definition _log_builtin_test_pass (test_name file line : Z) : LM unit :=
  _log_line_start LOG_LEVEL_SELF_TEST file line ;;
  log_str LOG_LEVEL_SELF_TEST test_name ;;
  log_str LOG_LEVEL_SELF_TEST (literal " .. Passed."%string) ;;
  _log_line_end LOG_LEVEL_SELF_TEST.

Definition _log_line_format_v (lv file line format : Z) (va : list Z) : LM unit :=
  _log_line_start lv file line ;;
  format_len ← str_len fuel format;
  buf_len ← str_buf_marshal_format_v fuel log_buf 0 256 format format_len va;
  log_str_len lv log_buf buf_len ;;
  _log_line_end lv.

End log.

(* ===================================================================== *)
(** ** What a line sends *)

(** The score of the search for "/src/" after one more character. *)
Definition score_next (score c : Z) : Z :=
  if score =? 0 then (if c =? 47 then 1 else 0)
  else if score =? 1 then (if c =? 115 then 2 else 0)
  else if score =? 2 then (if c =? 114 then 3 else 0)
  else if score =? 3 then (if c =? 99 then 4 else 0)
  else (if c =? 47 then 5 else 0).

(** How much of the name [l] is skipped: up to behind "/src/", or nothing when
    a character '0' comes first; [None] when neither is found. *)
Fixpoint strip_at (l : list Z) (score idx : Z) : option Z :=
  match l with
  | [] => None
  | c :: l =>
    if c =? 48 then Some 0 else if score =? 5 then Some idx else strip_at l (score_next score c) (idx + 1)
  end.

Lemma score_next_range score c : 0 <= score <= 4 → 0 <= score_next score c <= 5.
Proof. intros. unfold score_next. repeat case_match; lia. Qed.

Section lines.
Context `{Device} `{LogLink} {fuel n : nat}.
Context (Hans : ∀ h, answers_within PORT_NO_SERIAL_COM1_STATUS_LINE transmit_empty n h) (Hfuel : (n < fuel)%nat).
(** The part of the stack where the local buffers are. *)
Context {lo hi : Z}.

(** Since [w0] the line carried [l]; only the stack changed. *)
Record printed (w0 : world console) (l : list Z) (w : world console) : Prop := {
  pr_sent : sent (cs_io (w_st w)) = reverse l ++ sent (cs_io (w_st w0));
  pr_static : w_st w = set_console_io (cs_io (w_st w)) (w_st w0);
  pr_mem : ∀ a, ¬ (lo <= a < hi) → load8 (w_mem w) a = load8 (w_mem w0) a;
}.

Lemma printed_start w : printed w [] w.
Proof. split; [done|by destruct w as [m []]|done]. Qed.

Lemma printed_string w0 l w p k : printed w0 l w → c_string (w_mem w0) lo hi p k → c_string (w_mem w) lo hi p k.
Proof.
  intros [_ _ Hm] (Hb&Hk&Hp0&Hp1&Hd). split_and!; try done. eapply bytes_at_agree; [|exact Hb].
  intros a Ha. rewrite length_app in Ha. cbn [length] in Ha. symmetry. apply Hm. lia.
Qed.

Lemma printed_send w0 l w k h : printed w0 l w → sent h = reverse k ++ sent (cs_io (w_st w)) →
  printed w0 (l ++ k) (World (w_mem w) (set_console_io h (w_st w))).
Proof.
  intros [Hs Hst Hm] Hh. split; cbn [w_mem w_st cs_io set_console_io].
  - by rewrite Hh, Hs, reverse_app, app_assoc.
  - rewrite Hst. by destruct (w_st w0).
  - done.
Qed.

Lemma printed_mem w0 l w m : printed w0 l w → (∀ a, ¬ (lo <= a < hi) → load8 m a = load8 (w_mem w) a) →
  printed w0 l (World m (w_st w)).
Proof. intros [Hs Hst Hm] Hout. split; [done|done|]. intros a Ha. cbn [w_mem]. by rewrite Hout, Hm. Qed.

Lemma wp_serial str l k w0 w (Q : unit → world console → Prop) : printed w0 l w → bytes_at (w_mem w) str k → 0 <= str →
  str + Z.of_nat (length k) <= 18446744073709551616 → (∀ w', printed w0 (l ++ k) w' → Q () w') →
  wp (serial_write_str fuel str (Z.of_nat (length k))) Q w.
Proof.
  intros Hp Hb Hp0 Hp1 HQ. unfold serial_write_str. rewrite Nat2Z.id.
  eapply (serial_str_loop n fuel str); [done|done|done|done|by rewrite Z.add_0_r|done|by rewrite Z.add_0_r|].
  intros h Hh. apply HQ. by apply printed_send.
Qed.

Lemma wp_log_str_len lv str l k w0 w (Q : unit → world console → Prop) : _write_screen (w_st w0) = false →
  printed w0 l w → bytes_at (w_mem w) str k → 0 <= str → str + Z.of_nat (length k) <= 18446744073709551616 →
  (∀ w', printed w0 (l ++ k) w' → Q () w') → wp (log_str_len fuel lv str (Z.of_nat (length k))) Q w.
Proof.
  intros Hq Hp Hb Hp0 Hp1 HQ. unfold log_str_len. wp_step. eapply wp_serial; [done..|]. intros w' Hp'.
  wp_step. apply wp_static. rewrite (pr_static _ _ _ Hp'). cbn [_write_screen set_console_io]. rewrite Hq.
  apply wp_ret. by apply HQ.
Qed.

Lemma string_bytes m p k : c_string m lo hi p k → bytes_at m p k.
Proof. intros (Hb&_). by apply bytes_at_app in Hb as [? _]. Qed.

Lemma wp_log_str lv str l k w0 w (Q : unit → world console → Prop) : _write_screen (w_st w0) = false →
  printed w0 l w → c_string (w_mem w) lo hi str k → (length k < fuel)%nat →
  (∀ w', printed w0 (l ++ k) w' → Q () w') → wp (log_str fuel lv str) Q w.
Proof.
  intros Hq Hp Hs Hk HQ. pose proof (string_bytes _ _ _ Hs) as Hb. destruct Hs as (Hb0&Hc&Hp0&Hp1&Hd).
  unfold log_str. wp_step. eapply wp_str_len; [exact Hb0| |done|done|lia|].
  { eapply list.Forall_impl; [exact Hc|]. by intros c [? _]. }
  eapply wp_log_str_len; [done|exact Hp|done|done|lia|done].
Qed.

(** A literal of one character. *)
Lemma wp_log_char lv c t l w0 w (Q : unit → world console → Prop) : _write_screen (w_st w0) = false →
  printed w0 l w → c_string (w_mem w) lo hi (literal t) [c] → (∀ w', printed w0 (l ++ [c]) w' → Q () w') →
  wp (log_str_len fuel lv (literal t) 1) Q w.
Proof.
  intros Hq Hp Hs HQ. pose proof (string_bytes _ _ _ Hs) as Hb. destruct Hs as (_&_&Hp0&Hp1&_).
  eapply (wp_log_str_len lv (literal t) l [c]); [done|exact Hp|done|done|lia|done].
Qed.

(** A local buffer lies in the stack window. *)
Definition local_buf (p len : Z) : Prop := lo <= p ∧ p + len <= hi ∧ 0 <= p ∧ p + len < 18446744073709551616.

Lemma wp_log_uint lv v l w0 w (Q : unit → world console → Prop) : _write_screen (w_st w0) = false →
  printed w0 l w → is_u64 v → local_buf log_msg 64 → (∀ w', printed w0 (l ++ decimal v) w' → Q () w') →
  wp (log_uint fuel lv v) Q w.
Proof.
  intros Hq Hp Hv (Hlo&Hhi&Hp0&Hp1) HQ. unfold log_uint. wp_step.
  pose proof (decimal_length 20 v ltac:(apply Hv) ltac:(lia)) as Hl. fold (decimal v) in Hl.
  apply wp_marshal_uint; [done|done|lia|done|lia|]. rewrite Z.add_0_r. intros m [Hb Ho].
  eapply wp_log_str_len; [done| |exact Hb|done|lia|exact HQ].
  apply (printed_mem _ _ w); [done|]. intros a Ha. apply Ho. lia.
Qed.

(** One round: the search goes on, or ends behind "/src/" or at a '0'. *)
Lemma wp_strip_round file idx score c w (Q : Z * Z * Z + Z → world console → Prop) :
  0 <= score <= 5 → 0 <= file → 0 <= idx → file + idx < 18446744073709551615 → load8 (w_mem w) (file + idx) = c →
  Q (if c =? 48 then inr file else if score =? 5 then inr (file + idx) else inl (idx + 1, score_next score c, file)) w →
  wp (strip_round file (idx, score, file)) Q w.
Proof.
  intros Hs Hf Hi Hend Hc HQ. unfold strip_round. wp_step. apply wp_read. rewrite load_1. unfold uadd.
  rewrite (u64_small (file + idx)) by lia. cbn [mem_of world_has_memory]. rewrite Hc.
  destruct (c =? 48); [by apply wp_ret|].
  assert (score = 0 ∨ score = 1 ∨ score = 2 ∨ score = 3 ∨ score = 4 ∨ score = 5) as [->|[->|[->|[->|[->| ->]]]]] by lia;
    cbn [Z.eqb Pos.eqb] in HQ |- *; unfold score_next in HQ; cbn [Z.eqb Pos.eqb] in HQ;
    wp_step; apply wp_ret; cbn [fst snd].
  1-5: case_match; wp_step; (wp_step; [done|]); apply wp_ret; by rewrite u64_small by lia.
  wp_step. wp_step; [done|]. by apply wp_ret.
Qed.

Lemma strip_loop file l k score idx d w (Q : Z → world console → Prop) :
  strip_at l score idx = Some d → 0 <= score <= 5 → 0 <= file → 0 <= idx →
  file + idx + Z.of_nat (length l) < 18446744073709551616 → bytes_at (w_mem w) (file + idx) l → (length l <= k)%nat →
  Q (file + d) w → wp (loop k (strip_round file) (idx, score, file)) Q w.
Proof.
  intros Hd Hs Hf Hi Hend Hb Hk HQ. revert k score idx Hd Hs Hi Hend Hb Hk.
  induction l as [|c l IH]; intros k score idx Hd Hs Hi Hend Hb Hk; [done|].
  apply bytes_at_cons in Hb as [Hc Hb]. cbn [length] in Hend, Hk. destruct k as [|k]; [lia|].
  apply wp_loop_step. apply (wp_strip_round _ _ _ c); [done|done|done|lia|done|].
  cbn [strip_at] in Hd. destruct (c =? 48). { injection Hd as <-. by rewrite Z.add_0_r in HQ. }
  destruct (Z.eqb_spec score 5) as [->|Hs5]. { injection Hd as <-. done. }
  apply IH; [done|by apply score_next_range; lia|lia|lia|by rewrite Z.add_assoc|lia].
Qed.

Lemma wp_file_strip file l d w (Q : Z → world console → Prop) : strip_at l 0 0 = Some d → 0 <= file →
  file + Z.of_nat (length l) < 18446744073709551616 → bytes_at (w_mem w) file l → (length l <= fuel)%nat →
  Q (file + d) w → wp (_file_strip fuel file) Q w.
Proof. intros Hd Hf Hend Hb Hk HQ. eapply (strip_loop file l); [exact Hd|lia|done|lia|lia|by rewrite Z.add_0_r|done|done]. Qed.

(** The literals a line is made of. *)
Definition line_literals : list string := _LINE_PREFIX_LEVEL ++ [" "; ":"; CRLF; " .. Passed."]%string.

Definition literals_ok (m : memory) : Prop :=
  Forall (λ t, c_string m lo hi (literal t) (chars t)) line_literals.

Lemma in_line_literals t : existsb (String.eqb t) line_literals = true → t ∈ line_literals.
Proof. intros (u&Hu&->%String.eqb_eq)%existsb_exists. by apply list_elem_of_In. Qed.

Lemma wp_log_literal lv t l w0 w (Q : unit → world console → Prop) : _write_screen (w_st w0) = false →
  literals_ok (w_mem w0) → printed w0 l w → t ∈ line_literals → (∀ w', printed w0 (l ++ chars t) w' → Q () w') →
  wp (log_str_len fuel lv (literal t) (Z.of_nat (length (chars t)))) Q w.
Proof.
  intros Hq Hl Hp Ht HQ. pose proof (proj1 (list.Forall_forall _ _) Hl t Ht) as Hs. cbn beta in Hs.
  apply (printed_string _ _ _ _ _ Hp) in Hs. pose proof (string_bytes _ _ _ Hs) as Hb. destruct Hs as (_&_&?&?&_).
  eapply wp_log_str_len; [done|exact Hp|done|done|lia|done].
Qed.

(** Six characters of a prefix of five: the closing zero is sent, too. *)
Lemma wp_log_prefix lv t l w0 w (Q : unit → world console → Prop) : _write_screen (w_st w0) = false →
  literals_ok (w_mem w0) → printed w0 l w → t ∈ _LINE_PREFIX_LEVEL →
  (∀ w', printed w0 (l ++ chars t ++ [0]) w' → Q () w') →
  wp (log_str_len fuel lv (literal t) _LINE_PREFIX_LEVEL_LEN) Q w.
Proof.
  intros Hq Hl Hp Ht HQ. assert (_LINE_PREFIX_LEVEL_LEN = Z.of_nat (length (chars t ++ [0]))) as ->.
  { assert (Forall (λ t, length (chars t) = 5%nat) _LINE_PREFIX_LEVEL) as H5 by repeat constructor.
    rewrite length_app. by rewrite (proj1 (list.Forall_forall _ _) H5 t Ht). }
  assert (t ∈ line_literals) as Hin by (apply elem_of_app; by left).
  pose proof (proj1 (list.Forall_forall _ _) Hl t Hin) as Hs. cbn beta in Hs.
  apply (printed_string _ _ _ _ _ Hp) in Hs. destruct Hs as (Hb&_&?&?&_).
  eapply wp_log_str_len; [done|exact Hp|exact Hb|done|rewrite length_app; cbn [length]; lia|done].
Qed.

(** A file name, as a string of which the first [d] characters are skipped. *)
Definition file_name (m : memory) (file : Z) (name : list Z) (d : Z) : Prop :=
  c_string m lo hi file name ∧ strip_at name 0 0 = Some d ∧ (length name < fuel)%nat.

Lemma strip_at_range l score idx d : strip_at l score idx = Some d → 0 <= idx → 0 <= d <= idx + Z.of_nat (length l).
Proof.
  revert score idx. induction l as [|c l IH]; intros score idx Hd Hi; [done|]. cbn [strip_at] in Hd. cbn [length].
  destruct (c =? 48); [injection Hd; lia|]. destruct (score =? 5); [injection Hd; lia|].
  apply IH in Hd; lia.
Qed.

Lemma c_string_drop m p l d : 0 <= d <= Z.of_nat (length l) → c_string m lo hi p l →
  c_string m lo hi (p + d) (drop (Z.to_nat d) l).
Proof.
  intros Hd (Hb&Hc&?&?&?). rewrite <-(take_drop (Z.to_nat d) l), <-app_assoc in Hb.
  apply bytes_at_app in Hb as [_ Hb]. rewrite length_take_le, Z2Nat.id in Hb by lia.
  split_and!; [exact Hb|by apply list.Forall_drop|lia|rewrite length_drop; lia|rewrite length_drop; lia].
Qed.

(** What stands before the message. *)
Definition line_head (prefix : string) (name : list Z) (d line : Z) : list Z :=
  (chars prefix ++ [0]) ++ chars " " ++ drop (Z.to_nat d) name ++ chars ":" ++ decimal line ++ chars " ".

Lemma wp_log_line_start lv prefix file name d line w0 (Q : unit → world console → Prop) :
  _write_screen (w_st w0) = false → literals_ok (w_mem w0) → _LINE_PREFIX_LEVEL !! Z.to_nat lv = Some prefix → 0 <= lv →
  file_name (w_mem w0) file name d → is_u64 line → local_buf log_msg 64 →
  (∀ w', printed w0 (line_head prefix name d line) w' → Q () w') → wp (_log_line_start fuel lv file line) Q w0.
Proof.
  intros Hq Hl Hpre Hlv (Hf&Hd&Hn) Hline Hbuf HQ. unfold _log_line_start.
  pose proof (strip_at_range _ _ _ _ Hd ltac:(lia)) as Hdr. rewrite Z.add_0_l in Hdr.
  apply wp_bind. eapply wp_array_get; [done|exact Hpre|].
  apply wp_bind. eapply (wp_log_prefix lv prefix [] w0); [done|done|apply printed_start|by eapply list_elem_of_lookup_2|].
  intros w1 P1. apply wp_bind. eapply (wp_log_literal lv " " _ w0); [done|done|exact P1|by apply in_line_literals|].
  intros w2 P2. pose proof (printed_string _ _ _ _ _ P2 Hf) as Hf2.
  apply wp_bind. eapply (wp_file_strip file name d); [done|apply Hf2|apply Hf2|by apply string_bytes|lia|].
  apply wp_bind. eapply wp_log_str; [done|exact P2|by apply c_string_drop|rewrite length_drop; lia|].
  intros w3 P3. apply wp_bind. eapply (wp_log_literal lv ":" _ w0); [done|done|exact P3|by apply in_line_literals|].
  intros w4 P4. apply wp_bind. eapply wp_log_uint; [done|exact P4|done|done|].
  intros w5 P5. eapply (wp_log_literal lv " " _ w0); [done|done|exact P5|by apply in_line_literals|].
  intros w6 P6. apply HQ. unfold line_head. by rewrite !app_assoc.
Qed.

Lemma wp_log_line_end lv l w0 w (Q : unit → world console → Prop) :
  _write_screen (w_st w0) = false → literals_ok (w_mem w0) → printed w0 l w →
  (∀ w', printed w0 (l ++ chars CRLF) w' → Q () w') → wp (_log_line_end fuel lv) Q w.
Proof.
  intros Hq Hl Hp HQ. unfold _log_line_end. wp_step. apply wp_static. rewrite (pr_static _ _ _ Hp).
  cbn [_write_screen set_console_io]. rewrite Hq. wp_step. apply wp_ret.
  assert (c_string (w_mem w) lo hi (literal CRLF) (chars CRLF)) as Hs.
  { eapply printed_string; [done|]. apply (proj1 (list.Forall_forall _ _) Hl CRLF). by apply in_line_literals. }
  pose proof (string_bytes _ _ _ Hs) as Hb. destruct Hs as (_&_&?&?&_).
  apply (wp_serial _ l (chars CRLF) w0); [done|done|done|cbn in *; lia|done].
Qed.

Lemma printed_piece w0 l w x : printed w0 l w → local_buf log_buf 256 →
  piece_ok fuel (w_mem w0) lo hi x → piece_ok fuel (w_mem w) (log_buf + 0) (log_buf + 256) x.
Proof.
  intros Hp (?&?&?&?) Hok. assert (∀ p k, c_string (w_mem w0) lo hi p k →
    c_string (w_mem w) (log_buf + 0) (log_buf + 256) p k) as Hc.
  { intros p k (?&?&?&?&?)%(printed_string _ _ _ _ _ Hp). split_and!; [done..|lia]. }
  destruct x; cbn [piece_ok] in *; try done; destruct Hok; (split; [by apply Hc|done]).
Qed.

(** A formatted line, whatever follows. *)
Lemma wp_log_line lv prefix file name d line format xs w0 (Q : unit → world console → Prop) :
  _write_screen (w_st w0) = false → literals_ok (w_mem w0) → local_buf log_msg 64 → local_buf log_buf 256 →
  _LINE_PREFIX_LEVEL !! Z.to_nat lv = Some prefix → 0 <= lv → file_name (w_mem w0) file name d → is_u64 line →
  c_string (w_mem w0) lo hi format (format_of xs) → (length (format_of xs) < fuel)%nat →
  Forall (piece_ok fuel (w_mem w0) lo hi) xs → (length (output_of xs) < 256)%nat →
  (∀ w', printed w0 (line_head prefix name d line ++ output_of xs ++ chars CRLF) w' → Q () w') →
  wp (_log_line_format_v fuel lv file line format (args_of xs)) Q w0.
Proof.
  intros Hq Hl Hmsg Hbuf Hpre Hlv Hfile Hline Hfmt Hlen Hxs Hout HQ. unfold _log_line_format_v.
  apply wp_bind. eapply wp_log_line_start; [done..|]. intros w1 P1.
  pose proof (printed_string _ _ _ _ _ P1 Hfmt) as Hf1. pose proof (string_bytes _ _ _ Hf1) as Hfb.
  destruct Hf1 as (Hf0&Hfc&?&?&?). destruct Hbuf as (?&?&?&?).
  apply wp_bind. eapply wp_str_len; [exact Hf0| |done|done|lia|].
  { eapply list.Forall_impl; [exact Hfc|]. by intros c [? _]. }
  apply wp_bind. apply wp_marshal_format_v; [exact Hfb| |lia..|].
  { eapply list.Forall_impl; [exact Hxs|]. intros x. by eapply printed_piece. }
  intros m [Hb Ho]. rewrite Z.add_0_r in Hb, Ho.
  apply (printed_mem _ _ _ m) in P1; [|intros a Ha; apply Ho; lia].
  apply wp_bind. eapply wp_log_str_len; [done|exact P1|exact Hb|lia|lia|].
  intros w2 P2. eapply wp_log_line_end; [done|done|exact P2|]. intros w3 P3. apply HQ. by rewrite !app_assoc in *.
Qed.

(** C20: a formatted log line.  With the frame buffer switched off and a serial
    device that empties its transmit register in time, [_log_line_format_v]
    returns and sends exactly: the level's prefix with its closing zero, a
    blank, the file name behind "/src/" (or all of it when a digit 0 comes
    first), a colon, the line number in decimal, a blank, the formatted
    message, and CR LF.  The static variables are unchanged, and memory outside
    the window with the local buffers is, too. *)
Theorem log_line_ok (lv : Z) (prefix : string) (file : Z) (name : list Z) (d line format : Z) (xs : list piece)
    (w0 : world console) (Hquiet : _write_screen (w_st w0) = false) (Hliterals : literals_ok (w_mem w0))
    (Hmsg : local_buf log_msg 64) (Hbuf : local_buf log_buf 256)
    (Hlevel : _LINE_PREFIX_LEVEL !! Z.to_nat lv = Some prefix) (Hlv : 0 <= lv)
    (Hfile : file_name (w_mem w0) file name d) (Hline : is_u64 line)
    (Hformat : c_string (w_mem w0) lo hi format (format_of xs)) (Hlength : (length (format_of xs) < fuel)%nat)
    (Hpieces : Forall (piece_ok fuel (w_mem w0) lo hi) xs) (Hroom : (length (output_of xs) < 256)%nat) :
  ∃ w', _log_line_format_v fuel lv file line format (args_of xs) w0 = Done ((), w') ∧
    sent (cs_io (w_st w')) =
      reverse (line_head prefix name d line ++ output_of xs ++ chars CRLF) ++ sent (cs_io (w_st w0)) ∧
    w_st w' = set_console_io (cs_io (w_st w')) (w_st w0) ∧
    (∀ a, ¬ (lo <= a < hi) → load8 (w_mem w') a = load8 (w_mem w0) a).
Proof.
  assert (wp (_log_line_format_v fuel lv file line format (args_of xs))
    (λ _ w', printed w0 (line_head prefix name d line ++ output_of xs ++ chars CRLF) w') w0)
    as ([]&w'&Hrun&[Hs Hst Hm])%wp_done by (by eapply wp_log_line).
  by exists w'.
Qed.
End lines.

(* ===================================================================== *)
(** ** Text on the frame buffer *)

(** The text [k] in the cells from [row], [col] on; only its first [n] fit. *)
Definition text_lit (v : vesa) (row col n : Z) (k : list Z) : Z → bool :=
  any_of n (λ i, lit v row (col + i) (k !!! Z.to_nat i)).

(** A lit byte lies in the frame buffer. *)
Lemma lit_inside v row col ch a : vesa_ok v → 0 <= row < _height v / 16 → 0 <= col < _width v / 8 →
  lit v row col ch a = true → _buf v <= a < _buf v + _width v * _height v * _depth v.
Proof.
  intros Hv Hr Hc (ln&Hln&(bit&Hbit&[_ Hpx]%andb_true_iff)%any_of_true)%any_of_true.
  destruct (cell_bounds v row col Hv Hr Hc) as (?&?&_&_). unfold pixel_byte, pixel_address in Hpx. bsimp.
  destruct (pixel_bound (col * 8 + bit) (row * 16 + ln) (_width v) (_height v) (_depth v)) as (?&?&_);
    [lia|lia|destruct Hv; lia|]. destruct Hv as (?&_). lia.
Qed.

(** Nor is anything outside of it painted by a text. *)
Lemma text_outside v row col n k m m' str l : vesa_ok v → 0 <= row < _height v / 16 → 0 <= col →
  col + n <= _width v / 8 → painted 255 (text_lit v row col n k) m m' →
  str + Z.of_nat (length l) <= _buf v ∨ _buf v + _width v * _height v * _depth v <= str →
  bytes_at m str l → bytes_at m' str l.
Proof.
  intros Hv Hr Hc Hn Hp Hout. apply bytes_at_agree. intros a Ha. rewrite Hp.
  destruct (text_lit v row col n k a) eqn:Ht; [|done]. apply any_of_true in Ht as (i&Hi&Ht).
  apply lit_inside in Ht; [lia|done|done|lia].
Qed.

Section screen_text.
Context `{Device} `{LogLink} {fuel n : nat}.
Context (Hans : ∀ h, answers_within PORT_NO_SERIAL_COM1_STATUS_LINE transmit_empty n h) (Hfuel : (n < fuel)%nat).

(** One character: the column is advanced, then the character is drawn. *)
Lemma wp_draw_next str k row i c w (Q : unit → world console → Prop) :
  vesa_ok (cs_vesa (w_st w)) → _screen_row (w_st w) = row → 0 <= row < _height (cs_vesa (w_st w)) / 16 →
  0 <= _screen_col (w_st w) < _width (cs_vesa (w_st w)) / 8 → bytes_at (w_mem w) str k → k !! Z.to_nat i = Some c →
  0 <= i → 0 <= str → str + Z.of_nat (length k) <= 18446744073709551616 →
  (∀ m', painted 255 (lit (cs_vesa (w_st w)) row (_screen_col (w_st w)) c) (w_mem w) m' →
    Q () (World m' (set_position row (_screen_col (w_st w) + 1) (w_st w)))) →
  wp (row ← static _screen_row;
      col ← static _screen_col;
      static_set (set_position row (col + 1)%u64) ;;
      c ← read 1 (str + i)%u64;
      video (video_draw_char row col c)) Q w.
Proof.
  destruct w as [m st]. cbn [w_mem w_st]. intros Hv Hrow Hr Hc Hb Hi Hi0 Hs0 Hs1 HQ.
  assert (Z.to_nat i < length k)%nat as Hlt by (by eapply lookup_lt_Some).
  assert (_screen_col st + 1 < 18446744073709551616) as Hcol.
  { pose proof (cell_bounds _ _ _ Hv Hr Hc). lia. }
  wp_step. apply wp_static. cbn [w_st]. rewrite Hrow. wp_step. apply wp_static. cbn [w_st].
  wp_step. apply wp_static_set. cbn [w_mem w_st]. wp_step. apply wp_read. rewrite load_1.
  unfold uadd. rewrite (u64_small (str + i)), (u64_small (_screen_col st + 1)) by lia. cbn [mem_of world_has_memory w_mem].
  specialize (Hb (Z.to_nat i) c Hi). rewrite Z2Nat.id in Hb by lia. rewrite Hb.
  assert (is_u8 c) as Hc8 by (pose proof (load8_range m (str + i)); rewrite Hb in *; unfold is_u8; lia).
  apply wp_within. cbn [w_mem w_st cs_vesa set_position].
  apply wp_video_draw_char; [done|done|done|done|]. intros m' Hp. cbn [w_mem w_st].
  specialize (HQ m' Hp). by destruct st.
Qed.

(** C39: a string on the screen.  With the frame buffer switched on, the
    position on it, and a string outside of it, [log_str_len] sends the string
    to the serial line and paints those of its characters that fit in the rest
    of the row, from the current column on; the column is advanced behind
    them, the row is kept, and no other byte of the memory changes. *)
Theorem log_screen_ok (lv str : Z) (k : list Z) (w : world console)
    (Hon : _write_screen (w_st w) = true) (Hv : vesa_ok (cs_vesa (w_st w)))
    (Hrow : 0 <= _screen_row (w_st w) < _height (cs_vesa (w_st w)) / 16)
    (Hcol : 0 <= _screen_col (w_st w) <= _width (cs_vesa (w_st w)) / 8)
    (Hb : bytes_at (w_mem w) str k) (Hstr : 0 <= str) (Hend : str + Z.of_nat (length k) <= 18446744073709551616)
    (Hout : let v := cs_vesa (w_st w) in
      str + Z.of_nat (length k) <= _buf v ∨ _buf v + _width v * _height v * _depth v <= str) :
  let v := cs_vesa (w_st w) in
  let row := _screen_row (w_st w) in
  let col := _screen_col (w_st w) in
  let shown := Z.min (Z.of_nat (length k)) (_width v / 8 - col) in
  ∃ w', log_str_len fuel lv str (Z.of_nat (length k)) w = Done ((), w') ∧
    sent (cs_io (w_st w')) = reverse k ++ sent (cs_io (w_st w)) ∧
    w_st w' = set_position row (col + shown) (set_console_io (cs_io (w_st w')) (w_st w)) ∧
    painted 255 (text_lit v row col shown k) (w_mem w) (w_mem w').
Proof.
  intros v row col shown. fold v row col in Hv, Hrow, Hcol, Hout. cbv zeta in Hout.
  cut (wp (log_str_len fuel lv str (Z.of_nat (length k))) (λ _ w',
    sent (cs_io (w_st w')) = reverse k ++ sent (cs_io (w_st w)) ∧
    w_st w' = set_position row (col + shown) (set_console_io (cs_io (w_st w')) (w_st w)) ∧
    painted 255 (text_lit v row col shown k) (w_mem w) (w_mem w')) w).
  { intros ([]&w'&?)%wp_done. by exists w'. }
  assert (0 <= _width v / 8 ∧ _width v < 18446744073709551616) as [Hw0 Hw1].
  { destruct Hv as (?&?&?&?&?). split; [apply Z.div_pos; lia|].
    destruct (Z.eq_dec (_width v) 0) as [->|]; [lia|]. pose proof (cell_bounds v row 0 ltac:(done) ltac:(done)) as Hcb.
    destruct (Z.lt_ge_cases 0 (_width v / 8)); [lia|]. assert (_width v < 8) by zlia. lia. }
  assert (0 <= shown) as Hshown by lia.
  unfold log_str_len, serial_write_str. wp_step. rewrite Nat2Z.id.
  eapply (serial_str_loop n fuel str); [done|done|done|done|by rewrite Z.add_0_r|done|by rewrite Z.add_0_r|].
  intros h Hh. wp_step. apply wp_static. change (_write_screen (w_st (set_io h w))) with (_write_screen (w_st w)). rewrite Hon.
  unfold video_char_col_max, d_vesa_get_width. wp_step. apply wp_within. wp_step. apply wp_static. wp_step. cbn [w_mem w_st].
  destruct w as [m st]. cbn [w_mem w_st] in *. replace (set_vesa (cs_vesa _) _) with (set_console_io h st) by (by destruct st).
  wp_step. apply wp_static. cbn [w_st]. wp_step.
  change (_screen_col (set_console_io h st)) with col. unfold udiv.
  change (cs_vesa (w_st (set_io h _))) with v. wp_step; [bsimp; lia|].
  assert ((if (_width v `div` 8 - col <? Z.of_nat (length k))%u64 then (_width v `div` 8 - col)%u64
    else Z.of_nat (length k)) = shown) as ->.
  { unfold ultb, usub. rewrite u64_small by zlia. destruct (Z.ltb_spec (_width v `div` 8 - col) (Z.of_nat (length k))); lia. }
  eapply (wp_for_n (λ i w1, ∃ m1, w1 = World m1 (set_position row (col + i) (set_console_io h st)) ∧
    painted 255 (text_lit v row col i k) m m1)).
  - exists m. split; [|apply painted_none]. rewrite Z.add_0_r. by destruct st.
  - intros i w1 Hi (m1&->&Hp).
    assert (i < Z.of_nat (length k) ∧ i < _width v / 8 - col) as [Hik Hiw] by lia.
    destruct (lookup_lt_is_Some_2 k (Z.to_nat i) ltac:(lia)) as [c Hkc].
    eapply (wp_draw_next str k row i c); cbn [w_mem w_st set_position set_console_io cs_vesa _screen_row _screen_col];
      [done|done|done|change (_width (cs_vesa st)) with (_width v); lia| |done|lia|done|lia|].
    { eapply text_outside; [exact Hv|exact Hrow|apply Hcol| |exact Hp|exact Hout|exact Hb]. lia. }
    intros m2 Hp2. exists m2. split; [f_equal; unfold set_position; cbn; f_equal; lia|].
    eapply painted_ext; [|exact (painted_then _ _ _ _ _ _ Hp Hp2)].
    intros a. unfold text_lit. rewrite any_of_succ by lia. by rewrite (list_lookup_total_correct _ _ _ Hkc).
  - intros w1 (m1&->&Hp). rewrite Z2Nat.id, Z.add_0_l in * by lia. done.
Qed.
End screen_text.

(* --------------------------------------------------------------------- *)
(** ** A line of the serial log *)

(** Where the literals are, and the two local buffers on a stack. *)
#[export] Instance sample_link : LogLink := {|
  literal t := match list_find (eq t) line_literals with Some (i, _) => 4096 + 16 * Z.of_nat i | None => 0 end;
  log_msg := 65536;
  log_buf := 65792;
|}.

Definition literal_memory : memory :=
  fold_right (λ t m, poke (literal t) (chars t ++ [0]) m) ∅ line_literals.
Definition sample_console : console := Console full_hd [] 0 0 false.
Definition sample_log_world : world console :=
  World (poke 8192 (chars "kernel/src/mm/mm.c" ++ [0]) (poke 8448 (chars "n=%lu" ++ [0]) literal_memory))
    sample_console.

Definition c_string_b (m : memory) (lo hi p : Z) (l : list Z) : bool :=
  bool_decide (peek m p (length (l ++ [0])) = l ++ [0]) &&
  forallb (λ c, (0 <? c) && (c <? 256)) l &&
  (0 <=? p) && (p + Z.of_nat (length l) <? 18446744073709551616) &&
  ((p + Z.of_nat (length l) + 1 <=? lo) || (hi <=? p)).

Lemma c_string_check m lo hi p l : c_string_b m lo hi p l = true → c_string m lo hi p l.
Proof.
  unfold c_string_b. intros [[[[Hb%bool_decide_eq_true Hl]%andb_true_iff Hp]%andb_true_iff Hend]%andb_true_iff
    Hout]%andb_true_iff.
  split_and!; [by apply peek_bytes_at| |bsimp; lia..|].
  - apply list.Forall_forall. intros c Hc. rewrite forallb_forall in Hl.
    specialize (Hl c ltac:(by apply list_elem_of_In)). unfold is_u8. bsimp. lia.
  - apply orb_true_iff in Hout as [?|?]; bsimp; lia.
Qed.

Lemma literals_check m lo hi :
  forallb (λ t, c_string_b m lo hi (literal t) (chars t)) line_literals = true → literals_ok m (lo := lo) (hi := hi).
Proof.
  intros Hl. rewrite forallb_forall in Hl. apply list.Forall_forall. intros t Ht.
  apply c_string_check, Hl. by apply list_elem_of_In.
Qed.

(** "n=%lu" with 7, at level INFO, from line 42 of kernel/src/mm/mm.c. *)
Definition sample_line : list Z :=
  chars "[INF]" ++ [0] ++ chars " mm/mm.c:42 n=7" ++ [13; 10].

Lemma log_line_ok_witness : ∃ w',
  @_log_line_format_v slow_line sample_link 20 2 8192 42 8448 [7] sample_log_world = Done ((), w') ∧
  sent (cs_io (w_st w')) = reverse sample_line.
Proof.
  pose proof (@log_line_ok slow_line sample_link 20 1) as Hline.
  specialize (Hline ltac:(intros [|[] h]; vm_compute; auto) ltac:(lia) 65536 66560 2 "[INF]"%string 8192
    (chars "kernel/src/mm/mm.c") 11 42 8448 [PChar 110; PChar 61; PULong 7] sample_log_world).
  destruct Hline as (w'&Hrun&Hsent&_).
  - reflexivity.
  - apply literals_check. vm_compute. reflexivity.
  - unfold local_buf. cbn. lia.
  - unfold local_buf. cbn. lia.
  - reflexivity.
  - lia.
  - split; [apply c_string_check; vm_compute; reflexivity|]. split; [reflexivity|cbn; lia].
  - unfold is_u64. lia.
  - apply c_string_check. vm_compute. reflexivity.
  - cbn. lia.
  - repeat (apply Forall_cons_2; [unfold piece_ok, CH_PERCENT, is_u8, is_u64; lia|]). constructor.
  - vm_compute. lia.
  - exists w'. split; [exact Hrun|]. rewrite Hsent. vm_compute. reflexivity.
Defined.

(** "Hi" where only one column is left. *)
Definition sample_screen_world : world console :=
  World (poke 8192 [72; 105] ∅) (Console full_hd [] 3 239 true).

Lemma log_screen_ok_witness : ∃ w',
  @log_str_len slow_line 2 2 8192 2 sample_screen_world = Done ((), w') ∧
  sent (cs_io (w_st w')) = [105; 72] ∧ _screen_col (w_st w') = 240 ∧
  painted 255 (text_lit full_hd 3 239 1 [72; 105]) (w_mem sample_screen_world) (w_mem w').
Proof.
  destruct (@log_screen_ok slow_line 2 1 ltac:(intros [|[] h]; vm_compute; auto) ltac:(lia) 2 8192 [72; 105]
    sample_screen_world) as (w'&Hrun&Hs&Hst&Hp).
  - reflexivity.
  - apply full_hd_ok.
  - split; vm_compute; congruence.
  - split; vm_compute; congruence.
  - apply peek_bytes_at. vm_compute. reflexivity.
  - lia.
  - cbn. lia.
  - cbn. lia.
  - exists w'. split; [exact Hrun|]. split; [exact Hs|]. split; [rewrite Hst; reflexivity|exact Hp].
Defined.
