(* ===== verification/Panic.v ===== *)
(** What the kernel reports before it stops, src/kernel/kernel_panic.c: the
    message on the last rows of the VGA screen, then two lines of the log.

    A computation that stops the machine is a report followed by an endless
    loop; [Panic] and [Assert] of the other files stand for the calls of
    [_kernel_panic] and [_kernel_assert_fail]. *)
From S2P Require Import Prelude Memory Strings Vesa Ports Screen.
From S2P Require Import Video Log.

(** Literals, the name of the source file, and a local buffer. *)
Class PanicLink := {
  panic_file : Z;            (* __FILE__ *)
  ln_str : Z;                (* local of both reports *)
  assert_log_line : Z;       (* __LINE__ of a call that spans two lines *)
}.

(* ===================================================================== *)
(** ** Decimal numbers without the formatter *)

Section unsigned.
Context {S : Type} `{HasMemory S}.

(** The loop on the digits ends within 20 rounds. *)
Definition count_unsigned (uval : Z) : M S Z :=
  loop 20 (λ '(uval, digit_cnt),
    let uval := (uval / 10)%u64 in
    let digit_cnt := (digit_cnt + 1)%u64 in
    mret (if 0 <? uval then inl (uval, digit_cnt) else inr digit_cnt)) (uval, 0).

Definition write_unsigned (buf uval buf_off : Z) : M S unit :=
  loop 20 (λ '(uval, buf_off),
    let digit := (uval mod 10)%u64 in
    write 1 (buf + buf_off)%u64 (digit + 48) ;;
    let buf_off := (buf_off - 1)%u64 in
    let uval := (uval / 10)%u64 in
    mret (if uval =? 0 then inr () else inl (uval, buf_off))) (uval, buf_off).

Definition _unsigned_to_str (uval buf buf_cap : Z) : M S unit :=
  digit_cnt ← count_unsigned uval;
  if (buf_cap <? digit_cnt + 1)%u64 then
    if 3 <=? buf_cap then
      write 1 (buf + 0)%u64 69 ;; write 1 (buf + 1)%u64 82 ;; write 1 (buf + 2)%u64 0
    else if buf_cap =? 2 then write 1 (buf + 0)%u64 69 ;; write 1 (buf + 1)%u64 0
    else if buf_cap =? 1 then write 1 (buf + 0)%u64 69
    else mret ()
  else
    write_unsigned buf uval (digit_cnt - 1)%u64 ;;
    write 1 (buf + digit_cnt)%u64 0.

(** What it leaves in a buffer of [cap] bytes. *)
Definition unsigned_text (uval cap : Z) : list Z :=
  if Z.of_nat (length (decimal uval)) + 1 <=? cap then decimal uval ++ [0]
  else if 3 <=? cap then [69; 82; 0]
  else if cap =? 2 then [69; 0]
  else if cap =? 1 then [69]
  else [].

Lemma unsigned_text_length uval cap : 0 <= cap → Z.of_nat (length (unsigned_text uval cap)) <= cap.
Proof.
  intros Hcap. unfold unsigned_text. repeat case_match; bsimp; rewrite ?length_app; cbn [length]; lia.
Qed.

Lemma wp_bind_inv {A B} (m : M S A) (f : A → M S B) Q s : wp (m ≫= f) Q s → wp m (λ a s', wp (f a) Q s') s.
Proof.
  intros (b&s2&Hrun&HQ)%wp_done. unfold mbind, M_bind in Hrun. apply wp_done.
  destruct (m s) as [[a s1]| | | |]; try done. exists a, s1. split; [done|]. apply wp_done. by exists b, s2.
Qed.

Lemma wp_loop_map {X A B} (f : A → B) (body : X → M S (X + A)) (body' : X → M S (X + B)) n x s (Q : B → S → Prop) :
  (∀ x s (R : X + B → S → Prop), wp (body x) (λ r, R (match r with inl x => inl x | inr a => inr (f a) end)) s →
    wp (body' x) R s) →
  wp (loop n body x) (λ a, Q (f a)) s → wp (loop n body' x) Q s.
Proof.
  intros Hb. revert x s. induction n as [|n IH]; intros x s Hl; [done|]. cbn [loop] in *.
  apply wp_bind, Hb. apply wp_bind_inv in Hl. eapply wp_mono; [exact Hl|]. intros [x'|a] s'; [apply IH|done].
Qed.

Lemma wp_write_unsigned buf uval s (Q : unit → S → Prop) : is_u64 uval → 0 <= buf →
  buf + Z.of_nat (length (decimal uval)) < 18446744073709551616 →
  (∀ m', wrote buf (decimal uval) (mem_of s) m' → Q () (set_mem m' s)) →
  wp (write_unsigned buf uval (Z.of_nat (length (decimal uval)) - 1)) Q s.
Proof.
  intros [Hv0 Hv1] Hbuf Hend HQ. pose proof (decimal_length 20 uval Hv0 ltac:(lia)) as Hl. fold (decimal uval) in Hl.
  unfold write_unsigned. eapply (wp_loop_map (λ _ : Z, ())).
  2: { eapply wp_digits_loop; [|exact Hv1|lia|fold (decimal uval); lia|done|lia|lia|].
    - split; [done|]. eapply Z.lt_trans; [apply Hv1|exact pow10_20].
    - fold (decimal uval). intros m'. cbv zeta. intros Hw. apply HQ.
      replace (buf + _) with buf in Hw by lia. exact Hw. }
  intros [val off] s1 R HR. apply wp_bind. apply wp_bind_inv in HR. eapply wp_mono; [exact HR|].
  intros [] s2 Hr. apply wp_done in Hr as (r&s3&[= <- <-]&Hr). apply wp_ret. by destruct ((val / 10)%u64 =? 0).
Qed.

Lemma wp_unsigned_to_str uval buf cap s (Q : unit → S → Prop) : is_u64 uval → 0 <= buf → 0 <= cap →
  buf + cap < 18446744073709551616 →
  (∀ m', wrote buf (unsigned_text uval cap) (mem_of s) m' → Q () (set_mem m' s)) →
  wp (_unsigned_to_str uval buf cap) Q s.
Proof.
  intros Hv Hbuf Hcap Hend HQ. pose proof (unsigned_text_length uval cap Hcap) as Hlen. unfold unsigned_text in *.
  pose proof (decimal_length 20 uval ltac:(apply Hv) ltac:(lia)) as Hl. fold (decimal uval) in Hl.
  assert (∀ n, 0 <= n < cap → (buf + n)%u64 = buf + n) as Hoff.
  { intros n ?. unfold uadd. by rewrite u64_small by lia. }
  unfold _unsigned_to_str, count_unsigned. wp_step.
  apply wp_count_loop; [|apply Hv|lia|lia|lia|].
  { split; [apply Hv|]. eapply Z.lt_trans; [apply Hv|exact pow10_20]. }
  fold (decimal uval). rewrite Z.add_0_l. set (n := Z.of_nat (length (decimal uval))) in *.
  assert ((cap <? n + 1)%u64 = negb (n + 1 <=? cap)) as ->.
  { unfold ultb, uadd. rewrite u64_small by lia. by rewrite Z.leb_antisym, negb_involutive. }
  destruct (Z.leb_spec (n + 1) cap); cbn [negb].
  - assert ((n - 1)%u64 = n - 1) as -> by (unfold usub; by rewrite u64_small by lia).
    wp_step. apply wp_write_unsigned; [done|done|lia|]. intros m1 Hw1. rewrite Hoff by lia.
    apply wp_write_byte; [done|]. rewrite mem_of_set. intros m2 Hw2. rewrite set_mem_set. apply HQ. by eapply wrote_app.
  - destruct (Z.leb_spec 3 cap); [|destruct (Z.eqb_spec cap 2) as [->|]; [|destruct (Z.eqb_spec cap 1) as [->|]]].
    + rewrite !Hoff by lia. wp_step. apply wp_write_byte; [done|]. intros m1 Hw1.
      wp_step. apply wp_write_byte; [done|]. rewrite mem_of_set. intros m2 Hw2.
      apply wp_write_byte; [done|]. rewrite mem_of_set. intros m3 Hw3. rewrite !set_mem_set. apply HQ.
      rewrite Z.add_0_r in Hw1. eapply (wrote_app _ [69]); [exact Hw1|]. by eapply (wrote_app _ [82]); [exact Hw2|rewrite <-Z.add_assoc].
    + rewrite !Hoff by lia. wp_step. apply wp_write_byte; [done|]. intros m1 Hw1.
      apply wp_write_byte; [done|]. rewrite mem_of_set. intros m2 Hw2. rewrite !set_mem_set. apply HQ.
      rewrite Z.add_0_r in Hw1. by eapply (wrote_app _ [69]); [exact Hw1|].
    + rewrite !Hoff by lia. apply wp_write_byte; [done|]. intros m1 Hw1. apply HQ. by rewrite Z.add_0_r in Hw1.
    + apply wp_ret. specialize (HQ (mem_of s) (wrote_nil _ _)). by rewrite set_mem_id in HQ.
Qed.

(** A number is written in decimal with a closing zero when the buffer has
    room for it, and otherwise as much of "ER" as fits; nothing outside these
    bytes changes, so no buffer is overrun. *)
Theorem unsigned_to_str_ok (uval buf cap : Z) (s : S) (Hv : is_u64 uval) (Hbuf : 0 <= buf) (Hcap : 0 <= cap)
    (Hend : buf + cap < 18446744073709551616) :
  ∃ m', _unsigned_to_str uval buf cap s = Done ((), set_mem m' s) ∧
    wrote buf (unsigned_text uval cap) (mem_of s) m' ∧ Z.of_nat (length (unsigned_text uval cap)) <= cap.
Proof.
  assert (wp (_unsigned_to_str uval buf cap) (λ _ s', ∃ m', s' = set_mem m' s ∧
    wrote buf (unsigned_text uval cap) (mem_of s) m') s) as ([]&s'&Hrun&m'&->&Hw)%wp_done.
  { apply wp_unsigned_to_str; [done..|]. intros m' Hw. by exists m'. }
  exists m'. split; [done|]. split; [done|]. by apply unsigned_text_length.
Qed.
End unsigned.

(* ===================================================================== *)
(** ** The reports *)

Section report.
Context `{Device} `{LogLink} `{PanicLink} (fuel : nat).

Local Abbreviation LM := (M (world console)).

Definition red_on_row (str row : Z) : LM unit := screen_write_str str SCREEN_COLOR_WHITE SCREEN_COLOR_RED row 0.

Definition log_line_format (lv line : Z) (format : string) (va : list Z) : LM unit :=
  _log_line_format_v fuel lv panic_file line (literal format) va.

(** [hlt] in a loop without an exit. *)
Definition halt {A} : LM A := loop fuel (λ _, mret (inl ())) ().

Definition panic_report (file line msg : Z) : LM unit :=
  red_on_row (literal "Kernel panic!"%string) (SCREEN_HEIGHT - 5) ;;
  red_on_row msg (SCREEN_HEIGHT - 4) ;;
  red_on_row (literal "File:"%string) (SCREEN_HEIGHT - 3) ;;
  red_on_row file (SCREEN_HEIGHT - 2) ;;
  _unsigned_to_str line ln_str 128 ;;
  red_on_row ln_str (SCREEN_HEIGHT - 1) ;;
  log_line_format LOG_LEVEL_FATAL 71 "Kernel panic! %s"%string [msg] ;;
  log_line_format LOG_LEVEL_FATAL 72 "File: %s, line:%lu "%string [file; line].

Definition _kernel_panic {A} (file line msg : Z) : LM A := panic_report file line msg ;; halt.

Definition assert_report (expr file line : Z) : LM unit :=
  red_on_row (literal "Kernel assertion failure!"%string) (SCREEN_HEIGHT - 7) ;;
  red_on_row (literal "Expression:"%string) (SCREEN_HEIGHT - 6) ;;
  red_on_row expr (SCREEN_HEIGHT - 5) ;;
  red_on_row (literal "File:"%string) (SCREEN_HEIGHT - 4) ;;
  red_on_row file (SCREEN_HEIGHT - 3) ;;
  _unsigned_to_str line ln_str 128 ;;
  red_on_row (literal "Line:"%string) (SCREEN_HEIGHT - 2) ;;
  red_on_row ln_str (SCREEN_HEIGHT - 1) ;;
  log_line_format LOG_LEVEL_FATAL assert_log_line "Kernel assertion failure! Expression: %s"%string [expr] ;;
  log_line_format LOG_LEVEL_FATAL 102 "File: %s, line: %lu"%string [file; line].

Definition _kernel_assert_fail {A} (expr file line : Z) : LM A := assert_report expr file line ;; halt.

Definition __stack_chk_fail : LM unit :=
  _kernel_panic panic_file 117 (literal "Stack smashing detected"%string).

End report.

(** A machine that halts never returns, however long it runs. *)
Lemma halt_never `{Device} {A} fuel (w : world console) : halt (A := A) fuel w = Timeout.
Proof. unfold halt. induction fuel as [|fuel IH]; [done|]. exact IH. Qed.

(* ===================================================================== *)
(** ** What is reported *)

Definition panic_literals : list string := ["Kernel panic!"; "File:"; "Kernel panic! %s"; "File: %s, line:%lu ";
  "Kernel assertion failure!"; "Expression:"; "Line:"; "Kernel assertion failure! Expression: %s";
  "File: %s, line: %lu"]%string.

(** The row [row] starts with [l], as far as it is wide. *)
Definition row_is (m : memory) (row : Z) (l : list Z) : Prop :=
  ∀ i c, l !! i = Some c → Z.of_nat i < SCREEN_WIDTH → char_at m row (Z.of_nat i) = c.

Section reports.
Context `{Device} `{LogLink} `{PanicLink} {fuel n : nat}.
Context (Hans : ∀ h, answers_within PORT_NO_SERIAL_COM1_STATUS_LINE transmit_empty n h) (Hfuel : (n < fuel)%nat).
(** The stack is away from the video memory. *)
Context {lo hi : Z} (Hstack : hi <= _video_buffer ∨ _video_buffer + _offset_max <= lo).

(** A string away from the stack and from the video memory. *)
Definition text (m : memory) (p : Z) (l : list Z) : Prop :=
  c_string m lo hi p l ∧ (p + Z.of_nat (length l) < _video_buffer ∨ _video_buffer + _offset_max <= p).

(** What the reports need of the machine. *)
Record can_report (w : world console) : Prop := {
  cr_quiet : _write_screen (w_st w) = false;
  cr_literals : Forall (λ t, text (w_mem w) (literal t) (chars t)) (line_literals ++ panic_literals);
  cr_msg : local_buf (lo := lo) (hi := hi) log_msg 64;
  cr_buf : local_buf (lo := lo) (hi := hi) log_buf 256;
  cr_ln : local_buf (lo := lo) (hi := hi) ln_str 128;
  cr_fuel : (64 < fuel)%nat;
}.

(** Since [w0] the rows [L] were written and [k] was sent. *)
Record reported (w0 : world console) (L : list (Z * list Z)) (k : list Z) (w : world console) : Prop := {
  rp_rows : Forall (λ '(row, l), row_is (w_mem w) row l) L;
  rp_sent : sent (cs_io (w_st w)) = reverse k ++ sent (cs_io (w_st w0));
  rp_static : w_st w = set_console_io (cs_io (w_st w)) (w_st w0);
  rp_mem : ∀ a, ¬ in_video a → ¬ (lo <= a < hi) → load8 (w_mem w) a = load8 (w_mem w0) a;
}.

Lemma reported_start w : reported w [] [] w.
Proof. split; [constructor|done|by destruct w as [m []]|done]. Qed.

Lemma reported_text w0 L k w p l : reported w0 L k w → text (w_mem w0) p l → text (w_mem w) p l.
Proof.
  intros Hr [(Hb&Hc&?&?&?) Hv]. split; [|done]. split_and!; [|done..]. eapply bytes_at_agree; [|exact Hb].
  intros a Ha. rewrite length_app in Ha. cbn [length] in Ha. symmetry. apply (rp_mem _ _ _ _ Hr); unfold in_video; lia.
Qed.

Lemma text_placed m p l : text m p l → string_placed m p l.
Proof.
  intros [(Hb&Hc&?&?&?) Hv]. split_and!; [done| |done..]. eapply list.Forall_impl; [exact Hc|]. by intros c [? ?].
Qed.

(** One row of the screen. *)
Lemma wp_red_row w0 L k w p l row (Q : unit → world console → Prop) : reported w0 L k w →
  string_placed (w_mem w) p l → 0 <= row < SCREEN_HEIGHT → Forall (λ x, 0 <= x.1 < SCREEN_HEIGHT ∧ x.1 ≠ row) L →
  (∀ w', reported w0 (L ++ [(row, l)]) k w' → same_but in_video (w_mem w) (w_mem w') → Q () w') →
  wp (red_on_row p row) Q w.
Proof.
  intros [Hrows Hs Hst Hm] Hp Hrow HL HQ. assert (on_screen row 0) as Ho by done.
  eapply wp_write_str; [done|exact Hp|]. intros w' (Hch&Hsame&Honly).
  assert (same_but in_video (w_mem w) (w_mem w')) as Hvid.
  { intros a Hv. apply Hsame. intros (j&Hj&Hcell). apply Hv.
    apply (cell_in_video row (0 + j)); [split; [done|unfold SCREEN_WIDTH in *; lia]|lia]. }
  assert (w_st w' = w_st w) as Est by (by rewrite Honly). apply HQ; [|exact Hvid]. split; [| |by rewrite Est|].
  - apply Forall_app_2; [|apply Forall_singleton].
    + apply list.Forall_forall. intros [r x] Hin i c Hi Hlt. rewrite <-(proj1 (list.Forall_forall _ _) Hrows _ Hin i c Hi Hlt).
      destruct (proj1 (list.Forall_forall _ _) HL _ Hin) as [Hr Hne]. cbn [fst] in *. apply Hsame. intros (j&Hj&Hcell).
      apply Hne. eapply (cell_inj r (Z.of_nat i) row (0 + j)); [| |exact Hcell]; (split; [lia|]); unfold SCREEN_WIDTH in *; lia.
    + intros i c Hi Hlt. pose proof (lookup_lt_Some _ _ _ Hi). specialize (Hch (Z.of_nat i) c). rewrite Nat2Z.id in Hch.
      apply Hch; [unfold SCREEN_WIDTH in *; lia|done].
  - by rewrite Est.
  - intros a Hv Ha. rewrite <-Hm by done. by apply Hvid.
Qed.

(** Memory that changes on the stack only. *)
Lemma reported_stack w0 L k w w' l : reported w0 L k w →
  sent (cs_io (w_st w')) = reverse l ++ sent (cs_io (w_st w)) → w_st w' = set_console_io (cs_io (w_st w')) (w_st w) →
  (∀ a, ¬ (lo <= a < hi) → load8 (w_mem w') a = load8 (w_mem w) a) →
  Forall (λ x, 0 <= x.1 < SCREEN_HEIGHT) L → reported w0 L (k ++ l) w'.
Proof.
  intros [Hrows Hs Hst Hm] Hs' Hst' Hm' HL. split.
  - apply list.Forall_forall. intros [r x] Hin i c Hi Hlt. rewrite <-(proj1 (list.Forall_forall _ _) Hrows _ Hin i c Hi Hlt).
    apply Hm'. pose proof (proj1 (list.Forall_forall _ _) HL _ Hin) as Hr. cbn [fst] in Hr.
    pose proof (cell_in_video r (Z.of_nat i) (cell r (Z.of_nat i)) ltac:(split; [done|lia]) ltac:(lia)) as Hv.
    unfold in_video in Hv. lia.
  - by rewrite Hs', Hs, reverse_app, app_assoc.
  - rewrite Hst', Hst. by destruct (w_st w0).
  - intros a Hv Ha. by rewrite Hm', Hm.
Qed.

(** The number of the line. *)
Lemma wp_line_text w0 L k w line (Q : unit → world console → Prop) : can_report w0 → reported w0 L k w → is_u64 line →
  Forall (λ x, 0 <= x.1 < SCREEN_HEIGHT) L →
  (∀ w', reported w0 L k w' → string_placed (w_mem w') ln_str (decimal line) → Q () w') →
  wp (_unsigned_to_str line ln_str 128) Q w.
Proof.
  intros Hc Hr Hline HL HQ. destruct (cr_ln _ Hc) as (?&?&?&?).
  pose proof (decimal_length 20 line ltac:(apply Hline) ltac:(lia)) as Hl. fold (decimal line) in Hl.
  apply wp_unsigned_to_str; [done|done|lia|lia|]. unfold unsigned_text. rewrite (proj2 (Z.leb_le _ _)) by lia.
  intros m' [Hb Ho]. rewrite length_app in Ho. cbn [length] in Ho. apply HQ.
  - rewrite <-(app_nil_r k). eapply reported_stack; [done|done| |intros a Ha; apply Ho; lia|done]. by destruct w as [m []].
  - split_and!; [exact Hb| |done|lia|lia].
    eapply list.Forall_impl; [apply (decimal_fuel_digits 20); apply Hline|]. intros c. unfold is_u8, CH_0, CH_9. lia.
Qed.

Lemma literal_text w0 L k w t : can_report w0 → reported w0 L k w →
  existsb (String.eqb t) (line_literals ++ panic_literals) = true → text (w_mem w) (literal t) (chars t).
Proof.
  intros Hc Hr (u&Hu&->%String.eqb_eq)%existsb_exists. eapply reported_text; [exact Hr|].
  apply (proj1 (list.Forall_forall _ _) (cr_literals _ Hc)). by apply list_elem_of_In.
Qed.

(** One line of the log. *)
Lemma wp_report_line w0 L k w line format xs name d (Q : unit → world console → Prop) : can_report w0 → reported w0 L k w →
  Forall (λ x, 0 <= x.1 < SCREEN_HEIGHT) L → is_u64 line →
  existsb (String.eqb format) (line_literals ++ panic_literals) = true → chars format = format_of xs →
  (length (format_of xs) < 65)%nat → text (w_mem w0) panic_file name → strip_at name 0 0 = Some d → (length name < fuel)%nat →
  Forall (piece_ok fuel (w_mem w) lo hi) xs → (length (output_of xs) < 256)%nat →
  (∀ w', reported w0 L (k ++ line_head "[FAT]" name d line ++ output_of xs ++ chars CRLF) w' → Q () w') →
  wp (log_line_format fuel LOG_LEVEL_FATAL line format (args_of xs)) Q w.
Proof.
  intros Hc Hr HL Hline Hin Hfmt Hlen Hfile Hd Hname Hxs Hout HQ. pose proof (cr_fuel _ Hc).
  pose proof (reported_text _ _ _ _ _ _ Hr Hfile) as [Hf _].
  destruct (literal_text _ _ _ _ _ Hc Hr Hin) as [Ht _]. rewrite Hfmt in Ht.
  unfold log_line_format. eapply (wp_log_line Hans Hfuel (lo := lo) (hi := hi) LOG_LEVEL_FATAL "[FAT]"%string panic_file name d);
    [|..|exact Ht|lia|exact Hxs|done|].
  - rewrite (rp_static _ _ _ _ Hr). apply (cr_quiet _ Hc).
  - apply list.Forall_forall. intros t Htl. destruct (literal_text _ _ _ _ t Hc Hr) as [Hl _]; [|exact Hl].
    apply existsb_exists. exists t. split; [|apply String.eqb_refl]. apply in_or_app. left. by apply list_elem_of_In.
  - apply (cr_msg _ Hc).
  - apply (cr_buf _ Hc).
  - done.
  - done.
  - by split.
  - done.
  - intros w' [Hs Hst Hm]. apply HQ. by eapply reported_stack.
Qed.

(** Ordinary characters of a format. *)
Definition plain (t : string) : list piece := PChar <$> chars t.

Lemma format_plain l xs : format_of ((PChar <$> l) ++ xs) = l ++ format_of xs.
Proof. unfold format_of. induction l as [|c l IH]; [done|]. cbn [fmap list_fmap app mbind list_bind] in *. by rewrite IH. Qed.

Lemma output_plain l xs : output_of ((PChar <$> l) ++ xs) = l ++ output_of xs.
Proof. unfold output_of. induction l as [|c l IH]; [done|]. cbn [fmap list_fmap app mbind list_bind] in *. by rewrite IH. Qed.

Lemma plain_ok t m : forallb (λ c, negb (c =? CH_PERCENT) && (0 <=? c) && (c <? 256)) (chars t) = true →
  Forall (piece_ok fuel m lo hi) (plain t).
Proof.
  intros Ht. unfold plain. apply Forall_fmap, list.Forall_forall. intros c Hc. rewrite forallb_forall in Ht.
  specialize (Ht c ltac:(by apply list_elem_of_In)). cbn. unfold is_u8. bsimp. apply negb_true_iff in H2. bsimp. lia.
Qed.

(** The panic of one call: its message, file and line. *)
Record call_ok (w : world console) (file : Z) (name : list Z) (line msg : Z) (shown own : list Z) (d : Z) : Prop := {
  co_file : text (w_mem w) file name;
  co_msg : text (w_mem w) msg shown;
  co_own : text (w_mem w) panic_file own;
  co_strip : strip_at own 0 0 = Some d;
  co_line : is_u64 line;
  co_lengths : (length name < fuel)%nat ∧ (length shown < fuel)%nat ∧ (length own < fuel)%nat;
  co_room : (length name < 200)%nat ∧ (length shown < 200)%nat;
}.

Ltac rows_ok := repeat (apply Forall_cons_2; [cbn [fst]; unfold SCREEN_HEIGHT; lia|]); constructor.
Ltac red_literal Hc Hr := apply wp_bind; eapply wp_red_row; [exact Hr|
  apply text_placed; by eapply literal_text|unfold SCREEN_HEIGHT; lia|rows_ok|].
Ltac red_string Hr Ht := apply wp_bind; eapply wp_red_row; [exact Hr|
  apply text_placed; eapply reported_text; [exact Hr|exact Ht]|unfold SCREEN_HEIGHT; lia|rows_ok|].

(** The first line of both reports: a literal and a string. *)
Lemma wp_report_string w0 L k w line t str l own d (Q : unit → world console → Prop) : can_report w0 → reported w0 L k w →
  Forall (λ x, 0 <= x.1 < SCREEN_HEIGHT) L → is_u64 line → text (w_mem w0) str l → (length l < fuel)%nat →
  (length l < 200)%nat → (length (chars t) < 56)%nat →
  existsb (String.eqb (t +:+ "%s")) (line_literals ++ panic_literals) = true →
  chars (t +:+ "%s") = chars t ++ [37; 115] →
  forallb (λ c, negb (c =? CH_PERCENT) && (0 <=? c) && (c <? 256)) (chars t) = true →
  text (w_mem w0) panic_file own → strip_at own 0 0 = Some d → (length own < fuel)%nat →
  (∀ w', reported w0 L (k ++ line_head "[FAT]" own d line ++ chars t ++ l ++ chars CRLF) w' → Q () w') →
  wp (log_line_format fuel LOG_LEVEL_FATAL line (t +:+ "%s") [str]) Q w.
Proof.
  intros Hc Hr HL Hline Hs Hl Hl2 Ht Hin Happ Hplain Hown Hd Hownl HQ.
  assert (format_of (plain t ++ [PStr str l]) = chars t ++ [37; 115]) as Hfmt by apply format_plain.
  assert (output_of (plain t ++ [PStr str l]) = chars t ++ l) as Hout.
  { unfold plain. rewrite output_plain. f_equal. cbn. apply app_nil_r. }
  assert (args_of (plain t ++ [PStr str l]) = [str]) as <-.
  { unfold args_of, plain. clear. induction (chars t) as [|c k IH]; [done|exact IH]. }
  eapply wp_report_line; [done|exact Hr|done|done|done|by rewrite Hfmt|rewrite Hfmt, length_app; cbn [length]; lia| | | | | |];
    [exact Hown|exact Hd|done| |rewrite Hout, length_app; lia|].
  - apply Forall_app_2; [by apply plain_ok|]. apply Forall_singleton. split; [|done].
    by apply (reported_text _ _ _ _ _ _ Hr Hs).
  - intros w' Hw'. apply HQ. by rewrite Hout, <-app_assoc in Hw'.
Qed.

(** The second line: the file and the number of the line. *)
Lemma wp_report_place w0 L k w num format mid tail file name line own d (Q : unit → world console → Prop) :
  can_report w0 → reported w0 L k w → Forall (λ x, 0 <= x.1 < SCREEN_HEIGHT) L → is_u64 num →
  text (w_mem w0) file name → (length name < fuel)%nat → (length name < 200)%nat → is_u64 line →
  (length (chars mid) < 16)%nat → (length (chars tail) < 2)%nat →
  existsb (String.eqb format) (line_literals ++ panic_literals) = true →
  chars format = chars "File: " ++ 37 :: 115 :: chars mid ++ 37 :: 108 :: 117 :: chars tail →
  forallb (λ c, negb (c =? CH_PERCENT) && (0 <=? c) && (c <? 256)) (chars mid ++ chars tail) = true →
  text (w_mem w0) panic_file own → strip_at own 0 0 = Some d → (length own < fuel)%nat →
  (∀ w', reported w0 L (k ++ line_head "[FAT]" own d num ++ chars "File: " ++ name ++ chars mid ++ decimal line ++
    chars tail ++ chars CRLF) w' → Q () w') →
  wp (log_line_format fuel LOG_LEVEL_FATAL num format [file; line]) Q w.
Proof.
  intros Hc Hr HL Hnum Hfile Hf1 Hf2 Hline Hmid Htail Hin Hfmt Hplain Hown Hd Hownl HQ.
  pose proof (decimal_length 20 line ltac:(apply Hline) ltac:(lia)) as Hl. fold (decimal line) in Hl.
  rewrite forallb_app in Hplain. apply andb_true_iff in Hplain as [Hp1 Hp2].
  set (pieces := plain "File: " ++ PStr file name :: plain mid ++ PULong line :: plain tail ++ []).
  assert (format_of pieces = chars format) as Hfm.
  { unfold pieces, plain. rewrite format_plain, Hfmt. f_equal.
    change (format_of (PStr file name :: ?x)) with (37 :: 115 :: format_of x). do 2 f_equal. rewrite format_plain. f_equal.
    change (format_of (PULong line :: ?x)) with (37 :: 108 :: 117 :: format_of x). do 3 f_equal. rewrite format_plain. apply app_nil_r. }
  assert (output_of pieces = chars "File: " ++ name ++ chars mid ++ decimal line ++ chars tail) as Hout.
  { unfold pieces, plain. rewrite output_plain. f_equal.
    change (output_of (PStr file name :: ?x)) with (name ++ output_of x). f_equal. rewrite output_plain. f_equal.
    change (output_of (PULong line :: ?x)) with (decimal line ++ output_of x). f_equal. rewrite output_plain. apply app_nil_r. }
  assert (args_of pieces = [file; line]) as <-.
  { assert (∀ l ys, args_of ((PChar <$> l) ++ ys) = args_of ys) as Hargs.
    { intros l ys. unfold args_of. induction l as [|c l IH]; [done|exact IH]. }
    unfold pieces, plain. rewrite Hargs. change (args_of (PStr file name :: ?x)) with (file :: args_of x). f_equal.
    rewrite Hargs. change (args_of (PULong line :: ?x)) with (line :: args_of x). f_equal. by rewrite Hargs. }
  eapply (wp_report_line _ _ _ _ num format pieces own d); [done|exact Hr|done|done|done|done| |done|done|done| | |].
  - rewrite Hfm, Hfmt. repeat (rewrite length_app || cbn [length chars]). lia.
  - unfold pieces. apply Forall_app_2; [by apply plain_ok|]. apply Forall_cons_2.
    { split; [|done]. by apply (reported_text _ _ _ _ _ _ Hr Hfile). }
    apply Forall_app_2; [by apply plain_ok|]. apply Forall_cons_2; [done|]. by rewrite app_nil_r; apply plain_ok.
  - rewrite Hout, !length_app. cbn [length chars]. lia.
  - intros w8 R8. apply HQ. rewrite Hout in R8. refine (eq_ind _ (λ k, reported w0 _ k w8) R8 _ _). by rewrite <-!app_assoc.
Qed.

(** C21: a kernel panic is reported completely.  With the frame buffer switched
    off and a serial device that keeps up, [_kernel_panic] writes its title,
    the message, the file and the line to the last five rows of the screen,
    sends two lines of the log with the same contents, and changes nothing
    else but the stack; then it halts: it never returns. *)
Theorem kernel_panic_ok (file line msg : Z) (name shown own : list Z) (d : Z) (w : world console)
    (Hc : can_report w) (Hcall : call_ok w file name line msg shown own d) :
  ∃ w', panic_report fuel file line msg w = Done ((), w') ∧
    reported w [(20, chars "Kernel panic!"); (21, shown); (22, chars "File:"); (23, name); (24, decimal line)]
      ((line_head "[FAT]" own d 71 ++ chars "Kernel panic! " ++ shown ++ chars CRLF) ++
       line_head "[FAT]" own d 72 ++ chars "File: " ++ name ++ chars ", line:" ++ decimal line ++ chars " " ++ chars CRLF) w' ∧
    _kernel_panic (A := unit) fuel file line msg w = Timeout.
Proof.
  destruct Hcall as [Hfile Hmsg Hown Hd Hline (Hf1&Hf2&Hf3) (Hr1&Hr2)].
  pose proof (decimal_length 20 line ltac:(apply Hline) ltac:(lia)) as Hl. fold (decimal line) in Hl.
  cut (wp (panic_report fuel file line msg) (λ _ w', reported w [(20, chars "Kernel panic!"); (21, shown);
      (22, chars "File:"); (23, name); (24, decimal line)]
      ((line_head "[FAT]" own d 71 ++ chars "Kernel panic! " ++ shown ++ chars CRLF) ++
       line_head "[FAT]" own d 72 ++ chars "File: " ++ name ++ chars ", line:" ++ decimal line ++ chars " " ++ chars CRLF) w') w).
  { intros Hw. destruct (proj1 (wp_done _ _ _) Hw) as (u&w'&Hrun&HQ). destruct u. exists w'. split; [exact Hrun|].
    split; [exact HQ|]. unfold _kernel_panic. rewrite (bind_done _ _ _ _ _ Hrun). apply halt_never. }
  pose proof (reported_start w) as R0. unfold panic_report.
  red_literal Hc R0. intros w1 R1 _. red_string R1 Hmsg. intros w2 R2 _. red_literal Hc R2. intros w3 R3 _.
  red_string R3 Hfile. intros w4 R4 _. apply wp_bind. eapply wp_line_text; [done|exact R4|done|rows_ok|]. intros w5 R5 Hln.
  apply wp_bind. eapply wp_red_row; [exact R5|exact Hln|unfold SCREEN_HEIGHT; lia|rows_ok|]. intros w6 R6 _.
  apply wp_bind. eapply (wp_report_string _ _ _ _ 71 "Kernel panic! " msg shown own d);
    [done|exact R6|rows_ok|done|done|done|done|cbn; lia|done|done|done|done|done|done|].
  intros w7 R7. eapply (wp_report_place _ _ _ _ 72 "File: %s, line:%lu " ", line:" " " file name line own d);
    [done|exact R7|rows_ok|done|done|done|done|done|cbn; lia|cbn; lia|done|done|done|done|done|done|].
  intros w8 R8. refine (eq_ind _ (λ k, reported w _ k w8) R8 _ _). by rewrite <-!app_assoc.
Qed.

(** A failed assertion is reported completely, in the same way: its title,
    the expression, the file and the line on the last seven rows, two lines of
    the log, and then it halts. *)
Theorem kernel_assert_fail_ok (expr file line : Z) (name shown own : list Z) (d : Z) (w : world console)
    (Hc : can_report w) (Hcall : call_ok w file name line expr shown own d) (Hlog : is_u64 assert_log_line) :
  ∃ w', assert_report fuel expr file line w = Done ((), w') ∧
    reported w [(18, chars "Kernel assertion failure!"); (19, chars "Expression:"); (20, shown); (21, chars "File:");
      (22, name); (23, chars "Line:"); (24, decimal line)]
      ((line_head "[FAT]" own d assert_log_line ++ chars "Kernel assertion failure! Expression: " ++ shown ++ chars CRLF) ++
       line_head "[FAT]" own d 102 ++ chars "File: " ++ name ++ chars ", line: " ++ decimal line ++ chars CRLF) w' ∧
    _kernel_assert_fail (A := unit) fuel expr file line w = Timeout.
Proof.
  destruct Hcall as [Hfile Hmsg Hown Hd Hline (Hf1&Hf2&Hf3) (Hr1&Hr2)].
  cut (wp (assert_report fuel expr file line) (λ _ w', reported w [(18, chars "Kernel assertion failure!");
      (19, chars "Expression:"); (20, shown); (21, chars "File:"); (22, name); (23, chars "Line:"); (24, decimal line)]
      ((line_head "[FAT]" own d assert_log_line ++ chars "Kernel assertion failure! Expression: " ++ shown ++ chars CRLF) ++
       line_head "[FAT]" own d 102 ++ chars "File: " ++ name ++ chars ", line: " ++ decimal line ++ chars CRLF) w') w).
  { intros Hw. destruct (proj1 (wp_done _ _ _) Hw) as (u&w'&Hrun&HQ). destruct u. exists w'. split; [exact Hrun|].
    split; [exact HQ|]. unfold _kernel_assert_fail. rewrite (bind_done _ _ _ _ _ Hrun). apply halt_never. }
  pose proof (reported_start w) as R0. unfold assert_report.
  red_literal Hc R0. intros w1 R1 _. red_literal Hc R1. intros w2 R2 _. red_string R2 Hmsg. intros w3 R3 _.
  red_literal Hc R3. intros w4 R4 _. red_string R4 Hfile. intros w5 R5 _.
  apply wp_bind. eapply wp_line_text; [done|exact R5|done|rows_ok|]. intros w6 R6 Hln.
  red_literal Hc R6. intros w7 R7 Hv7. apply wp_bind. eapply wp_red_row; [exact R7|by apply (string_survives _ _ _ _ Hv7)|
    unfold SCREEN_HEIGHT; lia|rows_ok|]. intros w8 R8 _.
  apply wp_bind. eapply (wp_report_string _ _ _ _ assert_log_line "Kernel assertion failure! Expression: " expr shown own d);
    [done|exact R8|rows_ok|done|done|done|done|cbn; lia|done|done|done|done|done|done|].
  intros w9 R9. eapply (wp_report_place _ _ _ _ 102 "File: %s, line: %lu" ", line: " "" file name line own d);
    [done|exact R9|rows_ok|done|done|done|done|done|cbn; lia|cbn; lia|done|done|done|done|done|done|].
  intros w10 R10. refine (eq_ind _ (λ k, reported w _ k w10) R10 _ _). by rewrite <-!app_assoc.
Qed.
End reports.

(* --------------------------------------------------------------------- *)
(** ** A panic *)

Definition report_literals : list string := line_literals ++ panic_literals.

Definition panic_log_link : LogLink := {|
  literal t := match list_find (eq t) report_literals with Some (i, _) => 4096 + 64 * Z.of_nat i | None => 0 end;
  log_msg := 65536;
  log_buf := 65792;
|}.
Definition panic_link : PanicLink := {| panic_file := 8192; ln_str := 66048; assert_log_line := 101 |}.

Definition panic_memory : memory :=
  poke 8192 (chars "/cing/src/kernel/kernel_panic.c" ++ [0]) (poke 8320 (chars "mm.c" ++ [0]) (poke 8448 (chars "boom" ++ [0])
  (fold_right (λ t m, poke (@literal panic_log_link t) (chars t ++ [0]) m) ∅ report_literals))).
Definition panic_world : world console := World panic_memory (Console full_hd [] 0 0 false).

Definition text_b (m : memory) (lo hi p : Z) (l : list Z) : bool :=
  c_string_b m lo hi p l && ((p + Z.of_nat (length l) <? _video_buffer) || (_video_buffer + _offset_max <=? p)).

Lemma text_check m lo hi p l : text_b m lo hi p l = true → text (lo := lo) (hi := hi) m p l.
Proof.
  intros [Hc Hv]%andb_true_iff. split; [by apply c_string_check|]. apply orb_true_iff in Hv as [?|?]; bsimp; lia.
Qed.

Lemma panic_world_reports : @can_report panic_log_link panic_link 80 65536 66560 panic_world.
Proof.
  split; [done| | | | |lia].
  - assert (forallb (λ t, text_b panic_memory 65536 66560 (@literal panic_log_link t) (chars t)) report_literals = true) as Hl
      by (vm_compute; reflexivity).
    apply list.Forall_forall. intros t Ht. apply text_check. rewrite forallb_forall in Hl. by apply Hl, list_elem_of_In.
  - unfold local_buf. cbn. lia.
  - unfold local_buf. cbn. lia.
  - unfold local_buf. cbn. lia.
Qed.

Lemma panic_world_call : @call_ok panic_link 80 65536 66560 panic_world 8320 (chars "mm.c") 42 8448 (chars "boom")
  (chars "/cing/src/kernel/kernel_panic.c") 10.
Proof.
  split; [apply text_check; vm_compute; reflexivity|apply text_check; vm_compute; reflexivity|
    apply text_check; vm_compute; reflexivity|reflexivity|done|cbn; lia|cbn; lia].
Qed.

Lemma slow_line_answers h : @answers_within slow_line PORT_NO_SERIAL_COM1_STATUS_LINE transmit_empty 1 h.
Proof. destruct h as [|[] h]; vm_compute; auto. Qed.

Lemma kernel_panic_ok_witness :
  (∃ w', @panic_report slow_line panic_log_link panic_link 80 8320 42 8448 panic_world = Done ((), w') ∧
    row_is (w_mem w') 21 (chars "boom")) ∧
  @_kernel_panic slow_line panic_log_link panic_link 80 unit 8320 42 8448 panic_world = Timeout.
Proof.
  destruct (@kernel_panic_ok slow_line panic_log_link panic_link 80 1 slow_line_answers ltac:(lia) 65536 66560
    ltac:(left; vm_compute; congruence) 8320 42 8448 (chars "mm.c") (chars "boom")
    (chars "/cing/src/kernel/kernel_panic.c") 10 panic_world panic_world_reports panic_world_call) as (w'&Hrun&Hr&Hhalt).
  split; [|exact Hhalt]. exists w'. split; [exact Hrun|]. clear Hrun Hhalt.
  apply (proj1 (list.Forall_forall _ _) (rp_rows _ _ _ _ Hr) (21, chars "boom")). right. left.
Defined.

Lemma kernel_assert_fail_ok_witness :
  (∃ w', @assert_report slow_line panic_log_link panic_link 80 8448 8320 42 panic_world = Done ((), w') ∧
    row_is (w_mem w') 20 (chars "boom")) ∧
  @_kernel_assert_fail slow_line panic_log_link panic_link 80 unit 8448 8320 42 panic_world = Timeout.
Proof.
  destruct (@kernel_assert_fail_ok slow_line panic_log_link panic_link 80 1 slow_line_answers ltac:(lia) 65536 66560
    ltac:(left; vm_compute; congruence) 8448 8320 42 (chars "mm.c") (chars "boom")
    (chars "/cing/src/kernel/kernel_panic.c") 10 panic_world panic_world_reports panic_world_call) as (w'&Hrun&Hr&Hhalt).
  { unfold is_u64. cbn. lia. }
  split; [|exact Hhalt]. exists w'. split; [exact Hrun|]. clear Hrun Hhalt.
  apply (proj1 (list.Forall_forall _ _) (rp_rows _ _ _ _ Hr) (20, chars "boom")). right. right. left.
Defined.

Lemma unsigned_to_str_ok_witness :
  ∃ m', _unsigned_to_str 1234 4096 4 (∅ : memory) = Done ((), m') ∧ wrote 4096 [69; 82; 0] (∅ : memory) m'.
Proof.
  destruct (unsigned_to_str_ok (S := memory) 1234 4096 4 ∅) as (m'&Hrun&Hw&_); [unfold is_u64; lia|lia|lia|lia|].
  exists m'. split; [exact Hrun|exact Hw].
Defined.
