(* ===== verification/Keyboard.v ===== *)
(** The interrupt-driven drivers, src/drivers/drivers_keyboard.c and
    drivers_time.c: they register a handler each; the keyboard's waits for
    the controller, reads the scan code and shows three keys on the screen.

    Theorem: a keyboard interrupt after the registration, through the
    dispatch of Interrupts.v, the ports of Ports.v and the screen of
    Screen.v. *)
From S2P Require Import Prelude Memory Strings Ports Interrupts Screen.

(** The addresses of the two handler functions. *)
Class HandlerLink := {
  p_keyboard_irq_handler : Z;
  p_time_irq_handler : Z;
}.

Section keyboard.
Context `{Device} {S : Type} `{HasPorts S}.

Definition _status_data_is_empty (status_byte : Z) : M S bool :=
  b ← byte_bit_get status_byte 0;
  mret (negb b).

(** [fuel] bounds the reads of the status register. *)
Definition _wait_data_available (fuel : nat) : M S unit :=
  poll_until fuel PORT_NO_KEYBOARD_CMD (λ status,
    empty ← _status_data_is_empty status;
    mret (negb empty)).

Definition _data_read : M S Z := port_read_byte PORT_NO_KEYBOARD_DATA.

Definition keyboard_irq_handler (fuel : nat) (id para : Z) : M S unit :=
  _wait_data_available fuel ;;
  data ← _data_read;
  if data =? 0x11 then screen_write_at 87 0 0
  else if data =? 0x15 then screen_write_at 89 0 0
  else if data =? 0x19 then screen_write_at 80 0 0
  else mret ().

(** [drivers_time.c] *)
Definition _irq_handler (id para : Z) : M S unit := mret ().

End keyboard.

Section drivers.
Context `{IntrLink} `{HandlerLink} `{Device}.

Definition keyboard_init : IM unit := intr_handler_register INTR_ID_IRQ_KEYBOARD p_keyboard_irq_handler.
Definition time_init : IM unit := intr_handler_register INTR_ID_IRQ_TIME p_time_irq_handler.

(** The functions behind the registered pointers. *)
Definition run_handlers (fuel : nat) (hand id para : Z) : IM unit :=
  if hand =? p_keyboard_irq_handler then keyboard_irq_handler fuel id para
  else if hand =? p_time_irq_handler then _irq_handler id para
  else fault.

(* --------------------------------------------------------------------- *)

Definition data_ready (status : Z) : bool := Z.testbit status 0.

(** The character that a scan code shows. *)
Definition key_char (scan_code : Z) : option Z :=
  if scan_code =? 0x11 then Some 87 else if scan_code =? 0x15 then Some 89
  else if scan_code =? 0x19 then Some 80 else None.

Definition press (scan_code : Z) (m : memory) : memory :=
  match key_char scan_code with Some c => store8 (cell 0 0) c m | None => m end.

Lemma bit_0_all :
  forallb (λ b, Bool.eqb (negb (Z.land b (Z.shiftl 1 0) =? 0)) (Z.testbit b 0)) (seqZ 0 256) = true.
Proof. vm_compute. reflexivity. Qed.

Lemma wp_keyboard_handler n fuel id para (s : world intr) (Q : unit → world intr → Prop) :
  answers_within PORT_NO_KEYBOARD_CMD data_ready n (io_of s) → (n < fuel)%nat →
  (∀ k, (k <= n + 1)%nat → first_ready PORT_NO_KEYBOARD_CMD data_ready k (io_of s) →
    let h := polled PORT_NO_KEYBOARD_CMD k (io_of s) in
    Q () (set_io (In 0x60 :: h) (set_mem (press (u8 (answer h 0x60)) (mem_of s)) s))) →
  wp (keyboard_irq_handler fuel id para) Q s.
Proof.
  intros Hans Hfuel HQ. unfold keyboard_irq_handler. apply wp_bind.
  unfold _wait_data_available. eapply (wp_poll_until n _ _ _ data_ready); [|done|done|].
  - intros st R t Hst HR. unfold _status_data_is_empty, byte_bit_get.
    do 2 apply wp_bind. apply wp_bind, wp_assert; [done|]. do 3 apply wp_ret.
    pose proof (forallb_seqZ _ _ _ bit_0_all Hst) as Hall. apply eqb_prop in Hall.
    rewrite negb_involutive, Hall. exact HR.
  - intros k Hk Hfirst. apply wp_bind. unfold _data_read. apply wp_port_read. specialize (HQ k Hk Hfirst). cbv zeta in HQ.
    rewrite io_of_set, set_io_set. change (u16 PORT_NO_KEYBOARD_DATA) with 0x60.
    set (h := polled _ _ _) in *. set (sc := u8 _) in *. unfold press, key_char in HQ.
    assert (on_screen 0 0) as Ho by (unfold on_screen, SCREEN_WIDTH, SCREEN_HEIGHT; lia).
    destruct (sc =? 0x11); [|destruct (sc =? 0x15); [|destruct (sc =? 0x19)]].
    1-3: apply wp_screen_write; [done|]; exact HQ.
    apply wp_ret. destruct s as [m st]. exact HQ.
Qed.

(** C37: a key press, end to end.  The two drivers register their handlers; a
    timer interrupt then only acknowledges the controller, and a keyboard
    interrupt acknowledges it, reads the status of the keyboard up to the first
    status that announces data and no further, then reads one scan code, and
    shows W, Y or P in the upper left cell exactly for the three known keys -
    when the keyboard answers within [n] reads of its status after the first. *)
Theorem keyboard_irq_ok (n fuel : nat) (stack : Z) (s : world intr)
    (Hans : ∀ h, answers_within PORT_NO_KEYBOARD_CMD data_ready n h) (Hfuel : (n < fuel)%nat)
    (Hp : p_keyboard_irq_handler ≠ NULL ∧ p_time_irq_handler ≠ NULL ∧ p_keyboard_irq_handler ≠ p_time_irq_handler)
    (Hlen : length (handlers (w_st s)) = 256%nat)
    (Hnull : handlers (w_st s) !! 32%nat = Some NULL ∧ handlers (w_st s) !! 33%nat = Some NULL) :
  wp (time_init ;; keyboard_init) (λ _ s1,
    w_mem s1 = w_mem s ∧ intr_io (w_st s1) = intr_io (w_st s) ∧
    wp (intr_irq_handler (run_handlers fuel) INTR_ID_IRQ_TIME stack) (λ _ s2,
      w_mem s2 = w_mem s ∧ intr_io (w_st s2) = Out 0x20 0x20 :: intr_io (w_st s)) s1 ∧
    wp (intr_irq_handler (run_handlers fuel) INTR_ID_IRQ_KEYBOARD stack) (λ _ s2,
      ∃ k, (k <= n + 1)%nat ∧ first_ready PORT_NO_KEYBOARD_CMD data_ready k (Out 0x20 0x20 :: intr_io (w_st s)) ∧
        let h := polled PORT_NO_KEYBOARD_CMD k (Out 0x20 0x20 :: intr_io (w_st s)) in
        intr_io (w_st s2) = In 0x60 :: h ∧ w_mem s2 = press (u8 (answer h 0x60)) (w_mem s)) s1) s.
Proof.
  destruct Hp as (Hpk&Hpt&Hne). destruct Hnull as [H32 H33].
  apply wp_bind. unfold time_init. apply wp_register; [unfold INTR_ID_IRQ_TIME, INTR_ID_MAX; lia|done|done|done|].
  unfold keyboard_init. apply wp_register; cbn [w_st w_mem handlers set_handlers].
  { unfold INTR_ID_IRQ_KEYBOARD, INTR_ID_MAX. lia. } { done. } { by rewrite length_insert. }
  { by rewrite list_lookup_insert_ne. }
  split; [done|]. split; [done|]. split.
  - eapply (wp_dispatch _ _ _ p_time_irq_handler); [unfold INTR_ID_IRQ_TIME, INTR_ID_MAX; lia| |done|].
    { cbn [w_st handlers set_handlers]. rewrite list_lookup_insert_ne by done. apply list_lookup_insert_eq. rewrite Hlen. unfold INTR_ID_IRQ_TIME. lia. }
    unfold run_handlers. rewrite (proj2 (Z.eqb_neq _ _)) by congruence. rewrite Z.eqb_refl. by apply wp_ret.
  - eapply (wp_dispatch _ _ _ p_keyboard_irq_handler); [unfold INTR_ID_IRQ_KEYBOARD, INTR_ID_MAX; lia| |done|].
    { cbn [w_st handlers set_handlers]. apply list_lookup_insert_eq. rewrite length_insert, Hlen. unfold INTR_ID_IRQ_KEYBOARD. lia. }
    unfold run_handlers. rewrite Z.eqb_refl. eapply wp_keyboard_handler; [apply Hans|done|].
    intros k Hk Hfirst h. by exists k.
Qed.

End drivers.

(* ===================================================================== *)
(** ** A sample machine: the key P, after one read of an empty status *)

Definition sample_handlers : HandlerLink := {| p_keyboard_irq_handler := 0x105000; p_time_irq_handler := 0x106000 |}.
Definition sample_keyboard : Device := λ h port, if port =? 0x60 then 0x19 else match h with In _ :: _ => 1 | _ => 0 end.

(** The status is read twice: empty, then ready. *)
Lemma keyboard_irq_ok_witness :
  wp (@time_init sample_handlers ;; @keyboard_init sample_handlers) (λ _ s1,
    w_mem s1 = w_mem sample_intr ∧ intr_io (w_st s1) = [] ∧
    wp (@intr_irq_handler sample_intr_link (@run_handlers sample_handlers sample_keyboard 2) 32 0) (λ _ s2,
      w_mem s2 = w_mem sample_intr ∧ intr_io (w_st s2) = [Out 0x20 0x20]) s1 ∧
    wp (@intr_irq_handler sample_intr_link (@run_handlers sample_handlers sample_keyboard 2) 33 0) (λ _ s2,
      intr_io (w_st s2) = [In 0x60; In 0x64; In 0x64; Out 0x20 0x20] ∧ w_mem s2 = press 0x19 (w_mem sample_intr)) s1) sample_intr.
Proof.
  assert (wp (@time_init sample_handlers ;; @keyboard_init sample_handlers) (λ _ s1,
    w_mem s1 = w_mem sample_intr ∧ intr_io (w_st s1) = [] ∧
    wp (@intr_irq_handler sample_intr_link (@run_handlers sample_handlers sample_keyboard 2) 32 0) (λ _ s2,
      w_mem s2 = w_mem sample_intr ∧ intr_io (w_st s2) = [Out 0x20 0x20]) s1 ∧
    wp (@intr_irq_handler sample_intr_link (@run_handlers sample_handlers sample_keyboard 2) 33 0) (λ _ s2,
      ∃ k, (k <= 1 + 1)%nat ∧ @first_ready sample_keyboard PORT_NO_KEYBOARD_CMD data_ready k [Out 0x20 0x20] ∧
        let h := polled PORT_NO_KEYBOARD_CMD k [Out 0x20 0x20] in
        intr_io (w_st s2) = In 0x60 :: h ∧ w_mem s2 = press 0x19 (w_mem sample_intr)) s1) sample_intr) as H.
  { refine (@keyboard_irq_ok sample_intr_link sample_handlers sample_keyboard 1 2 0 sample_intr _ _ _ _ _).
    - intros [|[] h]; vm_compute; auto.
    - lia.
    - done.
    - done.
    - done. }
  eapply wp_mono; [exact H|]. intros [] s1 (H1&H2&H3&H4). split; [exact H1|]. split; [exact H2|]. split; [exact H3|].
  eapply wp_mono; [exact H4|]. cbv beta. intros [] s2 (k&Hk&(H0&Hr&_)&Hio&Hm). split; [|exact Hm].
  destruct k as [|[|[|k]]]; [lia|by vm_compute in Hr|exact Hio|lia].
Defined.
