(* ===== verification/Pcie.v ===== *)
(** The PCI express driver, src/drivers/drivers_pcie.c: addresses in the
    memory-mapped configuration space, the enumeration of functions from the
    ACPI MCFG table, and the names of devices and classes. *)
From S2P Require Import Prelude Memory Strings Util MmCore.

Definition _GROUP_CAP : Z := 8.
Definition _FUNCTIONS_CAP : Z := 128.
Definition _BUS_MAX : Z := 256.
Definition _DEVICE_MAX : Z := 32.
Definition _FUNCTION_MAX : Z := 8.
Definition _CONFIG_SPACE_SIZE : Z := 4096.
Definition _CONFIG_SPACE_ALIGN : Z := 256 * 32 * 8 * 4 * 1024.

Record d_pcie_group := PcieGroup {
  cfg_space_base_pa : Z;
  group_no : Z;
  bus_start : Z;
  bus_end : Z;
  group_reserved : Z;
}.

(** [sizeof(d_pcie_group_t)], the struct is packed. *)
Definition sizeof_group : Z := 16.

(** The code keeps a pointer to the group: an element of [_groups], which is
    not written again after the pointer was taken. *)
Record d_pcie_func := PcieFunc {
  f_group : d_pcie_group;
  f_bus : Z;
  f_dev : Z;
  f_fun : Z;
  f_vendor_id : Z;
  f_device_id : Z;
  f_header_type : Z;
  f_base_class : Z;
  f_sub_class : Z;
  f_pi : Z;
}.

(** The static variables.  [_groups] and [_functions] are the used parts of
    the two arrays. *)
Record pcie := Pcie {
  _groups : list d_pcie_group;
  _gropp_cnt : Z;
  _functions : list d_pcie_func;
  _func_cnt : Z;
}.

Definition pcie_initial : pcie := Pcie [] 0 [] 0.

Abbreviation PM := (M (world pcie)).

(* ===================================================================== *)
(** ** The configuration space *)

Definition _cfg_space_pa (group : d_pcie_group) (bus dev fun_ off : Z) : PM Z :=
  kernel_assert (mm_align_check (cfg_space_base_pa group) _CONFIG_SPACE_ALIGN) ;;
  kernel_assert (bus <? _BUS_MAX) ;;
  kernel_assert (dev <? _DEVICE_MAX) ;;
  kernel_assert (fun_ <? _FUNCTION_MAX) ;;
  kernel_assert (off <? 4096) ;;
  let pa := (cfg_space_base_pa group ∣∣ (bus << 20) ∣∣ (dev << 15) ∣∣ (fun_ << 12))%u64 in
  mret (pa ∣∣ off)%u64.

Definition _cfg_space_read_byte (group : d_pcie_group) (bus dev fun_ off : Z) : PM Z :=
  kernel_assert (off <? _CONFIG_SPACE_SIZE) ;;
  padd ← _cfg_space_pa group bus dev fun_ off;
  read 1 padd.

Definition _cfg_space_read_word (group : d_pcie_group) (bus dev fun_ off : Z) : PM Z :=
  kernel_assert (off mod 2 =? 0)%u64 ;;
  kernel_assert (off <=? _CONFIG_SPACE_SIZE - 2)%u64 ;;
  padd ← _cfg_space_pa group bus dev fun_ off;
  read 2 padd.

Definition _cfg_space_read_dword (group : d_pcie_group) (bus dev fun_ off : Z) : PM Z :=
  kernel_assert (off mod 4 =? 0)%u64 ;;
  kernel_assert (off <=? _CONFIG_SPACE_SIZE - 4)%u64 ;;
  padd ← _cfg_space_pa group bus dev fun_ off;
  read 4 padd.

Definition _cfg_space_write_dword (group : d_pcie_group) (bus dev fun_ off val : Z) : PM unit :=
  kernel_assert (off mod 4 =? 0)%u64 ;;
  kernel_assert (off <=? 4096 - 4)%u64 ;;
  padd ← _cfg_space_pa group bus dev fun_ off;
  write 4 padd val.

Definition d_pcie_cfg_space_read_byte (f : d_pcie_func) (off : Z) : PM Z :=
  _cfg_space_read_byte (f_group f) (f_bus f) (f_dev f) (f_fun f) off.
Definition d_pcie_cfg_space_read_word (f : d_pcie_func) (off : Z) : PM Z :=
  _cfg_space_read_word (f_group f) (f_bus f) (f_dev f) (f_fun f) off.
Definition d_pcie_cfg_space_read_dword (f : d_pcie_func) (off : Z) : PM Z :=
  _cfg_space_read_dword (f_group f) (f_bus f) (f_dev f) (f_fun f) off.
Definition d_pcie_cfg_space_write_dword (f : d_pcie_func) (off val : Z) : PM unit :=
  _cfg_space_write_dword (f_group f) (f_bus f) (f_dev f) (f_fun f) off val.

(* ===================================================================== *)
(** ** Names *)

Definition device_name_8086 (vendor device : Z) : PM string :=
  kernel_assert (vendor =? 0x8086) ;;
  mret (
    if (device =? 0x1911)%Z then "Xeon Core Processor Gaussian Mixture Model"
    else if (device =? 0x2918)%Z then "82801IB (ICH9) LPC Interface Controller"
    else if (device =? 0x2922)%Z then "82801IR/IO/IH (ICH9R/DO/DH) 6 port SATA Controller [AHCI mode]"
    else if (device =? 0x2930)%Z then "82801I (ICH9 Family) SMBus Controller"
    else if (device =? 0x29c0)%Z then "82G33/G31/P35/P31 Express DRAM Controller"
    else if (device =? 0x3ea5)%Z then "CoffeeLake-U GT3e [Iris Plus Graphics 655]"
    else if (device =? 0x3ed0)%Z then "8th Gen Core Processor Host Bridge/DRAM Registers"
    else if (device =? 0x10d3)%Z then "82574L Gigabit Network Connection"
    else if (device =? 0x5845)%Z then "QEMU NVM Express Controller"
    else if (device =? 0x9de0)%Z then "Cannon Point-LP MEI Controller #1"
    else if (device =? 0x9ded)%Z then "Cannon Point-LP USB 3.1 xHCI Controller"
    else if (device =? 0x9def)%Z then "Cannon Point-LP Shared SRAM"
    else if (device =? 0x9df0)%Z then "Cannon Point-LP CNVi [Wireless-AC]"
    else if (device =? 0x9df9)%Z then "Cannon Point-LP Thermal Controller"
    else "Unknown")%string.

Definition device_name_1234 (vendor device : Z) : PM string :=
  kernel_assert (vendor =? 0x1234) ;;
  mret (if (device =? 0x1111)%Z then "QEMU Virtual Video Controller" else "Unknown")%string.

(** Returns [*vname] and [*dname]; [None] is [NULL]. *)
Definition iden_name (vendor device : Z) : PM (string * string) :=
  '(vname, dname) ←
    (if vendor =? 0x10EC then mret (Some "Realtek Semiconductor Co., Ltd."%string, None)
     else if vendor =? 0x1234 then
       d ← device_name_1234 vendor device;
       mret (Some "Technical Corp"%string, Some d)
     else if vendor =? 0x15b7 then
       mret (Some "Sandisk Corp"%string,
         if device =? 0x5009 then Some "WD Blue SN550 NVMe SSD"%string else None)
     else if vendor =? 0x8086 then
       d ← device_name_8086 vendor device;
       mret (Some "Intel"%string, Some d)
     else mret (None, None));
  mret (default "Unknown vendor"%string vname, default "Unknown device"%string dname).

(** The table of [class_name], [None] where no branch assigns a name. *)
Definition class_name_table (base sub pi : Z) : PM (option string) :=
  let one (p : Z) (n : string) := mret (if pi =? p then Some n else None) in
  if base =? 0x00 then
    if sub =? 0x00 then mret (Some "Old device"%string) else kernel_panic "TODO"
  else if base =? 0x01 then
    if sub =? 0x08 then one 0x02 "NVM Express (NVMe) I/O controller"%string
    else if sub =? 0x06 then one 0x01 "Serial ATA controller - AHCI interface"%string
    else mret None
  else if base =? 0x02 then
    if sub =? 0x00 then one 0x00 "Ethernet controller"%string
    else if sub =? 0x80 then one 0x00 "Other network controller"%string
    else mret None
  else if base =? 0x03 then
    if sub =? 0x00 then one 0x00 "VGA-compatible controller"%string else mret None
  else if base =? 0x04 then
    if sub =? 0x00 then one 0x00 "Video device – vendor specific interface"%string
    else if sub =? 0x01 then one 0x00 "Audio device – vendor specific interface"%string
    else if sub =? 0x02 then one 0x00 "Computer telephony device – vendor specific interface"%string
    else if sub =? 0x03 then
      mret (if pi =? 0x00 then Some "High Definition Audio 1.0 compatible"%string
            else if pi =? 0x80 then
              Some "High Definition Audio 1.0 compatible with vendor extensions"%string
            else None)
    else if sub =? 0x80 then one 0x00 "Other multimedia device – vendor specific interface"%string
    else mret None
  else if base =? 0x05 then
    if sub =? 0x00 then one 0x00 "RAM"%string else mret None
  else if base =? 0x06 then
    if sub =? 0x00 then one 0x00 "Host bridge"%string
    else if sub =? 0x01 then one 0x00 "ISA bridge"%string
    else if sub =? 0x04 then
      mret (if pi =? 0x00 then Some "PCI-to-PCI bridge"%string
            else if pi =? 0x01 then Some "Subtractive Decode PCI-to-PCI bridge"%string
            else None)
    else mret None
  else if base =? 0x07 then
    if sub =? 0x00 then
      mret (if pi =? 0x00 then Some "Generic XT-compatible serial controller"%string
            else if pi =? 0x01 then Some "16450-compatible serial controller"%string
            else if pi =? 0x02 then Some "16550-compatible serial controller"%string
            else if pi =? 0x03 then Some "16650-compatible serial controller"%string
            else if pi =? 0x04 then Some "16750-compatible serial controller"%string
            else if pi =? 0x05 then Some "16850-compatible serial controller"%string
            else if pi =? 0x06 then Some "16950-compatible serial controller"%string
            else None)
    else if sub =? 0x80 then one 0x00 "Other communications device"%string
    else mret None
  else if base =? 0x08 then
    if sub =? 0x80 then one 0x00 "Other system peripheral"%string else mret None
  else if base =? 0x0C then
    if sub =? 0x03 then one 0x30 "USB Controller following Intel xHCI specification"%string
    else if sub =? 0x05 then one 0x00 "System Management Bus"%string
    else if sub =? 0x80 then one 0x00 "Other Serial Bus Controllers"%string
    else mret None
  else if base =? 0x11 then
    if sub =? 0x80 then
      one 0x00 "Other data acquisition/signal processing controllers"%string
    else mret None
  else if base =? 0xff then mret (Some "Device does not fit in any defined classes"%string)
  else mret None.

Definition class_name (base sub pi : Z) : PM string :=
  name ← class_name_table base sub pi;
  mret (default "Unknown class"%string name).

(* ===================================================================== *)
(** ** Queries *)

Definition d_pcie_get_func_cnt : PM Z :=
  cnt ← static _func_cnt;
  kernel_assert_d (cnt <? _FUNCTIONS_CAP) ;;
  mret cnt.

(** [&_functions[idx]]; using an element that was never filled is [Fault]. *)
Definition d_pcie_get_func (idx : Z) : PM d_pcie_func :=
  fs ← static _functions;
  array_get fs idx.

Definition d_pcie_func_get_base_class (f : d_pcie_func) : Z := f_base_class f.
Definition d_pcie_func_get_sub_class (f : d_pcie_func) : Z := f_sub_class f.
Definition d_pcie_func_get_vendor_name (f : d_pcie_func) : PM string :=
  '(vname, _) ← iden_name (f_vendor_id f) (f_device_id f); mret vname.
Definition d_pcie_func_get_device_name (f : d_pcie_func) : PM string :=
  '(_, dname) ← iden_name (f_vendor_id f) (f_device_id f); mret dname.

Definition d_pcie_group_get_cnt : PM Z := static _gropp_cnt.
Definition d_pcie_group_get_cfg_pa (group_idx : Z) : PM Z :=
  cnt ← static _gropp_cnt;
  kernel_assert (group_idx <? cnt) ;;
  gs ← static _groups;
  g ← array_get gs group_idx;
  mret (cfg_space_base_pa g).
Definition d_pcie_group_get_cfg_len : Z := _CONFIG_SPACE_ALIGN.

(* ===================================================================== *)
(** ** Enumeration *)

(** [f = &_functions[_func_cnt++]; *f = ...]: past the end of the array this
    is undefined behaviour. *)
Definition add_function (f : d_pcie_func) : PM unit :=
  cnt ← static _func_cnt;
  if cnt <? _FUNCTIONS_CAP then
    static_set (λ p, Pcie (_groups p) (_gropp_cnt p) (_functions p ++ [f]) (_func_cnt p + 1)%u64)
  else fault.

Definition bootstrap_fun (group : d_pcie_group) (bus dev fun_ : Z) : PM unit :=
  vendor ← _cfg_space_read_word group bus dev fun_ 0;
  if negb (vendor =? 0xFFFF) then
    device ← _cfg_space_read_word group bus dev fun_ 2;
    header_type ← _cfg_space_read_byte group bus dev fun_ 0x0E;
    base_class ← _cfg_space_read_byte group bus dev fun_ 11;
    sub_class ← _cfg_space_read_byte group bus dev fun_ 10;
    pi ← _cfg_space_read_byte group bus dev fun_ 9;
    add_function (PcieFunc group bus dev fun_ vendor device header_type base_class sub_class pi) ;;
    _ ← iden_name vendor device;
    _ ← class_name base_class sub_class pi;
    mret ()
  else mret ().

Definition bootstrap_dev (group : d_pcie_group) (bus dev : Z) : PM unit :=
  vendor ← _cfg_space_read_word group bus dev 0 0;
  if negb (vendor =? 0xFFFF) then
    header_type ← _cfg_space_read_byte group bus dev 0 0x0E;
    multi ← byte_bit_get header_type 7;
    let fun_cnt := if multi : bool then 8 else 1 in
    for_n (Z.to_nat fun_cnt) 0 (λ fun_, bootstrap_fun group bus dev fun_)
  else mret ().

(** The elements of the MCFG table. *)
Definition read_group (p : Z) : PM d_pcie_group :=
  base ← read 8 p;
  no ← read 2 (p + 8)%u64;
  bus_start ← read 1 (p + 10)%u64;
  bus_end ← read 1 (p + 11)%u64;
  reserved ← read 4 (p + 12)%u64;
  mret (PcieGroup base no bus_start bus_end reserved).

Definition bootstrap_group (mcfg i : Z) : PM unit :=
  g ← read_group (mcfg + i * sizeof_group)%u64;
  static_set (λ p, Pcie (_groups p ++ [g]) (_gropp_cnt p) (_functions p) (_func_cnt p)) ;;
  kernel_assert (mm_align_check (cfg_space_base_pa g) _CONFIG_SPACE_ALIGN) ;;
  for_n (Z.to_nat (bus_end g - bus_start g)) (bus_start g) (λ bus,
    for_n 32 0 (λ dev, bootstrap_dev g bus dev)).

Definition d_pcie_bootstrap (mcfg len : Z) : PM unit :=
  kernel_assert (sizeof_group <=? len) ;;
  kernel_assert (len mod sizeof_group =? 0)%u64 ;;
  kernel_assert (negb (mcfg =? NULL)) ;;
  let cnt := (len / sizeof_group)%u64 in
  static_set (λ p, Pcie (_groups p) cnt (_functions p) (_func_cnt p)) ;;
  kernel_assert (cnt <=? _GROUP_CAP) ;;
  static_set (λ p, Pcie [] (_gropp_cnt p) [] 0) ;;
  for_n (Z.to_nat cnt) 0 (λ i, bootstrap_group mcfg i).

(* ===================================================================== *)
(** ** Addresses *)

(** A segment group whose configuration space is aligned and does not wrap. *)
Definition group_ok (g : d_pcie_group) : Prop :=
  (_CONFIG_SPACE_ALIGN | cfg_space_base_pa g) ∧
  0 <= cfg_space_base_pa g ∧ cfg_space_base_pa g + _CONFIG_SPACE_ALIGN <= 18446744073709551616.

(** A bus, device and function number within the limits of the
    specification. *)
Definition bdf_ok (bus dev fun_ : Z) : Prop :=
  0 <= bus < 256 ∧ 0 <= dev < 32 ∧ 0 <= fun_ < 8.

(** The address of an offset in a function's configuration space. *)
Definition cfg_address (g : d_pcie_group) (bus dev fun_ off : Z) : Z :=
  cfg_space_base_pa g + ((bus * 32 + dev) * 8 + fun_) * 4096 + off.

Lemma wp_cfg_space_pa g bus dev fun_ off (Q : Z → world pcie → Prop) w :
  group_ok g → bdf_ok bus dev fun_ → 0 <= off < 4096 → Q (cfg_address g bus dev fun_ off) w →
  wp (_cfg_space_pa g bus dev fun_ off) Q w.
Proof.
  intros (Hd & H0 & H1) (Hb & Hdv & Hf) Hoff HQ. unfold _cfg_space_pa.
  unfold _BUS_MAX, _DEVICE_MAX, _FUNCTION_MAX. change _CONFIG_SPACE_ALIGN with (2 ^ 28) in *.
  wp_step. wp_step; [by apply align_check_true|].
  wp_step. wp_step; [bsimp; lia|]. wp_step. wp_step; [bsimp; lia|].
  wp_step. wp_step; [bsimp; lia|]. wp_step. wp_step; [bsimp; lia|]. wp_step.
  u64_unfold. rewrite !Z.shiftl_mul_pow2 by lia. rewrite !u64_small by lia.
  set (base := cfg_space_base_pa g) in *.
  assert (2 ^ 20 | base) as D1 by (eapply Z.divide_trans; [|exact Hd]; by apply pow2_divide).
  assert (2 ^ 20 | base + bus * 2 ^ 20) as D2
    by (apply Z.divide_add_r; [done|apply Z.divide_factor_r]).
  assert (2 ^ 15 | base + bus * 2 ^ 20 + dev * 2 ^ 15) as D3.
  { apply Z.divide_add_r; [|apply Z.divide_factor_r].
    eapply Z.divide_trans; [|exact D2]. by apply pow2_divide. }
  assert (2 ^ 12 | base + bus * 2 ^ 20 + dev * 2 ^ 15 + fun_ * 2 ^ 12) as D4.
  { apply Z.divide_add_r; [|apply Z.divide_factor_r].
    eapply Z.divide_trans; [|exact D3]. by apply pow2_divide. }
  rewrite (lor_add 28 base) by (done || lia).
  rewrite (lor_add 20 (base + _)) by (done || lia).
  rewrite (lor_add 15 (base + bus * 2 ^ 20 + dev * 2 ^ 15)) by (done || lia).
  rewrite (lor_add 12) by (done || lia).
  replace (base + bus * 2 ^ 20 + dev * 2 ^ 15 + fun_ * 2 ^ 12 + off)
    with (cfg_address g bus dev fun_ off) by (unfold cfg_address; fold base; lia).
  done.
Qed.

(** The configuration space address: for every valid bus, device,
    function and offset it lies inside the group's 256 MiB window, and
    different arguments give different addresses. *)
Theorem cfg_space_pa_injective (g : d_pcie_group) (b d f o b' d' f' o' : Z) (w : world pcie)
    (Hg : group_ok g) (Hv : bdf_ok b d f) (Ho : 0 <= o < 4096)
    (Hv' : bdf_ok b' d' f') (Ho' : 0 <= o' < 4096) :
  ∃ pa pa', _cfg_space_pa g b d f o w = Done (pa, w) ∧ _cfg_space_pa g b' d' f' o' w = Done (pa', w) ∧
    cfg_space_base_pa g <= pa < cfg_space_base_pa g + d_pcie_group_get_cfg_len ∧
    (pa = pa' → b = b' ∧ d = d' ∧ f = f' ∧ o = o').
Proof.
  assert (∀ b d f o, bdf_ok b d f → 0 <= o < 4096 →
    _cfg_space_pa g b d f o w = Done (cfg_address g b d f o, w)) as Hrun.
  { intros b0 d0 f0 o0 Hv0 Ho0.
    assert (wp (_cfg_space_pa g b0 d0 f0 o0) (λ r w', r = cfg_address g b0 d0 f0 o0 ∧ w' = w) w)
      as (r & w' & -> & -> & ->)%wp_done by by apply wp_cfg_space_pa. done. }
  exists (cfg_address g b d f o), (cfg_address g b' d' f' o').
  split; [by apply Hrun|]. split; [by apply Hrun|].
  unfold cfg_address, bdf_ok, d_pcie_group_get_cfg_len, _CONFIG_SPACE_ALIGN in *. lia.
Qed.

(** A dword written to a function's configuration space is read back,
    and no other function of the group sees the write. *)
Theorem cfg_dword_roundtrip (g : d_pcie_group) (b d f o v b' d' f' o' : Z) (w : world pcie)
    (Hg : group_ok g) (Hv : bdf_ok b d f) (Ho : 0 <= o <= 4092 ∧ o `mod` 4 = 0)
    (Hv' : bdf_ok b' d' f') (Ho' : 0 <= o' <= 4092 ∧ o' `mod` 4 = 0)
    (Hw : 0 <= v < 4294967296) :
  ∃ w', _cfg_space_write_dword g b d f o v w = Done ((), w') ∧
    _cfg_space_read_dword g b d f o w' = Done (v, w') ∧
    ((b, d, f, o) ≠ (b', d', f', o') →
     ∃ x, _cfg_space_read_dword g b' d' f' o' w = Done (x, w) ∧
          _cfg_space_read_dword g b' d' f' o' w' = Done (x, w')).
Proof.
  assert (∀ b d f o w, bdf_ok b d f → 0 <= o <= 4092 ∧ o `mod` 4 = 0 →
    _cfg_space_read_dword g b d f o w = Done (load 4 (w_mem w) (cfg_address g b d f o), w)) as Hread.
  { intros b0 d0 f0 o0 w0 Hv0 [Ho0 Hm0].
    assert (wp (_cfg_space_read_dword g b0 d0 f0 o0)
      (λ r w', r = load 4 (w_mem w0) (cfg_address g b0 d0 f0 o0) ∧ w' = w0) w0)
      as (r & w' & -> & -> & ->)%wp_done; [|done].
    unfold _cfg_space_read_dword, _CONFIG_SPACE_SIZE. u64_unfold. rewrite Hm0.
    wp_step. wp_step; [done|]. wp_step. wp_step; [rewrite u64_small by lia; bsimp; lia|].
    wp_step. apply wp_cfg_space_pa; [done|done|lia|]. by apply wp_read. }
  assert (wp (_cfg_space_write_dword g b d f o v)
    (λ _ w', w' = World (store 4 (cfg_address g b d f o) v (w_mem w)) (w_st w)) w)
    as ([] & w' & Hwr & ->)%wp_done.
  { destruct Ho as [Ho Hm]. unfold _cfg_space_write_dword. u64_unfold. rewrite Hm.
    wp_step. wp_step; [done|]. wp_step. wp_step; [rewrite u64_small by lia; bsimp; lia|].
    wp_step. apply wp_cfg_space_pa; [done|done|lia|]. by apply wp_write. }
  eexists. split; [exact Hwr|]. rewrite !Hread by done. simpl. split.
  { f_equal. f_equal. by apply (load_store_small 4). }
  intros Hne. eexists. split; [done|]. rewrite ?Hread by done. simpl. f_equal. f_equal.
  apply (load_store_ne 4 4). change (Z.of_nat 4) with 4.
  destruct Ho as [Ho Hm], Ho' as [Ho' Hm'].
  assert (cfg_address g b d f o ≠ cfg_address g b' d' f' o').
  { intros E. apply Hne. unfold cfg_address, bdf_ok in *.
    assert (b = b' ∧ d = d' ∧ f = f' ∧ o = o') as (-> & -> & -> & ->) by lia. done. }
  apply Z.mod_divide in Hm as [q ->], Hm' as [q' ->]; [|done|done].
  unfold cfg_address in *. lia.
Qed.

(* ===================================================================== *)
(** ** Enumeration against a reference scan *)

(** The registers of a function as the memory holds them. *)
Definition cfg_vendor (m : memory) (g : d_pcie_group) (bus dev fun_ : Z) : Z :=
  load 2 m (cfg_address g bus dev fun_ 0).

Definition func_at (m : memory) (g : d_pcie_group) (bus dev fun_ : Z) : d_pcie_func :=
  let at_ n off := load n m (cfg_address g bus dev fun_ off) in
  PcieFunc g bus dev fun_ (at_ 2%nat 0) (at_ 2%nat 2) (at_ 1%nat 14) (at_ 1%nat 11) (at_ 1%nat 10)
    (at_ 1%nat 9).

(** The functions of a device: all eight that answer if function 0 is a
    multi-function device, only function 0 otherwise, none if function 0 does
    not answer. *)
Definition scan_fun (m : memory) (g : d_pcie_group) (bus dev fun_ : Z) : list d_pcie_func :=
  if cfg_vendor m g bus dev fun_ =? 0xFFFF then [] else [func_at m g bus dev fun_].
Definition scan_dev (m : memory) (g : d_pcie_group) (bus dev : Z) : list d_pcie_func :=
  if cfg_vendor m g bus dev 0 =? 0xFFFF then []
  else if Z.testbit (load 1 m (cfg_address g bus dev 0 14)) 7
  then seqZ 0 8 ≫= scan_fun m g bus dev
  else scan_fun m g bus dev 0.
Definition scan_bus (m : memory) (g : d_pcie_group) (bus : Z) : list d_pcie_func :=
  seqZ 0 32 ≫= scan_dev m g bus.
Definition scan_group (m : memory) (g : d_pcie_group) : list d_pcie_func :=
  seqZ (bus_start g) (bus_end g - bus_start g) ≫= scan_bus m g.

(** The group described by the element of the MCFG table at [p]. *)
Definition group_at (m : memory) (p : Z) : d_pcie_group :=
  PcieGroup (load 8 m p) (load 2 m (p + 8)) (load 1 m (p + 10)) (load 1 m (p + 11)) (load 4 m (p + 12)).
Definition groups_at (m : memory) (mcfg n : Z) : list d_pcie_group :=
  (λ i, group_at m (mcfg + i * 16)) <$> seqZ 0 n.

(** [class_name] has a name for everything but the unspecified old devices. *)
Definition class_known (f : d_pcie_func) : Prop := f_base_class f = 0 → f_sub_class f = 0.

Definition add_functions (l : list d_pcie_func) (p : pcie) : pcie :=
  Pcie (_groups p) (_gropp_cnt p) (_functions p ++ l) (_func_cnt p + Z.of_nat (length l)).

Lemma add_functions_nil p : add_functions [] p = p.
Proof. destruct p. unfold add_functions. simpl. by rewrite app_nil_r, Z.add_0_r. Qed.

Lemma add_functions_app l1 l2 p : add_functions l2 (add_functions l1 p) = add_functions (l1 ++ l2) p.
Proof. unfold add_functions. simpl. rewrite app_assoc, length_app. f_equal. lia. Qed.

Lemma wp_read_byte g bus dev fun_ off (Q : Z → world pcie → Prop) w :
  group_ok g → bdf_ok bus dev fun_ → 0 <= off < 4096 →
  Q (load 1 (w_mem w) (cfg_address g bus dev fun_ off)) w →
  wp (_cfg_space_read_byte g bus dev fun_ off) Q w.
Proof.
  intros Hg Hv Ho HQ. unfold _cfg_space_read_byte, _CONFIG_SPACE_SIZE.
  wp_step. wp_step; [bsimp; lia|]. wp_step. apply wp_cfg_space_pa; [done..|]. by apply wp_read.
Qed.

Lemma wp_read_word g bus dev fun_ off (Q : Z → world pcie → Prop) w :
  group_ok g → bdf_ok bus dev fun_ → 0 <= off <= 4094 → off `mod` 2 = 0 →
  Q (load 2 (w_mem w) (cfg_address g bus dev fun_ off)) w →
  wp (_cfg_space_read_word g bus dev fun_ off) Q w.
Proof.
  intros Hg Hv Ho Hm HQ. unfold _cfg_space_read_word, _CONFIG_SPACE_SIZE. u64_unfold. rewrite Hm.
  wp_step. wp_step; [done|]. wp_step. wp_step; [rewrite u64_small by lia; bsimp; lia|].
  wp_step. apply wp_cfg_space_pa; [done|done|lia|]. by apply wp_read.
Qed.

Lemma wp_iden_name vendor device (Q : string * string → world pcie → Prop) w :
  (∀ r, Q r w) → wp (iden_name vendor device) Q w.
Proof.
  intros HQ. unfold iden_name. wp_step.
  eapply (wp_mono _ (λ _ w', w' = w)); [|by intros [vn dn] ? ->; apply wp_ret].
  unfold device_name_1234, device_name_8086.
  destruct (vendor =? 0x10EC); [by wp_step|]. destruct (vendor =? 0x1234) eqn:E1.
  { wp_step. wp_step. by wp_step; [|wp_step; wp_step]. }
  destruct (vendor =? 0x15b7); [by wp_step|]. destruct (vendor =? 0x8086) eqn:E2; [|by wp_step].
  wp_step. wp_step. by wp_step; [|wp_step; wp_step].
Qed.

Lemma wp_class_name base sub pi (Q : string → world pcie → Prop) w :
  (base = 0 → sub = 0) → (∀ n, Q n w) → wp (class_name base sub pi) Q w.
Proof.
  intros Hk HQ. unfold class_name. wp_step.
  eapply (wp_mono _ (λ _ w', w' = w)); [|by intros o ? ->; apply wp_ret].
  unfold class_name_table. destruct (base =? 0) eqn:Hb; bsimp.
  - rewrite (Hk Hb). by apply wp_ret.
  - repeat match goal with
      | |- wp (if ?c then _ else _) _ _ => destruct c
      end; by apply wp_ret.
Qed.

Lemma wp_add_function f (Q : unit → world pcie → Prop) w :
  0 <= _func_cnt (w_st w) < 128 →
  Q () (World (w_mem w) (add_functions [f] (w_st w))) → wp (add_function f) Q w.
Proof.
  intros Hc HQ. unfold add_function, _FUNCTIONS_CAP. wp_step. apply wp_static.
  destruct (_func_cnt (w_st w) <? 128) eqn:Hlt; bsimp; [|lia].
  apply wp_static_set. u64_unfold. by rewrite u64_small by lia.
Qed.

Lemma wp_bootstrap_fun g bus dev fun_ w (Q : unit → world pcie → Prop) :
  group_ok g → bdf_ok bus dev fun_ → 0 <= _func_cnt (w_st w) →
  let l := scan_fun (w_mem w) g bus dev fun_ in
  _func_cnt (w_st w) + Z.of_nat (length l) <= 128 → Forall class_known l →
  Q () (World (w_mem w) (add_functions l (w_st w))) →
  wp (bootstrap_fun g bus dev fun_) Q w.
Proof.
  intros Hg Hv Hc l Hlen Hk HQ. unfold bootstrap_fun. wp_step.
  apply wp_read_word; [done|done|lia|done|]. unfold l, scan_fun, cfg_vendor in *. clear l.
  destruct (load 2 (w_mem w) (cfg_address g bus dev fun_ 0) =? 0xFFFF) eqn:Hp; simpl.
  - wp_step. rewrite add_functions_nil in HQ. by destruct w.
  - simpl in Hlen. apply list.Forall_cons in Hk as [Hk _].
    wp_step. apply wp_read_word; [done|done|lia|done|].
    do 4 (wp_step; apply wp_read_byte; [done|done|lia|]).
    wp_step. apply wp_add_function; [lia|]. wp_step. apply wp_iden_name. intros r.
    wp_step. apply wp_class_name; [exact Hk|]. intros n. by wp_step.
Qed.

(** A loop that appends the functions found for each index. *)
Lemma wp_scan_loop (body : Z → PM unit) (scan : Z → list d_pcie_func) n lo w (Q : unit → world pcie → Prop) :
  0 <= _func_cnt (w_st w) →
  (∀ i p (R : unit → world pcie → Prop), lo <= i < lo + Z.of_nat n → 0 <= _func_cnt p →
     _func_cnt p + Z.of_nat (length (scan i)) <= 128 → Forall class_known (scan i) →
     R () (World (w_mem w) (add_functions (scan i) p)) → wp (body i) R (World (w_mem w) p)) →
  let l := seqZ lo (Z.of_nat n) ≫= scan in
  _func_cnt (w_st w) + Z.of_nat (length l) <= 128 → Forall class_known l →
  Q () (World (w_mem w) (add_functions l (w_st w))) →
  wp (for_n n lo body) Q w.
Proof.
  revert lo w. induction n as [|n IH]; intros lo w Hc Hbody l Hlen Hk HQ; cbn [for_n].
  - wp_step. unfold l in HQ. simpl in HQ. rewrite add_functions_nil in HQ. by destruct w.
  - assert (l = scan lo ++ (seqZ (lo + 1) (Z.of_nat n) ≫= scan)) as El.
    { unfold l. rewrite seqZ_cons by lia. simpl. f_equal. f_equal. f_equal; lia. }
    rewrite El in *. clear l El. rewrite length_app in Hlen. apply Forall_app in Hk as [Hk1 Hk2].
    wp_step. destruct w as [m p]. simpl in *. apply Hbody; [lia|lia|lia|done|].
    apply IH; simpl; [lia| |lia|done|by rewrite add_functions_app].
    intros i p' R Hi. apply Hbody. lia.
Qed.

Lemma bit_7_all :
  forallb (λ b, Bool.eqb (negb (Z.land b (Z.shiftl 1 7) =? 0)) (Z.testbit b 7)) (seqZ 0 256) = true.
Proof. vm_compute. reflexivity. Qed.

Lemma wp_bit_7 b (Q : bool → world pcie → Prop) w :
  0 <= b < 256 → Q (Z.testbit b 7) w → wp (byte_bit_get b 7) Q w.
Proof.
  intros Hb HQ. unfold byte_bit_get. wp_step. wp_step; [done|]. wp_step.
  pose proof (forallb_seqZ _ _ _ bit_7_all Hb) as Hall. apply eqb_prop in Hall. by rewrite Hall.
Qed.

Lemma wp_bootstrap_dev g bus dev w (Q : unit → world pcie → Prop) :
  group_ok g → 0 <= bus < 256 → 0 <= dev < 32 → 0 <= _func_cnt (w_st w) →
  let l := scan_dev (w_mem w) g bus dev in
  _func_cnt (w_st w) + Z.of_nat (length l) <= 128 → Forall class_known l →
  Q () (World (w_mem w) (add_functions l (w_st w))) →
  wp (bootstrap_dev g bus dev) Q w.
Proof.
  intros Hg Hb Hd Hc l Hlen Hk HQ. unfold bootstrap_dev. subst l. unfold scan_dev, cfg_vendor in *.
  assert (∀ f, 0 <= f < 8 → bdf_ok bus dev f) as Hbdf by (unfold bdf_ok; lia).
  wp_step. apply wp_read_word; [done|by apply Hbdf|lia|done|].
  destruct (load 2 (w_mem w) (cfg_address g bus dev 0 0) =? 0xFFFF) eqn:Hp; simpl negb; cbv iota.
  { wp_step. simpl in HQ. rewrite add_functions_nil in HQ. by destruct w. }
  wp_step. apply wp_read_byte; [done|by apply Hbdf|lia|].
  wp_step. apply wp_bit_7; [apply (load_range 1)|].
  destruct (Z.testbit (load 1 (w_mem w) (cfg_address g bus dev 0 14)) 7).
  - apply (wp_scan_loop _ (scan_fun (w_mem w) g bus dev)); [done| |done..].
    intros i p R Hi Hcp Hl Hk' HR. apply wp_bootstrap_fun; [done| |done..].
    apply Hbdf. change (Z.of_nat (Z.to_nat 8)) with 8 in Hi. lia.
  - change (Z.to_nat 1) with 1%nat. cbn [for_n]. wp_step.
    apply wp_bootstrap_fun; [done|by apply Hbdf|done..|]. by wp_step.
Qed.

Lemma scan_single {A} (f : Z → list A) lo : seqZ lo 1 ≫= f = f lo.
Proof. rewrite seqZ_cons by lia. simpl. by rewrite app_nil_r. Qed.

Definition add_group (g : d_pcie_group) (p : pcie) : pcie :=
  Pcie (_groups p ++ [g]) (_gropp_cnt p) (_functions p) (_func_cnt p).

Lemma wp_bootstrap_group mcfg i w (Q : unit → world pcie → Prop) :
  let g := group_at (w_mem w) (mcfg + i * 16) in
  group_ok g → 0 <= i → 0 <= mcfg → mcfg + (i + 1) * 16 < 18446744073709551616 →
  0 <= _func_cnt (w_st w) →
  let l := scan_group (w_mem w) g in
  _func_cnt (w_st w) + Z.of_nat (length l) <= 128 → Forall class_known l →
  Q () (World (w_mem w) (add_functions l (add_group g (w_st w)))) →
  wp (bootstrap_group mcfg i) Q w.
Proof.
  intros g Hg Hi Hm0 Hm1 Hc l Hlen Hk HQ. unfold bootstrap_group, read_group, sizeof_group. u64_unfold.
  rewrite (u64_small (i * 16)), (u64_small (mcfg + i * 16)) by lia.
  rewrite !(u64_small (mcfg + i * 16 + _)) by lia.
  wp_step. do 5 (wp_step; apply wp_read). apply wp_ret. cbn [mem_of world_has_memory].
  fold (group_at (w_mem w) (mcfg + i * 16)). fold g.
  wp_step. apply wp_static_set. wp_step. wp_step.
  { apply align_check_true; [done|apply Hg]. }
  pose proof (load_range 1 (w_mem w) (mcfg + i * 16 + 10)) as Hs.
  pose proof (load_range 1 (w_mem w) (mcfg + i * 16 + 11)) as He.
  change (256 ^ Z.of_nat 1) with 256 in *.
  fold (add_group g (w_st w)).
  assert (0 <= bus_start g < 256 ∧ 0 <= bus_end g < 256) as [Hbs Hbe] by done.
  assert (seqZ (bus_start g) (Z.of_nat (Z.to_nat (bus_end g - bus_start g))) =
    seqZ (bus_start g) (bus_end g - bus_start g)) as Eseq.
  { destruct (decide (bus_start g <= bus_end g)); [by rewrite Z2Nat.id by lia|].
    by rewrite !seqZ_nil by lia. }
  apply (wp_scan_loop _ (scan_bus (w_mem w) g)); cbn [w_mem w_st].
  - done.
  - intros bus p R Hbus Hcp Hl Hk' HR.
    apply (wp_scan_loop _ (scan_dev (w_mem w) g bus)); [done| |done..].
    intros dev p' R' Hdev Hcp' Hl' Hk'' HR'. apply wp_bootstrap_dev; [done|lia|lia|done..].
  - by rewrite Eseq.
  - by rewrite Eseq.
  - rewrite Eseq. exact HQ.
Qed.

(** What a scan of an MCFG table with [n] elements leaves in the tables. *)
Definition scan_result (m : memory) (mcfg n : Z) : pcie :=
  let groups := groups_at m mcfg n in
  let funs := groups ≫= scan_group m in
  Pcie groups n funs (Z.of_nat (length funs)).

(** A well-formed MCFG table whose functions fit the function table. *)
Record mcfg_ok (m : memory) (mcfg n : Z) : Prop := {
  mo_count : 1 <= n <= 8;
  mo_placed : 0 < mcfg ∧ mcfg + n * 16 < 18446744073709551616;
  mo_groups : Forall group_ok (groups_at m mcfg n);
  mo_cap : (length (groups_at m mcfg n ≫= scan_group m) <= 128)%nat;
  mo_class : Forall class_known (groups_at m mcfg n ≫= scan_group m);
}.

Lemma pcie_bootstrap_run mcfg n w : mcfg_ok (w_mem w) mcfg n →
  d_pcie_bootstrap mcfg (n * sizeof_group) w = Done ((), World (w_mem w) (scan_result (w_mem w) mcfg n)).
Proof.
  intros [Hn Hm Hg Hcap Hcls]. unfold scan_result.
  set (groups := groups_at (w_mem w) mcfg n) in *. set (funs := groups ≫= scan_group (w_mem w)) in *.
  cut (wp (d_pcie_bootstrap mcfg (n * sizeof_group))
    (λ _ w', w' = World (w_mem w) (Pcie groups n funs (Z.of_nat (length funs)))) w).
  { intros ([] & w' & -> & ->)%wp_done. done. }
  unfold d_pcie_bootstrap, sizeof_group, _GROUP_CAP. u64_unfold.
  rewrite Z.mod_mul, Z.div_mul by lia.
  wp_step. wp_step; [bsimp; lia|]. wp_step. wp_step; [done|].
  wp_step. wp_step; [apply negb_true_iff; bsimp; unfold NULL; lia|].
  wp_step. apply wp_static_set. wp_step. wp_step; [bsimp; lia|].
  wp_step. apply wp_static_set. simpl.
  set (pre i := groups_at (w_mem w) mcfg i).
  assert (∀ i, 0 <= i → pre (i + 1) = pre i ++ [group_at (w_mem w) (mcfg + i * 16)]) as Hpre.
  { intros i Hi. unfold pre, groups_at. rewrite (seqZ_app 0 i 1) by lia.
    rewrite fmap_app, (seqZ_cons (0 + i)), (seqZ_nil (Z.succ (0 + i))) by lia. by rewrite Z.add_0_l. }
  assert (∀ i, 0 <= i < n → ∃ rest, groups = pre (i + 1) ++ rest) as Hrest.
  { intros i Hi. unfold groups, pre, groups_at. replace n with ((i + 1) + (n - (i + 1))) by lia.
    rewrite (seqZ_app 0) by lia. rewrite fmap_app. eauto. }
  apply (wp_for_n (λ i w', w' = World (w_mem w)
    (Pcie (pre i) n (pre i ≫= scan_group (w_mem w))
      (Z.of_nat (length (pre i ≫= scan_group (w_mem w))))))).
  - done.
  - rewrite Z.add_0_l, Z2Nat.id by lia. intros i w' Hi ->.
    destruct (Hrest i Hi) as [rest Er]. rewrite Hpre in Er by lia.
    rewrite Er in Hg. apply Forall_app in Hg as [[_ Hgi]%Forall_app _].
    apply list.Forall_cons in Hgi as [Hgi _].
    unfold funs in Hcap, Hcls. rewrite Er, !bind_app in Hcap, Hcls.
    apply Forall_app in Hcls as [[_ Hci]%Forall_app _]. rewrite !length_app in Hcap.
    simpl in Hci, Hcap. rewrite app_nil_r in Hci. rewrite app_nil_r in Hcap.
    apply wp_bootstrap_group; simpl; [done|lia|lia|lia|lia|lia|done|].
    rewrite Hpre by lia. rewrite bind_app. simpl. rewrite app_nil_r.
    unfold add_functions, add_group. simpl. rewrite length_app, Nat2Z.inj_add. done.
  - rewrite Z.add_0_l, Z2Nat.id by lia. by intros w' ->.
Qed.

(* --------------------------------------------------------------------- *)
(** ** Which functions the scan finds *)

(** A function answers: its vendor is not 0xFFFF, and neither is that of
    function 0 of its device, which has bit 7 of its header type set unless it
    is the function itself. *)
Definition answers (m : memory) (g : d_pcie_group) (bus dev fun_ : Z) : Prop :=
  cfg_vendor m g bus dev 0 ≠ 0xFFFF ∧ cfg_vendor m g bus dev fun_ ≠ 0xFFFF ∧
  (fun_ = 0 ∨ Z.testbit (load 1 m (cfg_address g bus dev 0 14)) 7 = true).

Lemma elem_of_scan_fun m g bus dev fun_ f :
  f ∈ scan_fun m g bus dev fun_ ↔ cfg_vendor m g bus dev fun_ ≠ 0xFFFF ∧ f = func_at m g bus dev fun_.
Proof.
  unfold scan_fun. destruct (Z.eqb_spec (cfg_vendor m g bus dev fun_) 0xFFFF) as [E|E].
  - rewrite elem_of_nil. tauto.
  - rewrite list_elem_of_singleton. tauto.
Qed.

Lemma elem_of_scan_dev m g bus dev f : f ∈ scan_dev m g bus dev ↔
  ∃ fun_, 0 <= fun_ < 8 ∧ answers m g bus dev fun_ ∧ f = func_at m g bus dev fun_.
Proof.
  unfold scan_dev, answers. destruct (Z.eqb_spec (cfg_vendor m g bus dev 0) 0xFFFF) as [E|E].
  { rewrite elem_of_nil. split; [done|]. by intros (?&_&[? _]&_). }
  destruct (Z.testbit _ 7).
  - rewrite list_elem_of_bind. setoid_rewrite elem_of_scan_fun. setoid_rewrite elem_of_seqZ. split.
    + intros (k&[Hv ->]&Hk). exists k. split; [lia|]. split; [|done]. split; [done|]. split; [done|by right].
    + intros (k&Hk&(_&Hv&_)&->). exists k. split; [done|lia].
  - rewrite elem_of_scan_fun. split.
    + intros [Hv ->]. exists 0. split; [lia|]. split; [|done]. split; [done|]. split; [done|by left].
    + intros (k&Hk&(_&Hv&[-> |?])&->); done.
Qed.

Lemma elem_of_scan_group m g f : f ∈ scan_group m g ↔
  ∃ bus dev fun_, bus_start g <= bus < bus_end g ∧ 0 <= dev < 32 ∧ 0 <= fun_ < 8 ∧
    answers m g bus dev fun_ ∧ f = func_at m g bus dev fun_.
Proof.
  unfold scan_group, scan_bus. rewrite list_elem_of_bind. setoid_rewrite list_elem_of_bind.
  setoid_rewrite elem_of_scan_dev. setoid_rewrite elem_of_seqZ. split.
  - intros (bus&(dev&(k&Hk&Ha&->)&Hdev)&Hbus). exists bus, dev, k. split_and!; done || lia.
  - intros (bus&dev&k&Hbus&Hdev&Hk&Ha&->). exists bus. split; [|lia]. exists dev. split; [|lia]. by exists k.
Qed.

Lemma NoDup_scan_group m g : NoDup (scan_group m g).
Proof.
  unfold scan_group, scan_bus. apply NoDup_bind; [| |apply NoDup_seqZ].
  - intros b1 b2 f _ _ (d1&H1&_)%list_elem_of_bind (d2&H2&_)%list_elem_of_bind.
    apply elem_of_scan_dev in H1 as (?&_&_&->), H2 as (?&_&_&H2). by injection H2.
  - intros bus _. apply NoDup_bind; [| |apply NoDup_seqZ].
    + intros d1 d2 f _ _ H1 H2. apply elem_of_scan_dev in H1 as (?&_&_&->), H2 as (?&_&_&H2). by injection H2.
    + intros dev _. unfold scan_dev. assert (∀ k, NoDup (scan_fun m g bus dev k)) as Hf.
      { intros k. unfold scan_fun. destruct (_ =? _); [constructor|apply NoDup_singleton]. }
      destruct (_ =? _); [constructor|]. destruct (Z.testbit _ 7); [|done].
      apply NoDup_bind; [|done|apply NoDup_seqZ]. intros k1 k2 f _ _ H1 H2.
      apply elem_of_scan_fun in H1 as [_ ->], H2 as [_ H2]. by injection H2.
Qed.

(** C17: the enumeration of the functions.  On a well-formed MCFG table of at
    most eight groups, when the 128 entries of the function table are enough
    and no function is an old device without a class, [d_pcie_bootstrap]
    records the functions of the reference scan in its order: exactly those
    that answer on the buses from [bus_start] up to, but not including,
    [bus_end] of their group, each once for each element of the table, with
    the registers that the configuration space holds.  In particular nothing
    on the bus [bus_end] is recorded, which an MCFG table means to include. *)
Theorem pcie_bootstrap_scan (mcfg n : Z) (w : world pcie)
    (Hn : 1 <= n <= 8) (Hm : 0 < mcfg ∧ mcfg + n * 16 < 18446744073709551616)
    (Hg : Forall group_ok (groups_at (w_mem w) mcfg n))
    (Hcap : (length (groups_at (w_mem w) mcfg n ≫= scan_group (w_mem w)) <= 128)%nat)
    (Hcls : Forall class_known (groups_at (w_mem w) mcfg n ≫= scan_group (w_mem w))) :
  let groups := groups_at (w_mem w) mcfg n in
  let funs := groups ≫= scan_group (w_mem w) in
  d_pcie_bootstrap mcfg (n * sizeof_group) w =
    Done ((), World (w_mem w) (Pcie groups n funs (Z.of_nat (length funs)))) ∧
  (∀ f, f ∈ funs ↔ ∃ g bus dev fun_, g ∈ groups ∧
    bus_start g <= bus < bus_end g ∧ 0 <= dev < 32 ∧ 0 <= fun_ < 8 ∧
    answers (w_mem w) g bus dev fun_ ∧ f = func_at (w_mem w) g bus dev fun_) ∧
  (NoDup groups → NoDup funs) ∧
  (∀ g dev fun_, g ∈ groups → func_at (w_mem w) g (bus_end g) dev fun_ ∉ funs).
Proof.
  intros groups funs. split; [by apply pcie_bootstrap_run|].
  assert (∀ f, f ∈ funs ↔ ∃ g bus dev fun_, g ∈ groups ∧
    bus_start g <= bus < bus_end g ∧ 0 <= dev < 32 ∧ 0 <= fun_ < 8 ∧
    answers (w_mem w) g bus dev fun_ ∧ f = func_at (w_mem w) g bus dev fun_) as Hin.
  { intros f. unfold funs. rewrite list_elem_of_bind. setoid_rewrite elem_of_scan_group. split.
    - intros (g&(bus&dev&k&?)&Hg'). exists g, bus, dev, k. by split.
    - intros (g&bus&dev&k&Hg'&?). exists g. split; [|done]. by exists bus, dev, k. }
  split; [exact Hin|]. split.
  - intros Hnd. apply NoDup_bind; [|intros; apply NoDup_scan_group|done].
    intros g1 g2 f _ _ H1 H2. apply elem_of_scan_group in H1 as (?&?&?&_&_&_&_&->), H2 as (?&?&?&_&_&_&_&H2).
    by injection H2.
  - intros g dev fun_ _ (g'&bus&dev'&fun'&_&Hbus&_&_&_&E)%Hin.
    pose proof (f_equal f_group E) as Eg. pose proof (f_equal f_bus E) as Eb. cbn [func_at f_group f_bus] in Eg, Eb.
    subst g'. lia.
Qed.

(* --------------------------------------------------------------------- *)
(** ** Concrete instances *)

(** An MCFG table at 0x1000 with one group for bus 0. *)
Definition sample_mcfg : memory :=
  store 8 0x1000 0xE0000000 (store 1 0x100B 1 (store 2 0xE0000000 0x8086 (store 2 0xE0008000 0xFFFF ∅))).
Definition sample_group : d_pcie_group := PcieGroup 0xE0000000 0 0 1 0.

Lemma sample_group_ok : group_ok sample_group.
Proof. split; [exists 14; reflexivity|]. simpl. unfold _CONFIG_SPACE_ALIGN. lia. Qed.

Lemma cfg_space_pa_injective_witness :
  group_ok sample_group ∧ bdf_ok 0 31 7 ∧
  ∃ pa pa', _cfg_space_pa sample_group 0 31 7 4 (World ∅ pcie_initial) = Done (pa, World ∅ pcie_initial) ∧
    _cfg_space_pa sample_group 1 0 0 4 (World ∅ pcie_initial) = Done (pa', World ∅ pcie_initial) ∧
    pa ≠ pa'.
Proof.
  assert (bdf_ok 0 31 7) as H1 by (unfold bdf_ok; lia).
  assert (bdf_ok 1 0 0) as H2 by (unfold bdf_ok; lia).
  split; [exact sample_group_ok|]. split; [exact H1|].
  destruct (cfg_space_pa_injective sample_group 0 31 7 4 1 0 0 4 (World ∅ pcie_initial)
    sample_group_ok H1 ltac:(lia) H2 ltac:(lia)) as (pa & pa' & E1 & E2 & _ & Hinj).
  exists pa, pa'. split; [exact E1|]. split; [exact E2|].
  intros E. destruct (Hinj E) as [? _]. lia.
Defined.

Lemma cfg_dword_roundtrip_witness :
  group_ok sample_group ∧
  ∃ w', _cfg_space_write_dword sample_group 0 3 0 16 0xFEBF0000 (World ∅ pcie_initial) = Done ((), w') ∧
    _cfg_space_read_dword sample_group 0 3 0 16 w' = Done (0xFEBF0000, w').
Proof.
  assert (bdf_ok 0 3 0) as H1 by (unfold bdf_ok; lia).
  split; [exact sample_group_ok|].
  destruct (cfg_dword_roundtrip sample_group 0 3 0 16 0xFEBF0000 0 3 0 16 (World ∅ pcie_initial)
    sample_group_ok H1 ltac:(split; [lia|reflexivity]) H1 ltac:(split; [lia|reflexivity]) ltac:(lia))
    as (w' & E1 & E2 & _).
  exists w'. split; [exact E1|exact E2].
Defined.

Lemma pcie_bootstrap_scan_witness :
  groups_at sample_mcfg 0x1000 1 = [sample_group] ∧
  length ([sample_group] ≫= scan_group sample_mcfg) = 31%nat ∧
  d_pcie_bootstrap 0x1000 16 (World sample_mcfg pcie_initial) =
    Done ((), World sample_mcfg (Pcie [sample_group] 1 ([sample_group] ≫= scan_group sample_mcfg) 31)) ∧
  func_at sample_mcfg sample_group 0 0 0 ∈ [sample_group] ≫= scan_group sample_mcfg ∧
  func_at sample_mcfg sample_group 1 0 0 ∉ [sample_group] ≫= scan_group sample_mcfg.
Proof.
  assert (groups_at sample_mcfg 0x1000 1 = [sample_group]) as Eg by (vm_compute; reflexivity).
  assert (length ([sample_group] ≫= scan_group sample_mcfg) = 31%nat) as El by (vm_compute; reflexivity).
  split; [exact Eg|]. split; [exact El|].
  pose proof (pcie_bootstrap_scan 0x1000 1 (World sample_mcfg pcie_initial) ltac:(lia) ltac:(lia)) as Hscan.
  cbn [w_mem] in Hscan. rewrite Eg, El in Hscan. destruct Hscan as (Hrun&Hin&_&Hlast).
  - apply Forall_singleton, sample_group_ok.
  - lia.
  - apply Forall_forall. intros f Hf Hb.
    assert (Forall (λ f, f_sub_class f = 0) ([sample_group] ≫= scan_group sample_mcfg)) as Hall
      by (vm_compute; repeat constructor).
    rewrite Forall_forall in Hall. by apply Hall.
  - split; [exact Hrun|]. split.
    + apply Hin. exists sample_group, 0, 0, 0. split; [by left|]. split; [cbn; lia|]. split; [lia|]. split; [lia|].
      split; [|reflexivity]. split; [by vm_compute|]. split; [by vm_compute|]. by left.
    + apply (Hlast sample_group 0 0). by left.
Defined.
