(* ===== verification/Acpi.v ===== *)
(** The system description tables, src/drivers/drivers_acpi.c: finding the
    MCFG table, through the XSDT of ACPI 2 or the RSDT of ACPI 1, and handing
    it to the PCI express scan of Pcie.v.

    Theorems: the bootstrap leaves the scan of the last MCFG table listed,
    and the ACPI 1 entry rejects another revision, length or checksum. *)
From S2P Require Import Prelude Memory Strings Util MmCore Pcie.

(** [sizeof(sdt_header_t)] and of [xsdt_t], which is packed and only the header. *)
Definition sizeof_sdt_header : Z := 36.
Definition sizeof_xsdt : Z := 36.

(** Where the string literal [MCFG] is. *)
Class AcpiLink := text_mcfg : Z.

Section acpi.
Context `{AcpiLink}.

(** [h->len] *)
Definition sdt_len (h : Z) : PM Z := read 4 (h + 4)%u64.

(** The body of both loops: [len - 44] is 32-bit arithmetic. *)
Definition probe_table (h : Z) : PM unit :=
  cmp ← mm_compare h text_mcfg 4;
  if cmp =? 0 then
    len ← sdt_len h;
    d_pcie_bootstrap (h + 44)%u64 (u32 (len - 44))
  else mret ().

Definition _init_xsdt (xsdt : Z) : PM unit :=
  len ← sdt_len xsdt;
  let entry_cnt := (len - sizeof_xsdt)%u64 in
  kernel_assert (entry_cnt mod 8 =? 0)%u64 ;;
  let entry_cnt := (entry_cnt / 8)%u64 in
  for_n (Z.to_nat entry_cnt) 0 (λ i,
    h ← read 8 (xsdt + sizeof_xsdt + i * 8)%u64;
    probe_table h).

Definition acpi_bootstrap_64 (multi_boot_info len : Z) : PM unit :=
  xsdt_padd ← read 8 (multi_boot_info + 24)%u64;
  _init_xsdt xsdt_padd.

Definition _init_rsdt (rsdt : Z) : PM unit :=
  len ← sdt_len rsdt;
  let entry_cnt := ((len - sizeof_sdt_header) / 4)%u64 in
  for_n (Z.to_nat entry_cnt) 0 (λ i,
    ptr32 ← read 4 (rsdt + sizeof_sdt_header + i * 4)%u64;
    probe_table ptr32).

(** [for (byte = p; byte < p + n; byte++) byte_sum += *byte;] *)
Fixpoint byte_sum (n : nat) (p sum : Z) : PM Z :=
  match n with
  | O => mret sum
  | Datatypes.S n => b ← read 1 p; byte_sum n (p + 1)%u64 (sum + b)%u64
  end.

Definition acpi_bootstrap_32 (multi_boot_info len : Z) : PM unit :=
  let ptr := (multi_boot_info + 8 + 1 + 6)%u64 in
  revision ← read 1 ptr;
  let ptr := (ptr + 1)%u64 in
  kernel_assert (revision =? 0) ;;
  rsdt_addr ← read 4 ptr;
  let ptr := (ptr + 4)%u64 in
  kernel_assert ((ptr - multi_boot_info)%u64 =? len) ;;
  sum ← (if multi_boot_info <? ptr then byte_sum (Z.to_nat (ptr - multi_boot_info)) multi_boot_info 0 else mret 0);
  kernel_assert (Z.land sum 0xff =? 0) ;;
  _init_rsdt rsdt_addr.

End acpi.

(* ===================================================================== *)
(** ** Reference definitions *)

Definition is_mcfg (m : memory) (h : Z) : Prop := bytes_at m h (bytes_of "MCFG").

#[export] Instance is_mcfg_dec m h : Decision (is_mcfg m h).
Proof. unfold is_mcfg. apply _. Defined.

(** The addresses in a table with [n] entries of [w] bytes. *)
Definition sdt_entries (w : nat) (m : memory) (sdt n : Z) : list Z :=
  (λ i, load w m (sdt + 36 + i * Z.of_nat w)) <$> seqZ 0 n.

(** The MCFG tables among [hs], in order. *)
Definition mcfg_tables (m : memory) (hs : list Z) : list Z := filter (is_mcfg m) hs.

(** An MCFG table at [h] that the scan accepts: header and 8 reserved bytes,
    then the elements. *)
Definition mcfg_elements (m : memory) (h : Z) : Z := (load 4 m (h + 4) - 44) `div` 16.
Record mcfg_table_ok (m : memory) (h : Z) : Prop := {
  mt_placed : 0 <= h ∧ h + 44 < 18446744073709551616;
  mt_len : load 4 m (h + 4) = 44 + mcfg_elements m h * 16;
  mt_ok : mcfg_ok m (h + 44) (mcfg_elements m h);
}.

(** The tables that are left in the driver: those of the last MCFG table. *)
Definition pcie_after (m : memory) (hs : list Z) (p : pcie) : pcie :=
  match list.last (mcfg_tables m hs) with
  | None => p
  | Some h => scan_result m (h + 44) (mcfg_elements m h)
  end.

Section proofs.
Context `{AcpiLink}.

Definition text_mcfg_ok (m : memory) : Prop :=
  0 <= text_mcfg ∧ text_mcfg + 4 <= 18446744073709551616 ∧ is_mcfg m text_mcfg.

(** Tables at [hs] can be compared and, when they are MCFG tables, scanned. *)
Definition tables_ok (m : memory) (hs : list Z) : Prop :=
  Forall (λ h, 0 <= h ∧ h + 4 <= 18446744073709551616 ∧ (is_mcfg m h → mcfg_table_ok m h)) hs.

Lemma same_is_mcfg m h : is_mcfg m text_mcfg → same_bytes m h text_mcfg 4 ↔ is_mcfg m h.
Proof.
  intros Ht. split.
  - intros Hs i c Hi. rewrite Hs; [by apply Ht|].
    apply lookup_lt_Some in Hi. change (length (bytes_of "MCFG")) with 4%nat in Hi. lia.
  - intros Hh i Hi.
    assert (Z.to_nat i < length (bytes_of "MCFG"))%nat as Hlt by (change (length (bytes_of "MCFG")) with 4%nat; lia).
    apply lookup_lt_is_Some in Hlt as [c Hc]. pose proof (Hh _ _ Hc) as E1. pose proof (Ht _ _ Hc) as E2.
    rewrite Z2Nat.id in E1, E2 by lia. congruence.
Qed.

Lemma wp_probe_table h w (Q : unit → world pcie → Prop) : text_mcfg_ok (w_mem w) →
  0 <= h → h + 4 <= 18446744073709551616 → (is_mcfg (w_mem w) h → mcfg_table_ok (w_mem w) h) →
  Q () (World (w_mem w) (if decide (is_mcfg (w_mem w) h) then
    scan_result (w_mem w) (h + 44) (mcfg_elements (w_mem w) h) else w_st w)) →
  wp (probe_table h) Q w.
Proof.
  intros (Ht0&Ht1&Ht) Hh0 Hh1 Hok HQ. unfold probe_table. wp_step.
  apply wp_mm_compare; [lia|lia|lia| |]; cbn [mem_of world_has_memory].
  - intros Hs%same_is_mcfg; [|done]. rewrite decide_True in HQ by done. cbn [Z.eqb].
    destruct (Hok Hs) as [[Hp0 Hp1] Hlen Hmo]. wp_step. unfold sdt_len. apply wp_read. cbn [mem_of world_has_memory].
    u64_unfold. rewrite (u64_small (h + 4)), (u64_small (h + 44)), Hlen by lia.
    destruct (Hmo) as [Hn _ _ _ _].
    replace (44 + mcfg_elements (w_mem w) h * 16 - 44) with (mcfg_elements (w_mem w) h * sizeof_group)
      by (unfold sizeof_group; lia).
    rewrite u32_small by (unfold sizeof_group; lia).
    apply wp_done. do 2 eexists. split; [by apply pcie_bootstrap_run|done].
  - intros i Hi Hs Hne. rewrite (proj2 (Z.eqb_neq _ _)) by lia. apply wp_ret.
    rewrite decide_False in HQ; [by destruct w|]. intros Hm%same_is_mcfg; [|done]. by apply Hne, Hm.
Qed.

Lemma pcie_after_app m hs h p :
  pcie_after m (hs ++ [h]) p =
    if decide (is_mcfg m h) then scan_result m (h + 44) (mcfg_elements m h) else pcie_after m hs p.
Proof.
  unfold pcie_after, mcfg_tables. rewrite list.filter_app, list.filter_cons, list.filter_nil.
  destruct (decide (is_mcfg m h)); [by rewrite list.last_snoc|by rewrite app_nil_r].
Qed.

Lemma sdt_entries_succ wd m sdt i : 0 <= i →
  sdt_entries wd m sdt (i + 1) = sdt_entries wd m sdt i ++ [load wd m (sdt + 36 + i * Z.of_nat wd)].
Proof.
  intros Hi. unfold sdt_entries. rewrite seqZ_app by lia. rewrite fmap_app. f_equal.
Qed.

(** Both loops over the entries of a root table. *)
Lemma wp_probe_entries wd m p sdt n (Q : unit → world pcie → Prop) : (wd = 4 ∨ wd = 8)%nat →
  text_mcfg_ok m → 0 <= n → 0 <= sdt → sdt + 36 + n * Z.of_nat wd <= 18446744073709551616 →
  tables_ok m (sdt_entries wd m sdt n) →
  Q () (World m (pcie_after m (sdt_entries wd m sdt n) p)) →
  wp (for_n (Z.to_nat n) 0 (λ i, h ← read wd (sdt + 36 + i * Z.of_nat wd)%u64; probe_table h)) Q (World m p).
Proof.
  intros Hwd Ht Hn Hs0 Hs1 Hok HQ.
  apply (wp_for_n (λ i w, w = World m (pcie_after m (sdt_entries wd m sdt i) p))).
  - done.
  - intros i w Hi ->. rewrite Z.add_0_l, Z2Nat.id in Hi by lia.
    wp_step. apply wp_read. cbn [mem_of world_has_memory w_mem].
    assert ((sdt + 36 + i * Z.of_nat wd)%u64 = sdt + 36 + i * Z.of_nat wd) as ->
      by (u64_unfold; destruct Hwd; subst wd;
        rewrite (u64_small (sdt + 36)), (u64_small (i * _)) by lia; apply u64_small; lia).
    assert (load wd m (sdt + 36 + i * Z.of_nat wd) ∈ sdt_entries wd m sdt n) as Hin.
    { apply list_elem_of_fmap. exists i. split; [done|]. apply elem_of_seqZ. lia. }
    unfold tables_ok in Hok. rewrite list.Forall_forall in Hok. destruct (Hok _ Hin) as (H0'&H1'&H2').
    apply wp_probe_table; cbn [w_mem w_st]; [done|done|done|done|].
    f_equal. by rewrite sdt_entries_succ, pcie_after_app by lia.
  - intros w ->. by rewrite Z.add_0_l, Z2Nat.id by lia.
Qed.

(** A root table with [n] entries of [wd] bytes at [sdt]. *)
Record root_table_ok (wd : nat) (m : memory) (sdt n : Z) : Prop := {
  rt_placed : 0 <= sdt ∧ sdt + 36 + n * Z.of_nat wd <= 18446744073709551616;
  rt_count : 0 <= n;
  rt_len : load 4 m (sdt + 4) = 36 + n * Z.of_nat wd;
  rt_tables : tables_ok m (sdt_entries wd m sdt n);
}.

Lemma acpi_64_run (info len n : Z) (w : world pcie) : 0 <= info → info + 32 <= 18446744073709551616 →
  text_mcfg_ok (w_mem w) → let xsdt := load 8 (w_mem w) (info + 24) in root_table_ok 8 (w_mem w) xsdt n →
  acpi_bootstrap_64 info len w =
    Done ((), World (w_mem w) (pcie_after (w_mem w) (sdt_entries 8 (w_mem w) xsdt n) (w_st w))).
Proof.
  intros Hi0 Hi1 Ht xsdt [[Hp0 Hp1] Hn Hl Htab]. unfold acpi_bootstrap_64, _init_xsdt, sdt_len.
  assert ((info + 24)%u64 = info + 24) as -> by (unfold uadd; rewrite u64_small; lia).
  rewrite read_then. cbn [mem_of world_has_memory]. fold xsdt.
  assert ((xsdt + 4)%u64 = xsdt + 4) as -> by (unfold uadd; rewrite u64_small; lia).
  rewrite read_then. cbn [mem_of world_has_memory].
  cut (wp (for_n (Z.to_nat n) 0 (λ i, h ← read 8 (xsdt + 36 + i * Z.of_nat 8)%u64; probe_table h)) (λ _ w',
    w' = World (w_mem w) (pcie_after (w_mem w) (sdt_entries 8 (w_mem w) xsdt n) (w_st w))) w).
  { intros ([] & w' & Hrun & ->)%wp_done. rewrite Hl. unfold sizeof_xsdt. u64_unfold.
    replace (36 + n * Z.of_nat 8 - 36) with (n * 8) by lia.
    rewrite (u64_small (n * 8)) by lia. rewrite Z.mod_mul, Z.div_mul by lia. exact Hrun. }
  destruct w as [m p]. apply wp_probe_entries; [by right|done..].
Qed.

(** C36: the ACPI 2 bootstrap and the PCI express scan composed.  Through the
    XSDT that the root pointer names, every table with the signature MCFG is
    handed to the scan, in order; what remains in the driver is the scan of
    the last one, and nothing changes when there is none.  An XSDT whose
    length is not a header and whole entries fails an assertion. *)
Theorem acpi_64_ok (info len : Z) (w : world pcie)
    (Hinfo : 0 <= info ∧ info + 32 <= 18446744073709551616) (Ht : text_mcfg_ok (w_mem w))
    (Hx : 0 <= load 8 (w_mem w) (info + 24) < 18446744073709551600) :
  let xsdt := load 8 (w_mem w) (info + 24) in
  (∀ n, root_table_ok 8 (w_mem w) xsdt n →
    acpi_bootstrap_64 info len w =
      Done ((), World (w_mem w) (pcie_after (w_mem w) (sdt_entries 8 (w_mem w) xsdt n) (w_st w)))) ∧
  ((load 4 (w_mem w) (xsdt + 4) - 36) `mod` 8 ≠ 0 → acpi_bootstrap_64 info len w = Assert).
Proof.
  intros xsdt. split; [intros n Hn; by apply acpi_64_run; [apply Hinfo|apply Hinfo|..]|]. unfold acpi_bootstrap_64, _init_xsdt, sdt_len.
  assert ((info + 24)%u64 = info + 24) as -> by (unfold uadd; rewrite u64_small; lia).
  rewrite read_then. cbn [mem_of world_has_memory]. fold xsdt.
  assert ((xsdt + 4)%u64 = xsdt + 4) as -> by (unfold uadd; rewrite u64_small; lia).
  rewrite read_then. cbn [mem_of world_has_memory].
  intros Hmod. unfold sizeof_xsdt, usub, umod, ueqb. unfold u64. rewrite Z.mod_mod_divide.
  - by rewrite (proj2 (Z.eqb_neq _ _) Hmod).
  - exists (18446744073709551616 / 8). done.
Qed.

(** The bytes of the ACPI 1 root pointer add up to 0 modulo 256. *)
Definition sum_of (l : list Z) : Z := foldr Z.add 0 l.

Lemma byte_sum_run n p sum w : 0 <= p → p + Z.of_nat n <= 18446744073709551616 →
  0 <= sum → sum + 255 * Z.of_nat n < 18446744073709551616 →
  byte_sum n p sum w = Done (sum + sum_of (peek (w_mem w) p n), w).
Proof.
  revert p sum. induction n as [|n IH]; intros p sum Hp Hend Hs Hsum; [by rewrite Z.add_0_r|].
  cbn [byte_sum peek]. unfold read, gets, mbind, M_bind. cbn [mem_of world_has_memory]. rewrite load_1.
  pose proof (load8_range (w_mem w) p) as Hb. unfold uadd at 2. rewrite (u64_small (sum + _)) by lia.
  unfold uadd. destruct (decide (n = 0%nat)) as [->|Hn].
  - cbn. by rewrite Z.add_0_r.
  - rewrite u64_small by lia. rewrite IH by lia. f_equal. f_equal. cbn [sum_of foldr]. unfold sum_of. lia.
Qed.

(** A root pointer of ACPI 1 that the code accepts. *)
Definition rsdp_ok (m : memory) (info len : Z) : Prop :=
  load 1 m (info + 15) = 0 ∧ len = 20 ∧ sum_of (peek m info 20) `mod` 256 = 0.

(** The ACPI 1 bootstrap.  A root pointer with another revision, another
    length or a wrong checksum fails an assertion; through a good one the
    RSDT's tables are handed to the scan as with ACPI 2. *)
Theorem acpi_32_ok (info len : Z) (w : world pcie)
    (Hinfo : 0 <= info ∧ info + 20 < 18446744073709551616) (Ht : text_mcfg_ok (w_mem w)) :
  let rsdt := load 4 (w_mem w) (info + 16) in
  (¬ rsdp_ok (w_mem w) info len → acpi_bootstrap_32 info len w = Assert) ∧
  (∀ n, rsdp_ok (w_mem w) info len → root_table_ok 4 (w_mem w) rsdt n →
    acpi_bootstrap_32 info len w =
      Done ((), World (w_mem w) (pcie_after (w_mem w) (sdt_entries 4 (w_mem w) rsdt n) (w_st w)))).
Proof.
  intros rsdt. unfold rsdp_ok.
  assert (acpi_bootstrap_32 info len w =
    (kernel_assert (load 1 (w_mem w) (info + 15) =? 0) ;;
     kernel_assert (20 =? len) ;;
     kernel_assert (sum_of (peek (w_mem w) info 20) `mod` 256 =? 0) ;;
     _init_rsdt rsdt) w) as ->.
  { unfold acpi_bootstrap_32. u64_unfold. rewrite (u64_small (info + 8)) by lia.
    replace (info + 8 + 1) with (info + 9) by lia. rewrite (u64_small (info + 9)) by lia.
    replace (info + 9 + 6) with (info + 15) by lia. rewrite (u64_small (info + 15)) by lia.
    replace (info + 15 + 1) with (info + 16) by lia. rewrite (u64_small (info + 16)) by lia.
    replace (info + 16 + 4) with (info + 20) by lia. rewrite (u64_small (info + 20)) by lia.
    replace (info + 20 - info) with 20 by lia. rewrite (proj2 (Z.ltb_lt info (info + 20))) by lia.
    rewrite read_then, !assert_then. cbn [mem_of world_has_memory]. destruct (load 1 (w_mem w) (info + 15) =? 0); [|done].
    rewrite read_then, !assert_then. cbn [mem_of world_has_memory]. fold rsdt.
    change (u64 20) with 20. destruct (20 =? len); [|done].
    rewrite (bind_done _ _ _ _ _ (byte_sum_run (Z.to_nat 20) info 0 w ltac:(lia) ltac:(lia) ltac:(lia) ltac:(lia))).
    rewrite Z.add_0_l. change 255 with (Z.ones 8). rewrite Z.land_ones by lia. by rewrite assert_then. }
  split.
  - intros Hno. unfold mbind, M_bind, kernel_assert.
    destruct (Z.eqb_spec (load 1 (w_mem w) (info + 15)) 0); [|done].
    destruct (Z.eqb_spec 20 len); [|done].
    destruct (Z.eqb_spec (sum_of (peek (w_mem w) info 20) `mod` 256) 0); [|done]. by destruct Hno.
  - intros n (-> & -> & ->) [[Hp0 Hp1] Hn Hl Htab].
    change (_init_rsdt rsdt w = Done ((), World (w_mem w)
      (pcie_after (w_mem w) (sdt_entries 4 (w_mem w) rsdt n) (w_st w)))).
    cut (wp (for_n (Z.to_nat n) 0 (λ i, h ← read 4 (rsdt + 36 + i * Z.of_nat 4)%u64; probe_table h)) (λ _ w',
      w' = World (w_mem w) (pcie_after (w_mem w) (sdt_entries 4 (w_mem w) rsdt n) (w_st w))) w).
    { intros ([] & w' & Hrun & ->)%wp_done. unfold _init_rsdt, sdt_len.
      assert ((rsdt + 4)%u64 = rsdt + 4) as -> by (unfold uadd; rewrite u64_small; lia).
      rewrite read_then. cbn [mem_of world_has_memory]. rewrite Hl. unfold sizeof_sdt_header. u64_unfold.
      replace (36 + n * Z.of_nat 4 - 36) with (n * 4) by lia.
      rewrite (u64_small (n * 4)) by lia. rewrite Z.div_mul by lia. exact Hrun. }
    destruct w as [m p]. apply wp_probe_entries; [by left|done..].
Qed.

End proofs.

(* ===================================================================== *)
(** ** A sample machine: two tables, the second one MCFG *)

Definition sample_acpi_link : AcpiLink := 0x7000.

Definition sample_rsdp : list Z := bytes_of "RSD PTR " ++ [210] ++ bytes_of "BOCHS " ++ [0; 0; 0x80; 0; 0].

Definition sample_acpi_memory : memory :=
  poke 4052 (bytes_of "MCFG") (store 4 4056 60 (poke 0x7000 (bytes_of "MCFG") (poke 0x5000 (bytes_of "APIC")
    (store 4 0x4004 52 (store 8 0x4024 0x5000 (store 8 0x402c 4052 (store 8 0x6018 0x4000
    (store 4 0x8004 44 (store 4 0x8024 0x5000 (store 4 0x8028 4052 (poke 0x9000 sample_rsdp sample_mcfg))))))))))).

Lemma sample_mcfg_ok : mcfg_ok sample_acpi_memory 4096 1.
Proof.
  split; [lia|lia| | |].
  - assert (groups_at sample_acpi_memory 4096 1 = [sample_group]) as -> by (vm_compute; reflexivity).
    apply Forall_singleton, sample_group_ok.
  - vm_compute. lia.
  - assert (forallb (λ f, f_sub_class f =? 0) (groups_at sample_acpi_memory 4096 1 ≫= scan_group sample_acpi_memory) = true)
      as Hall by (vm_compute; reflexivity).
    apply list.Forall_forall. intros f Hf _. rewrite forallb_forall in Hall.
    apply Z.eqb_eq, Hall. exact (proj1 (list_elem_of_In _ _) Hf).
Qed.

Lemma sample_tables_ok : @tables_ok sample_acpi_memory [0x5000; 4052].
Proof.
  apply Forall_cons_2; [|apply Forall_singleton].
  - split; [done|]. split; [done|]. intros Hm. exfalso. pose proof (bytes_at_peek _ _ _ Hm) as Hp. by vm_compute in Hp.
  - split; [done|]. split; [done|]. intros _. split; [done|done|exact sample_mcfg_ok].
Qed.

Lemma sample_text_mcfg : @text_mcfg_ok sample_acpi_link sample_acpi_memory.
Proof. split; [done|]. split; [done|]. apply peek_bytes_at. by vm_compute. Qed.

Lemma acpi_64_ok_witness :
  @acpi_bootstrap_64 sample_acpi_link 0x6000 36 (World sample_acpi_memory pcie_initial) =
    Done ((), World sample_acpi_memory (pcie_after sample_acpi_memory (sdt_entries 8 sample_acpi_memory 0x4000 2) pcie_initial)) ∧
  _func_cnt (pcie_after sample_acpi_memory (sdt_entries 8 sample_acpi_memory 0x4000 2) pcie_initial) = 31.
Proof.
  split; [|vm_compute; reflexivity].
  refine (proj1 (@acpi_64_ok sample_acpi_link 0x6000 36 (World sample_acpi_memory pcie_initial) _ sample_text_mcfg _) 2 _).
  - done.
  - vm_compute. done.
  - split; [by vm_compute|done|by vm_compute|refine sample_tables_ok].
Defined.

Lemma acpi_32_ok_witness :
  @acpi_bootstrap_32 sample_acpi_link 0x9000 20 (World sample_acpi_memory pcie_initial) =
    Done ((), World sample_acpi_memory (pcie_after sample_acpi_memory (sdt_entries 4 sample_acpi_memory 0x8000 2) pcie_initial)) ∧
  @acpi_bootstrap_32 sample_acpi_link 0x9000 36 (World sample_acpi_memory pcie_initial) = Assert.
Proof.
  pose proof (@acpi_32_ok sample_acpi_link 0x9000) as Hok. split.
  - refine (proj2 (Hok 20 (World sample_acpi_memory pcie_initial) _ sample_text_mcfg) 2 _ _).
    + done.
    + split; [done|]. split; [done|]. by vm_compute.
    + split; [by vm_compute|done|by vm_compute|]. refine sample_tables_ok.
  - refine (proj1 (Hok 36 (World sample_acpi_memory pcie_initial) _ sample_text_mcfg) _); [done|].
    intros (_&Hl&_). lia.
Defined.
