(* ===== verification/AcpiAgree.v ===== *)
(** The memory that the ACPI tables and the PCI express scan look at: two
    memories that agree there give the same tables and the same functions.

    With it a client that writes elsewhere keeps what it knows of the firmware. *)
From S2P Require Import Prelude Memory Strings Util MmCore Pcie.
From S2P Require Import Acpi.

(** Agreement outside a set of addresses that were written. *)
Section written.
Variable written : Z → Prop.

Definition keeps (m m' : memory) : Prop := ∀ a, ¬ written a → load8 m' a = load8 m a.
Definition untouched (lo hi : Z) : Prop := ∀ a, lo <= a < hi → ¬ written a.

Lemma keeps_agree lo hi m m' : keeps m m' → untouched lo hi → agree lo hi m m'.
Proof. intros Hk Hu a Ha. symmetry. by apply Hk, Hu. Qed.

Lemma keeps_load n a m m' : keeps m m' → untouched a (a + Z.of_nat n) → load n m' a = load n m a.
Proof. intros Hk Hu. symmetry. by apply load_agree, keeps_agree. Qed.

Lemma untouched_weaken lo hi lo' hi' : untouched lo hi → lo <= lo' → hi' <= hi → untouched lo' hi'.
Proof. intros Hu ?? a Ha. apply Hu. lia. Qed.
End written.

Lemma bind_ext_in {A B} (f g : A → list B) l : (∀ x, x ∈ l → f x = g x) → l ≫= f = l ≫= g.
Proof.
  induction l as [|x l IH]; intros Hfg; [done|]. rewrite !bind_cons. rewrite (Hfg x) by apply list_elem_of_here.
  f_equal. apply IH. intros y Hy. apply Hfg. by apply list_elem_of_further.
Qed.

Section tables.
Context `{AcpiLink} (written : Z → Prop) (m m' : memory) (Hkeep : keeps written m m').

(** The configuration space of a group. *)
Definition space_untouched (g : d_pcie_group) : Prop :=
  untouched written (cfg_space_base_pa g) (cfg_space_base_pa g + d_pcie_group_get_cfg_len).

Lemma cfg_load_keeps g n bus dev fun_ off : space_untouched g → bdf_ok bus dev fun_ → 0 <= off → off + Z.of_nat n <= 4096 →
  load n m' (cfg_address g bus dev fun_ off) = load n m (cfg_address g bus dev fun_ off).
Proof.
  intros Hu (Hb&Hd&Hf) Ho Hn. apply (keeps_load written); [done|]. eapply untouched_weaken; [exact Hu|..];
    unfold cfg_address, d_pcie_group_get_cfg_len, _CONFIG_SPACE_ALIGN, _BUS_MAX, _DEVICE_MAX, _FUNCTION_MAX in *; lia.
Qed.

Lemma scan_fun_keeps g bus dev fun_ : space_untouched g → bdf_ok bus dev fun_ →
  scan_fun m' g bus dev fun_ = scan_fun m g bus dev fun_.
Proof.
  intros Hu Hb. unfold scan_fun, cfg_vendor, func_at.
  rewrite !(cfg_load_keeps g) by (try done; cbn; lia). done.
Qed.

Lemma scan_dev_keeps g bus dev : space_untouched g → bdf_ok bus dev 0 → scan_dev m' g bus dev = scan_dev m g bus dev.
Proof.
  intros Hu Hb. unfold scan_dev, cfg_vendor. rewrite !(cfg_load_keeps g) by (try done; cbn; lia).
  rewrite (scan_fun_keeps g bus dev 0) by done.
  rewrite (bind_ext_in _ (scan_fun m g bus dev) (seqZ 0 8)); [done|]. intros f Hf%elem_of_seqZ.
  apply scan_fun_keeps; [done|]. destruct Hb as (?&?&?). unfold bdf_ok, _FUNCTION_MAX in *. lia.
Qed.

Lemma scan_group_keeps g : space_untouched g → 0 <= bus_start g → bus_end g < 256 → scan_group m' g = scan_group m g.
Proof.
  intros Hu Hs He. apply bind_ext_in. intros bus Hbus%elem_of_seqZ. apply bind_ext_in. intros dev Hdev%elem_of_seqZ.
  apply scan_dev_keeps; [done|]. unfold bdf_ok, _BUS_MAX, _DEVICE_MAX, _FUNCTION_MAX. lia.
Qed.

Lemma groups_keep mcfg n : untouched written mcfg (mcfg + n * 16) → groups_at m' mcfg n = groups_at m mcfg n.
Proof.
  intros Hu. unfold groups_at. apply list_fmap_ext. intros i x Hi. apply lookup_seqZ in Hi as [-> Hi].
  assert (∀ k j, 0 <= j → j + Z.of_nat k <= 16 → load k m' (mcfg + (0 + Z.of_nat i) * 16 + j) = load k m (mcfg + (0 + Z.of_nat i) * 16 + j)) as Hl.
  { intros k j Hj Hk. apply (keeps_load written); [done|]. eapply untouched_weaken; [exact Hu|lia..]. }
  unfold group_at. pose proof (Hl 8%nat 0 ltac:(lia) ltac:(lia)) as E0. rewrite Z.add_0_r in E0.
  by rewrite E0, !Hl by (cbn; lia).
Qed.

Lemma group_buses mcfg n g : g ∈ groups_at m mcfg n → 0 <= bus_start g ∧ bus_end g < 256.
Proof.
  intros (i&->&_)%list_elem_of_fmap. cbn.
  pose proof (load_range 1 m (mcfg + i * 16 + 10)) as [? _]. pose proof (load_range 1 m (mcfg + i * 16 + 11)) as [_ ?]. done.
Qed.

Lemma funs_keep mcfg n : Forall space_untouched (groups_at m mcfg n) →
  groups_at m mcfg n ≫= scan_group m' = groups_at m mcfg n ≫= scan_group m.
Proof.
  intros Hu. apply bind_ext_in. intros g Hg. destruct (group_buses _ _ _ Hg). apply scan_group_keeps; [|done..].
  rewrite list.Forall_forall in Hu. by apply Hu.
Qed.

(** A table of the root table: its signature, and for an MCFG table the
    elements and their configuration spaces. *)
Record table_untouched (h : Z) : Prop := {
  tu_signature : untouched written h (h + 4);
  tu_elements : is_mcfg m h → untouched written h (h + 44 + mcfg_elements m h * 16);
  tu_spaces : is_mcfg m h → Forall space_untouched (groups_at m (h + 44) (mcfg_elements m h));
}.

Lemma is_mcfg_keeps h : untouched written h (h + 4) → is_mcfg m' h ↔ is_mcfg m h.
Proof.
  intros Hu. pose proof (keeps_agree written _ _ _ _ Hkeep Hu) as Hag.
  split; apply bytes_at_agree; [|done]. intros a Ha. symmetry. by apply Hag.
Qed.

Lemma mcfg_scan_keeps h : table_untouched h → is_mcfg m h → 0 <= mcfg_elements m h →
  mcfg_elements m' h = mcfg_elements m h ∧ load 4 m' (h + 4) = load 4 m (h + 4) ∧
  groups_at m' (h + 44) (mcfg_elements m h) = groups_at m (h + 44) (mcfg_elements m h) ∧
  groups_at m (h + 44) (mcfg_elements m h) ≫= scan_group m' = groups_at m (h + 44) (mcfg_elements m h) ≫= scan_group m.
Proof.
  intros [_ He Hs] Hm Hn. specialize (He Hm). specialize (Hs Hm).
  assert (load 4 m' (h + 4) = load 4 m (h + 4)) as El.
  { apply (keeps_load written); [done|]. eapply untouched_weaken; [exact He|lia..]. }
  split; [unfold mcfg_elements; by rewrite El|]. split; [done|].
  split; [|by apply funs_keep]. apply groups_keep. eapply untouched_weaken; [exact He|lia..].
Qed.

Lemma mcfg_table_keeps h : table_untouched h → is_mcfg m h → mcfg_table_ok m h → mcfg_table_ok m' h ∧
  scan_result m' (h + 44) (mcfg_elements m' h) = scan_result m (h + 44) (mcfg_elements m h).
Proof.
  intros Hu Hm [Hp Hl [Hc Hpl Hg Hcap Hcls]].
  destruct (mcfg_scan_keeps h Hu Hm ltac:(lia)) as (E1&E2&E3&E4). split; [split|].
  - done.
  - by rewrite E1, E2.
  - rewrite E1. split; [done|done|by rewrite E3|by rewrite E3, E4|by rewrite E3, E4].
  - unfold scan_result. by rewrite E1, E3, E4.
Qed.

Lemma entries_keep wd sdt n : untouched written sdt (sdt + 36 + n * Z.of_nat wd) →
  sdt_entries wd m' sdt n = sdt_entries wd m sdt n.
Proof.
  intros Hu. unfold sdt_entries. apply list_fmap_ext. intros i x Hi. apply lookup_seqZ in Hi as [-> Hi].
  apply (keeps_load written); [done|]. eapply untouched_weaken; [exact Hu|nia..].
Qed.

(** The firmware of [m], away from what is written. *)
Record firmware_apart (wd : nat) (sdt n : Z) : Prop := {
  fa_text : text_mcfg_ok m ∧ untouched written text_mcfg (text_mcfg + 4);
  fa_root : root_table_ok wd m sdt n ∧ untouched written sdt (sdt + 36 + n * Z.of_nat wd);
  fa_tables : Forall table_untouched (sdt_entries wd m sdt n);
}.

Lemma mcfg_tables_keep hs : Forall table_untouched hs → mcfg_tables m' hs = mcfg_tables m hs.
Proof.
  unfold mcfg_tables. induction 1 as [|h hs [Hsig _ _] _ IH]; [done|]. rewrite !list.filter_cons, IH.
  pose proof (is_mcfg_keeps h Hsig) as Hiff. by destruct (decide (is_mcfg m' h)), (decide (is_mcfg m h)); intuition.
Qed.

Lemma firmware_kept wd sdt n p : firmware_apart wd sdt n →
  text_mcfg_ok m' ∧ root_table_ok wd m' sdt n ∧
  pcie_after m' (sdt_entries wd m' sdt n) p = pcie_after m (sdt_entries wd m sdt n) p.
Proof.
  intros [[(Ht0&Ht1&Ht) Htu] [[Hp Hn Hl Htab] Hru] Htabs]. pose proof (entries_keep wd sdt n Hru) as Ee.
  assert (∀ h, h ∈ sdt_entries wd m sdt n → is_mcfg m h → mcfg_table_ok m' h ∧
    scan_result m' (h + 44) (mcfg_elements m' h) = scan_result m (h + 44) (mcfg_elements m h)) as Hent.
  { intros h Hh Hm. unfold tables_ok in Htab. rewrite list.Forall_forall in Htab, Htabs. destruct (Htab h Hh) as (_&_&Hok).
    apply mcfg_table_keeps; [by apply Htabs|done|by apply Hok]. }
  split; [|split].
  - split; [done|]. split; [done|]. by apply is_mcfg_keeps.
  - split; [done|done| |].
    + rewrite <-Hl. apply (keeps_load written); [done|]. eapply untouched_weaken; [exact Hru|lia..].
    + rewrite Ee. apply list.Forall_forall. intros h Hh. unfold tables_ok in Htab. rewrite list.Forall_forall in Htab, Htabs.
      destruct (Htab h Hh) as (?&?&_). split; [done|]. split; [done|]. intros Hm.
      apply Hent; [done|]. by apply (is_mcfg_keeps h (tu_signature _ (Htabs h Hh))).
  - unfold pcie_after. rewrite Ee, (mcfg_tables_keep _ Htabs).
    destruct (list.last _) as [h|] eqn:El; [|done]. apply list.last_Some_elem_of in El.
    apply list_elem_of_filter in El as [Hm Hh]. by apply Hent.
Qed.

End tables.
