(* ===== verification/Mmu.v ===== *)
(** The x86-64 four-level page table walk: a reference for the page table code.

    [translate m root va] is what the hardware does with a virtual address
    when CR3 holds [root] and the physical memory is [m].  The code under
    src/mem and src/mm builds such tables entry by entry; the lemmas of this
    file say what installing one entry does to the translation of every
    address, so that the page table components only have to show which entry
    they install.

    A table is named by its path, the list of indices that leads to it from
    the root; [pte m root q j] is entry [j] of the table at path [q], 0 when
    there is no such table.  [pt_ok] is the invariant of a table tree whose
    tables are the root and distinct frames of a pool [lo, hi). *)
From S2P Require Import Prelude Memory.

(** Fields of an entry. *)
Definition entry_present (e : Z) : bool := Z.testbit e 0.
Definition entry_huge (e : Z) : bool := Z.testbit e 7.
Definition entry_frame (e : Z) : Z := Z.land e 0x000ffffffffff000.

(** Index of the entry that translates [va] in a table of level [lv] (4..1). *)
Definition idx (va lv : Z) : Z := (va / 2 ^ (12 + 9 * (lv - 1))) `mod` 512.

(** Size of the page that a leaf of level [lv] maps. *)
Definition page_span (lv : Z) : Z := 2 ^ (12 + 9 * (lv - 1)).

(** The walk from a table of level [lv]. *)
Fixpoint translate_from (lv : nat) (m : memory) (table va : Z) : option Z :=
  match lv with
  | O => None
  | S lv' =>
      let e := load64 m (table + 8 * idx va (Z.of_nat lv)) in
      if negb (entry_present e) then None
      else if (Z.of_nat lv =? 1) then Some (entry_frame e + va `mod` page_span 1)
      else if entry_huge e then
        if (Z.of_nat lv =? 4) then None
        else Some (entry_frame e + va `mod` page_span (Z.of_nat lv))
      else translate_from lv' m (entry_frame e) va
  end.

Definition translate (m : memory) (root va : Z) : option Z := translate_from 4 m root va.

(** The table at a path. *)
Definition next_table (m : memory) (j table : Z) : option Z :=
  let e := load64 m (table + 8 * j) in
  if entry_present e && negb (entry_huge e) then Some (entry_frame e) else None.

Fixpoint walk (m : memory) (table : Z) (q : list Z) : option Z :=
  match q with
  | [] => Some table
  | j :: q => next_table m j table ≫= λ t, walk m t q
  end.

Definition pte (m : memory) (root : Z) (q : list Z) (j : Z) : Z :=
  match walk m root q with Some t => load64 m (t + 8 * j) | None => 0 end.

Definition index_ok (j : Z) : Prop := 0 <= j < 512.
Definition path_ok (q : list Z) : Prop := (length q <= 3)%nat ∧ Forall index_ok q.

(** The highest physical address the tables may use. *)
Definition PA_LIMIT : Z := 0x0000800000000000.

(** A tree of tables: the root, and distinct frames among [F]. *)
Record tree_ok (m : memory) (root : Z) (F : Z → Prop) : Prop := {
  tr_root : (4096 | root) ∧ 0 <= root ∧ root + 4096 <= PA_LIMIT;
  tr_frame : ∀ t, F t → (4096 | t) ∧ 0 <= t ∧ t + 4096 <= PA_LIMIT;
  tr_tables : ∀ q t, path_ok q → walk m root q = Some t → t = root ∨ F t;
  tr_inj : ∀ q q' t, path_ok q → path_ok q' → walk m root q = Some t → walk m root q' = Some t → q = q';
  tr_top : ∀ j, index_ok j → entry_huge (load64 m (root + 8 * j)) = false;
  tr_width : ∀ q t j, path_ok q → index_ok j → walk m root q = Some t →
    load64 m (t + 8 * j) < 2 ^ 52;
}.

(** No table holds anything but zeros and present entries. *)
Definition tree_clean (m : memory) (root : Z) : Prop := ∀ q t j, path_ok q → index_ok j →
  walk m root q = Some t → load64 m (t + 8 * j) = 0 ∨ entry_present (load64 m (t + 8 * j)) = true.

(** More frames may be allowed than the tree uses. *)
Lemma tree_weaken m root (F G : Z → Prop) : tree_ok m root F → (∀ t, F t → G t) →
  (∀ t, G t → (4096 | t) ∧ 0 <= t ∧ t + 4096 <= PA_LIMIT) → tree_ok m root G.
Proof.
  intros Hok HFG HG. split; [apply Hok|done| |apply Hok..].
  intros q t Hq Hw. destruct (tr_tables _ _ _ Hok q t Hq Hw) as [?|?]; [by left|right; by apply HFG].
Qed.

(** The frames of a pool, and a tree whose frames are those of a pool. *)
Definition in_pool (lo hi t : Z) : Prop := lo <= t ∧ t + 4096 <= hi ∧ (4096 | t).

Record pt_ok (m : memory) (root lo hi : Z) : Prop := {
  pt_tree : tree_ok m root (in_pool lo hi);
  pt_clean : tree_clean m root;
  pt_pool : (4096 | hi) ∧ 0 < lo ∧ lo <= hi ∧ hi <= PA_LIMIT;
  pt_apart : root + 4096 <= lo ∨ hi <= root;
}.

Section pool.
Context (m : memory) (root lo hi : Z) (Hok : pt_ok m root lo hi).

Lemma pt_root : (4096 | root) ∧ 0 <= root ∧ root + 4096 <= PA_LIMIT.
Proof. apply Hok. Qed.

Lemma pt_tables q t : path_ok q → walk m root q = Some t → t = root ∨ (lo <= t ∧ t + 4096 <= hi ∧ (4096 | t)).
Proof. apply Hok. Qed.

Lemma pt_width q t j : path_ok q → index_ok j → walk m root q = Some t → load64 m (t + 8 * j) < 2 ^ 52.
Proof. apply Hok. Qed.

End pool.

(* --------------------------------------------------------------------- *)
(** ** Entries *)

Lemma land_frame_mask k v : 0 <= k → 
  Z.land v (Z.shiftl (Z.ones k) 12) = ((v / 4096) `mod` 2 ^ k) * 4096.
Proof.
  intros Hk. rewrite <-(Z.land_ones _ k) by done.
  replace 4096 with (2 ^ 12) by done. rewrite <-Z.shiftl_mul_pow2, <-Z.shiftr_div_pow2 by done.
  apply Z.bits_inj'. intros n Hn. rewrite Z.land_spec.
  destruct (decide (n < 12)).
  - rewrite !(Z.shiftl_spec_low _ 12) by done. apply andb_false_r.
  - rewrite !Z.shiftl_spec, Z.land_spec, Z.shiftr_spec by lia. by rewrite Z.sub_add.
Qed.

Lemma entry_frame_eq f x : 0 <= f < 2 ^ 52 → (4096 | f) → 0 <= x < 4096 → entry_frame (f + x) = f.
Proof.
  intros Hf [k ->] Hx. unfold entry_frame.
  change 0x000ffffffffff000 with (Z.shiftl (Z.ones 40) 12). rewrite land_frame_mask by done.
  rewrite Z.div_add_l, (Z.div_small x), Z.add_0_r by lia.
  rewrite Z.mod_small; [done|]. change (2 ^ 52) with (2 ^ 40 * 4096) in Hf. nia.
Qed.

Lemma testbit_frame f x n : (4096 | f) → 0 <= n < 12 → Z.testbit (f + x) n = Z.testbit x n.
Proof.
  intros [k ->] Hn. rewrite <-(Z.mod_pow2_bits_low (k * 4096 + x) 12), <-(Z.mod_pow2_bits_low x 12) by lia.
  f_equal. change (2 ^ 12) with 4096. rewrite Z.add_comm. apply Z_mod_plus_full.
Qed.

(** The flags that the code sets on the address of a frame. *)
Lemma setbit_flags padd : (4096 | padd) →
  Z.setbit padd 0 = padd + 1 ∧ Z.setbit (Z.setbit padd 0) 1 = padd + 3 ∧
  Z.setbit (Z.setbit (Z.setbit padd 0) 1) 7 = padd + 131.
Proof.
  intros Hd. unfold Z.setbit. change (Z.shiftl 1 0) with 1. change (Z.shiftl 1 1) with 2.
  change (Z.shiftl 1 7) with 128. rewrite <-!Z.lor_assoc.
  change (Z.lor 1 2) with 3. change (Z.lor 2 128) with 130. change (Z.lor 1 130) with 131.
  split_and!; apply (lor_add 12); done || lia.
Qed.

(** The code masks 48 bits where the hardware has 40. *)
Lemma wide_frame e : 0 <= e < 2 ^ 52 → Z.land e 0x0ffffffffffff000 = entry_frame e.
Proof.
  intros He. unfold entry_frame.
  change 0x0ffffffffffff000 with (Z.shiftl (Z.ones 48) 12).
  change 0x000ffffffffff000 with (Z.shiftl (Z.ones 40) 12).
  rewrite !land_frame_mask by done. change (2 ^ 52) with (2 ^ 40 * 4096) in He.
  rewrite !Z.mod_small; [done|..]; (split; [apply Z.div_pos; lia|]);
    (apply Z.div_lt_upper_bound; [lia|]); change (2 ^ 48) with (256 * 2 ^ 40); lia.
Qed.

(** The index as the code computes it. *)
Lemma idx_code va lv : 1 <= lv <= 4 → ((va >> ((lv - 1) * 9 + 12)) & 0x1ff)%u64 = idx va lv.
Proof.
  intros Hlv. u64_unfold.
  rewrite (u64_small (lv - 1)), (u64_small ((lv - 1) * 9)), u64_small by (rewrite ?u64_small; lia).
  change 0x1ff with (Z.ones 9). rewrite Z.land_ones, Z.shiftr_div_pow2 by lia.
  unfold idx. change (2 ^ 9) with 512. do 3 f_equal. lia.
Qed.

Lemma entry_zero : entry_present 0 = false ∧ entry_huge 0 = false.
Proof. done. Qed.

Lemma idx_range va lv : index_ok (idx va lv).
Proof. unfold index_ok, idx. apply Z.mod_pos_bound. lia. Qed.

(* --------------------------------------------------------------------- *)
(** ** Paths *)

Lemma walk_app m t q r : walk m t (q ++ r) = walk m t q ≫= λ u, walk m u r.
Proof.
  revert t. induction q as [|j q IH]; intros t; [done|]. simpl.
  destruct (next_table m j t); [apply IH|done].
Qed.

Lemma walk_snoc m t q j : walk m t (q ++ [j]) = walk m t q ≫= next_table m j.
Proof.
  rewrite walk_app. destruct (walk m t q) as [u|]; [|done]. simpl.
  by destruct (next_table m j u).
Qed.

Lemma walk_prefix m t q j u : walk m t (q ++ [j]) = Some u →
  ∃ v, walk m t q = Some v ∧ next_table m j v = Some u.
Proof. rewrite walk_snoc. apply bind_Some. Qed.

Lemma pte_walk m root q j t : walk m root q = Some t → pte m root q j = load64 m (t + 8 * j).
Proof. unfold pte. by intros ->. Qed.

Lemma pte_none m root q j : walk m root q = None → pte m root q j = 0.
Proof. unfold pte. by intros ->. Qed.

(** Below an entry that is no table there are no entries. *)
Lemma walk_pte m root q j : walk m root (q ++ [j]) =
  if entry_present (pte m root q j) && negb (entry_huge (pte m root q j))
  then Some (entry_frame (pte m root q j)) else None.
Proof. rewrite walk_snoc. unfold pte. by destruct (walk m root q). Qed.

(** The translation in terms of the entries. *)
Definition xlate (P : list Z → Z → Z) (va : Z) : option Z :=
  let e4 := P [] (idx va 4) in
  let e3 := P [idx va 4] (idx va 3) in
  let e2 := P [idx va 4; idx va 3] (idx va 2) in
  let e1 := P [idx va 4; idx va 3; idx va 2] (idx va 1) in
  if negb (entry_present e4) then None
  else if entry_huge e4 then None
  else if negb (entry_present e3) then None
  else if entry_huge e3 then Some (entry_frame e3 + va `mod` page_span 3)
  else if negb (entry_present e2) then None
  else if entry_huge e2 then Some (entry_frame e2 + va `mod` page_span 2)
  else if negb (entry_present e1) then None
  else Some (entry_frame e1 + va `mod` page_span 1).

Lemma translate_xlate m root va : translate m root va = xlate (pte m root) va.
Proof.
  unfold translate, xlate, pte. cbn [translate_from walk mbind option_bind].
  change (Z.of_nat 4) with 4. change (Z.of_nat 3) with 3. change (Z.of_nat 2) with 2.
  change (Z.of_nat 1) with 1. cbn [Z.eqb Pos.eqb].
  unfold next_table, mbind, option_bind.
  set (e4 := load64 m (root + _)).
  destruct (entry_present e4); cbn [negb andb]; [|reflexivity].
  destruct (entry_huge e4); cbn [negb andb]; [reflexivity|].
  set (e3 := load64 m (entry_frame e4 + _)).
  destruct (entry_present e3); cbn [negb andb]; [|reflexivity].
  destruct (entry_huge e3); cbn [negb andb]; [reflexivity|].
  set (e2 := load64 m (entry_frame e3 + _)).
  destruct (entry_present e2); cbn [negb andb]; [|reflexivity].
  destruct (entry_huge e2); cbn [negb andb]; reflexivity.
Qed.

(* --------------------------------------------------------------------- *)
(** ** Installing one entry *)

Section install.
Context {m m' : memory} {root : Z} {F : Z → Prop}.
Hypothesis Hok : tree_ok m root F.

Lemma tree_range q t : path_ok q → walk m root q = Some t → 0 <= t ∧ t + 4096 <= PA_LIMIT ∧ (4096 | t).
Proof.
  intros Hq Hw. destruct (tr_tables _ _ _ Hok q t Hq Hw) as [->|Ht].
  - pose proof (tr_root _ _ _ Hok). tauto.
  - pose proof (tr_frame _ _ _ Hok t Ht). tauto.
Qed.

(** Different entries occupy different bytes. *)
Lemma tree_disjoint q q' t t' j j' : path_ok q → path_ok q' → index_ok j → index_ok j' →
  walk m root q = Some t → walk m root q' = Some t' → (q, j) ≠ (q', j') →
  t + 8 * j + 8 <= t' + 8 * j' ∨ t' + 8 * j' + 8 <= t + 8 * j.
Proof.
  intros Hq Hq' Hj Hj' Hw Hw' Hne. unfold index_ok in *.
  destruct (decide (t = t')) as [<-|Ht].
  - assert (q = q') as -> by (by eapply (tr_inj _ _ _ Hok)).
    assert (j ≠ j') by (by intros ->). lia.
  - destruct (tree_range q t Hq Hw) as (_&_&Ha), (tree_range q' t' Hq' Hw') as (_&_&Hb).
    destruct (Z.lt_trichotomy t t') as [H1|[H1|H1]]; [|done|].
    + left. destruct (decide (t' < t + 4096)); [|lia].
      destruct Ht. apply (divide_close 4096); [done..|lia].
    + right. destruct (decide (t < t' + 4096)); [|lia].
      destruct Ht. symmetry. apply (divide_close 4096); [done..|lia].
Qed.

(** Entry [i] of the table [t] at [p] was absent and becomes [v]; the other
    entries stay. *)
Record entry_update (p : list Z) (i t v : Z) : Prop := {
  up_path : path_ok p;
  up_index : index_ok i;
  up_walk : walk m root p = Some t;
  up_old : entry_present (load64 m (t + 8 * i)) = false;
  up_new : load64 m' (t + 8 * i) = v;
  up_rest : ∀ q u j, path_ok q → index_ok j → walk m root q = Some u → (q, j) ≠ (p, i) →
    load64 m' (u + 8 * j) = load64 m (u + 8 * j);
}.

Context {p : list Z} {i t v : Z} (Hup : entry_update p i t v).

Lemma path_ok_prefix q r : path_ok (q ++ r) → path_ok q.
Proof.
  intros [Hl Hf]. rewrite length_app in Hl. apply Forall_app in Hf as [Hf _]. split; [lia|done].
Qed.

Lemma path_ok_snoc q j : path_ok (q ++ [j]) → path_ok q ∧ index_ok j ∧ (length q < 3)%nat.
Proof.
  intros H. split; [by eapply path_ok_prefix|]. destruct H as [Hl Hf].
  rewrite length_app in Hl. apply Forall_app in Hf as [_ Hf]. apply list.Forall_cons in Hf as [? _].
  simpl in Hl. split; [done|lia].
Qed.

Lemma walk_outside q : path_ok q → ¬ p ++ [i] `prefix_of` q → walk m' root q = walk m root q.
Proof.
  induction q as [|j q IH] using rev_ind; intros Hq Hpre; [done|].
  destruct (path_ok_snoc q j Hq) as (Hq0&Hj&_).
  rewrite !walk_snoc. rewrite IH; [|done|].
  - destruct (walk m root q) as [u|] eqn:Hu; [|done]. simpl. unfold next_table.
    rewrite (up_rest _ _ _ _ Hup q); [done..|].
    intros [= -> ->]. by apply Hpre.
  - intros [r ->]. apply Hpre. exists (r ++ [j]). by rewrite <-app_assoc.
Qed.

Lemma walk_below r : walk m root ((p ++ [i]) ++ r) = None.
Proof.
  rewrite walk_app, walk_snoc. rewrite (up_walk _ _ _ _ Hup). simpl.
  unfold next_table. by rewrite (up_old _ _ _ _ Hup).
Qed.

Lemma walk_keep q u : path_ok q → walk m root q = Some u → walk m' root q = Some u.
Proof.
  intros Hq Hu. rewrite walk_outside; [done..|]. intros [r ->]. by rewrite walk_below in Hu.
Qed.

Lemma walk_new : walk m' root p = Some t.
Proof. apply walk_keep; apply Hup. Qed.

Lemma pte_new : pte m' root p i = v.
Proof. rewrite (pte_walk _ _ _ _ _ walk_new). apply Hup. Qed.

Lemma pte_rest q j : path_ok q → index_ok j → ¬ p ++ [i] `prefix_of` q → (q, j) ≠ (p, i) →
  pte m' root q j = pte m root q j.
Proof.
  intros Hq Hj Hpre Hne. unfold pte. rewrite walk_outside by done.
  destruct (walk m root q) as [u|] eqn:Hu; [|done]. by apply (up_rest _ _ _ _ Hup q).
Qed.

(** A leaf is no table, nor is an absent entry: the tree of tables stays. *)
Lemma walk_leaf : (length p = 3%nat ∨ entry_huge v = true ∨ entry_present v = false) →
  ∀ q, path_ok q → walk m' root q = walk m root q.
Proof.
  intros Hleaf q Hq. destruct (decide (p ++ [i] `prefix_of` q)) as [[r ->]|]; [|by apply walk_outside].
  rewrite walk_below. rewrite walk_app, walk_snoc, walk_new. simpl. unfold next_table.
  rewrite (up_new _ _ _ _ Hup). destruct Hleaf as [Hl|[Hh|Hpr]].
  - destruct Hq as [Hq _]. rewrite !length_app in Hq. simpl in Hq. lia.
  - rewrite Hh. by rewrite andb_false_r.
  - by rewrite Hpr.
Qed.

Definition installed (P P' : list Z → Z → Z) : Prop :=
  ∀ q j, path_ok q → index_ok j → P' q j = if decide ((q, j) = (p, i)) then v else P q j.

Lemma installed_leaf : (length p = 3%nat ∨ entry_huge v = true ∨ entry_present v = false) →
  installed (pte m root) (pte m' root).
Proof.
  intros Hleaf q j Hq Hj. destruct (decide ((q, j) = (p, i))) as [[= -> ->]|Hne]; [apply pte_new|].
  unfold pte. rewrite walk_leaf by done. destruct (walk m root q) as [u|] eqn:Hu; [|done].
  by apply (up_rest _ _ _ _ Hup q).
Qed.

Lemma tree_install_leaf : v < 2 ^ 52 →
  length p = 3%nat ∨ (entry_huge v = true ∧ p ≠ []) ∨ (entry_present v = false ∧ entry_huge v = false) →
  tree_ok m' root F ∧ installed (pte m root) (pte m' root).
Proof.
  intros Hwd Hleaf.
  assert (∀ q, path_ok q → walk m' root q = walk m root q) as Hw by (apply walk_leaf; tauto).
  split; [|apply installed_leaf; tauto]. split; try apply Hok.
  - intros q u Hq. rewrite Hw by done. by apply Hok.
  - intros q q' u Hq Hq'. rewrite !Hw by done. by apply Hok.
  - intros j Hj. destruct (decide (([], j) = (p, i))) as [[= Hp Hij]|Hne].
    + destruct Hleaf as [Hl|[[_ Hl]|[_ Hl]]]; [by rewrite <-Hp in Hl|congruence|].
      pose proof (up_walk _ _ _ _ Hup) as Hr. rewrite <-Hp in Hr. injection Hr as Hr.
      by rewrite Hij, Hr, (up_new _ _ _ _ Hup).
    + rewrite (up_rest _ _ _ _ Hup []); [by apply Hok|split; [simpl; lia|done]|done..].
  - intros q u j Hq Hj. rewrite Hw by done. intros Hu.
    destruct (decide ((q, j) = (p, i))) as [[= -> ->]|Hne].
    + rewrite (up_walk _ _ _ _ Hup) in Hu. injection Hu as <-. by rewrite (up_new _ _ _ _ Hup).
    + rewrite (up_rest _ _ _ _ Hup q) by done. by eapply Hok.
Qed.

Lemma clean_install_leaf : tree_clean m root → entry_present v = true →
  length p = 3%nat ∨ entry_huge v = true → tree_clean m' root.
Proof.
  intros Hc Hpr Hleaf q u j Hq Hj. rewrite walk_leaf by tauto. intros Hu.
  destruct (decide ((q, j) = (p, i))) as [[= -> ->]|Hne].
  - rewrite (up_walk _ _ _ _ Hup) in Hu. injection Hu as <-. rewrite (up_new _ _ _ _ Hup). by right.
  - rewrite (up_rest _ _ _ _ Hup q) by done. by eapply Hc.
Qed.

(** A frame [hi] without present entries as a table. *)
Context {hi : Z}.
Hypothesis Htab : entry_present v = true ∧ entry_huge v = false ∧ entry_frame v = hi.

Definition dead : Prop := ∀ j, index_ok j → entry_present (load64 m' (hi + 8 * j)) = false.

Lemma walk_table r : walk m' root ((p ++ [i]) ++ r) = walk m' hi r.
Proof.
  rewrite walk_app, walk_snoc, walk_new. simpl. unfold next_table.
  rewrite (up_new _ _ _ _ Hup). destruct Htab as (->&->&->). done.
Qed.

Lemma walk_empty r : dead → Forall index_ok r → walk m' hi r = match r with [] => Some hi | _ => None end.
Proof.
  destruct r as [|j r]; [done|]. intros Hd Hf. apply list.Forall_cons in Hf as [Hj _].
  simpl. unfold next_table. by rewrite Hd.
Qed.

Lemma walk_table_inv q u : dead → path_ok q → walk m' root q = Some u →
  (q = p ++ [i] ∧ u = hi) ∨ walk m root q = Some u.
Proof.
  intros Hd Hq Hu. destruct (decide (p ++ [i] `prefix_of` q)) as [[r ->]|].
  - left. rewrite walk_table, walk_empty in Hu; [|done|].
    + destruct r; [|done]. injection Hu as <-. by rewrite app_nil_r.
    + destruct Hq as [_ Hf]. by apply Forall_app in Hf as [_ ?].
  - right. by rewrite <-walk_outside.
Qed.

Lemma walk_other q : dead → path_ok q → q ≠ p ++ [i] → walk m' root q = walk m root q.
Proof.
  intros Hd Hq Hne. destruct (decide (p ++ [i] `prefix_of` q)) as [[r ->]|]; [|by apply walk_outside].
  rewrite walk_below, walk_table, walk_empty; [|done|].
  - destruct r; [|done]. by rewrite app_nil_r in Hne.
  - destruct Hq as [_ Hf]. by apply Forall_app in Hf as [_ ?].
Qed.

(** The frame is zeroed: the tree gets one more table. *)
Hypothesis Hwidth : v < 2 ^ 52.
Hypothesis Hzero : ∀ j, index_ok j → load64 m' (hi + 8 * j) = 0.

Lemma zero_dead : dead.
Proof. intros j Hj. by rewrite Hzero. Qed.

Lemma tree_install_table : ¬ F hi → hi ≠ root → (4096 | hi) → 0 <= hi → hi + 4096 <= PA_LIMIT →
  tree_ok m' root (λ t, F t ∨ t = hi) ∧ installed (pte m root) (pte m' root) ∧
  walk m' root (p ++ [i]) = Some hi.
Proof.
  intros HnF Hroot Hal Hhi Hlim. pose proof zero_dead as Hd.
  assert (∀ q u, path_ok q → walk m root q = Some u → u ≠ hi) as Hfresh.
  { intros q u Hq Hu ->. by destruct (tr_tables _ _ _ Hok q hi Hq Hu) as [?|?]. }
  split; [|split].
  - split.
    + apply Hok.
    + intros t' [Ht| ->]; [by apply (tr_frame _ _ _ Hok)|done].
    + intros q u Hq [[-> ->]|Hu]%walk_table_inv; [by right; right| |done|done].
      destruct (tr_tables _ _ _ Hok q u Hq Hu) as [?|?]; [by left|by right; left].
    + intros q q' u Hq Hq' [[-> ->]|Hu]%walk_table_inv [[-> Hu']|Hu']%walk_table_inv; try done.
      * exfalso. by eapply (Hfresh q').
      * exfalso. subst u. by eapply (Hfresh q).
      * by eapply Hok.
    + intros j Hj. destruct (decide (([], j) = (p, i))) as [[= Hp Hij]|Hne].
      * pose proof (up_walk _ _ _ _ Hup) as Hw. rewrite <-Hp in Hw. injection Hw as Hw.
        rewrite Hij, Hw, (up_new _ _ _ _ Hup). apply Htab.
      * rewrite (up_rest _ _ _ _ Hup []); [by apply Hok|split; [simpl; lia|done]|done..].
    + intros q u j Hq Hj [[-> ->]|Hu]%walk_table_inv; [by rewrite Hzero| |done|done].
      destruct (decide ((q, j) = (p, i))) as [[= -> ->]|Hne].
      * rewrite (up_walk _ _ _ _ Hup) in Hu. injection Hu as <-. by rewrite (up_new _ _ _ _ Hup).
      * rewrite (up_rest _ _ _ _ Hup q) by done. by eapply Hok.
  - intros q j Hq Hj. destruct (decide ((q, j) = (p, i))) as [[= -> ->]|Hne]; [apply pte_new|].
    destruct (decide (p ++ [i] `prefix_of` q)) as [[r ->]|]; [|by apply pte_rest].
    rewrite (pte_none m) by apply walk_below. unfold pte. rewrite walk_table, walk_empty; [|done|].
    + destruct r; [by apply Hzero|done].
    + destruct Hq as [_ Hf]. by apply Forall_app in Hf as [_ ?].
  - rewrite <-(app_nil_r (p ++ [i])), walk_table. done.
Qed.

Lemma clean_install_table : tree_clean m root → tree_clean m' root.
Proof.
  intros Hc q u j Hq Hj [[-> ->]|Hu]%walk_table_inv; [left; by apply Hzero| |apply zero_dead|done].
  destruct (decide ((q, j) = (p, i))) as [[= -> ->]|Hne].
  - rewrite (up_walk _ _ _ _ Hup) in Hu. injection Hu as <-. rewrite (up_new _ _ _ _ Hup). right. apply Htab.
  - rewrite (up_rest _ _ _ _ Hup q) by done. by eapply Hc.
Qed.

End install.
#[global] Arguments entry_update : clear implicits.
#[global] Arguments installed : clear implicits.
#[global] Arguments dead : clear implicits.

(** The same for a tree whose frames are a pool that grows at its end. *)
Section pool_install.
Context {m m' : memory} {root lo hi : Z}.
Hypothesis Hok : pt_ok m root lo hi.

Lemma table_range q t : path_ok q → walk m root q = Some t → 0 <= t ∧ t + 4096 <= PA_LIMIT ∧ (4096 | t).
Proof. apply (tree_range (pt_tree _ _ _ _ Hok)). Qed.

Lemma entries_disjoint q q' t t' j j' : path_ok q → path_ok q' → index_ok j → index_ok j' →
  walk m root q = Some t → walk m root q' = Some t' → (q, j) ≠ (q', j') →
  t + 8 * j + 8 <= t' + 8 * j' ∨ t' + 8 * j' + 8 <= t + 8 * j.
Proof. apply (tree_disjoint (pt_tree _ _ _ _ Hok)). Qed.

Context {p : list Z} {i t v : Z} (Hup : entry_update m m' root p i t v).

Lemma install_leaf : entry_present v = true → v < 2 ^ 52 →
  length p = 3%nat ∨ (entry_huge v = true ∧ p ≠ []) →
  pt_ok m' root lo hi ∧ installed p i v (pte m root) (pte m' root).
Proof.
  intros Hpr Hwd Hleaf.
  destruct (tree_install_leaf (pt_tree _ _ _ _ Hok) Hup Hwd) as [Ht Hin]; [tauto|].
  split; [|done]. split; [done| |apply Hok..].
  apply (clean_install_leaf Hup (pt_clean _ _ _ _ Hok) Hpr). tauto.
Qed.

Hypothesis Hzero : ∀ j, index_ok j → load64 m' (hi + 8 * j) = 0.
Hypothesis Htab : entry_present v = true ∧ entry_huge v = false ∧ entry_frame v = hi.
Hypothesis Hwidth : v < 2 ^ 52.

Lemma install_table : hi + 4096 <= PA_LIMIT → (root + 4096 <= hi ∨ hi + 4096 <= root) →
  pt_ok m' root lo (hi + 4096) ∧ installed p i v (pte m root) (pte m' root) ∧
  walk m' root (p ++ [i]) = Some hi.
Proof.
  intros Hlim Hroot. pose proof (pt_pool _ _ _ _ Hok) as (Hhi&Hlo&Hlohi&_).
  destruct (tree_install_table (pt_tree _ _ _ _ Hok) Hup Htab Hwidth Hzero) as (Ht&Hin&Hw);
    [unfold in_pool; lia|lia|done|lia|done|].
  split; [|done]. split.
  - apply (tree_weaken _ _ _ _ Ht).
    + intros u [(?&?&?)| ->]; unfold in_pool; [split_and!; [lia|lia|done]|split_and!; [lia|lia|done]].
    + intros u (?&?&Hu). split; [done|lia].
  - apply (clean_install_table Hup Htab Hzero), Hok.
  - split; [apply Z.divide_add_r; [done|by exists 1]|lia].
  - destruct (pt_apart _ _ _ _ Hok) as [?|?]; lia.
Qed.
End pool_install.

(* --------------------------------------------------------------------- *)
(** ** What an installed entry does to the translation *)

(** Number of the page of level [lv] that holds [va], among the 2^48 addresses
    that the walk distinguishes. *)
Definition page_of (lv va : Z) : Z := (va / page_span lv) `mod` 2 ^ (36 - 9 * (lv - 1)).

Definition path_of (lv : nat) (va : Z) : list Z :=
  match lv with
  | 3%nat => [idx va 4]
  | 2%nat => [idx va 4; idx va 3]
  | 1%nat => [idx va 4; idx va 3; idx va 2]
  | _ => []
  end.

Lemma path_of_ok lv va : path_ok (path_of lv va).
Proof.
  pose proof (idx_range va). split.
  - destruct lv as [|[|[|[|]]]]; simpl; lia.
  - destruct lv as [|[|[|[|]]]]; simpl; auto.
Qed.

Lemma path_of_step lv va : (1 < lv <= 4)%nat →
  path_of (lv - 1) va = path_of lv va ++ [idx va (Z.of_nat lv)].
Proof. intros H. by destruct lv as [|[|[|[|[|]]]]]; try lia. Qed.

Lemma idx_shift va lv : 1 <= lv → idx va lv = (va / 4096 / 512 ^ (lv - 1)) `mod` 512.
Proof.
  intros H. unfold idx. rewrite Z.pow_add_r, Z.pow_mul_r by lia.
  change (2 ^ 9) with 512. change (2 ^ 12) with 4096. rewrite Z.div_div; [done|lia|].
  apply Z.pow_pos_nonneg; lia.
Qed.

Lemma same_page_1 va va' : page_of 1 va = page_of 1 va' ↔
  idx va 4 = idx va' 4 ∧ idx va 3 = idx va' 3 ∧ idx va 2 = idx va' 2 ∧ idx va 1 = idx va' 1.
Proof.
  rewrite !idx_shift by lia. unfold page_of, page_span.
  change (2 ^ (12 + 9 * (1 - 1))) with 4096. change (2 ^ (36 - 9 * (1 - 1))) with 68719476736.
  change (512 ^ (4 - 1)) with 134217728. change (512 ^ (3 - 1)) with 262144.
  change (512 ^ (2 - 1)) with 512. change (512 ^ (1 - 1)) with 1.
  generalize (va / 4096) (va' / 4096). intros x y. zlia.
Qed.

Lemma same_page_2 va va' : page_of 2 va = page_of 2 va' ↔
  idx va 4 = idx va' 4 ∧ idx va 3 = idx va' 3 ∧ idx va 2 = idx va' 2.
Proof.
  rewrite !idx_shift by lia. unfold page_of, page_span.
  change (2 ^ (12 + 9 * (2 - 1))) with (4096 * 512). change (2 ^ (36 - 9 * (2 - 1))) with 134217728.
  rewrite <-!Z.div_div by lia.
  change (512 ^ (4 - 1)) with (512 * 262144). change (512 ^ (3 - 1)) with (512 * 512).
  change (512 ^ (2 - 1)) with 512. rewrite <-!(Z.div_div _ 512) by lia.
  generalize (va / 4096 / 512) (va' / 4096 / 512). intros x y. zlia.
Qed.

(** A table entry over zero entries changes no translation. *)
Lemma xlate_table (P P' : list Z → Z → Z) p i v :
  installed p i v P P' → (length p <= 2)%nat → entry_present (P p i) = false → index_ok i → path_ok p →
  (∀ j, P (p ++ [i]) j = 0) → entry_present v = true ∧ entry_huge v = false →
  ∀ va, xlate P' va = xlate P va.
Proof.
  intros Hin Hl H0 Hi Hp Hbelow [Hpr Hh] va. unfold xlate.
  pose proof (idx_range va) as Hidx. destruct entry_zero as [Z1 Z2].
  rewrite !Hin; [|apply (path_of_ok 1 va)|apply Hidx|apply (path_of_ok 2 va)|apply Hidx
    |apply (path_of_ok 3 va)|apply Hidx|apply (path_of_ok 4 va)|apply Hidx].
  destruct (decide (([], idx va 4) = (p, i))) as [[= <- <-]|H4].
  - rewrite H0, Hpr, Hh, !decide_False by done. cbn [app] in Hbelow. by rewrite Hbelow, Z1.
  - destruct (decide (([idx va 4], idx va 3) = (p, i))) as [[= <- <-]|H3].
    + rewrite H0, Hpr, Hh, !decide_False by done. cbn [app] in Hbelow. rewrite Hbelow, Z1. done.
    + destruct (decide (([idx va 4; idx va 3], idx va 2) = (p, i))) as [[= <- <-]|H2].
      * rewrite H0, Hpr, Hh, !decide_False by done. cbn [app] in Hbelow. rewrite Hbelow, Z1. done.
      * rewrite !(decide_False (P := ([idx va 4; idx va 3; idx va 2], idx va 1) = (p, i))); [done|].
        intros [= <- _]. simpl in Hl. lia.
Qed.

Lemma page_of_offset lv va o : 1 <= lv → 0 <= o < page_span lv → (page_span lv | va) →
  page_of lv (va + o) = page_of lv va ∧ (va + o) `mod` page_span lv = o.
Proof.
  intros Hlv Ho [k ->]. unfold page_of.
  rewrite Z.div_add_l, (Z.div_small o), Z.add_0_r, Z_div_mult by lia.
  split; [done|]. rewrite Z.add_comm, Z_mod_plus_full. by apply Z.mod_small.
Qed.

(** The entries above a table are tables. *)
Lemma walk_path_present m root q j u : walk m root (q ++ [j]) = Some u →
  entry_present (pte m root q j) = true ∧ entry_huge (pte m root q j) = false.
Proof.
  rewrite walk_pte. destruct (entry_present _), (entry_huge _); naive_solver.
Qed.

(** An absent entry changes no translation. *)
Lemma xlate_absent (P P' : list Z → Z → Z) p i v :
  installed p i v P P' → entry_present (P p i) = false → entry_present v = false → ∀ va, xlate P' va = xlate P va.
Proof.
  intros Hin H0 Hpr va. unfold xlate.
  pose proof (idx_range va) as Hidx.
  rewrite !Hin; [|apply (path_of_ok 1 va)|apply Hidx|apply (path_of_ok 2 va)|apply Hidx
    |apply (path_of_ok 3 va)|apply Hidx|apply (path_of_ok 4 va)|apply Hidx].
  destruct (decide (([], idx va 4) = (p, i))) as [[= <- <-]|H4]; [by rewrite H0, Hpr|].
  destruct (decide (([idx va 4], idx va 3) = (p, i))) as [[= <- <-]|H3]; [by rewrite H0, Hpr|].
  destruct (decide (([idx va 4; idx va 3], idx va 2) = (p, i))) as [[= <- <-]|H2]; [by rewrite H0, Hpr|].
  destruct (decide (([idx va 4; idx va 3; idx va 2], idx va 1) = (p, i))) as [[= <- <-]|H1]; [|done].
  by rewrite H0, Hpr.
Qed.

(** A leaf is seen by the addresses of its page only. *)
Lemma xlate_leaf_other (P P' : list Z → Z → Z) va v va' :
  installed (path_of 1 va) (idx va 1) v P P' → page_of 1 va' ≠ page_of 1 va → xlate P' va' = xlate P va'.
Proof.
  intros Hin Hne. unfold xlate. pose proof (idx_range va') as Hidx.
  rewrite !Hin; [|apply (path_of_ok 1 va')|apply Hidx|apply (path_of_ok 2 va')|apply Hidx
    |apply (path_of_ok 3 va')|apply Hidx|apply (path_of_ok 4 va')|apply Hidx].
  rewrite (decide_False (P := ([], idx va' 4) = _)) by done.
  rewrite (decide_False (P := ([idx va' 4], idx va' 3) = _)) by done.
  rewrite (decide_False (P := ([idx va' 4; idx va' 3], idx va' 2) = _)) by done.
  rewrite decide_False; [done|]. intros [= E4 E3 E2 E1]. apply Hne, same_page_1. done.
Qed.

(** A page without a leaf is not translated. *)
Lemma leaf_absent m root va va' t : walk m root (path_of 1 va) = Some t →
  entry_present (load64 m (t + 8 * idx va 1)) = false → page_of 1 va' = page_of 1 va → translate m root va' = None.
Proof.
  intros Hw H0 Hpage. rewrite translate_xlate. unfold xlate. apply same_page_1 in Hpage as (->&->&->&->).
  rewrite (pte_walk _ _ [idx va 4; idx va 3; idx va 2] _ _ Hw), H0.
  change (path_of 1 va) with ([idx va 4; idx va 3] ++ [idx va 2]) in Hw.
  destruct (walk_path_present _ _ _ _ _ Hw) as [A2 B2]. apply walk_prefix in Hw as (t2&Hw&_).
  change [idx va 4; idx va 3] with ([idx va 4] ++ [idx va 3]) in Hw.
  destruct (walk_path_present _ _ _ _ _ Hw) as [A3 B3]. apply walk_prefix in Hw as (t3&Hw&_).
  change [idx va 4] with ([] ++ [idx va 4]) in Hw.
  destruct (walk_path_present _ _ _ _ _ Hw) as [A4 B4]. cbn [app] in *.
  by rewrite A4, B4, A3, B3, A2, B2.
Qed.

Section leaf.
Context {m m' : memory} {root va v t : Z}.

Lemma translate_leaf_1 : installed (path_of 1 va) (idx va 1) v (pte m root) (pte m' root) →
  walk m root (path_of 1 va) = Some t → entry_present v = true →
  ∀ va', translate m' root va' =
    if decide (page_of 1 va' = page_of 1 va) then Some (entry_frame v + va' `mod` page_span 1)
    else translate m root va'.
Proof.
  intros Hin Hw Hpr va'. rewrite !translate_xlate. unfold xlate.
  change (path_of 1 va) with ([idx va 4; idx va 3] ++ [idx va 2]) in Hw.
  destruct (walk_path_present _ _ _ _ _ Hw) as [A2 B2]. apply walk_prefix in Hw as (t2&Hw&_).
  change [idx va 4; idx va 3] with ([idx va 4] ++ [idx va 3]) in Hw.
  destruct (walk_path_present _ _ _ _ _ Hw) as [A3 B3]. apply walk_prefix in Hw as (t3&Hw&_).
  change [idx va 4] with ([] ++ [idx va 4]) in Hw.
  destruct (walk_path_present _ _ _ _ _ Hw) as [A4 B4].
  pose proof (idx_range va') as Hidx.
  rewrite !Hin; [|apply (path_of_ok 1 va')|apply Hidx|apply (path_of_ok 2 va')|apply Hidx
    |apply (path_of_ok 3 va')|apply Hidx|apply (path_of_ok 4 va')|apply Hidx].
  rewrite (decide_False (P := ([], idx va' 4) = _)) by done.
  rewrite (decide_False (P := ([idx va' 4], idx va' 3) = _)) by done.
  rewrite (decide_False (P := ([idx va' 4; idx va' 3], idx va' 2) = _)) by done.
  destruct (decide (page_of 1 va' = page_of 1 va)) as [Heq|Hne].
  - apply same_page_1 in Heq as (->&->&->&->). rewrite decide_True by done.
    by rewrite A4, B4, A3, B3, A2, B2, Hpr.
  - rewrite decide_False; [done|]. intros [= E4 E3 E2 E1]. apply Hne, same_page_1. done.
Qed.

Lemma translate_leaf_2 : installed (path_of 2 va) (idx va 2) v (pte m root) (pte m' root) →
  walk m root (path_of 2 va) = Some t → entry_present v = true → entry_huge v = true →
  ∀ va', translate m' root va' =
    if decide (page_of 2 va' = page_of 2 va) then Some (entry_frame v + va' `mod` page_span 2)
    else translate m root va'.
Proof.
  intros Hin Hw Hpr Hh va'. rewrite !translate_xlate. unfold xlate.
  change (path_of 2 va) with ([idx va 4] ++ [idx va 3]) in Hw.
  destruct (walk_path_present _ _ _ _ _ Hw) as [A3 B3]. apply walk_prefix in Hw as (t3&Hw&_).
  change [idx va 4] with ([] ++ [idx va 4]) in Hw.
  destruct (walk_path_present _ _ _ _ _ Hw) as [A4 B4].
  pose proof (idx_range va') as Hidx.
  rewrite !Hin; [|apply (path_of_ok 1 va')|apply Hidx|apply (path_of_ok 2 va')|apply Hidx
    |apply (path_of_ok 3 va')|apply Hidx|apply (path_of_ok 4 va')|apply Hidx].
  rewrite (decide_False (P := ([], idx va' 4) = _)) by done.
  rewrite (decide_False (P := ([idx va' 4], idx va' 3) = _)) by done.
  rewrite (decide_False (P := ([idx va' 4; idx va' 3; idx va' 2], idx va' 1) = _)) by done.
  destruct (decide (page_of 2 va' = page_of 2 va)) as [Heq|Hne].
  - apply same_page_2 in Heq as (->&->&->). rewrite decide_True by done.
    by rewrite A4, B4, A3, B3, Hpr, Hh.
  - rewrite decide_False; [done|]. intros [= E4 E3 E2]. apply Hne, same_page_2. done.
Qed.
End leaf.

(* --------------------------------------------------------------------- *)
(** ** What removing an entry does

    Seen backwards, the memory [m] before the removal is the memory [m'] after
    it with the entry installed. *)

Section remove.
Context {m m' : memory} {root : Z} {F : Z → Prop} {p : list Z} {i t v : Z}.
Hypothesis Hok : tree_ok m root F.
Hypothesis Hup : entry_update m' m root p i t v.
Hypothesis Hnew : load64 m' (t + 8 * i) = 0.

Lemma remove_rest q u j : path_ok q → index_ok j → walk m' root q = Some u → (q, j) ≠ (p, i) →
  load64 m' (u + 8 * j) = load64 m (u + 8 * j).
Proof. intros Hq Hj Hu Hne. symmetry. by apply (up_rest _ _ _ _ Hup q). Qed.

(** A leaf is taken out. *)
Lemma tree_remove_leaf : length p = 3%nat ∨ (entry_huge v = true ∧ p ≠ []) → tree_ok m' root F.
Proof.
  intros Hleaf. assert (∀ q, path_ok q → walk m root q = walk m' root q) as Hw by (apply (walk_leaf Hup); tauto).
  split; try apply Hok.
  - intros q u Hq. rewrite <-Hw by done. by apply Hok.
  - intros q q' u Hq Hq'. rewrite <-!Hw by done. by apply Hok.
  - intros j Hj. rewrite (remove_rest []); [by apply Hok|split; [simpl; lia|done]|done|done|].
    intros [= Hp _]. destruct Hleaf as [Hl|[_ Hl]]; [by rewrite <-Hp in Hl|congruence].
  - intros q u j Hq Hj Hu. destruct (decide ((q, j) = (p, i))) as [[= -> ->]|Hne].
    + rewrite (up_walk _ _ _ _ Hup) in Hu. injection Hu as <-. by rewrite Hnew.
    + rewrite (remove_rest q) by done. rewrite <-Hw in Hu by done. by eapply Hok.
Qed.

Lemma clean_remove_leaf : length p = 3%nat ∨ entry_huge v = true → tree_clean m root → tree_clean m' root.
Proof.
  intros Hleaf Hc q u j Hq Hj Hu. destruct (decide ((q, j) = (p, i))) as [[= -> ->]|Hne].
  - rewrite (up_walk _ _ _ _ Hup) in Hu. injection Hu as <-. by left.
  - rewrite (remove_rest q) by done. rewrite <-(walk_leaf Hup) in Hu by tauto. by eapply Hc.
Qed.

(** A table [f] without present entries is taken out. *)
Context {f : Z}.
Hypothesis Htab : entry_present v = true ∧ entry_huge v = false ∧ entry_frame v = f.
Hypothesis Hdead : dead m f.

Lemma remove_walk q u : path_ok q → walk m' root q = Some u → walk m root q = Some u ∧ q ≠ p ++ [i].
Proof.
  intros Hq Hu. assert (q ≠ p ++ [i]) as Hne.
  { intros ->. pose proof (walk_below Hup []) as Hb. rewrite app_nil_r in Hb. congruence. }
  split; [|done]. by rewrite (walk_other Hup Htab q Hdead).
Qed.

Lemma tree_remove_table : path_ok (p ++ [i]) → tree_ok m' root (λ u, F u ∧ u ≠ f).
Proof.
  intros Hpi. assert (walk m root (p ++ [i]) = Some f) as Hf.
  { rewrite <-(app_nil_r (p ++ [i])), (walk_table Hup Htab). done. }
  split; try apply Hok.
  - intros u [Hu _]. by apply Hok.
  - intros q u Hq Hu. destruct (remove_walk q u Hq Hu) as [Hw Hne].
    destruct (tr_tables _ _ _ Hok q u Hq Hw) as [?|?]; [by left|right]. split; [done|].
    intros ->. apply Hne. by apply (tr_inj _ _ _ Hok q (p ++ [i]) f).
  - intros q q' u Hq Hq' Hu Hu'. eapply (tr_inj _ _ _ Hok); [done|done|by apply remove_walk|by apply remove_walk].
  - intros j Hj. destruct (decide (([], j) = (p, i))) as [[= Hp Hij]|Hne].
    + pose proof (up_walk _ _ _ _ Hup) as Hw. rewrite <-Hp in Hw. injection Hw as ->. by rewrite Hij, Hnew.
    + rewrite (remove_rest []); [by apply Hok|split; [simpl; lia|done]|done..].
  - intros q u j Hq Hj Hu. destruct (decide ((q, j) = (p, i))) as [[= -> ->]|Hne].
    + rewrite (up_walk _ _ _ _ Hup) in Hu. injection Hu as <-. by rewrite Hnew.
    + rewrite (remove_rest q) by done. eapply (tr_width _ _ _ Hok); [done|done|by apply remove_walk].
Qed.

Lemma clean_remove_table : tree_clean m root → tree_clean m' root.
Proof.
  intros Hc q u j Hq Hj Hu. destruct (decide ((q, j) = (p, i))) as [[= -> ->]|Hne].
  - rewrite (up_walk _ _ _ _ Hup) in Hu. injection Hu as <-. by left.
  - rewrite (remove_rest q) by done. eapply Hc; [done|done|by apply remove_walk].
Qed.

(** Nothing was mapped below it. *)
Lemma translate_remove_table va : (length p <= 2)%nat → path_ok (p ++ [i]) →
  translate m root va = translate m' root va.
Proof.
  intros Hl Hpi. rewrite !translate_xlate. unfold xlate.
  pose proof (idx_range va) as Hidx. destruct entry_zero as [Z1 Z2].
  assert (∀ q j, path_ok q → index_ok j → q ≠ p ++ [i] → (q, j) ≠ (p, i) → pte m root q j = pte m' root q j) as Heq.
  { intros q j Hq Hj Hne Hne'. unfold pte. rewrite (walk_other Hup Htab q Hdead) by done.
    destruct (walk m' root q) as [u|] eqn:Hu; [|done]. by rewrite (remove_rest q). }
  assert (∀ j, index_ok j → entry_present (pte m root (p ++ [i]) j) = false) as Hd.
  { intros j Hj. rewrite (pte_walk _ _ _ _ f); [by apply Hdead|]. rewrite <-(app_nil_r (p ++ [i])), (walk_table Hup Htab). done. }
  assert (pte m' root p i = 0) as H0 by (rewrite (pte_walk _ _ _ _ _ (up_walk _ _ _ _ Hup)); done).
  assert (pte m root p i = v) as Hv by apply (pte_new Hup).
  destruct Htab as (Hpr&Hh&_).
  destruct (decide (([], idx va 4) = (p, i))) as [[= <- <-]|N4].
  { rewrite Hv, H0, Hpr, Hh. cbn [app] in Hd. by rewrite Hd. }
  rewrite (Heq [] (idx va 4)); [|apply (path_of_ok 4 va)|apply Hidx|by destruct p|done].
  case_match; [done|]. case_match; [done|].
  destruct (decide (([idx va 4], idx va 3) = (p, i))) as [[= <- <-]|N3].
  { rewrite Hv, H0, Hpr, Hh. cbn [app] in Hd. by rewrite Hd. }
  destruct (decide ([idx va 4] = p ++ [i])) as [He|Hne3].
  { exfalso. destruct p as [|? [|]]; [|done|done]. injection He as <-. by apply N4. }
  rewrite (Heq [idx va 4] (idx va 3)); [|apply (path_of_ok 3 va)|apply Hidx|done|done].
  case_match; [done|]. case_match; [done|].
  destruct (decide (([idx va 4; idx va 3], idx va 2) = (p, i))) as [[= <- <-]|N2].
  { rewrite Hv, H0, Hpr, Hh. cbn [app] in Hd. by rewrite Hd. }
  destruct (decide ([idx va 4; idx va 3] = p ++ [i])) as [He|Hne2].
  { exfalso. destruct p as [|? [|? [|]]]; [done| |done|done]. injection He as <- <-. by apply N3. }
  rewrite (Heq [idx va 4; idx va 3] (idx va 2)); [|apply (path_of_ok 2 va)|apply Hidx|done|done].
  case_match; [done|]. case_match; [done|].
  rewrite (Heq [idx va 4; idx va 3; idx va 2] (idx va 1)); [done|apply (path_of_ok 1 va)|apply Hidx| |].
  - intros He. destruct p as [|? [|? [|? [|]]]]; [done|done| |done|done]. injection He as <- <- <-. by apply N2.
  - intros [= <- _]. simpl in Hl. lia.
Qed.
End remove.

(** On the path of an unmapped address every entry is 0 or a table. *)
Lemma tree_unmapped_entry m root F va lv t : tree_ok m root F → tree_clean m root → (1 <= lv <= 4)%nat →
  translate m root va = None → walk m root (path_of lv va) = Some t →
  let e := load64 m (t + 8 * idx va (Z.of_nat lv)) in
  e = 0 ∨ ((1 < lv)%nat ∧ entry_present e = true ∧ entry_huge e = false).
Proof.
  intros Hok Hcl Hlv Hno Hw e.
  destruct (Hcl _ t (idx va (Z.of_nat lv)) (path_of_ok lv va) (idx_range _ _) Hw)
    as [?|Hpr]; [by left|right].
  rewrite translate_xlate in Hno. unfold xlate in Hno.
  destruct lv as [|[|[|[|[|]]]]]; try lia.
  - exfalso. change (path_of 1 va) with ([idx va 4; idx va 3] ++ [idx va 2]) in Hw.
    change [idx va 4; idx va 3; idx va 2] with ([idx va 4; idx va 3] ++ [idx va 2]) in Hno.
    rewrite (pte_walk _ _ _ (idx va 1) _ Hw) in Hno. change (Z.of_nat 1) with 1 in Hpr.
    destruct (walk_path_present _ _ _ _ _ Hw) as [A2 B2]. apply walk_prefix in Hw as (t2&Hw&_).
    change [idx va 4; idx va 3] with ([idx va 4] ++ [idx va 3]) in Hw.
    destruct (walk_path_present _ _ _ _ _ Hw) as [A3 B3]. apply walk_prefix in Hw as (t3&Hw&_).
    change [idx va 4] with ([] ++ [idx va 4]) in Hw.
    destruct (walk_path_present _ _ _ _ _ Hw) as [A4 B4].
    cbn [app] in *. by rewrite A4, B4, A3, B3, A2, B2, Hpr in Hno.
  - split; [lia|]. split; [done|]. subst e. change (Z.of_nat 2) with 2 in *.
    change (path_of 2 va) with ([idx va 4] ++ [idx va 3]) in Hw.
    change (path_of 2 va) with [idx va 4; idx va 3] in *.
    change [idx va 4; idx va 3] with ([idx va 4] ++ [idx va 3]) in Hno.
    rewrite (pte_walk _ _ _ (idx va 2) _ Hw) in Hno.
    destruct (walk_path_present _ _ _ _ _ Hw) as [A3 B3]. apply walk_prefix in Hw as (t3&Hw&_).
    change [idx va 4] with ([] ++ [idx va 4]) in Hw.
    destruct (walk_path_present _ _ _ _ _ Hw) as [A4 B4].
    cbn [app] in *. rewrite A4, B4, A3, B3, Hpr in Hno. by destruct (entry_huge _).
  - split; [lia|]. split; [done|]. subst e. change (Z.of_nat 3) with 3 in *.
    change (path_of 3 va) with ([] ++ [idx va 4]) in Hw.
    change [idx va 4] with ([] ++ [idx va 4]) in Hno.
    rewrite (pte_walk _ _ _ (idx va 3) _ Hw) in Hno.
    destruct (walk_path_present _ _ _ _ _ Hw) as [A4 B4].
    cbn [app] in *. rewrite A4, B4, Hpr in Hno. by destruct (entry_huge _).
  - split; [lia|]. split; [done|]. subst e. change (Z.of_nat 4) with 4 in *.
    cbn [path_of walk] in Hw. injection Hw as <-. apply Hok, idx_range.
Qed.

Lemma unmapped_entry m root lo hi va lv t : pt_ok m root lo hi → (1 <= lv <= 4)%nat →
  translate m root va = None → walk m root (path_of lv va) = Some t →
  let e := load64 m (t + 8 * idx va (Z.of_nat lv)) in
  e = 0 ∨ ((1 < lv)%nat ∧ entry_present e = true ∧ entry_huge e = false).
Proof. intros Hok. apply (tree_unmapped_entry _ _ _ _ _ _ (pt_tree _ _ _ _ Hok) (pt_clean _ _ _ _ Hok)). Qed.

(** A zeroed root translates nothing. *)
Lemma tree_ok_empty m root : (4096 | root) → 0 <= root → root + 4096 <= PA_LIMIT →
  (∀ j, index_ok j → load64 m (root + 8 * j) = 0) →
  tree_ok m root (λ _, False) ∧ tree_clean m root ∧ ∀ va, translate m root va = None.
Proof.
  intros Hal Hr0 Hr Hz.
  assert (∀ q, path_ok q → walk m root q = match q with [] => Some root | _ => None end) as Hw.
  { intros [|j q] [_ Hq]; [done|]. apply list.Forall_cons in Hq as [Hj _].
    simpl. unfold next_table. by rewrite Hz. }
  split; [|split].
  - split; [done|done| | | |].
    + intros q t Hq. rewrite Hw by done. destruct q; [|done]. intros [= <-]. by left.
    + intros q q' t Hq Hq'. rewrite !Hw by done. by destruct q, q'.
    + intros j Hj. by rewrite Hz.
    + intros q t j Hq Hj. rewrite Hw by done. destruct q; [|done]. intros [= <-]. by rewrite Hz.
  - intros q t j Hq Hj. rewrite Hw by done. destruct q; [|done]. intros [= <-]. left. by apply Hz.
  - intros va. rewrite translate_xlate. unfold xlate.
    rewrite (pte_walk _ _ [] _ root) by done. by rewrite Hz by apply idx_range.
Qed.

Lemma in_pool_bounds lo hi t : 0 < lo → hi <= PA_LIMIT → in_pool lo hi t →
  (4096 | t) ∧ 0 <= t ∧ t + 4096 <= PA_LIMIT.
Proof. intros ?? (?&?&?). split; [done|lia]. Qed.

Lemma pt_ok_empty m root lo : (4096 | root) → 0 <= root → root + 4096 <= PA_LIMIT →
  (4096 | lo) → 0 < lo <= PA_LIMIT → root + 4096 <= lo ∨ lo <= root →
  (∀ j, index_ok j → load64 m (root + 8 * j) = 0) →
  pt_ok m root lo lo ∧ ∀ va, translate m root va = None.
Proof.
  intros Hal Hr0 Hr Hlo Hl Hap Hz. destruct (tree_ok_empty m root Hal Hr0 Hr Hz) as (Ht&Hc&Hn).
  split; [|done]. split; [|done|split; [done|lia]|done].
  apply (tree_weaken _ _ _ _ Ht); [done|]. intros t. apply in_pool_bounds; lia.
Qed.

(** The pool may be larger than what the tree uses. *)
Lemma pt_ok_weaken m root lo hi hi' : pt_ok m root lo hi → hi <= hi' → (4096 | hi') → hi' <= PA_LIMIT →
  root + 4096 <= lo ∨ hi' <= root → pt_ok m root lo hi'.
Proof.
  intros Hok Hle Hal Hlim Hap. pose proof (pt_pool _ _ _ _ Hok). split; [|apply Hok|split; [done|lia]|done].
  apply (tree_weaken _ _ _ _ (pt_tree _ _ _ _ Hok)).
  - intros t (?&?&?). split; [done|]. split; [lia|done].
  - intros t. apply in_pool_bounds; lia.
Qed.

(** The tree and the translation depend on the tables only. *)
Section agree.
Context {m m' : memory} {root : Z} {F : Z → Prop}.
Hypothesis Hok : tree_ok m root F.
Hypothesis Hag : ∀ t, t = root ∨ F t → agree t (t + 4096) m m'.

Lemma tree_agree_load q t j : path_ok q → index_ok j → walk m root q = Some t →
  load64 m' (t + 8 * j) = load64 m (t + 8 * j).
Proof.
  intros Hq Hj Hw. symmetry. apply (load_agree 8). unfold index_ok in Hj.
  eapply agree_weaken; [apply Hag, (tr_tables _ _ _ Hok q t Hq Hw)|lia..].
Qed.

Lemma tree_agree_walk q : path_ok q → walk m' root q = walk m root q.
Proof.
  induction q as [|j q IH] using rev_ind; intros Hq; [done|].
  destruct (path_ok_snoc _ _ Hq) as (Hq0&Hj&_).
  rewrite !walk_snoc, IH by done. destruct (walk m root q) as [t|] eqn:Hw; [|done]. simpl.
  unfold next_table. by rewrite (tree_agree_load q t j).
Qed.

Lemma tree_agree_pte q j : path_ok q → index_ok j → pte m' root q j = pte m root q j.
Proof.
  intros Hq Hj. unfold pte. rewrite tree_agree_walk by done.
  destruct (walk m root q) as [t|] eqn:Ht; [by apply (tree_agree_load q)|done].
Qed.

Lemma tree_agree : tree_ok m' root F ∧ ∀ va, translate m' root va = translate m root va.
Proof.
  split.
  - split; [apply Hok|apply Hok|..].
    + intros q t Hq. rewrite tree_agree_walk by done. by apply Hok.
    + intros q q' t Hq Hq'. rewrite !tree_agree_walk by done. by apply Hok.
    + intros j Hj. rewrite (tree_agree_load []); [by apply Hok|split; [simpl; lia|done]|done..].
    + intros q t j Hq Hj. rewrite tree_agree_walk by done. intros Ht.
      rewrite (tree_agree_load q) by done. by eapply Hok.
  - intros va. rewrite !translate_xlate. unfold xlate. pose proof (idx_range va) as Hidx.
    by rewrite !tree_agree_pte; [|apply (path_of_ok 1 va)|apply Hidx|apply (path_of_ok 2 va)|apply Hidx
      |apply (path_of_ok 3 va)|apply Hidx|apply (path_of_ok 4 va)|apply Hidx].
Qed.

Lemma clean_agree : tree_clean m root → tree_clean m' root.
Proof.
  intros Hc q t j Hq Hj. rewrite tree_agree_walk by done. intros Ht.
  rewrite (tree_agree_load q) by done. by eapply Hc.
Qed.
End agree.

Definition tables_agree (root lo hi : Z) (m m' : memory) : Prop :=
  agree root (root + 4096) m m' ∧ agree lo hi m m'.

Lemma pt_ok_agree m m' root lo hi : pt_ok m root lo hi → tables_agree root lo hi m m' →
  pt_ok m' root lo hi ∧ ∀ va, translate m' root va = translate m root va.
Proof.
  intros Hok [H1 H2].
  assert (∀ t, t = root ∨ in_pool lo hi t → agree t (t + 4096) m m') as Hag.
  { intros t [->|(?&?&?)]; [done|]. eapply agree_weaken; [exact H2|lia..]. }
  destruct (tree_agree (pt_tree _ _ _ _ Hok) Hag) as [Ht Hx]. split; [|done].
  split; [done|apply (clean_agree (pt_tree _ _ _ _ Hok) Hag), Hok|apply Hok..].
Qed.
