(* ===== verification/VirtMem.v ===== *)
(** Memory accesses through the page tables.

    Once the kernel has left the boot stage, a pointer is a virtual address:
    the processor translates it with the tables that CR3 points to, as
    [Mmu.translate] does, and raises a page fault when there is no
    translation.  [vread] and [vwrite] are the loads and stores of such code;
    an access that faults ends the run in [Fault].  The tables are themselves
    bytes of the physical memory, so a store may change what later accesses
    see.  Translation caches are not modelled: the code invalidates the
    page it changes before it uses it again. *)
From S2P Require Import Prelude Memory Mmu.

(** The two halves of the 48-bit address space. *)
Definition canonical (va : Z) : bool :=
  ((0 <=? va) && (va <? 0x0000800000000000)) ||
  ((0xFFFF800000000000 <=? va) && (va <? 18446744073709551616)).

Definition va_to_pa (m : memory) (root va : Z) : option Z :=
  if canonical va then translate m root va else None.

(** The bytes at [va]; [None] is a page fault. *)
Fixpoint vload (n : nat) (m : memory) (root va : Z) : option Z :=
  match n with
  | O => Some 0
  | S n =>
      pa ← va_to_pa m root va;
      rest ← vload n m root (va + 1);
      Some (load8 m pa + 256 * rest)
  end.

(** The store takes its translations from [m0], the memory before it. *)
Fixpoint vstore (n : nat) (m0 : memory) (root va v : Z) (m : memory) : option memory :=
  match n with
  | O => Some m
  | S n =>
      pa ← va_to_pa m0 root va;
      vstore n m0 root (va + 1) (v / 256) (store8 pa v m)
  end.

(** A state that holds CR3. *)
Class HasRoot (T : Type) := root_of : T → Z.

Section access.
Context {T : Type} `{HasRoot T}.

Definition vread (n : nat) (va : Z) : M (world T) Z :=
  r ← gets (λ w, vload n (w_mem w) (root_of (w_st w)) va);
  of_option r.

Definition vwrite (n : nat) (va v : Z) : M (world T) unit :=
  r ← gets (λ w, vstore n (w_mem w) (root_of (w_st w)) va v (w_mem w));
  m ← of_option r;
  modify (λ w, World m (w_st w)).

End access.

(* ===================================================================== *)
(** ** Contiguous accesses *)

(** [n] bytes from [va] on are the bytes from [pa] on. *)
Definition reach (m : memory) (root va pa n : Z) : Prop :=
  ∀ k, 0 <= k < n → va_to_pa m root (va + k) = Some (pa + k).

Lemma reach_sub m root va pa n o n' : reach m root va pa n → 0 <= o → o + n' <= n →
  reach m root (va + o) (pa + o) n'.
Proof. intros Hr Ho Hn k Hk. rewrite <-!Z.add_assoc. apply Hr. lia. Qed.

Lemma vload_reach n m root va pa : reach m root va pa (Z.of_nat n) → vload n m root va = Some (load n m pa).
Proof.
  revert va pa. induction n as [|n IH]; intros va pa Hr; [done|].
  cbn [vload]. pose proof (Hr 0 ltac:(lia)) as H0. rewrite !Z.add_0_r in H0. rewrite H0. cbn [mbind option_bind].
  rewrite (IH _ (pa + 1)); [done|]. eapply reach_sub; [exact Hr|lia..].
Qed.

Lemma vstore_reach n m0 root va pa v m : reach m0 root va pa (Z.of_nat n) →
  vstore n m0 root va v m = Some (store n pa v m).
Proof.
  revert va pa v m. induction n as [|n IH]; intros va pa v m Hr; [done|].
  cbn [vstore]. pose proof (Hr 0 ltac:(lia)) as H0. rewrite !Z.add_0_r in H0. rewrite H0. cbn [mbind option_bind].
  rewrite (IH _ (pa + 1)); [done|]. eapply reach_sub; [exact Hr|lia..].
Qed.

Section wp_access.
Context {T : Type} `{HasRoot T}.

Lemma wp_vread n va pa (Q : Z → world T → Prop) w :
  reach (w_mem w) (root_of (w_st w)) va pa (Z.of_nat n) → Q (load n (w_mem w) pa) w → wp (vread n va) Q w.
Proof.
  intros Hr HQ. unfold vread. apply wp_bind, wp_gets. rewrite (vload_reach _ _ _ _ pa) by done.
  by eapply wp_of_option.
Qed.

Lemma wp_vwrite n va pa v (Q : unit → world T → Prop) w :
  reach (w_mem w) (root_of (w_st w)) va pa (Z.of_nat n) →
  Q () (World (store n pa v (w_mem w)) (w_st w)) → wp (vwrite n va v) Q w.
Proof.
  intros Hr HQ. unfold vwrite. apply wp_bind, wp_gets. rewrite (vstore_reach _ _ _ _ pa) by done.
  apply wp_bind. eapply wp_of_option; [done|]. by apply wp_modify.
Qed.

(** An access to an unmapped address faults. *)
Lemma vread_fault n va w : va_to_pa (w_mem w) (root_of (w_st w)) va = None → vread (S n) va w = Fault.
Proof. intros Hn. unfold vread, gets, mbind, M_bind. cbn [vload]. by rewrite Hn. Qed.

End wp_access.

(* ===================================================================== *)
(** ** Translation of the bytes of a page *)

Lemma div_offset va k d : (4096 | va) → 0 <= k < 4096 → (4096 | d) → 0 < d → (va + k) / d = va / d.
Proof.
  intros [x ->] Hk [y ->] Hd. rewrite (Z.mul_comm y), <-!Z.div_div by lia.
  rewrite Z.div_add_l, (Z.div_small k), Z.add_0_r, Z.div_mul by lia. done.
Qed.

Lemma mod_offset va k d : (4096 | va) → 0 <= k < 4096 → (4096 | d) → 0 < d → (va + k) `mod` d = va `mod` d + k.
Proof.
  intros Hva Hk Hdv Hd. rewrite !Z.mod_eq by lia. rewrite div_offset by done. lia.
Qed.

Lemma page_span_divide lv : 1 <= lv → (4096 | page_span lv) ∧ 0 < page_span lv.
Proof.
  intros Hlv. unfold page_span. split; [|apply pow2_pos; lia].
  replace (12 + 9 * (lv - 1)) with (9 * (lv - 1) + 12) by lia. rewrite Z.pow_add_r by lia. apply Z.divide_factor_r.
Qed.

Lemma idx_offset va k lv : (4096 | va) → 0 <= k < 4096 → 1 <= lv → idx (va + k) lv = idx va lv.
Proof.
  intros Hva Hk Hlv. unfold idx. destruct (page_span_divide lv Hlv) as [Hd H0]. unfold page_span in *.
  by rewrite div_offset.
Qed.

Lemma translate_offset m root va pa k : (4096 | va) → translate m root va = Some pa → 0 <= k < 4096 →
  translate m root (va + k) = Some (pa + k).
Proof.
  intros Hva Ht Hk. rewrite translate_xlate in *. unfold xlate in *.
  rewrite !idx_offset by (done || lia).
  destruct (page_span_divide 1 ltac:(lia)) as [D1 P1]. destruct (page_span_divide 2 ltac:(lia)) as [D2 P2].
  destruct (page_span_divide 3 ltac:(lia)) as [D3 P3].
  rewrite !mod_offset by done.
  repeat (case_match; simplify_eq; try done); f_equal; lia.
Qed.

Lemma canonical_offset va k : (4096 | va) → 0 <= k < 4096 → canonical (va + k) = canonical va.
Proof.
  intros [x ->] Hk. unfold canonical. apply eq_true_iff_eq.
  rewrite !orb_true_iff, !andb_true_iff, !Z.leb_le, !Z.ltb_lt. lia.
Qed.

(** A page reaches the frame that backs it. *)
Lemma reach_page m root va pa n : (4096 | va) → canonical va = true → translate m root va = Some pa →
  n <= 4096 → reach m root va pa n.
Proof.
  intros Hva Hc Ht Hn k Hk. unfold va_to_pa. rewrite canonical_offset, Hc by (done || lia).
  apply translate_offset; [done..|lia].
Qed.

(** Translations that are the same on the page reach the same bytes. *)
Lemma reach_same m m' root va pa n :
  (∀ k, 0 <= k < n → translate m' root (va + k) = translate m root (va + k)) →
  reach m root va pa n → reach m' root va pa n.
Proof. intros Hs Hr k Hk. unfold va_to_pa. rewrite Hs by done. by apply Hr. Qed.

(* ===================================================================== *)
(** ** Memories with the same bytes *)

#[export] Instance load64_proper : Proper ((≡@{memory}) ==> eq ==> eq) load64.
Proof. apply (load_proper 8). Qed.

#[export] Instance translate_from_proper lv : Proper ((≡@{memory}) ==> eq ==> eq ==> eq) (translate_from lv).
Proof.
  intros m m' Hm t ? <- va ? <-. revert t. induction lv as [|lv IH]; intros t; [done|].
  cbn [translate_from]. rewrite !IH. by rewrite !(load64_proper m m' Hm _ _ eq_refl).
Qed.

#[export] Instance translate_proper : Proper ((≡@{memory}) ==> eq ==> eq ==> eq) translate.
Proof. apply translate_from_proper. Qed.

#[export] Instance walk_proper : Proper ((≡@{memory}) ==> eq ==> eq ==> eq) walk.
Proof.
  intros m m' Hm t ? <- q ? <-. revert t. induction q as [|j q IH]; intros t; [done|].
  cbn [walk]. unfold next_table. rewrite (load64_proper m m' Hm _ _ eq_refl).
  destruct (_ && _); [apply IH|done].
Qed.

#[export] Instance va_to_pa_proper : Proper ((≡@{memory}) ==> eq ==> eq ==> eq) va_to_pa.
Proof. intros m m' Hm r ? <- va ? <-. unfold va_to_pa. by rewrite Hm. Qed.

#[export] Instance store_proper n : Proper (eq ==> eq ==> (≡@{memory}) ==> (≡@{memory})) (store n).
Proof.
  intros a ? <- v ? <-. revert a v. induction n as [|n IH]; intros a v m m' Hm; [done|].
  cbn [store]. apply IH. intros x. destruct (decide (a = x)) as [<-|Hne].
  - by rewrite !load8_store8_eq.
  - by rewrite !load8_store8_ne.
Qed.

#[export] Instance store64_proper : Proper (eq ==> eq ==> (≡@{memory}) ==> (≡@{memory})) store64.
Proof. apply (store_proper 8). Qed.

#[export] Instance fill_proper n : Proper (eq ==> eq ==> (≡@{memory}) ==> (≡@{memory})) (fill n).
Proof. intros a ? <- v ? <- m m' Hm x. rewrite !load8_fill. by case_decide. Qed.

Lemma load8_store n a v m x : load8 (store n a v m) x =
  if decide (a <= x < a + Z.of_nat n) then (v / 256 ^ (x - a)) `mod` 256 else load8 m x.
Proof.
  revert a v m. induction n as [|n IH]; intros a v m.
  - unfold store. by rewrite decide_False by lia.
  - change (store (S n) a v m) with (store n (a + 1) (v / 256) (store8 a v m)). rewrite IH.
    destruct (decide (x = a)) as [->|Hne].
    + rewrite decide_False, decide_True by lia. rewrite load8_store8_eq, Z.sub_diag. by rewrite Z.div_1_r.
    + rewrite load8_store8_ne by done. destruct (decide (a + 1 <= x < a + 1 + Z.of_nat n)) as [Hx|Hx].
      * rewrite decide_True by lia. rewrite Z.div_div by (lia || (apply Z.pow_pos_nonneg; lia)).
        f_equal. f_equal. replace (x - a) with (Z.succ (x - (a + 1))) by lia. rewrite Z.pow_succ_r by lia. done.
      * by rewrite decide_False by lia.
Qed.

Lemma store_twice n a u v m : store n a v (store n a u m) ≡ store n a v m.
Proof. intros x. rewrite !load8_store. by case_decide. Qed.

Lemma store_comm n n' a a' v v' m : a + Z.of_nat n <= a' ∨ a' + Z.of_nat n' <= a →
  store n a v (store n' a' v' m) ≡ store n' a' v' (store n a v m).
Proof. intros Hd x. rewrite !load8_store. repeat case_decide; done || lia. Qed.

Lemma store_fill_comm n n' a a' v v' m : a + Z.of_nat n <= a' ∨ a' + Z.of_nat n' <= a →
  store n a v (fill n' a' v' m) ≡ fill n' a' v' (store n a v m).
Proof. intros Hd x. rewrite !load8_fill, !load8_store, !load8_fill. repeat case_decide; done || lia. Qed.

(** A store of what is there already changes nothing. *)
Lemma store_same n a v m : load n m a = v → store n a v m ≡ m.
Proof.
  intros <- x. rewrite load8_store. case_decide as Hx; [|done].
  revert a Hx. induction n as [|n IH]; intros a Hx; [lia|].
  change (load (S n) m a) with (load8 m a + 256 * load n m (a + 1)).
  pose proof (load8_range m a) as H8.
  destruct (decide (x = a)) as [->|Hne].
  - rewrite Z.sub_diag, Z.div_1_r, Z.mul_comm, Z_mod_plus_full. by apply Z.mod_small.
  - replace (x - a) with (Z.succ (x - (a + 1))) by lia. rewrite Z.pow_succ_r by lia.
    rewrite <-Z.div_div by (lia || (apply Z.pow_pos_nonneg; lia)).
    rewrite Z.mul_comm, Z.div_add, (Z.div_small (load8 m a)), Z.add_0_l by lia. apply IH. lia.
Qed.
