(* ===== verification/MmPage.v ===== *)
(** Frames and page tables at run time, src/mm/mm_frame.c and src/mm/mm_page.c,
    and the start of the memory manager in src/mm/mm.c.

    This file holds the state and the operations.  After its bootstrap the
    code reaches physical memory only through a window: one page of virtual
    addresses whose table entry it points at the frame it wants to see
    ([mm_page_direct_access_setup]) and clears again
    ([mm_page_direct_access_reset]).  All accesses go through the tables
    ([vread], [vwrite]), so a forgotten window is a page fault of the model.
    The free frames are a list threaded through the frames themselves. *)
From S2P Require Import Prelude Memory MmCore Mmu VirtMem.
From S2P Require Vesa Pcie.

(** Addresses that the linker chooses. *)
Class VmLink := {
  _tab_4 : Z;
  _direct_tab_space : Z;
  _direct_tab_addr : Z;  (* &_direct_tab *)
  _early_frame_pool : Z;
  text_mm_early_bootstrap : Z; (* the function's address *)
  _test_direct_access_bytes : Z;
}.

(* ===================================================================== *)
(** ** Static variables *)

Record phy_mem_section_t := PhyMemSection { base : Z; len : Z }.

#[export] Instance phy_mem_section_inhabited : Inhabited phy_mem_section_t := populate (PhyMemSection 0 0).

Definition _PHY_MEM_SECTION_MAX : Z := 1024.
Definition _EARLY_FRAME_CAP : Z := 16 * 1024.
Definition FRAME_SIZE_4K : Z := 4 * 1024.
Definition FRAME_SIZE_2M : Z := 2 * 1024 * 1024.

(** mm_frame.c *)
Record frame_c := FrameC {
  _phy_mem_secs : list phy_mem_section_t;
  _phy_mem_sec_count : Z;
  _phy_mem_size : Z;
  _early_frame_count : Z;
  _is_early_stage : bool;
  _free_head : Z;
  _free_count : Z;
}.

(** mm_page.c *)
Record page_c := PageC {
  _early_map_end : Z;
  _direct_vadd : Z;
  _direct_tab : list Z;
  _direct_tab_entry : Z;
}.

(** mm.c, the CPU's CR3, and the drivers that mm_page.c asks. *)
Record vm := Vm {
  st_frame : frame_c;
  st_page : page_c;
  _kernel_start : Z;
  _kernel_end : Z;
  cr3 : Z;
  st_vesa : Vesa.vesa;
  st_pcie : Pcie.pcie;
}.

#[export] Instance vm_has_root : HasRoot vm := cr3.

Definition set_frame (f : frame_c) (s : vm) : vm :=
  Vm f (st_page s) (_kernel_start s) (_kernel_end s) (cr3 s) (st_vesa s) (st_pcie s).
Definition set_page (p : page_c) (s : vm) : vm :=
  Vm (st_frame s) p (_kernel_start s) (_kernel_end s) (cr3 s) (st_vesa s) (st_pcie s).
Definition set_kernel (a z : Z) (s : vm) : vm :=
  Vm (st_frame s) (st_page s) a z (cr3 s) (st_vesa s) (st_pcie s).
Definition set_cr3 (x : Z) (s : vm) : vm :=
  Vm (st_frame s) (st_page s) (_kernel_start s) (_kernel_end s) x (st_vesa s) (st_pcie s).
Definition set_vesa (v : Vesa.vesa) (s : vm) : vm :=
  Vm (st_frame s) (st_page s) (_kernel_start s) (_kernel_end s) (cr3 s) v (st_pcie s).
Definition set_pcie (p : Pcie.pcie) (s : vm) : vm :=
  Vm (st_frame s) (st_page s) (_kernel_start s) (_kernel_end s) (cr3 s) (st_vesa s) p.

Definition set_secs (l : list phy_mem_section_t) (n size : Z) (f : frame_c) : frame_c :=
  FrameC l n size (_early_frame_count f) (_is_early_stage f) (_free_head f) (_free_count f).
Definition set_early (n : Z) (b : bool) (f : frame_c) : frame_c :=
  FrameC (_phy_mem_secs f) (_phy_mem_sec_count f) (_phy_mem_size f) n b (_free_head f) (_free_count f).
Definition set_free (head count : Z) (f : frame_c) : frame_c :=
  FrameC (_phy_mem_secs f) (_phy_mem_sec_count f) (_phy_mem_size f) (_early_frame_count f) (_is_early_stage f)
    head count.

Definition set_map_end (x : Z) (p : page_c) : page_c :=
  PageC x (_direct_vadd p) (_direct_tab p) (_direct_tab_entry p).
Definition set_window (va : Z) (p : page_c) : page_c :=
  PageC (_early_map_end p) va (_direct_tab p) (_direct_tab_entry p).
Definition set_direct_tab (l : list Z) (p : page_c) : page_c :=
  PageC (_early_map_end p) (_direct_vadd p) l (_direct_tab_entry p).
Definition set_direct_entry (e : Z) (p : page_c) : page_c :=
  PageC (_early_map_end p) (_direct_vadd p) (_direct_tab p) e.

Abbreviation RM := (M (world vm)).

Definition fstatic {A} (f : frame_c → A) : RM A := static (λ s, f (st_frame s)).
Definition fset (f : frame_c → frame_c) : RM unit := static_set (λ s, set_frame (f (st_frame s)) s).
Definition pstatic {A} (f : page_c → A) : RM A := static (λ s, f (st_page s)).
Definition pset (f : page_c → page_c) : RM unit := static_set (λ s, set_page (f (st_page s)) s).
Definition vesa_call {A} (m : M (world Vesa.vesa) A) : RM A := within st_vesa set_vesa m.
Definition pcie_call {A} (m : M (world Pcie.pcie) A) : RM A := within st_pcie set_pcie m.

(** [mm_clean] and [mm_copy] of mm.c on virtual addresses. *)
Definition vm_clean (mem size : Z) : RM unit :=
  kernel_assert (0 <? size) ;;
  for_n (Z.to_nat size) 0 (λ i, vwrite 1 (mem + i)%u64 0).

Definition vm_copy (dest src copy_len : Z) : RM unit :=
  for_n (Z.to_nat copy_len) 0 (λ i,
    b ← vread 1 (src + i)%u64;
    vwrite 1 (dest + i)%u64 b).

Section vm.
Context `{VmLink}.

(* ===================================================================== *)
(** ** Table entries (mm_page.c) *)

Definition TAB_LEVEL_4 : Z := 4.
Definition TAB_LEVEL_3 : Z := 3.
Definition TAB_LEVEL_2 : Z := 2.
Definition TAB_LEVEL_1 : Z := 1.
Definition _TAB_LEVEL_LOWEST : Z := TAB_LEVEL_1.
Definition _TAB_LEVEL_HIGHEST : Z := TAB_LEVEL_4.
Definition _TAB_ENTRY_LEN : Z := 8.
Definition _TAB_ENTRY_COUNT : Z := 512.

(** Bits of [tab_entry_t]. *)
Definition BIT_PRESENT : Z := 0.
Definition BIT_WRITABLE : Z := 1.
Definition BIT_HUGE : Z := 7.

Definition _tab_entry_zero (entry : Z) : RM unit := vwrite 8 entry 0.

Definition _tab_entry_is_zero (entry : Z) : RM bool :=
  e ← vread 8 entry; mret (e =? 0).

Definition get_bit (entry bit : Z) : RM bool :=
  e ← vread 8 entry; mret (Z.testbit e bit).
Definition set_bit (entry bit : Z) : RM unit :=
  e ← vread 8 entry; vwrite 8 entry (Z.setbit e bit).

Definition _tab_entry_is_present (entry : Z) : RM bool := get_bit entry BIT_PRESENT.
Definition _tab_entry_is_huge (entry : Z) : RM bool := get_bit entry BIT_HUGE.

Definition _tab_entry_get_padd (ent : Z) : RM Z :=
  e ← vread 8 ent; mret (e & 0x0ffffffffffff000)%u64.

Definition check_page_size (level padd_size : Z) : RM unit :=
  if (level =? TAB_LEVEL_4) || (level =? TAB_LEVEL_1) then kernel_assert (padd_size =? PAGE_SIZE_4K)
  else if level =? TAB_LEVEL_2 then
    kernel_assert ((padd_size =? PAGE_SIZE_4K) || (padd_size =? PAGE_SIZE_2M))
  else if level =? TAB_LEVEL_3 then
    kernel_assert ((padd_size =? PAGE_SIZE_4K) || (padd_size =? PAGE_SIZE_1G))
  else kernel_panic "Invalid page table level".

Definition _tab_entry_init (e level : Z) (present write_ : bool) (padd padd_size : Z) : RM unit :=
  check_page_size level padd_size ;;
  kernel_assert (mm_align_check padd padd_size) ;;
  kernel_assert ((padd <=? VA_48_LOW_END) || (VA_48_HIGH_START <=? padd)) ;;
  vwrite 8 e padd ;;
  (if present then set_bit e BIT_PRESENT else mret ()) ;;
  (if write_ then set_bit e BIT_WRITABLE else mret ()) ;;
  (if (padd_size =? PAGE_SIZE_2M) || (padd_size =? PAGE_SIZE_1G) then set_bit e BIT_HUGE else mret ()).

Definition _tab_zero (entry : Z) : RM unit :=
  vm_clean entry (_TAB_ENTRY_LEN * _TAB_ENTRY_COUNT).

(** The loop leaves at the first entry that is not zero. *)
Definition _tab_is_zero (entry : Z) : RM bool :=
  kernel_assert (mm_align_check entry PAGE_SIZE_4K) ;;
  loop 513 (λ i,
    if i <? _TAB_ENTRY_COUNT then
      is_zero ← _tab_entry_is_zero (entry + 8 * i)%u64;
      mret (if is_zero : bool then inl (i + 1) else inr false)
    else mret (inr true)) 0.

Definition _tab_root_load (p4 : Z) : RM unit :=
  kernel_assert (mm_align_check p4 PAGE_SIZE_4K) ;;
  let val := (p4 & 0x000ffffffffff000)%u64 in
  static_set (set_cr3 val).

Definition _vadd_tab_index (va level : Z) : RM Z :=
  kernel_assert ((_TAB_LEVEL_LOWEST <=? level) && (level <=? _TAB_LEVEL_HIGHEST)) ;;
  let shift := ((level - 1) * 9 + 12)%u64 in
  let idx := ((va >> shift) & 0x1ff)%u64 in
  kernel_assert (idx <? _TAB_ENTRY_COUNT) ;;
  mret (u16 idx).

Definition _vadd_page_offset (va lv : Z) : RM Z :=
  if lv =? TAB_LEVEL_1 then mret (va & 0x0000000000000fff)%u64
  else if lv =? TAB_LEVEL_2 then mret (va & 0x00000000001fffff)%u64
  else kernel_panic "Invalid page table level".

(** [&tab[entry_idx]] for the table at virtual address [tab] *)
Definition entry_of (tab va lv : Z) : RM Z :=
  entry_idx ← _vadd_tab_index va lv;
  mret (tab + 8 * entry_idx)%u64.

(* ===================================================================== *)
(** ** The window *)

Definition mm_page_direct_access_setup (padd : Z) : RM Z :=
  kernel_assert (mm_align_check padd PAGE_SIZE_4K) ;;
  entry ← pstatic _direct_tab_entry;
  zero ← _tab_entry_is_zero entry;
  kernel_assert zero ;;
  entry ← pstatic _direct_tab_entry;
  _tab_entry_init entry TAB_LEVEL_1 true true padd PAGE_SIZE_4K ;;
  pstatic _direct_vadd.

Definition mm_page_direct_access_reset : RM unit :=
  entry ← pstatic _direct_tab_entry;
  present ← _tab_entry_is_present entry;
  kernel_assert present ;;
  _tab_entry_zero entry.

Definition _direct_access_is_reset : RM bool :=
  entry ← pstatic _direct_tab_entry;
  present ← _tab_entry_is_present entry;
  (if negb present then
    zero ← _tab_entry_is_zero entry;
    kernel_assert zero
   else mret ()) ;;
  mret (negb present).

(* ===================================================================== *)
(** ** Frames (mm_frame.c) *)

(** [None] is the return value false. *)
Definition mm_frame_alloc_early : RM (option Z) :=
  early ← fstatic _is_early_stage;
  kernel_assert early ;;
  cnt ← fstatic _early_frame_count;
  if cnt <? _EARLY_FRAME_CAP then
    let out := (_early_frame_pool + cnt * FRAME_SIZE_4K)%u64 in
    fset (λ f, set_early (cnt + 1)%u64 (_is_early_stage f) f) ;;
    mret (Some out)
  else mret None.

Definition mm_frame_alloc : RM (option Z) :=
  early ← fstatic _is_early_stage;
  kernel_assert (negb early) ;;
  head ← fstatic _free_head;
  if head =? 0 then mret None
  else
    kernel_assert (mm_align_check head FRAME_SIZE_4K) ;;
    free_head_va ← mm_page_direct_access_setup head;
    next ← vread 8 free_head_va;
    fset (λ f, set_free next (_free_count f - 1)%u64 f) ;;
    mm_page_direct_access_reset ;;
    mret (Some head).

Definition mm_frame_free (frame_va frame_pa : Z) : RM unit :=
  head ← fstatic _free_head;
  vwrite 8 frame_va head ;;
  fset (λ f, set_free frame_pa (_free_count f + 1)%u64 f).

Definition mm_frame_free_count : RM Z := fstatic _free_count.

Definition mm_pa_start : RM Z :=
  cnt ← fstatic _phy_mem_sec_count;
  kernel_assert (0 <? cnt) ;;
  secs ← fstatic _phy_mem_secs;
  sec ← array_get secs 0;
  mret (base sec).

Definition mm_pa_end : RM Z :=
  cnt ← fstatic _phy_mem_sec_count;
  kernel_assert (0 <? cnt) ;;
  secs ← fstatic _phy_mem_secs;
  sec ← array_get secs (cnt - 1);
  mret (base sec + len sec)%u64.

Definition mm_pa_range_valid (start end_ : Z) : RM bool :=
  cnt ← fstatic _phy_mem_sec_count;
  loop (S (Z.to_nat cnt)) (λ i,
    if i <? cnt then
      secs ← fstatic _phy_mem_secs;
      sec ← array_get secs i;
      let sec_start := base sec in
      let sec_end := (sec_start + len sec)%u64 in
      mret (if (sec_start <=? start) && (end_ <? sec_end) then inr true else inl (i + 1))
    else mret (inr false)) 0.

(** One 24-byte entry of the memory map: base 0, len 8, type 16, reserved 20. *)
Definition mmap_entry (ptr : Z) : RM unit :=
  sbase ← vread 8 ptr;
  slen ← vread 8 (ptr + 8)%u64;
  type ← vread 4 (ptr + 16)%u64;
  reserve ← vread 4 (ptr + 20)%u64;
  if type =? 1 then
    cnt ← fstatic _phy_mem_sec_count;
    kernel_assert (cnt <? _PHY_MEM_SECTION_MAX) ;;
    secs ← fstatic _phy_mem_secs;
    secs ← array_set secs cnt (PhyMemSection sbase slen);
    fset (λ f, set_secs secs (_phy_mem_sec_count f) (_phy_mem_size f) f) ;;
    (if 0 <? cnt then
      last ← array_get secs (cnt - 1);
      let last_end := (base last + len last)%u64 in
      kernel_assert (last_end <? sbase)
     else mret ()) ;;
    fset (λ f, set_secs secs (cnt + 1)%u64 (_phy_mem_size f + slen)%u64 f)
  else mret ().

Definition _bootstrap_mmap_info (ptr size : Z) : RM unit :=
  entry_size ← vread 4 ptr;
  entry_ver ← vread 4 (ptr + 4)%u64;
  kernel_assert (entry_ver =? 0) ;;
  kernel_assert (entry_size =? 24) ;;
  kernel_assert ((size - 8) mod entry_size =? 0)%u64 ;;
  let entry_cnt := ((size - 8) / entry_size)%u64 in
  fset (λ f, set_secs (_phy_mem_secs f) 0 0 f) ;;
  for_n (Z.to_nat entry_cnt) 0 (λ en, mmap_entry (ptr + 8 + 24 * en)%u64).

Definition mm_frame_early_bootstrap (mmap_info mmap_info_len : Z) : RM unit :=
  fset (λ f, set_early 0 (_is_early_stage f) f) ;;
  _bootstrap_mmap_info mmap_info mmap_info_len ;;
  fset (λ f, set_early (_early_frame_count f) true f).

Definition mm_frame_bootstrap : RM unit :=
  early ← fstatic _is_early_stage;
  kernel_assert early ;;
  fset (λ f, set_free UPTR_NULL 0 f) ;;
  fset (λ f, set_early (_early_frame_count f) false f).

(* ===================================================================== *)
(** ** Mapping (mm_page.c) *)

(** One level of [_map_early].  The local [ok] is unset ([None]) until a frame
    is asked for; the result is the next table, or [None] for the [break]. *)
Definition early_level (tab va lv : Z) (ok : option bool) : RM (option Z * option bool) :=
  entry ← entry_of tab va lv;
  present ← _tab_entry_is_present entry;
  ok ← (if negb present then
      zero ← _tab_entry_is_zero entry;
      kernel_assert zero ;;
      r ← mm_frame_alloc_early;
      match r with
      | Some frame =>
          kernel_assert (negb (frame =? NULL)) ;;
          _tab_entry_init entry lv true true frame PAGE_SIZE_4K ;;
          _tab_zero frame ;;
          mret (Some true)
      | None => mret (Some false)
      end
    else mret ok);
  if negb present && bool_decide (ok = Some false) then mret (None, ok)
  else
    tab ← _tab_entry_get_padd entry;
    mret (Some tab, ok).

(** Reading the unset [ok] is undefined behaviour. *)
Definition _map_early (va pa : Z) : RM bool :=
  kernel_assert (mm_align_check va PAGE_SIZE_2M) ;;
  kernel_assert (mm_align_check pa PAGE_SIZE_2M) ;;
  '(tab, ok) ← loop 3 (λ '(lv, tab, ok),
    if TAB_LEVEL_2 <? lv then
      '(r, ok) ← early_level tab va lv ok;
      mret (match r with Some tab => inl (lv - 1, tab, ok) | None => inr (tab, ok) end)
    else mret (inr (tab, ok))) (TAB_LEVEL_4, _tab_4, None);
  ok ← of_option ok;
  if ok : bool then
    entry ← entry_of tab va TAB_LEVEL_2;
    zero ← _tab_entry_is_zero entry;
    kernel_assert zero ;;
    _tab_entry_init entry TAB_LEVEL_2 true true pa PAGE_SIZE_2M ;;
    mret ok
  else mret ok.

(** A zeroed frame in hand; [None] when there is none left. *)
Definition spare_frame (frame_pa : Z) : RM (option Z) :=
  if frame_pa =? UPTR_NULL then
    r ← mm_frame_alloc;
    match r with
    | None => mret None
    | Some frame_pa =>
        frame_va ← mm_page_direct_access_setup frame_pa;
        _tab_zero frame_va ;;
        mm_page_direct_access_reset ;;
        mret (Some frame_pa)
    end
  else mret (Some frame_pa).

(** The table of the next level, and the frame still in hand. *)
Definition descend (va lv tab_pa frame_pa : Z) : RM (Z * Z) :=
  tab_va ← mm_page_direct_access_setup tab_pa;
  entry ← entry_of tab_va va lv;
  present ← _tab_entry_is_present entry;
  frame_pa ← (if negb present then
      zero ← _tab_entry_is_zero entry;
      kernel_assert zero ;;
      kernel_assert (negb (frame_pa =? UPTR_NULL)) ;;
      _tab_entry_init entry lv true true frame_pa PAGE_SIZE_4K ;;
      mret UPTR_NULL
    else mret frame_pa);
  tab_pa ← _tab_entry_get_padd entry;
  mm_page_direct_access_reset ;;
  mret (tab_pa, frame_pa).

(** After the loop: the level reached, the table there, the frame in hand, and
    whether a frame was missing. *)
Definition walk_down (va : Z) : RM (Z * Z * bool) :=
  loop 4 (λ '(lv, tab_pa, frame_pa),
    if TAB_LEVEL_1 <? lv then
      r ← spare_frame frame_pa;
      match r with
      | None => mret (inr (tab_pa, UPTR_NULL, false))
      | Some frame_pa =>
          '(tab_pa, frame_pa) ← descend va lv tab_pa frame_pa;
          mret (inl (lv - 1, tab_pa, frame_pa))
      end
    else mret (inr (tab_pa, frame_pa, true))) (TAB_LEVEL_4, _tab_4, UPTR_NULL).

Definition mm_page_map (va pa : Z) : RM bool :=
  kernel_assert (mm_align_check va PAGE_SIZE_4K) ;;
  kernel_assert (mm_align_check pa PAGE_SIZE_4K) ;;
  '(tab_pa, frame_pa, ok) ← walk_down va;
  reset ← _direct_access_is_reset;
  kernel_assert reset ;;
  (if ok : bool then
    tab_va ← mm_page_direct_access_setup tab_pa;
    entry ← entry_of tab_va va TAB_LEVEL_1;
    zero ← _tab_entry_is_zero entry;
    kernel_assert zero ;;
    _tab_entry_init entry TAB_LEVEL_1 true true pa PAGE_SIZE_4K ;;
    mm_page_direct_access_reset
   else mret ()) ;;
  (if negb (frame_pa =? UPTR_NULL) then
    frame_va ← mm_page_direct_access_setup frame_pa;
    mm_frame_free frame_va frame_pa ;;
    mm_page_direct_access_reset
   else mret ()) ;;
  mret ok.

(* ===================================================================== *)
(** ** Unmapping (mm_page.c) *)

(** One level of the way down of [_unmap]: [huge] and the address that the
    entry holds. *)
Definition unmap_level (va lv tab_pa : Z) : RM (bool * Z) :=
  entry_idx ← _vadd_tab_index va lv;
  tab_va_tmp ← mm_page_direct_access_setup tab_pa;
  let entry := (tab_va_tmp + 8 * entry_idx)%u64 in
  present ← _tab_entry_is_present entry;
  kernel_assert present ;;
  huge ← _tab_entry_is_huge entry;
  (if huge : bool then kernel_assert (lv =? TAB_LEVEL_2) else mret ()) ;;
  next ← _tab_entry_get_padd entry;
  mm_page_direct_access_reset ;;
  mret (huge, next).

(** [tab_pa] has an element per level and one for the page; the level where
    the walk ends, and whether a huge page ended it. *)
Definition unmap_walk (va : Z) : RM (Z * list Z * bool) :=
  loop 5 (λ '(lv, tab_pa, huge),
    if TAB_LEVEL_1 <=? lv then
      t ← array_get tab_pa lv;
      '(huge, next) ← unmap_level va lv t;
      tab_pa ← array_set tab_pa (lv - 1) next;
      mret (if huge : bool then inr (lv - 1, tab_pa, huge) else inl (lv - 1, tab_pa, huge))
    else mret (inr (lv, tab_pa, huge))) (TAB_LEVEL_4, <[4%nat := _tab_4]> (replicate 5 0), false).

(** Freeing the frames of the page. *)
Definition unmap_frames (va lv : Z) (size pa : Z) (huge free_frame : bool) : RM unit :=
  if lv =? TAB_LEVEL_1 then
    kernel_assert (size =? PAGE_SIZE_4K) ;;
    kernel_assert (negb huge) ;;
    kernel_assert (mm_align_check pa PAGE_SIZE_4K) ;;
    (if free_frame then mm_frame_free va pa else mret ())
  else if lv =? TAB_LEVEL_2 then
    kernel_assert (size =? PAGE_SIZE_2M) ;;
    kernel_assert huge ;;
    kernel_assert (mm_align_check pa PAGE_SIZE_2M) ;;
    (if free_frame then
      loop 513 (λ '(pa_freed, va_freed),
        if (pa_freed <? pa + PAGE_SIZE_2M)%u64 then
          mm_frame_free va_freed pa_freed ;;
          mret (inl ((pa_freed + PAGE_SIZE_4K)%u64, (va_freed + PAGE_SIZE_4K)%u64))
        else mret (inr ())) (pa, va)
     else mret ())
  else kernel_panic "Invalid page table level".

(** Clearing one entry on the way up: was it the last of its table? *)
Definition clear_level (va lv tab_pa : Z) : RM bool :=
  entry_idx ← _vadd_tab_index va lv;
  tab_va_tmp ← mm_page_direct_access_setup tab_pa;
  let entry := (tab_va_tmp + 8 * entry_idx)%u64 in
  _tab_entry_zero entry ;;
  tab_empty ← _tab_is_zero tab_va_tmp;
  (if tab_empty : bool then mm_frame_free tab_va_tmp tab_pa else mret ()) ;;
  mm_page_direct_access_reset ;;
  mret tab_empty.

Definition _unmap (va size : Z) (free_frame : bool) : RM Z :=
  kernel_assert (mm_align_check va size) ;;
  '(lv, tab_pa, huge) ← unmap_walk va;
  let lv := lv + 1 in
  kernel_assert ((lv =? TAB_LEVEL_1) || (lv =? TAB_LEVEL_2)) ;;
  p ← array_get tab_pa (lv - 1);
  off ← _vadd_page_offset va lv;
  let pa := (p + off)%u64 in
  unmap_frames va lv size pa huge free_frame ;;
  loop 5 (λ '(lv, tab_empty),
    if (tab_empty : bool) && (lv <=? TAB_LEVEL_4) then
      t ← array_get tab_pa lv;
      tab_empty ← clear_level va lv t;
      mret (inl (lv + 1, tab_empty))
    else mret (inr ())) (lv, true) ;;
  mret pa.

(** The entry is read after the window has been closed. *)
Definition vadd_get_padd (va : Z) : RM (option Z) :=
  '(present, lv, tab_pa) ← loop 5 (λ '(lv, tab_pa),
    if TAB_LEVEL_1 <=? lv then
      tab_va ← mm_page_direct_access_setup tab_pa;
      en ← entry_of tab_va va lv;
      mm_page_direct_access_reset ;;
      present ← _tab_entry_is_present en;
      if negb present then
        zero ← _tab_entry_is_zero en;
        kernel_assert zero ;;
        mret (inr (false, lv, tab_pa))
      else
        huge ← _tab_entry_is_huge en;
        kernel_assert (negb huge) ;;
        tab_pa ← _tab_entry_get_padd en;
        mret (inl (lv - 1, tab_pa))
    else mret (inr (true, lv, tab_pa))) (TAB_LEVEL_4, _tab_4);
  if present : bool then
    off ← _vadd_page_offset va lv;
    mret (Some (tab_pa + off)%u64)
  else mret None.

(* ===================================================================== *)
(** ** Bootstrap (mm_page.c, mm.c) *)

(** [(tab_entry_t * )_direct_tab_space + i * PAGE_SIZE_4K] counts entries. *)
Definition direct_tab_at (i : Z) : Z := (_direct_tab_space + _TAB_ENTRY_LEN * (i * PAGE_SIZE_4K))%u64.

(** One level of the path to the window. *)
Definition init_direct_level (va lv tab : Z) : RM Z :=
  en ← entry_of tab va lv;
  present ← _tab_entry_is_present en;
  kernel_assert (negb present) ;;
  zero ← _tab_entry_is_zero en;
  kernel_assert zero ;;
  let arr_idx := lv - 1 - 1 in
  tabs ← pstatic _direct_tab;
  tab ← array_get tabs arr_idx;
  _tab_entry_init en lv true true tab PAGE_SIZE_4K ;;
  _tab_zero tab ;;
  mret tab.

Definition _init_direct_access : RM unit :=
  pset (set_window VA_48_DIRECT_ACCESS_PAGE) ;;
  kernel_assert (mm_align_check _direct_tab_addr PAGE_SIZE_4K) ;;
  for_n 3 0 (λ i,
    tabs ← pstatic _direct_tab;
    tabs ← array_set tabs i (direct_tab_at i);
    pset (set_direct_tab tabs) ;;
    t ← array_get tabs i;
    kernel_assert (mm_align_check t PAGE_SIZE_4K)) ;;
  va ← pstatic _direct_vadd;
  loop 4 (λ '(lv, tab),
    if TAB_LEVEL_1 <? lv then
      tab ← init_direct_level va lv tab;
      mret (inl (lv - 1, tab))
    else mret (inr ())) (TAB_LEVEL_4, _tab_4) ;;
  en_idx ← _vadd_tab_index va TAB_LEVEL_1;
  tabs ← pstatic _direct_tab;
  tab ← array_get tabs (TAB_LEVEL_1 - 1);
  pset (set_direct_entry (tab + 8 * en_idx)%u64) ;;
  entry ← pstatic _direct_tab_entry;
  _tab_entry_zero entry.

(** [fuel] bounds the 2M pages below the end of memory. *)
Definition mm_page_early_bootstrap (fuel : nat) (kernel_start kernel_end : Z) : RM unit :=
  phy_start ← mm_pa_start;
  phy_end ← mm_pa_end;
  kernel_assert (phy_start <? kernel_start) ;;
  kernel_assert (kernel_end <? phy_end) ;;
  kernel_assert (kernel_start <? kernel_end) ;;
  _tab_zero _tab_4 ;;
  va ← loop fuel (λ va,
    if (va + PAGE_SIZE_2M <? phy_end)%u64 then
      ok ← _map_early va va;
      mret (if ok : bool then inl (va + PAGE_SIZE_2M)%u64 else inr va)
    else mret (inr va)) 0;
  pset (set_map_end va) ;;
  _tab_root_load _tab_4.

(** [stack_position] is the address of that local variable, where the stack
    stands when the function runs. *)
Definition _bootstrap_stack_memory (stack_position boot_stack_top boot_stack_bottom : Z) : RM unit :=
  loop 256 (λ page,
    if page <=? VA_48_STACK_BOTTOM then
      r ← mm_frame_alloc;
      match r with
      | Some frame_pa => _ ← mm_page_map page frame_pa; mret (inl (page + PAGE_SIZE_4K)%u64)
      | None => kernel_assert false ;; mret (inr ())
      end
    else mret (inr ())) VA_48_STACK_TOP ;;
  kernel_assert (mm_align_check boot_stack_bottom PAGE_SIZE_4K) ;;
  kernel_assert (mm_align_check boot_stack_top PAGE_SIZE_4K) ;;
  kernel_assert (boot_stack_top <? stack_position) ;;
  kernel_assert (stack_position <? boot_stack_bottom) ;;
  let stack_len := (boot_stack_bottom - stack_position)%u64 in
  kernel_assert (stack_len <? PAGE_SIZE_4K) ;;
  vm_copy (VA_48_STACK_BOTTOM - stack_len)%u64 stack_position stack_len.

(** [fuel] bounds the pages of the frame buffer. *)
Definition _bootstrap_vesa_frame_buffer (fuel : nat) (fb fb_len : Z) : RM unit :=
  kernel_assert (fb mod PAGE_SIZE_4K =? 0)%u64 ;;
  loop fuel (λ map_size,
    if map_size <? fb_len then
      ok ← mm_page_map (VA_48_FRAME_BUFFER + map_size)%u64 (fb + map_size)%u64;
      kernel_assert ok ;;
      mret (inl (map_size + PAGE_SIZE_4K)%u64)
    else mret (inr ())) 0 ;;
  vesa_call (Vesa.d_vesa_set_frame_buffer VA_48_FRAME_BUFFER).

(** [fuel] bounds the pages of one group. *)
Definition _bootstrap_pcie_cfg_space (fuel : nat) : RM unit :=
  cnt ← pcie_call Pcie.d_pcie_group_get_cnt;
  loop (S (Z.to_nat cnt)) (λ '(i, va),
    if i <? cnt then
      cfg_start ← pcie_call (Pcie.d_pcie_group_get_cfg_pa i);
      let cfg_end := (cfg_start + Pcie.d_pcie_group_get_cfg_len)%u64 in
      va ← loop fuel (λ '(va, pa),
        if pa <? cfg_end then
          kernel_assert (va <? VA_48_PCIE_CFG_END) ;;
          ok ← mm_page_map va pa;
          kernel_assert ok ;;
          mret (inl ((va + PAGE_SIZE_4K)%u64, (pa + PAGE_SIZE_4K)%u64))
        else mret (inr va)) (va, cfg_start);
      mret (inl (i + 1, va))
    else mret (inr ())) (0, VA_48_PCIE_CFG_START).

Definition _bootstrap_pa_inside_pcie_cfg_space (page : Z) : RM bool :=
  cnt ← pcie_call Pcie.d_pcie_group_get_cnt;
  loop (S (Z.to_nat cnt)) (λ i,
    if i <? cnt then
      cfg_start ← pcie_call (Pcie.d_pcie_group_get_cfg_pa i);
      let cfg_end := (cfg_start + Pcie.d_pcie_group_get_cfg_len)%u64 in
      mret (if (cfg_start <=? page) && (page <? cfg_end) then inr true else inl (i + 1))
    else mret (inr false)) 0.

(** Whether the frames of an early 2M page become free frames. *)
Definition early_page_free (unmap fb fb_len : Z) : RM bool :=
  valid ← mm_pa_range_valid unmap (unmap + PAGE_SIZE_2M)%u64;
  mret (valid && ((fb + fb_len <? unmap)%u64 || (fb + PAGE_SIZE_2M <? fb)%u64)).

(* ===================================================================== *)
(** ** Built-in tests (mm_page.c) *)

Definition _test_direct_access : RM unit :=
  for_n 4096 0 (λ i,
    va ← mm_page_direct_access_setup _test_direct_access_bytes;
    vwrite 1 (_test_direct_access_bytes + i)%u64 0xFE ;;
    b ← vread 1 (va + i)%u64;
    kernel_assert (b =? 0xFE) ;;
    mm_page_direct_access_reset).

Definition TEST_PAGES : nat := 10000.

Definition _test_paging : RM unit :=
  va_start ← mm_align_up 0xffffffbabeface00 PAGE_SIZE_4K;
  free_frames ← mm_frame_free_count;
  for_n TEST_PAGES 0 (λ i,
    let va := (va_start + i * PAGE_SIZE_4K)%u64 in
    r ← mm_frame_alloc;
    match r with
    | Some frame_pa => _ ← mm_page_map va frame_pa; mret ()
    | None => kernel_assert false
    end) ;;
  for_n TEST_PAGES 0 (λ k,
    let i := Z.of_nat TEST_PAGES - k in
    let va := (va_start + (i - 1) * PAGE_SIZE_4K)%u64 in
    _ ← _unmap va PAGE_SIZE_4K true;
    mret ()) ;;
  n ← mm_frame_free_count;
  kernel_assert (free_frames =? n).

(** [fuel] bounds the pages of the frame buffer, of a configuration space and
    of the early mapping. *)
Definition mm_page_bootstrap (fuel : nat)
    (kernel_start kernel_end boot_stack_bottom boot_stack_top stack_position : Z) : RM unit :=
  phy_end ← mm_pa_end;
  kernel_assert (kernel_start <? kernel_end) ;;
  _init_direct_access ;;
  _test_direct_access ;;
  fb ← vesa_call Vesa.d_vesa_get_frame_buffer;
  fb_len ← vesa_call Vesa.d_vesa_get_frame_buffer_len;
  kernel_assert (fb mod PAGE_SIZE_2M =? 0)%u64 ;;
  unmap ← mm_align_up (kernel_end + 1)%u64 PAGE_SIZE_2M;
  unmap ← loop fuel (λ unmap,
    if (unmap + PAGE_SIZE_2M <? phy_end)%u64 then
      inside ← _bootstrap_pa_inside_pcie_cfg_space unmap;
      (if negb inside then
        free_frame ← early_page_free unmap fb fb_len;
        _ ← _unmap unmap PAGE_SIZE_2M free_frame;
        mret ()
       else mret ()) ;;
      mret (inl (unmap + PAGE_SIZE_2M)%u64)
    else mret (inr unmap)) unmap;
  early_end ← pstatic _early_map_end;
  kernel_assert (unmap =? early_end) ;;
  _bootstrap_vesa_frame_buffer fuel fb fb_len ;;
  _bootstrap_pcie_cfg_space fuel ;;
  _bootstrap_stack_memory stack_position boot_stack_top boot_stack_bottom ;;
  _test_paging.

(** One ELF section header: type 4, addr 16, size 32. *)
Definition elf_entry (entry : Z) : RM unit :=
  type ← vread 4 (entry + 4)%u64;
  if negb (type =? 0) then
    addr ← vread 8 (entry + 16)%u64;
    size ← vread 8 (entry + 32)%u64;
    static_set (λ s, set_kernel (if addr <? _kernel_start s then addr else _kernel_start s) (_kernel_end s) s) ;;
    static_set (λ s, set_kernel (_kernel_start s)
      (if (_kernel_end s <? size + addr)%u64 then (size + addr)%u64 else _kernel_end s) s)
  else mret ().

Definition _bootstrap_kernel_elf_symbols (kernel_elf_info elf_info_len : Z) : RM unit :=
  sec_cnt ← vread 4 kernel_elf_info;
  sec_size ← vread 4 (kernel_elf_info + 4)%u64;
  static_set (set_kernel U64_MAX 0) ;;
  for_n (Z.to_nat sec_cnt) 0 (λ i, elf_entry (kernel_elf_info + 12 + i * sec_size)%u64) ;;
  start ← static _kernel_start;
  end_ ← static _kernel_end;
  kernel_assert ((end_ - start)%u64 <? 1024 * 1024 * 1024) ;;
  kernel_assert (text_mm_early_bootstrap <? end_) ;;
  kernel_assert (start <? text_mm_early_bootstrap) ;;
  valid ← mm_pa_range_valid start end_;
  kernel_assert valid.

Definition mm_early_bootstrap (fuel : nat) (kernel_elf_info elf_info_len mmap_info mmap_info_len : Z) : RM unit :=
  mm_frame_early_bootstrap mmap_info mmap_info_len ;;
  _bootstrap_kernel_elf_symbols kernel_elf_info elf_info_len ;;
  start ← static _kernel_start;
  end_ ← static _kernel_end;
  mm_page_early_bootstrap fuel start end_.

End vm.
