(* ===== verification/MmPageRep.v ===== *)
(** The window of the run-time page tables: its invariant and the rules of the
    accesses through it.

    [win_ok] says that CR3's tables are a tree, that the path to the window
    exists, that the window is shut (its entry is 0), and that the code can
    reach this entry at its own address.  [opened pa m] is the memory [m] with
    the window on the frame [pa]; the rules of this file reduce a run with the
    window open to what it does to the memory with the window shut. *)
From S2P Require Import Prelude Memory MmCore Mmu VirtMem MmPage.

Section rep.
Context `{VmLink}.

(** The window's page, and its entry in the level-1 table [dt]. *)
Abbreviation WIN := VA_48_DIRECT_ACCESS_PAGE.
Definition win_entry (dt : Z) : Z := dt + 8 * idx WIN 1.

Definition frame_ok (pa : Z) : Prop := (4096 | pa) ∧ 0 <= pa ∧ pa + 4096 <= PA_LIMIT.

Record win_ok (dt : Z) (F : Z → Prop) (m : memory) : Prop := {
  wo_tree : tree_ok m _tab_4 F;
  wo_walk : walk m _tab_4 (path_of 1 WIN) = Some dt;
  wo_shut : load64 m (win_entry dt) = 0;
  wo_ident : reach m _tab_4 (win_entry dt) (win_entry dt) 8;
}.

(** The memory with the window on [pa]. *)
Definition opened (dt pa : Z) (m : memory) : memory := store64 (win_entry dt) (pa + 3) m.

Lemma WIN_ok : (4096 | WIN) ∧ canonical WIN = true ∧ WIN + 4096 <= 18446744073709551616 ∧ 0 <= WIN.
Proof. split_and!; [by exists (WIN / 4096)|done..]. Qed.

Lemma win_entry_index : index_ok (idx WIN 1).
Proof. apply idx_range. Qed.

#[export] Instance opened_proper dt pa : Proper ((≡@{memory}) ==> (≡@{memory})) (opened dt pa).
Proof. intros m m' Hm. unfold opened. by rewrite Hm. Qed.

Lemma reach_proper m m' root va pa n : m ≡ m' → reach m root va pa n → reach m' root va pa n.
Proof. intros Hm Hr k Hk. rewrite <-Hm. by apply Hr. Qed.

(** Shutting the window. *)
Lemma opened_shut dt pa m : load64 m (win_entry dt) = 0 → store64 (win_entry dt) 0 (opened dt pa m) ≡ m.
Proof. intros H0. unfold opened, store64. rewrite store_twice. by apply store_same. Qed.

Lemma load_opened dt pa m n a : a + Z.of_nat n <= win_entry dt ∨ win_entry dt + 8 <= a →
  load n (opened dt pa m) a = load n m a.
Proof. intros Hd. unfold opened, store64. apply load_store_ne. lia. Qed.

Lemma opened_store dt pa m n a v : a + Z.of_nat n <= win_entry dt ∨ win_entry dt + 8 <= a →
  store n a v (opened dt pa m) ≡ opened dt pa (store n a v m).
Proof. intros Hd. unfold opened, store64. apply store_comm. lia. Qed.

Lemma opened_fill dt pa m n a v : a + Z.of_nat n <= win_entry dt ∨ win_entry dt + 8 <= a →
  opened dt pa (fill n a v m) ≡ fill n a v (opened dt pa m).
Proof. intros Hd. unfold opened, store64. apply store_fill_comm. lia. Qed.

(** An entry of a table, updated. *)
Lemma entry_update_store m F p i t v : tree_ok m _tab_4 F → path_ok p → index_ok i →
  walk m _tab_4 p = Some t → entry_present (load64 m (t + 8 * i)) = false → is_u64 v →
  entry_update m (store64 (t + 8 * i) v m) _tab_4 p i t v.
Proof.
  intros Hok Hp Hi Hw H0 Hv. split; [done..| |].
  - by apply load64_store64_eq.
  - intros q u j Hq Hj Hu Hne. apply load64_store64_ne.
    destruct (tree_disjoint Hok q p u t j i); try done; lia.
Qed.

(** Addresses of table entries stay within 64 bits. *)
Lemma entry_small m F q t j : tree_ok m _tab_4 F → path_ok q → index_ok j →
  walk m _tab_4 q = Some t → 0 <= t + 8 * j ∧ t + 8 * j + 8 <= PA_LIMIT.
Proof.
  intros Hok Hq Hj Hw. destruct (tree_range Hok q t Hq Hw) as (?&?&_). unfold index_ok in Hj. lia.
Qed.

Lemma frame_value pa x : frame_ok pa → 0 <= x < 4096 → is_u64 (pa + x) ∧ pa + x < 2 ^ 52 ∧ entry_frame (pa + x) = pa.
Proof.
  intros (Hd&H0&Hl) Hx. unfold PA_LIMIT in Hl. change (2 ^ 52) with 4503599627370496.
  unfold is_u64. split; [lia|]. split; [lia|]. apply entry_frame_eq; [|done|done].
  change (2 ^ 52) with 4503599627370496. lia.
Qed.

Lemma page_of_low va k : 0 <= k < 4096 → (4096 | va) → page_of 1 (va + k) = page_of 1 va.
Proof. intros Hk Hva. by apply (page_of_offset 1 va k). Qed.

Lemma page_mod va k : 0 <= k < 4096 → (4096 | va) → (va + k) `mod` page_span 1 = k.
Proof. intros Hk Hva. by apply (page_of_offset 1 va k). Qed.

(** Any value in the window's entry keeps the other translations. *)
Lemma window_other dt F m v va : win_ok dt F m → is_u64 v → page_of 1 va ≠ page_of 1 WIN →
  translate (store64 (win_entry dt) v m) _tab_4 va = translate m _tab_4 va.
Proof.
  intros Hok Hv Hne. rewrite !translate_xlate.
  eapply xlate_leaf_other; [|exact Hne]. eapply installed_leaf; [|by left].
  eapply entry_update_store; [apply Hok|apply (path_of_ok 1)|apply idx_range|apply Hok| |done].
  fold (win_entry dt). by rewrite (wo_shut _ _ _ Hok).
Qed.

(** The shut window translates nothing. *)
Lemma window_shut dt F m va : win_ok dt F m → page_of 1 va = page_of 1 WIN → translate m _tab_4 va = None.
Proof.
  intros Hok. eapply leaf_absent; [apply Hok|]. fold (win_entry dt). by rewrite (wo_shut _ _ _ Hok).
Qed.

Lemma reach_mapped m root va pa n k : reach m root va pa n → 0 <= k < n → translate m root (va + k) = Some (pa + k).
Proof. intros Hr Hk. specialize (Hr k Hk). unfold va_to_pa in Hr. by destruct (canonical _). Qed.

(** What can be reached with the window shut can be reached whatever its
    entry holds. *)
Lemma reach_window dt F m v va pa n : win_ok dt F m → is_u64 v → reach m _tab_4 va pa n →
  reach (store64 (win_entry dt) v m) _tab_4 va pa n.
Proof.
  intros Hok Hv Hr. eapply reach_same; [|exact Hr]. intros k Hk. eapply window_other; [done..|].
  intros Hp. pose proof (reach_mapped _ _ _ _ _ k Hr Hk) as Ht. by rewrite (window_shut dt F) in Ht.
Qed.

(** The open window. *)
Lemma opened_tree dt F m pa : win_ok dt F m → frame_ok pa →
  tree_ok (opened dt pa m) _tab_4 F ∧
  (∀ q, path_ok q → walk (opened dt pa m) _tab_4 q = walk m _tab_4 q) ∧
  ∀ va, translate (opened dt pa m) _tab_4 va =
    if decide (page_of 1 va = page_of 1 WIN) then Some (pa + va `mod` page_span 1) else translate m _tab_4 va.
Proof.
  intros Hok Hpa. destruct (frame_value pa 3 Hpa ltac:(lia)) as (Hv&Hwd&Hfr).
  assert (entry_present (pa + 3) = true) as Hpr.
  { destruct Hpa as (Hd&_). unfold entry_present. by rewrite testbit_frame by (done || lia). }
  assert (entry_update m (opened dt pa m) _tab_4 (path_of 1 WIN) (idx WIN 1) dt (pa + 3)) as Hup.
  { eapply entry_update_store; [apply Hok|apply (path_of_ok 1)|apply idx_range|apply Hok| |done].
    fold (win_entry dt). by rewrite (wo_shut _ _ _ Hok). }
  destruct (tree_install_leaf (wo_tree _ _ _ Hok) Hup Hwd) as [Ht Hin]; [by left|].
  split; [done|]. split; [apply (walk_leaf Hup); by left|].
  intros va. rewrite (translate_leaf_1 Hin (wo_walk _ _ _ Hok) Hpr). by rewrite Hfr.
Qed.

Lemma opened_reach dt F m pa : win_ok dt F m → frame_ok pa →
  reach (opened dt pa m) _tab_4 (win_entry dt) (win_entry dt) 8 ∧ reach (opened dt pa m) _tab_4 WIN pa 4096.
Proof.
  intros Hok Hpa. destruct WIN_ok as (Hd&Hc&_). split.
  - eapply reach_window; [done|apply (frame_value pa 3 Hpa); lia|apply Hok].
  - destruct (opened_tree dt F m pa Hok Hpa) as (_&_&Ht).
    apply reach_page; [done|done| |lia]. rewrite Ht, decide_True by done.
    pose proof (page_mod WIN 0 ltac:(lia) Hd) as Hz. rewrite Z.add_0_r in Hz. rewrite Hz. f_equal. lia.
Qed.

(** The invariant depends on the tables only. *)
Lemma win_ok_agree dt F m m' : win_ok dt F m → (∀ t, t = _tab_4 ∨ F t → agree t (t + 4096) m m') →
  win_ok dt F m'.
Proof.
  intros Hok Hag. destruct (tree_agree (wo_tree _ _ _ Hok) Hag) as [Ht Hx].
  assert (path_ok (path_of 1 WIN)) as Hp by apply (path_of_ok 1).
  split; [done| | |].
  - rewrite (tree_agree_walk (wo_tree _ _ _ Hok) Hag) by done. apply Hok.
  - unfold win_entry. rewrite (tree_agree_load (wo_tree _ _ _ Hok) Hag (path_of 1 WIN)); [apply Hok|done|apply idx_range|apply Hok].
  - eapply reach_same; [|apply Hok]. intros k Hk. apply Hx.
Qed.

Lemma win_ok_proper dt F m m' : m ≡ m' → win_ok dt F m → win_ok dt F m'.
Proof. intros Hm Hok. eapply win_ok_agree; [done|]. intros t _. by apply agree_equiv. Qed.

(* --------------------------------------------------------------------- *)
(** ** Entries written through the window *)

(** The entry [i] of the table [t] at path [p] is absent. *)
Record absent_entry (F : Z → Prop) (m : memory) (p : list Z) (i t : Z) : Prop := {
  ze_tree : tree_ok m _tab_4 F;
  ze_path : path_ok p;
  ze_index : index_ok i;
  ze_walk : walk m _tab_4 p = Some t;
  ze_absent : entry_present (load64 m (t + 8 * i)) = false;
}.

Lemma absent_entry_update F m p i t v : absent_entry F m p i t → is_u64 v →
  entry_update m (store64 (t + 8 * i) v m) _tab_4 p i t v.
Proof. intros [? ? ? ? ?] Hv. by eapply entry_update_store. Qed.

Lemma table_elsewhere F m p t f : tree_ok m _tab_4 F → path_ok p → walk m _tab_4 p = Some t →
  frame_ok f → ¬ F f → f ≠ _tab_4 → t + 4096 <= f ∨ f + 4096 <= t.
Proof.
  intros Hok Hp Hw (Hfd&_) HF Hr. destruct (tree_range Hok p t Hp Hw) as (_&_&Hd).
  assert (t ≠ f) as Hne by (destruct (tr_tables _ _ _ Hok p t Hp Hw) as [->|?]; [done|by intros ->]).
  destruct (decide (t + 4096 <= f)); [by left|]. destruct (decide (f + 4096 <= t)); [by right|]. exfalso.
  destruct (Z.lt_trichotomy t f) as [?|[?|?]]; [|done|].
  - apply Hne, (divide_close 4096); done || lia.
  - apply Hne. symmetry. apply (divide_close 4096); done || lia.
Qed.

(** The window's entry is in no frame that is not a table. *)
Lemma win_entry_outside dt F m f : win_ok dt F m → frame_ok f → ¬ F f → f ≠ _tab_4 →
  win_entry dt + 8 <= f ∨ f + 4096 <= win_entry dt.
Proof.
  intros Hok Hf HF Hr. pose proof (idx_range WIN 1) as Hi. unfold index_ok, win_entry in *.
  destruct (table_elsewhere F m (path_of 1 WIN) dt f (wo_tree _ _ _ Hok) (path_of_ok 1 WIN) (wo_walk _ _ _ Hok) Hf HF Hr); lia.
Qed.

(** A new table changes no translation. *)
Lemma table_update F m p i t f v : absent_entry F m p i t → (length p <= 2)%nat → is_u64 v →
  entry_present v = true ∧ entry_huge v = false ∧ entry_frame v = f → v < 2 ^ 52 →
  frame_ok f → ¬ F f → f ≠ _tab_4 → (∀ j, index_ok j → load64 m (f + 8 * j) = 0) →
  tree_ok (store64 (t + 8 * i) v m) _tab_4 (λ u, F u ∨ u = f) ∧
  (∀ va, translate (store64 (t + 8 * i) v m) _tab_4 va = translate m _tab_4 va) ∧
  walk (store64 (t + 8 * i) v m) _tab_4 (p ++ [i]) = Some f ∧
  (∀ q, path_ok q → q ≠ p ++ [i] → walk (store64 (t + 8 * i) v m) _tab_4 q = walk m _tab_4 q) ∧
  (tree_clean m _tab_4 → tree_clean (store64 (t + 8 * i) v m) _tab_4).
Proof.
  intros Hz Hl Hv Htab Hwd Hf HF Hr H0. pose proof (absent_entry_update _ _ _ _ _ v Hz Hv) as Hup.
  destruct Hz as [Hok Hp Hi Hw Hold].
  assert (∀ j, index_ok j → load64 (store64 (t + 8 * i) v m) (f + 8 * j) = 0) as Hzero.
  { intros j Hj. rewrite load64_store64_ne; [by apply H0|]. unfold index_ok in *.
    destruct (table_elsewhere F m p t f) as [?|?]; try done; lia. }
  destruct (tree_install_table Hok Hup Htab Hwd Hzero HF Hr) as (Ht&Hin&Hnew); [apply Hf..|].
  split; [done|]. split; [|split; [done|split]].
  - intros va. rewrite !translate_xlate. eapply xlate_table; [exact Hin|done| |done|done| |tauto].
    + by rewrite (pte_walk _ _ _ _ _ Hw).
    + intros j. apply pte_none. pose proof (walk_below Hup []) as Hb. by rewrite app_nil_r in Hb.
  - intros q Hq Hne. apply (walk_other Hup Htab); [apply (zero_dead Hzero)|done|done].
  - apply (clean_install_table Hup Htab Hzero).
Qed.

Lemma absent_entry_apart dt F m p i t : win_ok dt F m → absent_entry F m p i t →
  (p, i) ≠ (path_of 1 WIN, idx WIN 1) → t + 8 * i + 8 <= win_entry dt ∨ win_entry dt + 8 <= t + 8 * i.
Proof.
  intros Hok Hz Hne. unfold win_entry.
  destruct (tree_disjoint (ze_tree _ _ _ _ _ Hz) p (path_of 1 WIN) t dt i (idx WIN 1));
    try (apply Hz || apply Hok || apply (path_of_ok 1) || apply idx_range); auto; lia.
Qed.

Lemma walk_window_other dt F m p i t : win_ok dt F m → absent_entry F m p i t → path_of 1 WIN ≠ p ++ [i].
Proof.
  intros Hok Hz Heq. pose proof (wo_walk _ _ _ Hok) as Hw.
  rewrite Heq, walk_pte, (pte_walk _ _ _ _ _ (ze_walk _ _ _ _ _ Hz)), (ze_absent _ _ _ _ _ Hz) in Hw. done.
Qed.

(** The window stays in order when an absent entry is written: a value that is
    not present, ... *)
Lemma win_ok_absent dt F m p i t v : win_ok dt F m → absent_entry F m p i t →
  (p, i) ≠ (path_of 1 WIN, idx WIN 1) → is_u64 v → v < 2 ^ 52 → entry_present v = false → entry_huge v = false →
  win_ok dt F (store64 (t + 8 * i) v m) ∧ absent_entry F (store64 (t + 8 * i) v m) p i t ∧
  (∀ va, translate (store64 (t + 8 * i) v m) _tab_4 va = translate m _tab_4 va) ∧
  (∀ q, path_ok q → walk (store64 (t + 8 * i) v m) _tab_4 q = walk m _tab_4 q).
Proof.
  intros Hok Hz Hne Hv Hwd Hpr Hh. pose proof (absent_entry_apart _ _ _ _ _ _ Hok Hz Hne) as Hap.
  pose proof (absent_entry_update _ _ _ _ _ v Hz Hv) as Hup.
  destruct (tree_install_leaf (ze_tree _ _ _ _ _ Hz) Hup Hwd) as [Ht Hin]; [tauto|].
  assert (∀ q, path_ok q → walk (store64 (t + 8 * i) v m) _tab_4 q = walk m _tab_4 q) as Hw by (apply (walk_leaf Hup); tauto).
  assert (∀ va, translate (store64 (t + 8 * i) v m) _tab_4 va = translate m _tab_4 va) as Hx.
  { intros va. rewrite !translate_xlate. eapply xlate_absent; [exact Hin| |done].
    rewrite (pte_walk _ _ _ _ _ (ze_walk _ _ _ _ _ Hz)). apply Hz. }
  split; [|split; [|done]].
  - split; [done| | |].
    + rewrite Hw; [apply Hok|apply (path_of_ok 1)].
    + rewrite load64_store64_ne by lia. apply Hok.
    + eapply reach_same; [|apply Hok]. intros k Hk. apply Hx.
  - split; [done|apply Hz|apply Hz|rewrite Hw; apply Hz|]. by rewrite load64_store64_eq.
Qed.

(** ... a zeroed frame as a table, ... *)
Lemma win_ok_table dt F m p i t f v : win_ok dt F m → absent_entry F m p i t →
  (p, i) ≠ (path_of 1 WIN, idx WIN 1) → (length p <= 2)%nat → is_u64 v →
  entry_present v = true ∧ entry_huge v = false ∧ entry_frame v = f → v < 2 ^ 52 →
  frame_ok f → ¬ F f → f ≠ _tab_4 → (∀ j, index_ok j → load64 m (f + 8 * j) = 0) →
  win_ok dt (λ u, F u ∨ u = f) (store64 (t + 8 * i) v m).
Proof.
  intros Hok Hz Hne Hl Hv Htab Hwd Hf HF Hr H0.
  pose proof (absent_entry_apart _ _ _ _ _ _ Hok Hz Hne) as Hap.
  destruct (table_update F m p i t f v) as (Ht&Hx&_&Hw&_); try done.
  split; [done| | |].
  - rewrite Hw; [apply Hok|apply (path_of_ok 1)|by eapply walk_window_other].
  - rewrite load64_store64_ne by lia. apply Hok.
  - eapply reach_same; [|apply Hok]. intros k Hk. apply Hx.
Qed.

Lemma leaf_not_window va : page_of 1 va ≠ page_of 1 WIN → (path_of 1 va, idx va 1) ≠ (path_of 1 WIN, idx WIN 1).
Proof. intros Hpage Heq. apply Hpage, same_page_1. cbn [path_of] in Heq. by injection Heq as -> -> -> ->. Qed.

(** ... or a leaf for a page that is not the window's. *)
Lemma win_ok_leaf dt F m va t v : win_ok dt F m → absent_entry F m (path_of 1 va) (idx va 1) t →
  page_of 1 va ≠ page_of 1 WIN → is_u64 v → v < 2 ^ 52 →
  win_ok dt F (store64 (t + 8 * idx va 1) v m) ∧
  installed (path_of 1 va) (idx va 1) v (pte m _tab_4) (pte (store64 (t + 8 * idx va 1) v m) _tab_4).
Proof.
  intros Hok Hz Hpage Hv Hwd. pose proof (leaf_not_window va Hpage) as Hne.
  pose proof (absent_entry_apart _ _ _ _ _ _ Hok Hz Hne) as Hap.
  pose proof (absent_entry_update _ _ _ _ _ v Hz Hv) as Hup.
  destruct (tree_install_leaf (ze_tree _ _ _ _ _ Hz) Hup Hwd) as [Ht Hin]; [by left|].
  split; [|done]. split; [done| | |].
  - rewrite (walk_leaf Hup); [apply Hok|by left|apply (path_of_ok 1)].
  - rewrite load64_store64_ne by lia. apply Hok.
  - eapply reach_same; [|apply Hok]. intros k Hk. rewrite !translate_xlate.
    eapply xlate_leaf_other; [exact Hin|]. intros Hp.
    pose proof (reach_mapped _ _ _ _ _ k (wo_ident _ _ _ Hok) Hk) as Hm.
    rewrite (leaf_absent m _tab_4 va _ t) in Hm; [done|apply Hz|apply Hz|done].
Qed.

(* --------------------------------------------------------------------- *)
(** ** Table operations at a virtual address *)

Lemma wp_entry_value e a (Q : Z → world vm → Prop) w :
  reach (w_mem w) (cr3 (w_st w)) e a 8 → Q (load64 (w_mem w) a) w → wp (vread 8 e) Q w.
Proof. intros Hr HQ. eapply wp_vread; [exact Hr|exact HQ]. Qed.

Lemma wp_tab_entry_is_zero e a (Q : bool → world vm → Prop) w :
  reach (w_mem w) (cr3 (w_st w)) e a 8 → Q (load64 (w_mem w) a =? 0) w → wp (_tab_entry_is_zero e) Q w.
Proof. intros Hr HQ. unfold _tab_entry_is_zero. apply wp_bind. eapply wp_entry_value; [exact Hr|exact HQ]. Qed.

Lemma wp_get_bit e a bit (Q : bool → world vm → Prop) w :
  reach (w_mem w) (cr3 (w_st w)) e a 8 → Q (Z.testbit (load64 (w_mem w) a) bit) w → wp (get_bit e bit) Q w.
Proof. intros Hr HQ. unfold get_bit. apply wp_bind. eapply wp_entry_value; [exact Hr|exact HQ]. Qed.

Lemma wp_tab_entry_is_present e a (Q : bool → world vm → Prop) w :
  reach (w_mem w) (cr3 (w_st w)) e a 8 → Q (entry_present (load64 (w_mem w) a)) w →
  wp (_tab_entry_is_present e) Q w.
Proof. apply wp_get_bit. Qed.

Lemma wp_tab_entry_get_padd e a (Q : Z → world vm → Prop) w :
  reach (w_mem w) (cr3 (w_st w)) e a 8 → load64 (w_mem w) a < 2 ^ 52 →
  Q (entry_frame (load64 (w_mem w) a)) w → wp (_tab_entry_get_padd e) Q w.
Proof.
  intros Hr Hwd HQ. unfold _tab_entry_get_padd. apply wp_bind. eapply wp_entry_value; [exact Hr|].
  pose proof (load64_range (w_mem w) a). apply wp_ret. unfold uand. by rewrite wide_frame by lia.
Qed.

Lemma wp_tab_entry_zero e a (Q : unit → world vm → Prop) w :
  reach (w_mem w) (cr3 (w_st w)) e a 8 → Q () (World (store64 a 0 (w_mem w)) (w_st w)) →
  wp (_tab_entry_zero e) Q w.
Proof. intros Hr HQ. eapply wp_vwrite; [exact Hr|exact HQ]. Qed.

Lemma wp_set_bit e a bit (Q : unit → world vm → Prop) w :
  reach (w_mem w) (cr3 (w_st w)) e a 8 →
  Q () (World (store64 a (Z.setbit (load64 (w_mem w) a) bit) (w_mem w)) (w_st w)) →
  wp (set_bit e bit) Q w.
Proof.
  intros Hr HQ. unfold set_bit. apply wp_bind. eapply wp_entry_value; [exact Hr|].
  eapply wp_vwrite; [exact Hr|exact HQ].
Qed.

Lemma wp_vadd_tab_index va lv (Q : Z → world vm → Prop) w :
  1 <= lv <= 4 → Q (idx va lv) w → wp (_vadd_tab_index va lv) Q w.
Proof.
  intros Hlv HQ. unfold _vadd_tab_index. rewrite idx_code by done.
  unfold _TAB_LEVEL_LOWEST, _TAB_LEVEL_HIGHEST, TAB_LEVEL_1, TAB_LEVEL_4.
  pose proof (idx_range va lv) as Hi. unfold index_ok in Hi.
  apply wp_bind, wp_assert; [bsimp; lia|]. apply wp_bind, wp_assert; [unfold _TAB_ENTRY_COUNT; bsimp; lia|].
  apply wp_ret. unfold u16. by rewrite Z.mod_small by lia.
Qed.

(** A table or a 4K leaf is written in three stores. *)
Lemma wp_vm_entry_init e a lv padd (Q : unit → world vm → Prop) w :
  1 <= lv <= 4 → frame_ok padd → reach (w_mem w) (cr3 (w_st w)) e a 8 →
  reach (store64 a padd (w_mem w)) (cr3 (w_st w)) e a 8 →
  reach (store64 a (padd + 1) (w_mem w)) (cr3 (w_st w)) e a 8 →
  (∀ m, m ≡ store64 a (padd + 3) (w_mem w) → Q () (World m (w_st w))) →
  wp (_tab_entry_init e lv true true padd PAGE_SIZE_4K) Q w.
Proof.
  intros Hlv Hpa R0 R1 R2 HQ. pose proof Hpa as (Hd&Hp0&Hpl). unfold PA_LIMIT in Hpl.
  destruct (setbit_flags padd Hd) as (E1&E3&_).
  assert (∀ x, 0 <= x < 4096 → is_u64 (padd + x)) as H64 by (intros x Hx; apply frame_value; done).
  unfold _tab_entry_init, check_page_size, TAB_LEVEL_1, TAB_LEVEL_2, TAB_LEVEL_3, TAB_LEVEL_4. apply wp_bind.
  assert (∀ R : unit → world vm → Prop, R () w → wp (if (lv =? 4) || (lv =? 1)
   then kernel_assert (PAGE_SIZE_4K =? PAGE_SIZE_4K)
   else if lv =? 2 then kernel_assert ((PAGE_SIZE_4K =? PAGE_SIZE_4K) || (PAGE_SIZE_4K =? PAGE_SIZE_2M))
   else if lv =? 3 then kernel_assert ((PAGE_SIZE_4K =? PAGE_SIZE_4K) || (PAGE_SIZE_4K =? PAGE_SIZE_1G))
   else kernel_panic "Invalid page table level") R w) as Hchk.
  { intros R HR. assert (lv = 1 ∨ lv = 2 ∨ lv = 3 ∨ lv = 4) as [->|[->|[->| ->]]] by lia; by apply wp_assert. }
  apply Hchk. apply wp_bind, wp_assert; [apply Z.eqb_eq, Z.mod_divide; [done|exact Hd]|].
  apply wp_bind, wp_assert; [apply orb_true_iff; left; apply Z.leb_le; unfold VA_48_LOW_END; lia|].
  change (_ || _) with false. cbv iota.
  apply wp_bind; eapply wp_vwrite; [exact R0|]. change (store 8) with store64.
  apply wp_bind; eapply wp_set_bit; [exact R1|]. cbn [w_mem w_st].
  change BIT_PRESENT with 0. change BIT_WRITABLE with 1.
  rewrite load64_store64_eq by (rewrite <-(Z.add_0_r padd); apply H64; lia). rewrite E1.
  assert (store64 a (padd + 1) (store64 a padd (w_mem w)) ≡ store64 a (padd + 1) (w_mem w)) as T1
    by apply store_twice.
  apply wp_bind; eapply wp_set_bit; cbn [w_mem w_st].
  { eapply reach_proper; [|exact R2]. by symmetry. }
  rewrite load64_store64_eq by (apply H64; lia). rewrite <-E1, E3.
  apply wp_ret, HQ. rewrite E1, T1. apply store_twice.
Qed.

Lemma wp_entry_of tab va lv (Q : Z → world vm → Prop) w :
  1 <= lv <= 4 → 0 <= tab → tab + 4096 <= 18446744073709551616 → Q (tab + 8 * idx va lv) w →
  wp (entry_of tab va lv) Q w.
Proof.
  intros Hlv H0 Hl HQ. unfold entry_of. apply wp_bind, wp_vadd_tab_index; [done|]. apply wp_ret.
  pose proof (idx_range va lv) as Hi. unfold index_ok in Hi.
  u64_unfold. by rewrite (u64_small (8 * _)), u64_small by lia.
Qed.

(* --------------------------------------------------------------------- *)
(** ** Setting up, using and resetting the window *)

Record statics (dt : Z) (s : vm) : Prop := {
  sc_root : cr3 s = _tab_4;
  sc_vadd : _direct_vadd (st_page s) = WIN;
  sc_entry : _direct_tab_entry (st_page s) = win_entry dt;
}.

Lemma wp_setup dt F pa (Q : Z → world vm → Prop) w :
  statics dt (w_st w) → win_ok dt F (w_mem w) → frame_ok pa →
  (∀ m, m ≡ opened dt pa (w_mem w) → Q WIN (World m (w_st w))) →
  wp (mm_page_direct_access_setup pa) Q w.
Proof.
  intros Hs Hok Hpa HQ. pose proof (sc_root _ _ Hs) as Hr.
  assert (reach (w_mem w) (cr3 (w_st w)) (win_entry dt) (win_entry dt) 8) as R0 by (rewrite Hr; apply Hok).
  assert (∀ x, 0 <= x < 4096 →
    reach (store64 (win_entry dt) (pa + x) (w_mem w)) (cr3 (w_st w)) (win_entry dt) (win_entry dt) 8) as R1.
  { intros x Hx. rewrite Hr in *. eapply reach_window; [done|by apply frame_value|done]. }
  unfold mm_page_direct_access_setup. apply wp_bind, wp_assert; [apply Z.eqb_eq, Z.mod_divide; [done|apply Hpa]|].
  unfold pstatic. apply wp_bind, wp_static. rewrite (sc_entry _ _ Hs).
  apply wp_bind. eapply wp_tab_entry_is_zero; [exact R0|]. rewrite (wo_shut _ _ _ Hok).
  apply wp_bind, wp_assert; [done|]. apply wp_bind, wp_static. rewrite (sc_entry _ _ Hs).
  apply wp_bind. eapply wp_vm_entry_init; [done|done|exact R0| |apply R1; lia|].
  { rewrite <-(Z.add_0_r pa). apply R1. lia. }
  intros m Hm. apply wp_static. cbn [w_st]. rewrite (sc_vadd _ _ Hs). by apply HQ.
Qed.

Lemma wp_reset dt F m pa (Q : unit → world vm → Prop) w :
  statics dt (w_st w) → win_ok dt F m → frame_ok pa → w_mem w ≡ opened dt pa m →
  (∀ m', m' ≡ m → Q () (World m' (w_st w))) →
  wp mm_page_direct_access_reset Q w.
Proof.
  intros Hs Hl Hpa Hm HQ. pose proof (sc_root _ _ Hs) as Hr.
  assert (reach (w_mem w) (cr3 (w_st w)) (win_entry dt) (win_entry dt) 8) as R0.
  { rewrite Hr. eapply reach_proper; [symmetry; exact Hm|]. by eapply opened_reach. }
  unfold mm_page_direct_access_reset, pstatic. apply wp_bind, wp_static. rewrite (sc_entry _ _ Hs).
  apply wp_bind. eapply wp_tab_entry_is_present; [exact R0|].
  rewrite Hm. unfold opened at 1. rewrite load64_store64_eq by (apply (frame_value pa 3 Hpa); lia).
  apply wp_bind, wp_assert; [unfold entry_present; rewrite testbit_frame; [done|apply Hpa|lia]|].
  eapply wp_tab_entry_zero; [exact R0|]. apply HQ. rewrite Hm. eapply opened_shut, Hl.
Qed.

Lemma reach_win dt F m pa w o n : statics dt (w_st w) → win_ok dt F m → frame_ok pa → w_mem w ≡ opened dt pa m →
  0 <= o → o + n <= 4096 → reach (w_mem w) (cr3 (w_st w)) (WIN + o) (pa + o) n.
Proof.
  intros Hs Hl Hpa Hm Ho Hn. rewrite (sc_root _ _ Hs). eapply reach_proper; [symmetry; exact Hm|].
  eapply reach_sub; [by eapply opened_reach|done|done].
Qed.

Lemma is_reset_ok dt F (Q : bool → world vm → Prop) w :
  statics dt (w_st w) → win_ok dt F (w_mem w) → Q true w → wp _direct_access_is_reset Q w.
Proof.
  intros Hs Hok HQ. pose proof (sc_root _ _ Hs) as Hr.
  assert (reach (w_mem w) (cr3 (w_st w)) (win_entry dt) (win_entry dt) 8) as R0 by (rewrite Hr; apply Hok).
  unfold _direct_access_is_reset, pstatic. apply wp_bind, wp_static. rewrite (sc_entry _ _ Hs).
  apply wp_bind. eapply wp_tab_entry_is_present; [exact R0|]. rewrite (wo_shut _ _ _ Hok).
  change (entry_present 0) with false. apply wp_bind, wp_bind.
  eapply wp_tab_entry_is_zero; [exact R0|]. rewrite (wo_shut _ _ _ Hok). apply wp_assert; [done|]. by apply wp_ret.
Qed.

End rep.
