(* ===== verification/MmPageFrames.v ===== *)
(** The window and the frame allocator of src/mm/mm_frame.c, proved.

    [vm_ok dt F l w] is the invariant of the run-time paging state: [dt] is
    the table that holds the window's entry, [F] the frames that are tables
    besides the root, and [l] the free frames in the order in which they will
    be handed out. *)
From S2P Require Import Prelude Memory MmCore Mmu VirtMem MmPage.
From S2P Require Import MmPageRep.

Section frames.
Context `{VmLink}.

Abbreviation WIN := VA_48_DIRECT_ACCESS_PAGE.

(** The free frames, linked from [h] through their first words. *)
Fixpoint chain (m : memory) (h : Z) (l : list Z) : Prop :=
  match l with
  | [] => h = 0
  | f :: l => h = f ∧ chain m (load64 m f) l
  end.

Record vm_ok (dt : Z) (F : Z → Prop) (l : list Z) (w : world vm) : Prop := {
  vo_static : statics dt (w_st w);
  vo_stage : _is_early_stage (st_frame (w_st w)) = false;
  vo_win : win_ok dt F (w_mem w);
  vo_clean : tree_clean (w_mem w) _tab_4;
  vo_chain : chain (w_mem w) (_free_head (st_frame (w_st w))) l;
  vo_count : _free_count (st_frame (w_st w)) = u64 (Z.of_nat (length l));
  vo_frames : ∀ f, f ∈ l → frame_ok f ∧ f ≠ 0 ∧ ¬ F f ∧ f ≠ _tab_4;
  vo_nodup : NoDup l;
}.

Lemma chain_agree m m' h l : (∀ f, f ∈ l → agree f (f + 8) m m') → chain m h l → chain m' h l.
Proof.
  revert h. induction l as [|f l IH]; intros h Hag; [done|]. cbn [chain]. intros [-> Hc].
  split; [done|]. assert (load64 m f = load64 m' f) as <- by (apply (load_agree 8), Hag; by left).
  apply IH; [|done]. intros g Hg. apply Hag. by right.
Qed.

Lemma chain_proper m m' h l : m ≡ m' → chain m h l → chain m' h l.
Proof. intros Hm. apply chain_agree. intros f _. by apply agree_equiv. Qed.

(** Only the bytes of the memory matter. *)
Lemma vm_ok_proper dt F l m m' s : m ≡ m' → vm_ok dt F l (World m s) → vm_ok dt F l (World m' s).
Proof.
  intros Hm [? ? Hw Hc ? ? ? ?]. cbn [w_mem w_st] in *. split; cbn [w_mem w_st]; try done.
  - by eapply win_ok_proper.
  - eapply clean_agree; [apply (wo_tree _ _ _ Hw)|intros t _; by apply agree_equiv|done].
  - by eapply chain_proper.
Qed.

Lemma statics_set_frame dt f s : statics dt s → statics dt (set_frame f s).
Proof. by intros []; split. Qed.

(** Distinct frames do not overlap. *)
Lemma frames_apart f g : frame_ok f → frame_ok g → f ≠ g → f + 4096 <= g ∨ g + 4096 <= f.
Proof.
  intros (Hf&_) (Hg&_) Hne. destruct (decide (f + 4096 <= g)); [by left|].
  destruct (decide (g + 4096 <= f)); [by right|]. exfalso. destruct (Z.lt_trichotomy f g) as [?|[?|?]]; [|done|].
  - apply Hne, (divide_close 4096); done || lia.
  - apply Hne. symmetry. apply (divide_close 4096); done || lia.
Qed.

(** C29: while the window is open on a frame its page shows that frame and
    every other address is translated as before; closing it restores the
    memory and the statics exactly. *)
Theorem direct_access_ok dt F l w pa (Hok : vm_ok dt F l w) (Hpa : frame_ok pa) :
  wp (mm_page_direct_access_setup pa) (λ va w1,
    va = VA_48_DIRECT_ACCESS_PAGE ∧ w_st w1 = w_st w ∧
    (∀ va', translate (w_mem w1) _tab_4 va' =
      if decide (page_of 1 va' = page_of 1 VA_48_DIRECT_ACCESS_PAGE) then Some (pa + va' `mod` 4096)
      else translate (w_mem w) _tab_4 va') ∧
    wp mm_page_direct_access_reset (λ _ w2, w_mem w2 ≡ w_mem w ∧ w_st w2 = w_st w) w1) w.
Proof.
  pose proof (vo_win _ _ _ _ Hok) as Hwin.
  eapply wp_setup; [apply Hok|exact Hwin|done|]. intros m Hm.
  split; [done|]. split; [done|]. cbn [w_mem w_st]. split.
  - intros va'. rewrite Hm. apply (opened_tree dt F); done.
  - eapply (wp_reset dt F (w_mem w) pa); [apply Hok|done|done|done|].
    intros m' Hm'. split; [done|done].
Qed.

(** Taking a frame. *)
Lemma wp_mm_frame_alloc dt F l w (Q : option Z → world vm → Prop) : vm_ok dt F l w →
  match l with
  | [] => Q None w
  | f :: l' => ∀ m s, vm_ok dt F l' (World m s) → m ≡ w_mem w →
      s = set_frame (set_free (_free_head (st_frame s)) (_free_count (st_frame s)) (st_frame (w_st w))) (w_st w) →
      Q (Some f) (World m s)
  end → wp mm_frame_alloc Q w.
Proof.
  intros Hok HQ. pose proof (vo_win _ _ _ _ Hok) as Hwin. pose proof (vo_chain _ _ _ _ Hok) as Hc.
  unfold mm_frame_alloc, fstatic. apply wp_bind, wp_static. rewrite (vo_stage _ _ _ _ Hok).
  apply wp_bind, wp_assert; [done|]. apply wp_bind, wp_static. destruct l as [|f l].
  - cbn [chain] in Hc. rewrite Hc. by apply wp_ret.
  - cbn [chain] in Hc. destruct Hc as [Hh Hc]. rewrite Hh.
    destruct (vo_frames _ _ _ _ Hok f) as (Hf&Hf0&HF&Hr); [by left|].
    rewrite (proj2 (Z.eqb_neq f 0)) by done.
    apply wp_bind, wp_assert; [apply Z.eqb_eq, Z.mod_divide; [done|apply Hf]|].
    apply wp_bind. eapply wp_setup; [apply Hok|exact Hwin|done|]. intros m Hm.
    apply wp_bind. eapply wp_vread.
    { rewrite <-(Z.add_0_r WIN). eapply (reach_win dt F (w_mem w) f (World m (w_st w)) 0); [apply Hok|done..]. }
    cbn [w_mem w_st]. rewrite Z.add_0_r. change (load 8) with load64.
    assert (load64 m f = load64 (w_mem w) f) as Hnext.
    { rewrite Hm. apply load_opened. destruct (win_entry_outside dt F (w_mem w) f Hwin Hf HF Hr); lia. }
    rewrite Hnext. unfold fset. apply wp_bind, wp_static_set. cbn [w_mem w_st].
    apply wp_bind. eapply (wp_reset dt F (w_mem w) f); cbn [w_mem w_st]; [apply statics_set_frame, Hok|done|done|done|].
    intros m' Hm'. cbn [w_st]. apply wp_ret, HQ; [|done|done].
    pose proof (vo_nodup _ _ _ _ Hok) as [_ Hnd]%list.NoDup_cons.
    split; cbn [w_mem w_st]; try done.
    + apply statics_set_frame, Hok.
    + apply Hok.
    + by eapply win_ok_proper; [symmetry|].
    + eapply clean_agree; [apply (wo_tree _ _ _ Hwin)|intros t _; apply agree_equiv; by symmetry|apply Hok].
    + by eapply chain_proper; [symmetry|].
    + cbn. rewrite (vo_count _ _ _ _ Hok). change (length (f :: l)) with (S (length l)).
      u64_unfold. unfold u64. rewrite Zminus_mod_idemp_l. f_equal. lia.
    + intros g Hg. apply (vo_frames _ _ _ _ Hok). by right.
Qed.

(** The head and count of the free list, changed. *)
Definition with_free (h n : Z) (s : vm) : vm := set_frame (set_free h n (st_frame s)) s.

(** Putting a frame back through an address that reaches it. *)
Lemma wp_mm_frame_free_raw va f (Q : unit → world vm → Prop) w :
  reach (w_mem w) (cr3 (w_st w)) va f 8 →
  Q () (World (store64 f (_free_head (st_frame (w_st w))) (w_mem w))
    (with_free f (_free_count (st_frame (w_st w)) + 1)%u64 (w_st w))) →
  wp (mm_frame_free va f) Q w.
Proof.
  intros Hr HQ. unfold mm_frame_free, fstatic, fset. apply wp_bind, wp_static.
  apply wp_bind. eapply wp_vwrite; [exact Hr|]. by apply wp_static_set.
Qed.

(** A frame that is no table and not free yet. *)
Record spare (F : Z → Prop) (l : list Z) (f : Z) : Prop := {
  sp_frame : frame_ok f;
  sp_null : f ≠ 0;
  sp_table : ¬ F f;
  sp_root : f ≠ _tab_4;
  sp_new : f ∉ l;
}.

(** A store inside a spare frame keeps the invariant. *)
Lemma spare_agree dt F l w f m' : vm_ok dt F l w → spare F l f →
  (∀ a, ¬ (f <= a < f + 4096) → load8 m' a = load8 (w_mem w) a) → vm_ok dt F l (World m' (w_st w)).
Proof.
  intros Hok Hs Hm. destruct Hok as [? ? Hwin Hcl Hc ? Hfr ?].
  assert (∀ t, t = _tab_4 ∨ F t → agree t (t + 4096) (w_mem w) m') as Hag.
  { intros t Ht a Ha. symmetry. apply Hm.
    assert (frame_ok t) as Hft.
    { destruct Ht as [->|Ht]; [apply (tr_root _ _ _ (wo_tree _ _ _ Hwin))|by apply (tr_frame _ _ _ (wo_tree _ _ _ Hwin))]. }
    destruct (frames_apart f t); [apply Hs|done| |lia|lia].
    intros ->. destruct Ht as [Ht|Ht]; [by apply (sp_root _ _ _ Hs)|by apply (sp_table _ _ _ Hs)]. }
  split; cbn [w_mem w_st]; try done.
  - by eapply win_ok_agree.
  - by apply (clean_agree (wo_tree _ _ _ Hwin) Hag).
  - eapply chain_agree; [|done]. intros g Hg a Ha. symmetry. apply Hm.
    destruct (frames_apart f g); [apply Hs|by apply Hfr| |lia|lia].
    intros ->. by apply (sp_new _ _ _ Hs).
Qed.

Lemma vm_ok_push dt F l w f m n : vm_ok dt F l w → spare F l f →
  (∀ a, ¬ (f <= a < f + 4096) → load8 m a = load8 (w_mem w) a) →
  load64 m f = _free_head (st_frame (w_st w)) → n = (_free_count (st_frame (w_st w)) + 1)%u64 →
  vm_ok dt F (f :: l) (World m (with_free f n (w_st w))).
Proof.
  intros Hok Hs Hm Hnext ->. destruct (spare_agree dt F l w f m Hok Hs Hm) as [? ? ? ? Hc Hn Hfr ?].
  cbn [w_mem w_st] in *. split; cbn [w_mem w_st]; try done.
  - by apply statics_set_frame.
  - cbn [chain]. split; [done|]. by rewrite Hnext.
  - cbn. rewrite Hn. u64_unfold. unfold u64. rewrite Zplus_mod_idemp_l. f_equal. lia.
  - intros g [->|Hg]%elem_of_cons; [|by apply Hfr]. split; [apply Hs|]. split; [apply Hs|split; apply Hs].
  - apply list.NoDup_cons. split; [apply Hs|done].
Qed.

(** The frame allocator is a stack of frames: freeing pushes a frame,
    allocating pops the frame freed last without changing any byte, an empty
    stack answers no, and the counter is the height of the stack. *)
Theorem frame_stack dt F l w va f (Hok : vm_ok dt F l w) (Hs : spare F l f)
    (Hva : reach (w_mem w) _tab_4 va f 8) :
  wp mm_frame_free_count (λ n w', n = u64 (Z.of_nat (length l)) ∧ w' = w) w ∧
  (l = [] → mm_frame_alloc w = Done (None, w)) ∧
  wp (mm_frame_free va f) (λ _ w1, vm_ok dt F (f :: l) w1 ∧
    (∀ a, a < f ∨ f + 8 <= a → load8 (w_mem w1) a = load8 (w_mem w) a) ∧
    wp mm_frame_alloc (λ r w2, r = Some f ∧ vm_ok dt F l w2 ∧ w_mem w2 ≡ w_mem w1) w1) w.
Proof.
  split; [|split].
  - apply wp_static. split; [apply Hok|done].
  - intros ->. pose proof (vo_chain _ _ _ _ Hok) as Hh. cbn [chain] in Hh.
    destruct (wp_done mm_frame_alloc (λ r w', r = None ∧ w' = w) w) as [Hw _].
    destruct Hw as (r&w'&Hrun&->&->); [|done]. by apply (wp_mm_frame_alloc dt F [] w).
  - eapply wp_mm_frame_free_raw; [rewrite (sc_root _ _ (vo_static _ _ _ _ Hok)); exact Hva|].
    assert (∀ a, a < f ∨ f + 8 <= a → load8 (store64 f (_free_head (st_frame (w_st w))) (w_mem w)) a = load8 (w_mem w) a)
      as Hother by (intros a Ha; apply load8_store_ne; lia).
    assert (is_u64 (_free_head (st_frame (w_st w)))) as Hh.
    { pose proof (vo_chain _ _ _ _ Hok) as Hc. destruct l as [|g l]; cbn [chain] in Hc; [by rewrite Hc|].
      destruct Hc as [-> _]. destruct (vo_frames _ _ _ _ Hok g) as ((_&?&?)&_); [by left|].
      unfold is_u64, PA_LIMIT in *. lia. }
    assert (vm_ok dt F (f :: l) (World (store64 f (_free_head (st_frame (w_st w))) (w_mem w))
      (with_free f (_free_count (st_frame (w_st w)) + 1)%u64 (w_st w)))) as Hok1.
    { apply (vm_ok_push dt F l w); [done|done| |by apply load64_store64_eq|done].
      intros a Ha. apply Hother. lia. }
    split; [done|]. split; [done|]. apply (wp_mm_frame_alloc dt F (f :: l)); [done|].
    intros m s Hok2 Hm _. done.
Qed.

End frames.
