(* ===== verification/MmPageMap.v ===== *)
(** Mapping a page at run time, [mm_page_map] of src/mm/mm_page.c, proved.

    The walk down the tables keeps one zeroed frame in hand and turns it into
    a table where one is missing.  Theorem [mm_page_map_ok] gives the result
    and the state it leaves in every case: exactly the missing tables are
    taken from the free frames, the new translation is the only one that
    changes, and with too few frames nothing is mapped. *)
From S2P Require Import Prelude Memory MmCore Mmu VirtMem MmPage.
From S2P Require Import MmPageRep MmPageFrames.

#[local] Opaque fill.

Section map.
Context `{VmLink}.

Abbreviation WIN := VA_48_DIRECT_ACCESS_PAGE.

(* --------------------------------------------------------------------- *)
(** ** The invariant after an entry was written *)

(** The rest of the state after an entry of a table was written. *)
Lemma vm_ok_entry dt F F' l w p i t v s : vm_ok dt F l w → path_ok p → index_ok i →
  walk (w_mem w) _tab_4 p = Some t → win_ok dt F' (store64 (t + 8 * i) v (w_mem w)) → tree_clean (store64 (t + 8 * i) v (w_mem w)) _tab_4 →
  (∀ g, g ∈ l → ¬ F' g) → s = w_st w →
  vm_ok dt F' l (World (store64 (t + 8 * i) v (w_mem w)) s).
Proof.
  intros Hok Hp Hi Hw Hwin Hcl HF ->. unfold index_ok in Hi. destruct Hok as [? ? Hwin0 _ Hc ? Hfr ?]. split; cbn [w_mem w_st]; try done.
  - eapply chain_agree; [|done]. intros g Hg. symmetry. apply (store_agree 8).
    destruct (Hfr g Hg) as (Hf&_&Hng&Hr).
    destruct (table_elsewhere F (w_mem w) p t g (wo_tree _ _ _ Hwin0) Hp Hw Hf Hng Hr); lia.
  - intros g Hg. destruct (Hfr g Hg) as (?&?&_&?). split_and!; [done|done|by apply HF|done].
Qed.

Lemma vm_ok_ext dt F G l w : (∀ t, F t ↔ G t) → vm_ok dt F l w → vm_ok dt G l w.
Proof.
  intros HFG [? ? [Ht ? ? ?] ? ? ? Hfr ?]. split; try done.
  - split; try done. eapply tree_weaken; [exact Ht|by intros t ?%HFG|].
    intros t Hg%HFG. by apply (tr_frame _ _ _ Ht).
  - intros f Hf. destruct (Hfr f Hf) as (?&?&Hn&?). split_and!; try done. by rewrite <-HFG.
Qed.

(* --------------------------------------------------------------------- *)
(** ** A zeroed frame in hand *)

Lemma wp_tab_zero_window dt F m f (Q : unit → world vm → Prop) w :
  statics dt (w_st w) → frame_ok f → w_mem w ≡ opened dt f m →
  win_entry dt + 8 <= f ∨ f + 4096 <= win_entry dt →
  (∀ n, (n <= 4096)%nat → win_ok dt F (fill n f 0 m)) →
  (∀ m', m' ≡ opened dt f (fill 4096 f 0 m) → Q () (World m' (w_st w))) →
  wp (_tab_zero WIN) Q w.
Proof.
  intros Hs Hf Hm Hap Hlive HQ. unfold _tab_zero, vm_clean. change (_TAB_ENTRY_LEN * _TAB_ENTRY_COUNT) with 4096.
  apply wp_bind, wp_assert; [done|]. destruct WIN_ok as (_&_&Hw64&Hw0).
  apply (wp_for_n (λ i w', w_mem w' ≡ opened dt f (fill (Z.to_nat i) f 0 m) ∧ w_st w' = w_st w)).
  - by split.
  - intros i w' Hi [Hm' Hs']. change (Z.of_nat (Z.to_nat 4096)) with 4096 in Hi.
    assert ((WIN + i)%u64 = WIN + i) as -> by (u64_unfold; apply u64_small; lia).
    eapply wp_vwrite.
    { eapply (reach_win dt F (fill (Z.to_nat i) f 0 m) f w' i); [by rewrite Hs'|apply Hlive; lia|done|done|lia|].
      change (Z.of_nat 1) with 1. lia. }
    cbn [w_mem w_st]. split; [|done]. rewrite Hm', (opened_store dt f) by lia.
    replace (Z.to_nat (i + 1)) with (S (Z.to_nat i)) by lia. rewrite fill_snoc, store_1.
    by rewrite Z2Nat.id by lia.
  - intros [m' s'] [Hm' Hs']. cbn [w_mem w_st] in *. subst s'. by apply HQ.
Qed.

(** Only the head and the count of the free list differ. *)
Definition frees (s s' : vm) : Prop :=
  s' = with_free (_free_head (st_frame s')) (_free_count (st_frame s')) s.

#[export] Instance frees_preorder : PreOrder frees.
Proof.
  split.
  - intros [[] ? ? ? ? ? ?]. done.
  - intros s1 s2 s3 H1 H2. unfold frees in *. rewrite H2, H1. done.
Qed.

Lemma fill_zero m f j : index_ok j → load64 (fill 4096 f 0 m) (f + 8 * j) = 0.
Proof. intros Hj. unfold index_ok in Hj. apply (load_fill_zero 8); lia. Qed.

(** [f] is spare and holds zeros. *)
Record in_hand (F : Z → Prop) (l : list Z) (m : memory) (f : Z) : Prop := {
  ih_spare : spare F l f;
  ih_zero : ∀ j, index_ok j → load64 m (f + 8 * j) = 0;
}.

Lemma wp_spare_frame dt F l (Q : option Z → world vm → Prop) w : vm_ok dt F l w →
  match l with
  | [] => Q None w
  | f :: l' => ∀ w', vm_ok dt F l' w' → in_hand F l' (w_mem w') f → frees (w_st w) (w_st w') →
      (∀ a, ¬ (f <= a < f + 4096) → load8 (w_mem w') a = load8 (w_mem w) a) → Q (Some f) w'
  end → wp (spare_frame UPTR_NULL) Q w.
Proof.
  intros Hok HQ. unfold spare_frame. change (UPTR_NULL =? UPTR_NULL) with true. cbv iota.
  apply wp_bind. eapply wp_mm_frame_alloc; [exact Hok|]. destruct l as [|f l]; [by apply wp_ret|].
  intros m s Hok1 Hm Hs. destruct (vo_frames _ _ _ _ Hok f) as (Hf&Hf0&HF&Hr); [by left|].
  pose proof (vo_nodup _ _ _ _ Hok) as [Hnew _]%list.NoDup_cons.
  assert (spare F l f) as Hsp by done.
  pose proof (vo_win _ _ _ _ Hok1) as Hwin. cbn [w_mem w_st] in Hwin.
  assert (∀ n, (n <= 4096)%nat → vm_ok dt F l (World (fill n f 0 m) s)) as Hokn.
  { intros n Hn. apply (spare_agree dt F l (World m s) f); [done|done|]. intros a Ha. cbn [w_mem].
    rewrite load8_fill, decide_False by lia. done. }
  apply wp_bind. eapply wp_setup; [apply Hok1|exact Hwin|done|]. intros m1 Hm1. cbn [w_mem w_st] in *.
  apply wp_bind. eapply (wp_tab_zero_window dt F m f); [apply Hok1|exact Hf|exact Hm1| | |].
  { destruct (win_entry_outside dt F m f Hwin Hf HF Hr); lia. }
  { intros n Hn. apply (vo_win _ _ _ _ (Hokn n Hn)). }
  intros m2 Hm2. cbn [w_st].
  apply wp_bind. eapply (wp_reset dt F (fill 4096 f 0 m) f); [apply Hok1| |exact Hf|exact Hm2|].
  { apply (vo_win _ _ _ _ (Hokn 4096%nat ltac:(lia))). }
  intros m3 Hm3. cbn [w_st]. apply wp_ret, HQ; cbn [w_mem w_st].
  - eapply vm_ok_proper; [symmetry; exact Hm3|]. by apply Hokn.
  - split; [done|]. intros j Hj. rewrite Hm3. by apply fill_zero.
  - done.
  - intros a Ha. rewrite (Hm3 a), load8_fill, decide_False by lia. apply Hm.
Qed.

(* --------------------------------------------------------------------- *)
(** ** One level down *)

(** Reading the window on a table. *)
Lemma reach_win_entry dt F m tab w i : statics dt (w_st w) → win_ok dt F m → frame_ok tab →
  w_mem w ≡ opened dt tab m → index_ok i → reach (w_mem w) (cr3 (w_st w)) (WIN + 8 * i) (tab + 8 * i) 8.
Proof. intros Hs Hl Ht Hm Hi. unfold index_ok in Hi. eapply reach_win; done || lia. Qed.

Lemma table_flags f : frame_ok f →
  entry_present (f + 3) = true ∧ entry_huge (f + 3) = false ∧ entry_frame (f + 3) = f ∧
  entry_present (f + 1) = true ∧ entry_huge (f + 1) = false ∧ entry_frame (f + 1) = f ∧ entry_present f = false ∧
  entry_huge f = false.
Proof.
  intros Hf. pose proof Hf as (Hd&_). unfold entry_present, entry_huge.
  rewrite !testbit_frame by (done || lia). pose proof (testbit_frame f 0 0 Hd ltac:(lia)) as H0.
  pose proof (testbit_frame f 0 7 Hd ltac:(lia)) as H7. rewrite Z.add_0_r in H0, H7. rewrite H0, H7.
  destruct (frame_value f 3 Hf) as (_&_&->); [lia|]. by destruct (frame_value f 1 Hf) as (_&_&->); [lia|].
Qed.

(** [_tab_entry_init] on an absent entry seen through the window: the entry is
    first not present, then present, then writable. *)
Lemma wp_init_in_window dt F F1 m p i tab v lv (Q : unit → world vm → Prop) w :
  1 <= lv <= 4 → statics dt (w_st w) → win_ok dt F m → absent_entry F m p i tab → (p, i) ≠ (path_of 1 WIN, idx WIN 1) →
  frame_ok tab → frame_ok v → w_mem w ≡ opened dt tab m →
  win_ok dt F1 (store64 (tab + 8 * i) (v + 1) m) →
  (∀ m', m' ≡ opened dt tab (store64 (tab + 8 * i) (v + 3) m) → Q () (World m' (w_st w))) →
  wp (_tab_entry_init (WIN + 8 * i) lv true true v PAGE_SIZE_4K) Q w.
Proof.
  intros Hlv Hs Hok Hz Hne Htab Hv Hm Hok1 HQ. pose proof (absent_entry_apart _ _ _ _ _ _ Hok Hz Hne) as Hap.
  pose proof (ze_index _ _ _ _ _ Hz) as Hi. destruct (table_flags v Hv) as (_&_&_&_&_&_&P0&U0).
  destruct (frame_value v 0 Hv ltac:(lia)) as (V0&W0&_). rewrite Z.add_0_r in V0, W0.
  destruct (win_ok_absent dt F m p i tab v) as [Hok0 _]; try done.
  assert (∀ x, store64 (tab + 8 * i) x (w_mem w) ≡ opened dt tab (store64 (tab + 8 * i) x m)) as Hst.
  { intros x. etrans; [apply (store64_proper _ _ eq_refl _ _ eq_refl _ _ Hm)|]. apply (opened_store dt tab m 8). lia. }
  assert (∀ x G, win_ok dt G (store64 (tab + 8 * i) x m) →
    reach (store64 (tab + 8 * i) x (w_mem w)) (cr3 (w_st w)) (WIN + 8 * i) (tab + 8 * i) 8) as Hr.
  { intros x G HG. eapply (reach_win_entry dt G (store64 (tab + 8 * i) x m) tab (World _ (w_st w)));
      [exact Hs|exact HG|exact Htab|apply Hst|exact Hi]. }
  apply (wp_vm_entry_init _ (tab + 8 * i)); [done|done| |by eapply Hr|by eapply Hr|].
  - eapply reach_win_entry; [exact Hs|exact Hok|exact Htab|exact Hm|exact Hi].
  - intros m' Hm'. apply HQ. by rewrite Hm', Hst.
Qed.

Lemma in_hand_table F l m f : in_hand F l m f → frame_ok f ∧ ¬ F f ∧ f ≠ _tab_4 ∧ (∀ j, index_ok j → load64 m (f + 8 * j) = 0).
Proof. intros [[] ?]. done. Qed.

Lemma path_lengths va : length (path_of 1 va) = 3%nat ∧ length (path_of 2 va) = 2%nat ∧
  length (path_of 3 va) = 1%nat ∧ length (path_of 4 va) = 0%nat.
Proof. done. Qed.

Lemma upper_not_window va lv i : (2 <= lv <= 4)%nat → (path_of lv va, i) ≠ (path_of 1 WIN, idx WIN 1) ∧ (length (path_of lv va) <= 2)%nat.
Proof.
  intros Hlv. assert (length (path_of lv va) <= 2)%nat as Hl by (destruct lv as [|[|[|[|[|]]]]]; simpl; lia).
  split; [|done]. intros [= Hp _]. rewrite Hp in Hl. simpl in Hl. lia.
Qed.

Lemma wp_descend dt F l va lv tab fr (Q : Z * Z → world vm → Prop) w :
  vm_ok dt F l w → (2 <= lv <= 4)%nat → in_hand F l (w_mem w) fr →
  walk (w_mem w) _tab_4 (path_of lv va) = Some tab → translate (w_mem w) _tab_4 va = None →
  (∀ m', match walk (w_mem w) _tab_4 (path_of (lv - 1) va) with
    | Some t => m' ≡ w_mem w → Q (t, fr) (World m' (w_st w))
    | None => absent_entry F (w_mem w) (path_of lv va) (idx va (Z.of_nat lv)) tab →
        m' ≡ store64 (tab + 8 * idx va (Z.of_nat lv)) (fr + 3) (w_mem w) → Q (fr, UPTR_NULL) (World m' (w_st w))
    end) →
  wp (descend va (Z.of_nat lv) tab fr) Q w.
Proof.
  intros Hok Hlv Hfr Hw Hno HQ. pose proof (vo_win _ _ _ _ Hok) as Hwin. pose proof (vo_static _ _ _ _ Hok) as Hs.
  set (m := w_mem w) in *. set (i := idx va (Z.of_nat lv)) in *.
  destruct (upper_not_window va lv i Hlv) as [Hne Hlen].
  assert (path_ok (path_of lv va)) as Hp by apply path_of_ok. assert (index_ok i) as Hi by apply idx_range.
  destruct (tree_range (wo_tree _ _ _ Hwin) _ _ Hp Hw) as (Ht0&Htl&Htd).
  assert (frame_ok tab) as Htab by (split; [done|lia]).
  destruct WIN_ok as (_&_&Hw64&Hw0). set (e := load64 m (tab + 8 * i)).
  assert (tab + 8 * i + 8 <= win_entry dt ∨ win_entry dt + 8 <= tab + 8 * i) as Hap.
  { unfold win_entry. destruct (tree_disjoint (wo_tree _ _ _ Hwin) (path_of lv va) (path_of 1 WIN) tab dt i (idx WIN 1));
      try done; try apply (path_of_ok 1); try apply idx_range; try apply Hwin; lia. }
  assert (walk m _tab_4 (path_of (lv - 1) va) = if entry_present e && negb (entry_huge e) then Some (entry_frame e) else None) as Hnext.
  { rewrite path_of_step by lia. rewrite walk_pte. by rewrite (pte_walk _ _ _ _ _ Hw). }
  unfold descend. apply wp_bind. eapply wp_setup; [exact Hs|exact Hwin|exact Htab|]. intros m1 Hm1. fold m in Hm1.
  apply wp_bind, wp_entry_of; [lia|lia|lia|]. fold i.
  assert (reach m1 (cr3 (w_st w)) (WIN + 8 * i) (tab + 8 * i) 8) as Hr.
  { eapply (reach_win_entry dt F m tab (World m1 (w_st w))); [exact Hs|done..]. }
  assert (load64 m1 (tab + 8 * i) = e) as He.
  { rewrite Hm1. apply (load_opened dt tab m 8). lia. }
  apply wp_bind. eapply wp_tab_entry_is_present; [exact Hr|]. cbn [w_mem]. rewrite He.
  destruct (tree_unmapped_entry _ _ _ va lv tab (wo_tree _ _ _ Hwin) (vo_clean _ _ _ _ Hok) ltac:(lia) Hno Hw) as [H0|(_&Hpr&Hhu)].
  - change (e = 0) in H0. rewrite Hnext, H0 in HQ. change (entry_present 0 && _) with false in HQ. cbv iota in HQ.
    assert (absent_entry F m (path_of lv va) i tab) as Hz by (split; [apply Hwin|done..|by fold e; rewrite H0]).
    destruct (in_hand_table _ _ _ _ Hfr) as (Hf&HF&Hfroot&Hzero).
    destruct (table_flags fr Hf) as (P3&U3&E3&P1&U1&E1&_).
    rewrite H0. change (negb (entry_present 0)) with true. cbv iota. apply wp_bind, wp_bind.
    eapply wp_tab_entry_is_zero; [exact Hr|]. cbn [w_mem]. rewrite He, H0. apply wp_bind, wp_assert; [done|].
    apply wp_bind, wp_assert; [apply negb_true_iff, Z.eqb_neq, Hfr|]. apply wp_bind.
    assert (∀ x, (x = 1 ∨ x = 3) → win_ok dt (λ u, F u ∨ u = fr) (store64 (tab + 8 * i) (fr + x) m)) as Hlive.
    { intros x Hx. destruct (frame_value fr x Hf ltac:(lia)) as (?&?&_).
      eapply win_ok_table; try done. by destruct Hx as [->| ->]. }
    eapply (wp_init_in_window dt F (λ u, F u ∨ u = fr) m (path_of lv va) i tab fr); try done; [lia| |].
    + by apply Hlive; left.
    + intros m2 Hm2. cbn [w_st]. apply wp_ret.
      specialize (Hlive 3 (or_intror eq_refl)).
      assert (load64 m2 (tab + 8 * i) = fr + 3) as He2.
      { rewrite Hm2. unfold load64. rewrite load_opened by lia. apply load64_store64_eq. by apply frame_value. }
      apply wp_bind. eapply wp_tab_entry_get_padd.
      { eapply (reach_win_entry dt _ _ tab (World m2 (w_st w))); [exact Hs|exact Hlive|done|exact Hm2|done]. }
      { cbn [w_mem]. rewrite He2. by apply frame_value. }
      cbn [w_mem]. rewrite He2, E3. apply wp_bind.
      eapply (wp_reset dt _ _ tab); [exact Hs|exact Hlive|done|exact Hm2|]. intros m3 Hm3. apply wp_ret. by apply HQ.
  - change (entry_present e = true) in Hpr. change (entry_huge e = false) in Hhu.
    rewrite Hnext, Hpr, Hhu in HQ. cbn [andb negb] in HQ. rewrite Hpr. cbn [negb]. apply wp_bind, wp_ret.
    apply wp_bind. eapply wp_tab_entry_get_padd; [exact Hr| |].
    { cbn [w_mem]. rewrite He. by eapply (tr_width _ _ _ (wo_tree _ _ _ Hwin)). }
    cbn [w_mem]. rewrite He. apply wp_bind.
    eapply (wp_reset dt F m tab); [exact Hs|done|done|exact Hm1|]. intros m3 Hm3. apply wp_ret. by apply HQ.
Qed.

(* --------------------------------------------------------------------- *)
(** ** The walk down *)

(** 1 when the level-[lv] table for [va] is missing. *)
Definition lacks (m : memory) (va : Z) (lv : nat) : nat :=
  match walk m _tab_4 (path_of lv va) with Some _ => 0 | None => 1 end.

(** The tables missing from level 3 down to [lv]. *)
Definition lacking (m : memory) (va : Z) (lv : nat) : nat := sum_list_with (lacks m va) (seq lv (4 - lv)).

Lemma lacking_step m va lv : (2 <= lv <= 4)%nat → lacking m va (lv - 1) = (lacks m va (lv - 1) + lacking m va lv)%nat.
Proof.
  intros Hlv. unfold lacking. replace (4 - (lv - 1))%nat with (S (4 - lv)) by lia. cbn [seq sum_list_with].
  by replace (S (lv - 1)) with lv by lia.
Qed.

Lemma lacks_below m va lv : (2 <= lv <= 4)%nat → lacks m va lv = 1%nat → lacks m va (lv - 1) = 1%nat.
Proof.
  intros Hlv. unfold lacks. destruct (walk m _tab_4 (path_of lv va)) as [t|] eqn:Hw; [done|]. intros _.
  by rewrite path_of_step, walk_snoc, Hw by lia.
Qed.

(** Bytes in no table and in no free frame. *)
Definition elsewhere (F : Z → Prop) (l : list Z) (a : Z) : Prop :=
  ∀ t, t = _tab_4 ∨ F t ∨ t ∈ l → ¬ (t <= a < t + 4096).

Definition more (F : Z → Prop) (used : list Z) (t : Z) : Prop := F t ∨ t ∈ used.

(** On the way down to the leaf of [va]: at level [lv] the table is [tab]; the
    frames [used] became tables, [fr] is in hand (0 when there is none), and
    [l] are still free. *)
Record going (dt : Z) (F : Z → Prop) (l0 : list Z) (w0 : world vm) (va : Z)
    (lv : nat) (tab fr : Z) (used l : list Z) (w : world vm) : Prop := {
  gg_ok : vm_ok dt (more F used) l w;
  gg_split : l0 = used ++ (if fr =? 0 then l else fr :: l);
  gg_hand : fr ≠ 0 → in_hand (more F used) l (w_mem w) fr;
  gg_walk : walk (w_mem w) _tab_4 (path_of lv va) = Some tab;
  gg_below lv' : (1 <= lv' < lv)%nat → walk (w_mem w) _tab_4 (path_of lv' va) = walk (w_mem w0) _tab_4 (path_of lv' va);
  gg_xlate va' : translate (w_mem w) _tab_4 va' = translate (w_mem w0) _tab_4 va';
  gg_frees : frees (w_st w0) (w_st w);
  gg_outside a : elsewhere F l0 a → load8 (w_mem w) a = load8 (w_mem w0) a;
  gg_used : length used = lacking (w_mem w0) va lv;
  gg_null : fr = 0 → lv = 4%nat ∨ lacks (w_mem w0) va lv = 1%nat;
}.

Lemma going_start dt F l w va : vm_ok dt F l w → going dt F l w va 4 _tab_4 0 [] l w.
Proof.
  intros Hok. split; try done.
  - eapply vm_ok_ext; [|exact Hok]. intros t. unfold more. rewrite elem_of_nil. tauto.
  - by left.
Qed.

(** Writing into a frame that is no table leaves the tables alone. *)
Lemma spare_same dt F m f m' : win_ok dt F m → frame_ok f → ¬ F f → f ≠ _tab_4 →
  (∀ a, ¬ (f <= a < f + 4096) → load8 m' a = load8 m a) →
  (∀ q, path_ok q → walk m' _tab_4 q = walk m _tab_4 q) ∧
  ∀ va, translate m' _tab_4 va = translate m _tab_4 va.
Proof.
  intros [Ht _ _ _] Hf HF Hr Hm.
  assert (∀ t, t = _tab_4 ∨ F t → agree t (t + 4096) m m') as Hag.
  { intros t Ht' a Ha. symmetry. apply Hm.
    assert (frame_ok t) as Hft by (destruct Ht' as [->|?]; [apply Ht|by apply Ht]).
    destruct (frames_apart f t); [done|done| |lia|lia]. intros ->. by destruct Ht'. }
  split; [apply (tree_agree_walk Ht Hag)|apply (tree_agree Ht Hag)].
Qed.

Lemma wp_take dt F l0 w0 va lv tab fr used l (Q : option Z → world vm → Prop) w :
  (1 <= lv <= 4)%nat → going dt F l0 w0 va lv tab fr used l w →
  (fr = 0 → l = [] → Q None w) →
  (∀ f l' w', f ≠ 0 → going dt F l0 w0 va lv tab f used l' w' → Q (Some f) w') →
  wp (spare_frame fr) Q w.
Proof.
  intros Hlv Hg Hnone Hsome. pose proof (gg_ok _ _ _ _ _ _ _ _ _ _ _ Hg) as Hok. destruct (decide (fr = 0)) as [->|Hfr].
  - eapply wp_spare_frame; [exact Hok|]. destruct l as [|f l]; [by apply Hnone|].
    intros w' Hok' Hh Hfrees Hout. destruct (vo_frames _ _ _ _ Hok f) as (Hf&Hf0&HF&Hr); [by left|].
    destruct (spare_same dt (more F used) (w_mem w) f (w_mem w') (vo_win _ _ _ _ Hok) Hf HF Hr Hout) as [Hw Hx].
    pose proof (gg_split _ _ _ _ _ _ _ _ _ _ _ Hg) as Hsplit. change (0 =? 0) with true in Hsplit. cbv iota in Hsplit.
    apply (Hsome f l); [done|]. split.
    + done.
    + by rewrite (proj2 (Z.eqb_neq f 0)) by done.
    + done.
    + rewrite Hw by apply path_of_ok. apply Hg.
    + intros lv' Hlv'. rewrite Hw by apply path_of_ok. by apply Hg.
    + intros va'. rewrite Hx. apply Hg.
    + etrans; [apply Hg|done].
    + intros a Ha. rewrite Hout; [by apply Hg|]. apply Ha. right. right. rewrite Hsplit. apply elem_of_app. right. by left.
    + apply Hg.
    + done.
  - unfold spare_frame. rewrite (proj2 (Z.eqb_neq fr UPTR_NULL)) by done. apply wp_ret. by apply (Hsome fr l).
Qed.

(** The table [f] is linked at level [lv]. *)
Lemma going_linked dt F l0 w0 va lv tab f used l w m : (2 <= lv <= 4)%nat →
  going dt F l0 w0 va lv tab f used l w → f ≠ 0 →
  walk (w_mem w) _tab_4 (path_of (lv - 1) va) = None →
  absent_entry (more F used) (w_mem w) (path_of lv va) (idx va (Z.of_nat lv)) tab →
  m ≡ store64 (tab + 8 * idx va (Z.of_nat lv)) (f + 3) (w_mem w) →
  going dt F l0 w0 va (lv - 1) f 0 (used ++ [f]) l (World m (w_st w)).
Proof.
  intros Hlv Hg Hf0 Hnone Hz Hm. pose proof (gg_ok _ _ _ _ _ _ _ _ _ _ _ Hg) as Hok.
  destruct (in_hand_table _ _ _ _ (gg_hand _ _ _ _ _ _ _ _ _ _ _ Hg Hf0)) as (Hf&HF&Hr&Hzero).
  pose proof (gg_hand _ _ _ _ _ _ _ _ _ _ _ Hg Hf0) as Hh.
  set (p := path_of lv va) in *. set (i := idx va (Z.of_nat lv)) in *.
  destruct (upper_not_window va lv i Hlv) as [Hne Hlen]. fold p in Hne, Hlen.
  destruct (table_flags f Hf) as (P3&U3&E3&_). destruct (frame_value f 3 Hf ltac:(lia)) as (V3&W3&_).
  assert (path_of (lv - 1) va = p ++ [i]) as Hstep by (apply path_of_step; lia).
  destruct (table_update (more F used) (w_mem w) p i tab f (f + 3)) as (_&Hx&Hnew&Hother&Hcl); try done.
  pose proof (win_ok_table dt (more F used) (w_mem w) p i tab f (f + 3) (vo_win _ _ _ _ Hok) Hz Hne Hlen V3
    (conj P3 (conj U3 E3)) W3 Hf HF Hr Hzero) as Hwin.
  assert (∀ t, more F used t ∨ t = f ↔ more F (used ++ [f]) t) as Hext.
  { intros t. unfold more. rewrite elem_of_app, list_elem_of_singleton. tauto. }
  pose proof (gg_split _ _ _ _ _ _ _ _ _ _ _ Hg) as Hsplit. rewrite (proj2 (Z.eqb_neq f 0)) in Hsplit by done.
  split; cbn [w_mem w_st].
  - eapply vm_ok_proper; [symmetry; exact Hm|]. eapply vm_ok_ext; [exact Hext|].
    eapply vm_ok_entry; [exact Hok|apply Hz|apply Hz|apply Hz|exact Hwin|apply Hcl, Hok| |done].
    intros g Hgl [Hgm| ->]; [by destruct (vo_frames _ _ _ _ Hok g Hgl) as (_&_&?&_)|]. by apply (sp_new _ _ _ (ih_spare _ _ _ _ Hh)).
  - change (0 =? 0) with true. cbv iota. by rewrite <-app_assoc.
  - done.
  - by rewrite Hm, Hstep.
  - intros lv' Hlv'. rewrite Hm, Hother; [apply Hg; lia|apply path_of_ok|]. rewrite <-Hstep.
    intros Heq%(f_equal length). destruct lv as [|[|[|[|[|]]]]], lv' as [|[|[|]]]; simpl in Heq; lia.
  - intros va'. rewrite Hm, Hx. apply Hg.
  - apply Hg.
  - intros a Ha. rewrite (Hm a). unfold store64. rewrite load8_store_ne; [by apply Hg|].
    pose proof (ze_index _ _ _ _ _ Hz) as Hi. unfold index_ok in Hi.
    assert (¬ (tab <= a < tab + 4096)) as Hout; [|lia]. apply Ha.
    destruct (tr_tables _ _ _ (ze_tree _ _ _ _ _ Hz) p tab (ze_path _ _ _ _ _ Hz) (ze_walk _ _ _ _ _ Hz)) as [->|[?|Hu]];
      [by left|by right; left|]. right. right. rewrite Hsplit. apply elem_of_app. by left.
  - rewrite length_app, lacking_step, (gg_used _ _ _ _ _ _ _ _ _ _ _ Hg) by done. cbn [length].
    unfold lacks. rewrite <-(gg_below _ _ _ _ _ _ _ _ _ _ _ Hg), Hnone by lia. lia.
  - right. unfold lacks. by rewrite <-(gg_below _ _ _ _ _ _ _ _ _ _ _ Hg), Hnone by lia.
Qed.

(** The table at level [lv - 1] was there already. *)
Lemma going_present dt F l0 w0 va lv tab t f used l w m : (2 <= lv <= 4)%nat →
  going dt F l0 w0 va lv tab f used l w → f ≠ 0 →
  walk (w_mem w) _tab_4 (path_of (lv - 1) va) = Some t → m ≡ w_mem w →
  going dt F l0 w0 va (lv - 1) t f used l (World m (w_st w)).
Proof.
  intros Hlv Hg Hf0 Ht Hm. split; cbn [w_mem w_st].
  - eapply vm_ok_proper; [symmetry; exact Hm|]. destruct w. apply Hg.
  - apply Hg.
  - intros _. destruct (gg_hand _ _ _ _ _ _ _ _ _ _ _ Hg Hf0) as [Hs Hz]. split; [done|].
    intros j Hj. rewrite Hm. by apply Hz.
  - by rewrite Hm.
  - intros lv' Hlv'. rewrite Hm. apply Hg. lia.
  - intros va'. rewrite Hm. apply Hg.
  - apply Hg.
  - intros a Ha. rewrite (Hm a). by apply Hg.
  - rewrite lacking_step by done. unfold lacks at 1.
    rewrite <-(gg_below _ _ _ _ _ _ _ _ _ _ _ Hg), Ht by lia. apply Hg.
  - done.
Qed.

(** One round of the loop. *)
Definition level_round (va : Z) (x : Z * Z * Z) : RM (Z * Z * Z + Z * Z * bool) :=
  let '(lv, tab_pa, frame_pa) := x in
  if TAB_LEVEL_1 <? lv then
    r ← spare_frame frame_pa;
    match r with
    | None => mret (inr (tab_pa, UPTR_NULL, false))
    | Some frame_pa =>
        '(tab_pa, frame_pa) ← descend va lv tab_pa frame_pa;
        mret (inl (lv - 1, tab_pa, frame_pa))
    end
  else mret (inr (tab_pa, frame_pa, true)).

Lemma wp_level dt F l0 w0 va lv tab fr used l w (Q : Z * Z * Z + Z * Z * bool → world vm → Prop) :
  (2 <= lv <= 4)%nat → going dt F l0 w0 va lv tab fr used l w → translate (w_mem w0) _tab_4 va = None →
  (fr = 0 → l = [] → Q (inr (tab, 0, false)) w) →
  (∀ tab' fr' used' l' w', going dt F l0 w0 va (lv - 1) tab' fr' used' l' w' →
    Q (inl (Z.of_nat (lv - 1), tab', fr')) w') →
  wp (level_round va (Z.of_nat lv, tab, fr)) Q w.
Proof.
  intros Hlv Hg Hno Hfail HQ. unfold level_round.
  rewrite (proj2 (Z.ltb_lt TAB_LEVEL_1 (Z.of_nat lv))) by (unfold TAB_LEVEL_1; lia).
  apply wp_bind. eapply wp_take; [|exact Hg| |]; [lia| |].
  - intros Hfr Hl. apply wp_ret. by apply Hfail.
  - intros f l' w1 Hf0 Hg1. apply wp_bind.
    eapply wp_descend; [apply Hg1|done|by apply Hg1|apply Hg1|by rewrite (gg_xlate _ _ _ _ _ _ _ _ _ _ _ Hg1)|].
    replace (Z.of_nat lv - 1) with (Z.of_nat (lv - 1)) by lia.
    intros m. destruct (walk (w_mem w1) _tab_4 (path_of (lv - 1) va)) as [t|] eqn:Ht.
    + intros Hm. apply wp_ret. apply (HQ t f used l'). by eapply going_present.
    + intros Hz Hm. apply wp_ret. apply (HQ f 0 (used ++ [f]) l'). by eapply going_linked.
Qed.

Lemma lacking_le m va : (lacking m va 1 <= 3)%nat.
Proof.
  unfold lacking. cbn [seq sum_list_with Nat.sub]. unfold lacks.
  destruct (walk m _tab_4 (path_of 1 va)), (walk m _tab_4 (path_of 2 va)), (walk m _tab_4 (path_of 3 va)); lia.
Qed.

(** Whether the frames suffice: one is taken even when none is needed. *)
Definition frames_suffice (m : memory) (va : Z) (l : list Z) : bool :=
  bool_decide (Nat.max 1 (lacking m va 1) <= length l)%nat.

Lemma lacking_more dt F l0 w0 va lv tab used l w : (2 <= lv <= 4)%nat → going dt F l0 w0 va lv tab 0 used l w →
  (length used < Nat.max 1 (lacking (w_mem w0) va 1))%nat.
Proof.
  intros Hlv Hg. rewrite (gg_used _ _ _ _ _ _ _ _ _ _ _ Hg).
  destruct (gg_null _ _ _ _ _ _ _ _ _ _ _ Hg eq_refl) as [->|H1].
  - change (lacking (w_mem w0) va 4) with 0%nat. lia.
  - assert (∀ k, (1 <= k < lv)%nat → (lacking (w_mem w0) va lv < lacking (w_mem w0) va k)%nat ∧ lacks (w_mem w0) va k = 1%nat) as Hk.
    { intros k Hk. remember (lv - 1 - k)%nat as n eqn:Hn. revert k Hk Hn. induction n as [|n IH]; intros k Hk Hn.
      - assert (k = lv - 1)%nat as -> by lia. pose proof (lacks_below _ _ lv Hlv H1) as H2.
        rewrite (lacking_step _ _ lv), H2 by lia. lia.
      - destruct (IH (S k)) as [IH1 IH2]; [lia|lia|]. pose proof (lacks_below _ _ (S k) ltac:(lia) IH2) as H2.
        pose proof (lacking_step (w_mem w0) va (S k) ltac:(lia)) as H3.
        replace (S k - 1)%nat with k in * by lia. rewrite H2 in H3. lia. }
    destruct (Hk 1%nat) as [Hlt _]; lia.
Qed.

Lemma wp_walk_down dt F l0 w0 va (Q : Z * Z * bool → world vm → Prop) :
  vm_ok dt F l0 w0 → translate (w_mem w0) _tab_4 va = None →
  (∀ lv tab used w, going dt F l0 w0 va lv tab 0 used [] w → frames_suffice (w_mem w0) va l0 = false →
    Q (tab, 0, false) w) →
  (∀ tab fr used l w, going dt F l0 w0 va 1 tab fr used l w → frames_suffice (w_mem w0) va l0 = true →
    Q (tab, fr, true) w) →
  wp (walk_down va) Q w0.
Proof.
  intros Hok Hno Hfail HQ.
  assert (∀ lv tab fr used l w, (2 <= lv <= 4)%nat → going dt F l0 w0 va lv tab fr used l w → fr = 0 → l = [] →
    Q (tab, 0, false) w) as Hf.
  { intros lv tab fr used l w Hlv Hg -> ->. eapply Hfail; [exact Hg|]. apply bool_decide_eq_false.
    pose proof (lacking_more _ _ _ _ _ _ _ _ _ _ Hlv Hg). pose proof (gg_split _ _ _ _ _ _ _ _ _ _ _ Hg) as ->.
    change (0 =? 0) with true. cbv iota. rewrite app_nil_r. lia. }
  unfold walk_down. change (loop 4 _) with (loop 4 (level_round va)).
  apply wp_loop_step. change TAB_LEVEL_4 with (Z.of_nat 4).
  eapply wp_level; [|apply going_start, Hok|done| |]; [lia| |].
  { intros Hz Hl. apply (Hf 4%nat _tab_4 0 [] l0 w0); [lia|by apply going_start|done|done]. }
  intros t3 f3 u3 l3 w3 G3. change (4 - 1)%nat with 3%nat in *.
  apply wp_loop_step. eapply wp_level; [|exact G3|done| |]; [lia| |].
  { intros Hz Hl. apply (Hf 3%nat t3 f3 u3 l3 w3); [lia|done..]. }
  intros t2 f2 u2 l2 w2 G2. change (3 - 1)%nat with 2%nat in *.
  apply wp_loop_step. eapply wp_level; [|exact G2|done| |]; [lia| |].
  { intros Hz Hl. apply (Hf 2%nat t2 f2 u2 l2 w2); [lia|done..]. }
  intros t1 f1 u1 l1 w1 G1. change (2 - 1)%nat with 1%nat in *.
  apply wp_loop_step. unfold level_round. change (TAB_LEVEL_1 <? Z.of_nat 1) with false. cbv iota. apply wp_ret.
  eapply HQ; [exact G1|]. apply bool_decide_eq_true.
  pose proof (gg_used _ _ _ _ _ _ _ _ _ _ _ G1) as <-. pose proof (gg_split _ _ _ _ _ _ _ _ _ _ _ G1) as ->.
  pose proof (gg_null _ _ _ _ _ _ _ _ _ _ _ G1) as Hnull. rewrite length_app.
  destruct (Z.eqb_spec f1 0) as [Hz|Hz]; [|simpl; lia].
  destruct (Hnull Hz) as [?|H1]; [done|]. rewrite (gg_used _ _ _ _ _ _ _ _ _ _ _ G1).
  pose proof (lacking_step (w_mem w0) va 2 ltac:(lia)) as H2. change (2 - 1)%nat with 1%nat in H2. lia.
Qed.

(* --------------------------------------------------------------------- *)
(** ** The leaf, and the frame that was not needed *)

(** The entry of the level-[lv] table [t] that maps the page of [va]. *)
Record leaf_at (m : memory) (va : Z) (lv : nat) (t e : Z) : Prop := {
  lf_level : (lv = 1%nat ∧ entry_huge e = false) ∨ (lv = 2%nat ∧ entry_huge e = true);
  lf_walk : walk m _tab_4 (path_of lv va) = Some t;
  lf_entry : load64 m (t + 8 * idx va (Z.of_nat lv)) = e;
  lf_present : entry_present e = true;
}.

Lemma wp_write_leaf dt F l w va pa tab (Q : unit → world vm → Prop) :
  vm_ok dt F l w → walk (w_mem w) _tab_4 (path_of 1 va) = Some tab → translate (w_mem w) _tab_4 va = None →
  page_of 1 va ≠ page_of 1 WIN → frame_ok pa →
  (∀ m, vm_ok dt F l (World m (w_st w)) → (∀ a, ¬ (tab <= a < tab + 4096) → load8 m a = load8 (w_mem w) a) →
    (∀ va', translate m _tab_4 va' = if decide (page_of 1 va' = page_of 1 va) then Some (pa + va' `mod` 4096)
      else translate (w_mem w) _tab_4 va') → leaf_at m va 1 tab (pa + 3) → Q () (World m (w_st w))) →
  wp (tab_va ← mm_page_direct_access_setup tab;
      entry ← entry_of tab_va va TAB_LEVEL_1;
      zero ← _tab_entry_is_zero entry;
      kernel_assert zero ;;
      _tab_entry_init entry TAB_LEVEL_1 true true pa PAGE_SIZE_4K ;;
      mm_page_direct_access_reset) Q w.
Proof.
  intros Hok Hw Hno Hpage Hpa HQ. pose proof (vo_win _ _ _ _ Hok) as Hwin. pose proof (vo_static _ _ _ _ Hok) as Hs.
  set (m := w_mem w) in *. set (i := idx va 1).
  assert (path_ok (path_of 1 va)) as Hp by apply (path_of_ok 1). assert (index_ok i) as Hi by apply idx_range.
  destruct (tree_range (wo_tree _ _ _ Hwin) _ _ Hp Hw) as (Ht0&Htl&Htd).
  assert (frame_ok tab) as Htab by (split; [done|lia]). destruct WIN_ok as (_&_&Hw64&Hw0).
  assert (load64 m (tab + 8 * i) = 0) as H0.
  { destruct (tree_unmapped_entry _ _ _ va 1 tab (wo_tree _ _ _ Hwin) (vo_clean _ _ _ _ Hok) ltac:(lia) Hno Hw) as [?|[? _]]; [done|lia]. }
  assert (absent_entry F m (path_of 1 va) i tab) as Hz by (split; [apply Hwin|done..|by rewrite H0]).
  assert ((path_of 1 va, i) ≠ (path_of 1 WIN, idx WIN 1)) as Hne by (by apply leaf_not_window).
  pose proof (absent_entry_apart _ _ _ _ _ _ Hwin Hz Hne) as Hap.
  destruct (table_flags pa Hpa) as (P3&_&E3&_).
  destruct (frame_value pa 3 Hpa ltac:(lia)) as (V3&W3&_), (frame_value pa 1 Hpa ltac:(lia)) as (V1&W1&_).
  destruct (win_ok_leaf dt F m va tab (pa + 3) Hwin Hz Hpage V3 W3) as [Hwin' Hin].
  destruct (win_ok_leaf dt F m va tab (pa + 1) Hwin Hz Hpage V1 W1) as [Hwin1 _].
  assert (tree_clean (store64 (tab + 8 * i) (pa + 3) m) _tab_4) as Hcl.
  { apply (clean_install_leaf (absent_entry_update _ _ _ _ _ _ Hz V3)); [apply Hok|done|by left]. }
  apply wp_bind. eapply wp_setup; [exact Hs|exact Hwin|exact Htab|]. intros m1 Hm1. fold m in Hm1.
  apply wp_bind, wp_entry_of; [unfold TAB_LEVEL_1; lia|lia|lia|]. fold i.
  assert (reach m1 (cr3 (w_st w)) (WIN + 8 * i) (tab + 8 * i) 8) as Hr.
  { eapply (reach_win_entry dt F m tab (World m1 (w_st w))); [exact Hs|done..]. }
  apply wp_bind. eapply wp_tab_entry_is_zero; [exact Hr|]. cbn [w_mem].
  assert (load64 m1 (tab + 8 * i) = 0) as ->.
  { rewrite Hm1. unfold load64. by rewrite load_opened by lia. }
  apply wp_bind, wp_assert; [done|]. apply wp_bind.
  eapply (wp_init_in_window dt F F m (path_of 1 va) i tab pa); try done. intros m2 Hm2. cbn [w_st].
  eapply (wp_reset dt _ _ tab); [exact Hs|exact Hwin'|done|exact Hm2|]. intros m3 Hm3. cbn [w_st]. apply HQ.
  - eapply vm_ok_proper; [symmetry; exact Hm3|]. eapply vm_ok_entry; [exact Hok|apply Hz|apply Hz|apply Hz|exact Hwin'|exact Hcl| |done].
    intros g Hg. by destruct (vo_frames _ _ _ _ Hok g Hg) as (_&_&?&_).
  - intros a Ha. rewrite (Hm3 a). apply load8_store_ne. unfold index_ok in Hi. lia.
  - intros va'. rewrite Hm3, (translate_leaf_1 Hin Hw P3), E3. done.
  - split; [left; split; [done|apply (table_flags pa Hpa)]| | |done].
    + rewrite Hm3, (walk_leaf (absent_entry_update _ _ _ _ _ (pa + 3) Hz V3)); [done|by left|done].
    + rewrite Hm3. by apply load64_store64_eq.
Qed.

Lemma wp_give_back dt F l w f (Q : unit → world vm → Prop) : vm_ok dt F l w → spare F l f →
  (∀ w', vm_ok dt F (f :: l) w' → frees (w_st w) (w_st w') →
    (∀ a, ¬ (f <= a < f + 4096) → load8 (w_mem w') a = load8 (w_mem w) a) →
    (∀ va, translate (w_mem w') _tab_4 va = translate (w_mem w) _tab_4 va) → Q () w') →
  wp (frame_va ← mm_page_direct_access_setup f; mm_frame_free frame_va f ;; mm_page_direct_access_reset) Q w.
Proof.
  intros Hok Hsp HQ. pose proof (vo_win _ _ _ _ Hok) as Hwin. pose proof (vo_static _ _ _ _ Hok) as Hs.
  pose proof Hsp as [Hf Hf0 HF Hr Hnew]. set (h := _free_head (st_frame (w_st w))).
  set (m := store64 f h (w_mem w)).
  assert (∀ a, ¬ (f <= a < f + 4096) → load8 m a = load8 (w_mem w) a) as Hm by (intros a Ha; apply load8_store_ne; lia).
  assert (is_u64 h) as Hh.
  { pose proof (vo_chain _ _ _ _ Hok) as Hc. fold h in Hc. destruct l as [|g l]; cbn [chain] in Hc; [by rewrite Hc|].
    destruct Hc as [-> _]. destruct (vo_frames _ _ _ _ Hok g) as ((_&?&?)&_); [by left|].
    unfold is_u64, PA_LIMIT in *. lia. }
  pose proof (spare_agree dt F l w f m Hok Hsp Hm) as Hokm.
  apply wp_bind. eapply wp_setup; [exact Hs|exact Hwin|done|]. intros m1 Hm1.
  apply wp_bind. eapply wp_mm_frame_free_raw; cbn [w_mem w_st].
  { rewrite <-(Z.add_0_r WIN), <-(Z.add_0_r f).
    eapply (reach_win dt F (w_mem w) f (World m1 (w_st w)) 0); [exact Hs|done..]. }
  eapply (wp_reset dt F m f); cbn [w_mem w_st]; [by apply statics_set_frame|apply Hokm|done| |].
  { unfold store64. rewrite Hm1. apply (opened_store dt f (w_mem w) 8).
    destruct (win_entry_outside dt F (w_mem w) f Hwin Hf HF Hr); lia. }
  intros m2 Hm2. apply HQ; cbn [w_mem w_st].
  - eapply vm_ok_proper; [symmetry; exact Hm2|].
    apply (vm_ok_push dt F l w f m); [done|done|done|by apply load64_store64_eq|done].
  - done.
  - intros a Ha. rewrite (Hm2 a). by apply Hm.
  - intros va. rewrite Hm2. by apply (spare_same dt F (w_mem w) f m Hwin Hf HF Hr Hm).
Qed.

(** Writing into a frame that is no table leaves a leaf alone. *)
Lemma leaf_elsewhere dt F m f m' va lv t e : win_ok dt F m → frame_ok f → ¬ F f → f ≠ _tab_4 →
  (∀ a, ¬ (f <= a < f + 4096) → load8 m' a = load8 m a) → leaf_at m va lv t e → leaf_at m' va lv t e.
Proof.
  intros Hwin Hf HF Hr Hm [Hlv Hw He Hp]. destruct (spare_same dt F m f m' Hwin Hf HF Hr Hm) as [Hwalk _].
  split; [done|by rewrite Hwalk by apply path_of_ok| |done]. rewrite <-He. symmetry. apply (load_agree 8).
  intros a Ha. symmetry. apply Hm. pose proof (idx_range va (Z.of_nat lv)) as Hi. unfold index_ok in Hi.
  destruct (table_elsewhere F m (path_of lv va) t f (wo_tree _ _ _ Hwin) (path_of_ok lv va) Hw Hf HF Hr); lia.
Qed.

Lemma wp_mm_page_map dt F l w va pa (Q : bool → world vm → Prop) :
  vm_ok dt F l w → (4096 | va) → frame_ok pa → translate (w_mem w) _tab_4 va = None →
  page_of 1 va ≠ page_of 1 WIN →
  (∀ ok w', ok = frames_suffice (w_mem w) va l →
    vm_ok dt (more F (take (lacking (w_mem w) va 1) l)) (drop (lacking (w_mem w) va 1) l) w' →
    frees (w_st w) (w_st w') →
    (∀ va', translate (w_mem w') _tab_4 va' =
      if decide (ok = true ∧ page_of 1 va' = page_of 1 va) then Some (pa + va' `mod` 4096)
      else translate (w_mem w) _tab_4 va') →
    (∀ a, elsewhere F l a → load8 (w_mem w') a = load8 (w_mem w) a) →
    (ok = true → ∃ tab, leaf_at (w_mem w') va 1 tab (pa + 3)) → Q ok w') →
  wp (mm_page_map va pa) Q w.
Proof.
  intros Hok Hva Hpa Hno Hpage HQ. unfold mm_page_map.
  apply wp_bind, wp_assert; [apply Z.eqb_eq, Z.mod_divide; done|].
  apply wp_bind, wp_assert; [apply Z.eqb_eq, Z.mod_divide; [done|apply Hpa]|].
  apply wp_bind. eapply wp_walk_down; [exact Hok|done| |].
  - intros lv tab used w1 Hg Hs. apply wp_bind. eapply is_reset_ok; [apply Hg|apply Hg|].
    apply wp_bind, wp_assert; [done|]. apply wp_bind, wp_ret, wp_bind. change (negb (0 =? UPTR_NULL)) with false.
    apply wp_ret, wp_ret. apply HQ; [done| |apply Hg| |apply Hg|done].
    + pose proof (gg_split _ _ _ _ _ _ _ _ _ _ _ Hg) as Hl. change (0 =? 0) with true in Hl. cbv iota in Hl.
      rewrite app_nil_r in Hl. subst used. apply bool_decide_eq_false in Hs.
      assert (take (lacking (w_mem w) va 1) l = l ∧ drop (lacking (w_mem w) va 1) l = []) as [-> ->]; [|apply Hg].
      destruct l as [|f l]; [by destruct (lacking _ _ _)|]. simpl length in Hs.
      split; [apply take_ge|apply drop_ge]; simpl; lia.
    + intros va'. rewrite decide_False by (by intros [? _]). apply Hg.
  - intros tab fr used l' w1 Hg Hs. apply wp_bind. eapply is_reset_ok; [apply Hg|apply Hg|].
    apply wp_bind, wp_assert; [done|]. apply wp_bind.
    assert (lacking (w_mem w) va 1 = length used) as Hk by (symmetry; apply Hg).
    pose proof (gg_split _ _ _ _ _ _ _ _ _ _ _ Hg) as Hl.
    eapply (wp_write_leaf dt (more F used) l' w1 va pa tab);
      [apply Hg|apply Hg|by rewrite (gg_xlate _ _ _ _ _ _ _ _ _ _ _ Hg)|done|done|].
    intros m2 Hok2 Hout2 Hx2 Hleaf2.
    assert (∀ a, elsewhere F l a → load8 m2 a = load8 (w_mem w) a) as Hout.
    { intros a Ha. rewrite Hout2; [by apply Hg|]. apply Ha.
      destruct (tr_tables _ _ _ (wo_tree _ _ _ (vo_win _ _ _ _ (gg_ok _ _ _ _ _ _ _ _ _ _ _ Hg))) _ tab
        (path_of_ok 1 va) (gg_walk _ _ _ _ _ _ _ _ _ _ _ Hg)) as [->|[?|Hu]]; [by left|by right; left|].
      right. right. rewrite Hl. apply elem_of_app. by left. }
    assert (∀ va', translate m2 _tab_4 va' =
      if decide (true = true ∧ page_of 1 va' = page_of 1 va) then Some (pa + va' `mod` 4096)
      else translate (w_mem w) _tab_4 va') as Hx.
    { intros va'. rewrite Hx2, (gg_xlate _ _ _ _ _ _ _ _ _ _ _ Hg). repeat case_decide; tauto. }
    apply wp_bind. destruct (Z.eqb_spec fr 0) as [->|Hfr].
    + change (negb (0 =? UPTR_NULL)) with false. apply wp_ret, wp_ret.
      apply HQ; [done| |apply Hg|done|done|by exists tab]. rewrite Hk, Hl, take_app_length, drop_app_length. done.
    + rewrite (proj2 (Z.eqb_neq fr UPTR_NULL)) by done.
      pose proof (ih_spare _ _ _ _ (gg_hand _ _ _ _ _ _ _ _ _ _ _ Hg Hfr)) as Hsp.
      eapply (wp_give_back dt (more F used) l' (World m2 (w_st w1)) fr); [done|done|]. intros w3 Hok3 Hfrees3 Hout3 Hx3.
      apply wp_ret. apply HQ; [done| | | | |].
      * by rewrite Hk, Hl, take_app_length, drop_app_length.
      * etrans; [apply Hg|done].
      * intros va'. rewrite Hx3. apply Hx.
      * intros a Ha. rewrite Hout3; [by apply Hout|]. apply Ha. right. right. rewrite Hl. apply elem_of_app. right. by left.
      * intros _. exists tab. apply (leaf_elsewhere dt (more F used) m2 fr); [apply Hok2|apply Hsp..|exact Hout3|exact Hleaf2].
Qed.

(** C5: [mm_page_map] maps the page of an unmapped address at the asked frame
    and changes no other translation, provided there is a free frame for every
    missing table and at least one; otherwise it answers no and no translation
    changes.  The missing tables are built from the first free frames, a frame
    taken in vain goes back, and no byte outside the tables and the free
    frames is written. *)
Theorem mm_page_map_ok dt F l w va pa (Hok : vm_ok dt F l w) (Hva : (4096 | va)) (Hpa : frame_ok pa)
    (Hno : translate (w_mem w) _tab_4 va = None)
    (Hpage : page_of 1 va <> page_of 1 VA_48_DIRECT_ACCESS_PAGE) :
  ∃ ok w', mm_page_map va pa w = Done (ok, w') ∧
    ok = frames_suffice (w_mem w) va l ∧
    vm_ok dt (more F (take (lacking (w_mem w) va 1) l)) (drop (lacking (w_mem w) va 1) l) w' ∧
    frees (w_st w) (w_st w') ∧
    (∀ va', translate (w_mem w') _tab_4 va' =
      if decide (ok = true ∧ page_of 1 va' = page_of 1 va) then Some (pa + va' `mod` 4096)
      else translate (w_mem w) _tab_4 va') ∧
    (∀ a, elsewhere F l a → load8 (w_mem w') a = load8 (w_mem w) a).
Proof. apply wp_done. eapply wp_mm_page_map; [done..|]. intros ok w' ? ? ? ? ? _. done. Qed.

End map.
