(* ===== verification/MmPageClear.v ===== *)
(** Clearing an entry of the run-time page tables: a leaf, or the entry of a
    table that holds nothing.

    Seen backwards, clearing an entry is writing it, so the lemmas of [Mmu]
    about removed entries apply.  [vm_ok_clear_leaf] and [vm_ok_remove_table]
    are what these two steps do to the invariant of the paging state. *)
From S2P Require Import Prelude Memory MmCore Mmu VirtMem MmPage.
From S2P Require Import MmPageRep MmPageFrames MmPageMap.

#[local] Opaque fill.

(* --------------------------------------------------------------------- *)
(** ** An entry, cleared *)

Lemma clear_walk m root F p i t q u : tree_ok m root F → path_ok p → index_ok i → walk m root p = Some t →
  path_ok q → walk (store64 (t + 8 * i) 0 m) root q = Some u → walk m root q = Some u ∧ ¬ p ++ [i] `prefix_of` q.
Proof.
  intros Hok Hp Hi Hw. revert u. induction q as [|j q IH] using rev_ind; intros u Hq.
  - intros Hu. split; [exact Hu|]. intros [r Hr]. by destruct p.
  - destruct (path_ok_snoc q j Hq) as (Hq0&Hj&_). intros (v&Hv&Hn)%walk_prefix.
    destruct (IH v Hq0 Hv) as [Hmv Hpre]. unfold next_table in Hn.
    destruct (decide ((q, j) = (p, i))) as [[= -> ->]|Hne].
    + assert (v = t) as -> by congruence. rewrite load64_store64_eq in Hn by (unfold is_u64; lia). done.
    + rewrite load64_store64_ne in Hn by (destruct (tree_disjoint Hok q p v t j i); done || lia).
      split; [by rewrite walk_snoc, Hmv|]. intros [r Hr]. destruct r as [|x r _] using rev_ind.
      * rewrite app_nil_r in Hr. apply app_inj_tail in Hr as [-> ->]. done.
      * rewrite app_assoc in Hr. apply app_inj_tail in Hr as [-> _]. apply Hpre. by exists r.
Qed.

(** Only what lies below the entry is lost. *)
Lemma clear_walk_keep m root F p i t q : tree_ok m root F → path_ok p → index_ok i → walk m root p = Some t →
  path_ok q → ¬ p ++ [i] `prefix_of` q → walk (store64 (t + 8 * i) 0 m) root q = walk m root q.
Proof.
  intros Hok Hp Hi Hw. induction q as [|j q IH] using rev_ind; intros Hq Hpre; [done|].
  destruct (path_ok_snoc q j Hq) as (Hq0&Hj&_). rewrite !walk_snoc, IH; [|done|].
  - destruct (walk m root q) as [v|] eqn:Hv; [|done]. simpl. unfold next_table.
    rewrite load64_store64_ne; [done|]. destruct (tree_disjoint Hok q p v t j i); try done; [|lia..].
    intros [= -> ->]. by apply Hpre.
  - intros [r ->]. apply Hpre. exists (r ++ [j]). by rewrite app_assoc.
Qed.

(** Seen backwards, clearing an entry is writing it. *)
Lemma entry_clear m root F p i t : tree_ok m root F → path_ok p → index_ok i → walk m root p = Some t →
  entry_update (store64 (t + 8 * i) 0 m) m root p i t (load64 m (t + 8 * i)).
Proof.
  intros Hok Hp Hi Hw. split; [done..| | |done|].
  - rewrite (clear_walk_keep m root F p i t p); try done.
    intros [r Hr%(f_equal length)]. rewrite !length_app in Hr. simpl in Hr. lia.
  - by rewrite load64_store64_eq by (unfold is_u64; lia).
  - intros q u j Hq Hj Hu Hne. destruct (clear_walk m root F p i t q u) as [Hu' _]; try done.
    rewrite load64_store64_ne; [done|]. destruct (tree_disjoint Hok q p u t j i); done || lia.
Qed.

Lemma clear_zero m a : load64 (store64 a 0 m) a = 0.
Proof. by rewrite load64_store64_eq. Qed.

Section clear.
Context `{VmLink}.

Abbreviation WIN := VA_48_DIRECT_ACCESS_PAGE.

(* --------------------------------------------------------------------- *)
(** ** A leaf *)

Lemma leaf_off_window dt F m va lv t e : win_ok dt F m → leaf_at m va lv t e →
  (path_of lv va, idx va (Z.of_nat lv)) ≠ (path_of 1 WIN, idx WIN 1) ∧
  ¬ path_of lv va ++ [idx va (Z.of_nat lv)] `prefix_of` path_of 1 WIN.
Proof.
  intros Hwin [Hlv Hw He Hp]. pose proof (wo_walk _ _ _ Hwin) as Hdt. destruct Hlv as [[-> Hh]|[-> Hh]].
  - split; [|intros [r Hr%(f_equal length)]; simpl in Hr; lia].
    intros [= E4 E3 E2 E1]. change (Z.of_nat 1) with 1 in *.
    cbn [path_of] in Hw, Hdt. rewrite E4, E3, E2, Hdt in Hw. injection Hw as <-. rewrite E1 in He.
    pose proof (wo_shut _ _ _ Hwin) as H0. unfold win_entry in H0. rewrite He in H0. by rewrite H0 in Hp.
  - split; [done|]. intros [r Hr]. destruct r; [|apply (f_equal length) in Hr; simpl in Hr; lia].
    rewrite app_nil_r in Hr. rewrite Hr, walk_pte, (pte_walk _ _ _ _ _ Hw), He, Hh, andb_false_r in Hdt. done.
Qed.

Lemma same_page lv va va' : (lv = 1%nat ∨ lv = 2%nat) →
  page_of (Z.of_nat lv) va = page_of (Z.of_nat lv) va' ↔
  path_of lv va = path_of lv va' ∧ idx va (Z.of_nat lv) = idx va' (Z.of_nat lv).
Proof.
  intros [->| ->].
  - change (Z.of_nat 1) with 1. rewrite same_page_1. cbn [path_of]. naive_solver congruence.
  - change (Z.of_nat 2) with 2. rewrite same_page_2. cbn [path_of]. naive_solver congruence.
Qed.

Lemma leaf_gone m va va' lv t : (lv = 1%nat ∨ lv = 2%nat) → walk m _tab_4 (path_of lv va) = Some t →
  entry_present (load64 m (t + 8 * idx va (Z.of_nat lv))) = false →
  page_of (Z.of_nat lv) va' = page_of (Z.of_nat lv) va → translate m _tab_4 va' = None.
Proof.
  intros [->| ->] Hw H0 Hpage; [by eapply leaf_absent|].
  apply (same_page 2) in Hpage as [Hp Hi]; [|by right]. rewrite <-Hp in Hw. rewrite <-Hi in H0. clear Hp Hi.
  rewrite translate_xlate. unfold xlate. change (Z.of_nat 2) with 2 in *.
  rewrite (pte_walk _ _ [idx va' 4; idx va' 3] _ _ Hw), H0.
  change (path_of 2 va') with ([idx va' 4] ++ [idx va' 3]) in Hw.
  destruct (walk_path_present _ _ _ _ _ Hw) as [A3 B3]. apply walk_prefix in Hw as (t3&Hw&_).
  change [idx va' 4] with ([] ++ [idx va' 4]) in Hw.
  destruct (walk_path_present _ _ _ _ _ Hw) as [A4 B4]. cbn [app] in *. by rewrite A4, B4, A3, B3.
Qed.

(** Clearing a leaf takes exactly its page away. *)
Lemma leaf_cleared dt F m va lv t e : win_ok dt F m → leaf_at m va lv t e →
  let m0 := store64 (t + 8 * idx va (Z.of_nat lv)) 0 m in
  tree_ok m0 _tab_4 F ∧ (tree_clean m _tab_4 → tree_clean m0 _tab_4) ∧
  (∀ q, path_ok q → walk m0 _tab_4 q = walk m _tab_4 q) ∧
  (∀ va', translate m0 _tab_4 va' =
    if decide (page_of (Z.of_nat lv) va' = page_of (Z.of_nat lv) va) then None else translate m _tab_4 va') ∧
  (∀ va', page_of (Z.of_nat lv) va' = page_of (Z.of_nat lv) va →
    translate m _tab_4 va' = Some (entry_frame e + va' `mod` page_span (Z.of_nat lv))).
Proof.
  intros Hwin Hleaf m0. pose proof (wo_tree _ _ _ Hwin) as Hok. destruct Hleaf as [Hlv Hw He Hp].
  pose proof (path_of_ok lv va) as Hpo. pose proof (idx_range va (Z.of_nat lv)) as Hi.
  pose proof (entry_clear m _tab_4 F _ _ t Hok Hpo Hi Hw) as Hup. fold m0 in Hup. rewrite He in Hup.
  assert (length (path_of lv va) = 3%nat ∨ (entry_huge e = true ∧ path_of lv va ≠ [])) as Hl.
  { destruct Hlv as [[-> ?]|[-> ?]]; [by left|by right]. }
  assert (∀ q, path_ok q → walk m0 _tab_4 q = walk m _tab_4 q) as Hwalk.
  { intros q Hq. symmetry. apply (walk_leaf Hup); [tauto|done]. }
  assert (load64 m0 (t + 8 * idx va (Z.of_nat lv)) = 0) as H0 by apply clear_zero.
  assert (installed (path_of lv va) (idx va (Z.of_nat lv)) e (pte m0 _tab_4) (pte m _tab_4)) as Hin
    by (apply (installed_leaf Hup); tauto).
  assert (walk m0 _tab_4 (path_of lv va) = Some t) as Hw0 by (by rewrite Hwalk).
  assert (∀ va', translate m _tab_4 va' = if decide (page_of (Z.of_nat lv) va' = page_of (Z.of_nat lv) va)
    then Some (entry_frame e + va' `mod` page_span (Z.of_nat lv)) else translate m0 _tab_4 va') as Hx.
  { intros va'. destruct Hlv as [[-> ?]|[-> ?]]; [by apply (translate_leaf_1 Hin Hw0)|by apply (translate_leaf_2 Hin Hw0)]. }
  split; [by apply (tree_remove_leaf Hok Hup H0)|]. split; [apply (clean_remove_leaf Hup H0); tauto|].
  split; [done|]. split.
  - intros va'. case_decide as Hpage.
    + eapply leaf_gone; [|exact Hw0|by rewrite H0|exact Hpage]. tauto.
    + by rewrite Hx, decide_False.
  - intros va' Hpage. by rewrite Hx, decide_True.
Qed.

(** The window's entry lies in the page of its table. *)
Lemma win_entry_page dt lv k : (4096 | dt) → (lv = 1%nat ∨ lv = 2%nat) → 0 <= k < 8 →
  page_of (Z.of_nat lv) (win_entry dt + k) = page_of (Z.of_nat lv) dt.
Proof.
  intros Hd Hlv Hk. pose proof (idx_range WIN 1) as Hi. unfold index_ok in Hi. apply same_page; [done|].
  unfold win_entry. rewrite <-Z.add_assoc. set (o := 8 * idx WIN 1 + k).
  assert (∀ j, 1 <= j → idx (dt + o) j = idx dt j) as He by (intros j Hj; apply idx_offset; done || lia).
  destruct Hlv as [->| ->]; cbn [path_of]; rewrite !He by lia; done.
Qed.

Lemma dt_aligned dt F m : win_ok dt F m → (4096 | dt).
Proof.
  intros Hwin. apply (tree_range (wo_tree _ _ _ Hwin) (path_of 1 WIN)); [apply (path_of_ok 1)|apply Hwin].
Qed.

Lemma vm_ok_clear_leaf dt F l w va lv t e : vm_ok dt F l w → leaf_at (w_mem w) va lv t e →
  page_of (Z.of_nat lv) dt ≠ page_of (Z.of_nat lv) va →
  vm_ok dt F l (World (store64 (t + 8 * idx va (Z.of_nat lv)) 0 (w_mem w)) (w_st w)).
Proof.
  intros Hok Hleaf Hdt. pose proof (vo_win _ _ _ _ Hok) as Hwin.
  destruct (leaf_cleared dt F (w_mem w) va lv t e Hwin Hleaf) as (Ht&Hc&Hwalk&Hx&_).
  destruct (leaf_off_window dt F (w_mem w) va lv t e Hwin Hleaf) as [Hne _]. pose proof Hleaf as [Hlv Hw He Hp].
  eapply vm_ok_entry; [exact Hok|apply path_of_ok|apply idx_range|exact Hw| |apply Hc, Hok| |done].
  - split; [done| | |].
    + rewrite Hwalk by apply (path_of_ok 1). apply Hwin.
    + pose proof (wo_walk _ _ _ Hwin) as Hdw. unfold win_entry. rewrite load64_store64_ne; [apply Hwin|].
      destruct (tree_disjoint (wo_tree _ _ _ Hwin) (path_of 1 WIN) (path_of lv va) dt t (idx WIN 1) (idx va (Z.of_nat lv)));
        try apply path_of_ok; try apply (path_of_ok 1); try apply idx_range; done || lia.
    + eapply reach_same; [|apply Hwin]. intros k Hk. rewrite Hx, decide_False; [done|].
      rewrite win_entry_page; [done|by eapply dt_aligned|tauto|done].
  - intros g Hg. by destruct (vo_frames _ _ _ _ Hok g Hg) as (_&_&?&_).
Qed.

(* --------------------------------------------------------------------- *)
(** ** An empty table *)

Definition except (F : Z → Prop) (f u : Z) : Prop := F u ∧ u ≠ f.

Lemma vm_ok_remove_table dt F l w p i t f : vm_ok dt F l w → path_ok p → index_ok i → (length p <= 2)%nat →
  walk (w_mem w) _tab_4 p = Some t → walk (w_mem w) _tab_4 (p ++ [i]) = Some f → f ≠ dt →
  (∀ j, index_ok j → load64 (w_mem w) (f + 8 * j) = 0) → ¬ F 0 →
  let m0 := store64 (t + 8 * i) 0 (w_mem w) in
  vm_ok dt (except F f) l (World m0 (w_st w)) ∧ spare (except F f) l f ∧
  (∀ va, translate m0 _tab_4 va = translate (w_mem w) _tab_4 va) ∧
  (∀ q, path_ok q → q ≠ p ++ [i] → walk m0 _tab_4 q = walk (w_mem w) _tab_4 q).
Proof.
  intros Hok Hp Hi Hl Hw Hf Hdt Hz HF0 m0. pose proof (vo_win _ _ _ _ Hok) as Hwin.
  pose proof (wo_tree _ _ _ Hwin) as Htree. set (m := w_mem w) in *. set (v := load64 m (t + 8 * i)).
  pose proof (entry_clear m _tab_4 F p i t Htree Hp Hi Hw) as Hup. fold v m0 in Hup.
  assert (load64 m0 (t + 8 * i) = 0) as H0 by apply clear_zero.
  assert (entry_present v = true ∧ entry_huge v = false ∧ entry_frame v = f) as Htab.
  { rewrite walk_pte, (pte_walk _ _ _ _ _ Hw) in Hf. fold v in Hf.
    destruct (entry_present v), (entry_huge v); try done. injection Hf as ->. done. }
  assert (path_ok (p ++ [i])) as Hpi.
  { split; [rewrite length_app; simpl; lia|]. apply Forall_app. split; [apply Hp|]. by apply list.Forall_singleton. }
  assert (dead m f) as Hdead by (intros j Hj; by rewrite Hz).
  assert (∀ q, path_ok q → q ≠ p ++ [i] → walk m0 _tab_4 q = walk m _tab_4 q) as Hwalk.
  { intros q Hq Hne. symmetry. by apply (walk_other Hup Htab). }
  assert (∀ va, translate m0 _tab_4 va = translate m _tab_4 va) as Hx.
  { intros va. symmetry. by apply (translate_remove_table Hup H0 Htab Hdead). }
  assert (path_of 1 WIN ≠ p ++ [i]) as Hne.
  { intros He. pose proof (wo_walk _ _ _ Hwin) as Hd. fold m in Hd. rewrite He in Hd. congruence. }
  assert (f ≠ _tab_4) as Hroot.
  { intros ->. assert ([] = p ++ [i]) as He by (apply (tr_inj _ _ _ Htree _ _ _tab_4); [by split; [simpl; lia|]|done..]).
    by destruct p. }
  assert (F f) as HF by (destruct (tr_tables _ _ _ Htree _ _ Hpi Hf) as [?|?]; done).
  split; [|split; [|done]].
  - eapply vm_ok_entry; [exact Hok|exact Hp|exact Hi|exact Hw| | | |done].
    + split; [by apply (tree_remove_table Htree Hup H0 Htab Hdead)| | |].
      * rewrite Hwalk; [apply Hwin|apply (path_of_ok 1)|done].
      * unfold win_entry. rewrite load64_store64_ne; [apply Hwin|].
        assert ((path_of 1 WIN, idx WIN 1) ≠ (p, i)) as Hne2 by (intros [= He _]; rewrite <-He in Hl; simpl in Hl; lia).
        destruct (tree_disjoint Htree (path_of 1 WIN) p dt t (idx WIN 1) i);
          first [done|apply (path_of_ok 1)|apply idx_range|apply Hwin|lia].
      * eapply reach_same; [|apply Hwin]. intros k Hk. apply Hx.
    + apply (clean_remove_table Hup H0 Htab Hdead), Hok.
    + intros g Hg [HFg _]. by destruct (vo_frames _ _ _ _ Hok g Hg) as (_&_&?&_).
  - split; [apply (tr_frame _ _ _ Htree f HF)|by intros ->|by intros []|done|].
    intros Hfl. by destruct (vo_frames _ _ _ _ Hok f Hfl) as (_&_&?&_).
Qed.

End clear.
