(* ===== verification/MmPageUnmap.v ===== *)
(** Unmapping a page at run time, [_unmap] of src/mm/mm_page.c, proved.

    The code first reads the frames of the tables on the path, may give the
    frame of the page back, and then clears the entries from the leaf upwards:
    a table that became empty is itself given back.  Between those two steps
    the tree holds a table that is on the free list already; the proof follows
    the memory in which the pending entry is cleared ([ready]).

    A table never looks empty while it holds the window's entry: the window is
    open on it when the code looks. *)
From S2P Require Import Prelude Memory MmCore Mmu VirtMem MmPage.
From S2P Require Import MmPageRep MmPageFrames MmPageMap MmPageClear.

#[local] Opaque fill.

Section unmap.
Context `{VmLink}.

Abbreviation WIN := VA_48_DIRECT_ACCESS_PAGE.

(* --------------------------------------------------------------------- *)
(** ** The way down *)

(** The window on the table of level [lv]: what is read there. *)
Lemma window_table dt F m va lv tab : win_ok dt F m → (1 <= lv <= 4)%nat → walk m _tab_4 (path_of lv va) = Some tab →
  frame_ok tab ∧ index_ok (idx va (Z.of_nat lv)) ∧ path_ok (path_of lv va) ∧
  ((path_of lv va, idx va (Z.of_nat lv)) ≠ (path_of 1 WIN, idx WIN 1) →
    tab + 8 * idx va (Z.of_nat lv) + 8 <= win_entry dt ∨ win_entry dt + 8 <= tab + 8 * idx va (Z.of_nat lv)).
Proof.
  intros Hwin Hlv Hw. pose proof (wo_tree _ _ _ Hwin) as Htree. pose proof (path_of_ok lv va) as Hp.
  pose proof (idx_range va (Z.of_nat lv)) as Hi. destruct (tree_range Htree _ _ Hp Hw) as (?&?&?).
  split; [by split|]. split; [done|]. split; [done|]. intros Hne. unfold win_entry.
  destruct (tree_disjoint Htree (path_of lv va) (path_of 1 WIN) tab dt (idx va (Z.of_nat lv)) (idx WIN 1));
    first [done|apply (path_of_ok 1)|apply idx_range|apply Hwin|lia].
Qed.

Lemma wp_unmap_level dt F va lv tab e (Q : bool * Z → world vm → Prop) w :
  (1 <= lv <= 4)%nat → statics dt (w_st w) → win_ok dt F (w_mem w) →
  walk (w_mem w) _tab_4 (path_of lv va) = Some tab →
  (path_of lv va, idx va (Z.of_nat lv)) ≠ (path_of 1 WIN, idx WIN 1) →
  load64 (w_mem w) (tab + 8 * idx va (Z.of_nat lv)) = e → entry_present e = true →
  (entry_huge e = true → lv = 2%nat) →
  (∀ m', m' ≡ w_mem w → Q (entry_huge e, entry_frame e) (World m' (w_st w))) →
  wp (unmap_level va (Z.of_nat lv) tab) Q w.
Proof.
  intros Hlv Hs Hwin Hw Hne He Hp Hh HQ. destruct (window_table dt F _ _ _ _ Hwin Hlv Hw) as (Htab&Hi&Hpo&Hap).
  specialize (Hap Hne). destruct WIN_ok as (_&_&Hw64&Hw0). set (i := idx va (Z.of_nat lv)) in *.
  unfold unmap_level. apply wp_bind, wp_vadd_tab_index; [lia|]. fold i.
  apply wp_bind. eapply wp_setup; [exact Hs|exact Hwin|exact Htab|]. intros m1 Hm1.
  unfold index_ok in Hi.
  assert ((WIN + 8 * i)%u64 = WIN + 8 * i) as -> by (u64_unfold; rewrite (u64_small (8 * i)), u64_small by lia; done).
  assert (reach m1 (cr3 (w_st w)) (WIN + 8 * i) (tab + 8 * i) 8) as Hr.
  { eapply (reach_win_entry dt F (w_mem w) tab (World m1 (w_st w))); [exact Hs|done..]. }
  assert (load64 m1 (tab + 8 * i) = e) as He1.
  { rewrite Hm1, <-He. apply (load_opened dt tab (w_mem w) 8). lia. }
  apply wp_bind. eapply wp_tab_entry_is_present; [exact Hr|]. cbn [w_mem]. rewrite He1, Hp.
  apply wp_bind, wp_assert; [done|]. unfold _tab_entry_is_huge. apply wp_bind, (wp_get_bit _ (tab + 8 * i)); [exact Hr|]. cbn [w_mem]. rewrite He1.
  change (Z.testbit e BIT_HUGE) with (entry_huge e). apply wp_bind.
  assert (∀ R : unit → world vm → Prop, R () (World m1 (w_st w)) →
    wp (if entry_huge e then kernel_assert (Z.of_nat lv =? TAB_LEVEL_2) else mret ()) R (World m1 (w_st w))) as Hc.
  { intros R HR. destruct (entry_huge e); [|by apply wp_ret]. apply wp_assert; [by rewrite Hh|done]. }
  apply Hc. apply wp_bind. eapply wp_tab_entry_get_padd; [exact Hr| |].
  { cbn [w_mem]. rewrite He1, <-He. by eapply (tr_width _ _ _ (wo_tree _ _ _ Hwin)). }
  cbn [w_mem]. rewrite He1. apply wp_bind. eapply (wp_reset dt F (w_mem w) tab); [exact Hs|done|done|exact Hm1|].
  intros m2 Hm2. apply wp_ret. by apply HQ.
Qed.

(** The path to a table shares no entry with the window's. *)
Lemma above_leaf m va lv t e : leaf_at m va lv t e → ∀ lv', (lv < lv' <= 4)%nat →
  ∃ t' f, walk m _tab_4 (path_of lv' va) = Some t' ∧ walk m _tab_4 (path_of (lv' - 1) va) = Some f ∧
    let e' := load64 m (t' + 8 * idx va (Z.of_nat lv')) in
    entry_present e' = true ∧ entry_huge e' = false ∧ entry_frame e' = f.
Proof.
  intros [Hlv Hw _ _] lv' Hlv'.
  assert (∀ n, (n <= 4 - lv)%nat → is_Some (walk m _tab_4 (path_of (lv + n) va))) as Hup.
  { induction n as [|n IH]; intros Hn; [rewrite Nat.add_0_r; by eexists|].
    destruct IH as [x Hx]; [lia|]. replace (lv + n)%nat with (lv + S n - 1)%nat in Hx by lia.
    rewrite path_of_step in Hx by lia. apply walk_prefix in Hx as (v&Hv&_). by eexists. }
  destruct (Hup (lv' - lv)%nat ltac:(lia)) as [t' Ht']. replace (lv + (lv' - lv))%nat with lv' in Ht' by lia.
  destruct (Hup (lv' - 1 - lv)%nat ltac:(lia)) as [f Hf]. replace (lv + (lv' - 1 - lv))%nat with (lv' - 1)%nat in Hf by lia.
  exists t', f. split; [done|]. split; [done|]. rewrite path_of_step, walk_pte, (pte_walk _ _ _ _ _ Ht') in Hf by lia.
  cbv zeta. set (e' := load64 m _) in *. destruct (entry_present e'), (entry_huge e'); simpl in Hf; try done.
  by injection Hf as ->.
Qed.

(** One round of the way down. *)
Definition down_round (va : Z) : Z * list Z * bool → M (world vm) ((Z * list Z * bool) + (Z * list Z * bool)) :=
  λ '(lv, tab_pa, huge),
    if TAB_LEVEL_1 <=? lv then
      t ← array_get tab_pa lv;
      '(huge, next) ← unmap_level va lv t;
      tab_pa ← array_set tab_pa (lv - 1) next;
      mret (if huge : bool then inr (lv - 1, tab_pa, huge) else inl (lv - 1, tab_pa, huge))
    else mret (inr (lv, tab_pa, huge)).

(** The tables of the levels [lv] to 4 on the path of [va]. *)
Definition tables_at (m : memory) (va : Z) (tabs : list Z) (lv : nat) : Prop :=
  length tabs = 5%nat ∧ ∀ lv', (lv <= lv' <= 4)%nat → tabs !! lv' = walk m _tab_4 (path_of lv' va).

Lemma wp_down_round dt F m va lv tab e tabs (Q : (Z * list Z * bool) + (Z * list Z * bool) → world vm → Prop) w :
  (1 <= lv <= 4)%nat → statics dt (w_st w) → win_ok dt F m → w_mem w ≡ m →
  walk m _tab_4 (path_of lv va) = Some tab →
  (path_of lv va, idx va (Z.of_nat lv)) ≠ (path_of 1 WIN, idx WIN 1) →
  load64 m (tab + 8 * idx va (Z.of_nat lv)) = e → entry_present e = true →
  (entry_huge e = true → lv = 2%nat) → tables_at m va tabs lv →
  (∀ m', m' ≡ m → let tabs' := <[(lv - 1)%nat := entry_frame e]> tabs in
    Q (if entry_huge e then inr (Z.of_nat (lv - 1), tabs', true) else inl (Z.of_nat (lv - 1), tabs', false))
      (World m' (w_st w))) →
  wp (down_round va (Z.of_nat lv, tabs, false)) Q w.
Proof.
  intros Hlv Hs Hwin Hm Hw Hne He Hp Hh [Hlen Htabs] HQ. unfold down_round.
  rewrite (proj2 (Z.leb_le TAB_LEVEL_1 _)) by (unfold TAB_LEVEL_1; lia).
  apply wp_bind, (wp_array_get _ _ tab); [lia|by rewrite Nat2Z.id, Htabs by lia|].
  apply wp_bind. eapply (wp_unmap_level dt F va lv tab e).
  1-2: done. 1: by eapply win_ok_proper; [symmetry|]. 1: by rewrite Hm. 1: done. 1: by rewrite Hm. 1-2: done.
  intros m' Hm'. apply wp_bind, wp_array_set; [rewrite Hlen; lia|]. apply wp_ret.
  replace (Z.of_nat lv - 1) with (Z.of_nat (lv - 1)) by lia. rewrite Nat2Z.id.
  specialize (HQ m' ltac:(by etrans)). cbv zeta in HQ. by destruct (entry_huge e).
Qed.

Lemma wp_unmap_walk dt F va lv t e (Q : Z * list Z * bool → world vm → Prop) w :
  statics dt (w_st w) → win_ok dt F (w_mem w) → leaf_at (w_mem w) va lv t e →
  (∀ tabs m', m' ≡ w_mem w → tables_at (w_mem w) va tabs lv → tabs !! (lv - 1)%nat = Some (entry_frame e) →
    Q (Z.of_nat (lv - 1), tabs, entry_huge e) (World m' (w_st w))) →
  wp (unmap_walk va) Q w.
Proof.
  intros Hs Hwin Hleaf HQ. set (m := w_mem w) in *. set (s := w_st w) in *.
  pose proof (leaf_off_window _ _ _ _ _ _ _ Hwin Hleaf) as [Hoff _]. pose proof (above_leaf _ _ _ _ _ Hleaf) as Habove.
  pose proof Hleaf as [Hlv Hw He Hp].
  assert (∀ k tabs w', (lv + k <= 4)%nat → w_mem w' ≡ m → w_st w' = s → tables_at m va tabs (lv + k) →
    wp (loop (S (lv + k)) (down_round va) (Z.of_nat (lv + k), tabs, false)) Q w') as Hdown.
  { induction k as [|k IH]; intros tabs w' Hk Hm' Hs' Ht.
    - rewrite Nat.add_0_r in *. apply wp_loop_step.
      eapply (wp_down_round dt F m va lv t e); [lia|by rewrite Hs'|done|done|done|done|done|done|by destruct Hlv as [[? Hh]|[? ?]]; [rewrite Hh|]|done|].
      intros m2 Hm2. rewrite Hs'. destruct Ht as [Hlen Htabs].
      assert (tables_at m va (<[(lv - 1)%nat := entry_frame e]> tabs) lv) as Ht'.
      { split; [by rewrite length_insert|]. intros lv' Hlv'. rewrite list_lookup_insert_ne by lia. by apply Htabs. }
      assert (<[(lv - 1)%nat := entry_frame e]> tabs !! (lv - 1)%nat = Some (entry_frame e)) as Hl.
      { apply list_lookup_insert_eq. lia. }
      destruct Hlv as [[-> Hh]|[-> Hh]]; rewrite Hh in *; cbv iota beta zeta.
      + apply wp_loop_step. unfold down_round. change (TAB_LEVEL_1 <=? Z.of_nat (1 - 1)) with false. cbv iota.
        apply wp_ret. by apply HQ.
      + by apply HQ.
    - destruct (Habove (lv + S k)%nat) as (t'&f&Ht'&Hf&Hpr&Hh&Hfr); [lia|]. apply wp_loop_step.
      eapply (wp_down_round dt F m va (lv + S k) t'); [lia|by rewrite Hs'|done|done|done| |done|exact Hpr|by rewrite Hh|done|].
      { apply upper_not_window. destruct Hlv as [[? _]|[? _]]; lia. }
      intros m2 Hm2. rewrite Hh. cbv iota beta zeta. replace (lv + S k - 1)%nat with (lv + k)%nat in * by lia.
      replace (lv + S k)%nat with (S (lv + k)) by lia.
      apply IH; [lia|done|done|]. destruct Ht as [Hlen Htabs]. split; [by rewrite length_insert|].
      intros lv' Hlv'. destruct (decide (lv' = lv + k)%nat) as [->|Hne].
      + rewrite list_lookup_insert_eq by lia. replace (lv + S k)%nat with (S (lv + k)) in Hfr by lia. by rewrite Hf, Hfr.
      + rewrite list_lookup_insert_ne by lia. apply Htabs. lia. }
  unfold unmap_walk. change (loop 5 _) with (loop 5 (down_round va)).
  specialize (Hdown (4 - lv)%nat (<[4%nat := _tab_4]> (replicate 5 0)) w).
  replace (lv + (4 - lv))%nat with 4%nat in Hdown by (destruct Hlv as [[-> _]|[-> _]]; lia).
  apply Hdown; [lia|done|done|]. split; [done|]. intros lv' Hlv'. assert (lv' = 4%nat) as -> by lia. done.
Qed.

(* --------------------------------------------------------------------- *)
(** ** The way up *)

Lemma wp_tab_is_zero e a (Q : bool → world vm → Prop) w :
  (4096 | e) → 0 <= e → e + 4096 <= 18446744073709551616 →
  (∀ j, index_ok j → reach (w_mem w) (cr3 (w_st w)) (e + 8 * j) (a + 8 * j) 8) →
  (∀ b : bool, (b = true ↔ ∀ j, index_ok j → load64 (w_mem w) (a + 8 * j) = 0) → Q b w) →
  wp (_tab_is_zero e) Q w.
Proof.
  intros Hal He0 He Hr HQ. unfold _tab_is_zero, _TAB_ENTRY_COUNT.
  apply wp_bind, wp_assert; [apply Z.eqb_eq, Z.mod_divide; done|].
  apply (wp_loop (λ i w', 0 <= i <= 512 ∧ w' = w ∧ ∀ j, 0 <= j < i → load64 (w_mem w) (a + 8 * j) = 0)
    (λ i, Z.to_nat (512 - i))); [split_and!; done || lia|lia|].
  intros i w' (Hi&->&Hz). destruct (Z.ltb_spec i 512) as [Hlt|Hge].
  - apply wp_bind. u64_unfold. rewrite (u64_small (8 * i)), u64_small by lia.
    eapply wp_tab_entry_is_zero; [apply Hr; by split; lia|]. apply wp_ret.
    destruct (Z.eqb_spec (load64 (w_mem w) (a + 8 * i)) 0) as [H0|H0].
    + split; [|lia]. split; [lia|]. split; [done|]. intros j Hj. destruct (decide (j = i)) as [->|]; [done|]. apply Hz. lia.
    + apply HQ. split; [done|]. intros Hall. exfalso. apply H0, Hall. by split; lia.
  - apply wp_ret, HQ. split; [|done]. intros _ j [? ?]. apply Hz. lia.
Qed.

(** Every entry of [t] but the one at [i] is 0, and the window's entry is not
    in [t]. *)
Definition lonely (dt : Z) (m : memory) (t i : Z) : bool :=
  negb (t =? dt) && forallb (λ j, (j =? i) || (load64 m (t + 8 * j) =? 0)) (seqZ 0 512).

Lemma lonely_spec dt m t i : lonely dt m t i = true ↔
  t ≠ dt ∧ ∀ j, index_ok j → j ≠ i → load64 m (t + 8 * j) = 0.
Proof.
  unfold lonely. rewrite andb_true_iff, negb_true_iff, Z.eqb_neq, forallb_forall. split.
  - intros [Hne Hall]. split; [done|]. intros j [? ?] Hj. specialize (Hall j). rewrite <-list_elem_of_In, elem_of_seqZ in Hall.
    specialize (Hall ltac:(lia)). apply orb_true_iff in Hall as [?%Z.eqb_eq|?%Z.eqb_eq]; done.
  - intros [Hne Hall]. split; [done|]. intros j Hj. rewrite <-list_elem_of_In, elem_of_seqZ in Hj.
    destruct (Z.eqb_spec j i); [done|]. apply Z.eqb_eq, Hall; [by split; lia|done].
Qed.

(** The memory once the pending entry of level [lv] is cleared. *)
Definition cleared (va : Z) (lv : nat) (t : Z) (m : memory) : memory :=
  store64 (t + 8 * idx va (Z.of_nat lv)) 0 m.

(** About to clear the entry of level [lv] in the table [t]: the window works,
    and all will be in order once that is done. *)
Record ready (dt : Z) (F : Z → Prop) (l : list Z) (va : Z) (lv : nat) (t : Z) (w : world vm) : Prop := {
  rd_walk : walk (w_mem w) _tab_4 (path_of lv va) = Some t;
  rd_win : ∃ G, win_ok dt G (w_mem w);
  rd_off : (path_of lv va, idx va (Z.of_nat lv)) ≠ (path_of 1 WIN, idx WIN 1);
  rd_after : vm_ok dt F l (World (cleared va lv t (w_mem w)) (w_st w));
  rd_table : walk (cleared va lv t (w_mem w)) _tab_4 (path_of lv va) = Some t;
}.

(** A table that is not the window's is away from it. *)
Lemma table_off_window dt G m p t : win_ok dt G m → path_ok p → walk m _tab_4 p = Some t → t ≠ dt →
  t + 4096 <= win_entry dt ∨ win_entry dt + 8 <= t.
Proof.
  intros Hwin Hp Hw Hne. destruct (tree_range (wo_tree _ _ _ Hwin) _ t Hp Hw) as (?&?&?).
  destruct (tree_range (wo_tree _ _ _ Hwin) _ dt (path_of_ok 1 WIN) (wo_walk _ _ _ Hwin)) as (?&?&?).
  pose proof (idx_range WIN 1) as Hi. unfold index_ok, win_entry in *.
  destruct (frames_apart t dt); [by split|by split|done|lia|lia].
Qed.

(** What the code sees of [t] through the window once the entry is cleared. *)
Lemma zero_iff_lonely dt G m p i t m3 : win_ok dt G m → path_ok p → index_ok i → walk m _tab_4 p = Some t →
  m3 ≡ opened dt t (store64 (t + 8 * i) 0 m) →
  (∀ j, index_ok j → load64 m3 (t + 8 * j) = 0) ↔ lonely dt m t i = true.
Proof.
  intros Hwin Hp Hi Hw Hm3. rewrite lonely_spec. destruct (tree_range (wo_tree _ _ _ Hwin) _ t Hp Hw) as (?&?&?).
  assert (t = dt → load64 m3 (t + 8 * idx WIN 1) = t + 3) as Hself.
  { intros ->. rewrite Hm3. apply load64_store64_eq. apply (frame_value dt 3); [by split|lia]. }
  assert (t ≠ dt → ∀ j, index_ok j → load64 m3 (t + 8 * j) = if decide (j = i) then 0 else load64 m (t + 8 * j)) as Hr.
  { intros Hne j Hj. pose proof (table_off_window dt G m p t Hwin Hp Hw Hne) as Hd. unfold index_ok in *.
    rewrite Hm3. etrans; [apply (load_opened dt t _ 8); lia|]. change (load 8) with load64.
    destruct (decide (j = i)) as [->|Hji]; [apply clear_zero|]. by rewrite load64_store64_ne by lia. }
  split.
  - intros Hall. assert (t ≠ dt) as Hne.
    { intros He. specialize (Hself He). rewrite Hall in Hself by apply idx_range. lia. }
    split; [done|]. intros j Hj Hji. by rewrite <-(Hall j Hj), Hr, decide_False.
  - intros [Hne Hall] j Hj. rewrite Hr by done. case_decide; [done|by apply Hall].
Qed.

(** The head of the free list is no table entry. *)
Lemma head_absent dt F l w : vm_ok dt F l w → let h := _free_head (st_frame (w_st w)) in
  is_u64 h ∧ h < 2 ^ 52 ∧ entry_present h = false ∧ entry_huge h = false.
Proof.
  intros Hok h. pose proof (vo_chain _ _ _ _ Hok) as Hc. fold h in Hc. destruct l as [|g l]; cbn [chain] in Hc; [by rewrite Hc|].
  destruct Hc as [-> _]. destruct (vo_frames _ _ _ _ Hok g) as (Hg&_); [by left|].
  destruct (table_flags g Hg) as (_&_&_&_&_&_&?&?), (frame_value g 0 Hg ltac:(lia)) as (?&?&_). by rewrite Z.add_0_r in *.
Qed.

Lemma cleared_absent dt F l va lv t w : ready dt F l va lv t w →
  lonely dt (w_mem w) t (idx va (Z.of_nat lv)) = true →
  (∀ j, index_ok j → load64 (cleared va lv t (w_mem w)) (t + 8 * j) = 0) ∧
  absent_entry F (cleared va lv t (w_mem w)) (path_of lv va) 0 t ∧
  (path_of lv va, 0) ≠ (path_of 1 WIN, idx WIN 1) ∧ t ≠ dt.
Proof.
  intros [Hw [G Hwin] Hoff Hok Hw'] Hl. apply lonely_spec in Hl as [Hne Hall].
  pose proof (vo_win _ _ _ _ Hok) as Hwin1. cbn [w_mem] in Hwin1.
  assert (∀ j, index_ok j → load64 (cleared va lv t (w_mem w)) (t + 8 * j) = 0) as Hz.
  { intros j Hj. unfold cleared. pose proof (idx_range va (Z.of_nat lv)) as Hi. unfold index_ok in *.
    destruct (decide (j = idx va (Z.of_nat lv))) as [->|Hji]; [apply clear_zero|].
    rewrite load64_store64_ne by lia. by apply Hall. }
  assert (index_ok 0) as H0 by (by split). split; [done|]. split; [|split; [|done]].
  - split; [apply Hwin1|apply path_of_ok|done|done|by rewrite Hz].
  - intros Hp%(f_equal fst). cbn [fst] in Hp. apply Hne. pose proof (wo_walk _ _ _ Hwin1) as Hd. rewrite <-Hp in Hd. congruence.
Qed.

Lemma wp_clear_level dt F l va lv t (Q : bool → world vm → Prop) w :
  (1 <= lv <= 4)%nat → ready dt F l va lv t w →
  (∀ m', m' ≡ cleared va lv t (w_mem w) → lonely dt (w_mem w) t (idx va (Z.of_nat lv)) = false →
    Q false (World m' (w_st w))) →
  (∀ m', m' ≡ store64 t (_free_head (st_frame (w_st w))) (cleared va lv t (w_mem w)) →
    lonely dt (w_mem w) t (idx va (Z.of_nat lv)) = true →
    Q true (World m' (with_free t (_free_count (st_frame (w_st w)) + 1)%u64 (w_st w)))) →
  wp (clear_level va (Z.of_nat lv) t) Q w.
Proof.
  intros Hlv Hrd HQ0 HQ1. pose proof Hrd as [Hw [G Hwin] Hoff Hok Hw']. set (i := idx va (Z.of_nat lv)) in *.
  set (m := w_mem w) in *. set (m1 := cleared va lv t m) in *. set (s := w_st w) in *.
  pose proof (vo_static _ _ _ _ Hok) as Hs. pose proof (vo_win _ _ _ _ Hok) as Hwin1. cbn [w_mem w_st] in Hs, Hwin1.
  destruct (window_table dt G m va lv t Hwin Hlv Hw) as (Ht&Hi&Hpo&Hap). fold i in Hi, Hap. specialize (Hap Hoff).
  destruct WIN_ok as (Hwd&_&Hw64&Hw0). pose proof Hi as Hi'. unfold index_ok in Hi'.
  unfold clear_level. apply wp_bind, wp_vadd_tab_index; [lia|]. fold i.
  apply wp_bind. eapply wp_setup; [exact Hs|exact Hwin|exact Ht|]. intros m2 Hm2. fold m in Hm2. fold s.
  assert ((WIN + 8 * i)%u64 = WIN + 8 * i) as -> by (u64_unfold; rewrite (u64_small (8 * i)), u64_small by lia; done).
  apply wp_bind. eapply wp_tab_entry_zero.
  { eapply (reach_win_entry dt G m t (World m2 s)); [exact Hs|done..]. }
  cbn [w_mem w_st]. set (m3 := store64 (t + 8 * i) 0 m2).
  assert (m3 ≡ opened dt t m1) as Hm3.
  { etrans; [apply (store64_proper _ _ eq_refl _ _ eq_refl _ _ Hm2)|]. apply (opened_store dt t m 8). lia. }
  apply wp_bind. eapply (wp_tab_is_zero WIN t); [done|lia|lia| |].
  { intros j Hj. eapply (reach_win_entry dt F m1 t (World m3 s)); [exact Hs|done..]. }
  cbn [w_mem w_st]. intros b Hb. rewrite (zero_iff_lonely dt G m (path_of lv va) i t m3) in Hb by done.
  apply eq_true_iff_eq in Hb as ->. destruct (lonely dt m t i) eqn:Hl; apply wp_bind.
  - destruct (cleared_absent dt F l va lv t w Hrd Hl) as (_&Habs&Hne0&Hne). fold m m1 in Habs.
    destruct (head_absent dt F l _ Hok) as (Hh1&Hh2&Hh3&Hh4). cbn [w_st] in *. set (h := _free_head (st_frame s)) in *.
    destruct (win_ok_absent dt F m1 (path_of lv va) 0 t h Hwin1 Habs Hne0) as [Hwin2 _]; try done. rewrite Z.add_0_r in Hwin2.
    pose proof (table_off_window dt G m _ t Hwin Hpo Hw Hne) as Hd.
    eapply wp_mm_frame_free_raw; cbn [w_mem w_st].
    { rewrite <-(Z.add_0_r WIN), <-(Z.add_0_r t).
      eapply (reach_win dt F m1 t (World m3 s) 0); [exact Hs|done|done|exact Hm3|lia|lia]. }
    fold h. assert (store64 t h m3 ≡ opened dt t (store64 t h m1)) as Hm4.
    { etrans; [apply (store64_proper _ _ eq_refl _ _ eq_refl _ _ Hm3)|]. apply (opened_store dt t m1 8). lia. }
    apply wp_bind. eapply (wp_reset dt F (store64 t h m1) t); cbn [w_mem w_st];
      [by apply statics_set_frame|done|done|exact Hm4|]. intros m' Hm'. apply wp_ret. by apply HQ1.
  - apply wp_ret, wp_bind. eapply (wp_reset dt F m1 t); [exact Hs|done|done|exact Hm3|].
    intros m' Hm'. apply wp_ret. by apply HQ0.
Qed.

(** The root is never empty: the path to the window starts there. *)
Lemma root_not_lonely dt F l va t w : ready dt F l va 4 t w → lonely dt (w_mem w) t (idx va 4) = false.
Proof.
  intros Hrd. pose proof Hrd as [Hw _ _ Hok Hw']. apply not_true_iff_false. intros Hl.
  destruct (cleared_absent dt F l va 4 t w Hrd Hl) as (Hz&_). injection Hw as <-.
  pose proof (wo_walk _ _ _ (vo_win _ _ _ _ Hok)) as Hd. cbn [w_mem path_of walk] in Hd.
  apply bind_Some in Hd as (x&Hx&_). unfold next_table in Hx. by rewrite Hz in Hx by apply idx_range.
Qed.

(** The empty table has been given back: one level up. *)
Lemma ready_up dt F l va lv t w m' : (1 <= lv <= 3)%nat → ready dt F l va lv t w → ¬ F 0 →
  lonely dt (w_mem w) t (idx va (Z.of_nat lv)) = true →
  m' ≡ store64 t (_free_head (st_frame (w_st w))) (cleared va lv t (w_mem w)) →
  let w' := World m' (with_free t (_free_count (st_frame (w_st w)) + 1)%u64 (w_st w)) in
  ∃ t', ready dt (except F t) (t :: l) va (S lv) t' w' ∧
    (∀ va', translate (cleared va (S lv) t' m') _tab_4 va' = translate (cleared va lv t (w_mem w)) _tab_4 va') ∧
    (∀ q, path_ok q → walk m' _tab_4 q = walk (cleared va lv t (w_mem w)) _tab_4 q) ∧ F t.
Proof.
  intros Hlv Hrd HF0 Hl Hm' w'. subst w'. destruct (cleared_absent dt F l va lv t w Hrd Hl) as (Hz&Habs&Hne0&Hne).
  pose proof Hrd as [Hw [G Hwin] Hoff Hok Hw']. set (m1 := cleared va lv t (w_mem w)) in *. set (s := w_st w) in *.
  pose proof (vo_win _ _ _ _ Hok) as Hwin1. cbn [w_mem w_st] in Hwin1.
  destruct (head_absent dt F l _ Hok) as (Hh1&Hh2&Hh3&Hh4). cbn [w_st] in *. set (h := _free_head (st_frame s)) in *.
  destruct (win_ok_absent dt F m1 (path_of lv va) 0 t h Hwin1 Habs Hne0) as (Hwin2&_&_&Hwalk2); try done.
  rewrite Z.add_0_r in Hwin2, Hwalk2.
  assert (∀ q, path_ok q → walk m' _tab_4 q = walk m1 _tab_4 q) as Hwalk by (intros q Hq; rewrite Hm'; by apply Hwalk2).
  assert (path_of lv va = path_of (S lv) va ++ [idx va (Z.of_nat (S lv))]) as Hstep.
  { rewrite <-path_of_step by lia. f_equal. lia. }
  rewrite Hstep in Hw'. pose proof Hw' as (t'&Ht'&_)%walk_prefix. exists t'.
  set (i' := idx va (Z.of_nat (S lv))) in *.
  assert (path_ok (path_of (S lv) va)) as Hp' by apply path_of_ok. assert (index_ok i') as Hi' by apply idx_range.
  assert (length (path_of (S lv) va) <= 2)%nat as Hlen by (by apply (upper_not_window va (S lv) 0); lia).
  destruct (vm_ok_remove_table dt F l (World m1 s) (path_of (S lv) va) i' t' t) as (Hok3&Hsp&Hx3&_); try done.
  cbn [w_mem w_st] in *. set (m3 := store64 (t' + 8 * i') 0 m1) in *.
  assert (win_ok dt F m') as Hwin' by (by eapply win_ok_proper; [symmetry|]).
  destruct (tree_range (wo_tree _ _ _ Hwin1) _ t' Hp' Ht') as (Ht'0&Ht'l&Ht'd).
  assert (t' ≠ t) as Htt.
  { intros ->. assert (path_of (S lv) va = path_of (S lv) va ++ [i']) as Heq%(f_equal length).
    { apply (tr_inj _ _ _ (wo_tree _ _ _ Hwin1) _ _ t); [done|rewrite <-Hstep; apply path_of_ok|done|done]. }
    rewrite length_app in Heq. simpl in Heq. lia. }
  assert (t' + 4096 <= t ∨ t + 4096 <= t') as Hapart.
  { apply frames_apart; [by split|apply Hsp|done]. }
  unfold index_ok in Hi'.
  assert (cleared va (S lv) t' m' ≡ store64 t h m3) as Hc.
  { unfold cleared. fold i'. etrans; [apply (store64_proper _ _ eq_refl _ _ eq_refl _ _ Hm')|].
    apply (store_comm 8 8). lia. }
  assert (∀ a, ¬ (t <= a < t + 4096) → load8 (cleared va (S lv) t' m') a = load8 m3 a) as Hout.
  { intros a Ha. rewrite (Hc a). apply load8_store_ne. lia. }
  split; [|split; [|split; [done|]]].
  - split; cbn [w_mem w_st].
    + by rewrite Hwalk.
    + by exists F.
    + apply upper_not_window. lia.
    + apply (vm_ok_push dt (except F t) l (World m3 s) t); [done|done|done| |done].
      rewrite Hc. by apply load64_store64_eq.
    + unfold cleared. fold i'. rewrite (clear_walk_keep m' _tab_4 F (path_of (S lv) va)); try done; [by rewrite Hwalk|apply Hwin'|by rewrite Hwalk|].
      intros [r Hr%(f_equal length)]. rewrite !length_app in Hr. simpl in Hr. lia.
  - intros va'. rewrite <-Hx3. apply (spare_same dt (except F t) m3 t); try apply Hsp; [apply Hok3|done].
  - destruct (tr_tables _ _ _ (wo_tree _ _ _ Hwin1) (path_of lv va) t) as [Hr|?]; [apply path_of_ok|by rewrite Hstep| |done].
    by destruct (sp_root _ _ _ Hsp).
Qed.

(** The tables of the levels from [lv] up are the same. *)
Definition same_above (m m' : memory) (va : Z) (lv : nat) : Prop := ∀ lv' x, (lv <= lv' <= 4)%nat →
  walk m _tab_4 (path_of lv' va) = Some x →
  walk m' _tab_4 (path_of lv' va) = Some x ∧ ∀ j, index_ok j → load64 m' (x + 8 * j) = load64 m (x + 8 * j).

Lemma ready_above dt F l va lv t w m' : (1 <= lv <= 3)%nat → ready dt F l va lv t w →
  (∀ q, path_ok q → walk m' _tab_4 q = walk (cleared va lv t (w_mem w)) _tab_4 q) →
  (∀ a, ¬ (t <= a < t + 4096) → load8 m' a = load8 (w_mem w) a) → same_above (w_mem w) m' va (S lv).
Proof.
  intros Hlv [Hw [G Hwin] _ _ _] Hwalk Hout lv' x Hlv' Hx. pose proof (wo_tree _ _ _ Hwin) as Htree.
  pose proof (path_of_ok lv va) as Hp. pose proof (path_of_ok lv' va) as Hp'.
  assert (length (path_of lv' va) < length (path_of lv va))%nat as Hlen.
  { destruct lv as [|[|[|[|]]]], lv' as [|[|[|[|[|]]]]]; simpl; lia. }
  split.
  - rewrite Hwalk by done. unfold cleared. rewrite (clear_walk_keep _ _ G (path_of lv va)); try done; [apply idx_range|].
    intros [r Hr%(f_equal length)]. rewrite !length_app in Hr. simpl in Hr. lia.
  - intros j Hj. assert (x ≠ t) as Hne.
    { intros ->. assert (path_of lv' va = path_of lv va) as He by (by apply (tr_inj _ _ _ Htree _ _ t)). rewrite He in Hlen. lia. }
    destruct (tree_range Htree _ x Hp' Hx) as (?&?&?), (tree_range Htree _ t Hp Hw) as (?&?&?).
    symmetry. apply (load_agree 8). intros a Ha. symmetry. apply Hout. unfold index_ok in Hj.
    destruct (frames_apart x t); [by split|by split|done|lia|lia].
Qed.

(** The tables that become empty, from the level of the leaf upwards: each
    held only the entry that leads to the one below. *)
Fixpoint emptied (dt : Z) (m : memory) (va : Z) (lvs : list nat) : list Z :=
  match lvs with
  | [] => []
  | lv :: lvs =>
      match walk m _tab_4 (path_of lv va) with
      | Some t => if lonely dt m t (idx va (Z.of_nat lv)) then t :: emptied dt m va lvs else []
      | None => []
      end
  end.

Lemma lonely_same dt m m' t i : (∀ j, index_ok j → load64 m' (t + 8 * j) = load64 m (t + 8 * j)) →
  lonely dt m' t i = lonely dt m t i.
Proof.
  intros Hs. apply eq_true_iff_eq. rewrite !lonely_spec. split; intros [Hne Hall]; (split; [done|]); intros j Hj Hji.
  - rewrite <-Hs by done. by apply Hall.
  - rewrite Hs by done. by apply Hall.
Qed.

Definition without (F : Z → Prop) (gone : list Z) (u : Z) : Prop := F u ∧ u ∉ gone.

(** On the way up, about to clear level [lv]; the tables [gone] were given back. *)
Record climbing (dt : Z) (F : Z → Prop) (l : list Z) (w0 : world vm) (va : Z) (X : Z → option Z)
    (lv0 lv : nat) (t : Z) (gone : list Z) (w : world vm) : Prop := {
  cl_ready : ready dt (without F gone) (rev gone ++ l) va lv t w;
  cl_xlate va' : translate (cleared va lv t (w_mem w)) _tab_4 va' = X va';
  cl_frees : frees (w_st w0) (w_st w);
  cl_outside a : elsewhere F l a → load8 (w_mem w) a = load8 (w_mem w0) a;
  cl_above : same_above (w_mem w0) (w_mem w) va lv;
  cl_table : walk (w_mem w0) _tab_4 (path_of lv va) = Some t;
  cl_gone : emptied dt (w_mem w0) va (seq lv0 (4 - lv0)) = gone ++ emptied dt (w_mem w0) va (seq lv (4 - lv));
  cl_tables u : u ∈ gone → F u;
}.

Lemma climbing_up dt F l w0 va X lv0 lv t gone w m' : (1 <= lv <= 3)%nat → ¬ F 0 →
  climbing dt F l w0 va X lv0 lv t gone w →
  lonely dt (w_mem w) t (idx va (Z.of_nat lv)) = true →
  m' ≡ store64 t (_free_head (st_frame (w_st w))) (cleared va lv t (w_mem w)) →
  ∃ t', climbing dt F l w0 va X lv0 (S lv) t' (gone ++ [t])
    (World m' (with_free t (_free_count (st_frame (w_st w)) + 1)%u64 (w_st w))).
Proof.
  intros Hlv HF0 [Hrd Hx Hfr Hout Hab Htab Hgone Htabs] Hl Hm'.
  destruct (ready_up dt _ _ va lv t w m' Hlv Hrd) as (t'&Hrd'&Hx'&Hwalk'&HFt); [by intros [? _]|done|done|].
  exists t'. assert (0 <= idx va (Z.of_nat lv) < 512) as Hi by apply idx_range.
  assert (∀ a, ¬ (t <= a < t + 4096) → load8 m' a = load8 (w_mem w) a) as Hin.
  { intros a Ha. rewrite (Hm' a). unfold cleared, store64. rewrite !load8_store_ne by lia. done. }
  pose proof (ready_above dt _ _ va lv t w m' Hlv Hrd Hwalk' Hin) as Hab'.
  assert (same_above (w_mem w0) m' va (S lv)) as Hab2.
  { intros lv' x Hlv' Hx0. destruct (Hab lv' x ltac:(lia) Hx0) as [Hw1 Hr1].
    destruct (Hab' lv' x Hlv' Hw1) as [Hw2 Hr2]. split; [done|]. intros j Hj. by rewrite Hr2, Hr1. }
  assert (∀ u, except (without F gone) t u ↔ without F (gone ++ [t]) u) as Hext.
  { intros u. unfold except, without. rewrite elem_of_app, list_elem_of_singleton. tauto. }
  split; cbn [w_mem w_st].
  - destruct Hrd' as [Hw' Hwin' Hoff' Hok' Hw'']. split; try done. rewrite rev_app_distr. cbn [rev app].
    eapply vm_ok_ext; [exact Hext|exact Hok'].
  - intros va'. by rewrite Hx', Hx.
  - etrans; [exact Hfr|]. done.
  - intros a Ha. rewrite Hin; [by apply Hout|]. apply Ha. right. left. apply HFt.
  - done.
  - assert (∃ x, walk (w_mem w0) _tab_4 (path_of (S lv) va) = Some x) as [x Hx0].
    { replace (path_of lv va) with (path_of (S lv) va ++ [idx va (Z.of_nat (S lv))]) in Htab by
        (rewrite <-path_of_step by lia; f_equal; lia). apply walk_prefix in Htab as (x&?&_). by exists x. }
    pose proof (rd_walk _ _ _ _ _ _ _ Hrd') as Hw'. cbn [w_mem] in Hw'.
    destruct (Hab2 (S lv) x ltac:(lia) Hx0) as [Hw2 _]. congruence.
  - rewrite Hgone, <-app_assoc. f_equal. replace (4 - lv)%nat with (S (4 - S lv)) by lia. cbn [seq emptied app].
    destruct (Hab lv t ltac:(lia) Htab) as [_ Hr]. by rewrite Htab, <-(lonely_same dt _ _ t _ Hr), Hl.
  - intros u [Hu|Hu%list_elem_of_singleton]%elem_of_app; [by apply Htabs|subst u; apply HFt].
Qed.

(** What holds once the way up ends. *)
Record climbed (dt : Z) (F : Z → Prop) (l : list Z) (w0 : world vm) (X : Z → option Z) (gone : list Z)
    (w : world vm) : Prop := {
  cd_ok : vm_ok dt (without F gone) (rev gone ++ l) w;
  cd_xlate va' : translate (w_mem w) _tab_4 va' = X va';
  cd_frees : frees (w_st w0) (w_st w);
  cd_outside a : elsewhere F l a → load8 (w_mem w) a = load8 (w_mem w0) a;
  cd_tables u : u ∈ gone → F u;
}.

Lemma climbing_stop dt F l w0 va X lv0 lv t gone w m' : (1 <= lv <= 4)%nat →
  climbing dt F l w0 va X lv0 lv t gone w → lonely dt (w_mem w) t (idx va (Z.of_nat lv)) = false →
  m' ≡ cleared va lv t (w_mem w) →
  climbed dt F l w0 X (emptied dt (w_mem w0) va (seq lv0 (4 - lv0))) (World m' (w_st w)).
Proof.
  intros Hlv [Hrd Hx Hfr Hout Hab Htab Hgone Htabs] Hl Hm'.
  assert (emptied dt (w_mem w0) va (seq lv (4 - lv)) = []) as Hnil.
  { destruct (4 - lv)%nat as [|d]; [done|]. cbn [seq emptied]. destruct (Hab lv t ltac:(lia) Htab) as [_ Hr].
    by rewrite Htab, <-(lonely_same dt _ _ t _ Hr), Hl. }
  rewrite Hgone, Hnil, app_nil_r. destruct Hrd as [_ _ _ Hok Ht]. split; cbn [w_mem w_st]; try done.
  - eapply vm_ok_proper; [symmetry; exact Hm'|done].
  - intros va'. by rewrite Hm'.
  - intros a Ha. rewrite (Hm' a). pose proof (idx_range va (Z.of_nat lv)) as Hi. unfold index_ok in Hi.
    assert (¬ (t <= a < t + 4096)) as Hna.
    { apply Ha. destruct (tr_tables _ _ _ (wo_tree _ _ _ (vo_win _ _ _ _ Hok)) _ t (path_of_ok lv va) Ht) as [->|[? _]]; tauto. }
    unfold cleared, store64. rewrite load8_store_ne by lia. by apply Hout.
Qed.

Definition climb_round (va : Z) (tab_pa : list Z) : Z * bool → M (world vm) ((Z * bool) + unit) :=
  λ '(lv, tab_empty),
    if (tab_empty : bool) && (lv <=? TAB_LEVEL_4) then
      t ← array_get tab_pa lv;
      tab_empty ← clear_level va lv t;
      mret (inl (lv + 1, tab_empty))
    else mret (inr ()).

Lemma wp_climb dt F l w0 va X lv0 tabs (Q : unit → world vm → Prop) : ¬ F 0 → (1 <= lv0)%nat →
  tables_at (w_mem w0) va tabs lv0 →
  (∀ w', climbed dt F l w0 X (emptied dt (w_mem w0) va (seq lv0 (4 - lv0))) w' → Q () w') →
  ∀ n lv t gone w k, climbing dt F l w0 va X lv0 lv t gone w → (lv + n = 4)%nat → (lv0 <= lv)%nat → (2 + n <= k)%nat →
    wp (loop k (climb_round va tabs) (Z.of_nat lv, true)) Q w.
Proof.
  intros HF0 Hlv0 [Hlen Htabs] HQ n. induction n as [|n IH]; intros lv t gone w k Hc Hn Hlv Hk;
    (destruct k as [|[|k]]; [lia|lia|]); apply wp_loop_step; unfold climb_round at 1;
    rewrite (proj2 (Z.leb_le (Z.of_nat lv) TAB_LEVEL_4)) by (unfold TAB_LEVEL_4; lia); cbn [andb];
    (apply wp_bind, (wp_array_get _ _ t); [lia|rewrite Nat2Z.id, Htabs by lia; apply Hc|]);
    pose proof (cl_ready _ _ _ _ _ _ _ _ _ _ _ Hc) as Hrd;
    apply wp_bind; (eapply wp_clear_level; [lia|exact Hrd| |]); intros m' Hm' Hl; apply wp_ret.
  - apply wp_loop_step, wp_ret, HQ. eapply climbing_stop; [|exact Hc|done|done]. lia.
  - assert (lv = 4%nat) as -> by lia.
    pose proof (root_not_lonely _ _ _ _ _ _ Hrd) as Hroot. change (Z.of_nat 4) with 4 in Hl. congruence.
  - apply wp_loop_step, wp_ret, HQ. eapply climbing_stop; [|exact Hc|done|done]. lia.
  - replace (Z.of_nat lv + 1) with (Z.of_nat (S lv)) by lia.
    destruct (climbing_up dt F l w0 va X lv0 lv t gone w m') as (t'&Hc'); [lia|done..|].
    eapply IH; [exact Hc'|lia|lia|lia].
Qed.

(* --------------------------------------------------------------------- *)
(** ** Giving the frames of the page back *)

Lemma wp_free_frame dt F l w va f (Q : unit → world vm → Prop) : vm_ok dt F l w → spare F l f →
  reach (w_mem w) _tab_4 va f 8 →
  (∀ w', vm_ok dt F (f :: l) w' → frees (w_st w) (w_st w') →
    (∀ a, ¬ (f <= a < f + 4096) → load8 (w_mem w') a = load8 (w_mem w) a) → Q () w') →
  wp (mm_frame_free va f) Q w.
Proof.
  intros Hok Hsp Hr HQ. eapply wp_mm_frame_free_raw; [rewrite (sc_root _ _ (vo_static _ _ _ _ Hok)); exact Hr|].
  destruct (head_absent dt F l w Hok) as (Hh&_).
  assert (∀ a, ¬ (f <= a < f + 4096) →
    load8 (store64 f (_free_head (st_frame (w_st w))) (w_mem w)) a = load8 (w_mem w) a) as Hm
    by (intros a Ha; apply load8_store_ne; lia).
  apply HQ; [|done|done]. apply vm_ok_push; [done|done|done|by apply load64_store64_eq|done].
Qed.

(** The frames from [pa] on, the last one on top. *)
Fixpoint pushed (pa : Z) (n : nat) : list Z :=
  match n with O => [] | S n => pa + 4096 * Z.of_nat n :: pushed pa n end.

Lemma elem_of_pushed pa n f : f ∈ pushed pa n → ∃ k, (k < n)%nat ∧ f = pa + 4096 * Z.of_nat k.
Proof.
  induction n as [|n IH]; [by intros ?%elem_of_nil|]. intros [->|Hf]%elem_of_cons; [exists n; split; [lia|done]|].
  destruct (IH Hf) as (k&?&->). exists k. split; [lia|done].
Qed.

Lemma pushed_elem pa n k : 0 <= k < Z.of_nat n → pa + 4096 * k ∈ pushed pa n.
Proof.
  induction n as [|n IH]; intros Hk; [lia|]. cbn [pushed]. destruct (decide (k = Z.of_nat n)) as [->|Hne]; [by left|].
  right. apply IH. lia.
Qed.

Lemma spare_push F l pa n : spare F l (pa + 4096 * Z.of_nat n) →
  spare F (pushed pa n ++ l) (pa + 4096 * Z.of_nat n).
Proof.
  intros [? ? ? ? Hl]. split; try done. intros [(k&?&?)%elem_of_pushed|?]%elem_of_app; [lia|done].
Qed.

(** The number of frames behind a page of level [lv]. *)
Definition frames_of (lv : nat) : nat := if decide (lv = 1%nat) then 1 else 512.

(** The page of [va] can be given back: its frames are spare. *)
Record page_spare (F : Z → Prop) (l : list Z) (lv : nat) (pa : Z) : Prop := {
  ps_frames k : (k < frames_of lv)%nat → spare F l (pa + 4096 * Z.of_nat k);
}.

(** The first [n] frames of the page were given back. *)
Record freed_to (dt : Z) (F : Z → Prop) (l : list Z) (pa : Z) (n : nat) (w0 w : world vm) : Prop := {
  ft_ok : vm_ok dt F (pushed pa n ++ l) w;
  ft_frees : frees (w_st w0) (w_st w);
  ft_outside a : ¬ (pa <= a < pa + 4096 * Z.of_nat n) → load8 (w_mem w) a = load8 (w_mem w0) a;
  ft_xlate va : translate (w_mem w) _tab_4 va = translate (w_mem w0) _tab_4 va;
  ft_agree t : t = _tab_4 ∨ F t → agree t (t + 4096) (w_mem w0) (w_mem w);
}.

Lemma freed_start dt F l pa w : vm_ok dt F l w → freed_to dt F l pa 0 w w.
Proof. intros Hok. by split. Qed.

Lemma wp_free_next dt F l pa n w0 va (Q : unit → world vm → Prop) w :
  freed_to dt F l pa n w0 w → spare F l (pa + 4096 * Z.of_nat n) →
  reach (w_mem w0) _tab_4 va (pa + 4096 * Z.of_nat n) 8 →
  (∀ w', freed_to dt F l pa (S n) w0 w' → Q () w') → wp (mm_frame_free va (pa + 4096 * Z.of_nat n)) Q w.
Proof.
  intros [Hok Hfr Hout Hx Hag] Hsp Hr HQ. set (f := pa + 4096 * Z.of_nat n) in *.
  eapply wp_free_frame; [exact Hok|by apply spare_push| |].
  { eapply reach_same; [|exact Hr]. intros k _. apply Hx. }
  intros w' Hok' Hfr' Hout'. pose proof (wo_tree _ _ _ (vo_win _ _ _ _ Hok)) as Htree.
  apply HQ. split; [exact Hok'|by etrans| | |].
  - intros a Ha. rewrite Hout' by lia. apply Hout. lia.
  - intros va'. rewrite <-Hx. by apply (spare_same dt F (w_mem w) f); try apply Hsp; [apply Hok|].
  - intros t Ht a Ha. rewrite (Hag t Ht a Ha). symmetry. apply Hout'.
    assert (frame_ok t) as Hft by (destruct Ht as [->|Ht]; [apply (tr_root _ _ _ Htree)|by apply (tr_frame _ _ _ Htree)]).
    destruct (frames_apart f t); [apply Hsp|done| |lia|lia].
    intros <-. destruct Ht as [Ht|Ht]; [by apply (sp_root _ _ _ Hsp)|by apply (sp_table _ _ _ Hsp)].
Qed.

Lemma frames_of_span lv : (lv = 1%nat ∨ lv = 2%nat) → page_span (Z.of_nat lv) = 4096 * Z.of_nat (frames_of lv).
Proof. by intros [->| ->]. Qed.

Lemma canonical_page va lv k : (lv = 1%nat ∨ lv = 2%nat) → (page_span (Z.of_nat lv) | va) → canonical va = true →
  (k < frames_of lv)%nat → canonical (va + 4096 * Z.of_nat k) = true ∧ 0 <= va ∧
  va + 4096 * Z.of_nat k + 4096 <= 18446744073709551616.
Proof.
  intros Hlv [x Hx] Hc Hk. rewrite frames_of_span in Hx by done. unfold canonical in *.
  rewrite !orb_true_iff, !andb_true_iff, !Z.leb_le, !Z.ltb_lt in *.
  destruct Hlv as [->| ->]; unfold frames_of in *; simpl in Hk, Hx; lia.
Qed.

Lemma page_reach dt F m va lv t e k : win_ok dt F m → leaf_at m va lv t e → (page_span (Z.of_nat lv) | va) →
  canonical va = true → (k < frames_of lv)%nat →
  reach m _tab_4 (va + 4096 * Z.of_nat k) (entry_frame e + 4096 * Z.of_nat k) 8.
Proof.
  intros Hwin Hleaf Hva Hc Hk. assert (lv = 1%nat ∨ lv = 2%nat) as Hlv by (destruct Hleaf as [[[? _]|[? _]] _ _ _]; tauto).
  destruct (leaf_cleared dt F m va lv t e Hwin Hleaf) as (_&_&_&_&Hx).
  pose proof (frames_of_span lv Hlv) as Hspan.
  destruct (page_of_offset (Z.of_nat lv) va (4096 * Z.of_nat k)) as [Hp Hm]; [lia|lia|done|].
  apply reach_page; [|by apply (canonical_page va lv)| |lia].
  - apply Z.divide_add_r; [etrans; [|exact Hva]; rewrite Hspan; apply Z.divide_factor_l|apply Z.divide_factor_l].
  - by rewrite Hx, Hm.
Qed.

(** The 512 frames of a large page. *)
Lemma wp_free_512 dt F l va pa w (Q : unit → world vm → Prop) :
  freed_to dt F l pa 0 w w → (PAGE_SIZE_2M | va) → canonical va = true → 0 <= pa ∧ pa + PAGE_SIZE_2M <= PA_LIMIT →
  (∀ k, (k < 512)%nat → spare F l (pa + 4096 * Z.of_nat k)) →
  (∀ k, (k < 512)%nat → reach (w_mem w) _tab_4 (va + 4096 * Z.of_nat k) (pa + 4096 * Z.of_nat k) 8) →
  (∀ w', freed_to dt F l pa 512 w w' → Q () w') →
  wp (loop 513 (λ '(pa_freed, va_freed),
        if (pa_freed <? pa + PAGE_SIZE_2M)%u64 then
          mm_frame_free va_freed pa_freed ;;
          mret (inl ((pa_freed + PAGE_SIZE_4K)%u64, (va_freed + PAGE_SIZE_4K)%u64))
        else mret (inr ())) (pa, va)) Q w.
Proof.
  intros Hstart Hva Hc Hp Hsp Hreach HQ.
  assert (∀ n, (n < 512)%nat → 0 <= va ∧ va + 4096 * Z.of_nat n + 4096 <= 18446744073709551616) as Hcan.
  { intros n Hn. by destruct (canonical_page va 2 n (or_intror eq_refl) Hva Hc) as (_&?&?). }
  unfold PAGE_SIZE_2M, PA_LIMIT in *.
  apply (wp_loop (λ x w', ∃ n, (n <= 512)%nat ∧ x = (pa + 4096 * Z.of_nat n, u64 (va + 4096 * Z.of_nat n)) ∧
      freed_to dt F l pa n w w') (λ x, Z.to_nat ((pa + 2097152 - x.1) / 4096))).
  { exists 0%nat. split; [lia|]. split; [|done]. rewrite !Z.add_0_r. f_equal.
    destruct (Hcan 0%nat ltac:(lia)). by rewrite u64_small by lia. }
  { cbn [fst]. replace (pa + 2097152 - pa) with (512 * 4096) by lia. rewrite Z.div_mul by lia. lia. }
  intros x w' (n&Hn&->&Hft). u64_unfold. rewrite (u64_small (pa + _)) by lia.
  destruct (Z.ltb_spec (pa + 4096 * Z.of_nat n) (pa + 2 * 1024 * 1024)) as [Hlt|Hge].
  - destruct (Hcan n ltac:(lia)). rewrite (u64_small (va + _)) by lia. apply wp_bind.
    eapply wp_free_next; [exact Hft|apply Hsp; lia|apply Hreach; lia|]. intros w2 Hft2. apply wp_ret.
    split; [|cbn [fst]; rewrite u64_small by (change PAGE_SIZE_4K with 4096; lia)].
    + exists (S n). split; [lia|]. split; [|done]. change PAGE_SIZE_4K with 4096.
      apply (f_equal2 pair); [rewrite u64_small by lia; lia|f_equal; lia].
    + replace (pa + 2097152 - (pa + 4096 * Z.of_nat n + PAGE_SIZE_4K)) with ((511 - Z.of_nat n) * 4096)
        by (change PAGE_SIZE_4K with 4096; lia).
      replace (pa + 2097152 - (pa + 4096 * Z.of_nat n)) with ((512 - Z.of_nat n) * 4096) by lia.
      rewrite !Z.div_mul by lia. lia.
  - apply wp_ret. assert (n = 512%nat) as -> by lia. by apply HQ.
Qed.

Lemma wp_unmap_frames dt F l va lv t e free (Q : unit → world vm → Prop) w :
  vm_ok dt F l w → leaf_at (w_mem w) va lv t e → (page_span (Z.of_nat lv) | va) →
  (page_span (Z.of_nat lv) | entry_frame e) → canonical va = true →
  (free = true → page_spare F l lv (entry_frame e)) →
  (∀ w', freed_to dt F l (entry_frame e) (if free : bool then frames_of lv else 0) w w' → Q () w') →
  wp (unmap_frames va (Z.of_nat lv) (page_span (Z.of_nat lv)) (entry_frame e) (entry_huge e) free) Q w.
Proof.
  intros Hok Hleaf Hva Hpa Hc Hfree HQ. set (pa := entry_frame e) in *. pose proof (vo_win _ _ _ _ Hok) as Hwin.
  pose proof (λ k, page_reach dt F _ va lv t e k Hwin Hleaf Hva Hc) as Hreach. fold pa in Hreach.
  assert (mm_align_check pa (page_span (Z.of_nat lv)) = true) as Hal.
  { apply Z.eqb_eq, Z.mod_divide; [|done]. destruct Hleaf as [[[-> _]|[-> _]] _ _ _]; done. }
  unfold unmap_frames. destruct Hleaf as [[[-> Hh]|[-> Hh]] _ _ _]; rewrite Hh.
  - change (Z.of_nat 1 =? TAB_LEVEL_1) with true. cbv iota. change (page_span (Z.of_nat 1)) with PAGE_SIZE_4K in *.
    apply wp_bind, wp_assert; [done|]. apply wp_bind, wp_assert; [done|]. apply wp_bind, wp_assert; [done|].
    destruct free; [|apply wp_ret, HQ, freed_start, Hok].
    assert (0 < frames_of 1)%nat as H01 by (change (frames_of 1) with 1%nat; lia).
    pose proof (ps_frames _ _ _ _ (Hfree eq_refl) 0%nat H01) as Hsp. pose proof (Hreach 0%nat H01) as Hr.
    pose proof (wp_free_next dt F l pa 0 w (va + 4096 * Z.of_nat 0) Q w (freed_start dt F l pa w Hok) Hsp Hr HQ) as Hn.
    change (4096 * Z.of_nat 0) with 0 in Hn. by rewrite !Z.add_0_r in Hn.
  - change (Z.of_nat 2 =? TAB_LEVEL_1) with false. change (Z.of_nat 2 =? TAB_LEVEL_2) with true. cbv iota.
    change (page_span (Z.of_nat 2)) with PAGE_SIZE_2M in *. change (frames_of 2) with 512%nat in *.
    apply wp_bind, wp_assert; [done|]. apply wp_bind, wp_assert; [done|]. apply wp_bind, wp_assert; [done|].
    destruct free; [|apply wp_ret, HQ, freed_start, Hok]. specialize (Hfree eq_refl). destruct Hfree as [Hsp].
    change (frames_of 2) with 512%nat in Hsp.
    assert (0 <= pa ∧ pa + PAGE_SIZE_2M <= PA_LIMIT) as [Hp0 Hpl].
    { destruct (sp_frame _ _ _ (Hsp 511%nat ltac:(lia))) as (_&_&?), (sp_frame _ _ _ (Hsp 0%nat ltac:(lia))) as (_&?&_).
      unfold PAGE_SIZE_2M. lia. }
    eapply wp_free_512; [by apply freed_start|done|done|lia|exact Hsp|exact Hreach|exact HQ].
Qed.

(* --------------------------------------------------------------------- *)
(** ** The whole operation *)

(** Memories whose tables agree. *)
Section tables_agree.
Context {dt : Z} {F : Z → Prop} {m m' : memory}.
Hypothesis Hwin : win_ok dt F m.
Hypothesis Hag : ∀ t, t = _tab_4 ∨ F t → agree t (t + 4096) m m'.

Lemma leaf_agree va lv t e : leaf_at m va lv t e → leaf_at m' va lv t e.
Proof.
  intros [Hlv Hw He Hp]. split; [done| | |done].
  - by rewrite (tree_agree_walk (wo_tree _ _ _ Hwin) Hag) by apply path_of_ok.
  - rewrite (tree_agree_load (wo_tree _ _ _ Hwin) Hag (path_of lv va)); [done|apply path_of_ok|apply idx_range|done].
Qed.

Lemma emptied_agree va lvs : emptied dt m' va lvs = emptied dt m va lvs.
Proof.
  induction lvs as [|lv lvs IH]; [done|]. cbn [emptied].
  rewrite (tree_agree_walk (wo_tree _ _ _ Hwin) Hag) by apply path_of_ok.
  destruct (walk m _tab_4 (path_of lv va)) as [t|] eqn:Hw; [|done]. rewrite IH.
  by rewrite (lonely_same dt m m') by (intros j Hj; apply (tree_agree_load (wo_tree _ _ _ Hwin) Hag (path_of lv va));
    [apply path_of_ok|done|done]).
Qed.

Lemma tables_at_agree va tabs lv : tables_at m va tabs lv → tables_at m' va tabs lv.
Proof.
  intros [Hl Ht]. split; [done|]. intros lv' Hlv'. rewrite Ht by done.
  by rewrite (tree_agree_walk (wo_tree _ _ _ Hwin) Hag) by apply path_of_ok.
Qed.
End tables_agree.

(** The entry of the leaf is pending. *)
Lemma climbing_start dt F l w va lv t e : vm_ok dt F l w → leaf_at (w_mem w) va lv t e →
  page_of (Z.of_nat lv) dt ≠ page_of (Z.of_nat lv) va →
  climbing dt F l w va (λ va', if decide (page_of (Z.of_nat lv) va' = page_of (Z.of_nat lv) va) then None
    else translate (w_mem w) _tab_4 va') lv lv t [] w.
Proof.
  intros Hok Hleaf Hdt. pose proof (vo_win _ _ _ _ Hok) as Hwin.
  destruct (leaf_cleared dt F (w_mem w) va lv t e Hwin Hleaf) as (_&_&Hwalk&Hx&_).
  destruct (leaf_off_window dt F (w_mem w) va lv t e Hwin Hleaf) as [Hne _].
  pose proof (vm_ok_clear_leaf dt F l w va lv t e Hok Hleaf Hdt) as Hok'. destruct Hleaf as [Hlv Hw He Hp].
  split; try done.
  - split; [done|by exists F|done| |by unfold cleared; rewrite Hwalk by apply path_of_ok].
    eapply vm_ok_ext; [|exact Hok']. intros u. unfold without. rewrite elem_of_nil. tauto.
  - by intros u ?%elem_of_nil.
Qed.

Lemma entry_frame_range e : 0 <= entry_frame e < 18446744073709551616.
Proof.
  unfold entry_frame. change 0x000ffffffffff000 with (Z.shiftl (Z.ones 40) 12). rewrite land_frame_mask by lia.
  pose proof (Z.mod_pos_bound (e / 4096) (2 ^ 40) ltac:(lia)). lia.
Qed.

Lemma page_offset_zero va lv (Q : Z → world vm → Prop) w : (lv = 1%nat ∨ lv = 2%nat) →
  (page_span (Z.of_nat lv) | va) → Q 0 w → wp (_vadd_page_offset va (Z.of_nat lv)) Q w.
Proof.
  intros Hlv [x Hx] HQ. rewrite frames_of_span in Hx by done. unfold _vadd_page_offset. u64_unfold.
  destruct Hlv as [->| ->].
  - change (Z.of_nat 1 =? TAB_LEVEL_1) with true. cbv iota. change (frames_of 1) with 1%nat in Hx.
    change 0x0000000000000fff with (Z.ones 12). rewrite Z.land_ones by lia. apply wp_ret.
    change (2 ^ 12) with 4096. replace va with (x * 4096) by lia. by rewrite Z_mod_mult.
  - change (Z.of_nat 2 =? TAB_LEVEL_1) with false. change (Z.of_nat 2 =? TAB_LEVEL_2) with true. cbv iota.
    change (frames_of 2) with 512%nat in Hx.
    change 0x00000000001fffff with (Z.ones 21). rewrite Z.land_ones by lia. apply wp_ret.
    change (2 ^ 21) with 2097152. replace va with (x * 2097152) by lia. by rewrite Z_mod_mult.
Qed.

(** The state that an unmapping leaves. *)
Record unmapped (dt : Z) (F : Z → Prop) (l : list Z) (w : world vm) (va : Z) (lv : nat) (pages : list Z)
    (w' : world vm) : Prop := {
  un_ok : let gone := emptied dt (w_mem w) va (seq lv (4 - lv)) in
    vm_ok dt (without F gone) (rev gone ++ pages ++ l) w';
  un_frees : frees (w_st w) (w_st w');
  un_xlate va' : translate (w_mem w') _tab_4 va' =
    if decide (page_of (Z.of_nat lv) va' = page_of (Z.of_nat lv) va) then None else translate (w_mem w) _tab_4 va';
  un_outside a : elsewhere F (pages ++ l) a → load8 (w_mem w') a = load8 (w_mem w) a;
  un_tables u : u ∈ emptied dt (w_mem w) va (seq lv (4 - lv)) → F u;
}.

Lemma wp_unmap dt F l w va lv t e free (Q : Z → world vm → Prop) :
  vm_ok dt F l w → leaf_at (w_mem w) va lv t e → (page_span (Z.of_nat lv) | va) →
  (page_span (Z.of_nat lv) | entry_frame e) → canonical va = true →
  (free = true → page_spare F l lv (entry_frame e)) → ¬ F 0 →
  page_of (Z.of_nat lv) dt ≠ page_of (Z.of_nat lv) va →
  (∀ w', unmapped dt F l w va lv (pushed (entry_frame e) (if free : bool then frames_of lv else 0)) w' →
    Q (entry_frame e) w') →
  wp (_unmap va (page_span (Z.of_nat lv)) free) Q w.
Proof.
  intros Hok Hleaf Hva Hpa Hc Hfree HF0 Hdt HQ. pose proof (vo_win _ _ _ _ Hok) as Hwin.
  pose proof (entry_frame_range e) as Hpr.
  assert (lv = 1%nat ∨ lv = 2%nat) as Hlv by (destruct Hleaf as [[[? _]|[? _]] _ _ _]; tauto).
  unfold _unmap. apply wp_bind, wp_assert.
  { apply Z.eqb_eq, Z.mod_divide; [destruct Hlv as [->| ->]; done|done]. }
  apply wp_bind. eapply wp_unmap_walk; [apply Hok|exact Hwin|exact Hleaf|]. intros tabs m1 Hm1 Ht Htl.
  replace (Z.of_nat (lv - 1) + 1) with (Z.of_nat lv) by lia.
  apply wp_bind, wp_assert; [by destruct Hlv as [->| ->]|].
  apply wp_bind, (wp_array_get _ _ (entry_frame e)); [lia|by replace (Z.to_nat (Z.of_nat lv - 1)) with (lv - 1)%nat by lia|].
  apply wp_bind, page_offset_zero; [done..|].
  assert ((entry_frame e + 0)%u64 = entry_frame e) as -> by (u64_unfold; rewrite Z.add_0_r, u64_small by lia; done).
  assert (∀ u, u = _tab_4 ∨ F u → agree u (u + 4096) (w_mem w) m1) as Hag1 by (intros u _; apply agree_equiv; by symmetry).
  assert (vm_ok dt F l (World m1 (w_st w))) as Hok1 by (eapply vm_ok_proper; [symmetry; exact Hm1|]; by destruct w).
  apply wp_bind. eapply (wp_unmap_frames dt F l va lv t e free); [exact Hok1|by apply (leaf_agree Hwin Hag1)|done..|].
  intros w2 [Hok2 Hfr2 Hout2 Hx2 Hag2]. cbn [w_mem w_st] in *. pose proof (vo_win _ _ _ _ Hok1) as Hwin1. cbn [w_mem] in Hwin1.
  pose proof (leaf_agree Hwin1 Hag2 _ _ _ _ (leaf_agree Hwin Hag1 _ _ _ _ Hleaf)) as Hleaf2.
  pose proof (climbing_start dt F _ w2 va lv t e Hok2 Hleaf2 Hdt) as Hcl.
  change (loop 5 _) with (loop 5 (climb_round va tabs)). assert (1 <= lv <= 2)%nat by (destruct Hlv; lia).
  apply wp_bind. eapply wp_climb with (n := (4 - lv)%nat) (lv0 := lv); [exact HF0|lia| | |exact Hcl|lia|lia|lia].
  { apply (tables_at_agree Hwin1 Hag2), (tables_at_agree Hwin Hag1), Ht. }
  intros w' [Hok' Hx' Hfr' Hout' Htab']. rewrite (emptied_agree Hwin1 Hag2), (emptied_agree Hwin Hag1) in *.
  apply wp_ret, HQ. split; [exact Hok'|by etrans| | |done].
  - intros va'. rewrite Hx'. case_decide; [done|]. rewrite Hx2. cbn [w_mem]. by rewrite Hm1.
  - intros a Ha. rewrite Hout' by done. rewrite Hout2; [apply (Hm1 a)|]. intros Hin.
    apply (Ha (entry_frame e + 4096 * ((a - entry_frame e) / 4096))).
    + right. right. apply elem_of_app. left. apply pushed_elem. zlia.
    + zlia.
Qed.

(** C6: [_unmap] of a page that is mapped by a 4K or a 2M leaf returns the
    frame it was mapped to and removes this one translation.  When asked, the
    page's frames go on the free list, and so do the tables that held nothing
    else ([emptied]); no other byte is written. *)
Theorem unmap_ok dt F l w va lv t e (free : bool) (Hok : vm_ok dt F l w) (Hleaf : leaf_at (w_mem w) va lv t e)
    (Hva : (page_span (Z.of_nat lv) | va)) (Hpa : (page_span (Z.of_nat lv) | entry_frame e))
    (Hcan : canonical va = true) (Hfree : free = true -> page_spare F l lv (entry_frame e)) (HF0 : ~ F 0)
    (Hdt : page_of (Z.of_nat lv) dt <> page_of (Z.of_nat lv) va) :
  ∃ w', _unmap va (page_span (Z.of_nat lv)) free w = Done (entry_frame e, w') ∧
    let gone := emptied dt (w_mem w) va (seq lv (4 - lv)) in
    let pages := pushed (entry_frame e) (if free then frames_of lv else 0) in
    vm_ok dt (without F gone) (rev gone ++ pages ++ l) w' ∧ frees (w_st w) (w_st w') ∧
    (∀ va', translate (w_mem w') _tab_4 va' =
      if decide (page_of (Z.of_nat lv) va' = page_of (Z.of_nat lv) va) then None
      else translate (w_mem w) _tab_4 va') ∧
    (∀ a, elsewhere F (pages ++ l) a → load8 (w_mem w') a = load8 (w_mem w) a).
Proof.
  destruct (wp_done (_unmap va (page_span (Z.of_nat lv)) free) (λ r w', r = entry_frame e ∧
    unmapped dt F l w va lv (pushed (entry_frame e) (if free : bool then frames_of lv else 0)) w') w) as [Hw _].
  destruct Hw as (r&w'&Hrun&->&[? ? ? ? _]); [by eapply wp_unmap|]. exists w'. done.
Qed.

(** A page is translated as a whole. *)
Lemma page_untranslated m va va' : page_of 1 va' = page_of 1 va → translate m _tab_4 va = None →
  translate m _tab_4 va' = None.
Proof.
  intros (E4&E3&E2&E1)%same_page_1. rewrite !translate_xlate. unfold xlate. rewrite E4, E3, E2, E1.
  repeat case_match; done.
Qed.

Lemma elem_of_rev (l : list Z) u : u ∈ rev l ↔ u ∈ l.
Proof. by rewrite !list_elem_of_In, <-in_rev. Qed.

Lemma entry_frame_flags f : frame_ok f → entry_frame (f + 3) = f.
Proof. intros Hf. by destruct (table_flags f Hf) as (_&_&?&_). Qed.

(** C11: mapping a page and unmapping it again gives the frame back and leaves
    every translation as it was before; no frame gets lost on the way: each is
    a table or free afterwards exactly when it was before. *)
Theorem map_unmap_roundtrip dt F l w va pa (Hok : vm_ok dt F l w) (Hva : (4096 | va)) (Hpa : frame_ok pa)
    (Hcan : canonical va = true) (Hno : translate (w_mem w) _tab_4 va = None)
    (Hwin : page_of 1 va <> page_of 1 VA_48_DIRECT_ACCESS_PAGE) (HF0 : ~ F 0)
    (Hdt : page_of 1 dt <> page_of 1 va) (Hl : frames_suffice (w_mem w) va l = true) :
  ∃ w1 w2 F2 l2, mm_page_map va pa w = Done (true, w1) ∧ _unmap va PAGE_SIZE_4K false w1 = Done (pa, w2) ∧
    (∀ va', translate (w_mem w2) _tab_4 va' = translate (w_mem w) _tab_4 va') ∧
    vm_ok dt F2 l2 w2 ∧ frees (w_st w) (w_st w2) ∧ ∀ u, (F2 u ∨ u ∈ l2) ↔ (F u ∨ u ∈ l).
Proof.
  set (k := lacking (w_mem w) va 1).
  assert (wp (mm_page_map va pa) (λ ok w1, ok = true ∧ vm_ok dt (more F (take k l)) (drop k l) w1 ∧
    frees (w_st w) (w_st w1) ∧
    (∀ va', page_of 1 va' ≠ page_of 1 va → translate (w_mem w1) _tab_4 va' = translate (w_mem w) _tab_4 va') ∧
    ∃ tab, leaf_at (w_mem w1) va 1 tab (pa + 3)) w) as H1.
  { eapply wp_mm_page_map; [done..|]. rewrite Hl. intros ok w1 -> Hok1 Hfr1 Hx1 _ Hleaf. split; [done|]. split; [done|].
    split; [done|]. split; [|by apply Hleaf]. intros va' Hne. rewrite Hx1, decide_False; [done|]. by intros [_ ?]. }
  apply wp_done in H1 as (ok&w1&Hrun&->&Hok1&Hfr1&Hx1&tab&Hleaf).
  destruct (wp_done (_unmap va PAGE_SIZE_4K false) (λ r w2, r = pa ∧
    unmapped dt (more F (take k l)) (drop k l) w1 va 1 [] w2) w1) as [H2 _].
  destruct H2 as (r&w2&Hrun2&->&[Hok2 Hfr2 Hx2 _ Htabs]).
  { change PAGE_SIZE_4K with (page_span (Z.of_nat 1)).
    eapply (wp_unmap dt _ _ w1 va 1 tab (pa + 3) false); [exact Hok1|exact Hleaf|done| |done|done| |done|].
    - rewrite entry_frame_flags by done. apply Hpa.
    - intros [?|Hu%elem_of_take]; [done|]. destruct Hu as (i&Hi&_).
      destruct (vo_frames _ _ _ _ Hok 0) as (_&?&_); [by eapply list_elem_of_lookup_2|done].
    - intros w2 Hu. rewrite entry_frame_flags by done. done. }
  set (gone := emptied dt (w_mem w1) va (seq 1 (4 - 1))) in *.
  exists w1, w2, (without (more F (take k l)) gone), (rev gone ++ drop k l).
  split; [done|]. split; [done|]. split; [|split; [done|split; [by etrans|]]].
  - intros va'. rewrite Hx2. change (Z.of_nat 1) with 1. case_decide as Hp.
    + symmetry. by eapply page_untranslated.
    + by apply Hx1.
  - intros u. unfold without, more. rewrite elem_of_app, elem_of_rev. 
    assert (u ∈ l ↔ u ∈ take k l ∨ u ∈ drop k l) as -> by (by rewrite <-elem_of_app, take_drop).
    specialize (Htabs u). unfold more in Htabs. destruct (decide (u ∈ gone)); naive_solver.
Qed.

End unmap.
