(* ===== verification/MmPageSample.v ===== *)
(** A concrete paging state, and the theorems on it.

    Five tables below the root: one path maps the first 2M identically (the
    kernel image), one leads to the window; [n] free frames from 4G on. *)
From S2P Require Import Prelude Memory MmCore Mmu VirtMem MmPage.
From S2P Require Import MmPageRep MmPageFrames MmPageMap MmPageClear MmPageUnmap.
From S2P Require Vesa Pcie.

#[local] Instance sample_vm_link : VmLink := {|
  _tab_4 := 0x1000;
  _direct_tab_space := 0x20000;
  _direct_tab_addr := 0x10000;
  _early_frame_pool := 0x40000;
  text_mm_early_bootstrap := 0x8000;
  _test_direct_access_bytes := 0x9000;
|}.

Abbreviation WIN := VA_48_DIRECT_ACCESS_PAGE.

(* --------------------------------------------------------------------- *)
(** ** The tables *)

(** [f] can become the table behind entry [i] of the table [t] at [p]. *)
Definition step_check (m : memory) (l : list Z) (p : list Z) (i t f : Z) : bool :=
  bool_decide (walk m _tab_4 p = Some t) && (load64 m (t + 8 * i) =? 0) &&
  forallb (λ j, load64 m (f + 8 * j) =? 0) (seqZ 0 512) &&
  bool_decide (f ∉ l) && negb (f =? _tab_4) && (length p <=? 2)%nat &&
  forallb (λ j, (0 <=? j) && (j <? 512)) (i :: p) &&
  (f mod 4096 =? 0) && (0 <=? f) && (f + 4096 <=? PA_LIMIT).

Definition clean_tree (m : memory) (l : list Z) : Prop := tree_ok m _tab_4 (λ u, u ∈ l) ∧ tree_clean m _tab_4.

Lemma add_table m l p i t f : clean_tree m l → step_check m l p i t f = true →
  clean_tree (store64 (t + 8 * i) (f + 3) m) (f :: l).
Proof.
  intros [Hok Hcl] Hc. unfold step_check in Hc. repeat (apply andb_true_iff in Hc as [Hc ?]).
  rewrite bool_decide_eq_true in *. bsimp.
  match goal with H : forallb _ (i :: p) = true |- _ => rename H into Hidx end.
  match goal with H : forallb _ (seqZ 0 512) = true |- _ => rename H into Hz end.
  assert (∀ j, j ∈ i :: p → index_ok j) as Hin.
  { intros j Hj. rewrite forallb_forall in Hidx. specialize (Hidx j ltac:(by apply list_elem_of_In)). bsimp. by split. }
  assert (frame_ok f) as Hf by (split; [apply Z.mod_divide; done|done]).
  assert (entry_present (load64 m (t + 8 * i)) = false) as Hold by (match goal with H : load64 m _ = 0 |- _ => by rewrite H end).
  destruct (table_flags f Hf) as (P3&U3&E3&_). destruct (frame_value f 3 Hf ltac:(lia)) as (V3&W3&_).
  destruct (table_update (λ u, u ∈ l) m p i t f (f + 3)) as (Ht&_&_&_&Hcl'); try done.
  - split; [done| |apply Hin; by left|done|apply Hold]. split; [apply leb_complete in H3; lia|].
    apply list.Forall_forall. intros j Hj. apply Hin. by right.
  - by apply leb_complete.
  - by apply negb_true_iff, Z.eqb_neq in H4.
  - intros j Hj. apply Z.eqb_eq. by apply (forallb_seqZ (λ j, load64 m (f + 8 * j) =? 0) 512).
  - split; [|by apply Hcl']. eapply tree_weaken; [exact Ht|intros u [?| ->]; [by right|by left]|].
    intros u [->|Hu]%elem_of_cons; [done|]. by apply (tr_frame _ _ _ Hok).
Qed.

Definition mem_0 : memory := store64 0x1000 0x2003 ∅.
Definition mem_1 : memory := store64 0x2000 0x3003 mem_0.
(** The first 2M, identically. *)
Definition mem_2 : memory := store64 0x3000 131 mem_1.
Definition mem_3 : memory := store64 (0x1000 + 8 * 256) 0x4003 mem_2.
Definition mem_4 : memory := store64 (0x4000 + 8 * 4) 0x5003 mem_3.
Definition mem_5 : memory := store64 (0x5000 + 8 * 8) 0x6003 mem_4.

Definition sample_tables : list Z := [0x6000; 0x5000; 0x4000; 0x3000; 0x2000].

Lemma tree_1 : clean_tree mem_1 [0x3000; 0x2000].
Proof.
  apply (add_table mem_0 [0x2000] [0] 0 0x2000 0x3000); [|vm_compute; reflexivity].
  apply (add_table ∅ [] [] 0 0x1000 0x2000); [|vm_compute; reflexivity].
  destruct (tree_ok_empty ∅ 0x1000) as (Ht&Hc&_);
    [by exists 1|done|done|intros j _; apply load_zero; intros i _; done|]. split; [|exact Hc].
  eapply tree_weaken; [exact Ht|done|]. by intros t ?%elem_of_nil.
Qed.

(** A 2M leaf in the level-2 table [t]. *)
Lemma add_huge m l p i t v : clean_tree m l → walk m _tab_4 p = Some t → load64 m (t + 8 * i) = 0 →
  path_ok p → index_ok i → 0 <= v < 2 ^ 52 → entry_present v = true → entry_huge v = true → p ≠ [] →
  clean_tree (store64 (t + 8 * i) v m) l.
Proof.
  intros [Ht Hc] Hw H0 Hp Hi Hv Hpr Hh Hne. change (2 ^ 52) with 4503599627370496 in Hv.
  assert (entry_update m (store64 (t + 8 * i) v m) _tab_4 p i t v) as Hup.
  { apply (entry_update_store m _ p i t v Ht); [done|done|done|by rewrite H0|unfold is_u64; lia]. }
  split.
  - apply (tree_install_leaf Ht Hup); [apply Hv|]. right. by left.
  - apply (clean_install_leaf Hup Hc); [done|]. by right.
Qed.

Lemma path_00 : path_ok [0; 0].
Proof. split; [simpl; lia|]. repeat constructor; unfold index_ok; lia. Qed.

Lemma tree_2 : clean_tree mem_2 [0x3000; 0x2000].
Proof.
  destruct tree_1 as [Ht Hc].
  assert (entry_update mem_1 mem_2 _tab_4 [0; 0] 0 0x3000 131) as Hup.
  { apply (entry_update_store mem_1 _ [0; 0] 0 0x3000 131 Ht); [| |vm_compute; reflexivity|vm_compute; reflexivity|].
    + split; [simpl; lia|]. repeat constructor; unfold index_ok; lia.
    + unfold index_ok. lia.
    + unfold is_u64. lia. }
  split.
  - apply (tree_install_leaf Ht Hup); [done|]. right. by left.
  - apply (clean_install_leaf Hup Hc); [done|]. by right.
Qed.

Lemma tree_5 : clean_tree mem_5 sample_tables.
Proof.
  apply (add_table mem_4 _ [256; 4] 8 0x5000 0x6000); [|vm_compute; reflexivity].
  apply (add_table mem_3 _ [256] 4 0x4000 0x5000); [|vm_compute; reflexivity].
  apply (add_table mem_2 _ [] 256 0x1000 0x4000); [|vm_compute; reflexivity].
  exact tree_2.
Qed.

Lemma sample_win : win_ok 0x6000 (λ u, u ∈ sample_tables) mem_5.
Proof.
  split; [apply tree_5|by vm_compute|by vm_compute|].
  assert (win_entry 0x6000 = 0x6000) as -> by (vm_compute; reflexivity).
  apply reach_page; [by exists 6|done|vm_compute; reflexivity|done].
Qed.

(* --------------------------------------------------------------------- *)
(** ** Free frames *)

Definition sample_statics : vm :=
  Vm (FrameC [] 0 0 0 false 0 0) (PageC 0 WIN [] (win_entry 0x6000)) 0 0 _tab_4
    Vesa.vesa_initial Pcie.pcie_initial.

Definition sample_frame (n : nat) : Z := 0x100000000 + 4096 * Z.of_nat n.

(** The state with the first [n] frames freed in order. *)
Fixpoint sample_state (n : nat) : world vm :=
  match n with
  | O => World mem_5 sample_statics
  | S n =>
      let w := sample_state n in
      World (store64 (sample_frame n) (_free_head (st_frame (w_st w))) (w_mem w))
        (with_free (sample_frame n) (_free_count (st_frame (w_st w)) + 1)%u64 (w_st w))
  end.

Fixpoint sample_list (n : nat) : list Z :=
  match n with O => [] | S n => sample_frame n :: sample_list n end.

Lemma sample_list_below n f : f ∈ sample_list n → ∃ k, (k < n)%nat ∧ f = sample_frame k.
Proof.
  induction n as [|n IH]; [by intros ?%elem_of_nil|]. intros [->|Hf]%elem_of_cons; [exists n; split; [lia|done]|].
  destruct (IH Hf) as (k&?&->). exists k. split; [lia|done].
Qed.

Lemma sample_spare n : Z.of_nat n < 2 ^ 30 → spare (λ u, u ∈ sample_tables) (sample_list n) (sample_frame n).
Proof.
  intros Hn. change (2 ^ 30) with 1073741824 in Hn. unfold sample_frame. split.
  - split; [apply Z.divide_add_r; [by exists 1048576|by exists (Z.of_nat n); lia]|]. unfold PA_LIMIT. lia.
  - lia.
  - unfold sample_tables. rewrite !elem_of_cons, elem_of_nil. lia.
  - change _tab_4 with 0x1000. lia.
  - intros (k&?&He)%sample_list_below. unfold sample_frame in He. lia.
Qed.

Lemma sample_ok n : Z.of_nat n < 2 ^ 30 → vm_ok 0x6000 (λ u, u ∈ sample_tables) (sample_list n) (sample_state n).
Proof.
  change (2 ^ 30) with 1073741824. induction n as [|n IH]; intros Hn.
  - split; try done; [exact sample_win|apply tree_5|by intros f ?%elem_of_nil|constructor].
  - specialize (IH ltac:(lia)). cbn [sample_state sample_list]. apply vm_ok_push; [exact IH|apply sample_spare; lia| | |done].
    + intros a Ha. apply load8_store_ne. lia.
    + apply load64_store64_eq. pose proof (vo_chain _ _ _ _ IH) as Hc. destruct n as [|n]; [done|].
      cbn [sample_list chain] in Hc. destruct Hc as [-> _]. unfold is_u64, sample_frame. lia.
Qed.

Lemma sample_length n : length (sample_list n) = n.
Proof. induction n as [|n IH]; [done|]. cbn [sample_list length]. by rewrite IH. Qed.

(** Only the free frames differ from the tables' memory. *)
Lemma sample_translate n va : Z.of_nat n < 2 ^ 30 →
  translate (w_mem (sample_state n)) _tab_4 va = translate mem_5 _tab_4 va.
Proof.
  change (2 ^ 30) with 1073741824. induction n as [|n IH]; intros Hn; [done|]. rewrite <-IH by lia.
  pose proof (sample_spare n ltac:(change (2 ^ 30) with 1073741824; lia)) as Hs.
  pose proof (sample_ok n ltac:(change (2 ^ 30) with 1073741824; lia)) as Hok.
  cbn [sample_state w_mem].
  apply (spare_same 0x6000 (λ u, u ∈ sample_tables) _ (sample_frame n)); try apply Hs; [apply Hok|].
  intros a Ha. apply load8_store_ne. lia.
Qed.

(* --------------------------------------------------------------------- *)
(** ** The theorems at this state *)

Lemma direct_access_ok_witness :
  vm_ok 0x6000 (λ u, u ∈ sample_tables) (sample_list 2) (sample_state 2) ∧
  wp (mm_page_direct_access_setup 0x7000) (λ va w1, va = WIN ∧
    translate (w_mem w1) _tab_4 (WIN + 5) = Some 0x7005 ∧
    wp mm_page_direct_access_reset (λ _ w2, w_mem w2 ≡ w_mem (sample_state 2)) w1) (sample_state 2).
Proof.
  split; [by apply sample_ok|].
  refine (wp_mono _ _ _ _ (direct_access_ok 0x6000 _ (sample_list 2) (sample_state 2) 0x7000 _ _) _).
  - by apply sample_ok.
  - split; [by exists 7|]. unfold PA_LIMIT. lia.
  - intros va w1 (->&_&Ht&Hr). split; [done|]. split; [by rewrite Ht|].
    refine (wp_mono _ _ _ _ Hr _). by intros _ w2 [? _].
Defined.

Lemma frame_stack_witness :
  spare (λ u, u ∈ sample_tables) (sample_list 2) 0x7000 ∧
  wp (mm_frame_free 0x7000 0x7000) (λ _ w1,
    wp mm_frame_alloc (λ r w2, r = Some 0x7000) w1) (sample_state 2).
Proof.
  assert (spare (λ u, u ∈ sample_tables) (sample_list 2) 0x7000) as Hs.
  { split; [split; [by exists 7|unfold PA_LIMIT; lia]|done| |done|].
    - unfold sample_tables. rewrite !elem_of_cons, elem_of_nil. lia.
    - intros (k&?&He)%sample_list_below. unfold sample_frame in He. lia. }
  split; [exact Hs|].
  destruct (frame_stack 0x6000 (λ u, u ∈ sample_tables) (sample_list 2) (sample_state 2) 0x7000 0x7000) as (_&_&Hw).
  - by apply sample_ok.
  - exact Hs.
  - intros k Hk. unfold va_to_pa.
    assert (canonical (0x7000 + k) = true) as ->.
    { unfold canonical. apply orb_true_iff. left. apply andb_true_iff. split; [apply Z.leb_le|apply Z.ltb_lt]; lia. }
    rewrite sample_translate by done. apply (translate_offset _ _ 0x7000 0x7000); [by exists 7|by vm_compute|lia].
  - refine (wp_mono _ _ _ _ Hw _). intros _ w1 (_&_&Ha). refine (wp_mono _ _ _ _ Ha _). by intros r w2 (->&_).
Defined.

Lemma mm_page_map_ok_witness :
  translate (w_mem (sample_state 3)) _tab_4 VA_48_HEAP = None ∧
  ∃ w', mm_page_map VA_48_HEAP 0x7000 (sample_state 3) = Done (true, w') ∧
    translate (w_mem w') _tab_4 (VA_48_HEAP + 9) = Some 0x7009.
Proof.
  assert (translate (w_mem (sample_state 3)) _tab_4 VA_48_HEAP = None) as Hno.
  { rewrite sample_translate by done. by vm_compute. }
  split; [exact Hno|].
  destruct (mm_page_map_ok 0x6000 (λ u, u ∈ sample_tables) (sample_list 3) (sample_state 3) VA_48_HEAP 0x7000)
    as (ok&w'&Hrun&Hsuf&_&_&Ht&_).
  - by apply sample_ok.
  - by exists (VA_48_HEAP / 4096).
  - split; [by exists 7|]. unfold PA_LIMIT. lia.
  - exact Hno.
  - by vm_compute.
  - assert (ok = true) as ->.
    { rewrite Hsuf. apply bool_decide_eq_true. rewrite sample_length. apply Nat.max_lub; [lia|apply lacking_le]. }
    exists w'. split; [exact Hrun|]. rewrite Ht. by rewrite decide_True by (split; [done|by vm_compute]).
Defined.

(* --------------------------------------------------------------------- *)
(** ** A second large page *)

(** The 2M from 2M on, identically. *)
Definition mem_6 : memory := store64 (0x3000 + 8 * 1) 0x200083 mem_5.

Definition large_state : world vm := World mem_6 sample_statics.

Lemma tree_6 : clean_tree mem_6 sample_tables.
Proof.
  apply (add_huge mem_5 _ [0; 0] 1 0x3000 0x200083);
    [exact tree_5|by vm_compute|by vm_compute|apply path_00|done..].
Qed.

Lemma large_ok : vm_ok 0x6000 (λ u, u ∈ sample_tables) [] large_state.
Proof.
  split; try done; [|apply tree_6|by intros f ?%elem_of_nil|constructor].
  split; [apply tree_6|by vm_compute|by vm_compute|].
  assert (win_entry 0x6000 = 0x6000) as -> by (vm_compute; reflexivity).
  apply reach_page; [by exists 6|done|vm_compute; reflexivity|done].
Qed.

Lemma unmap_ok_witness :
  ∃ w', _unmap 0x200000 PAGE_SIZE_2M true large_state = Done (0x200000, w') ∧
    translate (w_mem w') _tab_4 0x200005 = None ∧ translate (w_mem w') _tab_4 0x5005 = Some 0x5005 ∧
    _free_count (st_frame (w_st w')) = 512.
Proof.
  destruct (unmap_ok 0x6000 (λ u, u ∈ sample_tables) [] large_state 0x200000 2 0x3000 0x200083 true)
    as (w'&Hrun&Hok&_&Hx&_).
  - exact large_ok.
  - split; [by right|by vm_compute..].
  - by exists 1.
  - by exists 1.
  - done.
  - intros _. split. intros k Hk. change (frames_of 2) with 512%nat in Hk.
    change (entry_frame 0x200083) with 0x200000. split.
    + split; [apply Z.divide_add_r; [by exists 512|apply Z.divide_factor_l]|]. unfold PA_LIMIT. lia.
    + lia.
    + unfold sample_tables. rewrite !elem_of_cons, elem_of_nil. lia.
    + change _tab_4 with 0x1000. lia.
    + by intros ?%elem_of_nil.
  - unfold sample_tables. rewrite !elem_of_cons, elem_of_nil. lia.
  - by vm_compute.
  - exists w'. split; [exact Hrun|]. rewrite !Hx. split; [by vm_compute|]. split; [by vm_compute|].
    rewrite (vo_count _ _ _ _ Hok). vm_compute. reflexivity.
Defined.

Lemma map_unmap_roundtrip_witness :
  ∃ w1 w2, mm_page_map VA_48_HEAP 0x7000 (sample_state 3) = Done (true, w1) ∧
    _unmap VA_48_HEAP PAGE_SIZE_4K false w1 = Done (0x7000, w2) ∧
    translate (w_mem w2) _tab_4 VA_48_HEAP = None.
Proof.
  assert (translate (w_mem (sample_state 3)) _tab_4 VA_48_HEAP = None) as Hno.
  { rewrite sample_translate by done. by vm_compute. }
  destruct (map_unmap_roundtrip 0x6000 (λ u, u ∈ sample_tables) (sample_list 3) (sample_state 3) VA_48_HEAP 0x7000)
    as (w1&w2&F2&l2&H1&H2&Hx&_).
  - by apply sample_ok.
  - by exists (VA_48_HEAP / 4096).
  - split; [by exists 7|]. unfold PA_LIMIT. lia.
  - done.
  - exact Hno.
  - by vm_compute.
  - unfold sample_tables. rewrite !elem_of_cons, elem_of_nil. lia.
  - by vm_compute.
  - apply bool_decide_eq_true. rewrite sample_length. apply Nat.max_lub; [lia|apply lacking_le].
  - exists w1, w2. split; [exact H1|]. split; [exact H2|]. by rewrite Hx.
Defined.
