(* ===== verification/MmPageScript.v ===== *)
(** The run-time paging state under arbitrary sequences of requests.

    A configuration is the world together with what each frame is for: a
    table, free, or held by a client.  A request is one call of the interface
    of src/mm/mm_page.c and src/mm/mm_frame.c with the conditions it is called
    under ([accepts]); [step] is what the code makes of it.  Theorem
    [paging_steps] is about all reachable configurations. *)
From S2P Require Import Prelude Memory MmCore Mmu VirtMem MmPage.
From S2P Require Import MmPageRep MmPageFrames MmPageMap MmPageClear MmPageUnmap.
From S2P Require Import MmPageSample.

Section script.
Context `{VmLink}.

Record config := Config { c_tabs : list Z; c_free : list Z; c_held : list Z; c_world : world vm }.

Definition frames (c : config) : list Z := c_tabs c ++ c_free c ++ c_held c.

Inductive request :=
| Map (va pa : Z)
| Unmap (va : Z) (lv : nat) (t e : Z) (free : bool)
| Alloc
| Give (va f : Z).

Definition accepts (dt : Z) (c : config) (r : request) : Prop :=
  let m := w_mem (c_world c) in
  match r with
  | Map va pa => (4096 | va) ∧ frame_ok pa ∧ translate m _tab_4 va = None ∧
      page_of 1 va ≠ page_of 1 VA_48_DIRECT_ACCESS_PAGE
  | Unmap va lv t e free => leaf_at m va lv t e ∧ (page_span (Z.of_nat lv) | va) ∧
      (page_span (Z.of_nat lv) | entry_frame e) ∧ canonical va = true ∧
      page_of (Z.of_nat lv) dt ≠ page_of (Z.of_nat lv) va ∧
      (free = true → ∀ k, (k < frames_of lv)%nat → entry_frame e + 4096 * Z.of_nat k ∈ c_held c)
  | Alloc => True
  | Give va f => f ∈ c_held c ∧ reach m _tab_4 va f 8
  end.

(** What the request makes of the configuration: the frames that change hands,
    and the world the code leaves. *)
Inductive step (dt : Z) (c : config) : request → config → Prop :=
| step_map va pa ok w' : accepts dt c (Map va pa) → mm_page_map va pa (c_world c) = Done (ok, w') →
    let k := lacking (w_mem (c_world c)) va 1 in
    step dt c (Map va pa) (Config (take k (c_free c) ++ c_tabs c) (drop k (c_free c)) (c_held c) w')
| step_unmap va lv t e free pa w' : accepts dt c (Unmap va lv t e free) →
    _unmap va (page_span (Z.of_nat lv)) free (c_world c) = Done (pa, w') →
    let gone := emptied dt (w_mem (c_world c)) va (seq lv (4 - lv)) in
    let pages := pushed (entry_frame e) (if free : bool then frames_of lv else 0) in
    step dt c (Unmap va lv t e free) (Config (filter (.∉ gone) (c_tabs c)) (rev gone ++ pages ++ c_free c)
      (filter (.∉ pages) (c_held c)) w')
| step_alloc f w' : mm_frame_alloc (c_world c) = Done (Some f, w') →
    step dt c Alloc (Config (c_tabs c) (tail (c_free c)) (f :: c_held c) w')
| step_refused w' : mm_frame_alloc (c_world c) = Done (None, w') →
    step dt c Alloc (Config (c_tabs c) (c_free c) (c_held c) w')
| step_give va f w' : accepts dt c (Give va f) → mm_frame_free va f (c_world c) = Done ((), w') →
    step dt c (Give va f) (Config (c_tabs c) (f :: c_free c) (filter (.∉ [f]) (c_held c)) w').

Definition one_step (dt : Z) (c c' : config) : Prop := ∃ r, step dt c r c'.

Record config_ok (dt : Z) (c : config) : Prop := {
  co_ok : vm_ok dt (.∈ c_tabs c) (c_free c) (c_world c);
  co_held f : f ∈ c_held c → frame_ok f ∧ f ≠ 0 ∧ f ≠ _tab_4;
  co_once : NoDup (frames c);
  co_null : 0 ∉ c_tabs c;
}.

(** A held frame can be given back. *)
Lemma held_spare dt c f : config_ok dt c → f ∈ c_held c → spare (.∈ c_tabs c) (c_free c) f.
Proof.
  intros [_ Hh Hn _] Hf. destruct (Hh f Hf) as (?&?&?). unfold frames in Hn.
  apply list.NoDup_app in Hn as (_&Hd1&Hn). apply list.NoDup_app in Hn as (_&Hd2&_). split; try done.
  - intros Ht. apply (Hd1 f Ht), elem_of_app. by right.
  - intros Hl. by apply (Hd2 f Hl).
Qed.

(** Taking a part out of a list. *)
Lemma filter_out (l sub : list Z) : NoDup l → NoDup sub → (∀ x, x ∈ sub → x ∈ l) →
  l ≡ₚ sub ++ filter (.∉ sub) l.
Proof.
  intros Hl Hs Hin. apply NoDup_Permutation; [done| |].
  - apply list.NoDup_app. split; [done|]. split; [by intros x Hx [? _]%list_elem_of_filter|by apply list.NoDup_filter].
  - intros x. rewrite elem_of_app, list_elem_of_filter. destruct (decide (x ∈ sub)); naive_solver.
Qed.

Lemma pushed_nodup pa n : NoDup (pushed pa n).
Proof.
  induction n as [|n IH]; [constructor|]. apply list.NoDup_cons. split; [|done].
  intros (k&?&?)%elem_of_pushed. lia.
Qed.

(** What a request keeps: the invariant, and every frame. *)
Definition follows (dt : Z) (c c' : config) : Prop := config_ok dt c' ∧ frames c' ≡ₚ frames c.

(** The frames changed hands: the invariant of the new configuration. *)
Lemma config_moved dt c tabs l held w' : config_ok dt c → vm_ok dt (.∈ tabs) l w' →
  tabs ++ l ++ held ≡ₚ frames c → (∀ f, f ∈ held → f ∈ c_held c ∨ f ∈ c_free c) →
  (∀ f, f ∈ tabs → f ∈ c_tabs c ∨ f ∈ c_free c) → follows dt c (Config tabs l held w').
Proof.
  intros [Hok Hh Hn H0] Hok' Hp Hheld Htabs. split; [|exact Hp]. pose proof (vo_frames _ _ _ _ Hok) as Hfr. split; cbn [c_tabs c_free c_held c_world].
  - done.
  - intros f [Hf|Hf]%Hheld; [by apply Hh|]. destruct (Hfr f Hf) as (?&?&_&?). done.
  - unfold frames. cbn [c_tabs c_free c_held]. by rewrite Hp.
  - intros [?|Hf]%Htabs; [done|]. by destruct (Hfr 0 Hf) as (_&?&_).
Qed.
(** [Map]: the tables that were missing come from the free list. *)
Lemma step_map_run dt c va pa : config_ok dt c → accepts dt c (Map va pa) →
  let k := lacking (w_mem (c_world c)) va 1 in
  wp (mm_page_map va pa) (λ _ w', follows dt c (Config (take k (c_free c) ++ c_tabs c) (drop k (c_free c)) (c_held c) w'))
    (c_world c).
Proof.
  intros Hc (Hva&Hpa&Hno&Hwin) k. eapply wp_mm_page_map; [apply Hc|done..|]. fold k. intros ok w' _ Hok' _ _ _ _.
  eapply config_moved; [exact Hc| | |by left|].
  - eapply vm_ok_ext; [|exact Hok']. intros t. unfold more. rewrite elem_of_app. tauto.
  - unfold frames. rewrite <-(take_drop k (c_free c)) at 3. by rewrite <-!app_assoc, Permutation_app_swap_app.
  - intros f [Hf|Hf]%elem_of_app; [right|by left]. rewrite <-(take_drop k (c_free c)). apply elem_of_app. by left.
Qed.

Lemma held_page_spare dt c va lv t e free : config_ok dt c → accepts dt c (Unmap va lv t e free) → free = true →
  page_spare (.∈ c_tabs c) (c_free c) lv (entry_frame e).
Proof. intros Hc (_&_&_&_&_&Hf) Hfree. split. intros k Hk. by eapply held_spare, Hf. Qed.

Lemma pages_held dt c va lv t e (free : bool) f : accepts dt c (Unmap va lv t e free) →
  f ∈ pushed (entry_frame e) (if free then frames_of lv else 0) → f ∈ c_held c.
Proof. intros (_&_&_&_&_&Hf) (k&Hk&->)%elem_of_pushed. destruct free; [by apply Hf|lia]. Qed.

(** [Unmap]: the emptied tables, and the page when asked, go on the free list. *)
Lemma step_unmap_run dt c va lv t e (free : bool) : config_ok dt c → accepts dt c (Unmap va lv t e free) →
  let gone := emptied dt (w_mem (c_world c)) va (seq lv (4 - lv)) in
  let pages := pushed (entry_frame e) (if free then frames_of lv else 0) in
  wp (_unmap va (page_span (Z.of_nat lv)) free) (λ _ w', follows dt c (Config (filter (.∉ gone) (c_tabs c))
    (rev gone ++ pages ++ c_free c) (filter (.∉ pages) (c_held c)) w')) (c_world c).
Proof.
  intros Hc Hacc gone pages. pose proof (λ f, pages_held dt c va lv t e free f Hacc) as Hheld.
  pose proof (co_once _ _ Hc) as Hn. unfold frames in Hn. apply list.NoDup_app in Hn as (Hnt&_&Hn).
  apply list.NoDup_app in Hn as (_&_&Hnh).
  pose proof (held_page_spare dt c va lv t e free Hc Hacc) as Hps.
  destruct Hacc as (Hleaf&Hva&Hpa&Hcan&Hdt&Hf). eapply wp_unmap; [apply Hc|exact Hleaf|done..| |exact (co_null _ _ Hc)|done|].
  { done. }
  fold gone. fold pages. intros w' [Hok' _ _ _ Hin]. fold gone in Hok', Hin.
  assert (NoDup gone) as Hg.
  { pose proof (vo_nodup _ _ _ _ Hok') as Hd. apply list.NoDup_app in Hd as [Hd _]. 
    rewrite <-(rev_involutive gone). by apply NoDup_ListNoDup, NoDup_rev, NoDup_ListNoDup. }
  pose proof (filter_out (c_tabs c) gone Hnt Hg Hin) as Ht.
  assert (c_held c ≡ₚ pages ++ filter (.∉ pages) (c_held c)) as Hh.
  { apply filter_out; [done|apply pushed_nodup|]. intros f. by apply Hheld. }
  eapply config_moved; [exact Hc| | | |].
  - eapply vm_ok_ext; [|exact Hok']. intros u. unfold without. rewrite list_elem_of_filter. tauto.
  - unfold frames. rewrite Ht at 2. rewrite Hh at 2. rewrite <-Permutation_rev. 
    rewrite <-!app_assoc. rewrite Permutation_app_swap_app. f_equiv. f_equiv. by rewrite Permutation_app_swap_app.
  - intros f [_ ?]%list_elem_of_filter. by left.
  - intros f [_ ?]%list_elem_of_filter. by left.
Qed.

Lemma step_alloc_run dt c : config_ok dt c →
  wp mm_frame_alloc (λ r w', match r with
    | Some f => follows dt c (Config (c_tabs c) (tail (c_free c)) (f :: c_held c) w')
    | None => follows dt c (Config (c_tabs c) (c_free c) (c_held c) w') end) (c_world c).
Proof.
  intros Hc. eapply wp_mm_frame_alloc; [apply Hc|]. destruct c as [tabs [|f l] held w]; cbn [c_tabs c_free c_held c_world tail].
  - by split.
  - intros m s Hok' _ _. eapply config_moved; [exact Hc|exact Hok'| | |]; cbn [c_tabs c_free c_held].
    + unfold frames. cbn [c_tabs c_free c_held]. f_equiv. by rewrite <-Permutation_middle.
    + intros g [->|Hg]%elem_of_cons; [right|by left]. by left.
    + by left.
Qed.

Lemma step_give_run dt c va f : config_ok dt c → accepts dt c (Give va f) →
  wp (mm_frame_free va f) (λ _ w', follows dt c (Config (c_tabs c) (f :: c_free c) (filter (.∉ [f]) (c_held c)) w'))
    (c_world c).
Proof.
  intros Hc [Hf Hr]. eapply wp_free_frame; [apply Hc|by eapply held_spare|done|]. intros w' Hok' _ _.
  pose proof (co_once _ _ Hc) as Hn. unfold frames in Hn. apply list.NoDup_app in Hn as (_&_&Hn).
  apply list.NoDup_app in Hn as (_&_&Hnh). eapply config_moved; [exact Hc|exact Hok'| | |by left].
  - unfold frames. f_equiv. rewrite (filter_out (c_held c) [f]) at 2; [|done|apply NoDup_singleton|by intros x ->%list_elem_of_singleton].
    cbn [app]. by rewrite <-Permutation_middle.
  - intros g [_ ?]%list_elem_of_filter. by left.
Qed.

(** One request: the code returns, and what it returns keeps the invariant. *)
Lemma step_progress dt c r : config_ok dt c → accepts dt c r → ∃ c', step dt c r c'.
Proof.
  intros Hc Hacc. destruct r as [va pa|va lv t e free| |va f].
  - destruct (proj1 (wp_done _ _ _) (step_map_run dt c va pa Hc Hacc)) as (ok&w'&Hrun&_). eexists. by eapply step_map.
  - destruct (proj1 (wp_done _ _ _) (step_unmap_run dt c va lv t e free Hc Hacc)) as (pa&w'&Hrun&_).
    eexists. by eapply step_unmap.
  - destruct (proj1 (wp_done _ _ _) (step_alloc_run dt c Hc)) as ([f|]&w'&Hrun&_); eexists;
      [by eapply step_alloc|by eapply step_refused].
  - destruct (proj1 (wp_done _ _ _) (step_give_run dt c va f Hc Hacc)) as ([]&w'&Hrun&_). eexists. by eapply step_give.
Qed.

Lemma step_keeps dt c r c' : config_ok dt c → step dt c r c' → follows dt c c'.
Proof.
  intros Hc Hs. destruct Hs as [va pa ok w' Hacc Hrun k|va lv t e free pa w' Hacc Hrun gone pages|f w' Hrun|w' Hrun|va f w' Hacc Hrun].
  - exact (wp_run _ _ _ _ _ Hrun (step_map_run dt c va pa Hc Hacc)).
  - exact (wp_run _ _ _ _ _ Hrun (step_unmap_run dt c va lv t e free Hc Hacc)).
  - exact (wp_run _ _ _ _ _ Hrun (step_alloc_run dt c Hc)).
  - exact (wp_run _ _ _ _ _ Hrun (step_alloc_run dt c Hc)).
  - exact (wp_run _ _ _ _ _ Hrun (step_give_run dt c va f Hc Hacc)).
Qed.

(** C8: whatever requests the kernel makes of the page tables and the frame
    list, each under the conditions the code relies on, the state stays well
    formed: the tables are a tree, the free list is a chain of distinct frames,
    no frame is in two places or lost.  In every reachable configuration each
    further request that is accepted runs to its end. *)
Theorem paging_steps dt c c' (Hc : config_ok dt c) (Hs : rtc (one_step dt) c c') :
  config_ok dt c' ∧ frames c' ≡ₚ frames c ∧ ∀ r, accepts dt c' r -> ∃ c'', step dt c' r c''.
Proof.
  assert (follows dt c c') as [Hc' Hp].
  { induction Hs as [c|c c1 c2 [r Hr] Hs IH]; [by split|]. destruct (step_keeps dt c r c1 Hc Hr) as [Hc1 Hp1].
    destruct (IH Hc1) as [? ?]. split; [done|by etrans]. }
  split; [done|]. split; [done|]. intros r. by apply step_progress.
Qed.
End script.

(* --------------------------------------------------------------------- *)
(** ** Sample *)

#[local] Existing Instance sample_vm_link.

(** The five tables of the sample, three free frames, none held. *)
Definition sample_config : config := Config sample_tables (sample_list 3) [] (sample_state 3).

Lemma sample_config_ok : config_ok 0x6000 sample_config.
Proof.
  pose proof (sample_ok 3 ltac:(lia)) as Hok. split; cbn [sample_config c_tabs c_free c_held c_world].
  - exact Hok.
  - by intros f ?%elem_of_nil.
  - unfold frames. cbn [sample_config c_tabs c_free c_held]. rewrite app_nil_r. apply (bool_decide_unpack _). vm_compute. exact I.
  - apply (bool_decide_unpack _). vm_compute. exact I.
Qed.

Lemma sample_accepts : accepts 0x6000 sample_config (Map VA_48_HEAP 0x7000).
Proof.
  split; [by exists (VA_48_HEAP / 4096)|]. split; [split; [by exists 7|unfold PA_LIMIT; lia]|]. split; [|by vm_compute].
  cbn [sample_config c_world]. rewrite sample_translate by done. by vm_compute.
Qed.

Lemma paging_steps_witness : ∃ c1 c2, step 0x6000 sample_config (Map VA_48_HEAP 0x7000) c1 ∧
  step 0x6000 c1 Alloc c2 ∧ length (frames c1) = 8%nat.
Proof.
  destruct (step_progress 0x6000 sample_config (Map VA_48_HEAP 0x7000) sample_config_ok sample_accepts) as [c1 H1].
  destruct (paging_steps 0x6000 sample_config c1) as (_&Hp&Hn).
  - exact sample_config_ok.
  - apply rtc_once. by exists (Map VA_48_HEAP 0x7000).
  - destruct (Hn Alloc I) as [c2 H2]. exists c1, c2. split; [exact H1|]. split; [exact H2|]. rewrite Hp. by vm_compute.
Defined.
