(* ===== verification/MemFrame.v ===== *)
(** Physical memory during boot, src/mem/mem_frame.c: the sections of
    available memory and the kernel's extent read from the boot information,
    the pool of bootstrap frames, lists of physical ranges, and the placement
    of the frame map. *)
From stdpp Require Import sorting.
From S2P Require Import Prelude Memory Util MmCore Vesa Pcie.

(** Addresses that the linker chooses. *)
Class Link := {
  _frame_pool_bootstrap : Z;
  _pa_list_bootstrap_pool : Z;
  _tab_4_bootstrap : Z;
  _tab_4 : Z;
  text_bootstrap_kernel_elf_symbols : Z; (* &_bootstrap_kernel_elf_symbols *)
}.

(* ===================================================================== *)
(** ** Data *)

Record section_t := Section_t { sec_base : Z; sec_len : Z }.

#[export] Instance section_inhabited : Inhabited section_t := populate (Section_t 0 0).

Definition _SECTION_CAP : Z := 32.
Definition _FRAME_CAP_BOOTSTRAP : Z := 16 * 1024.
Definition _PA_LIST_CAP_BOOTSTRAP : Z := 1024.

(** [mem_bootstrap_stage_t]; stages 2 and 3 have the same number. *)
Definition MEM_BOOTSTRAP_STAGE_0 : Z := 0.
Definition MEM_BOOTSTRAP_STAGE_1 : Z := 1.
Definition MEM_BOOTSTRAP_STAGE_2 : Z := 2.
Definition MEM_BOOTSTRAP_STAGE_3 : Z := 2.
Definition MEM_BOOTSTRAP_STAGE_FINISH : Z := 99.

(** The static variables of the memory subsystem: those of mem_frame.c, the
    shared [boot_stage] of mem.c, the CPU's CR3, and the variables of the two
    drivers that the subsystem asks. *)
Record mem_state := MemState {
  boot_stage : Z;
  _sections : list section_t;
  _sec_cnt : Z;
  _pmem_size : Z;
  _kern_start_pa : Z;
  _kern_end_pa : Z;
  _frame_count_bootstrap : Z;
  _pa_list_bootstrap_next : Z;
  _frame_map : Z;
  _frame_map_cap : Z;
  cr3 : Z;
  st_pcie : pcie;
  st_vesa : vesa;
}.

Definition set_boot_stage (x : Z) (s : mem_state) : mem_state :=
  MemState x (_sections s) (_sec_cnt s) (_pmem_size s) (_kern_start_pa s) (_kern_end_pa s)
    (_frame_count_bootstrap s) (_pa_list_bootstrap_next s) (_frame_map s) (_frame_map_cap s) (cr3 s) (st_pcie s) (st_vesa s).
Definition set_sections (l : list section_t) (n size : Z) (s : mem_state) : mem_state :=
  MemState (boot_stage s) l n size (_kern_start_pa s) (_kern_end_pa s)
    (_frame_count_bootstrap s) (_pa_list_bootstrap_next s) (_frame_map s) (_frame_map_cap s) (cr3 s) (st_pcie s) (st_vesa s).
Definition set_kern (a z : Z) (s : mem_state) : mem_state :=
  MemState (boot_stage s) (_sections s) (_sec_cnt s) (_pmem_size s) a z
    (_frame_count_bootstrap s) (_pa_list_bootstrap_next s) (_frame_map s) (_frame_map_cap s) (cr3 s) (st_pcie s) (st_vesa s).
Definition set_frame_count (x : Z) (s : mem_state) : mem_state :=
  MemState (boot_stage s) (_sections s) (_sec_cnt s) (_pmem_size s) (_kern_start_pa s) (_kern_end_pa s)
    x (_pa_list_bootstrap_next s) (_frame_map s) (_frame_map_cap s) (cr3 s) (st_pcie s) (st_vesa s).
Definition set_pa_list_next (x : Z) (s : mem_state) : mem_state :=
  MemState (boot_stage s) (_sections s) (_sec_cnt s) (_pmem_size s) (_kern_start_pa s) (_kern_end_pa s)
    (_frame_count_bootstrap s) x (_frame_map s) (_frame_map_cap s) (cr3 s) (st_pcie s) (st_vesa s).
Definition set_frame_map (p cap : Z) (s : mem_state) : mem_state :=
  MemState (boot_stage s) (_sections s) (_sec_cnt s) (_pmem_size s) (_kern_start_pa s) (_kern_end_pa s)
    (_frame_count_bootstrap s) (_pa_list_bootstrap_next s) p cap (cr3 s) (st_pcie s) (st_vesa s).
Definition set_cr3 (x : Z) (s : mem_state) : mem_state :=
  MemState (boot_stage s) (_sections s) (_sec_cnt s) (_pmem_size s) (_kern_start_pa s) (_kern_end_pa s)
    (_frame_count_bootstrap s) (_pa_list_bootstrap_next s) (_frame_map s) (_frame_map_cap s) x (st_pcie s) (st_vesa s).
Definition set_vesa (v : vesa) (s : mem_state) : mem_state :=
  MemState (boot_stage s) (_sections s) (_sec_cnt s) (_pmem_size s) (_kern_start_pa s) (_kern_end_pa s)
    (_frame_count_bootstrap s) (_pa_list_bootstrap_next s) (_frame_map s) (_frame_map_cap s) (cr3 s) (st_pcie s) v.
Definition set_pcie (p : pcie) (s : mem_state) : mem_state :=
  MemState (boot_stage s) (_sections s) (_sec_cnt s) (_pmem_size s) (_kern_start_pa s) (_kern_end_pa s)
    (_frame_count_bootstrap s) (_pa_list_bootstrap_next s) (_frame_map s) (_frame_map_cap s) (cr3 s) p (st_vesa s).

Abbreviation FM := (M (world mem_state)).

Definition pcie_call {A} (m : M (world pcie) A) : FM A := within st_pcie set_pcie m.
Definition vesa_call {A} (m : M (world vesa) A) : FM A := within st_vesa set_vesa m.

(** [for (i = lo; n rounds; i++) if (test(i)) { found = true; break; }] *)
Fixpoint any_n {S} (n : nat) (lo : Z) (test : Z → M S bool) : M S bool :=
  match n with
  | O => mret false
  | Datatypes.S n => b ← test lo; if (b : bool) then mret true else any_n n (lo + 1) test
  end.

Section frame.
Context `{Link}.

(* ===================================================================== *)
(** ** Ranges *)

Definition pa_range_overlaps (a1 len1 a2 len2 : Z) : bool :=
  let result := ((a1 + len1 <? a2) || (a2 + len2 <? a1))%u64 in negb result.

Definition mem_pa_range_valid (start end_ : Z) : FM bool :=
  cnt ← static _sec_cnt;
  kernel_assert_d (0 <? cnt) ;;
  any_n (Z.to_nat cnt) 0 (λ i,
    secs ← static _sections;
    sec ← array_get secs i;
    let sec_start := sec_base sec in
    let sec_end := (sec_start + sec_len sec)%u64 in
    mret ((sec_start <=? start) && (end_ <? sec_end))).

Definition mem_pa_start : FM Z :=
  cnt ← static _sec_cnt;
  kernel_assert_d (0 <? cnt) ;;
  secs ← static _sections;
  sec ← array_get secs 0;
  mret (sec_base sec).

Definition mem_pa_end : FM Z :=
  cnt ← static _sec_cnt;
  kernel_assert_d (0 <? cnt) ;;
  secs ← static _sections;
  sec ← array_get secs (cnt - 1);
  mret (sec_base sec + sec_len sec)%u64.

Definition mem_pa_ker_start : FM Z := static _kern_start_pa.
Definition mem_pa_ker_end : FM Z := static _kern_end_pa.

(* ===================================================================== *)
(** ** Boot information *)

(** One 24-byte entry of the memory map: base 0, len 8, type 16, reserved 20. *)
Definition mmap_entry (ptr : Z) : FM unit :=
  base ← read 8 ptr;
  len ← read 8 (ptr + 8)%u64;
  type ← read 4 (ptr + 16)%u64;
  if negb (type =? 1) then mret () else
  cnt ← static _sec_cnt;
  kernel_assert (cnt <? _SECTION_CAP) ;;
  secs ← static _sections;
  secs ← array_set secs cnt (Section_t base len);
  static_set (λ s, set_sections secs (_sec_cnt s) (_pmem_size s) s) ;;
  kernel_assert (mem_align_check base PAGE_SIZE_4K) ;;
  (if 0 <? cnt then
    last ← array_get secs (cnt - 1);
    let last_end := (sec_base last + sec_len last)%u64 in
    kernel_assert (last_end <? base)
   else mret ()) ;;
  static_set (λ s, set_sections secs (cnt + 1)%u64 (_pmem_size s + len)%u64 s).

Definition _bootstrap_mmap_info (ptr size : Z) : FM unit :=
  stage ← static boot_stage;
  kernel_assert (stage =? MEM_BOOTSTRAP_STAGE_0) ;;
  entry_size ← read 4 ptr;
  entry_ver ← read 4 (ptr + 4)%u64;
  kernel_assert (entry_ver =? 0) ;;
  kernel_assert (entry_size =? 24) ;;
  kernel_assert ((size - 8) mod entry_size =? 0)%u64 ;;
  let entry_cnt := ((size - 8) / entry_size)%u64 in
  static_set (λ s, set_sections (_sections s) 0 0 s) ;;
  for_n (Z.to_nat entry_cnt) 0 (λ en, mmap_entry (ptr + 8 + 24 * en)%u64).

(** One ELF section header: type 4, addr 16, size 32. *)
Definition elf_entry (entry : Z) : FM unit :=
  type ← read 4 (entry + 4)%u64;
  if type =? 0 then mret () else
  addr ← read 8 (entry + 16)%u64;
  size ← read 8 (entry + 32)%u64;
  static_set (λ s, set_kern (if addr <? _kern_start_pa s then addr else _kern_start_pa s)
    (if _kern_end_pa s <? (size + addr)%u64 then (size + addr)%u64 else _kern_end_pa s) s).

Definition _bootstrap_kernel_elf_symbols (elf_info elf_info_len : Z) : FM unit :=
  stage ← static boot_stage;
  kernel_assert (stage =? MEM_BOOTSTRAP_STAGE_0) ;;
  sec_cnt ← read 4 elf_info;
  sec_size ← read 4 (elf_info + 4)%u64;
  static_set (set_kern U64_MAX 0) ;;
  for_n (Z.to_nat sec_cnt) 0 (λ i, elf_entry (elf_info + 12 + i * sec_size)%u64) ;;
  start ← static _kern_start_pa;
  end_ ← static _kern_end_pa;
  kernel_assert ((end_ - start)%u64 <? 1024 * 1024 * 1024) ;;
  kernel_assert (text_bootstrap_kernel_elf_symbols <? end_) ;;
  kernel_assert (start <? text_bootstrap_kernel_elf_symbols) ;;
  valid ← mem_pa_range_valid start end_;
  kernel_assert valid.

Definition mem_frame_bootstrap_1 (mb_elf mb_elf_len mb_mmap mb_mmap_len : Z) : FM unit :=
  stage ← static boot_stage;
  kernel_assert (stage =? MEM_BOOTSTRAP_STAGE_0) ;;
  static_set (set_frame_count 0) ;;
  static_set (set_pa_list_next _pa_list_bootstrap_pool) ;;
  _bootstrap_mmap_info mb_mmap mb_mmap_len ;;
  _bootstrap_kernel_elf_symbols mb_elf mb_elf_len.

(** [None] is the return value false. *)
Definition mem_frame_alloc : FM (option Z) :=
  stage ← static boot_stage;
  kernel_assert (stage <? MEM_BOOTSTRAP_STAGE_FINISH) ;;
  cnt ← static _frame_count_bootstrap;
  if cnt <? _FRAME_CAP_BOOTSTRAP then
    static_set (set_frame_count (cnt + 1)%u64) ;;
    mret (Some (_frame_pool_bootstrap + cnt * PAGE_SIZE_4K)%u64)
  else mret None.

(* ===================================================================== *)
(** ** The frame map *)

Definition _pa_overlaps_pcie_cfg_space (pa len : Z) : FM bool :=
  cnt ← pcie_call d_pcie_group_get_cnt;
  any_n (Z.to_nat cnt) 0 (λ i,
    cfg_start ← pcie_call (d_pcie_group_get_cfg_pa i);
    mret (pa_range_overlaps pa len cfg_start d_pcie_group_get_cfg_len)).

Definition _pa_overlaps_vesa_frame_buffer (pa len : Z) : FM bool :=
  fb ← vesa_call d_vesa_get_frame_buffer;
  fb_len ← vesa_call d_vesa_get_frame_buffer_len;
  mret (pa_range_overlaps pa len fb fb_len).

(** Sections of at most 8 MB are ignored. *)
Definition SMALL_SECTION : Z := 8 * 1024 * 1024.

Definition section_clear (sec : section_t) : FM unit :=
  pcie ← _pa_overlaps_pcie_cfg_space (sec_base sec) (sec_len sec);
  kernel_assert (negb pcie) ;;
  vesa ← _pa_overlaps_vesa_frame_buffer (sec_base sec) (sec_len sec);
  kernel_assert (negb vesa).

Definition mem_frame_bootstrap_2 : FM unit :=
  cnt ← static _sec_cnt;
  pa_len ← loop (Datatypes.S (Z.to_nat cnt)) (λ '(i, pa_len),
    if i <? cnt then
      secs ← static _sections;
      sec ← array_get secs i;
      if SMALL_SECTION <? sec_len sec then
        section_clear sec ;;
        mret (inl (i + 1, (pa_len + sec_len sec)%u64))
      else mret (inl (i + 1, pa_len))
    else mret (inr pa_len)) (0, 0);
  let cap := (pa_len / PAGE_SIZE_4K * 2)%u64 in
  let map_page_cnt := (cap * 8 / PAGE_SIZE_4K + 2)%u64 in
  let cap := (map_page_cnt * PAGE_SIZE_4K / 8)%u64 in
  static_set (set_frame_map NULL cap) ;;
  for_n (Z.to_nat cnt) 0 (λ i,
    secs ← static _sections;
    sec ← array_get secs i;
    if SMALL_SECTION <? sec_len sec then
      section_clear sec ;;
      map ← static _frame_map;
      if map =? NULL then
        map ← mem_align_up (sec_base sec + PAGE_SIZE_4K)%u64 PAGE_SIZE_4K;
        static_set (λ s, set_frame_map map (_frame_map_cap s) s) ;;
        let map_end := (map + map_page_cnt * PAGE_SIZE_4K)%u64 in
        let sec_end := (sec_base sec + sec_len sec)%u64 in
        kernel_assert (map_end <? sec_end)
      else mret ()
    else mret ()).

(* ===================================================================== *)
(** ** Lists of physical ranges *)

(** [struct pa_list]: n 0, pa 8, n_pg 16. *)
Definition sizeof_pa_list : Z := 24.

Definition pa_list_new_bootstrap (n_range : Z) : FM Z :=
  let end_ := (_pa_list_bootstrap_pool + _PA_LIST_CAP_BOOTSTRAP)%u64 in
  stage ← static boot_stage;
  kernel_assert (stage <? MEM_BOOTSTRAP_STAGE_FINISH) ;;
  res ← static _pa_list_bootstrap_next;
  kernel_assert (res <? end_) ;;
  let next := (res + sizeof_pa_list)%u64 in
  static_set (set_pa_list_next next) ;;
  kernel_assert (next <=? end_) ;;
  write 8 res n_range ;;
  write 8 (res + 8)%u64 next ;;
  let next := (next + 8 * n_range)%u64 in
  static_set (set_pa_list_next next) ;;
  kernel_assert (next <=? end_) ;;
  write 8 (res + 16)%u64 next ;;
  let next := (next + 8 * n_range)%u64 in
  static_set (set_pa_list_next next) ;;
  kernel_assert (next <=? end_) ;;
  mret res.

Definition pa_list_free_bootstrap (list : Z) : FM unit := mret ().

Definition pa_list_set_range (list range pa n_pg : Z) : FM unit :=
  n ← read 8 list;
  kernel_assert_d (range <? n) ;;
  kernel_assert_d (mem_align_check pa PAGE_SIZE_4K) ;;
  pas ← read 8 (list + 8)%u64;
  write 8 (pas + 8 * range)%u64 pa ;;
  n_pgs ← read 8 (list + 16)%u64;
  write 8 (n_pgs + 8 * range)%u64 n_pg.

Definition pa_list_n_page (list : Z) : FM Z :=
  n ← read 8 list;
  loop (Datatypes.S (Z.to_nat n)) (λ '(i, n_page),
    if i <? n then
      n_pgs ← read 8 (list + 16)%u64;
      n_pg ← read 8 (n_pgs + 8 * i)%u64;
      mret (inl (i + 1, (n_page + n_pg)%u64))
    else mret (inr n_page)) (0, 0).

Definition pa_list_n_range (list : Z) : FM Z :=
  n ← read 8 list;
  kernel_assert_d (0 <? n) ;;
  mret n.

Definition pa_list_range_n_page (list range_idx : Z) : FM Z :=
  n ← read 8 list;
  kernel_assert_d (range_idx <? n) ;;
  n_pgs ← read 8 (list + 16)%u64;
  read 8 (n_pgs + 8 * range_idx)%u64.

Definition pa_list_range_pa (list range_idx : Z) : FM Z :=
  n ← read 8 list;
  kernel_assert_d (range_idx <? n) ;;
  pas ← read 8 (list + 8)%u64;
  pa ← read 8 (pas + 8 * range_idx)%u64;
  kernel_assert_d (mem_align_check pa PAGE_SIZE_4K) ;;
  mret pa.

End frame.

(* ===================================================================== *)
(** ** A sample placement *)

Definition sample_link : Link := {|
  _frame_pool_bootstrap := 0x400000;
  _pa_list_bootstrap_pool := 0x203000;
  _tab_4_bootstrap := 0x201000;
  _tab_4 := 0x202000;
  text_bootstrap_kernel_elf_symbols := 0x100400;
|}.
