(* ===== verification/MemHeap.v ===== *)
(** The heap map of the boot memory manager, src/mem/mem_heap.c: fifteen lists
    of free blocks and a queue of free slots in an array of words.

    The structure of a heap lies in the memory at the offsets the compiler
    gives its fields; the static buffer's address is a parameter, and [fuel]
    bounds the two loops of the initialisation. *)
From S2P Require Import Prelude Memory Util MmCore Vesa Pcie.
From S2P Require Import MemFrame.

Definition _CLASS_MAX : Z := 15.
Definition _BOOTSTRAP_BUFF_SIZE : Z := 65536.
Definition _MAP_NULL : Z := 18446744073709551615.

(** struct mem_heap *)
Definition OFF_add_0 : Z := 0.
Definition OFF_add_z : Z := 8.
Definition OFF_map : Z := 16.
Definition OFF_map_size : Z := 24.

Section map.
Context {S : Type} `{HasMemory S}.

Definition heap_field (heap off : Z) : M S Z := read 8 (heap + off)%u64.

(** heap->map[i] *)
Definition map_get (heap i : Z) : M S Z := map ← heap_field heap OFF_map; read 8 (map + 8 * i)%u64.
Definition map_set (heap i v : Z) : M S unit := map ← heap_field heap OFF_map; write 8 (map + 8 * i)%u64 v.

Definition _page_max (heap : Z) : M S Z :=
  z ← heap_field heap OFF_add_z;
  a ← heap_field heap OFF_add_0;
  mret ((z - a) / 4096)%u64.

Definition _map_header_len : Z := 8 * 2 * (_CLASS_MAX + 1).

Definition _map_max_heap (map_size : Z) : M S Z :=
  kernel_assert (map_size mod 4096 =? 0) ;;
  let size := (map_size - _map_header_len)%u64 in
  kernel_assert (size mod 16 =? 0) ;;
  let size := (size / 32)%u64 in
  mret (size * 4096)%u64.

Definition _map_slot_max (heap : Z) : M S Z :=
  map_size ← heap_field heap OFF_map_size;
  let size := (map_size - _map_header_len)%u64 in
  mret (size / 2)%u64.

(** kernel_assert_d(slot < _map_slot_max(heap)) *)
Definition assert_slot (heap slot : Z) : M S unit :=
  max ← _map_slot_max heap; kernel_assert_d (slot <? max).
Definition assert_slot_or_null (heap slot : Z) : M S unit :=
  if slot =? _MAP_NULL then mret () else assert_slot heap slot.

Definition _map_slot_idx (heap slot : Z) : M S Z :=
  assert_slot heap slot ;;
  mret (_map_header_len + slot * 2)%u64.

Definition _map_slot_set_slot (heap slot set_slot : Z) : M S unit :=
  assert_slot heap slot ;;
  assert_slot_or_null heap set_slot ;;
  idx ← _map_slot_idx heap slot;
  map_set heap idx set_slot ;;
  idx ← _map_slot_idx heap slot;
  map_set heap (idx + 1)%u64 set_slot.

Definition _map_slot_set_page (heap slot page : Z) : M S unit :=
  assert_slot heap slot ;;
  (if page =? _MAP_NULL then mret () else max ← _page_max heap; kernel_assert_d (page <? max)) ;;
  idx ← _map_slot_idx heap slot;
  map_set heap idx page.

Definition _map_slot_set_next (heap slot next : Z) : M S unit :=
  assert_slot heap slot ;;
  assert_slot_or_null heap next ;;
  idx ← _map_slot_idx heap slot;
  map_set heap (idx + 1)%u64 next.

Definition _map_slot_get_page (heap slot : Z) : M S Z :=
  assert_slot heap slot ;;
  idx ← _map_slot_idx heap slot;
  map_get heap idx.

Definition _map_slot_get_next (heap slot : Z) : M S Z :=
  assert_slot heap slot ;;
  idx ← _map_slot_idx heap slot;
  map_get heap (idx + 1)%u64.

Definition _map_slots_idx : Z := _CLASS_MAX * 2.

(** kernel_assert_d(heap->map[i] != _MAP_NULL) *)
Definition assert_word (heap i : Z) (b : Z → bool) : M S unit := v ← map_get heap i; kernel_assert_d (b v).
Definition not_map_null (v : Z) : bool := negb (v =? _MAP_NULL).

Definition _map_slots_dequeue (heap : Z) : M S Z :=
  let head := _map_slots_idx in
  assert_word heap head not_map_null ;;
  assert_word heap (head + 1)%u64 not_map_null ;;
  slot ← map_get heap head;
  assert_slot heap slot ;;
  next ← _map_slot_get_next heap slot;
  page ← _map_slot_get_page heap slot;
  kernel_assert_d (page =? next) ;;
  first ← map_get heap head;
  last ← map_get heap (head + 1)%u64;
  (if next =? _MAP_NULL then
     kernel_assert_d (first =? last) ;;
     map_set heap head _MAP_NULL ;;
     map_set heap (head + 1)%u64 _MAP_NULL
   else
     kernel_assert_d (negb (first =? last)) ;;
     map_set heap head next) ;;
  mret next.

Definition _map_slots_enqueue (heap slot : Z) : M S unit :=
  assert_slot heap slot ;;
  let head := _map_slots_idx in
  first ← map_get heap head;
  if first =? _MAP_NULL then
    assert_word heap (head + 1)%u64 (λ v, v =? _MAP_NULL) ;;
    map_set heap head slot ;;
    map_set heap (head + 1)%u64 slot ;;
    _map_slot_set_page heap slot _MAP_NULL ;;
    _map_slot_set_next heap slot _MAP_NULL
  else
    assert_word heap (head + 1)%u64 not_map_null ;;
    tail_slot ← map_get heap (head + 1)%u64;
    assert_slot heap tail_slot ;;
    next ← _map_slot_get_next heap tail_slot;
    kernel_assert_d (next =? _MAP_NULL) ;;
    page ← _map_slot_get_page heap tail_slot;
    kernel_assert_d (page =? _MAP_NULL) ;;
    _map_slot_set_page heap slot _MAP_NULL ;;
    _map_slot_set_next heap slot _MAP_NULL ;;
    _map_slot_set_slot heap tail_slot slot.

Definition _map_list_idx (l : Z) : M S Z :=
  kernel_assert_d (l <? _CLASS_MAX) ;;
  mret (l * 2)%u64.

Definition _map_list_enqueue (heap pg_0 class : Z) : M S unit :=
  kernel_assert_d (class <? _CLASS_MAX) ;;
  n_page ← util_math_2_exp class;
  kernel_assert_d (pg_0 mod n_page =? 0) ;;
  head ← _map_list_idx class;
  slot ← _map_slots_dequeue heap;
  _map_slot_set_page heap slot pg_0 ;;
  _map_slot_set_next heap slot _MAP_NULL ;;
  first ← map_get heap head;
  if first =? _MAP_NULL then
    assert_word heap (head + 1)%u64 (λ v, v =? _MAP_NULL) ;;
    map_set heap head slot ;;
    map_set heap (head + 1)%u64 slot
  else
    assert_word heap (head + 1)%u64 not_map_null ;;
    tail_slot ← map_get heap (head + 1)%u64;
    next ← _map_slot_get_next heap tail_slot;
    kernel_assert_d (next =? _MAP_NULL) ;;
    _map_slot_set_next heap tail_slot slot.

Context (fuel : nat).

(** Every slot is put in the queue. *)
Definition enqueue_slots (heap : Z) : M S unit :=
  loop fuel (λ slot,
    max ← _map_slot_max heap;
    if slot <? max then _map_slots_enqueue heap slot ;; mret (inl (slot + 1)%u64)
    else mret (inr ())) 0.

(** The area is cut into blocks. *)
Definition cut_blocks (heap size : Z) : M S unit :=
  loop fuel (λ cut,
    if (cut <? size) && (4096 <=? size - cut)%u64 then
      class ← util_math_log_2_down (size - cut)%u64;
      kernel_assert_d (class <? _CLASS_MAX) ;;
      let cut_pg := (cut / 4096)%u64 in
      n_page ← util_math_2_exp class;
      kernel_assert_d (cut_pg mod n_page =? 0) ;;
      _map_list_enqueue heap cut_pg class ;;
      n_page ← util_math_2_exp class;
      mret (inl ((cut + n_page * 4096)%u64))
    else mret (inr ())) 0.

Definition _map_init (heap heap_add heap_size : Z) : M S Z :=
  map ← heap_field heap OFF_map;
  kernel_assert (mem_align_check map 4096) ;;
  map_size ← heap_field heap OFF_map_size;
  kernel_assert (map_size mod 4096 =? 0) ;;
  kernel_assert (_map_header_len <? map_size) ;;
  kernel_assert (mem_align_check heap_add 4096) ;;
  kernel_assert (heap_size mod 4096 =? 0) ;;
  size ← _map_max_heap map_size;
  let size := if heap_size <? size then heap_size else size in
  kernel_assert_d (4096 <? size) ;;
  write 8 (heap + OFF_add_0)%u64 heap_add ;;
  write 8 (heap + OFF_add_z)%u64 (heap_add + size)%u64 ;;
  for_n (Z.to_nat _CLASS_MAX) 0 (λ class,
    idx ← _map_list_idx class;
    map_set heap idx _MAP_NULL ;;
    idx ← _map_list_idx class;
    map_set heap (idx + 1)%u64 _MAP_NULL) ;;
  map_set heap _map_slots_idx _MAP_NULL ;;
  map_set heap (_map_slots_idx + 1)%u64 _MAP_NULL ;;
  enqueue_slots heap ;;
  cut_blocks heap size ;;
  mret size.
End map.

Class HeapLink := { _bootstrap_buff : Z }.

(** [NULL] is 0. *)
Definition mem_heap_new_bootstrap `{HeapLink} (fuel : nat) (heap_add heap_size : Z) : M (world mem_state) Z :=
  stage ← static boot_stage;
  kernel_assert (stage <? MEM_BOOTSTRAP_STAGE_FINISH) ;;
  kernel_assert (32 <? 4096) ;;
  if negb (mem_align_check heap_add 4096) then mret 0
  else if negb (heap_size mod 4096 =? 0) then mret 0
  else
    let res := _bootstrap_buff in
    write 8 (res + OFF_map)%u64 (_bootstrap_buff + 4096)%u64 ;;
    write 8 (res + OFF_map_size)%u64 (_BOOTSTRAP_BUFF_SIZE - 4096) ;;
    _map_init fuel res heap_add heap_size ;;
    mret res.

(* ===================================================================== *)
(** ** The words of a map *)

(** The structure at [h] with a map of [sz] bytes at [p] behind it. *)
Record heap_at (m : memory) (h p sz : Z) : Prop := {
  ha_map : load64 m (h + OFF_map) = p;
  ha_size : load64 m (h + OFF_map_size) = sz;
  ha_low : 0 <= h ∧ h + 32 <= p;
  ha_high : p + sz < 18446744073709551616 ∧ 4096 <= sz;
}.

Definition word (m : memory) (p i : Z) : Z := load64 m (p + 8 * i).
Definition slot_max (sz : Z) : Z := (sz - _map_header_len) / 2.

(** The words of the slots up to [2], where the first error shows. *)
Definition in_map (i : Z) : Prop := 0 <= i < 262.

Section words.
Context {S : Type} `{HasMemory S}.
Context {h p sz : Z}.

Lemma wp_field off v (s : S) (Q : Z → S → Prop) : 0 <= h → h + 32 < 18446744073709551616 → 0 <= off <= 24 →
  load64 (mem_of s) (h + off) = v → Q v s → wp (heap_field h off) Q s.
Proof. intros Hh Hh' Ho <- HQ. apply wp_read. unfold uadd. by rewrite u64_small by lia. Qed.

Ltac field Ha lem := eapply (wp_field);
  [apply (ha_low _ _ _ _ Ha)|destruct (ha_low _ _ _ _ Ha), (ha_high _ _ _ _ Ha); lia|done|apply (lem _ _ _ _ Ha)|].

Lemma wp_map_get i (s : S) (Q : Z → S → Prop) : heap_at (mem_of s) h p sz → in_map i → Q (word (mem_of s) p i) s →
  wp (map_get h i) Q s.
Proof.
  intros Ha Hi HQ. unfold map_get. apply wp_bind. field Ha ha_map. apply wp_read. u64_unfold.
  destruct (ha_low _ _ _ _ Ha), (ha_high _ _ _ _ Ha). unfold in_map in Hi. by rewrite (u64_small (8 * i)), u64_small by lia.
Qed.

Lemma wp_map_set i v (s : S) (Q : unit → S → Prop) : heap_at (mem_of s) h p sz → in_map i → is_u64 v →
  (∀ m', heap_at m' h p sz → word m' p i = v → (∀ j, j ≠ i → word m' p j = word (mem_of s) p j) → Q () (set_mem m' s)) →
  wp (map_set h i v) Q s.
Proof.
  intros Ha Hi Hv HQ. unfold map_set. apply wp_bind. field Ha ha_map. apply wp_write. u64_unfold.
  destruct (ha_low _ _ _ _ Ha) as [? ?], (ha_high _ _ _ _ Ha) as [? ?]. unfold in_map in Hi.
  rewrite (u64_small (8 * i)), u64_small by lia. apply HQ.
  - split; [| |by apply Ha|by apply Ha]; unfold load64; rewrite load_store_ne by (unfold OFF_map, OFF_map_size; lia); apply Ha.
  - unfold word. by apply load64_store64_eq.
  - intros j Hj. unfold word, load64. rewrite load_store_ne by lia. done.
Qed.

Lemma wp_slot_max (s : S) (Q : Z → S → Prop) : heap_at (mem_of s) h p sz → Q (slot_max sz) s → wp (_map_slot_max h) Q s.
Proof.
  intros Ha HQ. unfold _map_slot_max. apply wp_bind. field Ha ha_size. apply wp_ret. u64_unfold.
  destruct (ha_low _ _ _ _ Ha), (ha_high _ _ _ _ Ha). unfold slot_max, _map_header_len, _CLASS_MAX in *.
  by rewrite (u64_small (sz - _)) by lia.
Qed.

Lemma slot_max_large m : heap_at m h p sz → 3 <= slot_max sz.
Proof. intros Ha. destruct (ha_high _ _ _ _ Ha). unfold slot_max, _map_header_len, _CLASS_MAX. apply Z.div_le_lower_bound; lia. Qed.

Lemma wp_assert_slot slot (s : S) (Q : unit → S → Prop) : heap_at (mem_of s) h p sz → 0 <= slot <= 2 → Q () s →
  wp (assert_slot h slot) Q s.
Proof.
  intros Ha Hs HQ. unfold assert_slot. wp_step. apply wp_slot_max; [done|]. pose proof (slot_max_large _ Ha).
  wp_step; [bsimp; lia|done].
Qed.

Lemma wp_slot_idx slot (s : S) (Q : Z → S → Prop) : heap_at (mem_of s) h p sz → 0 <= slot <= 2 → Q (256 + slot * 2) s →
  wp (_map_slot_idx h slot) Q s.
Proof.
  intros Ha Hs HQ. unfold _map_slot_idx. wp_step. apply wp_assert_slot; [done|done|]. wp_step. u64_unfold.
  rewrite (u64_small (slot * 2)), u64_small by (unfold _map_header_len, _CLASS_MAX; lia). exact HQ.
Qed.

Lemma wp_get_page slot (s : S) (Q : Z → S → Prop) : heap_at (mem_of s) h p sz → 0 <= slot <= 2 →
  Q (word (mem_of s) p (256 + slot * 2)) s → wp (_map_slot_get_page h slot) Q s.
Proof.
  intros Ha Hs HQ. unfold _map_slot_get_page. wp_step. apply wp_assert_slot; [done|done|]. wp_step.
  apply wp_slot_idx; [done|done|]. apply wp_map_get; [done|unfold in_map; lia|done].
Qed.

Lemma wp_get_next slot (s : S) (Q : Z → S → Prop) : heap_at (mem_of s) h p sz → 0 <= slot <= 2 →
  Q (word (mem_of s) p (256 + slot * 2 + 1)) s → wp (_map_slot_get_next h slot) Q s.
Proof.
  intros Ha Hs HQ. unfold _map_slot_get_next. wp_step. apply wp_assert_slot; [done|done|]. wp_step.
  apply wp_slot_idx; [done|done|]. unfold uadd. rewrite u64_small by lia. apply wp_map_get; [done|unfold in_map; lia|done].
Qed.

(** A fresh slot has no page and no successor. *)
Lemma wp_clear_slot slot (s : S) (Q : unit → S → Prop) : heap_at (mem_of s) h p sz → 0 <= slot <= 2 →
  (∀ m', heap_at m' h p sz → word m' p (256 + slot * 2) = _MAP_NULL → word m' p (256 + slot * 2 + 1) = _MAP_NULL →
    (∀ j, j ≠ 256 + slot * 2 → j ≠ 256 + slot * 2 + 1 → word m' p j = word (mem_of s) p j) → Q () (set_mem m' s)) →
  wp (_map_slot_set_page h slot _MAP_NULL) (λ _ s', wp (_map_slot_set_next h slot _MAP_NULL) Q s') s.
Proof.
  intros Ha Hs HQ. unfold _map_slot_set_page, _map_slot_set_next, assert_slot_or_null. change (_MAP_NULL =? _MAP_NULL) with true.
  wp_step. apply wp_assert_slot; [done|done|]. wp_step. wp_step. wp_step. apply wp_slot_idx; [done|done|].
  apply wp_map_set; [done|unfold in_map; lia|unfold is_u64, _MAP_NULL; lia|]. intros m1 Ha1 Hw1 Ho1.
  wp_step. apply wp_assert_slot; [by rewrite mem_of_set|done|]. wp_step. wp_step. wp_step.
  apply wp_slot_idx; [by rewrite mem_of_set|done|]. unfold uadd. rewrite u64_small by lia.
  apply wp_map_set; [by rewrite mem_of_set|unfold in_map; lia|unfold is_u64, _MAP_NULL; lia|].
  rewrite mem_of_set. intros m2 Ha2 Hw2 Ho2. rewrite set_mem_set. apply HQ; [done| |done|].
  - rewrite Ho2 by lia. done.
  - intros j Hj Hj'. by rewrite Ho2, Ho1.
Qed.

(** A failing computation after one that returns. *)
Lemma assert_after {A B} (m : M S A) (f : A → M S B) (Q : A → S → Prop) s :
  wp m Q s → (∀ a s', Q a s' → f a s' = Assert) → (m ≫= f) s = Assert.
Proof. intros Hm Hf. apply then_assert. by eapply wp_mono. Qed.

Lemma guard_assert {A} (b : bool) (m : M S A) s : (b = true → m s = Assert) → (kernel_assert b ;; m) s = Assert.
Proof. rewrite assert_then. destruct b; auto. Qed.

(** The states of the queue of free slots: none, the first one, and what the
    second call makes of it. *)
Definition no_slots (m : memory) : Prop := word m p 30 = _MAP_NULL ∧ word m p 31 = _MAP_NULL.
Definition one_slot (m : memory) : Prop :=
  word m p 30 = 0 ∧ word m p 31 = 0 ∧ word m p 256 = _MAP_NULL ∧ word m p 257 = _MAP_NULL.
Definition stale_tail (m : memory) : Prop := word m p 30 = 0 ∧ word m p 31 = 0 ∧ word m p 257 = 1.

Lemma wp_enqueue_first (s : S) (Q : unit → S → Prop) : heap_at (mem_of s) h p sz → no_slots (mem_of s) →
  (∀ m', heap_at m' h p sz → one_slot m' → Q () (set_mem m' s)) → wp (_map_slots_enqueue h 0) Q s.
Proof.
  intros Ha [E1 E2] HQ. unfold _map_slots_enqueue, assert_word. change _map_slots_idx with 30. change ((30 + 1)%u64) with 31.
  wp_step. apply wp_assert_slot; [done|lia|]. wp_step. apply wp_map_get; [done|unfold in_map; lia|]. rewrite E1.
  change (_MAP_NULL =? _MAP_NULL) with true. cbv iota. wp_step. wp_step. apply wp_map_get; [done|unfold in_map; lia|]. rewrite E2.
  wp_step; [done|]. wp_step. apply wp_map_set; [done|unfold in_map; lia|unfold is_u64; lia|]. intros m1 Ha1 Hw1 Ho1.
  wp_step. apply wp_map_set; [by rewrite mem_of_set|unfold in_map; lia|unfold is_u64; lia|].
  intros m2 Ha2 Hw2 Ho2. rewrite set_mem_set.
  wp_step. apply wp_clear_slot; [by rewrite mem_of_set|lia|]. rewrite mem_of_set. intros m3 Ha3 Hp3 Hn3 Ho3. rewrite set_mem_set.
  apply HQ; [done|]. rewrite mem_of_set in Ho2. split_and!; [|by rewrite Ho3|done|done].
  rewrite Ho3, Ho2 by done. done.
Qed.

Lemma wp_enqueue_second (s : S) (Q : unit → S → Prop) : heap_at (mem_of s) h p sz → one_slot (mem_of s) →
  (∀ m', heap_at m' h p sz → stale_tail m' → Q () (set_mem m' s)) → wp (_map_slots_enqueue h 1) Q s.
Proof.
  intros Ha (E1&E2&E3&E4) HQ. unfold _map_slots_enqueue, assert_word. change _map_slots_idx with 30. change ((30 + 1)%u64) with 31.
  wp_step. apply wp_assert_slot; [done|lia|]. wp_step. apply wp_map_get; [done|unfold in_map; lia|]. rewrite E1.
  change (0 =? _MAP_NULL) with false. cbv iota. wp_step. wp_step. apply wp_map_get; [done|unfold in_map; lia|]. rewrite E2.
  wp_step; [done|]. wp_step. apply wp_map_get; [done|unfold in_map; lia|]. rewrite E2.
  wp_step. apply wp_assert_slot; [done|lia|]. wp_step. apply wp_get_next; [done|lia|]. change (256 + 0 * 2 + 1) with 257. rewrite E4.
  wp_step. wp_step; [done|]. wp_step. apply wp_get_page; [done|lia|]. change (256 + 0 * 2) with 256. rewrite E3.
  wp_step. wp_step; [done|]. wp_step. eapply wp_mono.
  { apply (wp_clear_slot 1 s (λ _ s', heap_at (mem_of s') h p sz ∧ (∃ m', s' = set_mem m' s) ∧
      word (mem_of s') p 30 = 0 ∧ word (mem_of s') p 31 = 0)); [done|lia|].
    intros m' Ha' _ _ Ho. rewrite mem_of_set. split_and!; [done|by exists m'|by rewrite Ho|by rewrite Ho]. }
  intros [] s1 Hw. apply wp_bind. eapply wp_mono; [exact Hw|]. intros _ s2 (Ha2&(m'&->)&W30&W31).
  unfold _map_slot_set_slot, assert_slot_or_null. change (1 =? _MAP_NULL) with false. cbv iota.
  wp_step. apply wp_assert_slot; [done|lia|]. wp_step. apply wp_assert_slot; [done|lia|].
  wp_step. apply wp_slot_idx; [done|lia|]. change (256 + 0 * 2) with 256.
  wp_step. apply wp_map_set; [done|unfold in_map; lia|unfold is_u64; lia|]. rewrite mem_of_set in *. intros m3 Ha3 Hw3 Ho3.
  rewrite set_mem_set. wp_step. apply wp_slot_idx; [by rewrite mem_of_set|lia|].
  change ((256 + 0 * 2)%Z + 1)%u64 with 257.
  apply wp_map_set; [by rewrite mem_of_set|unfold in_map; lia|unfold is_u64; lia|]. rewrite mem_of_set. intros m4 Ha4 Hw4 Ho4.
  rewrite set_mem_set. apply HQ; [done|]. split_and!; [by rewrite Ho4, Ho3|by rewrite Ho4, Ho3|done].
Qed.

Lemma enqueue_third (s : S) : heap_at (mem_of s) h p sz → stale_tail (mem_of s) → _map_slots_enqueue h 2 s = Assert.
Proof.
  intros Ha (E1&E2&E4). unfold _map_slots_enqueue, assert_word. change _map_slots_idx with 30. change ((30 + 1)%u64) with 31.
  apply (assert_after _ _ (λ _ s', s' = s)); [apply wp_assert_slot; [done|lia|done]|]. intros _ ? ->.
  apply (assert_after _ _ (λ v s', v = 0 ∧ s' = s)); [apply wp_map_get; [done|unfold in_map; lia|done]|]. intros _ ? [-> ->].
  change (0 =? _MAP_NULL) with false. cbv iota.
  apply (assert_after _ _ (λ _ s', s' = s)).
  { wp_step. apply wp_map_get; [done|unfold in_map; lia|]. rewrite E2. by wp_step. }
  intros _ ? ->. apply (assert_after _ _ (λ v s', v = 0 ∧ s' = s)); [apply wp_map_get; [done|unfold in_map; lia|done]|]. intros _ ? [-> ->].
  apply (assert_after _ _ (λ _ s', s' = s)); [apply wp_assert_slot; [done|lia|done]|]. intros _ ? ->.
  apply (assert_after _ _ (λ v s', v = 1 ∧ s' = s)); [apply wp_get_next; [done|lia|done]|]. intros _ ? [-> ->]. done.
Qed.
End words.

(* ===================================================================== *)
(** ** No heap is ever made *)

Section bootstrap.
Context {S : Type} `{HasMemory S}.
Context {h p sz : Z}.

Lemma heap_at_other m off v : heap_at m h p sz → 0 <= off <= 8 → heap_at (store 8 (h + off) v m) h p sz.
Proof.
  intros Ha Ho. destruct (ha_low _ _ _ _ Ha), (ha_high _ _ _ _ Ha).
  split; [| |by apply Ha|by apply Ha]; unfold load64; rewrite load_store_ne by (unfold OFF_map, OFF_map_size; lia); apply Ha.
Qed.

(** Enqueueing all slots fails at the third one. *)
Lemma enqueue_slots_fails fuel (s : S) : heap_at (mem_of s) h p sz → no_slots (p := p) (mem_of s) → (3 <= fuel)%nat →
  enqueue_slots fuel h s = Assert.
Proof.
  intros Ha Hno Hf. destruct fuel as [|[|[|fuel]]]; [lia..|]. unfold enqueue_slots. pose proof (slot_max_large _ Ha) as Hmax.
  assert (∀ slot (s' : S) (Q : (Z + unit) → S → Prop), heap_at (mem_of s') h p sz → 0 <= slot < slot_max sz →
    wp (_map_slots_enqueue h slot) (λ _ s2, Q (inl (slot + 1)%u64) s2) s' →
    wp (max ← _map_slot_max h; if slot <? max then _map_slots_enqueue h slot ;; mret (inl (slot + 1)%u64) else mret (inr ())) Q s')
    as Hround.
  { intros slot s' Q Ha' Hs HQ. wp_step. eapply wp_slot_max; [eassumption|]. rewrite (proj2 (Z.ltb_lt _ _)) by lia.
    wp_step. eapply wp_mono; [exact HQ|]. intros [] s2 HQ2. by apply wp_ret. }
  cbn [loop]. eapply (assert_after _ _ (λ r s', r = inl 1 ∧ heap_at (mem_of s') h p sz ∧ one_slot (p := p) (mem_of s'))).
  { apply Hround; [done|lia|]. eapply wp_enqueue_first; [eassumption|eassumption|]. intros m1 Ha1 H1. by rewrite mem_of_set. }
  intros r s1 (->&Ha1&H1). eapply (assert_after _ _ (λ r s', r = inl 2 ∧ heap_at (mem_of s') h p sz ∧ stale_tail (p := p) (mem_of s'))).
  { apply Hround; [done|lia|]. eapply wp_enqueue_second; [eassumption|eassumption|]. intros m2 Ha2 H2. by rewrite mem_of_set. }
  intros r s2 (->&Ha2&H2). apply bind_assert. eapply (assert_after _ _ (λ max s', max = slot_max sz ∧ s' = s2)).
  { eapply wp_slot_max; [eassumption|]. done. }
  intros max ? [-> ->]. rewrite (proj2 (Z.ltb_lt _ _)) by lia. by eapply bind_assert, enqueue_third.
Qed.

Lemma map_init_fails fuel heap_add heap_size (s : S) : heap_at (mem_of s) h p sz → sz mod 4096 = 0 → (3 <= fuel)%nat →
  _map_init fuel h heap_add heap_size s = Assert.
Proof.
  intros Ha Hsz Hf. destruct (ha_low _ _ _ _ Ha), (ha_high _ _ _ _ Ha). unfold _map_init.
  eapply (assert_after _ _ (λ v s', v = p ∧ s' = s)).
  { eapply wp_field; [done|lia|done|apply (ha_map _ _ _ _ Ha)|done]. }
  intros _ ? [-> ->]. apply guard_assert. intros _. eapply (assert_after _ _ (λ v s', v = sz ∧ s' = s)).
  { eapply wp_field; [done|lia|done|apply (ha_size _ _ _ _ Ha)|done]. }
  intros _ ? [-> ->]. do 4 (apply guard_assert; intros _). unfold _map_max_heap.
  destruct ((sz mod 4096 =? 0) && (((sz - _map_header_len)%u64 mod 16 =? 0))) eqn:Hb; cycle 1.
  { apply bind_assert. rewrite assert_then. destruct (sz mod 4096 =? 0); [|done]. cbn [andb] in Hb. by rewrite assert_then, Hb. }
  bsimp. eapply (assert_after _ _ (λ _ s', s' = s)).
  { wp_step. wp_step; [bsimp; lia|]. wp_step. wp_step; [bsimp; lia|]. by apply wp_ret. }
  intros max ? ->. apply guard_assert. intros _.
  eapply (assert_after _ _ (λ _ s', heap_at (mem_of s') h p sz)).
  { apply wp_write. rewrite mem_of_set. unfold uadd. rewrite u64_small by (unfold OFF_add_0; lia).
    by apply heap_at_other. }
  intros _ s1 Ha1. eapply (assert_after _ _ (λ _ s', heap_at (mem_of s') h p sz)).
  { apply wp_write. rewrite mem_of_set. unfold uadd at 1. rewrite u64_small by (unfold OFF_add_z; lia).
    by apply heap_at_other. }
  intros _ s2 Ha2. eapply (assert_after _ _ (λ _ s', heap_at (mem_of s') h p sz)).
  { apply (wp_for_n (λ _ s', heap_at (mem_of s') h p sz)); [done| |done]. intros i s' Hi Ha'. change (0 + Z.of_nat (Z.to_nat _CLASS_MAX)) with 15 in Hi.
    assert (∀ (s' : S) (Q : Z → S → Prop), Q (i * 2) s' → wp (_map_list_idx i) Q s') as Hidx.
    { intros s3 Q HQ. unfold _map_list_idx. wp_step. wp_step; [unfold _CLASS_MAX; bsimp; lia|]. wp_step.
      unfold umul. by rewrite u64_small by lia. }
    wp_step. apply Hidx. wp_step. eapply wp_map_set; [eassumption|unfold in_map; lia|unfold is_u64, _MAP_NULL; lia|].
    intros m3 Ha3 _ _. wp_step. apply Hidx. unfold uadd. rewrite u64_small by lia.
    eapply wp_map_set; [rewrite mem_of_set; eassumption|unfold in_map; lia|unfold is_u64, _MAP_NULL; lia|]. intros m4 Ha4 _ _.
    by rewrite mem_of_set. }
  intros _ s3 Ha3. change _map_slots_idx with 30. change ((30 + 1)%u64) with 31.
  eapply (assert_after _ _ (λ _ s', heap_at (mem_of s') h p sz ∧ word (mem_of s') p 30 = _MAP_NULL)).
  { eapply wp_map_set; [eassumption|unfold in_map; lia|unfold is_u64, _MAP_NULL; lia|]. intros m4 Ha4 Hw _. by rewrite mem_of_set. }
  intros _ s4 [Ha4 W4]. eapply (assert_after _ _ (λ _ s', heap_at (mem_of s') h p sz ∧ no_slots (p := p) (mem_of s'))).
  { eapply wp_map_set; [eassumption|unfold in_map; lia|unfold is_u64, _MAP_NULL; lia|]. intros m5 Ha5 Hw Ho. rewrite mem_of_set.
    split; [done|]. split; [by rewrite Ho|done]. }
  intros _ s5 [Ha5 Hno]. by apply bind_assert, enqueue_slots_fails.
Qed.
End bootstrap.

Section promise.
Context `{HeapLink}.

(** C40: the boot memory manager's heap cannot be made: [mem_heap_new_bootstrap]
    answers NULL for an area that does not start or end at a page, and for
    every other one it stops with a failed assertion, whatever the area: the
    third slot put in the queue of free slots finds a tail that is not the
    last one. *)
Theorem mem_heap_new_bootstrap_fails (fuel : nat) (heap_add heap_size : Z) (w : world mem_state) (Hfuel : (3 <= fuel)%nat)
    (Hstage : boot_stage (w_st w) < MEM_BOOTSTRAP_STAGE_FINISH) (Hlow : 0 <= _bootstrap_buff)
    (Hhigh : _bootstrap_buff + _BOOTSTRAP_BUFF_SIZE < 18446744073709551616) :
  mem_heap_new_bootstrap fuel heap_add heap_size w =
    (if mem_align_check heap_add 4096 && (heap_size mod 4096 =? 0) then Assert else Done (0, w)).
Proof.
  unfold mem_heap_new_bootstrap, _BOOTSTRAP_BUFF_SIZE in *. rewrite (bind_done _ _ w (boot_stage (w_st w)) w) by done.
  rewrite assert_then, (proj2 (Z.ltb_lt _ _) Hstage), assert_then. change (32 <? 4096) with true. cbv iota.
  destruct (mem_align_check heap_add 4096); [|done]. destruct (heap_size mod 4096 =? 0); [|done]. cbn [negb andb].
  set (h := _bootstrap_buff) in *. unfold uadd. rewrite !u64_small by (unfold OFF_map, OFF_map_size; lia).
  eapply (assert_after _ _ (λ _ w', w' = set_mem (store 8 (h + OFF_map) (h + 4096) (w_mem w)) w)); [by apply wp_write|].
  intros _ ? ->. eapply (assert_after _ _ (λ _ w', heap_at (w_mem w') h (h + 4096) 61440)).
  { apply wp_write. cbn [mem_of world_has_memory set_mem w_mem]. split.
    - unfold load64. rewrite load_store_ne by (unfold OFF_map, OFF_map_size; lia). apply (load64_store64_eq _ _ (h + 4096)).
      unfold is_u64. lia.
    - apply (load64_store64_eq _ _ 61440). unfold is_u64. lia.
    - lia.
    - lia. }
  intros _ w' Ha. by apply bind_assert, (map_init_fails (p := h + 4096) (sz := 61440)).
Qed.
End promise.

#[export] Instance sample_heap_link : HeapLink := {| _bootstrap_buff := 0x200000 |}.

Definition stage_1_world : world mem_state :=
  World ∅ (MemState 1 [] 0 0 0 0 0 0 0 0 0 pcie_initial (Vesa 0 0 0 0)).

Lemma mem_heap_new_bootstrap_fails_witness :
  mem_heap_new_bootstrap 3 0x400000 0x100000 stage_1_world = Assert ∧
  mem_heap_new_bootstrap 3 0x400001 0x100000 stage_1_world = Done (0, stage_1_world).
Proof.
  split.
  - refine (mem_heap_new_bootstrap_fails 3 0x400000 0x100000 stage_1_world _ _ _ _); cbn; unfold MEM_BOOTSTRAP_STAGE_FINISH, _BOOTSTRAP_BUFF_SIZE; lia.
  - refine (mem_heap_new_bootstrap_fails 3 0x400001 0x100000 stage_1_world _ _ _ _); cbn; unfold MEM_BOOTSTRAP_STAGE_FINISH, _BOOTSTRAP_BUFF_SIZE; lia.
Defined.
