(* ===== verification/MemSections.v ===== *)
(** The physical memory that the boot information describes: theorems on
    [_bootstrap_mmap_info], [_bootstrap_kernel_elf_symbols] and
    [mem_pa_range_valid] of MemFrame.v.

    The recorded sections are the available entries of the memory map, and
    exactly the maps whose available entries are aligned, ordered, apart and
    at most 32 are accepted. *)
From S2P Require Import Prelude Memory Util MmCore MemFrame.

(** An entry of the memory map. *)
Record mmap_ent := MmapEnt {
  me_base : Z;
  me_len : Z;
  me_type : Z;
}.

(** Entry [i] of the map whose entries start at [a]. *)
Definition mmap_ent_at (m : memory) (a i : Z) : mmap_ent :=
  MmapEnt (load 8 m (a + 24 * i)) (load 8 m (a + 24 * i + 8)) (load 4 m (a + 24 * i + 16)).

Definition mmap_ents (m : memory) (a : Z) (i : Z) (n : nat) : list mmap_ent :=
  mmap_ent_at m a <$> seqZ i (Z.of_nat n).

(** The available memory among entries: type 1. *)
Definition available (es : list mmap_ent) : list section_t :=
  (λ e, Section_t (me_base e) (me_len e)) <$> filter (λ e, me_type e = 1) es.

(** The end of a section, in the 64-bit arithmetic of the code. *)
Definition sec_end (s : section_t) : Z := (sec_base s + sec_len s)%u64.

(** Sections that the code accepts. *)
Record sections_ok (l : list section_t) : Prop := {
  so_count : Z.of_nat (length l) <= _SECTION_CAP;
  so_aligned : Forall (λ s, sec_base s `mod` PAGE_SIZE_4K = 0) l;
  so_ordered : ∀ i a b, l !! i = Some a → l !! S i = Some b → sec_end a < sec_base b;
}.

(** The test on one more section. *)
Definition section_fits (l : list section_t) (s : section_t) : bool :=
  (Z.of_nat (length l) <? _SECTION_CAP) && mem_align_check (sec_base s) PAGE_SIZE_4K &&
  match list.last l with Some p => sec_end p <? sec_base s | None => true end.

Fixpoint fit_all (l rest : list section_t) : bool :=
  match rest with
  | [] => true
  | s :: rest => section_fits l s && fit_all (l ++ [s]) rest
  end.

Lemma section_fits_ok l s : sections_ok l → section_fits l s = true ↔ sections_ok (l ++ [s]).
Proof.
  intros [Hc Ha Ho]. unfold section_fits, mem_align_check, ueqb, umod. split.
  - intros Hf. bsimp. split.
    + rewrite length_app. simpl. lia.
    + apply Forall_app. split; [done|]. by apply Forall_singleton.
    + intros i a b Hia Hib. destruct (decide (S i < length l)%nat) as [Hlt|Hge].
      * rewrite lookup_app_l in Hia, Hib by lia. by apply (Ho i).
      * rewrite lookup_app_r in Hib by lia. apply list_lookup_singleton_Some in Hib as [Hi <-].
        rewrite lookup_app_l in Hia by lia. rewrite list.last_lookup in *.
        replace (Nat.pred (length l)) with i in * by lia. rewrite Hia in *. by bsimp.
  - intros [Hc' Ha' Ho']. rewrite length_app in Hc'. simpl in Hc'. apply Forall_app in Ha' as [_ Ha'].
    rewrite Forall_singleton in Ha'. bsimp; [lia|done|].
    destruct (list.last l) as [p|] eqn:Hl; [|done]. rewrite list.last_lookup in Hl.
    pose proof (lookup_lt_Some _ _ _ Hl) as Hlt. bsimp. apply (Ho' (Nat.pred (length l)) p s).
    + by apply lookup_app_l_Some.
    + by replace (S (Nat.pred (length l))) with (length l) by lia; rewrite list_lookup_middle.
Qed.

Lemma sections_ok_prefix l k : sections_ok (l ++ k) → sections_ok l.
Proof.
  intros [Hc Ha Ho]. rewrite length_app in Hc. apply Forall_app in Ha as [Ha _]. split; [lia|done|].
  intros i a b H1 H2. apply (Ho i); by apply lookup_app_l_Some.
Qed.

Lemma fit_all_ok l rest : sections_ok l → fit_all l rest = true ↔ sections_ok (l ++ rest).
Proof.
  revert l. induction rest as [|s rest IH]; intros l Hl; [by rewrite app_nil_r|]. simpl.
  rewrite andb_true_iff. rewrite (section_fits_ok l s Hl). replace (l ++ s :: rest) with ((l ++ [s]) ++ rest)
    by (by rewrite <-app_assoc). split.
  - intros [H1 H2]. by apply IH.
  - intros Hok. pose proof (sections_ok_prefix _ _ Hok) as H1. split; [done|]. by apply IH.
Qed.

Lemma sections_ok_nil : sections_ok [].
Proof. split; [done|done|]. by intros i. Qed.

(* ===================================================================== *)
(** ** The memory map *)

Section mmap.
Context `{Link}.

(** The state with the sections [l] at the front of the array. *)
Definition with_sections (l : list section_t) (old : list section_t) (s : mem_state) : mem_state :=
  set_sections (l ++ drop (length l) old) (Z.of_nat (length l)) (u64 (foldr (λ x t, sec_len x + t) 0 l)) s.

Definition total_len (l : list section_t) : Z := foldr (λ x t, sec_len x + t) 0 l.

Lemma total_len_app l k : total_len (l ++ k) = total_len l + total_len k.
Proof. unfold total_len. induction l as [|x l IH]; simpl; [done|]. rewrite IH. lia. Qed.

Lemma mmap_entry_run m s a i l old :
  0 <= a + 24 * i → a + 24 * i + 24 <= 18446744073709551616 → length old = 32%nat → (length l <= 32)%nat →
  mmap_entry (a + 24 * i) (World m (with_sections l old s)) =
    let e := mmap_ent_at m a i in
    let sec := Section_t (me_base e) (me_len e) in
    if decide (me_type e = 1) then
      if section_fits l sec then Done ((), World m (with_sections (l ++ [sec]) old s)) else Assert
    else Done ((), World m (with_sections l old s)).
Proof.
  intros Ha0 Ha1 Hold Hl. cbv zeta. unfold mmap_entry. u64_unfold.
  rewrite (u64_small (a + 24 * i + 8)), (u64_small (a + 24 * i + 16)) by lia.
  rewrite !read_then. cbn [mem_of world_has_memory w_mem].
  fold (mmap_ent_at m a i). set (e := mmap_ent_at m a i).
  change (load 4 m (a + 24 * i + 16)) with (me_type e). change (load 8 m (a + 24 * i)) with (me_base e).
  change (load 8 m (a + 24 * i + 8)) with (me_len e).
  destruct (decide (me_type e = 1)) as [Hty|Hty]; [rewrite Hty|by rewrite (proj2 (Z.eqb_neq _ _) Hty)].
  cbn [Z.eqb Pos.eqb negb].
  rewrite (bind_done _ _ _ _ _ (eq_refl : static _sec_cnt (World m (with_sections l old s)) = _)), assert_then.
  cbn [with_sections set_sections _sec_cnt w_st]. unfold section_fits. cbn [sec_base].
  destruct (Z.ltb_spec (Z.of_nat (length l)) _SECTION_CAP) as [Hc|Hc]; [|done]. unfold _SECTION_CAP in Hc. cbn [andb].
  rewrite (bind_done _ _ _ _ _ (eq_refl : static _sections (World m (with_sections l old s)) = _)).
  cbn [with_sections set_sections _sections w_st].
  set (sec := Section_t (me_base e) (me_len e)). set (secs := <[length l := sec]> (l ++ drop (length l) old)).
  assert (∀ w : world mem_state, array_set (l ++ drop (length l) old) (Z.of_nat (length l)) sec w = Done (secs, w)) as Hset.
  { intros w. unfold array_set. rewrite bool_decide_true by (rewrite length_app, length_drop; lia). by rewrite Nat2Z.id. }
  rewrite (bind_done _ _ _ _ _ (Hset _)).
  assert (secs = (l ++ [sec]) ++ drop (length (l ++ [sec])) old) as Hsecs.
  { unfold secs. rewrite insert_app_r_alt, Nat.sub_diag by lia. rewrite length_app. simpl.
    destruct (lookup_lt_is_Some_2 old (length l) ltac:(lia)) as [o Ho]. rewrite (drop_S _ _ _ Ho).
    cbn [list_insert insert]. rewrite <-app_assoc. simpl. by replace (S (length l)) with (length l + 1)%nat by lia. }
  set (w1 := World m (set_sections secs (Z.of_nat (length l)) (u64 (total_len l)) s)).
  rewrite (bind_done _ _ _ () w1) by done. rewrite assert_then.
  destruct (mem_align_check (me_base e) PAGE_SIZE_4K); [|done]. cbn [andb].
  assert ((if 0 <? Z.of_nat (length l) then
      last ← array_get secs (Z.of_nat (length l) - 1);
      kernel_assert (u64 (sec_base last + sec_len last) <? me_base e) else mret ()) w1 =
    if match list.last l with Some p => sec_end p <? me_base e | None => true end then Done ((), w1) else Assert) as Hlast.
  { rewrite list.last_lookup. destruct l as [|x l'] eqn:El; [done|]. rewrite <-El in *.
    assert (0 < length l)%nat as Hpos by (subst l; simpl; lia).
    rewrite (proj2 (Z.ltb_lt _ _)) by lia.
    destruct (lookup_lt_is_Some_2 l (Nat.pred (length l)) ltac:(lia)) as [p Hp]. rewrite Hp.
    assert (array_get (S := world mem_state) secs (Z.of_nat (length l) - 1) w1 = Done (p, w1)) as Hget.
    { unfold array_get. rewrite (proj2 (Z.leb_le _ _)) by lia. rewrite Hsecs.
      replace (Z.to_nat (Z.of_nat (length l) - 1)) with (Nat.pred (length l)) by lia.
      rewrite lookup_app_l by (rewrite length_app; lia). by rewrite lookup_app_l, Hp by lia. }
    rewrite (bind_done _ _ _ _ _ Hget). by unfold kernel_assert. }
  destruct (match list.last l with Some p => _ | None => true end).
  - rewrite (bind_done _ _ _ _ _ Hlast). unfold static_set, modify. cbn [w_mem w_st w1].
    do 3 f_equal. unfold with_sections, set_sections. cbn. rewrite Hsecs. f_equal.
    + rewrite length_app. simpl. rewrite u64_small; lia.
    + fold (total_len l) (total_len (l ++ [sec])). rewrite total_len_app. cbn. unfold u64.
      by rewrite Z.add_mod_idemp_l, Z.add_0_r by lia.
  - by rewrite (bind_assert _ _ _ Hlast).
Qed.

Lemma mmap_ents_succ m a i n : mmap_ents m a i (S n) = mmap_ent_at m a i :: mmap_ents m a (i + 1) n.
Proof. unfold mmap_ents. rewrite seqZ_cons by lia. cbn. do 2 f_equal. f_equal; lia. Qed.

Lemma mmap_loop_run m s a n i l old :
  0 <= a → 0 <= i → a + 24 * (i + Z.of_nat n) <= 18446744073709551616 → length old = 32%nat → sections_ok l →
  for_n n i (λ en, mmap_entry (a + 24 * en)%u64) (World m (with_sections l old s)) =
    if fit_all l (available (mmap_ents m a i n))
    then Done ((), World m (with_sections (l ++ available (mmap_ents m a i n)) old s)) else Assert.
Proof.
  intros Ha Hi Hend Hold. revert i l Hi Hend. induction n as [|n IH]; intros i l Hi Hend Hok.
  - cbn. by rewrite app_nil_r.
  - cbn [for_n]. assert ((a + 24 * i)%u64 = a + 24 * i) as ->.
    { u64_unfold. rewrite (u64_small (24 * i)), u64_small by lia. done. }
    pose proof (mmap_entry_run m s a i l old ltac:(lia) ltac:(lia) Hold) as Hrun.
    destruct Hok as [Hc Hal Hor] eqn:Eok. clear Eok. specialize (Hrun ltac:(unfold _SECTION_CAP in *; lia)). cbv zeta in Hrun.
    rewrite mmap_ents_succ. unfold available at 1 2. rewrite list.filter_cons. fold (mmap_ent_at m a i).
    destruct (decide (me_type (mmap_ent_at m a i) = 1)) as [Hty|Hty].
    + cbn [fmap list_fmap fit_all]. fold (available (mmap_ents m a (i + 1) n)).
      set (sec := Section_t _ _) in *.
      destruct (section_fits l sec) eqn:Hf; [|by rewrite (bind_assert _ _ _ Hrun)].
      rewrite (bind_done _ _ _ _ _ Hrun). cbn [andb].
      rewrite IH; [by rewrite <-app_assoc|lia|lia|]. by apply section_fits_ok.
    + rewrite (bind_done _ _ _ _ _ Hrun). by apply IH; [lia|lia|].
Qed.

(** The whole of [_bootstrap_mmap_info] on a map of [n] entries. *)
Definition mmap_format_ok (m : memory) (ptr : Z) (s : mem_state) : bool :=
  (boot_stage s =? MEM_BOOTSTRAP_STAGE_0) && (load 4 m (ptr + 4) =? 0) && (load 4 m ptr =? 24).

Lemma mmap_info_run ptr n (w : world mem_state) :
  0 <= ptr → ptr + 8 + 24 * Z.of_nat n < 18446744073709551616 → length (_sections (w_st w)) = 32%nat →
  let avail := available (mmap_ents (w_mem w) (ptr + 8) 0 n) in
  _bootstrap_mmap_info ptr (8 + 24 * Z.of_nat n) w =
    if mmap_format_ok (w_mem w) ptr (w_st w) then
      if fit_all [] avail then Done ((), World (w_mem w) (with_sections avail (_sections (w_st w)) (w_st w))) else Assert
    else Assert.
Proof.
  intros Hp0 Hp1 Harr avail. set (m := w_mem w) in *. unfold _bootstrap_mmap_info, mmap_format_ok.
  rewrite (bind_done _ _ _ _ _ (eq_refl : static boot_stage w = _)), assert_then.
  change MEM_BOOTSTRAP_STAGE_0 with 0. destruct (boot_stage (w_st w) =? 0); [|done].
  assert ((ptr + 4)%u64 = ptr + 4) as -> by (unfold uadd; rewrite u64_small; lia).
  rewrite !read_then, !assert_then. cbn [mem_of world_has_memory]. fold m. cbn [andb].
  destruct (load 4 m (ptr + 4) =? 0); [|done]. cbn [andb].
  destruct (Z.eqb_spec (load 4 m ptr) 24) as [->|]; [|done]. u64_unfold.
  replace (8 + 24 * Z.of_nat n - 8) with (Z.of_nat n * 24) by lia.
  rewrite (u64_small (Z.of_nat n * 24)), Z.mod_mul, Z.div_mul, Nat2Z.id by lia. cbn [Z.eqb].
  rewrite (u64_small (ptr + 8)) by lia.
  rewrite (bind_done _ _ w () (World m (with_sections [] (_sections (w_st w)) (w_st w)))) by done.
  exact (mmap_loop_run m (w_st w) (ptr + 8) n 0 [] (_sections (w_st w)) ltac:(lia) ltac:(lia) ltac:(lia) Harr sections_ok_nil).
Qed.

(** C19: the physical memory is read from the boot information.  In the first
    stage, on a map in the expected format with [n] entries,
    [_bootstrap_mmap_info] records exactly the available entries, in order,
    with their number and their total size, when they are page aligned, at
    most 32, and each begins after the end of the one before; otherwise it
    fails an assertion, as it does for another format or stage. *)
Theorem mmap_info_ok (ptr size : Z) (n : nat) (w : world mem_state)
    (Hptr : 0 <= ptr ∧ ptr + 8 + 24 * Z.of_nat n < 18446744073709551616)
    (Hsize : size = 8 + 24 * Z.of_nat n) (Harr : length (_sections (w_st w)) = 32%nat) :
  let m := w_mem w in
  let avail := available (mmap_ents m (ptr + 8) 0 n) in
  let format_ok := boot_stage (w_st w) = MEM_BOOTSTRAP_STAGE_0 ∧ load 4 m ptr = 24 ∧ load 4 m (ptr + 4) = 0 in
  (format_ok → sections_ok avail → ∃ secs,
    _bootstrap_mmap_info ptr size w =
      Done ((), World m (set_sections secs (Z.of_nat (length avail)) (u64 (total_len avail)) (w_st w))) ∧
    take (length avail) secs = avail ∧ length secs = 32%nat) ∧
  (¬ (format_ok ∧ sections_ok avail) → _bootstrap_mmap_info ptr size w = Assert).
Proof.
  intros m avail format_ok. subst size. rewrite (mmap_info_run ptr n w (proj1 Hptr) (proj2 Hptr) Harr). fold m avail.
  unfold mmap_format_ok. change MEM_BOOTSTRAP_STAGE_0 with 0 in *.
  pose proof (fit_all_ok [] avail sections_ok_nil) as Hfit. cbn [app] in Hfit. split.
  - intros (H0'&H1'&H2') Hok. rewrite H0', H1', H2', (proj2 Hfit Hok). cbn.
    eexists. split; [done|]. split; [by rewrite take_app_length|].
    destruct Hok as [Hc _ _]. unfold _SECTION_CAP in Hc. rewrite length_app, length_drop. lia.
  - intros Hno. destruct (boot_stage (w_st w) =? 0) eqn:E1; [|done].
    destruct (load 4 m (ptr + 4) =? 0) eqn:E2; [|done]. destruct (load 4 m ptr =? 24) eqn:E3; [|done]. cbn [andb].
    destruct (fit_all [] avail) eqn:E4; [|done]. bsimp. exfalso. apply Hno. split; [done|by apply Hfit].
Qed.

(* --------------------------------------------------------------------- *)
(** ** Valid ranges *)

Lemma any_n_run {S} n lo (test : Z → M S bool) (p : Z → bool) (s : S) :
  (∀ i, lo <= i < lo + Z.of_nat n → test i s = Done (p i, s)) →
  any_n n lo test s = Done (existsb p (seqZ lo (Z.of_nat n)), s).
Proof.
  revert lo. induction n as [|n IH]; intros lo Ht; [done|]. cbn [any_n].
  rewrite (bind_done _ _ _ _ _ (Ht lo ltac:(lia))). rewrite seqZ_cons by lia. cbn [existsb].
  destruct (p lo); [done|]. cbn [orb]. rewrite IH by (intros; apply Ht; lia).
  do 3 f_equal. f_equal; lia.
Qed.

(** The sections in use. *)
Definition sections_of (s : mem_state) : list section_t := take (Z.to_nat (_sec_cnt s)) (_sections s).

(** A range inside one section: the code asks for a byte more. *)
Definition range_in (l : list section_t) (start end_ : Z) : bool :=
  existsb (λ s, (sec_base s <=? start) && (end_ <? sec_end s)) l.

Lemma range_in_iff l start end_ :
  range_in l start end_ = true ↔ ∃ s, s ∈ l ∧ sec_base s <= start ∧ end_ < sec_end s.
Proof.
  unfold range_in. rewrite existsb_exists. split.
  - intros (s&Hs%list_elem_of_In&Ht). bsimp. by exists s.
  - intros (s&Hs&H1&H2). exists s. split; [by apply list_elem_of_In|]. by bsimp.
Qed.

Lemma existsb_index {A} `{Inhabited A} (P : A → bool) (l : list A) :
  existsb (λ i, P (l !!! Z.to_nat i)) (seqZ 0 (Z.of_nat (length l))) = existsb P l.
Proof.
  apply eq_true_iff_eq. rewrite !existsb_exists. split.
  - intros (i&Hi%list_elem_of_In%elem_of_seqZ&Hp). exists (l !!! Z.to_nat i). split; [|done].
    apply list_elem_of_In, (list_elem_of_lookup_2 _ (Z.to_nat i)), list_lookup_lookup_total_lt. lia.
  - intros (x&[k Hk]%list_elem_of_In%list_elem_of_lookup&Hp). exists (Z.of_nat k). split.
    + apply list_elem_of_In, elem_of_seqZ. apply lookup_lt_Some in Hk. lia.
    + rewrite Nat2Z.id. by rewrite (list_lookup_total_correct _ _ _ Hk).
Qed.

Lemma range_valid_run start end_ w : 0 <= _sec_cnt (w_st w) <= Z.of_nat (length (_sections (w_st w))) →
  mem_pa_range_valid start end_ w =
    if 0 <? _sec_cnt (w_st w) then Done (range_in (sections_of (w_st w)) start end_, w) else Assert.
Proof.
  intros Hcnt. unfold mem_pa_range_valid.
  rewrite (bind_done _ _ _ _ _ (eq_refl : static _sec_cnt w = _)), assert_then.
  destruct (Z.ltb_spec 0 (_sec_cnt (w_st w))) as [Hpos|]; [|done].
  rewrite (any_n_run _ _ _ (λ i, let s := sections_of (w_st w) !!! Z.to_nat i in (sec_base s <=? start) && (end_ <? sec_end s))).
  - unfold range_in. rewrite <-(existsb_index _ (sections_of (w_st w))). unfold sections_of. rewrite length_take_le by lia. done.
  - intros i Hi. rewrite (bind_done _ _ _ _ _ (eq_refl : static _sections w = _)).
    destruct (lookup_lt_is_Some_2 (_sections (w_st w)) (Z.to_nat i) ltac:(lia)) as [s Hs].
    assert (array_get (_sections (w_st w)) i w = Done (s, w)) as Hget.
    { unfold array_get. rewrite (proj2 (Z.leb_le _ _)) by lia. by rewrite Hs. }
    rewrite (bind_done _ _ _ _ _ Hget). unfold sections_of. rewrite lookup_total_take, decide_True by lia.
    by rewrite (list_lookup_total_correct _ _ _ Hs).
Qed.

(* --------------------------------------------------------------------- *)
(** ** The kernel image *)

(** The loaded ELF sections among [n] headers of [sz] bytes: type, address, size. *)
Definition elf_loaded (m : memory) (a sz : Z) (n : Z) : list (Z * Z) :=
  (λ i, (load 8 m (a + i * sz + 16), load 8 m (a + i * sz + 32))) <$>
    filter (λ i, load 4 m (a + i * sz + 4) ≠ 0) (seqZ 0 n).

(** The smallest address and the largest end. *)
Definition image_start (l : list (Z * Z)) : Z := foldl (λ x s, Z.min x (fst s)) U64_MAX l.
Definition image_end (l : list (Z * Z)) : Z := foldl (λ x s, Z.max x (u64 (snd s + fst s))) 0 l.

Lemma elf_entry_run m s e : 0 <= e → e + 40 <= 18446744073709551616 →
  elf_entry e (World m s) = Done ((), World m
    (if decide (load 4 m (e + 4) ≠ 0) then
      set_kern (Z.min (_kern_start_pa s) (load 8 m (e + 16)))
        (Z.max (_kern_end_pa s) (u64 (load 8 m (e + 32) + load 8 m (e + 16)))) s
     else s)).
Proof.
  intros He0 He1. unfold elf_entry. u64_unfold.
  rewrite (u64_small (e + 4)), (u64_small (e + 16)), (u64_small (e + 32)) by lia.
  rewrite read_then. cbn [mem_of world_has_memory w_mem].
  destruct (Z.eqb_spec (load 4 m (e + 4)) 0) as [Hz|Hz].
  - by rewrite decide_False by (intros Hn; by apply Hn).
  - rewrite decide_True by done. rewrite !read_then. cbn [mem_of world_has_memory w_mem].
    unfold static_set, modify. cbn [w_mem w_st]. do 3 f_equal. f_equal.
    + destruct (Z.ltb_spec (load 8 m (e + 16)) (_kern_start_pa s)); lia.
    + destruct (Z.ltb_spec (_kern_end_pa s) (u64 (load 8 m (e + 32) + load 8 m (e + 16)))); lia.
Qed.

Lemma elf_loop_run m s a sz n : 0 <= a → 0 <= sz → a + Z.of_nat n * sz + 40 <= 18446744073709551616 →
  for_n n 0 (λ i, elf_entry (a + i * sz)%u64) (World m (set_kern U64_MAX 0 s)) =
    Done ((), World m (set_kern (image_start (elf_loaded m a sz (Z.of_nat n))) (image_end (elf_loaded m a sz (Z.of_nat n))) s)).
Proof.
  intros Ha Hsz Hend.
  assert (wp (for_n n 0 (λ i, elf_entry (a + i * sz)%u64)) (λ _ w, w = World m (set_kern
    (image_start (elf_loaded m a sz (Z.of_nat n))) (image_end (elf_loaded m a sz (Z.of_nat n))) s))
    (World m (set_kern U64_MAX 0 s))) as Hw.
  { apply (wp_for_n (λ i w, w = World m (set_kern (image_start (elf_loaded m a sz i)) (image_end (elf_loaded m a sz i)) s))).
    - done.
    - intros i w Hi ->.
      assert (0 <= i * sz <= Z.of_nat n * sz) as His by nia.
      assert ((a + i * sz)%u64 = a + i * sz) as ->.
      { u64_unfold. rewrite (u64_small (i * sz)), u64_small by lia. done. }
      apply wp_done. do 2 eexists. split; [apply elf_entry_run; lia|].
      unfold elf_loaded. rewrite seqZ_app by lia. rewrite list.filter_app, fmap_app.
      change (seqZ (0 + i) 1) with [0 + i]. rewrite Z.add_0_l, list.filter_cons, list.filter_nil.
      destruct (decide _); cbn [fmap list_fmap app].
      + unfold image_start, image_end. rewrite !foldl_app. done.
      + by rewrite app_nil_r.
    - intros w ->. by rewrite Z.add_0_l. }
  by apply wp_done in Hw as ([]&w&->&->).
Qed.

(** Where the image may be. *)
Definition image_ok (l : list section_t) (start end_ : Z) : Prop :=
  (end_ - start)%u64 < 1024 * 1024 * 1024 ∧ start < text_bootstrap_kernel_elf_symbols < end_ ∧
  range_in l start end_ = true.

(** The whole of [_bootstrap_kernel_elf_symbols]. *)
Lemma kernel_symbols_run (elf len : Z) (w : world mem_state) : boot_stage (w_st w) = MEM_BOOTSTRAP_STAGE_0 →
  0 <= elf → elf + 12 + load 4 (w_mem w) elf * load 4 (w_mem w) (elf + 4) + 40 <= 18446744073709551616 →
  0 < _sec_cnt (w_st w) <= Z.of_nat (length (_sections (w_st w))) →
  let l := elf_loaded (w_mem w) (elf + 12) (load 4 (w_mem w) (elf + 4)) (load 4 (w_mem w) elf) in
  _bootstrap_kernel_elf_symbols elf len w =
    if ((image_end l - image_start l)%u64 <? 1073741824) && (text_bootstrap_kernel_elf_symbols <? image_end l) &&
       (image_start l <? text_bootstrap_kernel_elf_symbols) && range_in (sections_of (w_st w)) (image_start l) (image_end l)
    then Done ((), World (w_mem w) (set_kern (image_start l) (image_end l) (w_st w))) else Assert.
Proof.
  intros Hstage He0 He1 Hcnt l.
  pose proof (load_range 4 (w_mem w) elf) as Hn. pose proof (load_range 4 (w_mem w) (elf + 4)) as Hs.
  set (n := load 4 (w_mem w) elf) in *. set (sz := load 4 (w_mem w) (elf + 4)) in *.
  assert (0 <= n * sz) by nia.
  unfold _bootstrap_kernel_elf_symbols.
  rewrite (bind_done _ _ _ _ _ (eq_refl : static boot_stage w = _)), assert_then, Hstage.
  cbn [Z.eqb MEM_BOOTSTRAP_STAGE_0].
  assert ((elf + 4)%u64 = elf + 4) as -> by (unfold uadd; rewrite u64_small; lia).
  assert ((elf + 12)%u64 = elf + 12) as -> by (unfold uadd; rewrite u64_small; lia).
  rewrite !read_then. cbn [mem_of world_has_memory]. fold n sz.
  rewrite (bind_done _ _ w () (World (w_mem w) (set_kern U64_MAX 0 (w_st w)))) by done.
  pose proof (elf_loop_run (w_mem w) (w_st w) (elf + 12) sz (Z.to_nat n) ltac:(lia) ltac:(lia) ltac:(rewrite Z2Nat.id; lia)) as Hl.
  rewrite Z2Nat.id in Hl by lia. fold l in Hl. rewrite (bind_done _ _ _ _ _ Hl).
  set (w1 := World _ _).
  rewrite (bind_done _ _ _ _ _ (eq_refl : static _kern_start_pa w1 = _)), (bind_done _ _ _ _ _ (eq_refl : static _kern_end_pa w1 = _)).
  rewrite !assert_then. cbn [w1 w_st set_kern _kern_start_pa _kern_end_pa].
  change (1024 * 1024 * 1024) with 1073741824.
  destruct (_ <? 1073741824); [|done]. destruct (_ <? image_end l); [|done]. destruct (image_start l <? _); [|done]. cbn [andb].
  pose proof (range_valid_run (image_start l) (image_end l) w1) as Hr. cbn [w1 w_st set_kern _sec_cnt _sections] in Hr.
  rewrite (bind_done _ _ w1 (range_in (sections_of (w_st w)) (image_start l) (image_end l)) w1).
  - unfold kernel_assert. by destruct (range_in _ _ _).
  - rewrite Hr by lia. by rewrite (proj2 (Z.ltb_lt _ _)) by lia.
Qed.

Lemma kernel_symbols_done (elf len : Z) (w : world mem_state) : boot_stage (w_st w) = MEM_BOOTSTRAP_STAGE_0 →
  0 <= elf → elf + 12 + load 4 (w_mem w) elf * load 4 (w_mem w) (elf + 4) + 40 <= 18446744073709551616 →
  0 < _sec_cnt (w_st w) <= Z.of_nat (length (_sections (w_st w))) →
  let l := elf_loaded (w_mem w) (elf + 12) (load 4 (w_mem w) (elf + 4)) (load 4 (w_mem w) elf) in
  image_ok (sections_of (w_st w)) (image_start l) (image_end l) →
  _bootstrap_kernel_elf_symbols elf len w = Done ((), World (w_mem w) (set_kern (image_start l) (image_end l) (w_st w))).
Proof.
  intros Hstage He0 He1 Hcnt l (H1&(H2&H3)&H4). rewrite kernel_symbols_run by done. fold l.
  rewrite H4, !(proj2 (Z.ltb_lt _ _)) by lia. done.
Qed.

(** C35: the kernel image.  From the ELF section headers of the boot
    information [_bootstrap_kernel_elf_symbols] takes the hull of the loaded
    sections, and accepts it exactly when it is shorter than 1 GB, contains
    the function itself, and lies inside one section of available memory. *)
Theorem kernel_symbols_ok (elf len : Z) (w : world mem_state)
    (Hstage : boot_stage (w_st w) = MEM_BOOTSTRAP_STAGE_0)
    (Helf : 0 <= elf ∧ elf + 12 + load 4 (w_mem w) elf * load 4 (w_mem w) (elf + 4) + 40 <= 18446744073709551616)
    (Hcnt : 0 < _sec_cnt (w_st w) <= Z.of_nat (length (_sections (w_st w)))) :
  let l := elf_loaded (w_mem w) (elf + 12) (load 4 (w_mem w) (elf + 4)) (load 4 (w_mem w) elf) in
  (image_ok (sections_of (w_st w)) (image_start l) (image_end l) →
    _bootstrap_kernel_elf_symbols elf len w = Done ((), World (w_mem w) (set_kern (image_start l) (image_end l) (w_st w)))) ∧
  (¬ image_ok (sections_of (w_st w)) (image_start l) (image_end l) →
    _bootstrap_kernel_elf_symbols elf len w = Assert).
Proof.
  intros l. destruct Helf as [He0 He1]. split; [by apply kernel_symbols_done|].
  rewrite kernel_symbols_run by done. fold l. intros Hno. destruct (_ && _) eqn:E; [|done].
  bsimp. exfalso. apply Hno. split; [lia|]. split; [lia|done].
Qed.

End mmap.

(* ===================================================================== *)
(** ** Sample boot information *)

Definition sample_sections (l : list section_t) (n : Z) : mem_state :=
  MemState MEM_BOOTSTRAP_STAGE_0 (l ++ replicate (32 - length l) (Section_t 0 0)) n 0 0 0 0 0x203000 0 0 0
    Pcie.pcie_initial (Vesa.Vesa 0xfd000000 1024 768 4).

(** Two available ranges and a reserved one between them. *)
Definition sample_mmap : memory :=
  store 4 0x10000 24 (store 8 0x10008 0x1000 (store 8 0x10010 0x9e000 (store 4 0x10018 1
    (store 8 0x10020 0xf0000 (store 8 0x10028 0x10000 (store 4 0x10030 2
    (store 8 0x10038 0x100000 (store 8 0x10040 0x7fee0000 (store 4 0x10048 1 ∅))))))))).

Definition sample_avail : list section_t := [Section_t 0x1000 0x9e000; Section_t 0x100000 0x7fee0000].

Lemma sample_avail_ok : sections_ok sample_avail.
Proof.
  split; [done|by repeat constructor|]. intros [|[|i]] a b Ha Hb; [|done..]. by injection Ha as <-; injection Hb as <-.
Qed.

Lemma mmap_info_ok_witness :
  ∃ secs, _bootstrap_mmap_info 0x10000 80 (World sample_mmap (sample_sections [] 0)) =
    Done ((), World sample_mmap (set_sections secs 2 0x7ff7e000 (sample_sections [] 0))) ∧
    take 2 secs = sample_avail ∧ length secs = 32%nat.
Proof.
  refine (proj1 (mmap_info_ok 0x10000 80 3 (World sample_mmap (sample_sections [] 0)) _ _ _) _ _).
  - done.
  - done.
  - done.
  - split; [done|]. split; by vm_compute.
  - refine sample_avail_ok.
Defined.

(** Two section headers of 64 bytes, the first of them unused. *)
Definition sample_elf : memory :=
  store 4 0x20000 2 (store 4 0x20004 64 (store 4 0x20050 1 (store 8 0x2005c 0x100000 (store 8 0x2006c 0x4400000 ∅)))).

Lemma kernel_symbols_ok_witness :
  @_bootstrap_kernel_elf_symbols sample_link 0x20000 140 (World sample_elf (sample_sections sample_avail 2)) =
    Done ((), World sample_elf (set_kern 0x100000 0x4500000 (sample_sections sample_avail 2))).
Proof.
  refine (proj1 (@kernel_symbols_ok sample_link 0x20000 140 (World sample_elf (sample_sections sample_avail 2)) _ _ _) _).
  - done.
  - by vm_compute.
  - done.
  - split; [by vm_compute|]. split; by vm_compute.
Defined.
