(* ===== verification/MemFrameMap.v ===== *)
(** The second stage of src/mem/mem_frame.c: [mem_frame_bootstrap_2] checks that
    the memory to be managed is clear of the devices and places the map of the
    frames in the first section of more than 8 MB. *)
From S2P Require Import Prelude Memory Util MmCore Vesa Pcie.
From S2P Require Import MemFrame MemSections.

(** The sections that are managed. *)
Definition big (l : list section_t) : list section_t := filter (λ s, SMALL_SECTION < sec_len s) l.

#[export] Instance d_pcie_group_inhabited : Inhabited d_pcie_group := populate (PcieGroup 0 0 0 0 0).

(** The groups whose configuration space the PCI express driver knows. *)
Definition known_groups (p : pcie) : list d_pcie_group := take (Z.to_nat (_gropp_cnt p)) (_groups p).

Definition off_pcie_code (p : pcie) (sec : section_t) : bool :=
  negb (existsb (λ g, pa_range_overlaps (sec_base sec) (sec_len sec) (cfg_space_base_pa g) d_pcie_group_get_cfg_len)
    (known_groups p)).
Definition off_vesa_code (v : vesa) (sec : section_t) : bool :=
  negb (pa_range_overlaps (sec_base sec) (sec_len sec) (_buf v) (_width v * _height v * _depth v)%u64).
Definition clear_code (s : mem_state) (sec : section_t) : bool :=
  off_pcie_code (st_pcie s) sec && off_vesa_code (st_vesa s) sec.

(** The addresses that belong to devices, as start and length: 256 MB of
    configuration space for each known group, and the frame buffer. *)
Definition device_ranges (p : pcie) (v : vesa) : list (Z * Z) :=
  ((λ g, (cfg_space_base_pa g, 268435456)) <$> known_groups p) ++ [(_buf v, _width v * _height v * _depth v)].

(** At least one byte lies between two ranges. *)
Definition gap_between (a la b lb : Z) : Prop := a + la < b ∨ b + lb < a.

#[export] Instance gap_between_dec a la b lb : Decision (gap_between a la b lb) := _.

Definition clear_of_devices (p : pcie) (v : vesa) (sec : section_t) : Prop :=
  Forall (λ d, gap_between (sec_base sec) (sec_len sec) d.1 d.2) (device_ranges p v).

(** No device reaches beyond the address space. *)
Definition devices_sane (p : pcie) (v : vesa) : Prop :=
  Forall (λ d, 0 <= d.1 ∧ 0 <= d.2 ∧ d.1 + d.2 < 18446744073709551616) (device_ranges p v).

(** The pages of the map: 8 bytes for each of twice the frames, and two more. *)
Definition map_pages (total : Z) : Z := total / 4096 * 2 * 8 / 4096 + 2.

(** Where the map is placed among the managed sections, and whether it fits. *)
Definition map_place (l : list section_t) : Z :=
  match l with sec :: _ => sec_base sec + 4096 | [] => NULL end.
Definition map_fits (n : Z) (l : list section_t) : bool :=
  match l with sec :: _ => sec_base sec + 4096 + n * 4096 <? sec_base sec + sec_len sec | [] => true end.

Record section_sane (s : section_t) : Prop := {
  ss_base : 0 <= sec_base s;
  ss_len : 0 <= sec_len s;
  ss_end : sec_base s + sec_len s < 9223372036854775808;
  ss_aligned : (4096 | sec_base s);
}.

(** The variables of the two subsystems agree with their arrays. *)
Record frames_known (s : mem_state) : Prop := {
  fk_sections : 0 <= _sec_cnt s <= Z.of_nat (length (_sections s));
  fk_groups : 0 <= _gropp_cnt (st_pcie s) <= Z.of_nat (length (_groups (st_pcie s)));
  fk_sane : Forall section_sane (sections_of s);
  fk_total : total_len (big (sections_of s)) < 281474976710656;
}.

(** The test of the code is the test for a gap. *)
Lemma overlaps_gap a la b lb : 0 <= a + la < 18446744073709551616 → 0 <= b + lb < 18446744073709551616 →
  negb (pa_range_overlaps a la b lb) = true ↔ gap_between a la b lb.
Proof.
  intros Ha Hb. unfold pa_range_overlaps, gap_between, uadd. rewrite !u64_small by lia.
  rewrite negb_involutive, orb_true_iff, !Z.ltb_lt. done.
Qed.

Lemma clear_code_gap s sec : devices_sane (st_pcie s) (st_vesa s) → section_sane sec →
  clear_code s sec = true ↔ clear_of_devices (st_pcie s) (st_vesa s) sec.
Proof.
  intros [Hg Hv]%list.Forall_app [Hb Hl He _]. apply Forall_singleton in Hv as (Hv1&Hv2&Hv3). cbn [fst snd] in *.
  unfold clear_code, off_pcie_code, off_vesa_code, clear_of_devices, device_ranges.
  rewrite andb_true_iff, Forall_app, Forall_singleton. cbn [fst snd].
  assert ((_width (st_vesa s) * _height (st_vesa s) * _depth (st_vesa s))%u64 =
    _width (st_vesa s) * _height (st_vesa s) * _depth (st_vesa s)) as ->.
  { unfold umul, u64. rewrite Zmult_mod_idemp_l. apply Z.mod_small. lia. }
  rewrite overlaps_gap by lia. apply and_iff_compat_r.
  rewrite negb_true_iff, Forall_fmap, list.Forall_forall. rewrite Forall_fmap, list.Forall_forall in Hg. split.
  - intros Hno g Hin. specialize (Hg g Hin). cbn [compose fst snd] in *. apply overlaps_gap; [lia..|].
    apply negb_true_iff. apply not_true_iff_false. intros Ho. apply not_true_iff_false in Hno. apply Hno, existsb_exists.
    exists g. split; [by apply list_elem_of_In|exact Ho].
  - intros Hall. apply not_true_iff_false. intros (g&Hin%list_elem_of_In&Ho)%existsb_exists.
    specialize (Hg g Hin). specialize (Hall g Hin). cbn [compose fst snd] in *.
    apply overlaps_gap in Hall; [|lia..]. change d_pcie_group_get_cfg_len with 268435456 in Ho. by rewrite Ho in Hall.
Qed.

Lemma big_in l sec : sec ∈ big l → sec ∈ l ∧ SMALL_SECTION < sec_len sec.
Proof. unfold big. rewrite list_elem_of_filter. tauto. Qed.

Lemma clear_all_gap s l : devices_sane (st_pcie s) (st_vesa s) → Forall section_sane l →
  forallb (clear_code s) (big l) = true ↔ Forall (clear_of_devices (st_pcie s) (st_vesa s)) (big l).
Proof.
  intros Hd Hl. rewrite forallb_forall, list.Forall_forall. rewrite list.Forall_forall in Hl.
  split; intros H sec Hin.
  - apply clear_code_gap; [done|by apply Hl, big_in|]. by apply H, list_elem_of_In.
  - apply list_elem_of_In in Hin. apply clear_code_gap; [done|by apply Hl, big_in|]. by apply H.
Qed.

(** A section that shares a byte with a device, or only borders on it. *)
Definition meets (sec : section_t) (d : Z * Z) : Prop :=
  (∃ a, sec_base sec <= a < sec_base sec + sec_len sec ∧ d.1 <= a < d.1 + d.2) ∨
  sec_base sec + sec_len sec = d.1 ∨ d.1 + d.2 = sec_base sec.

Lemma meets_no_gap sec d : 0 <= sec_len sec → 0 <= d.2 → meets sec d →
  ¬ gap_between (sec_base sec) (sec_len sec) d.1 d.2.
Proof. unfold gap_between. intros ?? [(a&?&?)|[?|?]]; lia. Qed.

Section frame_map.
Context `{Link}.

Lemma pcie_query_run {A} (m : M (world pcie) A) (r : A) (w : world mem_state) :
  m (World (w_mem w) (st_pcie (w_st w))) = Done (r, World (w_mem w) (st_pcie (w_st w))) → pcie_call m w = Done (r, w).
Proof. intros Hm. unfold pcie_call, within, zoom. rewrite Hm. by destruct w as [? []]. Qed.

Lemma vesa_query_run {A} (m : M (world vesa) A) (r : A) (w : world mem_state) :
  m (World (w_mem w) (st_vesa (w_st w))) = Done (r, World (w_mem w) (st_vesa (w_st w))) → vesa_call m w = Done (r, w).
Proof. intros Hm. unfold vesa_call, within, zoom. rewrite Hm. by destruct w as [? []]. Qed.

Lemma array_get_run {S A} (l : list A) i x (s : S) : 0 <= i → l !! Z.to_nat i = Some x → array_get l i s = Done (x, s).
Proof. intros Hi Hl. unfold array_get. rewrite (proj2 (Z.leb_le 0 i) Hi). by rewrite Hl. Qed.

Lemma section_clear_run sec (w : world mem_state) : frames_known (w_st w) →
  section_clear sec w = if clear_code (w_st w) sec then Done ((), w) else Assert.
Proof.
  intros [_ [Hg0 Hg1] _ _]. unfold section_clear, clear_code, off_pcie_code, off_vesa_code.
  set (p := st_pcie (w_st w)) in *. set (ov := λ g, pa_range_overlaps (sec_base sec) (sec_len sec) (cfg_space_base_pa g) d_pcie_group_get_cfg_len).
  assert (_pa_overlaps_pcie_cfg_space (sec_base sec) (sec_len sec) w = Done (existsb ov (known_groups p), w)) as Hp.
  { unfold _pa_overlaps_pcie_cfg_space. rewrite (bind_done _ _ w (_gropp_cnt p) w) by (by apply pcie_query_run).
    rewrite (any_n_run _ _ _ (λ i, ov (known_groups p !!! Z.to_nat i))).
    - replace (Z.of_nat (Z.to_nat (_gropp_cnt p))) with (Z.of_nat (length (known_groups p)));
        [by rewrite (existsb_index ov)|]. unfold known_groups. rewrite length_take_le; lia.
    - intros i Hi. destruct (lookup_lt_is_Some_2 (_groups p) (Z.to_nat i) ltac:(lia)) as [g Hg].
      rewrite (bind_done _ _ w (cfg_space_base_pa g) w).
      + unfold known_groups. rewrite lookup_total_take, decide_True by lia. by rewrite (list_lookup_total_correct _ _ _ Hg).
      + apply pcie_query_run. unfold d_pcie_group_get_cfg_pa.
        rewrite (bind_done _ _ _ _ _ (eq_refl : static _gropp_cnt (World (w_mem w) p) = _)), assert_then.
        cbn [w_st]. rewrite (proj2 (Z.ltb_lt _ _)) by lia.
        rewrite (bind_done _ _ _ _ _ (eq_refl : static _groups (World (w_mem w) p) = _)).
        by rewrite (bind_done _ _ _ _ _ (array_get_run (_groups p) i g (World (w_mem w) p) ltac:(lia) Hg)). }
  rewrite (bind_done _ _ _ _ _ Hp), assert_then. destruct (negb (existsb ov (known_groups p))); [|done]. cbn [andb].
  rewrite (bind_done _ _ w (pa_range_overlaps (sec_base sec) (sec_len sec) (_buf (st_vesa (w_st w)))
    (_width (st_vesa (w_st w)) * _height (st_vesa (w_st w)) * _depth (st_vesa (w_st w)))%u64) w); [done|].
  unfold _pa_overlaps_vesa_frame_buffer. rewrite (bind_done _ _ w (_buf (st_vesa (w_st w))) w) by (by apply vesa_query_run).
  by rewrite (bind_done _ _ w _ w) by (by apply vesa_query_run).
Qed.

Lemma loop_round {S X A} (body : X → M S (X + A)) x (s : S) n :
  loop (Datatypes.S n) body x s = match body x s with
    | Done (inl x', s') => loop n body x' s' | Done (inr a, s') => Done (a, s')
    | Assert => Assert | Panic msg => Panic msg | Fault => Fault | Timeout => Timeout end.
Proof. cbn [loop]. unfold mbind, M_bind. by destruct (body x s) as [[[x'|a] s']| | | |]. Qed.

Lemma total_len_cons x l : total_len (x :: l) = sec_len x + total_len l.
Proof. done. Qed.

(** The first loop adds up the lengths of the managed sections. *)
Definition sum_round (cnt : Z) : Z * Z → FM (Z * Z + Z) := λ '(i, pa_len),
  if i <? cnt then
    secs ← static _sections;
    sec ← array_get secs i;
    if SMALL_SECTION <? sec_len sec then
      section_clear sec ;;
      mret (inl (i + 1, (pa_len + sec_len sec)%u64))
    else mret (inl (i + 1, pa_len))
  else mret (inr pa_len).

(** The sections from the [k]th on. *)
Lemma section_at k sec rest (w : world mem_state) : drop k (sections_of (w_st w)) = sec :: rest →
  0 <= _sec_cnt (w_st w) <= Z.of_nat (length (_sections (w_st w))) →
  Z.of_nat k < _sec_cnt (w_st w) ∧ drop (S k) (sections_of (w_st w)) = rest ∧
  ∀ v : world mem_state, array_get (_sections (w_st w)) (Z.of_nat k) v = Done (sec, v).
Proof.
  intros Hd Hc. assert (sections_of (w_st w) !! k = Some sec) as Hk.
  { pose proof (lookup_drop (sections_of (w_st w)) k 0) as E. rewrite Hd, Nat.add_0_r in E. by rewrite <-E. }
  pose proof (lookup_lt_Some _ _ _ Hk) as Hlt. unfold sections_of in Hlt. rewrite length_take in Hlt.
  split; [lia|]. split; [rewrite <-Nat.add_1_r, <-drop_drop, Hd; done|].
  intros v. apply array_get_run; [lia|]. rewrite Nat2Z.id. unfold sections_of in Hk.
  by apply lookup_take_Some in Hk as [Hk _].
Qed.

Lemma sum_loop_run rest k pa (w : world mem_state) : frames_known (w_st w) → drop k (sections_of (w_st w)) = rest →
  (k <= length (sections_of (w_st w)))%nat → Forall section_sane rest →
  0 <= pa → pa + total_len (big rest) < 18446744073709551616 →
  loop (S (length rest)) (sum_round (_sec_cnt (w_st w))) (Z.of_nat k, pa) w =
    if forallb (clear_code (w_st w)) (big rest) then Done (pa + total_len (big rest), w) else Assert.
Proof.
  intros Hfk. pose proof Hfk as [Hc _ _ _]. revert k pa. induction rest as [|sec rest IH]; intros k pa Hd Hk Hsane Hpa Htot.
  - cbn [length loop]. assert (length (sections_of (w_st w)) <= k)%nat as Hge.
    { apply (f_equal length) in Hd. rewrite length_drop in Hd. cbn in Hd. lia. }
    unfold sections_of in Hge. rewrite length_take in Hge. unfold sum_round.
    rewrite (proj2 (Z.ltb_ge _ _)) by lia. cbn. by rewrite Z.add_0_r.
  - destruct (section_at k sec rest w Hd Hc) as (Hlt&Hd'&Hget). apply list.Forall_cons in Hsane as [[_ Hl0 _ _] Hsane].
    assert (S k <= length (sections_of (w_st w)))%nat as Hk'.
    { apply (f_equal length) in Hd. rewrite length_drop in Hd. cbn in Hd. lia. }
    assert (0 <= total_len (big rest)) as Ht0.
    { clear -Hsane. induction Hsane as [|x l [_ Hx _ _] _ IH]; [done|]. unfold big. rewrite list.filter_cons.
      destruct (decide _); [|done]. rewrite total_len_cons. unfold big in IH. lia. }
    rewrite (loop_round (sum_round (_sec_cnt (w_st w))) (Z.of_nat k, pa) w). unfold sum_round at 1.
    rewrite (proj2 (Z.ltb_lt _ _)) by lia.
    rewrite (bind_done _ _ _ _ _ (eq_refl : static _sections w = _)), (bind_done _ _ _ _ _ (Hget w)).
    unfold big in *. rewrite list.filter_cons in *. replace (Z.of_nat k + 1) with (Z.of_nat (S k)) by lia.
    destruct (decide (SMALL_SECTION < sec_len sec)) as [Hb|Hb].
    + rewrite (proj2 (Z.ltb_lt _ _)) by done. cbn [forallb].
      rewrite total_len_cons in *. pose proof (section_clear_run sec w Hfk) as Hr.
      destruct (clear_code (w_st w) sec); [|by rewrite (bind_assert _ _ _ Hr)].
      rewrite (bind_done _ _ _ _ _ Hr). cbn [andb]. unfold uadd. rewrite u64_small by lia.
      unfold mret, M_ret. rewrite IH; [|done|done|done|lia|lia]. by rewrite Z.add_assoc.
    + rewrite (proj2 (Z.ltb_ge _ _)) by lia. by apply IH.
Qed.

(** The second loop, with the map at [mp] ([NULL] when it has no place yet). *)
Definition place_round (map_page_cnt i : Z) : FM unit :=
  secs ← static _sections;
  sec ← array_get secs i;
  if SMALL_SECTION <? sec_len sec then
    section_clear sec ;;
    map ← static _frame_map;
    if map =? NULL then
      map ← mem_align_up (sec_base sec + PAGE_SIZE_4K)%u64 PAGE_SIZE_4K;
      static_set (λ s, set_frame_map map (_frame_map_cap s) s) ;;
      let map_end := (map + map_page_cnt * PAGE_SIZE_4K)%u64 in
      let sec_end := (sec_base sec + sec_len sec)%u64 in
      kernel_assert (map_end <? sec_end)
    else mret ()
  else mret ().

Lemma frames_known_map s mp cap : frames_known s → frames_known (set_frame_map mp cap s).
Proof. by intros [? ? ? ?]. Qed.

Lemma page_up_run p (w : world mem_state) : 0 <= p → p + 4095 < 18446744073709551616 → (4096 | p) →
  mem_align_up p 4096 w = Done (p, w).
Proof.
  intros H0' H1' [q Hq].
  assert (wp (mm_align_up p (2 ^ 12)) (λ r w', r = p ∧ w' = w) w) as (r&w'&Hrun&->&->)%wp_done; [|exact Hrun].
  apply wp_align_up; [lia|unfold is_u64; lia|]. change (2 ^ 12) with 4096. rewrite u64_small by lia. split; [zlia|done].
Qed.

Definition map_ok (n mp : Z) (l : list section_t) : bool :=
  if mp =? NULL then map_fits n l else true.

Lemma place_loop_run n cap rest k mp m s : frames_known s → drop k (sections_of s) = rest → Forall section_sane rest →
  0 <= n < 281474976710656 →
  for_n (length rest) (Z.of_nat k) (place_round n) (World m (set_frame_map mp cap s)) =
    if forallb (clear_code s) (big rest) && map_ok n mp (big rest)
    then Done ((), World m (set_frame_map (if mp =? NULL then map_place (big rest) else mp) cap s)) else Assert.
Proof.
  intros Hfk. pose proof (fk_sections _ Hfk) as Hc. revert k mp. induction rest as [|sec rest IH]; intros k mp Hd Hsane Hn.
  - cbn. unfold map_ok. cbn. destruct (Z.eqb_spec mp NULL) as [->|]; done.
  - set (w := World m (set_frame_map mp cap s)).
    destruct (section_at k sec rest w Hd Hc) as (Hlt&Hd'&Hget). apply list.Forall_cons in Hsane as [[Hb0 Hl0 He Ha] Hsane].
    cbn [length for_n]. replace (Z.of_nat k + 1) with (Z.of_nat (S k)) by lia.
    unfold big in *. rewrite list.filter_cons.
    assert (place_round n (Z.of_nat k) w = if decide (SMALL_SECTION < sec_len sec) then
      if clear_code s sec && map_ok n mp [sec]
      then Done ((), World m (set_frame_map (if mp =? NULL then sec_base sec + 4096 else mp) cap s)) else Assert
      else Done ((), w)) as Hround.
    { unfold place_round. rewrite (bind_done _ _ _ _ _ (eq_refl : static _sections w = _)), (bind_done _ _ _ _ _ (Hget w)).
      destruct (decide (SMALL_SECTION < sec_len sec)) as [Hb|Hb]; [rewrite (proj2 (Z.ltb_lt _ _)) by done|
        by rewrite (proj2 (Z.ltb_ge _ _)) by lia].
      pose proof (section_clear_run sec w (frames_known_map s mp cap Hfk)) as Hr.
      change (clear_code (w_st w) sec) with (clear_code s sec) in Hr.
      destruct (clear_code s sec); [|by rewrite (bind_assert _ _ _ Hr)]. rewrite (bind_done _ _ _ _ _ Hr).
      rewrite (bind_done _ _ _ _ _ (eq_refl : static _frame_map w = _)). unfold map_ok, map_fits. change (_frame_map (w_st w)) with mp. cbn [andb].
      destruct (Z.eqb_spec mp NULL) as [->|]; [|done]. unfold uadd, umul.
      change PAGE_SIZE_4K with 4096. change PAGE_SIZE_VALUE_4K with 4096.
      rewrite !(u64_small (sec_base sec + _)) by lia.
      rewrite (bind_done _ _ _ _ _ (page_up_run (sec_base sec + 4096) w ltac:(lia) ltac:(lia) ltac:(by apply Z.divide_add_r; [|exists 1]))).
      rewrite (u64_small (n * 4096)), u64_small by lia. cbn [static_set modify].
      by destruct (_ <? _). }
    destruct (decide (SMALL_SECTION < sec_len sec)) as [Hb|Hb].
    + cbn [forallb]. destruct (clear_code s sec); cbn [andb] in *; [|by rewrite (bind_assert _ _ _ Hround)].
      unfold map_ok in *. destruct (Z.eqb_spec mp NULL) as [->|Hne].
      * cbn [map_fits map_place] in *. destruct (_ <? _); [|rewrite (bind_assert _ _ _ Hround); by rewrite andb_false_r].
        rewrite (bind_done _ _ _ _ _ Hround), IH by done.
        rewrite (proj2 (Z.eqb_neq (sec_base sec + 4096) NULL)) by (unfold NULL; lia). done.
      * rewrite (bind_done _ _ _ _ _ Hround), IH by done. by rewrite (proj2 (Z.eqb_neq mp NULL)).
    + rewrite (bind_done _ _ _ _ _ Hround). by apply IH.
Qed.

Lemma total_len_nonneg l : Forall section_sane l → 0 <= total_len (big l).
Proof.
  induction 1 as [|x l [_ Hx _ _] _ IH]; [done|]. unfold big in *. rewrite list.filter_cons.
  destruct (decide _); [|done]. rewrite total_len_cons. lia.
Qed.

Lemma map_pages_bounds t : 0 <= t < 281474976710656 →
  2 <= map_pages t < 281474976710656 ∧ t / 4096 * 2 <= map_pages t * 512.
Proof. unfold map_pages. intros Ht. zlia. Qed.

Lemma frame_bootstrap_2_run (w : world mem_state) : frames_known (w_st w) →
  let l := big (sections_of (w_st w)) in let n := map_pages (total_len l) in
  mem_frame_bootstrap_2 w =
    if forallb (clear_code (w_st w)) l && map_fits n l
    then Done ((), World (w_mem w) (set_frame_map (map_place l) (n * 512) (w_st w))) else Assert.
Proof.
  intros Hfk l n. pose proof Hfk as [Hc _ Hsane Htot]. pose proof (total_len_nonneg _ Hsane) as Ht0. fold l in Htot, Ht0.
  pose proof (map_pages_bounds _ (conj Ht0 Htot)) as Hn. fold n in Hn. unfold mem_frame_bootstrap_2.
  rewrite (bind_done _ _ _ _ _ (eq_refl : static _sec_cnt w = _)).
  change (λ '(i, pa_len), if i <? _sec_cnt (w_st w) then _ else _) with (sum_round (_sec_cnt (w_st w))).
  assert (length (sections_of (w_st w)) = Z.to_nat (_sec_cnt (w_st w))) as Hlen by (unfold sections_of; rewrite length_take; lia).
  pose proof (sum_loop_run (sections_of (w_st w)) 0 0 w Hfk (drop_0 _) ltac:(lia) Hsane ltac:(lia) ltac:(fold l; lia)) as Hsum.
  rewrite Hlen, Z.add_0_l in Hsum. change (Z.of_nat 0) with 0 in Hsum. fold l in Hsum.
  destruct (forallb (clear_code (w_st w)) l) eqn:Hcl; [|by rewrite (bind_assert _ _ _ Hsum)].
  rewrite (bind_done _ _ _ _ _ Hsum). cbn [andb].
  assert ((total_len l / PAGE_SIZE_4K * 2 * 8 / PAGE_SIZE_4K + 2)%u64 = n ∧ (n * PAGE_SIZE_4K / 8)%u64 = n * 512) as [-> ->].
  { change PAGE_SIZE_4K with 4096. unfold n, map_pages. u64_unfold.
    rewrite (u64_small (total_len l / 4096 * 2)), (u64_small (total_len l / 4096 * 2 * 8)) by zlia.
    rewrite !u64_small by zlia. split; [done|zlia]. }
  rewrite (bind_done _ _ _ () (World (w_mem w) (set_frame_map NULL (n * 512) (w_st w)))) by done.
  rewrite <-Hlen. change 0 with (Z.of_nat 0) at 1.
  pose proof (place_loop_run n (n * 512) (sections_of (w_st w)) 0 NULL (w_mem w) (w_st w) Hfk (drop_0 _) Hsane ltac:(lia)) as Hpl.
  fold l in Hpl. rewrite Hcl in Hpl. exact Hpl.
Qed.

(** C16: the second stage of the boot-time memory manager.  When at least one
    byte lies between every section of more than 8 MB and every device (the
    256 MB of configuration space of each known group, the frame buffer), and
    the first such section has room for it, [mem_frame_bootstrap_2] places the
    map of the frames one page above the start of that section; the map lies
    inside the section and has at least two words for each frame of the managed
    sections.  When there is no section of more than 8 MB the map stays [NULL].
    In all other cases an assertion fails: in particular when a section of more
    than 8 MB shares a byte with a device, and also when it only borders on
    one.  Smaller sections are not looked at. *)
Theorem mem_frame_bootstrap_2_ok (w : world mem_state) (Hfk : frames_known (w_st w))
    (Hdev : devices_sane (st_pcie (w_st w)) (st_vesa (w_st w))) :
  let l := big (sections_of (w_st w)) in let n := map_pages (total_len l) in
  let clear := clear_of_devices (st_pcie (w_st w)) (st_vesa (w_st w)) in
  (Forall clear l ∧ map_fits n l = true → ∃ s',
    mem_frame_bootstrap_2 w = Done ((), World (w_mem w) s') ∧ s' = set_frame_map (map_place l) (n * 512) (w_st w) ∧
    total_len l / 4096 * 2 <= _frame_map_cap s' ∧
    (l = [] → _frame_map s' = NULL) ∧
    ∀ sec rest, l = sec :: rest → _frame_map s' = sec_base sec + 4096 ∧
      _frame_map s' + 8 * _frame_map_cap s' < sec_base sec + sec_len sec) ∧
  (¬ (Forall clear l ∧ map_fits n l = true) → mem_frame_bootstrap_2 w = Assert) ∧
  (∀ sec d, sec ∈ l → d ∈ device_ranges (st_pcie (w_st w)) (st_vesa (w_st w)) → meets sec d →
    mem_frame_bootstrap_2 w = Assert).
Proof.
  intros l n clear. rewrite (frame_bootstrap_2_run w Hfk). fold l n.
  pose proof (clear_all_gap (w_st w) _ Hdev (fk_sane _ Hfk)) as Hiff. fold l in Hiff.
  pose proof (map_pages_bounds _ (conj (total_len_nonneg _ (fk_sane _ Hfk)) (fk_total _ Hfk))) as Hn. fold l n in Hn.
  assert (¬ (Forall clear l ∧ map_fits n l = true) →
    (if forallb (clear_code (w_st w)) l && map_fits n l
     then Done ((), World (w_mem w) (set_frame_map (map_place l) (n * 512) (w_st w))) else Assert) = Assert) as Hrej.
  { intros Hno. destruct (forallb _ l && map_fits n l) eqn:E; [|done].
    apply andb_true_iff in E as [E1 E2]. destruct Hno. split; [by apply Hiff|done]. }
  split; [|split].
  - intros [Hcl Hfit]. apply Hiff in Hcl. rewrite Hfit, Hcl.
    eexists. split; [done|]. split; [done|]. split; [cbn; lia|]. split; [by intros E; rewrite E|].
    intros sec rest El. rewrite El in *. cbn in *. bsimp. lia.
  - exact Hrej.
  - intros sec d Hin Hd Hm. apply Hrej. intros [Hcl _].
    pose proof (proj1 (list.Forall_forall _ _) Hcl sec Hin) as Hs.
    pose proof (proj1 (list.Forall_forall _ _) Hs d Hd) as Hgap. apply big_in in Hin as [Hin _].
    pose proof (proj1 (list.Forall_forall _ _) (fk_sane _ Hfk) sec Hin) as [_ Hlen _ _].
    pose proof (proj1 (list.Forall_forall _ _) Hdev d Hd) as (_&Hd2&_).
    by apply (meets_no_gap sec d).
Qed.

End frame_map.

(* ===================================================================== *)
(** ** A sample machine: one section to manage, one that overlaps the frame buffer *)

Definition sample_group : d_pcie_group := PcieGroup 0xb0000000 0 0 255 0.

Definition sample_memory (len : Z) : mem_state :=
  MemState MEM_BOOTSTRAP_STAGE_1 (Section_t 0x1000 0x9e000 :: Section_t 0x100000 len :: replicate 30 (Section_t 0 0)) 2 0
    0x100000 0x4500000 1026 0x203000 0 0 0x201000 (Pcie [sample_group] 1 [] 0) (Vesa 0xfd000000 1024 768 4).

Lemma sample_frames_known len : 0 <= len < 0x100000000 → frames_known (sample_memory len).
Proof.
  intros Hl. split; [done|done| |].
  - apply Forall_cons_2; [split; cbn; [lia..|by exists 1]|]. apply Forall_cons_2; [split; cbn; [lia..|by exists 256]|constructor].
  - change (sections_of (sample_memory len)) with [Section_t 0x1000 0x9e000; Section_t 0x100000 len]. unfold big.
    rewrite list.filter_cons, decide_False by done. rewrite list.filter_cons, list.filter_nil.
    destruct (decide _); cbn; lia.
Qed.

Lemma sample_devices_sane len : devices_sane (st_pcie (sample_memory len)) (st_vesa (sample_memory len)).
Proof. repeat constructor; cbn; lia. Qed.

(** With memory up to [0xfcfff000] a page lies between it and the frame buffer;
    up to [0xfd000000] it borders on it; beyond, it overlaps it. *)
Lemma mem_frame_bootstrap_2_ok_witness :
  (∃ s', @mem_frame_bootstrap_2 (World ∅ (sample_memory 0x7fee0000)) = Done ((), World ∅ s') ∧
    _frame_map s' = 0x101000 ∧ _frame_map_cap s' = 1048576) ∧
  @mem_frame_bootstrap_2 (World ∅ (sample_memory 0xfcf00000)) = Assert ∧
  @mem_frame_bootstrap_2 (World ∅ (sample_memory 0xfff00000)) = Assert.
Proof.
  assert (∀ len, 0x800000 < len → Section_t 0x100000 len ∈ big (sections_of (sample_memory len))) as Hin.
  { intros len Hlen. apply list_elem_of_filter. split; [exact Hlen|]. right. left. }
  assert (∀ len, (0xfd000000, 3145728) ∈ device_ranges (st_pcie (sample_memory len)) (st_vesa (sample_memory len))) as Hd.
  { intros len. right. left. }
  split; [|split].
  - destruct (proj1 (mem_frame_bootstrap_2_ok (World ∅ (sample_memory 0x7fee0000)) (sample_frames_known 0x7fee0000 ltac:(lia))
      (sample_devices_sane _))) as (s'&Hrun&->&_).
    + split; [|by vm_compute]. cbn [w_st].
      assert (big (sections_of (sample_memory 0x7fee0000)) = [Section_t 0x100000 0x7fee0000]) as -> by (vm_compute; reflexivity).
      apply Forall_singleton. repeat constructor; unfold gap_between; cbn; lia.
    + eexists. split; [exact Hrun|]. split; by vm_compute.
  - apply (proj2 (proj2 (mem_frame_bootstrap_2_ok (World ∅ (sample_memory 0xfcf00000)) (sample_frames_known 0xfcf00000 ltac:(lia))
      (sample_devices_sane _))) _ _ (Hin 0xfcf00000 ltac:(lia)) (Hd _)). right. left. reflexivity.
  - apply (proj2 (proj2 (mem_frame_bootstrap_2_ok (World ∅ (sample_memory 0xfff00000)) (sample_frames_known 0xfff00000 ltac:(lia))
      (sample_devices_sane _))) _ _ (Hin 0xfff00000 ltac:(lia)) (Hd _)). left. exists 0xfd000000. cbn. lia.
Defined.
