(* ===== verification/MemPage.v ===== *)
(** The page tables built during boot, src/mem/mem_page.c, and the boot
    stages of src/mem/mem.c.

    The tables live in the physical memory, which the code reaches at equal
    virtual addresses.  Theorems: installing a mapping adds exactly that
    translation to what the hardware walk of Mmu.v yields, and the boot
    mapping is the identity on the physical addresses it covers. *)
From S2P Require Import Prelude Memory Util MmCore Mmu MemFrame.
From S2P Require Vesa.

Definition TAB_LEV_4 : Z := 4.
Definition TAB_LEV_3 : Z := 3.
Definition TAB_LEV_2 : Z := 2.
Definition TAB_LEV_1 : Z := 1.
Definition _TAB_LEV_LOWEST : Z := TAB_LEV_1.
Definition _TAB_LEV_HIGHEST : Z := TAB_LEV_4.
Definition _TAB_ENTRY_LEN : Z := 8.
Definition _TAB_ENTRY_COUNT : Z := 512.

(** Bits of [tab_entry_t]. *)
Definition BIT_PRESENT : Z := 0.
Definition BIT_WRITABLE : Z := 1.
Definition BIT_HUGE : Z := 7.

Section page.
Context `{Link}.

(* ===================================================================== *)
(** ** Table entries *)

Definition cpu_write_cr3 (val : Z) : FM unit := static_set (set_cr3 val).

Definition _tab_load_root (p4 : Z) : FM unit :=
  kernel_assert (mem_align_check p4 PAGE_SIZE_4K) ;;
  let val := (p4 & 0x000ffffffffff000)%u64 in
  cpu_write_cr3 val.

Definition _tab_zero (entry : Z) : FM unit :=
  mem_clean entry (_TAB_ENTRY_LEN * _TAB_ENTRY_COUNT).

Definition _tab_entry_is_zero (entry : Z) : FM bool :=
  e ← read 8 entry; mret (e =? 0).

Definition _tab_entry_idx (va level : Z) : FM Z :=
  kernel_assert ((_TAB_LEV_LOWEST <=? level) && (level <=? _TAB_LEV_HIGHEST)) ;;
  let shift := ((level - 1) * 9 + 12)%u64 in
  let idx := ((va >> shift) & 0x1ff)%u64 in
  kernel_assert (idx <? _TAB_ENTRY_COUNT) ;;
  mret idx.

(** Bit-field reads and writes of an entry in memory. *)
Definition get_bit (entry bit : Z) : FM bool :=
  e ← read 8 entry; mret (Z.testbit e bit).
Definition set_bit (entry bit : Z) : FM unit :=
  e ← read 8 entry; write 8 entry (Z.setbit e bit).

Definition _tab_entry_present (entry : Z) : FM bool := get_bit entry BIT_PRESENT.

Definition _tab_entry_get_pa (ent : Z) : FM Z :=
  e ← read 8 ent; mret (e & 0x0ffffffffffff000)%u64.

Definition check_page_size (level padd_size : Z) : FM unit :=
  if (level =? TAB_LEV_4) || (level =? TAB_LEV_1) then kernel_assert (padd_size =? PAGE_SIZE_4K)
  else if level =? TAB_LEV_2 then
    kernel_assert ((padd_size =? PAGE_SIZE_4K) || (padd_size =? PAGE_SIZE_2M))
  else if level =? TAB_LEV_3 then
    kernel_assert ((padd_size =? PAGE_SIZE_4K) || (padd_size =? PAGE_SIZE_1G))
  else kernel_panic "Invalid page table level".

Definition _tab_entry_init (e level : Z) (present write_ : bool) (padd padd_size : Z) : FM unit :=
  check_page_size level padd_size ;;
  kernel_assert (mem_align_check padd padd_size) ;;
  kernel_assert ((padd <=? VA_48_LOW_END) || (VA_48_HIGH_START <=? padd)) ;;
  write 8 e padd ;;
  (if present then set_bit e BIT_PRESENT else mret ()) ;;
  (if write_ then set_bit e BIT_WRITABLE else mret ()) ;;
  (if (padd_size =? PAGE_SIZE_2M) || (padd_size =? PAGE_SIZE_1G) then set_bit e BIT_HUGE else mret ()).

(* ===================================================================== *)
(** ** Mapping *)

(** A new frame becomes the table behind [entry]. *)
Definition link_frame (entry lv frame : Z) : FM unit :=
  kernel_assert (negb (frame =? NULL)) ;;
  _tab_entry_init entry lv true true frame PAGE_SIZE_4K ;;
  _tab_zero frame.

(** [if (!present) { ... }]: false when a frame was needed and none is left. *)
Definition link_missing (entry lv : Z) : FM bool :=
  present ← _tab_entry_present entry;
  if negb present then
    zero ← _tab_entry_is_zero entry;
    kernel_assert zero ;;
    r ← mem_frame_alloc;
    match r with
    | Some frame => link_frame entry lv frame ;; mret true
    | None => mret false
    end
  else mret true.

(** The table of the next level; [None] when no frame is left ([break]). *)
Definition next_level_bootstrap (tab va lv : Z) : FM (option Z) :=
  entry_idx ← _tab_entry_idx va lv;
  let entry := (tab + 8 * entry_idx)%u64 in
  ok ← link_missing entry lv;
  if ok : bool then (pa ← _tab_entry_get_pa entry; mret (Some pa)) else mret None.

Definition _map_bootstrap (root va pa : Z) : FM bool :=
  kernel_assert (mem_align_check va PAGE_SIZE_2M) ;;
  kernel_assert (mem_align_check pa PAGE_SIZE_2M) ;;
  tab ← loop 3 (λ '(lv, tab),
    if TAB_LEV_2 <? lv then
      r ← next_level_bootstrap tab va lv;
      mret (match r with Some tab => inl (lv - 1, tab) | None => inr None end)
    else mret (inr (Some tab))) (_TAB_LEV_HIGHEST, root);
  match tab with
  | Some tab =>
      entry_idx ← _tab_entry_idx va TAB_LEV_2;
      let entry := (tab + 8 * entry_idx)%u64 in
      zero ← _tab_entry_is_zero entry;
      kernel_assert zero ;;
      _tab_entry_init entry TAB_LEV_2 true true pa PAGE_SIZE_2M ;;
      mret true
  | None => mret false
  end.

(** The table of the next level; the frame must be available. *)
Definition next_level (tab va lv : Z) : FM Z :=
  entry_idx ← _tab_entry_idx va lv;
  let entry := (tab + 8 * entry_idx)%u64 in
  ok ← link_missing entry lv;
  kernel_assert ok ;;
  _tab_entry_get_pa entry.

Definition _map_page (root va pa : Z) : FM unit :=
  kernel_assert (mem_align_check va PAGE_SIZE_4K) ;;
  kernel_assert (mem_align_check pa PAGE_SIZE_4K) ;;
  tab ← loop 4 (λ '(lv, tab),
    if TAB_LEV_1 <? lv then
      tab ← next_level tab va lv;
      mret (inl (lv - 1, tab))
    else mret (inr tab)) (_TAB_LEV_HIGHEST, root);
  entry_idx ← _tab_entry_idx va TAB_LEV_1;
  let entry := (tab + 8 * entry_idx)%u64 in
  zero ← _tab_entry_is_zero entry;
  kernel_assert zero ;;
  _tab_entry_init entry TAB_LEV_1 true true pa PAGE_SIZE_4K.

(** [fuel] bounds the pages mapped plus the ranges passed. *)
Definition _map_impl (fuel : nat) (root va n_pg pa : Z) : FM unit :=
  kernel_assert (mem_align_check va PAGE_SIZE_4K) ;;
  n_page ← pa_list_n_page pa;
  kernel_assert_d (n_pg =? n_page) ;;
  loop fuel (λ '(i, pa_idx, pa_page),
    if i <? n_pg then
      n_range ← pa_list_n_range pa;
      kernel_assert_d (pa_idx <? n_range) ;;
      n ← pa_list_range_n_page pa pa_idx;
      if pa_page <? n then
        let pg_va := (va + i * PAGE_SIZE_4K)%u64 in
        r ← pa_list_range_pa pa pa_idx;
        let pg_pa := (r + pa_page * PAGE_SIZE_4K)%u64 in
        _map_page root pg_va pg_pa ;;
        mret (inl (i + 1, pa_idx, pa_page + 1))
      else mret (inl (i, pa_idx + 1, 0))
    else mret (inr ())) (0, 0, 0).

Definition mem_page_map (fuel : nat) (va n_pg pa : Z) : FM unit :=
  stage ← static boot_stage;
  kernel_assert_d (MEM_BOOTSTRAP_STAGE_0 <? stage) ;;
  _map_impl fuel _tab_4 va n_pg pa.

(* ===================================================================== *)
(** ** Boot *)

Definition pa_max : Z := 1024 * 1024 * 1024 * 1024.

(** Rounds of [for (va = 0; va + 2M < pa_max; va += 2M)]. *)
Definition boot_fuel : nat := Z.to_nat (pa_max / PAGE_SIZE_2M).

Definition mem_page_bootstrap_1 : FM unit :=
  stage ← static boot_stage;
  kernel_assert (stage =? MEM_BOOTSTRAP_STAGE_0) ;;
  phy_0 ← mem_pa_start;
  phy_z ← mem_pa_end;
  ker_0 ← mem_pa_ker_start;
  ker_z ← mem_pa_ker_end;
  kernel_assert (phy_0 <? ker_0) ;;
  kernel_assert (ker_0 <? ker_z) ;;
  kernel_assert (ker_z <? phy_z) ;;
  _tab_zero _tab_4_bootstrap ;;
  loop boot_fuel (λ va,
    if (va + PAGE_SIZE_2M <? pa_max)%u64 then
      ok ← _map_bootstrap _tab_4_bootstrap va va;
      kernel_assert ok ;;
      mret (inl (va + PAGE_SIZE_2M)%u64)
    else mret (inr ())) 0 ;;
  _tab_load_root _tab_4_bootstrap.

Definition mem_page_bootstrap_2 (fuel : nat) : FM unit :=
  _tab_zero _tab_4 ;;
  let ker_0_va := 0 in
  kernel_assert (mem_align_check ker_0_va PAGE_SIZE_4K) ;;
  ker_z_va ← mem_pa_ker_end;
  kernel_assert (mem_align_check ker_0_va PAGE_SIZE_4K) ;;
  let ker_n_page := ((ker_z_va - ker_0_va) / PAGE_SIZE_4K)%u64 in
  pa ← pa_list_new_bootstrap 1;
  pa_list_set_range pa 0 ker_0_va ker_n_page ;;
  _map_impl fuel _tab_4 ker_0_va ker_n_page pa ;;
  fb ← vesa_call Vesa.d_vesa_get_frame_buffer;
  kernel_assert (mem_align_check fb PAGE_SIZE_4K) ;;
  fb_len ← vesa_call Vesa.d_vesa_get_frame_buffer_len;
  kernel_assert (fb_len mod PAGE_SIZE_4K =? 0)%u64 ;;
  kernel_assert (fb_len <? VA_48_FRAME_BUFFER_END - VA_48_FRAME_BUFFER)%u64 ;;
  pa_list_set_range pa 0 fb (fb_len / PAGE_SIZE_4K)%u64 ;;
  vesa_call (Vesa.d_vesa_set_frame_buffer VA_48_FRAME_BUFFER) ;;
  _map_impl fuel _tab_4 VA_48_FRAME_BUFFER (fb_len / PAGE_SIZE_4K)%u64 pa ;;
  pa_list_free_bootstrap pa ;;
  _tab_load_root _tab_4.

(* ===================================================================== *)
(** ** The boot stages (mem.c) *)

Definition mem_bootstrap_1 (mb_elf mb_elf_len mb_mmap mb_mmap_len : Z) : FM unit :=
  stage ← static boot_stage;
  kernel_assert (stage =? MEM_BOOTSTRAP_STAGE_0) ;;
  mem_frame_bootstrap_1 mb_elf mb_elf_len mb_mmap mb_mmap_len ;;
  mem_page_bootstrap_1 ;;
  static_set (set_boot_stage MEM_BOOTSTRAP_STAGE_1).

Definition mem_bootstrap_2 (fuel : nat) : FM unit :=
  stage ← static boot_stage;
  kernel_assert (stage =? MEM_BOOTSTRAP_STAGE_1) ;;
  mem_frame_bootstrap_2 ;;
  mem_page_bootstrap_2 fuel ;;
  static_set (set_boot_stage MEM_BOOTSTRAP_STAGE_2).

Definition mem_bootstrap_3 : FM unit :=
  stage ← static boot_stage;
  kernel_assert (stage =? MEM_BOOTSTRAP_STAGE_2) ;;
  static_set (set_boot_stage MEM_BOOTSTRAP_STAGE_3).

(* ===================================================================== *)
(** ** Entries written *)

Lemma wp_tab_entry_idx va lv (Q : Z → world mem_state → Prop) w :
  1 <= lv <= 4 → Q (idx va lv) w → wp (_tab_entry_idx va lv) Q w.
Proof.
  intros Hlv HQ. unfold _tab_entry_idx. rewrite idx_code by done.
  unfold _TAB_LEV_LOWEST, _TAB_LEV_HIGHEST, TAB_LEV_1, TAB_LEV_4.
  apply wp_bind, wp_assert; [bsimp; lia|].
  wp_steps; [|done]. pose proof (idx_range va lv) as Hi. unfold index_ok, _TAB_ENTRY_COUNT in *. bsimp. lia.
Qed.

Definition FLAGS (size : Z) : Z := if size =? PAGE_SIZE_4K then 3 else 131.

(** Bytes outside [e, e + 8) unchanged. *)
Definition only_entry (e : Z) (m m' : memory) : Prop :=
  ∀ a, a < e ∨ e + 8 <= a → load8 m' a = load8 m a.

Lemma wp_tab_entry_init e lv padd size (Q : unit → world mem_state → Prop) w :
  1 <= lv <= 4 → size = PAGE_SIZE_4K ∨ (lv = 2 ∧ size = PAGE_SIZE_2M) →
  0 <= padd <= VA_48_LOW_END → (size | padd) →
  (∀ m', load64 m' e = padd + FLAGS size → only_entry e (w_mem w) m' → Q () (World m' (w_st w))) →
  wp (_tab_entry_init e lv true true padd size) Q w.
Proof.
  intros Hlv Hsize Hp Hd HQ.
  assert (4096 | padd) as Hd4.
  { etrans; [|exact Hd]. destruct Hsize as [->|[_ ->]]; [done|]. by exists 512. }
  assert (0 < size) by (destruct Hsize as [->|[_ ->]]; done).
  destruct (setbit_flags padd Hd4) as (_&E3&E131). unfold VA_48_LOW_END in Hp.
  unfold _tab_entry_init, check_page_size, set_bit, TAB_LEV_1, TAB_LEV_2, TAB_LEV_3, TAB_LEV_4.
  apply wp_bind.
  assert (∀ R : unit → world mem_state → Prop, R () w → wp (if (lv =? 4) || (lv =? 1)
   then kernel_assert (size =? PAGE_SIZE_4K)
   else if lv =? 2 then kernel_assert ((size =? PAGE_SIZE_4K) || (size =? PAGE_SIZE_2M))
   else if lv =? 3 then kernel_assert ((size =? PAGE_SIZE_4K) || (size =? PAGE_SIZE_1G))
   else kernel_panic "Invalid page table level") R w) as Hchk.
  { intros R HR. destruct Hsize as [->|[-> ->]].
    - assert (lv = 1 ∨ lv = 2 ∨ lv = 3 ∨ lv = 4) as [->|[->|[->| ->]]] by lia; by apply wp_assert.
    - by apply wp_assert. }
  apply Hchk. apply wp_bind, wp_assert; [apply Z.eqb_eq, Z.mod_divide; [lia|done]|].
  apply wp_bind, wp_assert; [apply orb_true_iff; left; apply Z.leb_le; unfold VA_48_LOW_END; lia|].
  mem_steps. cbn [w_mem w_st mem_of set_mem world_has_memory].
  change (load 8) with load64. change (store 8) with store64.
  change BIT_PRESENT with 0. change BIT_WRITABLE with 1. change BIT_HUGE with 7.
  rewrite (load64_store64_eq _ _ padd) by (unfold is_u64; lia).
  assert (is_u64 (padd + 131)) as B131.
  { unfold is_u64. destruct Hd4 as [k ->]. lia. }
  rewrite (load64_store64_eq _ _ (Z.setbit padd 0)).
  2:{ unfold Z.setbit. change (Z.shiftl 1 0) with 1.
      rewrite (lor_add 12); [unfold is_u64 in *; lia|done|done|lia]. }
  rewrite E3. unfold is_u64 in *.
  destruct Hsize as [->|[-> ->]].
  - change ((PAGE_SIZE_4K =? PAGE_SIZE_2M) || (PAGE_SIZE_4K =? PAGE_SIZE_1G)) with false. cbv iota.
    apply wp_ret, HQ.
    + change (FLAGS PAGE_SIZE_4K) with 3. apply load64_store64_eq. unfold is_u64. lia.
    + intros a Ha. unfold store64. by rewrite !load8_store_ne by lia.
  - change ((PAGE_SIZE_2M =? PAGE_SIZE_2M) || (PAGE_SIZE_2M =? PAGE_SIZE_1G)) with true. cbv iota.
    mem_steps. cbn [w_mem w_st mem_of set_mem world_has_memory].
    change (load 8) with load64. change (store 8) with store64.
    change BIT_HUGE with 7.
    rewrite (load64_store64_eq _ _ (padd + 3)) by (unfold is_u64; lia). rewrite <-E3, E131.
    apply HQ.
    + by apply load64_store64_eq.
    + intros a Ha. unfold store64. by rewrite !load8_store_ne by lia.
Qed.

(** A frame linked as the table of level [lv - 1] on the path of [va]. *)
Record linked (root lo hi va : Z) (lv : nat) (m m' : memory) : Prop := {
  ln_ok : pt_ok m' root lo (hi + 4096);
  ln_table : walk m' root (path_of (lv - 1) va) = Some hi;
  ln_walk : ∀ q, path_ok q → q ≠ path_of (lv - 1) va → walk m' root q = walk m root q;
  ln_translate : ∀ va', translate m' root va' = translate m root va';
  ln_outside : ∀ a, a < root ∨ root + 4096 <= a → a < lo ∨ hi + 4096 <= a → load8 m' a = load8 m a;
}.

Lemma link_memory root lo hi va lv tab m m1 m2 :
  pt_ok m root lo hi → (2 <= lv <= 4)%nat → hi + 4096 <= PA_LIMIT → root + 4096 <= lo ∨ hi + 4096 <= root →
  walk m root (path_of lv va) = Some tab → load64 m (tab + 8 * idx va (Z.of_nat lv)) = 0 →
  load64 m1 (tab + 8 * idx va (Z.of_nat lv)) = hi + 3 → only_entry (tab + 8 * idx va (Z.of_nat lv)) m m1 →
  m2 = fill 4096 hi 0 m1 → linked root lo hi va lv m m2.
Proof.
  intros Hok Hlv Hlim Hap Hw H0 H1 Honly ->. set (p := path_of lv va) in *. set (i := idx va (Z.of_nat lv)) in *.
  assert (path_ok p) as Hp by apply path_of_ok. assert (index_ok i) as Hi by apply idx_range.
  pose proof (pt_pool _ _ _ _ Hok) as (Hhi&Hlo&Hlohi&_).
  assert (∀ q u, path_ok q → walk m root q = Some u → u + 4096 <= hi ∨ hi + 4096 <= u) as Hsep.
  { intros q u Hq Hu. destruct (pt_tables _ _ _ _ Hok q u Hq Hu) as [->|?]; lia. }
  assert (entry_present (hi + 3) = true ∧ entry_huge (hi + 3) = false ∧ entry_frame (hi + 3) = hi) as Htab.
  { unfold PA_LIMIT in Hlim. unfold entry_present, entry_huge. rewrite !testbit_frame by (done || lia).
    rewrite entry_frame_eq by (done || lia). done. }
  assert (∀ u j, (u + 4096 <= hi ∨ hi + 4096 <= u) → index_ok j →
    load64 (fill 4096 hi 0 m1) (u + 8 * j) = load64 m1 (u + 8 * j)) as Hf.
  { intros u j Hu Hj. unfold index_ok in Hj. apply (load_fill_ne 8). lia. }
  assert (entry_update m (fill 4096 hi 0 m1) root p i tab (hi + 3)) as Hup.
  { split; [done..|by rewrite H0| |].
    - by rewrite Hf by eauto.
    - intros q u j Hq Hj Hu Hne. rewrite Hf by eauto. apply (load_agree 8). intros a Ha. apply Honly.
      destruct (entries_disjoint Hok q p u tab j i); try done; lia. }
  assert (∀ j, index_ok j → load64 (fill 4096 hi 0 m1) (hi + 8 * j) = 0) as Hz.
  { intros j Hj. unfold index_ok in Hj. apply (load_fill_zero 8); lia. }
  destruct (install_table Hok Hup Hz Htab) as (Hok'&Hin&Hnew); [unfold PA_LIMIT in *; lia|done|lia|].
  assert (path_of (lv - 1) va = p ++ [i]) as Hstep by (by apply path_of_step).
  split; [done|by rewrite Hstep| | |].
  - intros q Hq Hne. rewrite Hstep in Hne. apply (walk_other Hup Htab); [apply (zero_dead Hz)|done..].
  - intros va'. rewrite !translate_xlate. eapply (xlate_table _ _ p i (hi + 3)); [exact Hin|..]; try tauto.
    + subst p. destruct lv as [|[|[|[|[|]]]]]; simpl; lia.
    + by rewrite (pte_walk _ _ _ _ _ Hw), H0.
    + intros j. apply pte_none. pose proof (walk_below Hup []) as Hb. by rewrite app_nil_r in Hb.
  - intros a Ha1 Ha2. rewrite load8_fill, decide_False by lia. apply Honly.
    unfold index_ok in Hi. destruct (pt_tables _ _ _ _ Hok p tab Hp Hw) as [->|(?&?&?)]; lia.
Qed.

Lemma wp_link_frame root lo hi va lv tab w (Q : unit → world mem_state → Prop) :
  pt_ok (w_mem w) root lo hi → (2 <= lv <= 4)%nat → hi + 4096 <= PA_LIMIT →
  root + 4096 <= lo ∨ hi + 4096 <= root → walk (w_mem w) root (path_of lv va) = Some tab →
  load64 (w_mem w) (tab + 8 * idx va (Z.of_nat lv)) = 0 →
  (∀ m', linked root lo hi va lv (w_mem w) m' → Q () (World m' (w_st w))) →
  wp (link_frame (tab + 8 * idx va (Z.of_nat lv)) (Z.of_nat lv) hi) Q w.
Proof.
  intros Hok Hlv Hlim Hap Hw H0 HQ. pose proof (pt_pool _ _ _ _ Hok) as (Hhi&Hlo&Hlohi&_).
  unfold link_frame. apply wp_bind, wp_assert; [apply negb_true_iff; bsimp; unfold NULL; lia|].
  apply wp_bind, wp_tab_entry_init; [lia|by left|unfold VA_48_LOW_END, PA_LIMIT in *; lia|done|].
  intros m1 H1 Honly. unfold _tab_zero. change (_TAB_ENTRY_LEN * _TAB_ENTRY_COUNT) with 4096.
  apply wp_mem_clean; [unfold PA_LIMIT in *; lia..|].
  cbn [w_mem w_st mem_of set_mem world_has_memory]. apply HQ. by eapply link_memory.
Qed.

(* ===================================================================== *)
(** ** The state of the tables *)

Definition cnt (w : world mem_state) : Z := _frame_count_bootstrap (w_st w).
Definition POOL_END : Z := _frame_pool_bootstrap + 4096 * _FRAME_CAP_BOOTSTRAP.

(** Where the linker may put the tables and the frame pool. *)
Record link_ok : Prop := {
  lk_pool : (4096 | _frame_pool_bootstrap) ∧ 0 < _frame_pool_bootstrap ∧ POOL_END <= PA_LIMIT;
  lk_boot : (4096 | _tab_4_bootstrap) ∧ 0 <= _tab_4_bootstrap ∧ _tab_4_bootstrap + 4096 <= PA_LIMIT ∧
    (_tab_4_bootstrap + 4096 <= _frame_pool_bootstrap ∨ POOL_END <= _tab_4_bootstrap);
  lk_tab : (4096 | _tab_4) ∧ 0 <= _tab_4 ∧ _tab_4 + 4096 <= PA_LIMIT ∧
    (_tab_4 + 4096 <= _frame_pool_bootstrap ∨ POOL_END <= _tab_4);
}.

Record pt_state (root : Z) (w : world mem_state) : Prop := {
  st_stage : boot_stage (w_st w) < MEM_BOOTSTRAP_STAGE_FINISH;
  st_cnt : 0 <= cnt w <= _FRAME_CAP_BOOTSTRAP;
  st_apart : root + 4096 <= _frame_pool_bootstrap ∨ POOL_END <= root;
  st_limit : POOL_END <= PA_LIMIT;
  st_ok : pt_ok (w_mem w) root _frame_pool_bootstrap (_frame_pool_bootstrap + 4096 * cnt w);
}.

(** Tables were added: the translation is the same, only the frame count and
    the bytes of the tables and the pool may differ. *)
Record grown (root : Z) (w w' : world mem_state) : Prop := {
  gr_cnt : cnt w <= cnt w';
  gr_static : w_st w' = set_frame_count (cnt w') (w_st w);
  gr_translate : ∀ va, translate (w_mem w') root va = translate (w_mem w) root va;
  gr_outside : ∀ a, a < root ∨ root + 4096 <= a → a < _frame_pool_bootstrap ∨ POOL_END <= a →
    load8 (w_mem w') a = load8 (w_mem w) a;
}.

Lemma set_frame_count_id s : set_frame_count (_frame_count_bootstrap s) s = s.
Proof. by destruct s. Qed.

Lemma set_frame_count_twice a b s : set_frame_count a (set_frame_count b s) = set_frame_count a s.
Proof. done. Qed.

#[export] Instance grown_preorder root : PreOrder (grown root).
Proof.
  split.
  - intros w. split; [lia| |done..]. unfold cnt. by rewrite set_frame_count_id.
  - intros w1 w2 w3 H1 H2. split.
    + pose proof (gr_cnt _ _ _ H1). pose proof (gr_cnt _ _ _ H2). lia.
    + rewrite (gr_static _ _ _ H2), (gr_static _ _ _ H1). apply set_frame_count_twice.
    + intros va. by rewrite (gr_translate _ _ _ H2), (gr_translate _ _ _ H1).
    + intros a Ha Hb. by rewrite (gr_outside _ _ _ H2), (gr_outside _ _ _ H1).
Qed.

(** The table of level [lv - 1] on the path of [va] is [tab'] in [w'], and no
    other table came or went. *)
Record stepped (root va : Z) (lv : nat) (tab' : Z) (w w' : world mem_state) : Prop := {
  sp_state : pt_state root w';
  sp_grown : grown root w w';
  sp_walk : walk (w_mem w') root (path_of (lv - 1) va) = Some tab';
  sp_cnt : cnt w' = cnt w + match walk (w_mem w) root (path_of (lv - 1) va) with Some _ => 0 | None => 1 end;
  sp_other : ∀ q, path_ok q → q ≠ path_of (lv - 1) va → walk (w_mem w') root q = walk (w_mem w) root q;
}.

Lemma table_entry_small m root lo hi q t j : pt_ok m root lo hi → path_ok q → index_ok j →
  walk m root q = Some t → (t + 8 * j)%u64 = t + 8 * j.
Proof.
  intros Hok Hq Hj Hw. destruct (table_range Hok q t Hq Hw) as (?&?&_). unfold index_ok, PA_LIMIT in *.
  u64_unfold. rewrite (u64_small (8 * j)), u64_small by lia. done.
Qed.

Lemma wp_table_pa root lo hi q j t u (Q : Z → world mem_state → Prop) w :
  pt_ok (w_mem w) root lo hi → path_ok q → index_ok j → walk (w_mem w) root q = Some t →
  walk (w_mem w) root (q ++ [j]) = Some u → Q u w → wp (_tab_entry_get_pa (t + 8 * j)) Q w.
Proof.
  intros Hok Hq Hj Hw Hu HQ. unfold _tab_entry_get_pa. mem_steps. cbn [mem_of world_has_memory].
  change (load 8) with load64.
  rewrite walk_pte, (pte_walk _ _ _ _ _ Hw) in Hu. pose proof (pt_width _ _ _ _ Hok q t j Hq Hj Hw) as He.
  pose proof (load64_range (w_mem w) (t + 8 * j)) as He0. set (e := load64 _ _) in *.
  destruct (entry_present e && _); [|done]. injection Hu as <-. unfold uand. by rewrite wide_frame by lia.
Qed.

Lemma wp_link_missing root va lv tab w (Q : bool → world mem_state → Prop) :
  pt_state root w → (2 <= lv <= 4)%nat →
  (walk (w_mem w) root (path_of (lv - 1) va) = None → cnt w < _FRAME_CAP_BOOTSTRAP) →
  walk (w_mem w) root (path_of lv va) = Some tab → translate (w_mem w) root va = None →
  (∀ tab' w', stepped root va lv tab' w w' → Q true w') →
  wp (link_missing (tab + 8 * idx va (Z.of_nat lv)) (Z.of_nat lv)) Q w.
Proof.
  intros Hst Hlv Hcnt Hw Hno HQ. pose proof (st_ok _ _ Hst) as Hok.
  assert (path_of (lv - 1) va = path_of lv va ++ [idx va (Z.of_nat lv)]) as Hstep by (apply path_of_step; lia).
  set (e := load64 (w_mem w) (tab + 8 * idx va (Z.of_nat lv))).
  assert (walk (w_mem w) root (path_of (lv - 1) va) =
    if entry_present e && negb (entry_huge e) then Some (entry_frame e) else None) as Hnext.
  { rewrite Hstep, walk_pte. by rewrite (pte_walk _ _ _ _ _ Hw). }
  unfold link_missing, _tab_entry_present, get_bit. mem_steps. cbn [mem_of world_has_memory].
  change (load 8) with load64. fold e. change (Z.testbit e BIT_PRESENT) with (entry_present e).
  destruct (unmapped_entry _ _ _ _ va lv tab Hok ltac:(lia) Hno Hw) as [H0|(_&Hpr&Hhu)].
  - fold e in H0. rewrite H0. cbn [negb entry_present]. change (negb (entry_present 0)) with true. cbv iota.
    unfold _tab_entry_is_zero. apply wp_bind, wp_bind, wp_read, wp_ret.
    cbn [mem_of world_has_memory]. change (load 8) with load64.
    fold e. rewrite H0. apply wp_bind, wp_assert; [done|].
    rewrite Hnext, H0 in Hcnt. specialize (Hcnt eq_refl).
    unfold mem_frame_alloc. apply wp_bind, wp_bind, wp_static, wp_bind, wp_assert; [bsimp; apply Hst|].
    apply wp_bind, wp_static. fold (cnt w). rewrite (proj2 (Z.ltb_lt _ _) Hcnt).
    apply wp_bind, wp_static_set. apply wp_ret.
    pose proof (st_cnt _ _ Hst). pose proof (st_limit _ _ Hst) as Hlim. pose proof (st_apart _ _ Hst) as Hap.
    pose proof (pt_pool _ _ _ _ Hok) as (_&Hpos&_&_).
    unfold POOL_END, PA_LIMIT, _FRAME_CAP_BOOTSTRAP in *.
    assert ((_frame_pool_bootstrap + cnt w * PAGE_SIZE_4K)%u64 = _frame_pool_bootstrap + 4096 * cnt w) as ->.
    { unfold PAGE_SIZE_4K, PAGE_SIZE_VALUE_4K. u64_unfold. rewrite (u64_small (cnt w * 4096)), u64_small by lia. lia. }
    apply wp_bind. eapply wp_link_frame; cbn [w_mem w_st]; [done|done|unfold PA_LIMIT; lia|lia|done|done|].
    intros m' Hl. apply wp_ret. apply (HQ (_frame_pool_bootstrap + 4096 * cnt w)).
    assert ((cnt w + 1)%u64 = cnt w + 1) as E1 by (u64_unfold; rewrite u64_small; lia).
    rewrite E1.
    assert (cnt (World m' (set_frame_count (cnt w + 1) (w_st w))) = cnt w + 1) as E2 by done.
    split.
    + split; rewrite ?E2; cbn [w_mem w_st]; [apply Hst|unfold _FRAME_CAP_BOOTSTRAP; lia|done|done|].
      replace (_frame_pool_bootstrap + 4096 * (cnt w + 1)) with (_frame_pool_bootstrap + 4096 * cnt w + 4096) by lia.
      apply Hl.
    + split; rewrite ?E2; cbn [w_mem w_st]; [lia|done|apply Hl|].
      intros a Ha Hb. apply (ln_outside _ _ _ _ _ _ _ Hl); [done|unfold POOL_END, _FRAME_CAP_BOOTSTRAP in Hb; lia].
    + apply Hl.
    + by rewrite Hnext, H0, E2.
    + apply Hl.
  - fold e in Hpr, Hhu. rewrite Hpr. cbn [negb]. rewrite Hpr, Hhu in Hnext. cbn [andb negb] in Hnext.
    apply wp_ret, (HQ (entry_frame e)). split; [done|done|done|rewrite Hnext; lia|done].
Qed.

Lemma wp_next_level root va lv tab w (Q : Z → world mem_state → Prop) :
  pt_state root w → (2 <= lv <= 4)%nat →
  (walk (w_mem w) root (path_of (lv - 1) va) = None → cnt w < _FRAME_CAP_BOOTSTRAP) →
  walk (w_mem w) root (path_of lv va) = Some tab → translate (w_mem w) root va = None →
  (∀ tab' w', stepped root va lv tab' w w' → Q tab' w') →
  wp (next_level tab va (Z.of_nat lv)) Q w ∧
  wp (next_level_bootstrap tab va (Z.of_nat lv)) (λ r, match r with Some t => Q t | None => λ _, False end) w.
Proof.
  intros Hst Hlv Hcnt Hw Hno HQ. pose proof (st_ok _ _ Hst) as Hok.
  assert (path_of (lv - 1) va = path_of lv va ++ [idx va (Z.of_nat lv)]) as Hstep by (apply path_of_step; lia).
  assert (path_of lv va ≠ path_of (lv - 1) va) as Hne.
  { rewrite Hstep. intros Heq%(f_equal length). rewrite length_app in Heq. simpl in Heq. lia. }
  assert (∀ tab' w' (R : Z → world mem_state → Prop), stepped root va lv tab' w w' → R tab' w' →
    wp (_tab_entry_get_pa (tab + 8 * idx va (Z.of_nat lv))) R w') as Hpa.
  { intros tab' w' R Hs HR. eapply wp_table_pa; [apply Hs|apply path_of_ok|apply idx_range| |rewrite <-Hstep; apply Hs|done].
    rewrite (sp_other _ _ _ _ _ _ Hs); [done|apply path_of_ok|done]. }
  unfold next_level, next_level_bootstrap. split.
  - apply wp_bind, wp_tab_entry_idx; [lia|].
    rewrite (table_entry_small _ _ _ _ _ _ _ Hok (path_of_ok lv va) (idx_range _ _) Hw).
    apply wp_bind. eapply wp_link_missing; [done..|]. intros tab' w' Hs.
    apply wp_bind, wp_assert; [done|]. by eapply Hpa; [|apply HQ].
  - apply wp_bind, wp_tab_entry_idx; [lia|].
    rewrite (table_entry_small _ _ _ _ _ _ _ Hok (path_of_ok lv va) (idx_range _ _) Hw).
    apply wp_bind. eapply wp_link_missing; [done..|]. intros tab' w' Hs.
    apply wp_bind. eapply Hpa; [done|]. by apply wp_ret, HQ.
Qed.

(** On the way down to the leaf of the unmapped address [va]. *)
Record at_level (root va : Z) (lv : nat) (tab : Z) (w0 w : world mem_state) : Prop := {
  al_state : pt_state root w;
  al_grown : grown root w0 w;
  al_walk : walk (w_mem w) root (path_of lv va) = Some tab;
  al_unmapped : translate (w_mem w) root va = None;
  al_cnt : cnt w <= cnt w0 + (4 - Z.of_nat lv);
}.

Lemma at_root root va w : pt_state root w → translate (w_mem w) root va = None →
  at_level root va 4 root w w.
Proof. intros Hst Hno. split; [done|done|done|done|lia]. Qed.

Lemma at_level_step root va lv tab tab' w0 w w' : (2 <= lv <= 4)%nat →
  at_level root va lv tab w0 w → stepped root va lv tab' w w' → at_level root va (lv - 1) tab' w0 w'.
Proof.
  intros Hlv Hal Hs. split.
  - apply Hs.
  - etrans; [apply Hal|apply Hs].
  - apply Hs.
  - rewrite (gr_translate _ _ _ (sp_grown _ _ _ _ _ _ Hs)). apply Hal.
  - rewrite (sp_cnt _ _ _ _ _ _ Hs). pose proof (al_cnt _ _ _ _ _ _ Hal).
    destruct (walk _ _ _); lia.
Qed.

(** The leaf that maps the page of [va] to [pa] is installed. *)
Record mapped (root va pa : Z) (lv : Z) (m m' : memory) : Prop := {
  mp_translate : ∀ va', translate m' root va' =
    if decide (page_of lv va' = page_of lv va) then Some (pa + va' `mod` page_span lv)
    else translate m root va';
  mp_walk : ∀ q, path_ok q → walk m' root q = walk m root q;
}.

Definition page_size (lv : Z) : Z := if lv =? 1 then PAGE_SIZE_4K else PAGE_SIZE_2M.

Lemma leaf_memory root lo hi va pa lv tab m m1 : (1 <= lv <= 2)%nat →
  pt_ok m root lo hi → walk m root (path_of lv va) = Some tab →
  load64 m (tab + 8 * idx va (Z.of_nat lv)) = 0 → 0 <= pa <= VA_48_LOW_END → (page_size (Z.of_nat lv) | pa) →
  load64 m1 (tab + 8 * idx va (Z.of_nat lv)) = pa + FLAGS (page_size (Z.of_nat lv)) →
  only_entry (tab + 8 * idx va (Z.of_nat lv)) m m1 →
  pt_ok m1 root lo hi ∧ mapped root va pa (Z.of_nat lv) m m1 ∧
  ∀ a, a < root ∨ root + 4096 <= a → a < lo ∨ hi <= a → load8 m1 a = load8 m a.
Proof.
  intros Hlv Hok Hw H0 Hpa Hd H1 Honly. set (p := path_of lv va) in *.
  set (i := idx va (Z.of_nat lv)) in *. set (v := pa + _) in *.
  assert (path_ok p) as Hp by apply path_of_ok. assert (index_ok i) as Hi by apply idx_range.
  assert (4096 | pa) as Hd4.
  { etrans; [|exact Hd]. unfold page_size. destruct (Z.of_nat lv =? 1); [done|by exists 512]. }
  assert (0 <= FLAGS (page_size (Z.of_nat lv)) < 4096) as HF by (unfold FLAGS; destruct (_ =? _); lia).
  unfold VA_48_LOW_END in Hpa.
  assert (entry_present v = true ∧ entry_frame v = pa ∧ v < 2 ^ 52) as (Hpr&Hfr&Hwd).
  { subst v. unfold entry_present. rewrite testbit_frame by (done || lia).
    split; [unfold FLAGS; by destruct (_ =? _)|]. rewrite entry_frame_eq by (done || lia). split; [done|lia]. }
  assert (entry_update m m1 root p i tab v) as Hup.
  { split; [done..|by rewrite H0|done|]. intros q u j Hq Hj Hu Hne. apply (load_agree 8). intros a Ha. apply Honly.
    destruct (entries_disjoint Hok q p u tab j i); try done; lia. }
  assert (lv = 2%nat → entry_huge v = true) as Hh.
  { intros ->. subst v. unfold entry_huge. by rewrite testbit_frame by (done || lia). }
  assert (lv = 1%nat ∨ lv = 2%nat) as Hcase by lia.
  assert (length p = 3%nat ∨ (entry_huge v = true ∧ p ≠ [])) as Hleaf.
  { destruct Hcase as [->| ->]; [by left|right]. split; [by apply Hh|done]. }
  destruct (install_leaf Hok Hup Hpr Hwd Hleaf) as [Hok1 Hin].
  assert (∀ q, path_ok q → walk m1 root q = walk m root q) as Hwalk by (apply (walk_leaf Hup); tauto).
  split; [done|]. split.
  - split; [|done]. intros va'. rewrite <-Hfr. destruct Hcase as [->| ->].
    + by eapply translate_leaf_1.
    + eapply translate_leaf_2; eauto.
  - intros a Ha1 Ha2. apply Honly. unfold index_ok in Hi.
    destruct (pt_tables _ _ _ _ Hok p tab Hp Hw) as [->|(?&?&?)]; lia.
Qed.

(** The tables of [root] map the page of [va] at [pa] in addition. *)
Record page_mapped (root va pa : Z) (lv : Z) (frames : Z) (w w' : world mem_state) : Prop := {
  pm_state : pt_state root w';
  pm_cnt : cnt w <= cnt w' <= cnt w + frames;
  pm_static : w_st w' = set_frame_count (cnt w') (w_st w);
  pm_translate : ∀ va', translate (w_mem w') root va' =
    if decide (page_of lv va' = page_of lv va) then Some (pa + va' `mod` page_span lv)
    else translate (w_mem w) root va';
  pm_outside : ∀ a, a < root ∨ root + 4096 <= a → a < _frame_pool_bootstrap ∨ POOL_END <= a →
    load8 (w_mem w') a = load8 (w_mem w) a;
}.

Lemma wp_leaf root va pa lv tab w0 w (Q : unit → world mem_state → Prop) :
  (1 <= lv <= 2)%nat → at_level root va lv tab w0 w →
  load64 (w_mem w) (tab + 8 * idx va (Z.of_nat lv)) = 0 →
  0 <= pa <= VA_48_LOW_END → (page_size (Z.of_nat lv) | pa) →
  (∀ w', page_mapped root va pa (Z.of_nat lv) (4 - Z.of_nat lv) w0 w' →
    (∀ q, path_ok q → walk (w_mem w') root q = walk (w_mem w) root q) → cnt w' = cnt w → Q () w') →
  wp (_tab_entry_init (tab + 8 * idx va (Z.of_nat lv)) (Z.of_nat lv) true true pa (page_size (Z.of_nat lv))) Q w.
Proof.
  intros Hlv Hal H0 Hpa Hd HQ. pose proof (al_state _ _ _ _ _ _ Hal) as Hst. pose proof (st_ok _ _ Hst) as Hok.
  apply wp_tab_entry_init; [lia| |done|done|].
  { unfold page_size. destruct (Z.eqb_spec (Z.of_nat lv) 1); [by left|right]. split; [lia|done]. }
  intros m1 H1 Honly.
  destruct (leaf_memory root _ _ va pa lv tab (w_mem w) m1 Hlv Hok (al_walk _ _ _ _ _ _ Hal) H0 Hpa Hd H1 Honly)
    as (Hok1&Hmp&Hout).
  pose proof (al_grown _ _ _ _ _ _ Hal) as Hg. pose proof (st_cnt _ _ Hst).
  apply HQ; [|apply Hmp|done]. split; change (cnt (World m1 (w_st w))) with (cnt w); cbn [w_mem w_st].
  - split; cbn [w_mem w_st]; try apply Hst. done.
  - pose proof (al_cnt _ _ _ _ _ _ Hal). pose proof (gr_cnt _ _ _ Hg). lia.
  - apply Hg.
  - intros va'. rewrite (mp_translate _ _ _ _ _ _ Hmp). by rewrite (gr_translate _ _ _ Hg).
  - intros a Ha Hb. rewrite Hout by (unfold POOL_END in *; lia). by apply Hg.
Qed.

Lemma at_level_zero root va tab w0 w : at_level root va 1 tab w0 w →
  load64 (w_mem w) (tab + 8 * idx va 1) = 0.
Proof.
  intros Hal. destruct (unmapped_entry _ _ _ _ va 1 tab (st_ok _ _ (al_state _ _ _ _ _ _ Hal)))
    as [?|[? _]]; [lia|apply Hal|apply Hal|done|lia].
Qed.

(** A table of level [lv] is missing on the path of [va]. *)
Definition missing (root va : Z) (lv : nat) (w : world mem_state) : Z :=
  match walk (w_mem w) root (path_of lv va) with Some _ => 0 | None => 1 end.

Lemma missing_range root va lv w : 0 <= missing root va lv w <= 1.
Proof. unfold missing. destruct (walk _ _ _); lia. Qed.

Lemma path_of_ne va lv lv' : (1 <= lv <= 4)%nat → (1 <= lv' <= 4)%nat → lv ≠ lv' → path_of lv va ≠ path_of lv' va.
Proof.
  intros ?? Hne Heq%(f_equal length). destruct lv as [|[|[|[|[|]]]]], lv' as [|[|[|[|[|]]]]]; simpl in Heq; lia.
Qed.

(** [_map_page] with the exact number of frames it takes. *)
Lemma wp_map_page root va pa w (Q : unit → world mem_state → Prop) :
  pt_state root w → cnt w + missing root va 3 w + missing root va 2 w + missing root va 1 w <= _FRAME_CAP_BOOTSTRAP →
  (4096 | va) → (4096 | pa) → 0 <= pa <= VA_48_LOW_END → translate (w_mem w) root va = None →
  (∀ w', page_mapped root va pa 1 3 w w' →
    cnt w' = cnt w + missing root va 3 w + missing root va 2 w + missing root va 1 w →
    (∀ lv, (1 <= lv <= 3)%nat → missing root va lv w' = 0) → Q () w') →
  wp (_map_page root va pa) Q w.
Proof.
  intros Hst Hfree Hva Hpa Hrange Hno HQ.
  pose proof (missing_range root va 3 w) as R3. pose proof (missing_range root va 2 w) as R2.
  pose proof (missing_range root va 1 w) as R1.
  assert (∀ lv, walk (w_mem w) root (path_of lv va) = None → missing root va lv w = 1) as Hmiss.
  { intros lv Hn. unfold missing. by rewrite Hn. }
  unfold _map_page. apply wp_bind, wp_assert; [apply Z.eqb_eq, Z.mod_divide; done|].
  apply wp_bind, wp_assert; [apply Z.eqb_eq, Z.mod_divide; done|]. apply wp_bind.
  apply wp_loop_step. change (TAB_LEV_1 <? _TAB_LEV_HIGHEST) with true. cbv iota. apply wp_bind.
  pose proof (at_root root va w Hst Hno) as A4.
  apply (wp_next_level root va 4 root w); [apply A4|lia|intros Hn%Hmiss; simpl in Hn; lia|apply A4|apply A4|].
  intros t3 w3 S3. apply wp_ret.
  apply (at_level_step _ _ 4 _ _ _ _ _ ltac:(lia) A4) in S3 as A3. clear A4.
  pose proof (sp_cnt _ _ _ _ _ _ S3) as N3. change (match _ with Some _ => 0 | None => 1 end) with (missing root va 3 w) in N3.
  assert (∀ lv, (1 <= lv <= 2)%nat → walk (w_mem w3) root (path_of lv va) = walk (w_mem w) root (path_of lv va)) as E3.
  { intros lv Hlv. apply S3; [apply path_of_ok|apply path_of_ne; lia]. }
  apply wp_loop_step. change (TAB_LEV_1 <? _TAB_LEV_HIGHEST - 1) with true. cbv iota. apply wp_bind.
  apply (wp_next_level root va 3 t3 w3); [apply A3|lia| |apply A3|apply A3|].
  { change (3 - 1)%nat with 2%nat. rewrite E3 by lia. intros Hn%Hmiss. lia. }
  intros t2 w2 S2. apply wp_ret.
  apply (at_level_step _ _ 3 _ _ _ _ _ ltac:(lia) A3) in S2 as A2. clear A3.
  pose proof (sp_cnt _ _ _ _ _ _ S2) as N2. change (3 - 1)%nat with 2%nat in N2. rewrite E3 in N2 by lia.
  change (match _ with Some _ => 0 | None => 1 end) with (missing root va 2 w) in N2.
  assert (walk (w_mem w2) root (path_of 1 va) = walk (w_mem w) root (path_of 1 va)) as E2.
  { rewrite <-(E3 1%nat) by lia. apply S2; [apply path_of_ok|apply path_of_ne; lia]. }
  apply wp_loop_step. change (TAB_LEV_1 <? _TAB_LEV_HIGHEST - 1 - 1) with true. cbv iota. apply wp_bind.
  apply (wp_next_level root va 2 t2 w2); [apply A2|lia| |apply A2|apply A2|].
  { change (2 - 1)%nat with 1%nat. rewrite E2. intros Hn%Hmiss. lia. }
  intros t1 w1 S1. apply wp_ret.
  apply (at_level_step _ _ 2 _ _ _ _ _ ltac:(lia) A2) in S1 as A1. clear A2.
  pose proof (sp_cnt _ _ _ _ _ _ S1) as N1. change (2 - 1)%nat with 1%nat in N1. rewrite E2 in N1.
  change (match _ with Some _ => 0 | None => 1 end) with (missing root va 1 w) in N1.
  apply wp_loop_step. change (TAB_LEV_1 <? _TAB_LEV_HIGHEST - 1 - 1 - 1) with false. cbv iota. apply wp_ret.
  change (2 - 1)%nat with 1%nat in A1.
  apply wp_bind, wp_tab_entry_idx; [done|].
  rewrite (table_entry_small _ _ _ _ _ _ _ (st_ok _ _ (al_state _ _ _ _ _ _ A1)) (path_of_ok 1 va)
    (idx_range _ _) (al_walk _ _ _ _ _ _ A1)).
  pose proof (at_level_zero _ _ _ _ _ A1) as Hz.
  unfold _tab_entry_is_zero. apply wp_bind, wp_bind, wp_read, wp_ret. cbn [mem_of world_has_memory].
  change (load 8) with load64. unfold TAB_LEV_1. rewrite Hz. apply wp_bind, wp_assert; [done|].
  apply (wp_leaf root va pa 1 t1 w w1); [lia|done|done|done|done|]. intros w' Hm Hwk Hcw. apply HQ; [done|lia|].
  intros lv Hlv. unfold missing. rewrite Hwk by apply path_of_ok.
  assert (lv = 1 ∨ lv = 2 ∨ lv = 3)%nat as [->|[->| ->]] by lia.
  - by rewrite (al_walk _ _ _ _ _ _ A1).
  - rewrite (sp_other _ _ _ _ _ _ S1) by (apply path_of_ok || apply path_of_ne; lia).
    pose proof (sp_walk _ _ _ _ _ _ S2) as W. change (3 - 1)%nat with 2%nat in W. by rewrite W.
  - rewrite (sp_other _ _ _ _ _ _ S1) by (apply path_of_ok || apply path_of_ne; lia).
    rewrite (sp_other _ _ _ _ _ _ S2) by (apply path_of_ok || apply path_of_ne; lia).
    pose proof (sp_walk _ _ _ _ _ _ S3) as W. change (4 - 1)%nat with 3%nat in W. by rewrite W.
Qed.

(** Mapping an unmapped page.  When three frames are left, [_map_page]
    returns; afterwards the hardware walk sends every address of the page of
    [va] to the page [pa] and every other address where it went before, the
    tree of tables is well formed again, at most three frames were taken, and
    no byte outside the root and the frame pool changed. *)
Theorem map_page_ok (root va pa : Z) (w : world mem_state)
    (Hst : pt_state root w) (Hfree : cnt w + 3 <= _FRAME_CAP_BOOTSTRAP)
    (Hva : (4096 | va)) (Hpa : (4096 | pa)) (Hrange : 0 <= pa <= VA_48_LOW_END)
    (Hno : translate (w_mem w) root va = None) :
  wp (_map_page root va pa) (λ _ w', page_mapped root va pa 1 3 w w') w.
Proof.
  pose proof (missing_range root va 3 w). pose proof (missing_range root va 2 w).
  pose proof (missing_range root va 1 w). by apply wp_map_page; [..|lia| | | | |].
Qed.

(* ===================================================================== *)
(** ** The boot mapping *)

(** Tables needed for the first [k] large pages. *)
Definition tables_for (k : Z) : Z := (k + 262143) / 262144 + (k + 511) / 512.

Notation root := _tab_4_bootstrap.

(** The first [k] large pages are mapped at their own addresses. *)
Record boot_inv (w0 : world mem_state) (k : Z) (w : world mem_state) : Prop := {
  bi_state : pt_state root w;
  bi_static : w_st w = set_frame_count (cnt w) (w_st w0);
  bi_cnt : cnt w = cnt w0 + tables_for k;
  bi_tab_3 : ∀ a, index_ok a → walk (w_mem w) root [a] = None ↔ k <= a * 262144;
  bi_tab_2 : ∀ a b, index_ok a → index_ok b → walk (w_mem w) root [a; b] = None ↔ k <= (a * 512 + b) * 512;
  bi_tab_1 : ∀ q, path_ok q → length q = 3%nat → walk (w_mem w) root q = None;
  bi_translate : ∀ va, translate (w_mem w) root va =
    if decide (va `mod` 2 ^ 48 < k * PAGE_SIZE_2M) then Some (va `mod` 2 ^ 48) else None;
  bi_outside : ∀ a, a < root ∨ root + 4096 <= a → a < _frame_pool_bootstrap ∨ POOL_END <= a →
    load8 (w_mem w) a = load8 (w_mem w0) a;
}.

Lemma idx_large_page k : 0 <= k < 524288 →
  idx (k * PAGE_SIZE_2M) 4 = k / 262144 ∧ idx (k * PAGE_SIZE_2M) 3 = (k / 512) `mod` 512 ∧
  page_of 2 (k * PAGE_SIZE_2M) = k ∧ (k * PAGE_SIZE_2M) `mod` 2 ^ 48 = k * PAGE_SIZE_2M.
Proof.
  intros Hk. rewrite !idx_shift by lia. unfold page_of, page_span, PAGE_SIZE_2M.
  change (512 ^ (4 - 1)) with 134217728. change (512 ^ (3 - 1)) with 262144.
  change (2 ^ (12 + 9 * (2 - 1))) with 2097152. change (2 ^ (36 - 9 * (2 - 1))) with 134217728.
  change (2 ^ 48) with 281474976710656. zlia.
Qed.

Lemma page_of_2_mod va k : 0 <= k < 524288 → page_of 2 va = k ↔
  k * PAGE_SIZE_2M <= va `mod` 2 ^ 48 < (k + 1) * PAGE_SIZE_2M.
Proof.
  intros Hk. unfold page_of, page_span, PAGE_SIZE_2M.
  change (2 ^ (12 + 9 * (2 - 1))) with 2097152. change (2 ^ (36 - 9 * (2 - 1))) with 134217728.
  change (2 ^ 48) with 281474976710656. zlia.
Qed.

Lemma page_offset_2 va k : page_of 2 va = k →
  k * PAGE_SIZE_2M + va `mod` page_span 2 = va `mod` 2 ^ 48.
Proof.
  unfold page_of, page_span, PAGE_SIZE_2M. intros <-.
  change (2 ^ (12 + 9 * (2 - 1))) with 2097152. change (2 ^ (36 - 9 * (2 - 1))) with 134217728.
  change (2 ^ 48) with 281474976710656. zlia.
Qed.

Lemma tables_for_step k a b : 0 <= k < 524288 → a = k / 262144 → b = (k / 512) `mod` 512 →
  tables_for (k + 1) = tables_for k + (if bool_decide (k <= a * 262144) then 1 else 0)
    + (if bool_decide (k <= (a * 512 + b) * 512) then 1 else 0).
Proof.
  intros Hk -> ->. unfold tables_for.
  case_bool_decide; case_bool_decide; zlia.
Qed.

Lemma tables_for_bound k : 0 <= k <= 524288 → 0 <= tables_for k <= 1026.
Proof. unfold tables_for. zlia. Qed.

Lemma count_if (o : option Z) (P : Prop) `{Decision P} : (o = None ↔ P) →
  match o with Some _ => 0 | None => 1 end = if bool_decide P then 1 else 0.
Proof. destruct o; case_bool_decide; naive_solver. Qed.

(** The first two levels have been walked for large page [k], from [w] over
    [w3] to [w2]. *)
Record two_steps (k : Z) (t3 t2 : Z) (w w3 w2 : world mem_state) : Prop := {
  ts_third : stepped root (k * PAGE_SIZE_2M) 4 t3 w w3;
  ts_second : stepped root (k * PAGE_SIZE_2M) 3 t2 w3 w2;
  ts_level : at_level root (k * PAGE_SIZE_2M) 2 t2 w w2;
}.

Lemma two_steps_same k t3 t2 w w3 w2 q : two_steps k t3 t2 w w3 w2 → path_ok q →
  q ≠ [idx (k * PAGE_SIZE_2M) 4] → q ≠ [idx (k * PAGE_SIZE_2M) 4; idx (k * PAGE_SIZE_2M) 3] →
  walk (w_mem w2) root q = walk (w_mem w) root q.
Proof. intros [S3 S2 _] Hq N1 N2. rewrite (sp_other _ _ _ _ _ _ S2) by done. by apply S3. Qed.

Lemma two_steps_cnt w0 k t3 t2 w w3 w2 : 0 <= k < 524288 → boot_inv w0 k w → two_steps k t3 t2 w w3 w2 →
  cnt w2 = cnt w0 + tables_for (k + 1).
Proof.
  intros Hk Hi [S3 S2 _]. pose proof (idx_large_page k Hk) as (I4&I3&_).
  pose proof (idx_range (k * PAGE_SIZE_2M) 4) as Ha. pose proof (idx_range (k * PAGE_SIZE_2M) 3) as Hb.
  pose proof (tables_for_step k _ _ Hk I4 I3) as Hstep.
  pose proof (count_if _ _ (bi_tab_3 _ _ _ Hi _ Ha)) as C1. pose proof (count_if _ _ (bi_tab_2 _ _ _ Hi _ _ Ha Hb)) as C2.
  pose proof (sp_cnt _ _ _ _ _ _ S3) as N3. change (path_of (4 - 1) ?v) with [idx v 4] in N3. rewrite C1 in N3.
  pose proof (sp_cnt _ _ _ _ _ _ S2) as N2. change (path_of (3 - 1) ?v) with [idx v 4; idx v 3] in N2.
  rewrite (sp_other _ _ _ _ _ _ S3) in N2; [|split; [simpl; lia|auto]|done]. rewrite C2 in N2.
  rewrite N2, N3, (bi_cnt _ _ _ Hi), Hstep. lia.
Qed.

(** The entry of the page is still free. *)
Lemma two_steps_free w0 k t3 t2 w w3 w2 : boot_inv w0 k w → two_steps k t3 t2 w w3 w2 →
  load64 (w_mem w2) (t2 + 8 * idx (k * PAGE_SIZE_2M) 2) = 0.
Proof.
  intros Hi Hts. pose proof (ts_level _ _ _ _ _ _ Hts) as A2.
  destruct (unmapped_entry _ _ _ _ (k * PAGE_SIZE_2M) 2 t2 (st_ok _ _ (al_state _ _ _ _ _ _ A2)))
    as [?|(_&Hpr&Hhu)]; [lia|apply A2|apply A2|done|exfalso].
  assert (walk (w_mem w2) root (path_of 1 (k * PAGE_SIZE_2M)) = None) as Hw1.
  { rewrite (two_steps_same _ _ _ _ _ _ _ Hts) by (apply path_of_ok || done). apply Hi; [apply path_of_ok|done]. }
  rewrite (path_of_step 2) in Hw1 by lia. rewrite walk_pte in Hw1.
  rewrite (pte_walk _ _ _ _ _ (al_walk _ _ _ _ _ _ A2)) in Hw1. by rewrite Hpr, Hhu in Hw1.
Qed.

(** The invariant after the page was mapped. *)
Lemma boot_inv_step w0 k t3 t2 w w3 w2 w' : 0 <= k < 524288 → boot_inv w0 k w → two_steps k t3 t2 w w3 w2 →
  page_mapped root (k * PAGE_SIZE_2M) (k * PAGE_SIZE_2M) 2 2 w w' →
  (∀ q, path_ok q → walk (w_mem w') root q = walk (w_mem w2) root q) → cnt w' = cnt w2 → boot_inv w0 (k + 1) w'.
Proof.
  intros Hk Hi Hts Hm Hwk Hcw. pose proof (idx_large_page k Hk) as (I4&I3&Hpg&Hmod).
  pose proof (λ q, two_steps_same _ _ _ _ _ _ q Hts) as Hsame. pose proof (two_steps_cnt _ _ _ _ _ _ _ Hk Hi Hts) as Hcnt.
  destruct Hts as [S3 S2 _]. set (va := k * PAGE_SIZE_2M) in *. set (a := idx va 4) in *. set (b := idx va 3) in *.
  split.
  - apply Hm.
  - rewrite (pm_static _ _ _ _ _ _ _ Hm). rewrite (bi_static _ _ _ Hi) at 1. apply set_frame_count_twice.
  - by rewrite Hcw.
  - intros a' Ha'. rewrite Hwk by (split; [simpl; lia|auto]).
    destruct (decide (a' = a)) as [->|Hne].
    + rewrite (sp_other _ _ _ _ _ _ S2); [|split; [simpl; lia|auto]|done]. pose proof (sp_walk _ _ _ _ _ _ S3) as Hs.
      change (path_of (4 - 1) va) with [a] in Hs. rewrite Hs. split; [done|]. rewrite I4. zlia.
    + rewrite Hsame; [|split; [simpl; lia|auto]|congruence|done].
      rewrite (bi_tab_3 _ _ _ Hi a' Ha'). rewrite I4 in Hne. zlia.
  - intros a' b' Ha' Hb'. rewrite Hwk by (split; [simpl; lia|auto]).
    destruct (decide ((a', b') = (a, b))) as [[= -> ->]|Hne].
    + pose proof (sp_walk _ _ _ _ _ _ S2) as Hs. change (path_of (3 - 1) va) with [a; b] in Hs.
      rewrite Hs. split; [done|]. rewrite I4, I3. zlia.
    + rewrite Hsame; [|split; [simpl; lia|auto]|done|congruence].
      rewrite (bi_tab_2 _ _ _ Hi a' b' Ha' Hb').
      assert (a' * 512 + b' ≠ k / 512).
      { intros E. apply Hne. unfold index_ok in *. f_equal; [rewrite I4|rewrite I3]; zlia. }
      zlia.
  - intros q Hq Hl. rewrite Hwk by done. rewrite Hsame; [by apply Hi|done|..]; by intros ->.
  - intros va'. rewrite (pm_translate _ _ _ _ _ _ _ Hm), (bi_translate _ _ _ Hi).
    change (Z.of_nat 2) with 2. rewrite Hpg. pose proof (page_of_2_mod va' k Hk) as Hiff.
    destruct (decide (page_of 2 va' = k)) as [Heq|Hne].
    + subst va. rewrite (page_offset_2 _ _ Heq). apply Hiff in Heq. by rewrite decide_True by lia.
    + destruct (decide (va' `mod` 2 ^ 48 < k * PAGE_SIZE_2M)).
      * by rewrite decide_True by (unfold PAGE_SIZE_2M in *; lia).
      * rewrite decide_False; [done|]. intros Hlt. apply Hne, Hiff. lia.
  - intros x Hx1 Hx2. rewrite (pm_outside _ _ _ _ _ _ _ Hm) by done. by apply Hi.
Qed.

Lemma wp_map_bootstrap w0 k w : 0 <= k < 524288 → cnt w0 + 1026 <= _FRAME_CAP_BOOTSTRAP →
  0 <= cnt w0 → boot_inv w0 k w →
  wp (_map_bootstrap root (k * PAGE_SIZE_2M) (k * PAGE_SIZE_2M)) (λ ok w', ok = true ∧ boot_inv w0 (k + 1) w') w.
Proof.
  intros Hk Hfree H00 Hi. pose proof (idx_large_page k Hk) as (I4&I3&Hpg&Hmod).
  pose proof (bi_cnt _ _ _ Hi) as Hc. pose proof (tables_for_bound (k + 1) ltac:(lia)) as Hb1.
  pose proof (tables_for_step k _ _ Hk I4 I3) as Hstep.
  set (va := k * PAGE_SIZE_2M) in *. set (a := idx va 4) in *. set (b := idx va 3) in *.
  assert (index_ok a ∧ index_ok b) as [Ha Hb] by (split; apply idx_range).
  assert (path_ok [a; b]) as Hp2 by apply (path_of_ok 2 va).
  assert (translate (w_mem w) root va = None) as Hno.
  { rewrite (bi_translate _ _ _ Hi), Hmod. by rewrite decide_False by lia. }
  unfold _map_bootstrap. assert (mem_align_check va PAGE_SIZE_2M = true) as Hal by (apply Z.eqb_eq, Z_mod_mult).
  apply wp_bind, wp_assert; [done|]. apply wp_bind, wp_assert; [done|]. apply wp_bind.
  pose proof (at_root root va w (bi_state _ _ _ Hi) Hno) as A4.
  pose proof (count_if _ _ (bi_tab_3 _ _ _ Hi a Ha)) as C1.
  apply wp_loop_step. change (TAB_LEV_2 <? _TAB_LEV_HIGHEST) with true. cbv iota. apply wp_bind.
  eapply wp_mono; [eapply (wp_next_level root va 4 root w (λ t w', stepped root va 4 t w w'));
    [apply A4|lia|intros Hnone%(bi_tab_3 _ _ _ Hi a Ha); rewrite (bool_decide_true _ Hnone) in Hstep; repeat case_bool_decide; lia|apply A4|apply A4|done]|].
  intros [t3|] w3; [intros S3; apply wp_ret|done].
  apply (at_level_step _ _ 4 _ _ _ _ _ ltac:(lia) A4) in S3 as A3.
  pose proof (sp_cnt _ _ _ _ _ _ S3) as N3. change (path_of (4 - 1) va) with [a] in N3. rewrite C1 in N3.
  assert (walk (w_mem w3) root [a; b] = walk (w_mem w) root [a; b]) as E2 by (by apply S3).
  apply wp_loop_step. change (TAB_LEV_2 <? _TAB_LEV_HIGHEST - 1) with true. cbv iota. apply wp_bind.
  eapply wp_mono; [eapply (wp_next_level root va 3 t3 w3 (λ t w', stepped root va 3 t w3 w'));
    [apply A3|lia|intros Hnone; change (path_of (3 - 1) va) with [a; b] in Hnone; rewrite E2 in Hnone; apply (bi_tab_2 _ _ _ Hi a b Ha Hb) in Hnone; rewrite (bool_decide_true _ Hnone) in Hstep; repeat case_bool_decide; lia|apply A3|apply A3|done]|].
  intros [t2|] w2; [intros S2; apply wp_ret|done].
  apply (at_level_step _ _ 3 _ _ _ _ _ ltac:(lia) A3) in S2 as A2.
  pose proof (Build_two_steps k t3 t2 w w3 w2 S3 S2 A2) as Hts.
  apply wp_loop_step. change (TAB_LEV_2 <? _TAB_LEV_HIGHEST - 1 - 1) with false. cbv iota. apply wp_ret.
  apply wp_bind, wp_tab_entry_idx; [done|].
  rewrite (table_entry_small _ _ _ _ _ _ _ (st_ok _ _ (al_state _ _ _ _ _ _ A2)) (path_of_ok 2 va)
    (idx_range _ _) (al_walk _ _ _ _ _ _ A2)).
  pose proof (two_steps_free _ _ _ _ _ _ _ Hi Hts) as Hz. fold va in Hz.
  unfold _tab_entry_is_zero. apply wp_bind, wp_bind, wp_read, wp_ret. cbn [mem_of world_has_memory].
  change (load 8) with load64. unfold TAB_LEV_2. rewrite Hz. apply wp_bind, wp_assert; [done|].
  apply wp_bind. apply (wp_leaf root va va 2 t2 w w2); [lia|done|done| |by exists k|].
  { unfold VA_48_LOW_END, PAGE_SIZE_2M in *. subst va. lia. }
  intros w' Hm Hwk Hcw. apply wp_ret. split; [done|]. by apply (boot_inv_step w0 k t3 t2 w w3 w2 w').
Qed.

Lemma boot_inv_zero w m : boot_stage (w_st w) < MEM_BOOTSTRAP_STAGE_FINISH →
  link_ok → cnt w = 0 → (∀ j, index_ok j → load64 m (root + 8 * j) = 0) →
  (∀ a, a < root ∨ root + 4096 <= a → load8 m a = load8 (w_mem w) a) → boot_inv w 0 (World m (w_st w)).
Proof.
  intros Hstage Hlk Hcnt Hz Hout. destruct Hlk as [(Hp1&Hp2&Hp3) (Hr1&Hr2&Hr3&Hr4) _].
  unfold POOL_END, PA_LIMIT, _FRAME_CAP_BOOTSTRAP in *.
  destruct (pt_ok_empty m root _frame_pool_bootstrap) as [Hok Hno];
    [done|done|unfold PA_LIMIT; lia|done|unfold PA_LIMIT; lia|lia|done|].
  assert (∀ a q, index_ok a → walk m root (a :: q) = None) as Hw.
  { intros a q Ha. simpl. unfold next_table. by rewrite Hz. }
  split; try change (cnt (World _ (w_st w))) with (cnt w); cbn [w_mem w_st].
  - split; try change (cnt (World _ (w_st w))) with (cnt w); rewrite ?Hcnt; cbn [w_mem w_st];
      unfold POOL_END, PA_LIMIT, _FRAME_CAP_BOOTSTRAP; [done|lia|lia|lia|].
    by rewrite Z.add_0_r.
  - unfold cnt. by rewrite set_frame_count_id.
  - rewrite Hcnt. done.
  - intros a Ha. rewrite Hw by done. unfold index_ok in Ha. split; [lia|done].
  - intros a b Ha Hb. rewrite Hw by done. unfold index_ok in *. split; [lia|done].
  - intros [|a q] [_ Hq] Hl; [done|]. apply Hw. by apply list.Forall_cons in Hq as [? _].
  - intros va. rewrite Hno, decide_False; [done|]. pose proof (Z.mod_pos_bound va (2 ^ 48)). lia.
  - intros a Ha _. by apply Hout.
Qed.

Lemma zeroed_table m t : (∀ j, index_ok j → load64 (fill 4096 t 0 m) (t + 8 * j) = 0) ∧
  (∀ a, a < t ∨ t + 4096 <= a → load8 (fill 4096 t 0 m) a = load8 m a).
Proof.
  split.
  - intros j Hj. unfold index_ok in Hj. apply (load_fill_zero 8); lia.
  - intros a Ha. rewrite load8_fill, decide_False by lia. done.
Qed.

(** The physical memory that boot information describes: the kernel image lies
    inside the available sections. *)
Record boot_info_ok (s : mem_state) : Prop := {
  bo_stage : boot_stage s = MEM_BOOTSTRAP_STAGE_0;
  bo_cnt : 0 < _sec_cnt s <= Z.of_nat (length (_sections s));
  bo_kern : sec_base (nth 0 (_sections s) inhabitant) < _kern_start_pa s < _kern_end_pa s;
  bo_end : let last := nth (Z.to_nat (_sec_cnt s - 1)) (_sections s) inhabitant in
    _kern_end_pa s < (sec_base last + sec_len last)%u64;
}.

Lemma array_get_nth {S A} `{Inhabited A} (l : list A) i (Q : A → S → Prop) s :
  0 <= i < Z.of_nat (length l) → Q (nth (Z.to_nat i) l inhabitant) s → wp (array_get l i) Q s.
Proof.
  intros Hi HQ. eapply wp_array_get; [lia| |done].
  destruct (nth_lookup_or_length l (Z.to_nat i) inhabitant); [done|lia].
Qed.

(** The first stage has been reached: the tables of the identity mapping stand
    in the first frames of the pool. *)
Record boot_1_mapped (w w' : world mem_state) : Prop := {
  b1_static : w_st w' = set_cr3 root (set_frame_count 1026 (w_st w));
  b1_state : pt_state root w';
  b1_translate : ∀ va, translate (w_mem w') root va =
    if decide (va `mod` 2 ^ 48 < pa_max - PAGE_SIZE_2M) then Some (va `mod` 2 ^ 48) else None;
  b1_outside : ∀ a, a < root ∨ root + 4096 <= a → a < _frame_pool_bootstrap ∨ POOL_END <= a →
    load8 (w_mem w') a = load8 (w_mem w) a;
}.

Lemma wp_page_bootstrap_1 (w : world mem_state) : link_ok → boot_info_ok (w_st w) → cnt w = 0 →
  wp mem_page_bootstrap_1 (λ _ w', boot_1_mapped w w') w.
Proof.
  intros Hlk Hbi Hcnt.
  destruct Hbi as [Hs Hn Hk He]. cbv zeta in He. pose proof Hlk as [_ (Hr1&Hr2&Hr3&_) _]. unfold PA_LIMIT in Hr3.
  unfold mem_page_bootstrap_1, mem_pa_start, mem_pa_end, mem_pa_ker_start, mem_pa_ker_end.
  apply wp_bind, wp_static, wp_bind, wp_assert; [bsimp; done|].
  apply wp_bind, wp_bind, wp_static, wp_bind, wp_assert; [bsimp; lia|].
  apply wp_bind, wp_static, wp_bind, array_get_nth; [lia|]. apply wp_ret.
  apply wp_bind, wp_bind, wp_static, wp_bind, wp_assert; [bsimp; lia|].
  apply wp_bind, wp_static, wp_bind, array_get_nth; [lia|]. apply wp_ret.
  apply wp_bind, wp_static, wp_bind, wp_static.
  apply wp_bind, wp_assert; [bsimp; apply Hk|]. apply wp_bind, wp_assert; [bsimp; apply Hk|].
  apply wp_bind, wp_assert; [bsimp; apply He|].
  apply wp_bind. unfold _tab_zero. change (_TAB_ENTRY_LEN * _TAB_ENTRY_COUNT) with 4096.
  apply wp_mem_clean; [lia..|]. cbn [mem_of set_mem world_has_memory].
  apply wp_bind.
  eapply (wp_loop (λ va w', ∃ k, va = k * PAGE_SIZE_2M ∧ 0 <= k <= 524287 ∧ boot_inv w k w')
    (λ va, Z.to_nat (524287 - va / PAGE_SIZE_2M))).
  - exists 0. split; [done|]. split; [lia|]. destruct (zeroed_table (w_mem w) root) as [Z1 Z2].
    apply boot_inv_zero; [by rewrite Hs|done|done|exact Z1|exact Z2].
  - unfold boot_fuel, pa_max, PAGE_SIZE_2M. apply Z2Nat.inj_lt; [done|done|]. reflexivity.
  - intros va w1 (k&->&Hk1&Hi).
    assert ((Z.mul k PAGE_SIZE_2M + PAGE_SIZE_2M)%u64 = (k + 1) * PAGE_SIZE_2M) as ->.
    { unfold PAGE_SIZE_2M. u64_unfold. rewrite u64_small by lia. lia. }
    change pa_max with (524288 * PAGE_SIZE_2M).
    destruct (decide (k < 524287)) as [Hlt|Hge].
    + rewrite (proj2 (Z.ltb_lt _ _)) by (unfold PAGE_SIZE_2M; lia).
      apply wp_bind. eapply wp_mono; [apply (wp_map_bootstrap w k w1); [lia|rewrite Hcnt; done|lia|done]|].
      intros ok w2 [-> Hi2]. apply wp_bind, wp_assert; [done|]. apply wp_ret. split.
      * exists (k + 1). split; [done|]. split; [lia|done].
      * rewrite !Z_div_mult by done. lia.
    + rewrite (proj2 (Z.ltb_ge _ _)) by (unfold PAGE_SIZE_2M; lia). apply wp_ret.
      assert (k = 524287) as -> by lia.
      unfold _tab_load_root. apply wp_bind, wp_assert; [by apply Z.eqb_eq, Z.mod_divide|].
      unfold cpu_write_cr3. apply wp_static_set.
      assert ((root & 0x000ffffffffff000)%u64 = root) as Hmask.
      { pose proof (entry_frame_eq root 0) as E. rewrite Z.add_0_r in E. apply E; done || lia. }
      rewrite Hmask. cbn [w_mem w_st].
      assert (cnt w1 = 1026) as Hc1 by (by rewrite (bi_cnt _ _ _ Hi), Hcnt). split; cbn [w_mem w_st].
      * by rewrite (bi_static _ _ _ Hi), Hc1.
      * destruct (bi_state _ _ _ Hi) as [? ? ? ? ?]. by split.
      * intros va. rewrite (bi_translate _ _ _ Hi). done.
      * apply Hi.
Qed.

(** C14: the boot mapping.  With the pool of bootstrap frames empty, building
    the tables of the first stage needs 1,026 of its 16,384 frames and
    returns; then CR3 holds a well-formed tree that maps every address below
    1 TB - 2 MB to itself and maps nothing else. *)
Theorem mem_page_bootstrap_1_ok (w : world mem_state)
    (Hlk : link_ok) (Hbi : boot_info_ok (w_st w)) (Hcnt : cnt w = 0) :
  wp mem_page_bootstrap_1 (λ _ w',
    cr3 (w_st w') = root ∧ cnt w' = 1026 ∧ pt_state root w' ∧
    (∀ va, translate (w_mem w') (cr3 (w_st w')) va =
      if decide (va `mod` 2 ^ 48 < pa_max - PAGE_SIZE_2M) then Some (va `mod` 2 ^ 48) else None) ∧
    (∀ a, a < root ∨ root + 4096 <= a → a < _frame_pool_bootstrap ∨ POOL_END <= a →
      load8 (w_mem w') a = load8 (w_mem w) a)) w.
Proof.
  eapply wp_mono; [by apply wp_page_bootstrap_1|]. intros _ w' [Hst Hpt Htr Hout]. unfold cnt. rewrite Hst. by split_and!.
Qed.

End page.

(* ===================================================================== *)
(** ** A sample machine *)

Definition sample_mem : mem_state :=
  MemState MEM_BOOTSTRAP_STAGE_0 [Section_t 0x1000 0x7fff0000] 1 0x7fff0000 0x100000 0x4500000 0 0x203000 0 0 0
    Pcie.pcie_initial (Vesa.Vesa 0xfd000000 1024 768 4).
Definition sample_world : world mem_state := World ∅ sample_mem.

Lemma sample_link_ok : @link_ok sample_link.
Proof.
  split; unfold POOL_END, _FRAME_CAP_BOOTSTRAP, PA_LIMIT; cbn [sample_link _frame_pool_bootstrap _tab_4_bootstrap _tab_4].
  - split; [by exists 1024|lia].
  - split; [by exists 513|lia].
  - split; [by exists 514|lia].
Qed.

Lemma sample_boot_inv : @boot_inv sample_link sample_world 0 sample_world.
Proof.
  apply (@boot_inv_zero sample_link sample_world ∅); [done|apply sample_link_ok|done|done|done].
Qed.

Lemma map_page_ok_witness :
  @pt_state sample_link 0x201000 sample_world ∧
  wp (@_map_page sample_link 0x201000 0x5000 0x9000)
    (λ _ w', @page_mapped sample_link 0x201000 0x5000 0x9000 1 3 sample_world w') sample_world.
Proof.
  split; [apply sample_boot_inv|].
  refine (@map_page_ok sample_link 0x201000 0x5000 0x9000 sample_world _ _ _ _ _ _).
  - apply sample_boot_inv.
  - done.
  - by exists 5.
  - by exists 9.
  - done.
  - rewrite (@bi_translate sample_link _ _ _ sample_boot_inv). done.
Defined.

Lemma mem_page_bootstrap_1_ok_witness :
  boot_info_ok sample_mem ∧
  wp (@mem_page_bootstrap_1 sample_link) (λ _ w',
    cr3 (w_st w') = 0x201000 ∧ cnt w' = 1026 ∧ @pt_state sample_link 0x201000 w' ∧
    (∀ va, translate (w_mem w') (cr3 (w_st w')) va =
      if decide (va `mod` 2 ^ 48 < pa_max - PAGE_SIZE_2M) then Some (va `mod` 2 ^ 48) else None) ∧
    (∀ a, a < 0x201000 ∨ 0x201000 + 4096 <= a → a < 0x400000 ∨ @POOL_END sample_link <= a →
      load8 (w_mem w') a = load8 ∅ a)) sample_world.
Proof.
  assert (boot_info_ok sample_mem) as Hb by (by split).
  split; [done|]. exact (@mem_page_bootstrap_1_ok sample_link sample_world sample_link_ok Hb eq_refl).
Defined.
