(* ===== verification/MemMap.v ===== *)
(** Mapping lists of physical ranges: the properties of [_map_impl],
    [mem_page_map] and [mem_page_bootstrap_2] of src/mem/mem_page.c, and the
    number of page table frames a contiguous mapping takes. *)
From S2P Require Import Prelude Memory Util MmCore Mmu.
From S2P Require Import MemFrame MemPage Vesa.

Section map.
Context `{Link}.

(* ===================================================================== *)
(** ** Lists of ranges in memory *)

(** A list of ranges is a list of (start, page count). *)
Definition total_pages (l : list (Z * Z)) : Z := foldr (λ r acc, snd r + acc) 0 l.

(** The pages a list of ranges stands for, in order. *)
Definition range_pages (r : Z * Z) : list Z := (λ j, fst r + 4096 * j) <$> seqZ 0 (snd r).
Definition pages (l : list (Z * Z)) : list Z := l ≫= range_pages.

(** The list at [p], with its arrays, inside the bytes [lo, hi). *)
Record pa_list_at (m : memory) (lo hi p : Z) (l : list (Z * Z)) : Prop := {
  pl_n : load64 m p = Z.of_nat (length l);
  pl_bounds : 0 <= lo <= p ∧ p + 24 <= hi ∧ hi <= 18446744073709551616;
  pl_pas : lo <= load64 m (p + 8) ∧ load64 m (p + 8) + 8 * Z.of_nat (length l) <= hi;
  pl_pgs : lo <= load64 m (p + 16) ∧ load64 m (p + 16) + 8 * Z.of_nat (length l) <= hi;
  pl_get : ∀ i r, l !! i = Some r →
    load64 m (load64 m (p + 8) + 8 * Z.of_nat i) = fst r ∧
    load64 m (load64 m (p + 16) + 8 * Z.of_nat i) = snd r;
}.

Lemma pa_list_at_agree m m' lo hi p l :
  agree lo hi m m' → pa_list_at m lo hi p l → pa_list_at m' lo hi p l.
Proof.
  intros Hag [Hn Hb Hpa Hpg Hget].
  assert (∀ a, lo <= a → a + 8 <= hi → load64 m' a = load64 m a) as Hl.
  { intros a Ha Hb'. symmetry. apply (load_agree 8). eapply agree_weaken; [done|lia..]. }
  split; rewrite ?(Hl p), ?(Hl (p + 8)), ?(Hl (p + 16)) by lia; try done.
  intros i r Hi. pose proof (lookup_lt_Some _ _ _ Hi).
  rewrite !Hl by lia. by apply Hget.
Qed.

Lemma total_pages_nonneg l : Forall (λ r, 0 <= snd r) l → 0 <= total_pages l.
Proof. induction 1; simpl; lia. Qed.

Lemma total_pages_app l1 l2 : total_pages (l1 ++ l2) = total_pages l1 + total_pages l2.
Proof. induction l1; simpl; lia. Qed.

Lemma length_range_pages r : 0 <= snd r → Z.of_nat (length (range_pages r)) = snd r.
Proof. intros Hr. unfold range_pages. rewrite length_fmap, length_seqZ. lia. Qed.

Lemma length_pages l : Forall (λ r, 0 <= snd r) l → Z.of_nat (length (pages l)) = total_pages l.
Proof.
  unfold pages. induction 1 as [|r l Hr Hl IH]; [done|]. cbn [mbind list_bind total_pages foldr].
  rewrite length_app, Nat2Z.inj_add, length_range_pages by done. by rewrite IH.
Qed.

(** Page [pa_page] of range [pa_idx]. *)
Lemma pages_lookup l k r j : Forall (λ r, 0 <= snd r) l → l !! k = Some r → 0 <= j < snd r →
  pages l !! Z.to_nat (total_pages (take k l) + j) = Some (fst r + 4096 * j).
Proof.
  intros Hl Hk Hj.
  rewrite <-(take_drop_middle l k r Hk) at 2. unfold pages. rewrite bind_app.
  assert (Forall (λ r, 0 <= snd r) (take k l)) as Ht by (by apply Forall_take).
  pose proof (total_pages_nonneg _ Ht). fold (pages (take k l)).
  pose proof (length_pages _ Ht) as Hlen.
  rewrite lookup_app_r by lia. cbn [mbind list_bind].
  replace (Z.to_nat (total_pages (take k l) + j) - length (pages (take k l)))%nat with (Z.to_nat j) by lia.
  pose proof (length_range_pages r ltac:(lia)). rewrite lookup_app_l by lia.
  unfold range_pages. rewrite list_lookup_fmap, lookup_seqZ_lt by lia. simpl. f_equal. lia.
Qed.

Lemma total_pages_take_S l k r : l !! k = Some r → total_pages (take (S k) l) = total_pages (take k l) + snd r.
Proof. intros Hk. rewrite (take_S_r _ _ _ Hk), total_pages_app. simpl. lia. Qed.

Lemma total_pages_take_le l k : Forall (λ r, 0 <= snd r) l → total_pages (take k l) <= total_pages l.
Proof.
  intros Hl. rewrite <-(take_drop k l) at 2. rewrite total_pages_app.
  pose proof (total_pages_nonneg (drop k l) (Forall_drop _ _ _ Hl)). lia.
Qed.

Lemma total_pages_small l r k : Forall (λ r, 0 <= snd r) l → l !! k = Some r → snd r <= total_pages l.
Proof.
  intros Hl Hk. pose proof (total_pages_take_le l (S k) Hl). rewrite (total_pages_take_S _ _ _ Hk) in *.
  pose proof (total_pages_nonneg (take k l) (Forall_take _ _ _ Hl)). lia.
Qed.

(* ===================================================================== *)
(** ** The operations on lists *)

Section ops.
Context {m : memory} {lo hi p : Z} {l : list (Z * Z)} (Hl : pa_list_at m lo hi p l).
Context (w : world mem_state) (Hm : w_mem w = m).

Lemma list_count_small : Z.of_nat (length l) < 18446744073709551616.
Proof. rewrite <-(pl_n _ _ _ _ _ Hl). apply load64_range. Qed.

Lemma list_slot_small i : (i < length l)%nat →
  (load64 m (p + 8) + 8 * Z.of_nat i)%u64 = load64 m (p + 8) + 8 * Z.of_nat i ∧
  (load64 m (p + 16) + 8 * Z.of_nat i)%u64 = load64 m (p + 16) + 8 * Z.of_nat i ∧
  (p + 8)%u64 = p + 8 ∧ (p + 16)%u64 = p + 16.
Proof.
  intros Hi. pose proof (pl_bounds _ _ _ _ _ Hl). pose proof (pl_pas _ _ _ _ _ Hl). pose proof (pl_pgs _ _ _ _ _ Hl).
  u64_unfold. rewrite (u64_small (8 * Z.of_nat i)) by lia. by rewrite !u64_small by lia.
Qed.

Lemma wp_pa_list_n_range (Q : Z → world mem_state → Prop) :
  l ≠ [] → Q (Z.of_nat (length l)) w → wp (pa_list_n_range p) Q w.
Proof.
  intros Hne HQ. unfold pa_list_n_range. apply wp_bind, wp_read. cbn [mem_of world_has_memory].
  rewrite Hm. change (load 8) with load64. rewrite (pl_n _ _ _ _ _ Hl).
  apply wp_bind, wp_assert; [destruct l; [done|bsimp; simpl; lia]|]. by apply wp_ret.
Qed.

Lemma wp_pa_list_range_n_page i r (Q : Z → world mem_state → Prop) :
  l !! i = Some r → Q (snd r) w → wp (pa_list_range_n_page p (Z.of_nat i)) Q w.
Proof.
  intros Hi HQ. pose proof (lookup_lt_Some _ _ _ Hi) as Hlt. destruct (list_slot_small i Hlt) as (E1&E2&E3&E4).
  unfold pa_list_range_n_page. apply wp_bind, wp_read. cbn [mem_of world_has_memory].
  rewrite Hm. change (load 8) with load64. rewrite (pl_n _ _ _ _ _ Hl).
  apply wp_bind, wp_assert; [bsimp; lia|]. apply wp_bind, wp_read. cbn [mem_of world_has_memory].
  rewrite Hm, E4. change (load 8) with load64. apply wp_read. cbn [mem_of world_has_memory].
  rewrite E2, Hm. change (load 8) with load64. by rewrite (proj2 (pl_get _ _ _ _ _ Hl i r Hi)).
Qed.

Lemma wp_pa_list_range_pa i r (Q : Z → world mem_state → Prop) :
  l !! i = Some r → (4096 | fst r) → Q (fst r) w → wp (pa_list_range_pa p (Z.of_nat i)) Q w.
Proof.
  intros Hi Hd HQ. pose proof (lookup_lt_Some _ _ _ Hi) as Hlt. destruct (list_slot_small i Hlt) as (E1&E2&E3&E4).
  unfold pa_list_range_pa. apply wp_bind, wp_read. cbn [mem_of world_has_memory].
  rewrite Hm. change (load 8) with load64. rewrite (pl_n _ _ _ _ _ Hl).
  apply wp_bind, wp_assert; [bsimp; lia|]. apply wp_bind, wp_read. cbn [mem_of world_has_memory].
  rewrite Hm, E3. change (load 8) with load64. apply wp_bind, wp_read. cbn [mem_of world_has_memory].
  rewrite E1, Hm. change (load 8) with load64. rewrite (proj1 (pl_get _ _ _ _ _ Hl i r Hi)).
  apply wp_bind, wp_assert; [by apply Z.eqb_eq, Z.mod_divide|]. by apply wp_ret.
Qed.

Lemma wp_pa_list_n_page (Q : Z → world mem_state → Prop) :
  Forall (λ r, 0 <= snd r) l → total_pages l < 18446744073709551616 →
  Q (total_pages l) w → wp (pa_list_n_page p) Q w.
Proof.
  intros Hpos Htot HQ. unfold pa_list_n_page. apply wp_bind, wp_read. cbn [mem_of world_has_memory].
  rewrite Hm. change (load 8) with load64. rewrite (pl_n _ _ _ _ _ Hl), Nat2Z.id.
  eapply (wp_loop (λ '(i, acc) w', w' = w ∧ ∃ k, i = Z.of_nat k ∧ (k <= length l)%nat ∧ acc = total_pages (take k l))
    (λ '(i, acc), (length l - Z.to_nat i)%nat)).
  - split; [done|]. exists O. split; [done|]. split; [lia|done].
  - lia.
  - intros [i acc] w' (->&k&->&Hk&->). destruct (decide (k < length l)%nat) as [Hlt|Hge].
    + rewrite (proj2 (Z.ltb_lt _ _)) by lia.
      destruct (lookup_lt_is_Some_2 l k Hlt) as [r Hr]. destruct (list_slot_small k Hlt) as (E1&E2&E3&E4).
      apply wp_bind, wp_read. cbn [mem_of world_has_memory]. rewrite Hm, E4. change (load 8) with load64.
      apply wp_bind, wp_read. cbn [mem_of world_has_memory]. rewrite Hm, E2. change (load 8) with load64.
      rewrite (proj2 (pl_get _ _ _ _ _ Hl k r Hr)). apply wp_ret. split; [split; [done|]|lia].
      exists (S k). split; [lia|]. split; [lia|]. rewrite (total_pages_take_S _ _ _ Hr).
      unfold uadd. apply u64_small. rewrite <-(total_pages_take_S _ _ _ Hr).
      pose proof (total_pages_take_le l (S k) Hpos).
      pose proof (total_pages_nonneg (take (S k) l) (Forall_take _ _ _ Hpos)). lia.
    + rewrite (proj2 (Z.ltb_ge _ _)) by lia. apply wp_ret. rewrite take_ge by lia. done.
Qed.
End ops.

(* ===================================================================== *)
(** ** Mapping a list *)

(** The translation [T] with the pages [ps] mapped from the page of [va] on. *)
Definition range_translate (T : Z → option Z) (va : Z) (ps : list Z) (va' : Z) : option Z :=
  match ps !! Z.to_nat ((va' / 4096 - va / 4096) `mod` 2 ^ 36) with
  | Some pa => Some (pa + va' `mod` 4096)
  | None => T va'
  end.

(** Tables of level [lv] on the paths of [n] pages from [va] on. *)
Definition touched (lv va n : Z) : Z :=
  if n <=? 0 then 0 else (va / 4096 + n - 1) / 512 ^ lv - va / 4096 / 512 ^ lv + 1.
Definition tables_needed (va n : Z) : Z := touched 3 va n + touched 2 va n + touched 1 va n.

Definition range_ok (r : Z * Z) : Prop :=
  (4096 | fst r) ∧ 0 <= fst r ∧ 0 <= snd r ∧ fst r + 4096 * snd r <= PA_LIMIT.

Lemma range_ok_counts l : Forall range_ok l → Forall (λ r, 0 <= snd r) l.
Proof. intros Hl. eapply list.Forall_impl; [exact Hl|]. by intros r (?&?&?&?). Qed.

Lemma path_of_shift lv va va' : (1 <= lv <= 3)%nat →
  va / 4096 / 512 ^ Z.of_nat lv = va' / 4096 / 512 ^ Z.of_nat lv → path_of lv va = path_of lv va'.
Proof.
  intros Hlv Heq.
  assert (∀ k, Z.of_nat lv < k → idx va k = idx va' k) as Hidx.
  { intros k Hk. rewrite !idx_shift by lia.
    replace (k - 1) with (Z.of_nat lv + (k - 1 - Z.of_nat lv)) by lia.
    rewrite Z.pow_add_r by lia. rewrite <-!Z.div_div by (apply Z.pow_nonzero || apply Z.pow_pos_nonneg; lia).
    by rewrite Heq. }
  assert (lv = 1 ∨ lv = 2 ∨ lv = 3)%nat as [->|[->| ->]] by lia; cbn [path_of];
    rewrite ?(Hidx 4), ?(Hidx 3), ?(Hidx 2) by lia; done.
Qed.

Lemma touched_step (lv : nat) root va n w : (1 <= lv <= 3)%nat → 0 <= n → (4096 | va) →
  (0 < n → missing root (va + 4096 * (n - 1)) lv w = 0) →
  touched (Z.of_nat lv) va n + missing root (va + 4096 * n) lv w <= touched (Z.of_nat lv) va (n + 1).
Proof.
  intros Hlv Hn [v ->] Hprev. pose proof (missing_range root (v * 4096 + 4096 * n) lv w).
  unfold touched. rewrite (proj2 (Z.leb_gt (n + 1) 0)) by lia. rewrite Z_div_mult by lia.
  replace (v + (n + 1) - 1) with (v + n) by lia.
  assert (0 < 512 ^ Z.of_nat lv) as HR by (apply Z.pow_pos_nonneg; lia).
  destruct (Z.leb_spec n 0) as [H0'|H0'].
  - assert (n = 0) as -> by lia. replace (v + 0) with v by lia. lia.
  - destruct (decide ((v + n - 1) / 512 ^ Z.of_nat lv = (v + n) / 512 ^ Z.of_nat lv)) as [Heq|Hne].
    + rewrite <-Heq. enough (missing root (v * 4096 + 4096 * n) lv w = 0) by lia.
      rewrite <-Hprev by done. unfold missing. rewrite (path_of_shift lv (v * 4096 + 4096 * n) (v * 4096 + 4096 * (n - 1))); [done|done|].
      replace (v * 4096 + 4096 * n) with ((v + n) * 4096) by lia.
      replace (v * 4096 + 4096 * (n - 1)) with ((v + n - 1) * 4096) by lia.
      rewrite !Z_div_mult by lia. done.
    + pose proof (Z.div_le_mono (v + n - 1) (v + n) (512 ^ Z.of_nat lv) HR ltac:(lia)). lia.
Qed.

Lemma touched_mono lv va a b : 0 <= lv → 0 <= a <= b → touched lv va a <= touched lv va b.
Proof.
  intros Hlv Hab. assert (0 < 512 ^ lv) as HR by (apply Z.pow_pos_nonneg; lia). unfold touched.
  destruct (Z.leb_spec a 0), (Z.leb_spec b 0); try lia.
  - pose proof (Z.div_le_mono (va / 4096) (va / 4096 + b - 1) (512 ^ lv) HR ltac:(lia)). lia.
  - pose proof (Z.div_le_mono (va / 4096 + a - 1) (va / 4096 + b - 1) (512 ^ lv) HR ltac:(lia)). lia.
Qed.

Lemma tables_needed_mono va a b : 0 <= a <= b → tables_needed va a <= tables_needed va b.
Proof.
  intros Hab. unfold tables_needed. pose proof (touched_mono 3 va a b). pose proof (touched_mono 2 va a b).
  pose proof (touched_mono 1 va a b). lia.
Qed.

Lemma tables_needed_nonneg va n : 0 <= n → 0 <= tables_needed va n.
Proof. intros Hn. pose proof (tables_needed_mono va 0 n ltac:(lia)) as H'. exact H'. Qed.

(** One more page in [range_translate]. *)
Lemma range_translate_snoc (T : Z → option Z) va ps pa va' : Z.of_nat (length ps) < 2 ^ 36 → (4096 | va) →
  range_translate T va (ps ++ [pa]) va' =
  if decide (page_of 1 va' = page_of 1 (va + 4096 * Z.of_nat (length ps))) then Some (pa + va' `mod` page_span 1)
  else range_translate T va ps va'.
Proof.
  intros Hn [v ->]. unfold range_translate, page_of, page_span.
  change (2 ^ (12 + 9 * (1 - 1))) with 4096. change (2 ^ (36 - 9 * (1 - 1))) with (2 ^ 36).
  replace (v * 4096 + 4096 * Z.of_nat (length ps)) with ((v + Z.of_nat (length ps)) * 4096) by lia.
  rewrite !Z_div_mult by lia. change (2 ^ 36) with 68719476736 in *.
  set (d := (va' / 4096 - v) `mod` 68719476736).
  assert (0 <= d < 68719476736) as Hd by (apply Z.mod_pos_bound; lia).
  destruct (decide ((va' / 4096) `mod` 68719476736 = (v + Z.of_nat (length ps)) `mod` 68719476736)) as [Heq|Hne].
  - assert (d = Z.of_nat (length ps)) as -> by (subst d; zlia).
    rewrite Nat2Z.id, list_lookup_middle by done. done.
  - assert (d ≠ Z.of_nat (length ps)) as Hdne.
    { intros E. apply Hne. subst d. zlia. }
    destruct (decide (d < Z.of_nat (length ps))).
    + by rewrite lookup_app_l by lia.
    + rewrite (lookup_ge_None_2 (ps ++ [pa])) by (rewrite length_app; simpl; lia).
      by rewrite (lookup_ge_None_2 ps) by lia.
Qed.

Lemma range_translate_nil (T : Z → option Z) va va' : range_translate T va [] va' = T va'.
Proof. done. Qed.

Lemma range_translate_beyond (T : Z → option Z) va ps n : (4096 | va) →
  Z.of_nat (length ps) <= n < 2 ^ 36 → range_translate T va ps (va + 4096 * n) = T (va + 4096 * n).
Proof.
  intros [v ->] Hn. unfold range_translate. replace (v * 4096 + 4096 * n) with ((v + n) * 4096) by lia.
  rewrite !Z_div_mult by lia. replace (v + n - v) with n by lia. rewrite Z.mod_small by lia.
  by rewrite lookup_ge_None_2 by lia.
Qed.

(** The list of pages [ps] was mapped from [va] on. *)
Record range_mapped (root va : Z) (ps : list Z) (w w' : world mem_state) : Prop := {
  rm_state : pt_state root w';
  rm_cnt : cnt w <= cnt w' <= cnt w + tables_needed va (Z.of_nat (length ps));
  rm_static : w_st w' = set_frame_count (cnt w') (w_st w);
  rm_translate : ∀ va', translate (w_mem w') root va' =
    range_translate (translate (w_mem w) root) va ps va';
  rm_outside : ∀ a, a < root ∨ root + 4096 <= a → a < _frame_pool_bootstrap ∨ POOL_END <= a →
    load8 (w_mem w') a = load8 (w_mem w) a;
}.

Definition tables_present (root va : Z) (n : nat) (w : world mem_state) : Prop :=
  (0 < n)%nat → ∀ lv, (1 <= lv <= 3)%nat → missing root (va + 4096 * (Z.of_nat n - 1)) lv w = 0.

Lemma range_mapped_nil root va w : pt_state root w → range_mapped root va [] w w.
Proof.
  intros Hst. split; [done| | |done|done].
  - change (tables_needed va (Z.of_nat (length []))) with 0. lia.
  - unfold cnt. by rewrite set_frame_count_id.
Qed.

Lemma wp_map_next root va ps pa w w1 (Q : unit → world mem_state → Prop) :
  range_mapped root va ps w w1 → tables_present root va (length ps) w1 →
  (4096 | va) → Z.of_nat (length ps) < 2 ^ 36 → (4096 | pa) → 0 <= pa <= VA_48_LOW_END →
  cnt w + tables_needed va (Z.of_nat (length ps) + 1) <= _FRAME_CAP_BOOTSTRAP →
  translate (w_mem w) root (va + 4096 * Z.of_nat (length ps)) = None →
  (∀ w2, range_mapped root va (ps ++ [pa]) w w2 → tables_present root va (length (ps ++ [pa])) w2 → Q () w2) →
  wp (_map_page root (va + 4096 * Z.of_nat (length ps)) pa) Q w1.
Proof.
  intros Hrm Htp Hva Hn Hpa Hpr Hcap Hno HQ. set (n := length ps) in *.
  pose proof (rm_cnt _ _ _ _ _ Hrm) as Hc. fold n in Hc.
  assert (cnt w1 + missing root (va + 4096 * Z.of_nat n) 3 w1 + missing root (va + 4096 * Z.of_nat n) 2 w1
    + missing root (va + 4096 * Z.of_nat n) 1 w1 <= cnt w + tables_needed va (Z.of_nat n + 1)) as Hcount.
  { assert (∀ lv, (1 <= lv <= 3)%nat → 0 < Z.of_nat n → missing root (va + 4096 * (Z.of_nat n - 1)) lv w1 = 0) as Hprev.
    { intros lv Hlv Hpos. apply Htp; lia. }
    pose proof (touched_step 3 root va (Z.of_nat n) w1 ltac:(lia) ltac:(lia) Hva (Hprev 3%nat ltac:(lia))).
    pose proof (touched_step 2 root va (Z.of_nat n) w1 ltac:(lia) ltac:(lia) Hva (Hprev 2%nat ltac:(lia))).
    pose proof (touched_step 1 root va (Z.of_nat n) w1 ltac:(lia) ltac:(lia) Hva (Hprev 1%nat ltac:(lia))).
    change (Z.of_nat 3) with 3 in *. change (Z.of_nat 2) with 2 in *. change (Z.of_nat 1) with 1 in *.
    unfold tables_needed in *. lia. }
  apply wp_map_page; [apply Hrm|lia| |done|done| |].
  - apply Z.divide_add_r; [done|]. exists (Z.of_nat n). lia.
  - rewrite (rm_translate _ _ _ _ _ Hrm), range_translate_beyond; [done|done|]. fold n. lia.
  - intros w2 Hm Hcw Hmis. rewrite length_app, Nat.add_1_r in HQ. fold n in HQ. apply HQ.
    + split.
      * apply Hm.
      * rewrite length_app, Nat.add_1_r. fold n. rewrite Nat2Z.inj_succ, <-Z.add_1_r.
        pose proof (pm_cnt _ _ _ _ _ _ _ Hm). lia.
      * rewrite (pm_static _ _ _ _ _ _ _ Hm). rewrite (rm_static _ _ _ _ _ Hrm) at 1. apply set_frame_count_twice.
      * intros va'. rewrite (pm_translate _ _ _ _ _ _ _ Hm), range_translate_snoc by done.
        by rewrite (rm_translate _ _ _ _ _ Hrm).
      * intros a Ha Hb. rewrite (pm_outside _ _ _ _ _ _ _ Hm) by done. by apply Hrm.
    + intros _ lv Hlv. replace (Z.of_nat (S n) - 1) with (Z.of_nat n) by lia. by apply Hmis.
Qed.

(** Where a list of ranges may lie: outside the tables and the pool. *)
Definition apart (root lo hi : Z) : Prop :=
  (hi <= root ∨ root + 4096 <= lo) ∧ (hi <= _frame_pool_bootstrap ∨ POOL_END <= lo).

Lemma range_mapped_agree root va ps w w' lo hi : range_mapped root va ps w w' → apart root lo hi →
  agree lo hi (w_mem w) (w_mem w').
Proof. intros Hrm [? ?] a Ha. symmetry. apply (rm_outside _ _ _ _ _ Hrm); lia. Qed.

(** The state of [_map_impl]'s loop: [j] pages of range [k] are done. *)
Record map_loop (l : list (Z * Z)) (i : Z) (k : nat) (j : Z) : Prop := {
  ml_i : i = total_pages (take k l) + j;
  ml_k : (k <= length l)%nat;
  ml_j : 0 <= j;
  ml_range : ∀ r, l !! k = Some r → j <= snd r;
  ml_last : l !! k = None → j = 0;
}.

Lemma map_loop_bound l i k j : Forall range_ok l → map_loop l i k j → 0 <= i <= total_pages l.
Proof.
  intros Hl [-> Hk Hj Hr Hlast]. apply range_ok_counts in Hl.
  pose proof (total_pages_nonneg _ (Forall_take _ k _ Hl)). destruct (l !! k) as [r|] eqn:Hlk.
  - pose proof (total_pages_take_le l (S k) Hl) as Hle. rewrite (total_pages_take_S _ _ _ Hlk) in Hle.
    specialize (Hr r eq_refl). lia.
  - rewrite Hlast by done. pose proof (total_pages_take_le l k Hl). lia.
Qed.

Lemma wp_map_impl fuel root va p l lo hi w (Q : unit → world mem_state → Prop) :
  pt_state root w → pa_list_at (w_mem w) lo hi p l → apart root lo hi → Forall range_ok l →
  (4096 | va) → 0 <= va → va + 4096 * total_pages l <= 18446744073709551616 → total_pages l < 2 ^ 36 →
  cnt w + tables_needed va (total_pages l) <= _FRAME_CAP_BOOTSTRAP →
  (∀ i, 0 <= i < total_pages l → translate (w_mem w) root (va + 4096 * i) = None) →
  (Z.to_nat (total_pages l) + length l < fuel)%nat →
  (∀ w', range_mapped root va (pages l) w w' → Q () w') →
  wp (_map_impl fuel root va (total_pages l) p) Q w.
Proof.
  intros Hst Hl Hap Hok Hva Hva0 Hwrap H36 Hcap Hno Hfuel HQ.
  pose proof (range_ok_counts _ Hok) as Hpos. pose proof (total_pages_nonneg _ Hpos) as Htot.
  unfold _map_impl. apply wp_bind, wp_assert; [by apply Z.eqb_eq, Z.mod_divide|].
  apply wp_bind. apply (wp_pa_list_n_page Hl w eq_refl); [done|lia|].
  apply wp_bind, wp_assert; [by apply Z.eqb_eq|].
  eapply (wp_loop (λ '(i, pa_idx, pa_page) w', ∃ k, pa_idx = Z.of_nat k ∧ map_loop l i k pa_page ∧
      range_mapped root va (take (Z.to_nat i) (pages l)) w w' ∧ tables_present root va (Z.to_nat i) w')
    (λ '(i, pa_idx, pa_page), (Z.to_nat (total_pages l - i) + (length l - Z.to_nat pa_idx))%nat)).
  - exists O. split; [done|]. split; [|split].
    + split; [done|lia|lia| |done]. intros r Hr. apply (Forall_lookup_1 _ _ _ _ Hpos Hr).
    + by apply range_mapped_nil.
    + intros ?. lia.
  - lia.
  - intros [[i pa_idx] j] w1 (k&->&Hml&Hrm&Htp). pose proof (map_loop_bound _ _ _ _ Hok Hml) as Hi.
    destruct (Z.ltb_spec i (total_pages l)) as [Hlt|Hge].
    + assert (pa_list_at (w_mem w1) lo hi p l) as Hl1.
      { eapply pa_list_at_agree; [|exact Hl]. by eapply range_mapped_agree. }
      destruct (l !! k) as [r|] eqn:Hr.
      2:{ exfalso. rewrite (ml_i _ _ _ _ Hml), (ml_last _ _ _ _ Hml Hr) in Hlt.
          apply lookup_ge_None_1 in Hr. rewrite take_ge in Hlt by lia. lia. }
      pose proof (lookup_lt_Some _ _ _ Hr) as Hk.
      apply wp_bind, (wp_pa_list_n_range Hl1 w1 eq_refl); [by intros ->|].
      apply wp_bind, wp_assert; [bsimp; lia|].
      apply wp_bind, (wp_pa_list_range_n_page Hl1 w1 eq_refl k r); [done|].
      pose proof (Forall_lookup_1 _ _ _ _ Hok Hr) as (Hal&Hr0&Hrn&Hrlim). unfold PA_LIMIT in Hrlim.
      pose proof (ml_j _ _ _ _ Hml) as Hj. pose proof (ml_range _ _ _ _ Hml r Hr) as Hjr.
      destruct (Z.ltb_spec j (snd r)) as [Hjlt|Hjge].
      * apply wp_bind, (wp_pa_list_range_pa Hl1 w1 eq_refl k r); [done|done|].
        pose proof (pages_lookup l k r j Hpos Hr ltac:(lia)) as Hpg. rewrite <-(ml_i _ _ _ _ Hml) in Hpg.
        assert (length (take (Z.to_nat i) (pages l)) = Z.to_nat i) as Hlen.
        { apply length_take_le. pose proof (length_pages l Hpos). lia. }
        assert ((va + i * PAGE_SIZE_4K)%u64 = va + 4096 * Z.of_nat (length (take (Z.to_nat i) (pages l)))) as ->.
        { unfold PAGE_SIZE_4K, PAGE_SIZE_VALUE_4K. u64_unfold. rewrite Hlen, Z2Nat.id by lia.
          rewrite (u64_small (i * 4096)), u64_small by lia. lia. }
        assert ((fst r + j * PAGE_SIZE_4K)%u64 = fst r + 4096 * j) as ->.
        { unfold PAGE_SIZE_4K, PAGE_SIZE_VALUE_4K. u64_unfold. rewrite (u64_small (j * 4096)), u64_small by lia. lia. }
        apply wp_bind. apply (wp_map_next root va (take (Z.to_nat i) (pages l)) (fst r + 4096 * j) w w1);
          [done|by rewrite Hlen|done|rewrite Hlen; lia| |unfold VA_48_LOW_END; lia| | |].
        -- apply Z.divide_add_r; [done|]. exists j. lia.
        -- rewrite Hlen, Z2Nat.id by lia.
           pose proof (tables_needed_mono va (i + 1) (total_pages l) ltac:(lia)). lia.
        -- rewrite Hlen, Z2Nat.id by lia. apply Hno. lia.
        -- intros w2 Hrm2 Htp2. apply wp_ret.
           assert (Z.to_nat (i + 1) = S (Z.to_nat i)) as E1 by lia.
           rewrite length_app, Hlen, Nat.add_1_r, <-E1 in Htp2.
           rewrite <-(take_S_r _ _ _ Hpg), <-E1 in Hrm2.
           split; [|lia]. exists k. split; [done|]. split; [|done].
           split; [rewrite (ml_i _ _ _ _ Hml); lia|lia|lia| |by rewrite Hr].
           intros r' Hr'. rewrite Hr in Hr'. injection Hr' as <-. lia.
      * apply wp_ret. split; [|lia]. exists (S k). split; [lia|]. split; [|done].
        split; [|lia|lia| |done].
        -- rewrite (total_pages_take_S _ _ _ Hr), (ml_i _ _ _ _ Hml). lia.
        -- intros r' Hr'. apply (Forall_lookup_1 _ _ _ _ Hpos Hr').
    + apply wp_ret, HQ. rewrite take_ge in Hrm; [done|]. pose proof (length_pages l Hpos). lia.
Qed.

(** C13: mapping a list of physical ranges.  [mem_page_map] maps the pages of
    the ranges one after another from [va] on: afterwards the hardware walk
    sends page [va] + [i] to the i-th page of the list and every other address
    where it went before; the page tables took at most [tables_needed] frames,
    an upper bound that counts the tables on the way to the pages. *)
Theorem mem_page_map_ok (fuel : nat) (va p lo hi : Z) (l : list (Z * Z)) (w : world mem_state)
    (Hst : pt_state _tab_4 w) (Hstage : MEM_BOOTSTRAP_STAGE_0 < boot_stage (w_st w))
    (Hl : pa_list_at (w_mem w) lo hi p l) (Hap : apart _tab_4 lo hi) (Hok : Forall range_ok l)
    (Hva : (4096 | va)) (Hva0 : 0 <= va) (Hend : va + 4096 * total_pages l <= 18446744073709551616)
    (Hsize : total_pages l < 2 ^ 36)
    (Hfree : cnt w + tables_needed va (total_pages l) <= _FRAME_CAP_BOOTSTRAP)
    (Hno : ∀ i, 0 <= i < total_pages l → translate (w_mem w) _tab_4 (va + 4096 * i) = None)
    (Hfuel : (Z.to_nat (total_pages l) + length l < fuel)%nat) :
  wp (mem_page_map fuel va (total_pages l) p) (λ _ w', range_mapped _tab_4 va (pages l) w w') w.
Proof.
  unfold mem_page_map. apply wp_bind, wp_static, wp_bind, wp_assert; [by bsimp|].
  by eapply wp_map_impl.
Qed.

(* ===================================================================== *)
(** ** Building a list *)

(** The arrays follow the header, as [pa_list_new_bootstrap] places them. *)
Definition packed (m : memory) (p n : Z) : Prop :=
  load64 m (p + 8) = p + 24 ∧ load64 m (p + 16) = p + 24 + 8 * n.

Lemma wp_pa_list_new n w (Q : Z → world mem_state → Prop) :
  let p := _pa_list_bootstrap_next (w_st w) in
  let lo := _pa_list_bootstrap_pool in let hi := lo + _PA_LIST_CAP_BOOTSTRAP in
  boot_stage (w_st w) < MEM_BOOTSTRAP_STAGE_FINISH → 0 <= lo <= p → hi < 18446744073709551616 →
  0 <= n → p + 24 + 16 * n <= hi →
  (∀ m' l, length l = Z.to_nat n → pa_list_at m' lo hi p l → packed m' p n →
    (∀ a, a < lo ∨ hi <= a → load8 m' a = load8 (w_mem w) a) →
    Q p (World m' (set_pa_list_next (p + 24 + 16 * n) (w_st w)))) →
  wp (pa_list_new_bootstrap n) Q w.
Proof.
  intros p lo hi Hstage Hp Hhi Hn Hfit HQ. unfold pa_list_new_bootstrap, sizeof_pa_list. fold lo.
  assert ((lo + _PA_LIST_CAP_BOOTSTRAP)%u64 = hi) as -> by (unfold uadd; by rewrite u64_small by lia).
  apply wp_bind, wp_static, wp_bind, wp_assert; [by bsimp|].
  apply wp_bind, wp_static. fold p. apply wp_bind, wp_assert; [bsimp; lia|].
  assert ((p + 24)%u64 = p + 24) as -> by (unfold uadd; rewrite u64_small; lia).
  assert ((p + 8)%u64 = p + 8) as -> by (unfold uadd; rewrite u64_small; lia).
  assert ((p + 16)%u64 = p + 16) as -> by (unfold uadd; rewrite u64_small; lia).
  assert ((Z.add p 24 + 8 * n)%u64 = p + 24 + 8 * n) as ->.
  { u64_unfold. rewrite (u64_small (8 * n)), u64_small by lia. lia. }
  assert ((Z.add (Z.add p 24) (8 * n)%Z + 8 * n)%u64 = p + 24 + 16 * n) as ->.
  { u64_unfold. rewrite (u64_small (8 * n)), u64_small by lia. lia. }
  apply wp_bind, wp_static_set, wp_bind, wp_assert; [bsimp; lia|].
  apply wp_bind, wp_write, wp_bind, wp_write. cbn [mem_of set_mem world_has_memory w_mem w_st].
  apply wp_bind, wp_static_set, wp_bind, wp_assert; [bsimp; lia|].
  apply wp_bind, wp_write. cbn [mem_of set_mem world_has_memory w_mem w_st].
  apply wp_bind, wp_static_set, wp_bind, wp_assert; [bsimp; lia|]. apply wp_ret.
  cbn [mem_of set_mem world_has_memory w_mem w_st]. change (store 8) with store64.
  set (m' := store64 (p + 16) _ _).
  assert (load64 m' p = n) as E0.
  { subst m'. rewrite !load64_store64_ne by lia. apply load64_store64_eq. unfold is_u64. lia. }
  assert (load64 m' (p + 8) = p + 24) as E8.
  { subst m'. rewrite load64_store64_ne by lia. apply load64_store64_eq. unfold is_u64. lia. }
  assert (load64 m' (p + 16) = p + 24 + 8 * n) as E16.
  { subst m'. apply load64_store64_eq. unfold is_u64. lia. }
  apply (HQ m' ((λ i, (load64 m' (p + 24 + 8 * i), load64 m' (p + 24 + 8 * n + 8 * i))) <$> seqZ 0 n)).
  - by rewrite length_fmap, length_seqZ.
  - split; rewrite ?E8, ?E16, ?length_fmap, ?length_seqZ, ?Z2Nat.id by lia.
    + done.
    + lia.
    + lia.
    + lia.
    + intros i r Hr. rewrite list_lookup_fmap in Hr.
      apply fmap_Some in Hr as (x&[-> ?]%lookup_seqZ&->). done.
  - done.
  - intros a Ha. subst m'. unfold store64. by rewrite !load8_store_ne by lia.
Qed.

Lemma wp_pa_list_set_range lo hi p l i pa n w (Q : unit → world mem_state → Prop) :
  pa_list_at (w_mem w) lo hi p l → packed (w_mem w) p (Z.of_nat (length l)) →
  (i < length l)%nat → (4096 | pa) → is_u64 pa → is_u64 n →
  (∀ m', pa_list_at m' lo hi p (<[i := (pa, n)]> l) → packed m' p (Z.of_nat (length l)) →
    (∀ a, a < lo ∨ hi <= a → load8 m' a = load8 (w_mem w) a) → Q () (World m' (w_st w))) →
  wp (pa_list_set_range p (Z.of_nat i) pa n) Q w.
Proof.
  intros Hl [E8 E16] Hi Hal Hpa Hn HQ. pose proof (list_slot_small Hl i Hi) as (S1&S2&S3&S4).
  pose proof (pl_bounds _ _ _ _ _ Hl) as Hb. pose proof (pl_pas _ _ _ _ _ Hl) as Hpas.
  pose proof (pl_pgs _ _ _ _ _ Hl) as Hpgs. rewrite E8 in S1, Hpas. rewrite E16 in S2, Hpgs.
  unfold pa_list_set_range. apply wp_bind, wp_read. cbn [mem_of world_has_memory].
  change (load 8) with load64. rewrite (pl_n _ _ _ _ _ Hl).
  apply wp_bind, wp_assert; [bsimp; lia|]. apply wp_bind, wp_assert; [by apply Z.eqb_eq, Z.mod_divide|].
  apply wp_bind, wp_read. cbn [mem_of world_has_memory]. change (load 8) with load64. rewrite S3, E8, S1.
  apply wp_bind, wp_write. cbn [mem_of set_mem world_has_memory w_mem w_st]. change (store 8) with store64.
  apply wp_bind, wp_read. cbn [mem_of world_has_memory w_mem]. change (load 8) with load64. rewrite S4.
  rewrite load64_store64_ne by lia. rewrite E16, S2.
  apply wp_write. cbn [mem_of set_mem world_has_memory w_mem w_st]. change (store 8) with store64.
  set (m' := store64 (p + 24 + 8 * Z.of_nat (length l) + 8 * Z.of_nat i) n _).
  assert (∀ a, a + 8 <= p + 24 → load64 m' a = load64 (w_mem w) a) as Hhdr.
  { intros a Ha. subst m'. by rewrite !load64_store64_ne by lia. }
  apply HQ.
  - split; rewrite ?length_insert, ?Hhdr, ?E8, ?E16 by lia; try apply Hl; try lia.
    intros k r Hk. destruct (decide (i = k)) as [<-|Hne].
    + rewrite list_lookup_insert_eq in Hk by done. injection Hk as <-. subst m'. split.
      * rewrite load64_store64_ne by lia. by apply load64_store64_eq.
      * by apply load64_store64_eq.
    + rewrite list_lookup_insert_ne in Hk by done. pose proof (lookup_lt_Some _ _ _ Hk).
      pose proof (pl_get _ _ _ _ _ Hl k r Hk) as Hget. rewrite E8, E16 in Hget.
      subst m'. by rewrite !load64_store64_ne by lia.
  - unfold packed. by rewrite !Hhdr by lia.
  - intros a Ha. subst m'. unfold store64. by rewrite !load8_store_ne by lia.
Qed.

(* ===================================================================== *)
(** ** The kernel's own tables *)

Lemma pt_state_zeroed w m : link_ok → boot_stage (w_st w) < MEM_BOOTSTRAP_STAGE_FINISH →
  0 <= cnt w <= _FRAME_CAP_BOOTSTRAP → (∀ j, index_ok j → load64 m (_tab_4 + 8 * j) = 0) →
  pt_state _tab_4 (World m (w_st w)) ∧ ∀ va, translate m _tab_4 va = None.
Proof.
  intros [(Hp1&Hp2&Hp3) _ (Hr1&Hr2&Hr3&Hr4)] Hstage Hcnt Hz.
  unfold POOL_END, PA_LIMIT, _FRAME_CAP_BOOTSTRAP in *.
  destruct (pt_ok_empty m _tab_4 _frame_pool_bootstrap) as [Hok Hno];
    [done|done|unfold PA_LIMIT; lia|done|unfold PA_LIMIT; lia|lia|done|].
  split; [|done]. split; change (cnt (World m (w_st w))) with (cnt w); cbn [w_mem w_st];
    unfold POOL_END, PA_LIMIT, _FRAME_CAP_BOOTSTRAP; [done|lia|lia|lia|].
  eapply pt_ok_weaken; [done|lia| |unfold PA_LIMIT; lia|lia].
  apply Z.divide_add_r; [done|]. exists (cnt w). lia.
Qed.

Lemma pt_state_agree root w w' : pt_state root w → boot_stage (w_st w') = boot_stage (w_st w) → cnt w' = cnt w →
  (∀ a, (root <= a < root + 4096 ∨ _frame_pool_bootstrap <= a < POOL_END) → load8 (w_mem w') a = load8 (w_mem w) a) →
  pt_state root w' ∧ ∀ va, translate (w_mem w') root va = translate (w_mem w) root va.
Proof.
  intros Hst Hs Hc Hag. pose proof (st_cnt _ _ Hst).
  destruct (pt_ok_agree (w_mem w) (w_mem w') _ _ _ (st_ok _ _ Hst)) as [Hok Htr].
  - split; intros a Ha; symmetry; apply Hag; [lia|unfold POOL_END; lia].
  - split; [|done]. split; rewrite ?Hc, ?Hs; try apply Hst. done.
Qed.

(** The ranges that the kernel's tables map: the image at its own addresses
    (whole pages only), the frame buffer at [VA_48_FRAME_BUFFER]. *)
Definition kernel_pages (s : mem_state) : Z := _kern_end_pa s / 4096.
Definition frame_buffer_len (v : vesa) : Z := _width v * _height v * _depth v.

Record boot_2_ok (w : world mem_state) : Prop := {
  b2_stage : boot_stage (w_st w) < MEM_BOOTSTRAP_STAGE_FINISH;
  b2_cnt : 0 <= cnt w;
  b2_lists : _pa_list_bootstrap_next (w_st w) = _pa_list_bootstrap_pool;
  b2_pool : 0 <= _pa_list_bootstrap_pool ∧
    _pa_list_bootstrap_pool + _PA_LIST_CAP_BOOTSTRAP < 18446744073709551616 ∧
    apart _tab_4 _pa_list_bootstrap_pool (_pa_list_bootstrap_pool + _PA_LIST_CAP_BOOTSTRAP);
  b2_kern : 0 <= _kern_end_pa (w_st w) <= PA_LIMIT;
  b2_vesa : 0 <= _width (st_vesa (w_st w)) ∧ 0 <= _height (st_vesa (w_st w)) ∧ 0 <= _depth (st_vesa (w_st w));
  b2_fb : 0 <= _buf (st_vesa (w_st w)) ∧ (4096 | _buf (st_vesa (w_st w))) ∧
    (4096 | frame_buffer_len (st_vesa (w_st w))) ∧
    frame_buffer_len (st_vesa (w_st w)) < VA_48_FRAME_BUFFER_END - VA_48_FRAME_BUFFER ∧
    _buf (st_vesa (w_st w)) + frame_buffer_len (st_vesa (w_st w)) <= PA_LIMIT;
  b2_free : cnt w + tables_needed 0 (kernel_pages (w_st w)) +
    tables_needed VA_48_FRAME_BUFFER (frame_buffer_len (st_vesa (w_st w)) / 4096) <= _FRAME_CAP_BOOTSTRAP;
}.

Record boot_2_mapped (w w' : world mem_state) : Prop := {
  b2m_static : w_st w' = set_cr3 _tab_4 (set_frame_count (cnt w')
    (set_vesa (Vesa.set_buf VA_48_FRAME_BUFFER (st_vesa (w_st w))) (set_pa_list_next (_pa_list_bootstrap_pool + 40) (w_st w))));
  b2m_state : pt_state _tab_4 w';
  b2m_translate : ∀ va, translate (w_mem w') _tab_4 va =
    range_translate (range_translate (λ _, None) 0 (pages [(0, kernel_pages (w_st w))]))
      VA_48_FRAME_BUFFER (pages [(_buf (st_vesa (w_st w)), frame_buffer_len (st_vesa (w_st w)) / 4096)]) va;
  b2m_outside : ∀ a, a < _tab_4 ∨ _tab_4 + 4096 <= a → a < _frame_pool_bootstrap ∨ POOL_END <= a →
    a < _pa_list_bootstrap_pool ∨ _pa_list_bootstrap_pool + _PA_LIST_CAP_BOOTSTRAP <= a →
    load8 (w_mem w') a = load8 (w_mem w) a;
}.

Lemma pages_single pa n : 0 <= n → pages [(pa, n)] = range_pages (pa, n).
Proof. intros. unfold pages. cbn [mbind list_bind]. apply app_nil_r. Qed.

Lemma total_single pa n : total_pages [(pa, n)] = n.
Proof. simpl. lia. Qed.

Lemma wp_vesa_static {A} (f : vesa → A) (Q : A → world mem_state → Prop) w :
  Q (f (st_vesa (w_st w))) w → wp (vesa_call (static f)) Q w.
Proof.
  intros HQ. apply wp_within, wp_static. cbn [w_mem w_st].
  assert (World (w_mem w) (set_vesa (st_vesa (w_st w)) (w_st w)) = w) as -> by (by destruct w as [? []]). done.
Qed.

Lemma range_translate_ext T T' va ps va' : T va' = T' va' →
  range_translate T va ps va' = range_translate T' va ps va'.
Proof. intros E. unfold range_translate. by rewrite E. Qed.

Lemma page_of_frame_buffer i kp : 0 <= i < 4096 → 0 <= kp <= 34359738368 →
  kp <= ((VA_48_FRAME_BUFFER + 4096 * i) / 4096 - 0 / 4096) `mod` 2 ^ 36.
Proof. change VA_48_FRAME_BUFFER with 18446603336222244864. change (2 ^ 36) with 68719476736. zlia. Qed.

(** The lists of the second stage: one range, then another one in its place. *)
#[local] Abbreviation list_lo := _pa_list_bootstrap_pool.
#[local] Abbreviation list_hi := (_pa_list_bootstrap_pool + _PA_LIST_CAP_BOOTSTRAP).

Record list_held (m : memory) (pa n : Z) : Prop := {
  lh_list : pa_list_at m list_lo list_hi list_lo [(pa, n)];
  lh_packed : packed m list_lo 1;
}.

Lemma list_held_agree m m' pa n : agree list_lo list_hi m m' → list_held m pa n → list_held m' pa n.
Proof.
  intros Hag [Hl Hp]. split; [by apply (pa_list_at_agree _ _ _ _ _ _ Hag)|].
  pose proof (pl_bounds _ _ _ _ _ Hl). unfold packed in *.
  assert (∀ a, list_lo <= a → a + 8 <= list_hi → load64 m' a = load64 m a) as E.
  { intros a Ha Hb. symmetry. apply (load_agree 8). eapply agree_weaken; [exact Hag|lia..]. }
  by rewrite !E by lia.
Qed.

(** The range is set and mapped. *)
Lemma wp_map_held fuel root va pa n pa0 n0 (mid : FM unit) (f : mem_state → mem_state) (k : FM unit) w Q :
  (∀ m s, mid (World m s) = Done ((), World m (f s))) → pt_state root w → list_held (w_mem w) pa0 n0 → apart root list_lo list_hi →
  (∀ s, boot_stage (f s) = boot_stage s ∧ _frame_count_bootstrap (f s) = _frame_count_bootstrap s) →
  0 <= pa → (4096 | pa) → 0 <= n → pa + 4096 * n <= PA_LIMIT → (4096 | va) → 0 <= va →
  va + 4096 * n <= 18446744073709551616 → cnt w + tables_needed va n <= _FRAME_CAP_BOOTSTRAP →
  (∀ i, 0 <= i < n → translate (w_mem w) root (va + 4096 * i) = None) → (Z.to_nat n + 1 < fuel)%nat →
  (∀ w', list_held (w_mem w') pa n → pt_state root w' → cnt w <= cnt w' <= cnt w + tables_needed va n →
    w_st w' = set_frame_count (cnt w') (f (w_st w)) →
    (∀ va', translate (w_mem w') root va' = range_translate (translate (w_mem w) root) va (pages [(pa, n)]) va') →
    (∀ a, a < root ∨ root + 4096 <= a → a < _frame_pool_bootstrap ∨ POOL_END <= a → a < list_lo ∨ list_hi <= a →
      load8 (w_mem w') a = load8 (w_mem w) a) → wp k Q w') →
  wp (pa_list_set_range list_lo 0 pa n ;; mid ;; _map_impl fuel root va n list_lo ;; k) Q w.
Proof.
  intros Hmid Hst [Hl Hp] Hap Hf Hpa0 Hpa Hn Hend Hva Hva0 Hwrap Hcap Hno Hfuel HQ. unfold PA_LIMIT in Hend.
  apply wp_bind, (wp_pa_list_set_range list_lo list_hi list_lo [(pa0, n0)] 0%nat pa n);
    [done|done|cbn; lia|done|unfold is_u64; lia|unfold is_u64; lia|].
  intros m1 Hl1 Hp1 Hout1. cbn [list_insert insert] in Hl1. apply wp_bind, wp_done. do 2 eexists. split; [apply Hmid|].
  set (w1 := World m1 (f (w_st w))). destruct (Hf (w_st w)) as [Hf1 Hf2].
  destruct (pt_state_agree root w w1 Hst Hf1 Hf2) as [Hst1 Htr1].
  { intros a Ha. cbn [w_mem w1]. destruct Hap. rewrite Hout1; [done|lia]. }
  assert (cnt w1 = cnt w) as Hc1 by exact Hf2.
  pose proof (wp_map_impl fuel root va list_lo [(pa, n)] list_lo list_hi w1) as HM. rewrite total_single in HM.
  apply wp_bind, HM; clear HM; [done|done|done|constructor; [done|constructor]|done|done|done| |lia| |simpl; lia|].
  - change (2 ^ 36) with 68719476736. lia.
  - intros i Hi. rewrite Htr1. by apply Hno.
  - intros w' Hrm. pose proof (range_mapped_agree _ _ _ w1 w' _ _ Hrm Hap) as Hag. destruct Hrm as [Hs Hc Hw Htr Hout].
    rewrite length_pages, total_single in Hc by (constructor; [cbn [snd]; lia|done]). rewrite Hc1 in Hc.
    apply HQ; [by apply (list_held_agree m1)|done|done|done| |].
    + intros va'. rewrite Htr. by apply range_translate_ext.
    + intros a Ha Hb Hd. rewrite Hout by done. by apply Hout1.
Qed.

Lemma wp_skip (m c : FM unit) (w : world mem_state) (Q : unit → world mem_state → Prop) :
  wp (m ;; mret () ;; c) Q w → wp (m ;; c) Q w.
Proof. intros Hw. exact Hw. Qed.

Lemma wp_empty_root (w : world mem_state) (Q : unit → world mem_state → Prop) : link_ok →
  boot_stage (w_st w) < MEM_BOOTSTRAP_STAGE_FINISH → 0 <= cnt w <= _FRAME_CAP_BOOTSTRAP →
  (∀ m, pt_state _tab_4 (World m (w_st w)) → (∀ va, translate m _tab_4 va = None) →
    (∀ a, a < _tab_4 ∨ _tab_4 + 4096 <= a → load8 m a = load8 (w_mem w) a) → Q () (World m (w_st w))) →
  wp (_tab_zero _tab_4) Q w.
Proof.
  intros Hlk Hstage Hcnt HQ. pose proof Hlk as [_ _ (Hr1&Hr2&Hr3&_)]. unfold PA_LIMIT in *.
  unfold _tab_zero. change (_TAB_ENTRY_LEN * _TAB_ENTRY_COUNT) with 4096.
  apply wp_mem_clean; [lia..|]. cbn [mem_of set_mem world_has_memory].
  destruct (zeroed_table (w_mem w) _tab_4) as [Z1 Z2]. change (Z.to_nat 4096) with 4096%nat in *.
  destruct (pt_state_zeroed w _ Hlk Hstage ltac:(lia) Z1) as [Hst Hno]. by apply HQ.
Qed.

Lemma wp_list_held_new root (w : world mem_state) (Q : Z → world mem_state → Prop) : pt_state root w →
  boot_stage (w_st w) < MEM_BOOTSTRAP_STAGE_FINISH → _pa_list_bootstrap_next (w_st w) = list_lo →
  0 <= list_lo → list_hi < 18446744073709551616 → apart root list_lo list_hi →
  (∀ m pa n, let w' := World m (set_pa_list_next (list_lo + 40) (w_st w)) in
    list_held m pa n → pt_state root w' → (∀ va, translate m root va = translate (w_mem w) root va) →
    (∀ a, a < list_lo ∨ list_hi <= a → load8 m a = load8 (w_mem w) a) → Q list_lo w') →
  wp (pa_list_new_bootstrap 1) Q w.
Proof.
  intros Hst Hstage Hnext Hl0 Hl1 Hap HQ.
  apply wp_pa_list_new; rewrite ?Hnext; [done|lia|done|lia|unfold _PA_LIST_CAP_BOOTSTRAP; lia|].
  intros m l Hlen Hl Hp Hout. destruct l as [|[pa n] [|]]; [done| |done].
  replace (list_lo + 24 + 16 * 1) with (list_lo + 40) by lia.
  set (w' := World m (set_pa_list_next (list_lo + 40) (w_st w))).
  destruct (pt_state_agree root w w' Hst eq_refl eq_refl) as [Hst' Htr].
  { intros a Ha. cbn [w_mem w']. destruct Hap. rewrite Hout; [done|lia]. }
  by apply (HQ m pa n).
Qed.

(** The tests on the frame buffer. *)
Lemma wp_frame_buffer_checked (f : Z → Z → FM unit) (w : world mem_state) (Q : unit → world mem_state → Prop) :
  let v := st_vesa (w_st w) in let fl := frame_buffer_len v in
  0 <= _width v → 0 <= _height v → 0 <= _depth v → (4096 | _buf v) → (4096 | fl) →
  fl < VA_48_FRAME_BUFFER_END - VA_48_FRAME_BUFFER → wp (f (_buf v) fl) Q w →
  wp (fb ← vesa_call Vesa.d_vesa_get_frame_buffer;
      kernel_assert (mem_align_check fb PAGE_SIZE_4K) ;;
      fb_len ← vesa_call Vesa.d_vesa_get_frame_buffer_len;
      kernel_assert (fb_len mod PAGE_SIZE_4K =? 0)%u64 ;;
      kernel_assert (fb_len <? VA_48_FRAME_BUFFER_END - VA_48_FRAME_BUFFER)%u64 ;;
      f fb fb_len) Q w.
Proof.
  intros v fl Hw Hh Hd Hba Hla Hlt HQ.
  apply wp_bind, wp_vesa_static. fold v. apply wp_bind, wp_assert; [by apply Z.eqb_eq, Z.mod_divide|].
  apply wp_bind, wp_vesa_static. fold v.
  change VA_48_FRAME_BUFFER_END with 18446603336237973504 in *.
  change VA_48_FRAME_BUFFER with 18446603336222244864 in *.
  assert ((_width v * _height v * _depth v)%u64 = fl) as ->.
  { unfold fl, frame_buffer_len in *. u64_unfold. destruct (decide (_depth v = 0)) as [->|Hd0].
    - by rewrite !Z.mul_0_r.
    - rewrite (u64_small (_width v * _height v)), u64_small by nia. done. }
  apply wp_bind, wp_assert; [by apply Z.eqb_eq, Z.mod_divide|].
  apply wp_bind, wp_assert; [apply Z.ltb_lt; exact Hlt|]. exact HQ.
Qed.

Lemma wp_load_root (w : world mem_state) (Q : unit → world mem_state → Prop) : link_ok →
  Q () (World (w_mem w) (set_cr3 _tab_4 (w_st w))) → wp (_tab_load_root _tab_4) Q w.
Proof.
  intros [_ _ (Hr1&Hr2&Hr3&_)] HQ. unfold PA_LIMIT in *. unfold _tab_load_root.
  apply wp_bind, wp_assert; [by apply Z.eqb_eq, Z.mod_divide|]. apply wp_static_set.
  pose proof (entry_frame_eq _tab_4 0) as E. rewrite Z.add_0_r in E.
  assert ((_tab_4 & 0x000ffffffffff000)%u64 = _tab_4) as -> by (apply E; done || lia). exact HQ.
Qed.

Lemma wp_bootstrap_2 fuel (w : world mem_state) : link_ok → boot_2_ok w →
  (Z.to_nat (kernel_pages (w_st w)) + 1 < fuel)%nat →
  (Z.to_nat (frame_buffer_len (st_vesa (w_st w)) / 4096) + 1 < fuel)%nat →
  wp (mem_page_bootstrap_2 fuel) (λ _ w', boot_2_mapped w w') w.
Proof.
  intros Hlk [Hstage Hcnt Hnext (Hl0&Hl1&Hapart) Hkern (Hw&Hh&Hd) (Hfb&Hfba&Hfbl&Hfbs&Hfbe) Hfree] Hfuel1 Hfuel2.
  set (kp := kernel_pages (w_st w)) in *. set (v := st_vesa (w_st w)) in *. set (fl := frame_buffer_len v) in *.
  assert (0 <= kp ∧ 4096 * kp <= PA_LIMIT) as [Hkp Hkl] by (unfold kp, kernel_pages in *; zlia).
  assert (0 <= fl) as Hfl by (unfold fl, frame_buffer_len; apply Z.mul_nonneg_nonneg; [by apply Z.mul_nonneg_nonneg|done]).
  assert (0 <= fl / 4096 ∧ 4096 * (fl / 4096) <= fl) as [Hfp Hfq] by zlia.
  unfold PA_LIMIT in *. pose proof (tables_needed_nonneg 0 kp Hkp) as Hm1.
  pose proof (tables_needed_nonneg VA_48_FRAME_BUFFER (fl / 4096) Hfp) as Hm2.
  unfold mem_page_bootstrap_2. apply wp_bind, wp_empty_root; [done|done|lia|]. intros m0 Hst0 Hno0 Hout0.
  apply wp_bind, wp_assert; [done|]. apply wp_bind, wp_static, wp_bind, wp_assert; [done|]. cbn [w_st].
  assert (((_kern_end_pa (w_st w) - 0) / PAGE_SIZE_4K)%u64 = kp) as ->.
  { unfold kp, kernel_pages. u64_unfold. rewrite u64_small by lia. by rewrite Z.sub_0_r. }
  apply wp_bind, (wp_list_held_new _tab_4); [done..|]. intros m1 pa0 n0 w1 Hl1' Hst1 Hno1 Hout1. cbn [w_mem] in Hno1, Hout1.
  apply wp_skip, (wp_map_held fuel _tab_4 0 0 kp pa0 n0 (mret ()) id _ w1);
    [done|done|done|done|done|lia|apply Z.divide_0_r|lia|unfold PA_LIMIT; lia|apply Z.divide_0_r|lia|lia| | |lia|].
  { change (cnt w1) with (cnt w). lia. }
  { intros i _. cbn [w_mem w1]. by rewrite Hno1. }
  intros w2 Hl2 Hst2 Hc2 Hs2 Htr2 Hout2. change (cnt w1) with (cnt w) in Hc2.
  assert (st_vesa (w_st w2) = v) as Hv2 by (by rewrite Hs2).
  assert (∀ va, translate (w_mem w2) _tab_4 va = range_translate (λ _, None) 0 (pages [(0, kp)]) va) as Htr2'.
  { intros va. rewrite Htr2. apply range_translate_ext. cbn [w_mem w1]. by rewrite Hno1. }
  apply wp_frame_buffer_checked; rewrite ?Hv2; [done..|]. fold fl.
  apply (wp_map_held fuel _tab_4 VA_48_FRAME_BUFFER (_buf v) (fl / 4096) 0 kp _
    (λ s, set_vesa (Vesa.set_buf VA_48_FRAME_BUFFER (st_vesa s)) s) _ w2);
    change VA_48_FRAME_BUFFER_END with 18446603336237973504 in *; change VA_48_FRAME_BUFFER with 18446603336222244864 in *;
    [done|done|done|done|done|lia|done|lia|unfold PA_LIMIT; lia|by exists 4503565267632384|done|lia|lia| |lia|].
  { intros i Hi. rewrite Htr2'. unfold range_translate. rewrite lookup_ge_None_2; [done|].
    pose proof (page_of_frame_buffer i kp ltac:(lia) ltac:(lia)) as Hge.
    pose proof (length_pages [(0, kp)] ltac:(by constructor)) as Hlp. rewrite total_single in Hlp.
    change VA_48_FRAME_BUFFER with 18446603336222244864 in Hge. lia. }
  intros w3 _ Hst3 Hc3 Hs3 Htr3 Hout3. apply wp_bind, wp_ret, wp_load_root; [done|]. rewrite Hs2 in Hs3.
  split; fold kp v fl; cbn [w_mem w_st].
  - rewrite Hs3. reflexivity.
  - destruct Hst3; by split.
  - intros va. rewrite Htr3. apply range_translate_ext, Htr2'.
  - intros a Ht Hp Hl. rewrite Hout3, Hout2 by done. cbn [w_mem w1]. rewrite Hout1 by done. by apply Hout0.
Qed.

(** A single range, in one formula. *)
Lemma range_translate_single T va pa n va' : 0 <= n < 2 ^ 36 → (4096 | va) →
  range_translate T va (pages [(pa, n)]) va' =
  if decide ((va' - va) `mod` 2 ^ 48 < 4096 * n) then Some (pa + (va' - va) `mod` 2 ^ 48) else T va'.
Proof.
  intros Hn [v ->]. rewrite pages_single by lia. unfold range_translate. rewrite Z_div_mult by lia.
  set (d := (va' / 4096 - v) `mod` 2 ^ 36).
  assert ((va' - v * 4096) `mod` 2 ^ 48 = 4096 * d + va' `mod` 4096 ∧ 0 <= d) as [-> Hd].
  { subst d. change (2 ^ 36) with 68719476736. change (2 ^ 48) with 281474976710656. zlia. }
  pose proof (Z.mod_pos_bound va' 4096 ltac:(lia)) as Hm.
  unfold range_pages. rewrite list_lookup_fmap. cbn [fst snd].
  destruct (decide (4096 * d + va' `mod` 4096 < 4096 * n)) as [Hlt|Hge].
  - rewrite lookup_seqZ_lt by lia. simpl. f_equal. lia.
  - rewrite lookup_seqZ_ge by lia. done.
Qed.

(** What the tables of the second stage give. *)
Record boot_2_view (w w' : world mem_state) : Prop := {
  bv_root : cr3 (w_st w') = _tab_4;
  bv_buf : _buf (st_vesa (w_st w')) = VA_48_FRAME_BUFFER;
  bv_kernel : ∀ a, 0 <= a < 4096 * kernel_pages (w_st w) → translate (w_mem w') (cr3 (w_st w')) a = Some a;
  bv_frame_buffer : ∀ o, 0 <= o < frame_buffer_len (st_vesa (w_st w)) →
    translate (w_mem w') (cr3 (w_st w')) (VA_48_FRAME_BUFFER + o) = Some (_buf (st_vesa (w_st w)) + o);
  bv_no_other : ∀ va, 4096 * kernel_pages (w_st w) <= va `mod` 2 ^ 48 →
    frame_buffer_len (st_vesa (w_st w)) <= (va - VA_48_FRAME_BUFFER) `mod` 2 ^ 48 →
    translate (w_mem w') (cr3 (w_st w')) va = None;
}.

Lemma boot_2_views (w w' : world mem_state) : boot_2_ok w → boot_2_mapped w w' → boot_2_view w w'.
Proof.
  intros Hb [Hs Hst Htr _]. set (kl := 4096 * kernel_pages (w_st w)). set (fb := _buf (st_vesa (w_st w))).
  set (fl := frame_buffer_len (st_vesa (w_st w))).
  assert (cr3 (w_st w') = _tab_4 ∧ _buf (st_vesa (w_st w')) = VA_48_FRAME_BUFFER) as [Hcr Hbuf] by (by rewrite Hs).
  pose proof (b2_kern _ Hb) as Hk. destruct (b2_fb _ Hb) as (Hfb&Hfba&[x Hx]&Hfl&Hfe).
  assert (0 <= fl) as Hfl0.
  { destruct (b2_vesa _ Hb) as (?&?&?). unfold fl, frame_buffer_len.
    apply Z.mul_nonneg_nonneg; [by apply Z.mul_nonneg_nonneg|done]. }
  fold fl in Hx, Hfl, Hfe. fold fb in Hfb, Hfba, Hfe. fold fb fl in Htr. unfold kernel_pages in *. unfold PA_LIMIT in *.
  change VA_48_FRAME_BUFFER_END with 18446603336237973504 in *.
  change VA_48_FRAME_BUFFER with 18446603336222244864 in *.
  assert (∀ va, translate (w_mem w') _tab_4 va =
    if decide ((va - 18446603336222244864) `mod` 2 ^ 48 < fl) then Some (fb + (va - 18446603336222244864) `mod` 2 ^ 48)
    else if decide (va `mod` 2 ^ 48 < kl) then Some (va `mod` 2 ^ 48) else None) as Htr'.
  { intros va. rewrite Htr. change (2 ^ 36) with 68719476736.
    rewrite range_translate_single; [|change (2 ^ 36) with 68719476736; zlia|by exists 4503565267632384].
    replace (4096 * (fl / 4096)) with fl by (rewrite Hx, Z_div_mult; lia).
    rewrite range_translate_single; [|change (2 ^ 36) with 68719476736; zlia|apply Z.divide_0_r].
    by rewrite Z.sub_0_r, Z.add_0_l. }
  subst kl. split; unfold kernel_pages; fold fb fl; change VA_48_FRAME_BUFFER with 18446603336222244864 in *; change (2 ^ 48) with 281474976710656 in *; rewrite ?Hcr; [done|done|..].
  - intros a Ha. rewrite Htr'. rewrite decide_False by zlia. rewrite decide_True by zlia. f_equal. zlia.
  - intros o Ho. rewrite Htr'. rewrite Z.add_simpl_l. rewrite (Z.mod_small o) by lia. by rewrite decide_True by lia.
  - intros va Hva1 Hva2. rewrite Htr'. by rewrite !decide_False by lia.
Qed.

(** The last page of the kernel is mapped only when the kernel fills it. *)
Lemma boot_2_kernel_tail (w w' : world mem_state) : boot_2_ok w → boot_2_view w w' →
  ((4096 | _kern_end_pa (w_st w)) →
    ∀ a, 0 <= a < _kern_end_pa (w_st w) → translate (w_mem w') (cr3 (w_st w')) a = Some a) ∧
  (∀ a, 4096 * kernel_pages (w_st w) <= a < _kern_end_pa (w_st w) → translate (w_mem w') (cr3 (w_st w')) a = None).
Proof.
  intros Hb [_ _ Hk _ Hno]. pose proof (b2_kern _ Hb) as Hend. destruct (b2_fb _ Hb) as (_&_&_&Hlt&_).
  unfold kernel_pages, PA_LIMIT in *.
  change VA_48_FRAME_BUFFER_END with 18446603336237973504 in *. change VA_48_FRAME_BUFFER with 18446603336222244864 in *. split.
  - intros [q Hq] a Ha. apply Hk. rewrite Hq, Z_div_mult in * by lia. lia.
  - intros a Ha. change (2 ^ 48) with 281474976710656 in *. apply Hno; zlia.
Qed.

(** C15: the kernel's own tables.  Building the tables of the second stage
    returns when the pool holds the tables it needs; then CR3 holds a
    well-formed tree that maps to itself every address from 0 up to the last
    page boundary at or below the end of the kernel, what lies below the
    kernel included, maps the frame buffer to the window at
    [VA_48_FRAME_BUFFER], where the driver now draws, and maps nothing else.
    So the kernel is mapped as a whole when it ends on a page boundary;
    otherwise its last bytes, in the page it does not fill, are not mapped. *)
Theorem mem_page_bootstrap_2_ok (fuel : nat) (w : world mem_state)
    (Hlk : link_ok) (Hb : boot_2_ok w)
    (Hfuel1 : (Z.to_nat (kernel_pages (w_st w)) + 1 < fuel)%nat)
    (Hfuel2 : (Z.to_nat (frame_buffer_len (st_vesa (w_st w)) / 4096) + 1 < fuel)%nat) :
  let mapped_len := 4096 * (_kern_end_pa (w_st w) / 4096) in
  let fb := _buf (st_vesa (w_st w)) in let fb_len := frame_buffer_len (st_vesa (w_st w)) in
  wp (mem_page_bootstrap_2 fuel) (λ _ w',
    cr3 (w_st w') = _tab_4 ∧ pt_state _tab_4 w' ∧ _buf (st_vesa (w_st w')) = VA_48_FRAME_BUFFER ∧
    (∀ a, 0 <= a < mapped_len → translate (w_mem w') (cr3 (w_st w')) a = Some a) ∧
    (∀ o, 0 <= o < fb_len → translate (w_mem w') (cr3 (w_st w')) (VA_48_FRAME_BUFFER + o) = Some (fb + o)) ∧
    (∀ va, mapped_len <= va `mod` 2 ^ 48 → fb_len <= (va - VA_48_FRAME_BUFFER) `mod` 2 ^ 48 →
      translate (w_mem w') (cr3 (w_st w')) va = None) ∧
    ((4096 | _kern_end_pa (w_st w)) →
      ∀ a, 0 <= a < _kern_end_pa (w_st w) → translate (w_mem w') (cr3 (w_st w')) a = Some a) ∧
    (∀ a, mapped_len <= a < _kern_end_pa (w_st w) → translate (w_mem w') (cr3 (w_st w')) a = None)) w.
Proof.
  intros kl fb fl. eapply wp_mono; [by apply wp_bootstrap_2|]. intros [] w' Hm.
  pose proof (b2m_state _ _ Hm). pose proof (boot_2_views w w' Hb Hm) as Hv.
  pose proof (boot_2_kernel_tail w w' Hb Hv) as [Hfull Htail]. destruct Hv as [? ? ? ? ?]. by split_and!.
Qed.

End map.

(* ===================================================================== *)
(** ** A sample machine *)

Definition sample_list : memory :=
  store64 0x203020 1 (store64 0x203018 0x9000
    (store64 0x203010 0x203020 (store64 0x203008 0x203018 (store64 0x203000 1 ∅)))).

Definition sample_world_1 : world mem_state := World sample_list (set_boot_stage MEM_BOOTSTRAP_STAGE_1 sample_mem).

Lemma sample_tab_zero : ∀ j, index_ok j → load64 sample_list (0x202000 + 8 * j) = 0.
Proof.
  intros j Hj. unfold index_ok in Hj. unfold sample_list.
  by rewrite !load64_store64_ne by lia.
Qed.

Lemma sample_pa_list : pa_list_at sample_list 0x203000 0x203400 0x203000 [(0x9000, 1)].
Proof.
  split; [done|lia|by vm_compute|by vm_compute|].
  intros [|i] r; [|done]. intros [= <-]. by vm_compute.
Qed.

Lemma mem_page_map_ok_witness :
  pa_list_at sample_list 0x203000 0x203400 0x203000 [(0x9000, 1)] ∧
  wp (@mem_page_map sample_link 3 0x5000 1 0x203000)
    (λ _ w', @range_mapped sample_link 0x202000 0x5000 (pages [(0x9000, 1)]) sample_world_1 w') sample_world_1.
Proof.
  split; [apply sample_pa_list|].
  destruct (@pt_state_zeroed sample_link sample_world_1 sample_list) as [Hst Hno];
    [apply sample_link_ok|done|by vm_compute|exact sample_tab_zero|].
  refine (@mem_page_map_ok sample_link 3 0x5000 0x203000 0x203000 0x203400 [(0x9000, 1)] sample_world_1
    Hst _ sample_pa_list _ _ _ _ _ _ _ _ _).
  - done.
  - split; [right|left]; done.
  - constructor; [|done]. split; [by exists 9|done].
  - by exists 5.
  - done.
  - done.
  - done.
  - by vm_compute.
  - intros i _. apply Hno.
  - simpl. lia.
Defined.

Lemma sample_boot_2_ok : @boot_2_ok sample_link sample_world.
Proof.
  split.
  - done.
  - done.
  - done.
  - split; [done|]. split; [done|]. split; [right|left]; done.
  - done.
  - done.
  - split; [done|]. split; [by exists 1036288|]. split; [by exists 768|done].
  - by vm_compute.
Qed.

Definition sample_world_partial : world mem_state :=
  World (w_mem sample_world) (set_kern (_kern_start_pa (w_st sample_world)) 0x4500800 (w_st sample_world)).

Lemma sample_partial_ok : @boot_2_ok sample_link sample_world_partial.
Proof. destruct sample_boot_2_ok; split; done. Qed.

Lemma mem_page_bootstrap_2_ok_witness :
  wp (@mem_page_bootstrap_2 sample_link (Z.to_nat 20000)) (λ _ w',
    cr3 (w_st w') = 0x202000 ∧
    (∀ a, 0 <= a < 0x4500000 → translate (w_mem w') (cr3 (w_st w')) a = Some a) ∧
    (∀ o, 0 <= o < 0x300000 → translate (w_mem w') (cr3 (w_st w')) (VA_48_FRAME_BUFFER + o) = Some (0xfd000000 + o)))
    sample_world ∧
  wp (@mem_page_bootstrap_2 sample_link (Z.to_nat 20000)) (λ _ w',
    translate (w_mem w') (cr3 (w_st w')) 0x4500000 = None) sample_world_partial.
Proof.
  split.
  - pose proof (@mem_page_bootstrap_2_ok sample_link (Z.to_nat 20000) sample_world sample_link_ok sample_boot_2_ok
      ltac:(change (kernel_pages (w_st sample_world)) with 17664; lia)
      ltac:(change (frame_buffer_len (st_vesa (w_st sample_world)) / 4096) with 768; lia)) as H.
    cbv zeta in H. eapply wp_mono; [exact H|]. clear H.
    intros [] w' (H1&_&_&H2&H3&_). split; [exact H1|]. split; [exact H2|exact H3].
  - pose proof (@mem_page_bootstrap_2_ok sample_link (Z.to_nat 20000) sample_world_partial sample_link_ok sample_partial_ok
      ltac:(change (kernel_pages (w_st sample_world_partial)) with 17664; lia)
      ltac:(change (frame_buffer_len (st_vesa (w_st sample_world_partial)) / 4096) with 768; lia)) as H.
    cbv zeta in H. eapply wp_mono; [exact H|]. clear H.
    intros [] w' (_&_&_&_&_&_&_&Htail). apply Htail. change (_kern_end_pa (w_st sample_world_partial)) with 0x4500800.
    change (4096 * (0x4500800 / 4096)) with 0x4500000. lia.
Defined.
