(* ===== verification/KernelMain.v ===== *)
(** The entry of the C code, src/kernel/kernel_main.c: the order in which the
    components are started, and the boot information each of them is given.
    Of the log only the switch to the screen is kept, not its lines.

    Theorem: which boot information the kernel insists on, and that the
    memory bootstrap is given the ELF symbols and the memory map. *)
From S2P Require Import Prelude Memory Strings Util MmCore Multiboot.
From S2P Require Import Vesa Ports Video Log Interrupts Pcie.
From S2P Require Import Acpi MemFrame MemPage.

(** The static variables of all the components. *)
Record kernel := Kernel {
  k_boot : multi_boot_info_t;
  k_mem : mem_state;
  k_intr : intr;
  k_screen_row : Z;
  k_screen_col : Z;
  k_write_screen : bool;
}.

Definition set_k_boot (b : multi_boot_info_t) (k : kernel) : kernel :=
  Kernel b (k_mem k) (k_intr k) (k_screen_row k) (k_screen_col k) (k_write_screen k).
Definition set_k_mem (s : mem_state) (k : kernel) : kernel :=
  Kernel (k_boot k) s (k_intr k) (k_screen_row k) (k_screen_col k) (k_write_screen k).
Definition set_k_intr (i : intr) (k : kernel) : kernel :=
  Kernel (k_boot k) (k_mem k) i (k_screen_row k) (k_screen_col k) (k_write_screen k).
Definition set_k_write_screen (b : bool) (k : kernel) : kernel :=
  Kernel (k_boot k) (k_mem k) (k_intr k) (k_screen_row k) (k_screen_col k) b.

(** The log shares the frame buffer driver with the memory manager and the
    ports with the interrupts. *)
Definition console_of (k : kernel) : console :=
  Console (st_vesa (k_mem k)) (intr_io (k_intr k)) (k_screen_row k) (k_screen_col k) (k_write_screen k).
Definition set_console (c : console) (k : kernel) : kernel :=
  Kernel (k_boot k) (MemFrame.set_vesa (cs_vesa c) (k_mem k)) (set_intr_io (cs_io c) (k_intr k))
    (_screen_row c) (_screen_col c) (_write_screen c).

Abbreviation KM := (M (world kernel)).

Definition boot_call {A} (m : BM A) : KM A := within k_boot set_k_boot m.
Definition mem_call {A} (m : FM A) : KM A := within k_mem set_k_mem m.
Definition intr_call {A} (m : IM A) : KM A := within k_intr set_k_intr m.
Definition log_call {A} (m : M (world console) A) : KM A := within console_of set_console m.

Section kernel.
Context `{BootLink} `{IntrLink} `{AcpiLink} `{MemFrame.Link}.

(** [_boot_info.ptrs[type]], [_boot_info.lens[type]] *)
Definition boot_ptr (type : Z) : KM Z := ps ← static (λ k, ptrs (k_boot k)); array_get ps type.
Definition boot_len (type : Z) : KM Z := ls ← static (λ k, lens (k_boot k)); array_get ls type.

(** The two assertions on a tag, and the pointer and length. *)
Definition require_tag (type : Z) : KM unit :=
  p ← boot_ptr type;
  kernel_assert (negb (p =? NULL)) ;;
  n ← boot_len type;
  kernel_assert (negb (n =? 0)).

(** [while (1) hlt]: the run of the model ends here. *)
Definition _kernel_halt : KM unit := mret ().

Definition start_memory : KM unit :=
  pe ← boot_ptr _MULTI_BOOT_TAG_TYPE_ELF_SYMBOLS;
  ne ← boot_len _MULTI_BOOT_TAG_TYPE_ELF_SYMBOLS;
  pm ← boot_ptr _MULTI_BOOT_TAG_TYPE_MMAP;
  nm ← boot_len _MULTI_BOOT_TAG_TYPE_MMAP;
  mem_call (mem_bootstrap_1 pe ne pm nm).

Definition start_vesa : KM unit :=
  require_tag _MULTI_BOOT_TAG_TYPE_FRAME_BUFFER ;;
  p ← boot_ptr _MULTI_BOOT_TAG_TYPE_FRAME_BUFFER;
  n ← boot_len _MULTI_BOOT_TAG_TYPE_FRAME_BUFFER;
  mem_call (vesa_call (d_vesa_bootstrap p n)).

Definition start_acpi : KM unit :=
  p ← boot_ptr _MULTI_BOOT_TAG_TYPE_ACPI_NEW;
  if negb (p =? NULL) then
    n ← boot_len _MULTI_BOOT_TAG_TYPE_ACPI_NEW;
    kernel_assert (negb (n =? 0)) ;;
    mem_call (pcie_call (acpi_bootstrap_64 p n))
  else
    require_tag _MULTI_BOOT_TAG_TYPE_ACPI_OLD ;;
    p ← boot_ptr _MULTI_BOOT_TAG_TYPE_ACPI_OLD;
    n ← boot_len _MULTI_BOOT_TAG_TYPE_ACPI_OLD;
    mem_call (pcie_call (acpi_bootstrap_32 p n)).

(** [fuel] bounds the pages that the second memory stage maps. *)
Definition start_rest (fuel : nat) : KM unit :=
  log_call log_enable_video_write ;;
  start_vesa ;;
  start_acpi ;;
  intr_call intr_init ;;
  mem_call (mem_bootstrap_2 fuel) ;;
  _kernel_halt.

Definition kernal_main (fuel : nat) (multi_boot_info : Z) : KM unit :=
  intr_call serial_init ;;
  boot_call (_multi_boot_info_save multi_boot_info) ;;
  require_tag _MULTI_BOOT_TAG_TYPE_ELF_SYMBOLS ;;
  require_tag _MULTI_BOOT_TAG_TYPE_MMAP ;;
  start_memory ;;
  start_rest fuel.

End kernel.

(* ===================================================================== *)
(** ** What the kernel insists on *)

Section proofs.
Context `{BootLink} `{IntrLink} `{AcpiLink} `{MemFrame.Link}.

(** The accesses of [serial_init], the latest first. *)
Definition serial_sequence : list io_event := reverse
  [Out 0x3fb 0x80; Out 0x3f9 0; Out 0x3f9 1; Out 0x3fb 0x03; Out 0x3fa 0xc7; Out 0x3fc 0x0b].

Lemma serial_init_run w :
  intr_call serial_init w =
    Done ((), World (w_mem w) (set_k_intr (set_intr_io (serial_sequence ++ intr_io (k_intr (w_st w))) (k_intr (w_st w))) (w_st w))).
Proof. reflexivity. Qed.

Lemma log_enable_run w :
  log_call log_enable_video_write w = Done ((), World (w_mem w) (set_k_write_screen true (w_st w))).
Proof. by destruct w as [m [b [] [] ? ? ?]]. Qed.

Lemma boot_ptr_run type p n w : 0 <= type → slot (k_boot (w_st w)) type p n →
  boot_ptr type w = Done (p, w) ∧ boot_len type w = Done (n, w).
Proof.
  intros Ht [Hp Hn]. unfold boot_ptr, boot_len, mbind, M_bind, static, gets, array_get.
  by rewrite (proj2 (Z.leb_le 0 type) Ht), Hp, Hn.
Qed.

Lemma require_tag_run type p n w : 0 <= type → slot (k_boot (w_st w)) type p n →
  require_tag type w = if (p =? NULL) || (n =? 0) then Assert else Done ((), w).
Proof.
  intros Ht Hs. destruct (boot_ptr_run type p n w Ht Hs) as [Hp Hn]. unfold require_tag.
  rewrite (bind_done _ _ _ _ _ Hp), assert_then. destruct (p =? NULL); [done|]. cbn [negb orb].
  rewrite (bind_done _ _ _ _ _ Hn). unfold kernel_assert. by destruct (n =? 0).
Qed.

(** A tag of the list with data. *)
Definition has_tag (ts : list tag) (type : Z) : Prop := Exists (λ t, t_type t = type ∧ t_data t ≠ []) ts.

(** The slots after the boot information was saved. *)
Lemma slot_of_tag m ts b type : recorded m ts b → 0 <= type < MULTI_BOOT_INFO_SLOT_COUNT →
  (∀ type, 0 <= type < MULTI_BOOT_INFO_SLOT_COUNT → type ∉ t_type <$> ts → slot b type NULL 0) →
  (∃ t p, t ∈ ts ∧ t_type t = type ∧ p ≠ NULL ∧ slot b type p (Z.of_nat (length (t_data t)))) ∨
  slot b type NULL 0.
Proof.
  intros Hrec Hty Hno. destruct (decide (type ∈ t_type <$> ts)) as [Hin|Hin]; [|right; by apply Hno].
  apply list_elem_of_fmap in Hin as (t&->&Ht). left. destruct (Hrec t Ht) as (p&Hp&Hs&_). by exists t, p.
Qed.

Lemma require_missing m ts b type w : recorded m ts b → k_boot (w_st w) = b → 0 <= type < MULTI_BOOT_INFO_SLOT_COUNT →
  (∀ type, 0 <= type < MULTI_BOOT_INFO_SLOT_COUNT → type ∉ t_type <$> ts → slot b type NULL 0) →
  ¬ has_tag ts type → require_tag type w = Assert.
Proof.
  intros Hrec Hb Hty Hno Hmiss.
  destruct (slot_of_tag m ts b type Hrec Hty Hno) as [(t&p&Hin&Ht&Hp&Hs)|Hs]; rewrite <-Hb in Hs;
    rewrite (require_tag_run _ _ _ _ (proj1 Hty) Hs); [|done].
  destruct (t_data t) as [|c l] eqn:Hd; [by rewrite orb_true_r|]. destruct Hmiss. apply list.Exists_exists. exists t. by rewrite Hd.
Qed.

Lemma require_present m ts b t w : recorded m ts b → k_boot (w_st w) = b → t ∈ ts → 0 <= t_type t → t_data t ≠ [] →
  require_tag (t_type t) w = Done ((), w) ∧
  ∃ p, boot_ptr (t_type t) w = Done (p, w) ∧ boot_len (t_type t) w = Done (Z.of_nat (length (t_data t)), w) ∧
    bytes_at m p (t_data t) ∧ p ≠ NULL ∧
    boot_info_info <= p ∧ p + Z.of_nat (length (t_data t)) <= boot_info_info + MULTI_BOOT_INFO_CAP.
Proof.
  intros Hrec <- Hin Hty Hne. destruct (Hrec t Hin) as (p&Hp&Hs&Hb). rewrite (require_tag_run _ _ _ _ Hty Hs).
  rewrite (proj2 (Z.eqb_neq _ _) Hp). destruct (t_data t) as [|c l] eqn:Hd; [done|].
  split; [done|]. exists p. destruct (boot_ptr_run _ _ _ _ Hty Hs). destruct Hb as (?&?&?). by split_and!.
Qed.

(** What the kernel has done when the memory bootstrap begins: the copy of the
    boot information is made, and nothing else but the serial line is touched. *)
Record booted (ts : list tag) (w w1 : world kernel) : Prop := {
  bt_recorded : recorded (w_mem w1) ts (k_boot (w_st w1));
  bt_missing : ∀ type, 0 <= type < MULTI_BOOT_INFO_SLOT_COUNT → type ∉ t_type <$> ts → slot (k_boot (w_st w1)) type NULL 0;
  bt_mem : k_mem (w_st w1) = k_mem (w_st w);
  bt_intr : k_intr (w_st w1) = set_intr_io (serial_sequence ++ intr_io (k_intr (w_st w))) (k_intr (w_st w));
  bt_outside : ∀ a, ¬ (boot_info_info <= a < boot_info_info + MULTI_BOOT_INFO_CAP) → load8 (w_mem w1) a = load8 (w_mem w) a;
}.

(** Boot information that fits its copy. *)
Record boot_placed (boot : Z) (ts : list tag) (w : world kernel) : Prop := {
  bp_tags : tags_ok ts;
  bp_cap : Z.of_nat (length (encode ts)) < MULTI_BOOT_INFO_CAP;
  bp_boot : 0 <= boot ∧ boot + Z.of_nat (length (encode ts)) <= 18446744073709551616;
  bp_bytes : bytes_at (w_mem w) boot (encode ts);
  bp_info : (8 | boot_info_info) ∧ 0 <= boot_info_info ∧ boot_info_info + 1048576 + 8 <= 18446744073709551616;
  bp_over : boot_info_info <= boot ∨ boot + Z.of_nat (length (encode ts)) <= boot_info_info;
  bp_slots : slots_sized (k_boot (w_st w));
}.

Lemma kernal_main_saved fuel boot ts (w : world kernel) : boot_placed boot ts w →
  ∃ w1, booted ts w w1 ∧ kernal_main fuel boot w =
    (require_tag _MULTI_BOOT_TAG_TYPE_ELF_SYMBOLS ;; require_tag _MULTI_BOOT_TAG_TYPE_MMAP ;; start_memory ;; start_rest fuel) w1.
Proof.
  intros [Hts Hcap Hboot Hb Hinfo Hover Hsz].
  unfold kernal_main. rewrite (bind_done _ _ _ _ _ (serial_init_run w)). set (w0 := World _ _).
  assert (wp (boot_call (_multi_boot_info_save boot)) (λ _ w1, booted ts w w1) w0) as Hsave.
  { apply wp_within. eapply wp_mono; [by apply (wp_multi_boot_save boot ts)|]. intros _ w1 (_&Hrec&Hno&Hout). by split. }
  apply wp_done in Hsave as ([]&w1&Hs&Hbt). exists w1. split; [done|]. by rewrite (bind_done _ _ _ _ _ Hs).
Qed.

Lemma start_memory_run te tm ts (w w1 : world kernel) : booted ts w w1 →
  te ∈ ts → t_type te = _MULTI_BOOT_TAG_TYPE_ELF_SYMBOLS → t_data te ≠ [] →
  tm ∈ ts → t_type tm = _MULTI_BOOT_TAG_TYPE_MMAP → t_data tm ≠ [] →
  ∃ pe pm, (∀ f : KM unit, (require_tag _MULTI_BOOT_TAG_TYPE_ELF_SYMBOLS ;; require_tag _MULTI_BOOT_TAG_TYPE_MMAP ;; start_memory ;; f) w1 =
      (mem_call (mem_bootstrap_1 pe (Z.of_nat (length (t_data te))) pm (Z.of_nat (length (t_data tm)))) ;; f) w1) ∧
    bytes_at (w_mem w1) pe (t_data te) ∧ bytes_at (w_mem w1) pm (t_data tm) ∧
    boot_info_info <= pe ∧ pe + Z.of_nat (length (t_data te)) <= boot_info_info + MULTI_BOOT_INFO_CAP ∧
    boot_info_info <= pm ∧ pm + Z.of_nat (length (t_data tm)) <= boot_info_info + MULTI_BOOT_INFO_CAP.
Proof.
  intros [Hrec _ _ _ _] Hie Hte Hne Him Htm Hnm.
  destruct (require_present _ _ _ te w1 Hrec eq_refl Hie ltac:(by rewrite Hte) Hne) as (Hre&pe&Hpe&Hle&Hbe&_&?&?).
  destruct (require_present _ _ _ tm w1 Hrec eq_refl Him ltac:(by rewrite Htm) Hnm) as (Hrm&pm&Hpm&Hlm&Hbm&_&?&?).
  rewrite Hte in Hre, Hpe, Hle. rewrite Htm in Hrm, Hpm, Hlm. exists pe, pm. split; [|done]. intros f.
  rewrite (bind_done _ _ _ _ _ Hre), (bind_done _ _ _ _ _ Hrm).
  assert (start_memory w1 = mem_call (mem_bootstrap_1 pe (Z.of_nat (length (t_data te))) pm (Z.of_nat (length (t_data tm)))) w1)
    as Hst.
  { unfold start_memory. by rewrite (bind_done _ _ _ _ _ Hpe), (bind_done _ _ _ _ _ Hle), (bind_done _ _ _ _ _ Hpm),
      (bind_done _ _ _ _ _ Hlm). }
  unfold mbind, M_bind. by rewrite Hst.
Qed.

(** C34: the start of the kernel on well-formed boot information.  Without
    ELF symbols or without a memory map, or when one of them is empty, the
    kernel fails an assertion.  With both, everything up to the memory
    bootstrap succeeds, and the memory bootstrap runs with pointers to
    copies of exactly the ELF symbols and the memory map, before any other
    component has been touched. *)
Theorem kernal_main_tags (fuel : nat) (boot : Z) (ts : list tag) (w : world kernel)
    (Hts : tags_ok ts) (Hcap : Z.of_nat (length (encode ts)) < MULTI_BOOT_INFO_CAP)
    (Hboot : 0 <= boot ∧ boot + Z.of_nat (length (encode ts)) <= 18446744073709551616)
    (Hb : bytes_at (w_mem w) boot (encode ts))
    (Hinfo : (8 | boot_info_info) ∧ 0 <= boot_info_info ∧ boot_info_info + 1048576 + 8 <= 18446744073709551616)
    (Hover : boot_info_info <= boot ∨ boot + Z.of_nat (length (encode ts)) <= boot_info_info)
    (Hsz : slots_sized (k_boot (w_st w))) :
  (¬ (has_tag ts _MULTI_BOOT_TAG_TYPE_ELF_SYMBOLS ∧ has_tag ts _MULTI_BOOT_TAG_TYPE_MMAP) →
    kernal_main fuel boot w = Assert) ∧
  (∀ te tm, te ∈ ts → t_type te = _MULTI_BOOT_TAG_TYPE_ELF_SYMBOLS → t_data te ≠ [] →
    tm ∈ ts → t_type tm = _MULTI_BOOT_TAG_TYPE_MMAP → t_data tm ≠ [] →
    ∃ w1 pe pm,
      kernal_main fuel boot w =
        (mem_call (mem_bootstrap_1 pe (Z.of_nat (length (t_data te))) pm (Z.of_nat (length (t_data tm)))) ;;
         start_rest fuel) w1 ∧
      bytes_at (w_mem w1) pe (t_data te) ∧ bytes_at (w_mem w1) pm (t_data tm) ∧
      k_mem (w_st w1) = k_mem (w_st w) ∧ handlers (k_intr (w_st w1)) = handlers (k_intr (w_st w))).
Proof.
  destruct (kernal_main_saved fuel boot ts w) as (w1&Hbt&->); [by split|]. split.
  - intros Hmiss. pose proof Hbt as [Hrec Hno _ _ _]. set (b := k_boot (w_st w1)) in *.
    destruct (decide (Exists (λ t, t_type t = _MULTI_BOOT_TAG_TYPE_ELF_SYMBOLS ∧ t_data t ≠ []) ts)) as [He|He].
    + apply list.Exists_exists in He as (t&Hin&Ht&Hne). rewrite <-Ht.
      destruct (require_present _ _ b t w1 Hrec eq_refl Hin ltac:(by rewrite Ht) Hne) as [Hr _].
      rewrite (bind_done _ _ _ _ _ Hr). apply bind_assert.
      apply (require_missing _ ts b _ w1 Hrec); [done|done|done|]. intros Hm'. apply Hmiss. split; [|done].
      apply list.Exists_exists. by exists t.
    + apply bind_assert. by apply (require_missing _ ts b _ w1 Hrec).
  - intros te tm Hie Hte Hne Him Htm Hnm.
    destruct (start_memory_run te tm ts w w1 Hbt Hie Hte Hne Him Htm Hnm) as (pe&pm&Hrun&Hbe&Hbm&_).
    exists w1, pe, pm. rewrite Hrun, (bt_intr _ _ _ Hbt), (bt_mem _ _ _ Hbt). done.
Qed.

End proofs.

(* ===================================================================== *)
(** ** Sample boots *)

Definition sample_kernel (ts : list tag) : world kernel :=
  World (poke 0x10000 (encode ts) ∅) (Kernel empty_info sample_mem (w_st sample_intr) 0 0 false).

Definition sample_boot_tags : list tag := [Tag 9 (replicate 20 0); Tag 2 [71]; Tag 6 (replicate 32 0)].

Lemma sample_boot_tags_ok : tags_ok sample_boot_tags.
Proof. split; [repeat constructor; by apply (bool_decide_unpack _)|by apply (bool_decide_unpack _)]. Qed.

Lemma kernal_main_tags_witness :
  @kernal_main sample_boot_link sample_intr_link sample_acpi_link sample_link 0 0x10000 (sample_kernel sample_tags) = Assert ∧
  ∃ w1 pe pm,
    @kernal_main sample_boot_link sample_intr_link sample_acpi_link sample_link 0 0x10000 (sample_kernel sample_boot_tags) =
      (mem_call (@mem_bootstrap_1 sample_link pe 20 pm 32) ;;
       @start_rest sample_intr_link sample_acpi_link sample_link 0) w1 ∧
    bytes_at (w_mem w1) pe (replicate 20 0) ∧ bytes_at (w_mem w1) pm (replicate 32 0) ∧
    k_mem (w_st w1) = sample_mem ∧ handlers (k_intr (w_st w1)) = replicate 256 NULL.
Proof.
  split.
  - refine (proj1 (@kernal_main_tags sample_boot_link sample_intr_link sample_acpi_link sample_link 0 0x10000
      sample_tags (sample_kernel sample_tags) sample_tags_ok _ _ _ _ _ _) _).
    + done.
    + done.
    + apply peek_bytes_at. by vm_compute.
    + split; [by exists 0x100000|done].
    + by right.
    + done.
    + intros [He _]. apply list.Exists_exists in He as (t&Hin&Ht&_). unfold sample_tags in Hin.
      rewrite !elem_of_cons, elem_of_nil in Hin. by destruct Hin as [->|[->|[]]].
  - refine (proj2 (@kernal_main_tags sample_boot_link sample_intr_link sample_acpi_link sample_link 0 0x10000
      sample_boot_tags (sample_kernel sample_boot_tags) sample_boot_tags_ok _ _ _ _ _ _)
      (Tag 9 (replicate 20 0)) (Tag 6 (replicate 32 0)) _ eq_refl _ _ eq_refl _).
    + done.
    + done.
    + apply peek_bytes_at. by vm_compute.
    + split; [by exists 0x100000|done].
    + by right.
    + done.
    + by left.
    + done.
    + by do 2 right; left.
    + done.
Defined.
