(* ===== verification/KernelBoot.v ===== *)
(** The kernel from its entry to its halt, src/kernel/kernel_main.c: the theorem
    that puts the theorems on the components together.

    The boot information is given by the formats of its four tags; what the
    kernel does with it is read off the components' own lemmas, with the
    storage of each kept apart from that of the others ([kernel_placed]) and the
    firmware's tables apart from what is written before they are read
    ([firmware_apart]).  The sample machine has 2 GB of memory, one PCI express
    bus and a frame buffer of 1024 x 768. *)
From S2P Require Import Prelude Memory Strings Util MmCore Multiboot.
From S2P Require Import Vesa Ports Interrupts Pcie Acpi AcpiAgree.
From S2P Require Import MemFrame MemSections MemFrameMap Mmu MemPage MemMap.
From S2P Require Import KernelMain.

(* ===================================================================== *)
(** ** The formats of the tags *)

Definition encode_mmap_ent (e : mmap_ent) : list Z :=
  le 8 (me_base e) ++ le 8 (me_len e) ++ le 4 (me_type e) ++ le 4 0.
Definition encode_mmap (es : list mmap_ent) : list Z := le 4 24 ++ le 4 0 ++ (es ≫= encode_mmap_ent).

Definition mmap_ent_ok (e : mmap_ent) : Prop := is_u64 (me_base e) ∧ is_u64 (me_len e) ∧ 0 <= me_type e < 4294967296.

(** A section header of a 64-bit ELF file; [eh_other] are the fields that are
    not looked at. *)
Record elf_hdr := ElfHdr { eh_type : Z; eh_addr : Z; eh_size : Z }.
Definition encode_elf_hdr (h : elf_hdr) : list Z :=
  le 4 0 ++ le 4 (eh_type h) ++ le 8 0 ++ le 8 (eh_addr h) ++ le 8 0 ++ le 8 (eh_size h) ++ replicate 24 0.
Definition encode_elf (hs : list elf_hdr) : list Z :=
  le 4 (Z.of_nat (length hs)) ++ le 4 64 ++ le 4 0 ++ (hs ≫= encode_elf_hdr).

Definition elf_hdr_ok (h : elf_hdr) : Prop := 0 <= eh_type h < 4294967296 ∧ is_u64 (eh_addr h) ∧ is_u64 (eh_size h).
Definition loaded (hs : list elf_hdr) : list (Z * Z) := (λ h, (eh_addr h, eh_size h)) <$> filter (λ h, eh_type h ≠ 0) hs.

(** 32 bits per pixel, direct colour; the rest is not looked at. *)
Definition encode_fb (paddr pitch width height : Z) : list Z :=
  le 8 paddr ++ le 4 pitch ++ le 4 width ++ le 4 height ++ le 1 32 ++ le 1 1 ++ le 1 0 ++ replicate 7 0.

(** The root pointer of ACPI 2: the address of the XSDT stands at offset 24. *)
Definition encode_rsdp (head : list Z) (xsdt : Z) (tail : list Z) : list Z := head ++ le 8 xsdt ++ tail.

(** Reading one field of a format after another. *)
Lemma bytes_at_field n m a o k v rest : bytes_at m (a + o) (le n v ++ rest) → 0 <= v < 256 ^ Z.of_nat n → k = o + Z.of_nat n →
  load n m (a + o) = v ∧ bytes_at m (a + k) rest.
Proof.
  intros [H1 H2]%bytes_at_app Hv ->. rewrite le_length in H2. split; [by apply load_le|].
  by rewrite Z.add_assoc.
Qed.

Lemma bytes_at_skip m a o k (l rest : list Z) : bytes_at m (a + o) (l ++ rest) → k = o + Z.of_nat (length l) →
  bytes_at m (a + k) rest.
Proof. intros [_ H2]%bytes_at_app ->. by rewrite Z.add_assoc. Qed.

Lemma bytes_at_0 m a l : bytes_at m a l → bytes_at m (a + 0) l.
Proof. by rewrite Z.add_0_r. Qed.

Lemma mmap_ent_length e : length (encode_mmap_ent e) = 24%nat.
Proof. unfold encode_mmap_ent. by rewrite !length_app, !le_length. Qed.

Lemma mmap_ents_encoded m a es : Forall mmap_ent_ok es → bytes_at m a (es ≫= encode_mmap_ent) →
  mmap_ents m a 0 (length es) = es.
Proof.
  intros Hok. revert a. induction Hok as [|e es (H1&H2&H3) Hok IH]; intros a Hb; [done|].
  cbn [length]. rewrite mmap_ents_succ. rewrite bind_cons in Hb. apply bytes_at_app in Hb as [Hb Hbs].
  rewrite mmap_ent_length in Hbs. f_equal.
  - unfold encode_mmap_ent in Hb. apply bytes_at_0 in Hb. unfold mmap_ent_at. rewrite Z.mul_0_r.
    apply (bytes_at_field 8 _ _ 0 8) in Hb as [-> Hb]; [|done..].
    apply (bytes_at_field 8 _ _ 8 16) in Hb as [E2 Hb]; [|done..].
    apply (bytes_at_field 4 _ _ 16 20) in Hb as [E3 _]; [|done..].
    rewrite Z.add_0_r, E2, E3. by destruct e.
  - rewrite <-(IH (a + 24) Hbs) at 2. unfold mmap_ents. rewrite <-(fmap_add_seqZ 1 0), <-list_fmap_compose.
    apply list_fmap_ext. intros i x _. unfold mmap_ent_at. cbn [compose]. f_equal; f_equal; lia.
Qed.

Lemma elf_hdr_length h : length (encode_elf_hdr h) = 64%nat.
Proof. unfold encode_elf_hdr. by rewrite !length_app, !le_length, length_replicate. Qed.

Lemma filter_fmap_iff {A B} (f : A → B) (P : B → Prop) (Q : A → Prop) `{∀ x, Decision (P x)} `{∀ x, Decision (Q x)} (l : list A) :
  (∀ x, P (f x) ↔ Q x) → filter P (f <$> l) = f <$> filter Q l.
Proof.
  intros Hiff. induction l as [|x l IH]; [done|]. rewrite fmap_cons, !list.filter_cons, IH.
  destruct (decide (P (f x))) as [Hp|Hp], (decide (Q x)) as [Hq|Hq]; [done|by apply Hiff in Hp|by apply Hiff in Hq|done].
Qed.

Lemma elf_loaded_encoded m a hs : Forall elf_hdr_ok hs → bytes_at m a (hs ≫= encode_elf_hdr) →
  elf_loaded m a 64 (Z.of_nat (length hs)) = loaded hs.
Proof.
  intros Hok. revert a. induction Hok as [|h hs (H1&H2&H3) Hok IH]; intros a Hb; [done|].
  rewrite bind_cons in Hb. apply bytes_at_app in Hb as [Hb Hbs]. rewrite elf_hdr_length in Hbs.
  unfold encode_elf_hdr in Hb. apply bytes_at_0 in Hb.
  apply (bytes_at_field 4 _ _ 0 4) in Hb as [_ Hb]; [|done..].
  apply (bytes_at_field 4 _ _ 4 8) in Hb as [E1 Hb]; [|done..].
  apply (bytes_at_field 8 _ _ 8 16) in Hb as [_ Hb]; [|done..].
  apply (bytes_at_field 8 _ _ 16 24) in Hb as [E2 Hb]; [|done..].
  apply (bytes_at_field 8 _ _ 24 32) in Hb as [_ Hb]; [|done..].
  apply (bytes_at_field 8 _ _ 32 40) in Hb as [E3 _]; [|done..].
  unfold elf_loaded, loaded. cbn [length]. rewrite Nat2Z.inj_succ, seqZ_cons by lia.
  rewrite !list.filter_cons, Z.mul_0_l, Z.add_0_r, E1.
  assert (filter (λ i, load 4 m (a + i * 64 + 4) ≠ 0) (seqZ 1 (Z.of_nat (length hs))) =
    Z.add 1 <$> filter (λ i, load 4 m (a + 64 + i * 64 + 4) ≠ 0) (seqZ 0 (Z.of_nat (length hs)))) as Efil.
  { rewrite <-(fmap_add_seqZ 1 0). apply filter_fmap_iff. intros i.
    by replace (a + (1 + i) * 64 + 4) with (a + 64 + i * 64 + 4) by lia. }
  specialize (IH (a + 64) Hbs). unfold elf_loaded, loaded in IH.
  replace (Z.succ 0) with 1 by lia. replace (Z.pred (Z.succ (Z.of_nat (length hs)))) with (Z.of_nat (length hs)) by lia.
  assert ((λ i, (load 8 m (a + i * 64 + 16), load 8 m (a + i * 64 + 32))) <$>
    filter (λ i, load 4 m (a + i * 64 + 4) ≠ 0) (seqZ 1 (Z.of_nat (length hs))) =
    (λ h, (eh_addr h, eh_size h)) <$> filter (λ h, eh_type h ≠ 0) hs) as Erest.
  { rewrite Efil, <-list_fmap_compose, <-IH. apply list_fmap_ext. intros i x _. cbn [compose]. f_equal; f_equal; lia. }
  destruct (decide (eh_type h ≠ 0)); [|exact Erest]. cbn [fmap list_fmap].
  rewrite Z.mul_0_l, Z.add_0_r, E2, E3. f_equal. exact Erest.
Qed.

(* ===================================================================== *)
(** ** The stages *)

Section boot.
Context `{BootLink} `{IntrLink} `{AcpiLink} `{MemFrame.Link}.

Lemma vesa_bootstrap_run p paddr pitch width height (w : world vesa) :
  bytes_at (w_mem w) p (encode_fb paddr pitch width height) → 0 <= p → p + 30 <= 18446744073709551616 →
  is_u64 paddr → 0 <= pitch < 4294967296 → 0 <= width < 4294967296 → 0 <= height < 4294967296 →
  d_vesa_bootstrap p 30 w = Done ((), World (w_mem w) (Vesa paddr width height 4)).
Proof.
  intros Hb Hp0 Hp1 Ha Hpi Hw Hh. unfold encode_fb in Hb. apply bytes_at_0 in Hb.
  apply (bytes_at_field 8 _ _ 0 8) in Hb as [E1 Hb]; [|done..].
  apply (bytes_at_field 4 _ _ 8 12) in Hb as [_ Hb]; [|done..].
  apply (bytes_at_field 4 _ _ 12 16) in Hb as [E3 Hb]; [|done..].
  apply (bytes_at_field 4 _ _ 16 20) in Hb as [E4 Hb]; [|done..].
  apply (bytes_at_field 1 _ _ 20 21) in Hb as [E5 Hb]; [|done..].
  apply (bytes_at_field 1 _ _ 21 22) in Hb as [E6 Hb]; [|done..].
  apply (bytes_at_field 1 _ _ 22 23) in Hb as [E7 _]; [|done..].
  rewrite Z.add_0_r in E1. unfold d_vesa_bootstrap, uadd. rewrite !(u64_small (p + _)) by lia.
  rewrite read_then. cbn [mem_of world_has_memory]. rewrite E6, assert_then. cbn [Z.eqb Pos.eqb].
  rewrite read_then. cbn [mem_of world_has_memory]. rewrite E5, assert_then. cbn [Z.eqb Pos.eqb].
  rewrite read_then. cbn [mem_of world_has_memory]. rewrite E7, !assert_then. cbn [Z.eqb Pos.eqb].
  rewrite !read_then. cbn [mem_of world_has_memory]. by rewrite E1, E3, E4, E5.
Qed.

(** The variables of the memory manager after the first stage. *)
Definition stage_1_state (avail : list section_t) (start end_ : Z) (s : mem_state) : mem_state :=
  set_boot_stage MEM_BOOTSTRAP_STAGE_1 (set_cr3 _tab_4_bootstrap (set_frame_count 1026 (set_kern start end_
    (with_sections avail (_sections s) (set_pa_list_next _pa_list_bootstrap_pool (set_frame_count 0 s)))))).

(** The kernel lies strictly between the bounds of the available memory. *)
Definition image_inside (avail : list section_t) (start end_ : Z) : Prop :=
  ∃ first last, avail !! 0%nat = Some first ∧ list.last avail = Some last ∧ sec_base first < start ∧ end_ < sec_end last.

Lemma sections_of_with l old s : sections_of (with_sections l old s) = l.
Proof. unfold sections_of, with_sections. cbn. by rewrite Nat2Z.id, take_app_length. Qed.

Lemma nth_front {A} (l k : list A) i x d : l !! i = Some x → nth i (l ++ k) d = x.
Proof.
  intros Hx. pose proof (lookup_lt_Some _ _ _ Hx). rewrite app_nth1 by done.
  rewrite nth_lookup, Hx. done.
Qed.

(** The part of the first stage that reads the boot information. *)
Lemma frame_bootstrap_1_run pe pm n ne es hs (w : world mem_state) :
  let avail := available es in let start := image_start (loaded hs) in let end_ := image_end (loaded hs) in
  boot_stage (w_st w) = MEM_BOOTSTRAP_STAGE_0 → length (_sections (w_st w)) = 32%nat →
  load 4 (w_mem w) pm = 24 → load 4 (w_mem w) (pm + 4) = 0 → mmap_ents (w_mem w) (pm + 8) 0 n = es →
  0 <= pm → pm + 8 + 24 * Z.of_nat n < 18446744073709551616 →
  load 4 (w_mem w) pe = Z.of_nat (length hs) → load 4 (w_mem w) (pe + 4) = 64 →
  elf_loaded (w_mem w) (pe + 12) 64 (Z.of_nat (length hs)) = loaded hs →
  0 <= pe → pe + 12 + Z.of_nat (length hs) * 64 + 40 <= 18446744073709551616 →
  sections_ok avail → image_ok avail start end_ → avail ≠ [] →
  mem_frame_bootstrap_1 pe ne pm (8 + 24 * Z.of_nat n) w = Done ((), World (w_mem w) (set_kern start end_
    (with_sections avail (_sections (w_st w)) (set_pa_list_next _pa_list_bootstrap_pool (set_frame_count 0 (w_st w)))))).
Proof.
  intros avail start end_ Hst H32 M1 M2 M3 Hm0 Hm1 E1 E2 E3 He0 He1 Hsec Himg Hne. unfold mem_frame_bootstrap_1.
  rewrite (bind_done _ _ _ _ _ (eq_refl : static boot_stage w = _)), assert_then, Hst. cbn [Z.eqb MEM_BOOTSTRAP_STAGE_0].
  set (s1 := set_pa_list_next _pa_list_bootstrap_pool (set_frame_count 0 (w_st w))). set (w1 := World (w_mem w) s1).
  rewrite (bind_done _ _ w () (World (w_mem w) (set_frame_count 0 (w_st w)))) by done.
  rewrite (bind_done _ _ _ () w1) by done.
  pose proof (mmap_info_run pm n w1 Hm0 Hm1 H32) as Hmm. cbn [w1 w_mem w_st] in Hmm. rewrite M3 in Hmm. fold avail in Hmm.
  unfold mmap_format_ok in Hmm. rewrite M1, M2 in Hmm.
  change (boot_stage s1) with (boot_stage (w_st w)) in Hmm. rewrite Hst in Hmm. cbn [Z.eqb MEM_BOOTSTRAP_STAGE_0 andb] in Hmm.
  rewrite (proj2 (fit_all_ok [] avail sections_ok_nil) Hsec) in Hmm. rewrite (bind_done _ _ _ _ _ Hmm).
  change (_sections s1) with (_sections (w_st w)) in *. set (w2 := World _ _).
  pose proof (kernel_symbols_done pe ne w2) as Hk. cbn [w2 w_mem w_st] in Hk. rewrite E1, E2, E3 in Hk.
  rewrite sections_of_with in Hk. apply Hk; [done|done|lia| |done].
  cbn. destruct Hsec as [Hcap _ _]. unfold _SECTION_CAP in Hcap. rewrite length_app, length_drop.
  destruct avail; [done|cbn [length] in *; lia].
Qed.

Lemma wp_mem_bootstrap_1 pe pm es hs (w : world mem_state) :
  let avail := available es in let start := image_start (loaded hs) in let end_ := image_end (loaded hs) in
  link_ok → boot_stage (w_st w) = MEM_BOOTSTRAP_STAGE_0 → length (_sections (w_st w)) = 32%nat →
  bytes_at (w_mem w) pe (encode_elf hs) → bytes_at (w_mem w) pm (encode_mmap es) →
  0 <= pe → pe + Z.of_nat (length (encode_elf hs)) + 40 <= 18446744073709551616 →
  0 <= pm → pm + Z.of_nat (length (encode_mmap es)) < 18446744073709551616 →
  Forall mmap_ent_ok es → Forall elf_hdr_ok hs → Z.of_nat (length hs) < 4294967296 → sections_ok avail →
  image_ok avail start end_ → image_inside avail start end_ →
  wp (mem_bootstrap_1 pe (Z.of_nat (length (encode_elf hs))) pm (Z.of_nat (length (encode_mmap es)))) (λ _ w',
    w_st w' = stage_1_state avail start end_ (w_st w) ∧
    ∀ a, a < _tab_4_bootstrap ∨ _tab_4_bootstrap + 4096 <= a → a < _frame_pool_bootstrap ∨ POOL_END <= a →
      load8 (w_mem w') a = load8 (w_mem w) a) w.
Proof.
  intros avail start end_ Hlk Hst0 H32 Hbe Hbm Hpe0 Hpe1 Hpm0 Hpm1 Hes Hhs Hn Hsec Himg Hin.
  assert (Z.of_nat (length (encode_mmap es)) = 8 + 24 * Z.of_nat (length es)) as Elm.
  { unfold encode_mmap. rewrite !length_app, !le_length. clear. induction es as [|e es IH]; [done|].
    rewrite bind_cons, length_app, mmap_ent_length. cbn [length]. lia. }
  assert (Z.of_nat (length (encode_elf hs)) = 12 + 64 * Z.of_nat (length hs)) as Ele.
  { unfold encode_elf. rewrite !length_app, !le_length. clear. induction hs as [|h hs IH]; [done|].
    rewrite bind_cons, length_app, elf_hdr_length. cbn [length]. lia. }
  rewrite Elm in *. rewrite Ele in *. unfold encode_mmap in Hbm. unfold encode_elf in Hbe.
  apply bytes_at_0 in Hbm, Hbe.
  apply (bytes_at_field 4 _ _ 0 4) in Hbm as [M1 Hbm]; [|done..]. apply (bytes_at_field 4 _ _ 4 8) in Hbm as [M2 Hbm]; [|done..].
  apply (bytes_at_field 4 _ _ 0 4) in Hbe as [E1 Hbe]; [|lia|done]. apply (bytes_at_field 4 _ _ 4 8) in Hbe as [E2 Hbe]; [|done..].
  apply (bytes_at_field 4 _ _ 8 12) in Hbe as [_ Hbe]; [|done..]. rewrite Z.add_0_r in M1, E1.
  destruct Hin as (first&last&Hfirst&Hlast&Hlo&Hhi).
  assert (avail ≠ []) as Hne by (by intros E; rewrite E in Hfirst).
  unfold mem_bootstrap_1. apply wp_bind, wp_static, wp_bind, wp_assert; [by rewrite Hst0|]. apply wp_bind, wp_done.
  do 2 eexists. split.
  { apply (frame_bootstrap_1_run pe pm (length es) _ es hs w); try done; try lia.
    - by apply mmap_ents_encoded.
    - by apply elf_loaded_encoded. }
  set (s2 := set_kern _ _ _). apply wp_bind. eapply wp_mono.
  { apply (wp_page_bootstrap_1 (World (w_mem w) s2) Hlk); [|done]. cbn [w_st].
    rewrite list.last_lookup in Hlast. pose proof (lookup_lt_Some _ _ _ Hlast) as Hlt.
    destruct Hsec as [Hcap _ _]. unfold _SECTION_CAP in Hcap. split; cbn.
    - done.
    - rewrite length_app, length_drop. change (available es) with avail. lia.
    - rewrite (nth_front avail _ 0 first) by done. split; [done|]. destruct Himg as (_&?&_). fold start end_. lia.
    - change (available es) with avail. replace (Z.to_nat (Z.of_nat (length avail) - 1)) with (Nat.pred (length avail)) by lia.
      rewrite (nth_front avail _ _ last _ Hlast). exact Hhi. }
  intros _ w3 [Hs3 _ _ Hout3]. apply wp_static_set. cbn [w_mem w_st]. split; [by rewrite Hs3|exact Hout3].
Qed.

(** ** The machine that the firmware describes *)

Record machine := Machine {
  mc_mmap : list mmap_ent;
  mc_elf : list elf_hdr;
  mc_fb : Z; mc_pitch : Z; mc_width : Z; mc_height : Z;
  mc_rsdp_head : list Z; mc_xsdt : Z; mc_rsdp_tail : list Z;
}.

Definition managed (M : machine) : list section_t := available (mc_mmap M).
Definition kern_start (M : machine) : Z := image_start (loaded (mc_elf M)).
Definition kern_end (M : machine) : Z := image_end (loaded (mc_elf M)).
Definition display (M : machine) : vesa := Vesa (mc_fb M) (mc_width M) (mc_height M) 4.
Definition display_len (M : machine) : Z := frame_buffer_len (display M).

(** The four tags that the kernel reads. *)
Record described (ts : list tag) (M : machine) : Prop := {
  ds_elf : Tag _MULTI_BOOT_TAG_TYPE_ELF_SYMBOLS (encode_elf (mc_elf M)) ∈ ts;
  ds_mmap : Tag _MULTI_BOOT_TAG_TYPE_MMAP (encode_mmap (mc_mmap M)) ∈ ts;
  ds_fb : Tag _MULTI_BOOT_TAG_TYPE_FRAME_BUFFER (encode_fb (mc_fb M) (mc_pitch M) (mc_width M) (mc_height M)) ∈ ts;
  ds_rsdp : Tag _MULTI_BOOT_TAG_TYPE_ACPI_NEW (encode_rsdp (mc_rsdp_head M) (mc_xsdt M) (mc_rsdp_tail M)) ∈ ts;
  ds_elf_ok : Forall elf_hdr_ok (mc_elf M) ∧ Z.of_nat (length (mc_elf M)) < 4294967296;
  ds_mmap_ok : Forall mmap_ent_ok (mc_mmap M);
  ds_fb_ok : is_u64 (mc_fb M) ∧ 0 <= mc_pitch M < 4294967296 ∧ 0 <= mc_width M < 4294967296 ∧ 0 <= mc_height M < 4294967296;
  ds_rsdp_ok : length (mc_rsdp_head M) = 24%nat ∧ is_u64 (mc_xsdt M);
}.

(** The memory map: the sections are in order, the kernel lies within them,
    and the first one of more than 8 MB has room for the map of the frames. *)
Record memory_sound (M : machine) : Prop := {
  ms_sections : sections_ok (managed M);
  ms_image : image_ok (managed M) (kern_start M) (kern_end M);
  ms_inside : image_inside (managed M) (kern_start M) (kern_end M);
  ms_limit : 0 <= kern_end M <= PA_LIMIT;
  ms_sane : Forall section_sane (managed M);
  ms_total : total_len (big (managed M)) < 281474976710656;
  ms_map : map_fits (map_pages (total_len (big (managed M)))) (big (managed M)) = true;
}.

(** The devices: the managed sections keep a gap to them, the frame buffer is
    whole pages of the address space and as high as a row of text, which the
    log lines need, and the frames last. *)
Record devices_sound (M : machine) (p : pcie) : Prop := {
  dv_groups : 0 <= _gropp_cnt p <= Z.of_nat (length (_groups p));
  dv_ranges : devices_sane p (display M);
  dv_clear : Forall (clear_of_devices p (display M)) (big (managed M));
  dv_aligned : (4096 | mc_fb M) ∧ (4096 | display_len M);
  dv_window : display_len M < VA_48_FRAME_BUFFER_END - VA_48_FRAME_BUFFER ∧ mc_fb M + display_len M <= PA_LIMIT;
  dv_height : 16 <= mc_height M;
  dv_frames : 1026 + tables_needed 0 (kern_end M / 4096) + tables_needed VA_48_FRAME_BUFFER (display_len M / 4096)
    <= _FRAME_CAP_BOOTSTRAP;
}.

(** The addresses written before the tables of ACPI are read. *)
Definition written_early (a : Z) : Prop :=
  boot_info_info <= a < boot_info_info + MULTI_BOOT_INFO_CAP ∨ _tab_4_bootstrap <= a < _tab_4_bootstrap + 4096 ∨
  _frame_pool_bootstrap <= a < POOL_END.

(** Where the parts of the kernel stand. *)
Record kernel_placed : Prop := {
  kp_tables : link_ok;
  kp_info : (boot_info_info + MULTI_BOOT_INFO_CAP <= _tab_4_bootstrap ∨ _tab_4_bootstrap + 4096 <= boot_info_info) ∧
    (boot_info_info + MULTI_BOOT_INFO_CAP <= _frame_pool_bootstrap ∨ POOL_END <= boot_info_info) ∧
    boot_info_info + MULTI_BOOT_INFO_CAP + 40 <= 18446744073709551616;
  kp_lists : 0 <= _pa_list_bootstrap_pool ∧
    _pa_list_bootstrap_pool + _PA_LIST_CAP_BOOTSTRAP < 18446744073709551616 ∧
    apart _tab_4 _pa_list_bootstrap_pool (_pa_list_bootstrap_pool + _PA_LIST_CAP_BOOTSTRAP);
  kp_idt : idt_placed ∧ stubs_ok ∧ buffer_placed idt_register 10;
  kp_idt_apart : apart _tab_4 _idt (_idt + 4096) ∧
    (_idt + 4096 <= _pa_list_bootstrap_pool ∨ _pa_list_bootstrap_pool + _PA_LIST_CAP_BOOTSTRAP <= _idt);
}.

(** The static variables before the start. *)
Record kernel_fresh (k : kernel) : Prop := {
  kf_stage : boot_stage (k_mem k) = MEM_BOOTSTRAP_STAGE_0;
  kf_sections : length (_sections (k_mem k)) = 32%nat;
  kf_handlers : length (handlers (k_intr k)) = 256%nat;
}.

(** ** The stages after the first *)

(** The static variables of the memory manager when the second stage begins. *)
Definition devices_state (M : machine) (p : pcie) (s : mem_state) : mem_state :=
  set_pcie p (set_vesa (display M) (stage_1_state (managed M) (kern_start M) (kern_end M) s)).

(** The copy of the boot information is still there. *)
Definition keeps_info (m m' : memory) : Prop := agree boot_info_info (boot_info_info + MULTI_BOOT_INFO_CAP) m m'.

Lemma present_tag m ts (w : world kernel) type data : recorded m ts (k_boot (w_st w)) → keeps_info m (w_mem w) →
  Tag type data ∈ ts → 0 <= type → data ≠ [] →
  require_tag type w = Done ((), w) ∧
  ∃ p, boot_ptr type w = Done (p, w) ∧ boot_len type w = Done (Z.of_nat (length data), w) ∧ p ≠ NULL ∧
    bytes_at (w_mem w) p data ∧ boot_info_info <= p ∧ p + Z.of_nat (length data) <= boot_info_info + MULTI_BOOT_INFO_CAP.
Proof.
  intros Hrec Hag Hin Hty Hne. destruct (require_present m ts _ (Tag type data) w Hrec eq_refl Hin Hty Hne)
    as (Hr&p&Hp&Hl&Hb&Hnull&Hlo&Hhi). cbn [t_type t_data] in *.
  split; [done|]. exists p. split_and!; try done.
  eapply bytes_at_agree; [|exact Hb]. eapply agree_weaken; [exact Hag|lia..].
Qed.

Lemma start_vesa_run m ts M (w : world kernel) : recorded m ts (k_boot (w_st w)) → keeps_info m (w_mem w) →
  described ts M → kernel_placed → 0 <= boot_info_info →
  start_vesa w = Done ((), World (w_mem w) (set_k_mem (set_vesa (display M) (k_mem (w_st w))) (w_st w))).
Proof.
  intros Hrec Hag [_ _ Hin _ _ _ (Ha&Hpi&Hw&Hh) _] [_ (_&_&Hend) _ _ _] H0'.
  assert (length (encode_fb (mc_fb M) (mc_pitch M) (mc_width M) (mc_height M)) = 30%nat) as Hlen
    by (unfold encode_fb; by rewrite !length_app, !le_length).
  destruct (present_tag m ts w _ _ Hrec Hag Hin ltac:(done)) as (Hr&p&Hp&Hl&_&Hb&Hlo&Hhi).
  { intros E. by rewrite E in Hlen. }
  rewrite Hlen in *. unfold start_vesa.
  rewrite (bind_done _ _ _ _ _ Hr), (bind_done _ _ _ _ _ Hp), (bind_done _ _ _ _ _ Hl).
  unfold mem_call, MemFrame.vesa_call, within, zoom. cbn [w_mem w_st].
  rewrite (vesa_bootstrap_run p (mc_fb M) (mc_pitch M) (mc_width M) (mc_height M)); [done|done|lia|lia|done..].
Qed.

Lemma start_acpi_run m ts M n p' (w : world kernel) : recorded m ts (k_boot (w_st w)) → keeps_info m (w_mem w) →
  described ts M → kernel_placed → 0 <= boot_info_info → text_mcfg_ok (w_mem w) →
  root_table_ok 8 (w_mem w) (mc_xsdt M) n →
  pcie_after (w_mem w) (sdt_entries 8 (w_mem w) (mc_xsdt M) n) (st_pcie (k_mem (w_st w))) = p' →
  start_acpi w = Done ((), World (w_mem w) (set_k_mem (set_pcie p' (k_mem (w_st w))) (w_st w))).
Proof.
  intros Hrec Hag [_ _ _ Hin _ _ _ [Hhead Hx]] [_ (_&_&Hend) _ _ _] H0' Ht Hroot Hp'.
  set (data := encode_rsdp _ _ _) in *.
  assert (32 <= Z.of_nat (length data)) as Hlen
    by (unfold data, encode_rsdp; rewrite !length_app, le_length, Hhead; lia).
  destruct (present_tag m ts w _ _ Hrec Hag Hin ltac:(done)) as (_&p&Hp&Hl&Hnull&Hb&Hlo&Hhi).
  { intros E. rewrite E in Hlen. cbn in Hlen. lia. }
  unfold start_acpi. rewrite (bind_done _ _ _ _ _ Hp), (proj2 (Z.eqb_neq _ _)) by done. cbn [negb].
  rewrite (bind_done _ _ _ _ _ Hl), (proj2 (Z.eqb_neq _ _)) by lia. rewrite assert_then. cbn [negb].
  assert (load 8 (w_mem w) (p + 24) = mc_xsdt M) as Ex.
  { unfold data, encode_rsdp in Hb. apply bytes_at_app in Hb as [_ Hb]. rewrite Hhead in Hb.
    apply bytes_at_app in Hb as [Hb _]. apply load_le; [exact Hx|exact Hb]. }
  unfold mem_call, MemFrame.pcie_call, within, zoom. cbn [w_mem w_st].
  rewrite (acpi_64_run p _ n); [cbn [w_mem w_st]; by rewrite Ex, Hp'|lia|lia|done|by cbn [w_mem]; rewrite Ex].
Qed.

(** The second stage of the boot-time memory manager as a whole. *)
Lemma wp_mem_bootstrap_2 fuel (w : world mem_state) : link_ok → boot_2_ok w → frames_known (w_st w) →
  boot_stage (w_st w) = MEM_BOOTSTRAP_STAGE_1 →
  let l := big (sections_of (w_st w)) in let n := map_pages (total_len l) in
  devices_sane (st_pcie (w_st w)) (st_vesa (w_st w)) →
  Forall (clear_of_devices (st_pcie (w_st w)) (st_vesa (w_st w))) l → map_fits n l = true →
  (Z.to_nat (kernel_pages (w_st w)) + 1 < fuel)%nat →
  (Z.to_nat (frame_buffer_len (st_vesa (w_st w)) / 4096) + 1 < fuel)%nat →
  wp (mem_bootstrap_2 fuel) (λ _ w', ∃ w2,
    let w1 := World (w_mem w) (set_frame_map (map_place l) (n * 512) (w_st w)) in
    boot_2_ok w1 ∧ boot_2_view w1 w2 ∧ boot_2_mapped w1 w2 ∧ w' = World (w_mem w2) (set_boot_stage MEM_BOOTSTRAP_STAGE_2 (w_st w2))) w.
Proof.
  intros Hlk Hb Hfk Hst l n Hdv Hcl Hfit Hf1 Hf2. unfold mem_bootstrap_2.
  apply wp_bind, wp_static, wp_bind, wp_assert; [by rewrite Hst|]. apply wp_bind, wp_done. do 2 eexists. split.
  { rewrite (frame_bootstrap_2_run w Hfk). fold l n. rewrite Hfit.
    pose proof (proj2 (clear_all_gap (w_st w) _ Hdv (fk_sane _ Hfk)) Hcl) as E. fold l in E. by rewrite E. }
  set (w1 := World _ _). assert (boot_2_ok w1) as Hb1 by (by destruct Hb; split).
  apply wp_bind. eapply wp_mono; [by apply wp_bootstrap_2|]. intros [] w2 Hm. apply wp_static_set.
  exists w2. split; [done|]. split; [by apply boot_2_views|]. by split.
Qed.

Lemma devices_ready M p s m : memory_sound M → devices_sound M p → kernel_placed → length (_sections s) = 32%nat →
  is_u64 (mc_fb M) → 0 <= mc_width M → 0 <= mc_height M →
  let s2 := devices_state M p s in
  boot_2_ok (World m s2) ∧ frames_known s2 ∧ sections_of s2 = managed M.
Proof.
  intros [Hsec Him Hin Hlim Hsane Htot Hmap] [Hg _ Hcl [Hal1 Hal2] [Hwin Hend] _ Hfr] [_ _ Hlist _ _] H32 Hfb Hw Hh s2.
  assert (sections_of s2 = managed M) as Esec by apply (sections_of_with (managed M) (_sections s) (set_pa_list_next _pa_list_bootstrap_pool (set_frame_count 0 s))).
  split; [|split; [split|done]].
  - split; cbn; [done|done|done|done|done|by split_and!| |done]. by destruct Hfb; split_and!.
  - destruct Hsec as [Hc _ _]. unfold _SECTION_CAP in Hc. cbn. rewrite length_app, length_drop. lia.
  - done.
  - by rewrite Esec.
  - by rewrite Esec.
Qed.

(** ** The whole start *)

(** Accesses to the interrupt controllers; log lines make none. *)
Definition pic_access (e : io_event) : Prop :=
  (match e with Out port _ => port | In port => port end) ∈
    [PORT_NO_PIC_MASTER_CMD; PORT_NO_PIC_MASTER_DATA; PORT_NO_PIC_SLAVE_CMD; PORT_NO_PIC_SLAVE_DATA].

#[export] Instance pic_access_dec e : Decision (pic_access e) := _.

Lemma start_pic_accesses h :
  filter pic_access (pic_sequence ++ serial_sequence ++ h) = pic_sequence ++ filter pic_access h.
Proof.
  rewrite !list.filter_app. assert (filter pic_access pic_sequence = pic_sequence) as -> by (vm_compute; reflexivity).
  by assert (filter pic_access serial_sequence = []) as -> by (vm_compute; reflexivity).
Qed.

(** The machine as the kernel leaves it to the first interrupt. *)
Record started (M : machine) (p : pcie) (w w' : world kernel) : Prop := {
  sd_stage : boot_stage (k_mem (w_st w')) = MEM_BOOTSTRAP_STAGE_2;
  sd_sections : sections_of (k_mem (w_st w')) = managed M;
  sd_kernel : _kern_start_pa (k_mem (w_st w')) = kern_start M ∧ _kern_end_pa (k_mem (w_st w')) = kern_end M;
  sd_frame_map : _frame_map (k_mem (w_st w')) = map_place (big (managed M)) ∧
    _frame_map_cap (k_mem (w_st w')) = map_pages (total_len (big (managed M))) * 512;
  sd_pcie : st_pcie (k_mem (w_st w')) = p;
  sd_vesa : st_vesa (k_mem (w_st w')) = Vesa VA_48_FRAME_BUFFER (mc_width M) (mc_height M) 4;
  sd_root : cr3 (k_mem (w_st w')) = _tab_4;
  sd_image : ∀ a, 0 <= a < 4096 * (kern_end M / 4096) → translate (w_mem w') _tab_4 a = Some a;
  sd_display : ∀ o, 0 <= o < display_len M → translate (w_mem w') _tab_4 (VA_48_FRAME_BUFFER + o) = Some (mc_fb M + o);
  sd_unmapped : ∀ va, 4096 * (kern_end M / 4096) <= va `mod` 2 ^ 48 → display_len M <= (va - VA_48_FRAME_BUFFER) `mod` 2 ^ 48 →
    translate (w_mem w') _tab_4 va = None;
  sd_tail : ∀ a, 4096 * (kern_end M / 4096) <= a < kern_end M → translate (w_mem w') _tab_4 a = None;
  sd_gates : gates_below 256 (w_mem w');
  sd_handlers : handlers (k_intr (w_st w')) = replicate 256 NULL;
  sd_idtr : idtr (k_intr (w_st w')) = (IDT_GATE_LEN * IDT_GATE_COUNT - 1, _idt);
  sd_pic : filter pic_access (intr_io (k_intr (w_st w'))) = pic_sequence ++ filter pic_access (intr_io (k_intr (w_st w)));
  sd_log : k_write_screen (w_st w') = true;
}.

Lemma gates_agree k m m' : k <= 256 → agree _idt (_idt + 4096) m m' → gates_below k m → gates_below k m'.
Proof.
  intros Hk Hag Hg v Hv. rewrite <-(Hg v Hv). apply gate_at_agree. intros b Hb. symmetry. apply Hag. lia.
Qed.

(** The state in which the devices are started: the first stage is done. *)
Record stage_1_done (ts : list tag) (M : machine) (w w2 : world kernel) : Prop := {
  s1_mem : k_mem (w_st w2) = stage_1_state (managed M) (kern_start M) (kern_end M) (k_mem (w_st w));
  s1_intr : k_intr (w_st w2) = set_intr_io (serial_sequence ++ intr_io (k_intr (w_st w))) (k_intr (w_st w));
  s1_info : ∃ m, recorded m ts (k_boot (w_st w2)) ∧ keeps_info m (w_mem w2);
  s1_firmware : keeps written_early (w_mem w) (w_mem w2);
}.

Lemma stage_1_log ts M w w2 : stage_1_done ts M w w2 →
  let w2' := World (w_mem w2) (set_k_write_screen true (w_st w2)) in
  stage_1_done ts M w w2' ∧ k_write_screen (w_st w2') = true.
Proof. by intros []. Qed.

Lemma wp_same_run {A} (m m' : KM A) Q (w w' : world kernel) : m w = m' w' → wp m' Q w' → wp m Q w.
Proof. intros E (a&v&Hr&HQ)%wp_done. apply wp_done. exists a, v. by rewrite E. Qed.

Lemma wp_stage_1 fuel boot ts M (w : world kernel) (Q : unit → world kernel → Prop) :
  boot_placed boot ts w → described ts M → kernel_placed → memory_sound M → kernel_fresh (w_st w) →
  (∀ w2, stage_1_done ts M w w2 → wp (start_rest fuel) Q w2) → wp (kernal_main fuel boot) Q w.
Proof.
  intros Hbp Hds Hkp Hms [Hst0 H32 _] HQ. destruct (bp_info _ _ _ Hbp) as (_&Hi0&_).
  destruct (kernal_main_saved fuel boot ts w Hbp) as (w1&Hbt&Hrun). destruct Hds as [Hie Him _ _ [Hehs Hen] Hmes _ _].
  destruct (start_memory_run _ _ ts w w1 Hbt Hie eq_refl ltac:(done) Him eq_refl ltac:(done))
    as (pe&pm&Hgo&Hbe&Hbm&He0&He1&Hm0&Hm1). cbn [t_data] in *.
  rewrite Hgo in Hrun. apply (wp_same_run _ _ _ _ _ Hrun).
  destruct Hbt as [Hrec _ Hbm1 Hbi1 Hbo1]. destruct Hkp as [Hlk (Hap1&Hap2&Hend) _ _ _]. destruct Hms as [Hsec Himg Hin _ _ _ _].
  apply wp_bind, wp_within. eapply wp_mono.
  { apply (wp_mem_bootstrap_1 pe pm (mc_mmap M) (mc_elf M)); cbn [w_mem w_st]; rewrite ?Hbm1; try done; lia. }
  intros [] v [Hv Hout]. cbn [w_mem w_st] in *. apply HQ. split; cbn [w_mem w_st k_mem k_intr k_boot set_k_mem].
  - rewrite Hv, Hbm1. done.
  - exact Hbi1.
  - exists (w_mem w1). split; [exact Hrec|]. intros a Ha. symmetry. apply Hout; lia.
  - intros a Ha. unfold written_early in Ha. rewrite Hout by lia. apply Hbo1. lia.
Qed.

(** The variables of the memory manager when the second stage is done. *)
Definition finished_state (c fm cap : Z) (s : mem_state) : mem_state :=
  set_boot_stage MEM_BOOTSTRAP_STAGE_2 (set_cr3 _tab_4 (set_frame_count c
    (set_vesa (Vesa.set_buf VA_48_FRAME_BUFFER (st_vesa s))
      (set_pa_list_next (_pa_list_bootstrap_pool + 40) (set_frame_map fm cap s))))).

Lemma finished_fields c fm cap s : let s' := finished_state c fm cap s in
  boot_stage s' = MEM_BOOTSTRAP_STAGE_2 ∧ sections_of s' = sections_of s ∧
  _kern_start_pa s' = _kern_start_pa s ∧ _kern_end_pa s' = _kern_end_pa s ∧
  _frame_map s' = fm ∧ _frame_map_cap s' = cap ∧ st_pcie s' = st_pcie s ∧
  st_vesa s' = Vesa.set_buf VA_48_FRAME_BUFFER (st_vesa s) ∧ cr3 s' = _tab_4.
Proof. by destruct s. Qed.

Lemma wp_start_rest fuel ts M n p (w w2 : world kernel) : described ts M → kernel_placed → 0 <= boot_info_info →
  memory_sound M → devices_sound M p → kernel_fresh (w_st w) →
  firmware_apart written_early (w_mem w) 8 (mc_xsdt M) n →
  pcie_after (w_mem w) (sdt_entries 8 (w_mem w) (mc_xsdt M) n) (st_pcie (k_mem (w_st w))) = p →
  (Z.to_nat (kern_end M / 4096) + 1 < fuel)%nat → (Z.to_nat (display_len M / 4096) + 1 < fuel)%nat →
  stage_1_done ts M w w2 → wp (start_rest fuel) (λ _ w', started M p w w') w2.
Proof.
  intros Hds Hkp Hi0 Hms Hdv [_ H32 H256] Hfw Hpa Hf1 Hf2 Hs1. unfold start_rest.
  apply wp_bind, wp_done. do 2 eexists. split; [apply log_enable_run|].
  apply stage_1_log in Hs1 as [[Hmem Hintr (m&Hrec&Hag) Hkeep] Hlog]. set (w2' := World _ _) in *.
  clearbody w2'. clear w2. rename w2' into w2.
  destruct (firmware_kept _ _ _ Hkeep 8 (mc_xsdt M) n (st_pcie (k_mem (w_st w))) Hfw) as (Ht&Hroot&Hp). rewrite Hpa in Hp.
  pose proof (ds_fb_ok _ _ Hds) as (Hfb&_&[Hw _]&[Hh _]). pose proof Hkp as [Hlk _ _ (Hidt&Hstubs&Hreg) [Hap Hapl]].
  apply wp_bind, wp_done. do 2 eexists. split; [by eapply start_vesa_run|].
  apply wp_bind, wp_done. do 2 eexists. split.
  { eapply (start_acpi_run m ts M n p); cbn [w_mem w_st k_mem set_k_mem k_boot set_vesa st_pcie]; try done. by rewrite Hmem. }
  cbn [w_mem w_st k_mem set_k_mem k_boot k_intr]. rewrite Hmem.
  change (set_pcie p (set_vesa (display M) (stage_1_state _ _ _ _))) with (devices_state M p (k_mem (w_st w))).
  set (s2 := devices_state M p (k_mem (w_st w))).
  apply wp_bind, wp_within. cbn [w_mem w_st k_intr set_k_mem]. eapply wp_mono.
  { apply wp_intr_init; [done..|]. cbn [w_st]. by rewrite Hintr. }
  intros [] v [Hg Hvs _]. cbn [w_mem w_st] in Hvs. rewrite Hintr in Hvs.
  destruct (devices_ready M p (k_mem (w_st w)) (w_mem v) Hms Hdv Hkp H32 Hfb Hw Hh) as (Hb2&Hfk&Hso). fold s2 in Hb2, Hfk, Hso.
  assert (boot_stage s2 = MEM_BOOTSTRAP_STAGE_1 ∧ _kern_start_pa s2 = kern_start M ∧ _kern_end_pa s2 = kern_end M ∧
    st_pcie s2 = p ∧ st_vesa s2 = display M) as (Est&Eks&Eke&Epc&Eve) by (by split_and!).
  assert (devices_sane (st_pcie s2) (st_vesa s2) ∧ Forall (clear_of_devices (st_pcie s2) (st_vesa s2)) (big (managed M)))
    as [Hds2 Hcl] by (rewrite Epc, Eve; split; apply Hdv). clearbody s2.
  apply wp_bind, wp_within. cbn [w_mem w_st k_mem set_k_mem set_k_intr]. eapply wp_mono.
  { apply (wp_mem_bootstrap_2 fuel (World (w_mem v) s2)); cbn [w_st]; rewrite ?Hso; [done..|apply Hms| |].
    - unfold kernel_pages. by rewrite Eke.
    - by rewrite Eve. }
  cbn zeta. cbn [w_mem w_st]. rewrite !Hso.
  intros [] w3 (w4&Hb2'&Hview & [Hs4 Hpt Htr Hout] & ->).
  pose proof (proj2 (boot_2_kernel_tail _ _ Hb2' Hview)) as Htail. destruct Hview as [Hr Hbuf Hk Hd Hno].
  unfold kernel_pages in Hk, Hno, Htail.
  cbn [w_mem w_st _kern_end_pa st_vesa set_frame_map] in Hs4, Hk, Hd, Hno, Hout, Htail. rewrite Hr in Hk, Hd, Hno, Htail.
  assert (set_boot_stage MEM_BOOTSTRAP_STAGE_2 (w_st w4) = finished_state (cnt w4) (map_place (big (managed M)))
    (map_pages (total_len (big (managed M))) * 512) s2) as Hfin by (by rewrite Hs4).
  clear Hs4.
  apply wp_ret. split; cbn [w_mem w_st k_mem k_intr set_k_mem set_k_intr]; rewrite ?Hfin.
  all: destruct (finished_fields (cnt w4) (map_place (big (managed M))) (map_pages (total_len (big (managed M))) * 512) s2)
    as (F1&F2&F3&F4&F5&F6&F7&F8&F9).
  - exact F1.
  - by rewrite F2.
  - by rewrite F3, F4.
  - by rewrite F5, F6.
  - by rewrite F7.
  - by rewrite F8, Eve.
  - exact F9.
  - intros a Ha. apply Hk. by rewrite Eke.
  - intros o Ho. rewrite Hd by (by rewrite Eve). by rewrite Eve.
  - intros va Hva Hva2. apply Hno; [by rewrite Eke|by rewrite Eve].
  - rewrite Eke in Htail. exact Htail.
  - eapply gates_agree; [done| |exact Hg]. intros a Ha. symmetry. destruct Hap. apply Hout; lia.
  - by rewrite Hvs.
  - by rewrite Hvs.
  - rewrite Hvs. apply start_pic_accesses.
  - exact Hlog.
Qed.

(** C1: the kernel from its entry to its halt, its log lines left out (they
    print on the serial line and into the frame buffer, and need a display of
    16 lines and a serial line that gets ready).  For boot information with the
    four tags the kernel reads, in their formats, a memory map and devices that
    fit together, and parts that stand apart, [kernal_main] returns; then the
    managed memory, the extent of the kernel and the place of the frame map are
    those of the boot information, the PCI express driver knows what the scan
    of the firmware's tables found, and the kernel's own page tables are
    loaded: they map to itself what lies below the last page boundary of the
    kernel, and the frame buffer into its window, and nothing else, so that
    the bytes of the kernel beyond that boundary are not mapped.  All 256
    vectors have their gates with no handler registered, the interrupt
    controllers got their sequence of commands and no other access, and the log
    writes to the screen. *)
Theorem kernal_main_ok (fuel : nat) (boot : Z) (ts : list tag) (M : machine) (n : Z) (w : world kernel)
    (Hboot : boot_placed boot ts w) (Hds : described ts M) (Hkp : kernel_placed) (Hfresh : kernel_fresh (w_st w))
    (Hms : memory_sound M) (Hfw : firmware_apart written_early (w_mem w) 8 (mc_xsdt M) n) :
  let p := pcie_after (w_mem w) (sdt_entries 8 (w_mem w) (mc_xsdt M) n) (st_pcie (k_mem (w_st w))) in
  devices_sound M p → (Z.to_nat (kern_end M / 4096) + 1 < fuel)%nat → (Z.to_nat (display_len M / 4096) + 1 < fuel)%nat →
  ∃ w', kernal_main fuel boot w = Done ((), w') ∧ started M p w w'.
Proof.
  intros p Hdv Hf1 Hf2. destruct (bp_info _ _ _ Hboot) as (_&Hi0&_).
  assert (wp (kernal_main fuel boot) (λ _ w', started M p w w') w) as Hwp.
  { apply (wp_stage_1 fuel boot ts M); try done. intros w2 Hw2. by apply (wp_start_rest fuel ts M n p w). }
  apply wp_done in Hwp as ([]&w'&Hrun&Hst). by exists w'.
Qed.

End boot.

(* ===================================================================== *)
(** ** A sample machine: 2 GB of memory, one PCI express bus, 1024 x 768 *)

Definition machine_boot_link : BootLink := {| boot_info_info := 0x4600000; boot_msg := 0x4701200; text_tag := 0x4703000 |}.
Definition machine_intr_link : IntrLink := {|
  _idt := 0x4700000;
  isr v := 0x100000 + 16 * (v `mod` 256);
  irq v := 0x110000 + 16 * (v `mod` 256);
  idt_register := 0x4701100;
  msg := 0x4701200;
  text_isr := 0x4704000;
  text_irq := 0x4704100;
|}.
Definition machine_acpi_link : AcpiLink := 0x4702000.

Definition sample_machine : machine := {|
  mc_mmap := [MmapEnt 0 0x9fc00 1; MmapEnt 0x9fc00 0x400 2; MmapEnt 0x100000 0x7fee0000 1];
  mc_elf := [ElfHdr 1 0x100000 0x4000000; ElfHdr 0 0 0; ElfHdr 8 0x4100000 0x800000];
  mc_fb := 0xfd000000; mc_pitch := 4096; mc_width := 1024; mc_height := 768;
  mc_rsdp_head := bytes_of "RSD PTR " ++ [210] ++ bytes_of "BOCHS " ++ [2] ++ le 4 0 ++ le 4 36;
  mc_xsdt := 0xe0000;
  mc_rsdp_tail := [0; 0; 0; 0];
|}.

Definition machine_tags : list tag := [
  Tag 1 (bytes_of "cing" ++ [0]);
  Tag 6 (encode_mmap (mc_mmap sample_machine));
  Tag 8 (encode_fb 0xfd000000 4096 1024 768);
  Tag 9 (encode_elf (mc_elf sample_machine));
  Tag 15 (encode_rsdp (mc_rsdp_head sample_machine) 0xe0000 [0; 0; 0; 0])].

(** The XSDT lists an APIC table and an MCFG table with the group of bus 0. *)
Definition machine_memory : memory :=
  poke 0x10000 (encode machine_tags) (poke 0x4702000 (bytes_of "MCFG")
    (poke 0xe1000 (bytes_of "APIC") (poke 0xe2000 (bytes_of "MCFG" ++ le 4 60)
    (store 4 0xe0004 52 (store 8 0xe0024 0xe1000 (store 8 0xe002c 0xe2000
    (store 8 0xe202c 0xE0000000 (store 1 0xe2037 1 (store 2 0xE0000000 0x8086 (store 2 0xE0008000 0xFFFF ∅)))))))))).

Definition machine_world : world kernel :=
  World machine_memory (Kernel empty_info
    (MemState MEM_BOOTSTRAP_STAGE_0 (replicate 32 (Section_t 0 0)) 0 0 0 0 0 0 0 0 0 pcie_initial (Vesa 0 0 0 0))
    (Intr (replicate 256 NULL) (0, 0) false []) 0 0 false).

Section sample.
#[local] Existing Instances machine_boot_link machine_intr_link machine_acpi_link MemFrame.sample_link.

Lemma machine_boot_placed : boot_placed 0x10000 machine_tags machine_world.
Proof.
  split; [|done|done| |by split; [exists 0x8c0000|]|by right|done].
  - split; [repeat constructor; by apply (bool_decide_unpack _)|by apply (bool_decide_unpack _)].
  - apply peek_bytes_at. by vm_compute.
Qed.

Lemma machine_described : described machine_tags sample_machine.
Proof.
  split.
  - by do 3 right; left.
  - by right; left.
  - by do 2 right; left.
  - by do 4 right; left.
  - split; [|done]. by repeat constructor.
  - by repeat constructor.
  - by split_and!.
  - done.
Qed.

Lemma machine_kernel_placed : kernel_placed.
Proof.
  split; [apply sample_link_ok|by split_and!; [right|right|]| | |].
  - split; [done|]. split; [done|]. by split; [right|left].
  - split; [done|]. split; [|split; [done|split; [done|by right]]]. split; intros v; unfold is_u64; cbn [isr irq machine_intr_link]; zlia.
  - split; [by split; right|by right].
Qed.

Lemma machine_memory_sound : memory_sound sample_machine.
Proof.
  assert (managed sample_machine = [Section_t 0 654336; Section_t 0x100000 0x7fee0000]) as E by (vm_compute; reflexivity).
  split; rewrite ?E.
  - split; [done|by repeat constructor|]. intros [|[|i]] a b Ha Hb; [|done..]. by injection Ha as <-; injection Hb as <-.
  - by vm_compute.
  - exists (Section_t 0 654336), (Section_t 0x100000 0x7fee0000). by vm_compute.
  - by vm_compute.
  - apply Forall_cons_2; [split; cbn; [lia..|apply Z.divide_0_r]|]. apply Forall_cons_2; [split; cbn; [lia..|by exists 256]|constructor].
  - by vm_compute.
  - by vm_compute.
Qed.

Lemma machine_untouched lo hi : 0xe0000 <= lo → hi <= 0x200000 → untouched written_early lo hi.
Proof.
  intros Hlo Hhi a Ha [Hw|[Hw|Hw]]; unfold MULTI_BOOT_INFO_CAP in Hw;
    cbn [boot_info_info _tab_4_bootstrap _frame_pool_bootstrap machine_boot_link MemFrame.sample_link] in Hw; lia.
Qed.

Lemma machine_untouched_high lo hi : 0x4702000 <= lo → untouched written_early lo hi.
Proof.
  intros Hlo a Ha [Hw|[Hw|Hw]]; unfold MULTI_BOOT_INFO_CAP, POOL_END, _FRAME_CAP_BOOTSTRAP in Hw;
    cbn [boot_info_info _tab_4_bootstrap _frame_pool_bootstrap machine_boot_link MemFrame.sample_link] in Hw; lia.
Qed.

Lemma machine_mcfg_ok : mcfg_ok machine_memory 0xe202c 1.
Proof.
  assert (groups_at machine_memory 0xe202c 1 = [Pcie.sample_group]) as Eg by (vm_compute; reflexivity).
  split; [lia|lia| | |].
  - rewrite Eg. apply Forall_singleton, sample_group_ok.
  - vm_compute. lia.
  - assert (forallb (λ f, f_sub_class f =? 0) (groups_at machine_memory 0xe202c 1 ≫= scan_group machine_memory) = true)
      as Hall by (vm_compute; reflexivity).
    apply list.Forall_forall. intros f Hf _. rewrite forallb_forall in Hall.
    apply Z.eqb_eq, Hall. exact (proj1 (list_elem_of_In _ _) Hf).
Qed.

Lemma machine_firmware : firmware_apart written_early machine_memory 8 0xe0000 2.
Proof.
  assert (sdt_entries 8 machine_memory 0xe0000 2 = [0xe1000; 0xe2000]) as Ee by (vm_compute; reflexivity).
  assert (mcfg_elements machine_memory 0xe2000 = 1) as Em by (vm_compute; reflexivity).
  assert (¬ is_mcfg machine_memory 0xe1000) as Hno.
  { intros Hm. pose proof (bytes_at_peek _ _ _ Hm) as Hp. by vm_compute in Hp. }
  split.
  - split; [|apply machine_untouched_high; unfold text_mcfg, machine_acpi_link; lia]. unfold text_mcfg_ok. split; [unfold text_mcfg, machine_acpi_link; lia|]. split; [unfold text_mcfg, machine_acpi_link; lia|]. apply peek_bytes_at. by vm_compute.
  - split; [split; [lia|lia|by vm_compute|]|apply machine_untouched; lia]. rewrite Ee.
    apply Forall_cons_2; [|apply Forall_singleton]; (split; [lia|]); (split; [lia|]); [intros Hm; by destruct (Hno Hm)|].
    intros _. split; rewrite ?Em; [lia|by vm_compute|exact machine_mcfg_ok].
  - rewrite Ee. apply Forall_cons_2; [|apply Forall_singleton]; split; intros.
    + apply machine_untouched; lia.
    + by destruct Hno.
    + by destruct Hno.
    + apply machine_untouched; lia.
    + rewrite Em. apply machine_untouched; lia.
    + rewrite Em. assert (groups_at machine_memory (0xe2000 + 44) 1 = [Pcie.sample_group]) as -> by (vm_compute; reflexivity).
      apply Forall_singleton. apply machine_untouched_high. cbn. lia.
Qed.

Lemma machine_ranges :
  device_ranges (pcie_after machine_memory (sdt_entries 8 machine_memory 0xe0000 2) pcie_initial) (display sample_machine) =
    [(0xE0000000, 268435456); (0xfd000000, 3145728)].
Proof. vm_compute. reflexivity. Qed.

Lemma machine_devices_sound :
  devices_sound sample_machine (pcie_after machine_memory (sdt_entries 8 machine_memory 0xe0000 2) pcie_initial).
Proof.
  split.
  - by vm_compute.
  - unfold devices_sane. rewrite machine_ranges. repeat constructor; cbn; lia.
  - assert (big (managed sample_machine) = [Section_t 0x100000 0x7fee0000]) as -> by (vm_compute; reflexivity).
    apply Forall_singleton. unfold clear_of_devices. rewrite machine_ranges. repeat constructor; unfold gap_between; cbn; lia.
  - split; [by exists 1036288|by exists 768].
  - by vm_compute.
  - cbn. lia.
  - by vm_compute.
Qed.

Lemma kernal_main_ok_witness :
  ∃ w', kernal_main (Z.to_nat 20000) 0x10000 machine_world = Done ((), w') ∧
    boot_stage (k_mem (w_st w')) = MEM_BOOTSTRAP_STAGE_2 ∧ _kern_end_pa (k_mem (w_st w')) = 0x4900000 ∧
    _frame_map (k_mem (w_st w')) = 0x101000 ∧ _func_cnt (st_pcie (k_mem (w_st w'))) = 31 ∧
    cr3 (k_mem (w_st w')) = 0x202000 ∧
    translate (w_mem w') 0x202000 0x100400 = Some 0x100400 ∧
    translate (w_mem w') 0x202000 VA_48_FRAME_BUFFER = Some 0xfd000000 ∧
    translate (w_mem w') 0x202000 0x4900000 = None ∧
    handlers (k_intr (w_st w')) = replicate 256 NULL.
Proof.
  destruct (kernal_main_ok (Z.to_nat 20000) 0x10000 machine_tags sample_machine 2 machine_world machine_boot_placed
    machine_described machine_kernel_placed) as (w'&Hrun&Hst).
  - done.
  - exact machine_memory_sound.
  - exact machine_firmware.
  - exact machine_devices_sound.
  - change (kern_end sample_machine / 4096) with 18688. lia.
  - change (display_len sample_machine / 4096) with 768. lia.
  - exists w'. split; [exact Hrun|]. destruct Hst as [H1 _ [_ H2] [H3 _] H4 _ H5 H6 H7 H8 _ _ H9 _ _ _].
    rewrite H1, H2, H3, H4, H5, H9. split; [done|]. split; [by vm_compute|]. split; [by vm_compute|].
    split; [by vm_compute|]. split; [done|]. split; [apply H6; change (kern_end sample_machine / 4096) with 18688; lia|].
    split; [|split; [|done]].
    + rewrite <-(Z.add_0_r VA_48_FRAME_BUFFER). apply H7. change (display_len sample_machine) with 3145728. lia.
    + apply H8; [by vm_compute|by vm_compute].
Defined.
End sample.
