(* ===== verification/MmHeap.v ===== *)
(** The kernel heap, src/mm/mm_heap.c: a binary buddy allocator over the
    virtual region that starts at [VA_48_HEAP].

    A block is a [block_t] header of 24 bytes followed by its payload.  The
    free blocks of a class are threaded through [next_free] into a singly
    linked list whose head is [_free_list[class]].  Headers live in the byte
    memory [h_mem] at the offsets the x86-64 ABI gives the struct; every
    access checks that its page is mapped ([Fault] otherwise). *)
From S2P Require Import Prelude Memory Util MmCore.

Definition _BLOCK_MAX_CLASS : Z := 16.
Definition BLOCK_MAGIC : Z := 0xBABEFACE.
(** [sizeof(block_t)]: u8, bool, 6 bytes of padding, pointer, u32, 4 bytes of
    padding. *)
Definition sizeof_block : Z := 24.

(** What the heap asks of the frame allocator (mm_frame.c) and of paging
    (mm_page.c).  [mm_frame_alloc] returns the frame, [None] for [false];
    [va_mapped] tells whether an access to the address would page-fault. *)
Class PageSource (P : Type) := {
  mm_frame_alloc : M P (option Z);
  mm_page_map : Z → Z → M P bool;
  va_mapped : P → Z → bool;
}.

Record heap (P : Type) := Heap {
  h_mem : memory;
  _free_list : list Z;
  _heap_end : Z;
  h_pages : P;
}.
Arguments Heap {P} _ _ _ _.
Arguments h_mem {P} _.
Arguments _free_list {P} _.
Arguments _heap_end {P} _.
Arguments h_pages {P} _.

#[export] Instance heap_has_memory {P} : HasMemory (heap P).
Proof.
  refine {| mem_of := h_mem;
            set_mem m s := Heap m (_free_list s) (_heap_end s) (h_pages s) |}; try done.
  by intros [].
Defined.

Definition set_free_lists {P} (l : list Z) (s : heap P) : heap P :=
  Heap (h_mem s) l (_heap_end s) (h_pages s).
Definition set_heap_end {P} (e : Z) (s : heap P) : heap P :=
  Heap (h_mem s) (_free_list s) e (h_pages s).
Definition set_pages {P} (p : P) (s : heap P) : heap P :=
  Heap (h_mem s) (_free_list s) (_heap_end s) p.

Section mm_heap.
Context {P : Type} `{PageSource P}.

Local Abbreviation HM := (M (heap P)).

(* --------------------------------------------------------------------- *)
(** ** Header fields *)

Definition access (a n : Z) : HM unit :=
  ok ← gets (λ s, va_mapped (h_pages s) a && va_mapped (h_pages s) (a + n - 1)%Z);
  if ok : bool then mret () else fault.

Definition hread (n : nat) (a : Z) : HM Z := access a (Z.of_nat n) ;; read n a.
Definition hwrite (n : nat) (a v : Z) : HM unit := access a (Z.of_nat n) ;; write n a v.

Definition get_class (b : Z) : HM Z := hread 1 b.
Definition get_is_free (b : Z) : HM bool := x ← hread 1 (b + 1)%u64; mret (negb (x =? 0)).
Definition get_next_free (b : Z) : HM Z := hread 8 (b + 8)%u64.
Definition get_magic (b : Z) : HM Z := hread 4 (b + 16)%u64.

Definition set_class (b v : Z) : HM unit := hwrite 1 b v.
Definition set_is_free (b : Z) (v : bool) : HM unit := hwrite 1 (b + 1)%u64 (Z.b2z v).
Definition set_next_free (b v : Z) : HM unit := hwrite 8 (b + 8)%u64 v.
Definition set_magic (b v : Z) : HM unit := hwrite 4 (b + 16)%u64 v.

(** [_free_list[class]] *)
Definition get_list (class : Z) : HM Z :=
  o ← gets (λ s, _free_list s !! Z.to_nat class);
  of_option o.
Definition set_list (class v : Z) : HM unit :=
  l ← gets _free_list;
  if bool_decide (Z.to_nat class < length l)%nat
  then modify (set_free_lists (<[Z.to_nat class := v]> l))
  else fault.

Definition pages {A} (m : M P A) : HM A := zoom h_pages set_pages m.

(* --------------------------------------------------------------------- *)
(** ** Blocks *)

Definition _size_of_class (class : Z) : HM Z :=
  kernel_assert_d (class <? _BLOCK_MAX_CLASS) ;;
  pages ← util_math_2_exp class;
  mret (pages * PAGE_SIZE_VALUE_4K)%u64.

Definition _block_init (block class : Z) (free : bool) (next : Z) : HM unit :=
  kernel_assert_d (mm_align_check block PAGE_SIZE_VALUE_4K) ;;
  set_class block class ;;
  set_is_free block free ;;
  set_next_free block next ;;
  set_magic block BLOCK_MAGIC.

Definition _block_validate (block : Z) : HM unit :=
  kernel_assert_d (mm_align_check block PAGE_SIZE_VALUE_4K) ;;
  magic ← get_magic block;
  kernel_assert_d (magic =? BLOCK_MAGIC).

(** Returns the payload and, for the out-parameter, its length. *)
Definition _block_check_out (block : Z) : HM (Z * Z) :=
  kernel_assert_d (mm_align_check block PAGE_SIZE_VALUE_4K) ;;
  class ← get_class block;
  kernel_assert_d (class <? _BLOCK_MAX_CLASS) ;;
  is_free ← get_is_free block;
  kernel_assert_d is_free ;;
  set_is_free block false ;;
  class ← get_class block;
  len ← _size_of_class class;
  mret ((block + sizeof_block)%u64, (len - sizeof_block)%u64).

Definition _block_check_in (block_user : Z) : HM Z :=
  let block := (block_user - sizeof_block)%u64 in
  _block_validate block ;;
  is_free ← get_is_free block;
  kernel_assert_d (negb is_free) ;;
  set_is_free block true ;;
  mret block.

Definition _block_find_buddy (blk : Z) : HM Z :=
  kernel_assert_d (mm_align_check blk PAGE_SIZE_VALUE_4K) ;;
  class ← get_class blk;
  kernel_assert_d (class <? _BLOCK_MAX_CLASS) ;;
  blk_size ← _size_of_class class;
  max_size ← _size_of_class (_BLOCK_MAX_CLASS - 1);
  blk_base ← mm_align_down (blk - VA_48_HEAP)%u64 max_size;
  let blk_offs := (blk - VA_48_HEAP - blk_base)%u64 in
  kernel_assert_d (mm_align_check blk_offs blk_size) ;;
  buddy_addr ←
    (if mm_align_check (blk_offs - blk_size)%u64 (blk_size * 2)%u64 then
       mret (blk_offs - blk_size)%u64
     else
       kernel_assert_d (mm_align_check blk_offs (blk_size * 2)%u64) ;;
       mret (blk_offs + blk_size)%u64);
  let buddy_block := (buddy_addr + blk_base + VA_48_HEAP)%u64 in
  _block_validate buddy_block ;;
  buddy_class ← get_class buddy_block;
  class ← get_class blk;
  kernel_assert_d (buddy_class <=? class) ;;
  mret buddy_block.

(* --------------------------------------------------------------------- *)
(** ** Free lists *)

Definition _free_list_dequeue (class : Z) : HM Z :=
  kernel_assert_d (class <? _BLOCK_MAX_CLASS) ;;
  blk ← get_list class;
  if blk =? NULL then mret blk
  else
    _block_validate blk ;;
    c ← get_class blk;
    kernel_assert_d (c =? class) ;;
    next ← get_next_free blk;
    set_list class next ;;
    mret blk.

(** The search loop of [_free_list_dequeue_block]; returns [found]. *)
Definition dequeue_block_loop (fuel : nat) (block free : Z) : HM bool :=
  loop fuel (λ free,
    if free =? NULL then mret (inr false)
    else if free =? block then
      class ← get_class block;
      head ← get_list class;
      kernel_assert_d (free =? head) ;;
      next ← get_next_free block;
      set_list class next ;;
      mret (inr true)
    else
      next ← get_next_free free;
      if next =? block then
        bnext ← get_next_free block;
        set_next_free free bnext ;;
        mret (inr true)
      else
        next ← get_next_free free;
        mret (inl next)) free.

(** A free list holds at most one block per page of the heap, so this many
    rounds reach its end (lemma [free_list_fuel]). *)
Definition list_fuel (s : heap P) : nat :=
  Z.to_nat ((_heap_end s - VA_48_HEAP) / PAGE_SIZE_VALUE_4K + 1).

Definition _free_list_dequeue_block (block : Z) : HM unit :=
  _block_validate block ;;
  class ← get_class block;
  free ← get_list class;
  fuel ← gets list_fuel;
  found ← dequeue_block_loop fuel block free;
  kernel_assert_d found.

Definition _free_list_is_empty (class : Z) : HM bool :=
  kernel_assert_d (class <? _BLOCK_MAX_CLASS) ;;
  head ← get_list class;
  mret (head =? NULL).

Definition _free_list_enqueue (free class : Z) : HM unit :=
  kernel_expect (class <? _BLOCK_MAX_CLASS) ;;
  head ← get_list class;
  _block_init free class true head ;;
  set_list class free ;;
  c ← get_class free;
  kernel_ensure (c =? class).

(* --------------------------------------------------------------------- *)
(** ** Growing, splitting and coalescing *)

(** One page of the loop of [_expand_heap]. *)
Definition expand_page (heap_add : Z) : HM unit :=
  frame ← pages mm_frame_alloc;
  kernel_assert_d (bool_decide (is_Some frame)) ;;
  let frame_pa := default UPTR_NULL frame in
  kernel_assert_d (negb (frame_pa =? UPTR_NULL)) ;;
  heap_end ← gets _heap_end;
  ok ← pages (mm_page_map (heap_end + heap_add)%u64 frame_pa);
  kernel_assert_d ok.

Definition _expand_heap : HM bool :=
  size ← _size_of_class (_BLOCK_MAX_CLASS - 1);
  kernel_assert_d (0 <? size) ;;
  kernel_assert_d (size mod PAGE_SIZE_VALUE_4K =? 0)%u64 ;;
  empty ← _free_list_is_empty (_BLOCK_MAX_CLASS - 1);
  kernel_assert_d empty ;;
  for_n (Z.to_nat (size / PAGE_SIZE_VALUE_4K)) 0 (λ i, expand_page (i * PAGE_SIZE_VALUE_4K)%u64) ;;
  free ← gets _heap_end;
  _free_list_enqueue free (_BLOCK_MAX_CLASS - 1) ;;
  modify (λ s, set_heap_end (_heap_end s + size)%u64 s) ;;
  mret true.

(** The block [if (succ) { ... }] that ends [_split_from]: the two halves of
    [free] go to the next lower list. *)
Definition split_block (class free : Z) : HM unit :=
  next_size ← _size_of_class (u8 (class - 1));
  kernel_assert_d (negb (free =? NULL)) ;;
  c ← get_class free;
  kernel_assert_d (c =? class) ;;
  head ← get_list (class - 1);
  kernel_assert_d (head =? NULL) ;;
  _free_list_enqueue free (u8 (class - 1)) ;;
  let free := (free + next_size)%u64 in
  _free_list_enqueue free (u8 (class - 1)).

(** The recursion climbs the classes, so [_BLOCK_MAX_CLASS] bounds its depth. *)
Fixpoint split_from_fuel (fuel : nat) (class : Z) : HM bool :=
  match fuel with
  | O => timeout
  | S fuel =>
      kernel_assert_d (class <? _BLOCK_MAX_CLASS) ;;
      kernel_assert_d (0 <? class) ;;
      free ← _free_list_dequeue class;
      '(succ, free) ←
        (if free =? NULL then
           if class + 1 <? _BLOCK_MAX_CLASS then
             succ ← split_from_fuel fuel (u8 (class + 1));
             if succ : bool then
               free ← _free_list_dequeue class;
               kernel_assert_d (negb (free =? NULL)) ;;
               mret (succ, free)
             else mret (succ, free)
           else
             kernel_assert_d (class =? _BLOCK_MAX_CLASS - 1) ;;
             succ ← _expand_heap;
             kernel_assert succ ;;
             free ← _free_list_dequeue class;
             kernel_assert_d (negb (free =? NULL)) ;;
             mret (succ, free)
         else mret (true, free));
      if succ : bool then
        split_block class free ;;
        mret succ
      else mret succ
  end.

Definition _split_from (class : Z) : HM bool :=
  split_from_fuel (Z.to_nat _BLOCK_MAX_CLASS) class.

Fixpoint coalescing_fuel (fuel : nat) (block : Z) : HM Z :=
  match fuel with
  | O => timeout
  | S fuel =>
      _block_validate block ;;
      class ← get_class block;
      if class <? _BLOCK_MAX_CLASS - 1 then
        buddy ← _block_find_buddy block;
        bclass ← get_class buddy;
        class ← get_class block;
        bfree ← (if bclass =? class then get_is_free buddy else mret false);
        if bfree : bool then
          _free_list_dequeue_block buddy ;;
          block ←
            (if buddy <? block then
               mm_clean block sizeof_block ;; mret buddy
             else
               mm_clean buddy sizeof_block ;; mret block);
          class ← get_class block;
          _block_init block (u8 (class + 1)) true NULL ;;
          coalescing_fuel fuel block
        else mret block
      else mret block
  end.

Definition _coalescing_block (block : Z) : HM Z :=
  coalescing_fuel (Z.to_nat _BLOCK_MAX_CLASS) block.

(* --------------------------------------------------------------------- *)
(** ** The public operations *)

(** Returns the payload ([NULL] on failure) and the value written to
    [*all_len], if any. *)
Definition mm_heap_alloc (len : Z) : HM (Z * option Z) :=
  kernel_assert_d (0 <? len) ;;
  max ← _size_of_class (_BLOCK_MAX_CLASS - 1);
  kernel_assert (len + sizeof_block <=? max)%u64 ;;
  log ← util_math_log_2_up (len + sizeof_block)%u64;
  let free_class := u8 log in
  let free_class :=
    if free_class <=? PAGE_SIZE_VALUE_LOG_4K then 0
    else u8 (free_class - PAGE_SIZE_VALUE_LOG_4K) in
  kernel_assert (free_class <? _BLOCK_MAX_CLASS) ;;
  free ← _free_list_dequeue free_class;
  '(ok, free) ←
    (if free =? NULL then
       if free_class <? _BLOCK_MAX_CLASS - 1 then
         ok ← _split_from (u8 (free_class + 1));
         if ok : bool then
           free ← _free_list_dequeue free_class;
           kernel_assert_d (negb (free =? NULL)) ;;
           mret (ok, free)
         else mret (ok, free)
       else
         ok ← _expand_heap;
         kernel_assert ok ;;
         free ← _free_list_dequeue free_class;
         kernel_assert (negb (free =? NULL)) ;;
         mret (ok, free)
     else mret (true, free));
  if ok : bool then
    c ← get_class free;
    kernel_assert_d (c =? free_class) ;;
    kernel_assert_d (negb (free =? NULL)) ;;
    '(payload, all_len) ← _block_check_out free;
    kernel_assert_d (len <=? all_len) ;;
    mret (payload, Some all_len)
  else
    kernel_assert_d (free =? NULL) ;;
    mret (free, None).

Definition mm_heap_alloc_minimum : HM (Z * option Z) := mm_heap_alloc 1.

Definition mm_heap_free (block_user : Z) : HM unit :=
  block ← _block_check_in block_user;
  block ← _coalescing_block block;
  class ← get_class block;
  _free_list_enqueue block class.

Definition mm_heap_bootstrap : HM unit :=
  for_n (Z.to_nat _BLOCK_MAX_CLASS) 0 (λ i, set_list i NULL) ;;
  modify (set_heap_end VA_48_HEAP).

(* --------------------------------------------------------------------- *)
(** ** The checks of the built-in tests *)

(** One round of the walk over all blocks.  [blk = blk + size] is pointer
    arithmetic on [block_t *]: it advances by [size * sizeof(block_t)] bytes. *)
Definition validate_block (blk : Z) : HM (Z + unit) :=
  heap_end ← gets _heap_end;
  if blk <? heap_end then
    kernel_assert (mm_align_check blk PAGE_SIZE_VALUE_4K) ;;
    _block_validate blk ;;
    class ← get_class blk;
    size ← _size_of_class class;
    kernel_assert (mm_align_check (blk - VA_48_HEAP)%u64 size) ;;
    mret (inl (blk + size * sizeof_block)%u64)
  else mret (inr ()).

Definition _heap_validate (fuel : nat) : HM unit := loop fuel validate_block VA_48_HEAP.

Definition _test_helper_verify_all_list_class (fuel : nat) : HM unit :=
  for_n (Z.to_nat _BLOCK_MAX_CLASS) 0 (λ class,
    free ← get_list class;
    loop fuel (λ free,
      if free =? NULL then mret (inr ())
      else
        c ← get_class free;
        kernel_assert (c =? class) ;;
        next ← get_next_free free;
        mret (inl next)) free).

Definition _test_helper_verify_all_block_coalesced : HM unit :=
  for_n (Z.to_nat (_BLOCK_MAX_CLASS - 1)) 0 (λ class,
    head ← get_list class;
    kernel_assert (head =? NULL)) ;;
  head ← get_list (_BLOCK_MAX_CLASS - 1);
  kernel_assert (negb (head =? NULL)) ;;
  head ← get_list (_BLOCK_MAX_CLASS - 1);
  _block_validate head ;;
  head ← get_list (_BLOCK_MAX_CLASS - 1);
  c ← get_class head;
  kernel_assert (c =? _BLOCK_MAX_CLASS - 1).

(** The lengths that [_test_alloc_then_free] asks for. *)
Definition _test_sizes : HM (list Z) :=
  top ← _size_of_class (_BLOCK_MAX_CLASS - 1);
  mret [1; 1358; 2715; 4072; 5429; 4096; 10000; 1024 * 1024; 123 * 1024 * 1024; (top - sizeof_block)%u64].

(** The inner loop of allocations: [mem] holds the blocks of this round and
    [test] is the index of the next length. *)
Definition test_alloc_some (fuel : nat) (test_size : list Z) (consecutive test : Z) : HM (list Z * Z) :=
  loop (Datatypes.S (length test_size)) (λ '(mem, test),
    if (Z.of_nat (length mem) <? consecutive) && (test <? Z.of_nat (length test_size)) then
      size ← of_option (test_size !! Z.to_nat test);
      '(a, all_size) ← mm_heap_alloc size;
      kernel_assert (negb (a =? NULL)) ;;
      all_size ← of_option all_size;
      kernel_assert (size <=? all_size) ;;
      mm_clean a all_size ;;
      _test_helper_verify_all_list_class fuel ;;
      mret (inl (mem ++ [a], (test + 1)%u64))
    else mret (inr (mem, test))) ([], test).

Definition test_free_all (fuel : nat) (mem : list Z) : HM unit :=
  for_n (length mem) 0 (λ free,
    a ← of_option (mem !! Z.to_nat free);
    mm_heap_free a ;;
    _test_helper_verify_all_list_class fuel ;;
    _heap_validate fuel).

Definition _test_alloc_then_free (fuel : nat) : HM unit :=
  test_size ← _test_sizes;
  for_n (length test_size) 1 (λ consecutive,
    loop (Datatypes.S (length test_size)) (λ test,
      if test <? Z.of_nat (length test_size) then
        '(mem, test) ← test_alloc_some fuel test_size consecutive test;
        test_free_all fuel mem ;;
        _test_helper_verify_all_block_coalesced ;;
        mret (inl test)
      else mret (inr ())) 0).

(** The bytes of a block still hold the index of the block. *)
Definition test_check_block (mem len idx : Z) : HM unit :=
  for_n (Z.to_nat len) 0 (λ by_,
    b ← hread 1 (mem + by_)%u64;
    kernel_assert (b =? u8 idx)).

Definition test_fill_block (mem len idx : Z) : HM unit :=
  for_n (Z.to_nat len) 0 (λ by_, hwrite 1 (mem + by_)%u64 (u8 idx)).

(** Checks and frees the newest [free_cnt] blocks. *)
Definition test_free_newest (mems : list (Z * Z)) (free_cnt : Z) : HM unit :=
  let mems_cnt := Z.of_nat (length mems) in
  for_n (Z.to_nat free_cnt) 0 (λ free_idx,
    let mem_idx := (mems_cnt - free_idx - 1)%u64 in
    kernel_assert (mem_idx <? mems_cnt) ;;
    '(mem, len) ← of_option (mems !! Z.to_nat mem_idx);
    test_check_block mem len mem_idx ;;
    mm_heap_free mem).

Definition len_class_limit (len_class len_max : Z) : HM Z :=
  let len_class_max := (len_class mod 4)%u64 in
  if len_class_max =? 0 then mret (32 * 1024)
  else if len_class_max =? 1 then mret (512 * 1024)
  else if len_class_max =? 2 then mret (8 * 1024 * 1024)
  else if len_class_max =? 3 then mret len_max
  else kernel_panic "IMPOSSIBLE".

(** The locals of [_test_random_alloc_free] that live across its operations;
    [mems] is the pairs of address and length. *)
Record random_test := RandomTest {
  rt_op : Z;
  rt_free_cnt : Z;
  rt_len : Z;
  rt_len_class : Z;
  rt_mems : list (Z * Z);
}.

Definition next_op (mems_cap : Z) (t : random_test) : HM Z :=
  let mems_cnt := Z.of_nat (length (rt_mems t)) in
  if mems_cap <=? mems_cnt then
    kernel_assert_d (mems_cnt =? mems_cap) ;;
    mret (rt_op t * 2)%u64
  else if mems_cnt =? 0 then mret (rt_op t * 2 + 1)%u64
  else mret (util_rand_int_next (rt_op t)).

Definition random_op (fuel : nat) (mems_cap len_max : Z) (t : random_test) : HM random_test :=
  let mems := rt_mems t in
  let mems_cnt := Z.of_nat (length mems) in
  op ← next_op mems_cap t;
  t ← (if (op mod 2 =? 0)%u64 then
      kernel_assert_d (0 <? mems_cnt) ;;
      kernel_assert_d (mems_cnt <=? mems_cap) ;;
      let free_cnt := (util_rand_int_next (rt_free_cnt t) mod mems_cnt + 1)%u64 in
      test_free_newest mems free_cnt ;;
      kernel_assert (mems_cnt - free_cnt <? mems_cap)%u64 ;;
      mret (RandomTest op free_cnt (rt_len t) (rt_len_class t) (take (Z.to_nat (mems_cnt - free_cnt)) mems))
    else
      kernel_assert_d (mems_cnt <? mems_cap) ;;
      let len_class := util_rand_int_next (rt_len_class t) in
      len_class_max ← len_class_limit len_class len_max;
      let len := (util_rand_int_next (rt_len t) mod len_class_max + 1)%u64 in
      '(mem, all_len) ← mm_heap_alloc len;
      all_len ← of_option all_len;
      kernel_assert (len <=? all_len) ;;
      test_fill_block mem all_len mems_cnt ;;
      mret (RandomTest op (rt_free_cnt t) len len_class (mems ++ [(mem, all_len)])));
  _heap_validate fuel ;;
  _test_helper_verify_all_list_class fuel ;;
  mret t.

(** [op] is the value that the uninitialised local of that name happens to have. *)
Definition _test_random_alloc_free (fuel : nat) (op op_total mems_cap : Z) : HM unit :=
  top ← _size_of_class (_BLOCK_MAX_CLASS - 1);
  let len_max := (top - sizeof_block)%u64 in
  kernel_assert_d (mems_cap <? BYTE_MAX) ;;
  t ← loop (Datatypes.S (Z.to_nat op_total)) (λ '(i, t),
    if i <? op_total then
      t ← random_op fuel mems_cap len_max t;
      mret (inl (i + 1, t))
    else mret (inr t)) (0, RandomTest op 0 0 0 []);
  for_n (length (rt_mems t)) 0 (λ i,
    '(mem, len) ← of_option (rt_mems t !! Z.to_nat i);
    test_check_block mem len i ;;
    mm_heap_free mem) ;;
  _test_helper_verify_all_block_coalesced.

Definition test_heap (fuel : nat) (op : Z) : HM unit :=
  _test_alloc_then_free fuel ;;
  _test_random_alloc_free fuel op 200 5.

End mm_heap.
