(* ===== verification/HeapTiling.v ===== *)
(** The geometry of a buddy heap: how blocks tile the heap region.

    A [tiling] records, for every block of the heap, its class and whether it
    is in use, on a free list, off the lists in the middle of an operation
    ([Limbo]) or a region whose header is not written yet ([Raw]).  Nothing
    here depends on how the code represents blocks; [MmHeapProofs] connects
    a tiling to the headers and free lists of a heap state. *)
From S2P Require Import Prelude Memory Util MmCore MmHeap.

Inductive bstate := Used | Free | Limbo | Raw.

#[export] Instance bstate_eq_dec : EqDecision bstate.
Proof. solve_decision. Defined.

Abbreviation tiling := (gmap Z (Z * bstate)).

(** The size of a block of a class, header included. *)
Definition bsize (c : Z) : Z := 2 ^ c * 4096.

(** The block that a block of class [c] at [a] was split from or can be
    merged with. *)
Definition buddy_of (c a : Z) : Z :=
  if Z.odd ((a - VA_48_HEAP) / bsize c) then a - bsize c else a + bsize c.

Record tiled (live : tiling) (hend : Z) : Prop := {
  tiled_end : (bsize 15 | hend - VA_48_HEAP) ∧ VA_48_HEAP <= hend <= 18446744073709551616;
  tiled_block a c st : live !! a = Some (c, st) →
    0 <= c < 16 ∧ VA_48_HEAP <= a ∧ a + bsize c <= hend ∧ (bsize c | a - VA_48_HEAP);
  tiled_disjoint a b c d st st' :
    live !! a = Some (c, st) → live !! b = Some (d, st') → a < b → a + bsize c <= b;
  tiled_cover x : VA_48_HEAP <= x < hend →
    ∃ a c st, live !! a = Some (c, st) ∧ a <= x < a + bsize c;
}.

(** No two free buddies: a pair of them would have been merged. *)
Definition coalesced (live : tiling) : Prop :=
  ∀ a c, 0 <= c < 15 → live !! a = Some (c, Free) → live !! buddy_of c a ≠ Some (c, Free).

(** The blocks in use, with their classes: what a client of the heap sees. *)
Definition used (live : tiling) : gmap Z Z :=
  omap (λ b, if decide (b.2 = Used) then Some b.1 else None) live.

(* --------------------------------------------------------------------- *)
(** ** Sizes *)

Lemma bsize_pos c : 0 <= c → 0 < bsize c.
Proof. intros. unfold bsize. pose proof (pow2_pos c ltac:(done)). lia. Qed.

Lemma bsize_succ c : 0 <= c → bsize (c + 1) = 2 * bsize c.
Proof. intros. unfold bsize. rewrite Z.pow_add_r, Z.pow_1_r by lia. ring. Qed.

Lemma bsize_divide c d : 0 <= c <= d → (bsize c | bsize d).
Proof. intros. unfold bsize. apply Z.mul_divide_mono_r. by apply pow2_divide. Qed.

Lemma bsize_mono c d : 0 <= c <= d → bsize c <= bsize d.
Proof. intros. unfold bsize. pose proof (Z.pow_le_mono_r 2 c d ltac:(lia) ltac:(lia)). lia. Qed.

Lemma page_divide c : 0 <= c → (4096 | bsize c).
Proof. intros. by exists (2 ^ c). Qed.

Lemma bsize_bounds c : 0 <= c < 16 → 4096 <= bsize c <= 134217728.
Proof.
  intros. pose proof (bsize_mono 0 c ltac:(lia)). pose proof (bsize_mono c 15 ltac:(lia)).
  change (bsize 0) with 4096 in *. change (bsize 15) with 134217728 in *. lia.
Qed.

Lemma divide_gap t x y : 0 < t → (t | x) → (t | y) → x < y → x + t <= y.
Proof.
  intros Ht [q ->] [r ->] Hlt. apply Z.mul_lt_mono_pos_r in Hlt; [|done].
  pose proof (Z.mul_le_mono_nonneg_r (q + 1) r t ltac:(lia) ltac:(lia)). lia.
Qed.

(* --------------------------------------------------------------------- *)
(** ** Buddies *)

(** [a] and its buddy are the two halves of an aligned block of the next
    class. *)
Lemma buddy_cases c a :
  0 <= c → (bsize c | a - VA_48_HEAP) →
  (buddy_of c a = a + bsize c ∧ (bsize (c + 1) | a - VA_48_HEAP)) ∨
  (buddy_of c a = a - bsize c ∧ (bsize (c + 1) | a - bsize c - VA_48_HEAP)).
Proof.
  intros Hc [q Hq]. unfold buddy_of. rewrite bsize_succ by done. rewrite Hq.
  pose proof (bsize_pos c Hc). rewrite Z.div_mul by lia.
  destruct (Z.odd q) eqn:Ho.
  - right. split; [done|]. apply Zodd_bool_iff, Zodd_ex in Ho as [k ->]. exists k. lia.
  - left. split; [done|]. rewrite <-Z.negb_even in Ho. apply negb_false_iff in Ho.
    apply Zeven_bool_iff, Zeven_ex in Ho as [k ->]. exists k. lia.
Qed.

Lemma odd_quotient c a :
  0 <= c → (bsize (c + 1) | a - VA_48_HEAP) → Z.odd ((a - VA_48_HEAP) / bsize c) = false.
Proof.
  intros Hc [q Hq]. rewrite Hq, bsize_succ by done. pose proof (bsize_pos c Hc).
  replace (q * (2 * bsize c)) with ((q * 2) * bsize c) by lia.
  rewrite Z.div_mul by lia. rewrite Z.odd_mul. by rewrite andb_false_r.
Qed.

Lemma buddy_even c a :
  0 <= c → (bsize (c + 1) | a - VA_48_HEAP) → buddy_of c a = a + bsize c.
Proof. intros. unfold buddy_of. by rewrite odd_quotient. Qed.

Lemma buddy_odd c a :
  0 <= c → (bsize (c + 1) | a - VA_48_HEAP) → buddy_of c (a + bsize c) = a.
Proof.
  intros Hc [q Hq]. unfold buddy_of.
  replace (a + bsize c - VA_48_HEAP) with (bsize c + (a - VA_48_HEAP)) by lia.
  rewrite Hq, bsize_succ by done. pose proof (bsize_pos c Hc).
  replace (bsize c + q * (2 * bsize c)) with ((q * 2 + 1) * bsize c) by lia.
  rewrite Z.div_mul by lia. rewrite Z.odd_add, Z.odd_mul, andb_false_r. simpl. lia.
Qed.

Lemma buddy_involutive c a :
  0 <= c → (bsize c | a - VA_48_HEAP) → buddy_of c (buddy_of c a) = a.
Proof.
  intros Hc Ha. destruct (buddy_cases c a Hc Ha) as [[-> Hd]|[-> Hd]].
  - by apply buddy_odd.
  - rewrite buddy_even by done. lia.
Qed.

Lemma buddy_aligned c a :
  0 <= c → (bsize c | a - VA_48_HEAP) → (bsize c | buddy_of c a - VA_48_HEAP).
Proof.
  intros Hc Ha. destruct (buddy_cases c a Hc Ha) as [[-> _]|[-> _]].
  - replace (a + bsize c - VA_48_HEAP) with ((a - VA_48_HEAP) + bsize c) by lia.
    by apply Z.divide_add_r; [|apply Z.divide_refl].
  - replace (a - bsize c - VA_48_HEAP) with ((a - VA_48_HEAP) - bsize c) by lia.
    by apply Z.divide_sub_r; [|apply Z.divide_refl].
Qed.

Lemma buddy_ne c a : 0 <= c → buddy_of c a ≠ a.
Proof. intros Hc. pose proof (bsize_pos c Hc). unfold buddy_of. destruct (Z.odd _); lia. Qed.

(** The lower half of the pair. *)
Definition pair_low (c a : Z) : Z := Z.min a (buddy_of c a).

Lemma pair_low_spec c a :
  0 <= c → (bsize c | a - VA_48_HEAP) →
  (bsize (c + 1) | pair_low c a - VA_48_HEAP) ∧
  ((a = pair_low c a ∧ buddy_of c a = pair_low c a + bsize c) ∨
   (buddy_of c a = pair_low c a ∧ a = pair_low c a + bsize c)).
Proof.
  intros Hc Ha. pose proof (bsize_pos c Hc). unfold pair_low.
  destruct (buddy_cases c a Hc Ha) as [[-> Hd]|[-> Hd]].
  - rewrite Z.min_l by lia. split; [done|]. by left.
  - rewrite Z.min_r by lia. split; [done|]. right. lia.
Qed.

Section tiled.
Context (live : tiling) (hend : Z) (Ht : tiled live hend).

Lemma block_bounds a c st : live !! a = Some (c, st) →
  VA_48_HEAP <= a ∧ a + bsize c <= hend ∧ 4096 <= bsize c ∧ hend <= 18446744073709551616 ∧
  0 <= c < 16.
Proof.
  intros Ha. apply (tiled_block _ _ Ht) in Ha as (Hc & ? & ? & ?).
  pose proof (bsize_bounds c Hc). destruct (tiled_end _ _ Ht). lia.
Qed.

Lemma end_divide c : 0 <= c <= 15 → (bsize c | hend - VA_48_HEAP).
Proof.
  intros Hc. destruct (tiled_end _ _ Ht) as [Hd _].
  eapply Z.divide_trans; [|done]. apply bsize_divide. lia.
Qed.

(** The pair lies inside the heap. *)
Lemma pair_in_heap a c st :
  live !! a = Some (c, st) → c < 15 →
  VA_48_HEAP <= pair_low c a ∧ pair_low c a + bsize (c + 1) <= hend.
Proof.
  intros Ha Hc. apply (tiled_block _ _ Ht) in Ha as (Hc' & Hlo & Hhi & Hd).
  pose proof (bsize_pos c ltac:(lia)). pose proof (bsize_pos (c + 1) ltac:(lia)).
  destruct (pair_low_spec c a ltac:(lia) Hd) as [Hdl Hcase].
  assert (VA_48_HEAP <= pair_low c a) as Hge.
  { destruct Hcase as [[? ?]|[? ?]]; [lia|].
    destruct (decide (VA_48_HEAP <= pair_low c a)); [done|].
    pose proof (divide_gap (bsize (c + 1)) (pair_low c a - VA_48_HEAP) 0
      ltac:(lia) Hdl ltac:(apply Z.divide_0_r) ltac:(lia)) as Hg.
    rewrite bsize_succ in * by lia. lia. }
  split; [done|].
  pose proof (divide_gap (bsize (c + 1)) (pair_low c a - VA_48_HEAP) (hend - VA_48_HEAP)
    ltac:(lia) Hdl ltac:(apply end_divide; lia) ltac:(lia)). lia.
Qed.

(** Where a block's buddy should be, a block starts, and it is not larger. *)
Lemma buddy_live a c st :
  live !! a = Some (c, st) → c < 15 →
  ∃ d st', live !! buddy_of c a = Some (d, st') ∧ d <= c.
Proof.
  intros Ha Hc. pose proof Ha as (Hc' & Hlo & Hhi & Hd)%(tiled_block _ _ Ht).
  pose proof (bsize_pos c ltac:(lia)). pose proof (bsize_pos (c + 1) ltac:(lia)).
  destruct (pair_in_heap a c st Ha Hc) as [Hpl Hph].
  destruct (pair_low_spec c a ltac:(lia) Hd) as [Hdl Hcase].
  rewrite bsize_succ in Hph by lia.
  destruct (tiled_cover _ _ Ht (buddy_of c a)) as (b & d & st' & Hb & Hin); [lia|].
  pose proof Hb as (Hdc & Hblo & Hbhi & Hbd)%(tiled_block _ _ Ht).
  destruct (decide (d <= c)) as [Hle|Hgt].
  - assert (b - VA_48_HEAP = buddy_of c a - VA_48_HEAP) as Heq.
    { apply (divide_close (bsize d)); [apply bsize_pos; lia|done| |lia].
      eapply Z.divide_trans; [apply bsize_divide|apply buddy_aligned]; [lia|lia|done]. }
    assert (b = buddy_of c a) as -> by lia. eauto.
  - exfalso.
    assert (bsize (c + 1) | b - VA_48_HEAP) as Hb1
      by (eapply Z.divide_trans; [apply bsize_divide|done]; lia).
    assert (bsize (c + 1) | b + bsize d - VA_48_HEAP) as Hb2.
    { replace (b + bsize d - VA_48_HEAP) with ((b - VA_48_HEAP) + bsize d) by lia.
      apply Z.divide_add_r; [done|]. apply bsize_divide. lia. }
    assert (b <= pair_low c a).
    { destruct (decide (b <= pair_low c a)); [done|].
      pose proof (divide_gap (bsize (c + 1)) _ _ ltac:(lia) Hdl Hb1 ltac:(lia)). rewrite bsize_succ in * by lia. lia. }
    assert (pair_low c a + bsize (c + 1) <= b + bsize d).
    { pose proof (divide_gap (bsize (c + 1)) _ _ ltac:(lia) Hdl Hb2 ltac:(lia)). lia. }
    rewrite bsize_succ in * by lia.
    destruct (Z.lt_trichotomy a b) as [Hlt|[->|Hlt]].
    + pose proof (tiled_disjoint _ _ Ht _ _ _ _ _ _ Ha Hb Hlt). lia.
    + rewrite Hb in Ha. simplify_eq. lia.
    + pose proof (tiled_disjoint _ _ Ht _ _ _ _ _ _ Hb Ha Hlt). lia.
Qed.

(** Nothing starts strictly inside a block. *)
Lemma inside_none a c st x :
  live !! a = Some (c, st) → a < x < a + bsize c → live !! x = None.
Proof.
  intros Ha Hx. destruct (live !! x) as [[d st']|] eqn:Hl; [|done].
  pose proof (tiled_disjoint _ _ Ht _ _ _ _ _ _ Ha Hl ltac:(lia)). lia.
Qed.

Lemma beyond_none x : hend <= x → live !! x = None.
Proof.
  intros Hx. destruct (live !! x) as [[d st']|] eqn:Hl; [|done].
  apply block_bounds in Hl. lia.
Qed.

End tiled.

(* --------------------------------------------------------------------- *)
(** ** Changes of a tiling *)

Lemma tiled_set_state live hend a c st st' :
  tiled live hend → live !! a = Some (c, st) → tiled (<[a := (c, st')]> live) hend.
Proof.
  intros Ht Ha.
  assert (∀ b d u, <[a := (c, st')]> live !! b = Some (d, u) → ∃ u', live !! b = Some (d, u')) as Hsub.
  { intros b d u [[-> ?]|[? ?]]%lookup_insert_Some; simplify_eq; eauto. }
  split.
  - apply (tiled_end _ _ Ht).
  - intros b d u [u' Hb]%Hsub. by eapply tiled_block.
  - intros x y ? ? ? ? [? Hx]%Hsub [? Hy]%Hsub. by eapply tiled_disjoint.
  - intros x Hx. destruct (tiled_cover _ _ Ht x Hx) as (b & d & u & Hb & Hin).
    destruct (decide (a = b)) as [->|Hne].
    + rewrite Ha in Hb. simplify_eq. exists b, d, st'. by rewrite lookup_insert_eq.
    + exists b, d, u. by rewrite lookup_insert_ne.
Qed.

(** Cutting a block into two halves. *)
Lemma tiled_split live hend a c st :
  tiled live hend → 0 <= c → live !! a = Some (c + 1, st) →
  tiled (<[a := (c, Raw)]> (<[a + bsize c := (c, Raw)]> live)) hend.
Proof.
  intros Ht Hc Ha. pose proof Ha as (Hc1 & Hlo & Hhi & Hd)%(tiled_block _ _ Ht).
  pose proof (bsize_pos c Hc) as Hp. rewrite bsize_succ in Hhi by done.
  assert (bsize c | a - VA_48_HEAP) as Hdc
    by (eapply Z.divide_trans; [apply bsize_divide|done]; lia).
  assert (∀ b d u, <[a := (c, Raw)]> (<[a + bsize c := (c, Raw)]> live) !! b = Some (d, u) →
    (b = a ∧ d = c) ∨ (b = a + bsize c ∧ d = c) ∨
    (live !! b = Some (d, u) ∧ (b + bsize d <= a ∨ a + 2 * bsize c <= b))) as Hsub.
  { intros b d u [[<- ?]|[Hne [[<- ?]|[Hne' Hb]]%lookup_insert_Some]]%lookup_insert_Some;
      simplify_eq; [by left|by right; left|].
    right; right. split; [done|]. destruct (Z.lt_trichotomy a b) as [Hlt|[?|Hlt]]; [|done|].
    - pose proof (tiled_disjoint _ _ Ht _ _ _ _ _ _ Ha Hb Hlt). rewrite bsize_succ in * by done. lia.
    - pose proof (tiled_disjoint _ _ Ht _ _ _ _ _ _ Hb Ha Hlt). lia. }
  split.
  - apply (tiled_end _ _ Ht).
  - intros b d u [(-> & ->)|[(-> & ->)|[Hb _]]]%Hsub; [|..|by eapply tiled_block].
    + split_and!; [lia..|done].
    + split_and!; [lia..|]. replace (a + bsize c - VA_48_HEAP) with ((a - VA_48_HEAP) + bsize c) by lia.
      by apply Z.divide_add_r; [|apply Z.divide_refl].
  - intros x y dx dy ux uy Hx Hy Hlt.
    apply Hsub in Hx as [(-> & ->)|[(-> & ->)|[Hx Hxs]]];
      apply Hsub in Hy as [(-> & ->)|[(-> & ->)|[Hy Hys]]]; try lia.
    + pose proof (block_bounds _ _ Ht _ _ _ Hy). lia.
    + pose proof (block_bounds _ _ Ht _ _ _ Hy). lia.
    + by eapply tiled_disjoint.
  - intros x Hx. destruct (tiled_cover _ _ Ht x Hx) as (b & d & u & Hb & Hin).
    destruct (decide (b = a)) as [->|Hne].
    + rewrite Ha in Hb. simplify_eq. rewrite bsize_succ in Hin by done.
      destruct (decide (x < a + bsize c)).
      * exists a, c, Raw. rewrite lookup_insert_eq. split; [done|lia].
      * exists (a + bsize c), c, Raw. rewrite lookup_insert_ne, lookup_insert_eq by lia.
        split; [done|lia].
    + assert (live !! (a + bsize c) = None) as Hnone
        by (apply (inside_none _ _ Ht _ _ _ _ Ha); rewrite bsize_succ by done; lia).
      exists b, d, u. rewrite !lookup_insert_ne by (congruence || (intros <-; congruence)). done.
Qed.

(** Joining two halves. *)
Lemma tiled_merge live hend a c st st' :
  tiled live hend → 0 <= c < 15 → (bsize (c + 1) | a - VA_48_HEAP) →
  live !! a = Some (c, st) → live !! (a + bsize c) = Some (c, st') →
  tiled (<[a := (c + 1, Raw)]> (delete (a + bsize c) live)) hend.
Proof.
  intros Ht Hc Hd Ha Hb. pose proof (bsize_pos c ltac:(lia)).
  pose proof (block_bounds _ _ Ht _ _ _ Ha). pose proof (block_bounds _ _ Ht _ _ _ Hb).
  assert (∀ b d u, <[a := (c + 1, Raw)]> (delete (a + bsize c) live) !! b = Some (d, u) →
    (b = a ∧ d = c + 1) ∨
    (live !! b = Some (d, u) ∧ (b + bsize d <= a ∨ a + 2 * bsize c <= b))) as Hsub.
  { intros b d u [[<- ?]|[Hne [Hne' Hx]%lookup_delete_Some]]%lookup_insert_Some;
      simplify_eq; [by left|].
    right. split; [done|]. destruct (Z.lt_trichotomy (a + bsize c) b) as [Hlt|[?|Hlt]]; [|done|].
    - pose proof (tiled_disjoint _ _ Ht _ _ _ _ _ _ Hb Hx Hlt). lia.
    - destruct (Z.lt_trichotomy a b) as [Hlt'|[?|Hlt']]; [|done|].
      + pose proof (tiled_disjoint _ _ Ht _ _ _ _ _ _ Ha Hx Hlt'). lia.
      + pose proof (tiled_disjoint _ _ Ht _ _ _ _ _ _ Hx Ha Hlt'). lia. }
  split.
  - apply (tiled_end _ _ Ht).
  - intros b d u [(-> & ->)|[Hx _]]%Hsub; [|by eapply tiled_block].
    rewrite bsize_succ in * by lia. split_and!; [lia..|done].
  - intros x y dx dy ux uy Hx Hy Hlt.
    apply Hsub in Hx as [(-> & ->)|[Hx Hxs]]; apply Hsub in Hy as [(-> & ->)|[Hy Hys]];
      rewrite ?bsize_succ by lia; try lia.
    + pose proof (block_bounds _ _ Ht _ _ _ Hy). lia.
    + by eapply tiled_disjoint.
  - intros x Hx. destruct (tiled_cover _ _ Ht x Hx) as (b & d & u & Hl & Hin).
    destruct (decide (a <= x < a + 2 * bsize c)).
    + exists a, (c + 1), Raw. rewrite lookup_insert_eq, bsize_succ by lia. split; [done|lia].
    + exists b, d, u. rewrite lookup_insert_ne, lookup_delete_ne; [done|..];
        intros <-; simplify_eq; lia.
Qed.

(** Adding a block of the largest class at the end. *)
Lemma tiled_extend live hend :
  tiled live hend → hend + bsize 15 <= 18446744073709551616 →
  tiled (<[hend := (15, Raw)]> live) (hend + bsize 15).
Proof.
  intros Ht Hroom. pose proof (bsize_pos 15 ltac:(lia)).
  destruct (tiled_end _ _ Ht) as [Hd Hle].
  assert (∀ b d u, <[hend := (15, Raw)]> live !! b = Some (d, u) →
    (b = hend ∧ d = 15) ∨ (live !! b = Some (d, u) ∧ b + bsize d <= hend)) as Hsub.
  { intros b d u [[<- ?]|[Hne Hb]]%lookup_insert_Some; simplify_eq; [by left|].
    right. split; [done|]. by apply (block_bounds _ _ Ht) in Hb as (?&?&?). }
  split.
  - split; [|lia]. replace (hend + bsize 15 - VA_48_HEAP) with ((hend - VA_48_HEAP) + bsize 15) by lia.
    by apply Z.divide_add_r; [|apply Z.divide_refl].
  - intros b d u [(-> & ->)|[Hb ?]]%Hsub; [split_and!; [lia..|done]|].
    apply (tiled_block _ _ Ht) in Hb as (?&?&?&?). split_and!; [lia..|done].
  - intros x y dx dy ux uy Hx Hy Hlt.
    apply Hsub in Hx as [(-> & ->)|[Hx Hxs]]; apply Hsub in Hy as [(-> & ->)|[Hy Hys]]; try lia.
    + apply (block_bounds _ _ Ht) in Hy. lia.
    + by eapply tiled_disjoint.
  - intros x Hx. destruct (decide (hend <= x)).
    + exists hend, 15, Raw. rewrite lookup_insert_eq. split; [done|lia].
    + destruct (tiled_cover _ _ Ht x) as (b & d & u & Hl & Hin); [lia|].
      exists b, d, u. rewrite lookup_insert_ne; [done|]. intros <-.
      apply (block_bounds _ _ Ht) in Hl. lia.
Qed.

Lemma tiled_empty : tiled ∅ VA_48_HEAP.
Proof.
  split.
  - rewrite Z.sub_diag. split; [apply Z.divide_0_r|]. rewrite VA_48_HEAP_val. lia.
  - by intros a c st ?%lookup_empty_Some.
  - by intros a b c d st st' ?%lookup_empty_Some.
  - intros x Hx. lia.
Qed.

(* --------------------------------------------------------------------- *)
(** ** The blocks in use *)

Lemma used_lookup live a c : used live !! a = Some c ↔ live !! a = Some (c, Used).
Proof.
  unfold used. rewrite lookup_omap_Some. split.
  - intros ([d st] & Hc & Hl). simpl in Hc. case_decide; simplify_eq. done.
  - intros Hl. exists (c, Used). by rewrite Hl.
Qed.

Lemma used_insert_other live a c st :
  st ≠ Used → used live !! a = None → used (<[a := (c, st)]> live) = used live.
Proof.
  intros Hst Hn. apply map_eq. intros b. apply option_eq. intros d. rewrite !used_lookup.
  destruct (decide (a = b)) as [->|Hne].
  - rewrite lookup_insert_eq. split; [congruence|].
    intros Hl. apply used_lookup in Hl. congruence.
  - by rewrite lookup_insert_ne.
Qed.

Lemma used_delete_other live a :
  used live !! a = None → used (delete a live) = used live.
Proof.
  intros Hn. apply map_eq. intros b. apply option_eq. intros d. rewrite !used_lookup.
  destruct (decide (a = b)) as [->|Hne].
  - rewrite lookup_delete_eq. split; [done|]. intros Hl. apply used_lookup in Hl. congruence.
  - by rewrite lookup_delete_ne.
Qed.

Lemma used_insert_used live a c : used (<[a := (c, Used)]> live) = <[a := c]> (used live).
Proof.
  apply map_eq. intros b. apply option_eq. intros d. rewrite used_lookup.
  destruct (decide (a = b)) as [->|Hne].
  - rewrite !lookup_insert_eq. naive_solver.
  - rewrite !lookup_insert_ne by done. by rewrite used_lookup.
Qed.

Lemma used_remove live a c st : st ≠ Used → used (<[a := (c, st)]> live) = delete a (used live).
Proof.
  intros Hst. apply map_eq. intros b. apply option_eq. intros d. rewrite used_lookup.
  destruct (decide (a = b)) as [->|Hne].
  - rewrite lookup_insert_eq, lookup_delete_eq. split; congruence.
  - rewrite lookup_insert_ne, lookup_delete_ne by done. by rewrite used_lookup.
Qed.

Lemma used_none live a : (∀ c, live !! a ≠ Some (c, Used)) → used live !! a = None.
Proof.
  intros H. destruct (used live !! a) as [c|] eqn:Hu; [|done].
  apply used_lookup in Hu. by destruct (H c).
Qed.

(* --------------------------------------------------------------------- *)
(** ** An idle heap is fully merged *)

(** When no block is in use and none is in the middle of an operation, a
    coalesced tiling consists of blocks of the largest class only. *)
Lemma idle_all_max live hend :
  tiled live hend → coalesced live →
  (∀ a c st, live !! a = Some (c, st) → st = Free) →
  ∀ a c st, live !! a = Some (c, st) → c = 15.
Proof.
  intros Ht Hco Hfree.
  enough (∀ n : nat, ∀ a c st, live !! a = Some (c, st) → Z.to_nat c = n → c = 15) by eauto.
  intros n. induction n as [n IH] using lt_wf_ind. intros a c st Ha Hn.
  pose proof (block_bounds _ _ Ht _ _ _ Ha) as (_ & _ & _ & _ & Hc).
  destruct (decide (c = 15)) as [|Hne]; [done|]. exfalso.
  destruct (buddy_live _ _ Ht a c st Ha ltac:(lia)) as (d & st' & Hb & Hd).
  pose proof (block_bounds _ _ Ht _ _ _ Hb) as (_ & _ & _ & _ & Hdr).
  destruct (decide (d = c)) as [->|Hdc].
  - pose proof (Hfree _ _ _ Ha) as ->. pose proof (Hfree _ _ _ Hb) as ->.
    by apply (Hco a c ltac:(lia) Ha).
  - pose proof (IH (Z.to_nat d) ltac:(lia) _ _ _ Hb eq_refl). lia.
Qed.
