(* ===== verification/MmHeapRep.v ===== *)
(** The representation of a buddy tiling by a heap state, and the behaviour
    of the block and free-list primitives of mm_heap.c against it.

    [heap_rep live hend s] says that the headers in memory and the sixteen
    linked free lists of [s] represent the tiling [live] of the region from
    [VA_48_HEAP] to [hend].  Each primitive gets one lemma that reads as its
    specification on tilings. *)
From S2P Require Import Prelude Memory Util MmCore MmHeap HeapTiling.

(** What a page source promises: [can_map p va n] is the promise that the
    next [n] consecutive pages from [va] on can be backed by frames. *)
Class PageSourceSpec (P : Type) `{PageSource P} := {
  can_map : P → Z → Z → Prop;
  can_map_mono p va n n' : can_map p va n → n' <= n → can_map p va n';
  can_map_step p va n :
    0 < n → can_map p va n →
    wp mm_frame_alloc (λ r p1, ∃ pa, r = Some pa ∧ pa ≠ 0 ∧
      (∀ x, va_mapped p x = true → va_mapped p1 x = true) ∧
      wp (mm_page_map va pa) (λ ok p2, ok = true ∧
        (∀ x, va_mapped p1 x = true → va_mapped p2 x = true) ∧
        (∀ x, va <= x < va + 4096 → va_mapped p2 x = true) ∧
        can_map p2 (va + 4096) (n - 1)) p1) p;
}.

(** The header of a block.  A [Raw] block has none yet. *)
Definition hdr_ok (m : memory) (a c : Z) (st : bstate) : Prop :=
  st ≠ Raw →
  load 1 m a = c ∧ load 4 m (a + 16) = BLOCK_MAGIC ∧ (load 1 m (a + 1) =? 0) = bool_decide (st = Used).

(** The blocks of [l] linked by [next_free] from [h] to [t]. *)
Fixpoint lseg (m : memory) (h : Z) (l : list Z) (t : Z) : Prop :=
  match l with
  | [] => h = t
  | a :: l => h = a ∧ lseg m (load 8 m (a + 8)) l t
  end.

(** [l] enumerates the free blocks of class [c] in list order. *)
Definition list_rep (live : tiling) (m : memory) (c h : Z) (l : list Z) : Prop :=
  lseg m h l NULL ∧ NoDup l ∧ ∀ a, a ∈ l ↔ live !! a = Some (c, Free).

(** The part of a heap state that only growing changes. *)
Definition same_pages {P} (s s' : heap P) : Prop :=
  _heap_end s' = _heap_end s ∧ h_pages s' = h_pages s.

(** [m] and [m'] differ at most in the header of the block at [a]. *)
Definition hdr_agree (a : Z) (m m' : memory) : Prop :=
  ∀ x, ¬ (a <= x < a + 24) → load8 m' x = load8 m x.

Record heap_rep {P} `{PageSource P} (live : tiling) (hend : Z) (s : heap P) : Prop := {
  rep_tiled : tiled live hend;
  rep_hdr a c st : live !! a = Some (c, st) → hdr_ok (h_mem s) a c st;
  rep_len : length (_free_list s) = 16%nat;
  rep_list c : 0 <= c < 16 →
    ∃ h l, _free_list s !! Z.to_nat c = Some h ∧ list_rep live (h_mem s) c h l;
  rep_mapped x : VA_48_HEAP <= x < hend → va_mapped (h_pages s) x = true;
}.

(* --------------------------------------------------------------------- *)
(** ** Memory facts *)

Lemma same_pages_refl {P} (s : heap P) : same_pages s s.
Proof. done. Qed.

Lemma same_pages_trans {P} (s s' s'' : heap P) : same_pages s s' → same_pages s' s'' → same_pages s s''.
Proof. intros [??] [??]. split; congruence. Qed.

#[export] Instance same_pages_preorder {P} : PreOrder (@same_pages P).
Proof. split; [intros s; apply same_pages_refl|intros s s' s''; apply same_pages_trans]. Qed.

Lemma hdr_agree_trans a m m' m'' : hdr_agree a m m' → hdr_agree a m' m'' → hdr_agree a m m''.
Proof. intros H1 H2 x Hx. rewrite H2 by done. by apply H1. Qed.

Lemma hdr_agree_store n a off v m :
  0 <= off → off + Z.of_nat n <= 24 → hdr_agree a m (store n (a + off) v m).
Proof. intros ?? x Hx. apply load8_store_ne. lia. Qed.

Lemma hdr_agree_fill n a m v : Z.of_nat n = 24 → hdr_agree a m (fill n a v m).
Proof. intros Hn x Hx. rewrite load8_fill. by rewrite decide_False by lia. Qed.

Lemma hdr_agree_load n a b off m m' :
  hdr_agree a m m' → (a + 24 <= b ∨ b + 24 <= a) → 0 <= off → off + Z.of_nat n <= 24 →
  load n m' (b + off) = load n m (b + off).
Proof. intros H ???. apply load_agree. intros i Hi. apply H. lia. Qed.

Lemma hdr_agree_ok a m m' b c st :
  hdr_agree a m m' → (a + 24 <= b ∨ b + 24 <= a) → hdr_ok m b c st → hdr_ok m' b c st.
Proof.
  intros Hag Hd Hok Hst. destruct (Hok Hst) as (H1 & H2 & H3).
  pose proof (hdr_agree_load 1 a b 0 m m' Hag Hd ltac:(lia) ltac:(lia)) as E1.
  rewrite !Z.add_0_r in E1.
  rewrite E1, (hdr_agree_load 4 a b 16 m m'), (hdr_agree_load 1 a b 1 m m') by (done || lia).
  done.
Qed.

Lemma lseg_agree a m m' h l t :
  hdr_agree a m m' → (∀ b, b ∈ l → a + 24 <= b ∨ b + 24 <= a) → lseg m h l t → lseg m' h l t.
Proof.
  intros Hag. revert h. induction l as [|b l IH]; intros h Hl; [done|].
  simpl. intros [-> Hs]. split; [done|].
  rewrite (hdr_agree_load 8 a b 8 m m' Hag) by (lia || apply Hl; set_solver).
  apply IH; [|done]. intros b' Hb'. apply Hl. set_solver.
Qed.

Lemma lseg_app m h l1 l2 t : lseg m h (l1 ++ l2) t ↔ ∃ x, lseg m h l1 x ∧ lseg m x l2 t.
Proof.
  revert h. induction l1 as [|a l1 IH]; intros h; simpl.
  - naive_solver.
  - rewrite IH. naive_solver.
Qed.

(** The memory after [_block_init]. *)
Definition init_mem (a c : Z) (free : bool) (next : Z) (m : memory) : memory :=
  store 4 (a + 16) BLOCK_MAGIC (store 8 (a + 8) next (store 1 (a + 1) (Z.b2z free) (store 1 a c m))).

Lemma init_mem_agree a c free next m : hdr_agree a m (init_mem a c free next m).
Proof.
  unfold init_mem.
  eapply hdr_agree_trans; [|apply hdr_agree_store; lia].
  eapply hdr_agree_trans; [|apply hdr_agree_store; lia].
  eapply hdr_agree_trans; [|apply hdr_agree_store; lia].
  intros x Hx. apply load8_store_ne. lia.
Qed.

Lemma init_mem_next a c free next m : is_u64 next → load 8 (init_mem a c free next m) (a + 8) = next.
Proof.
  intros Hn. unfold init_mem. rewrite (load_store_ne 8 4) by lia. by apply (load_store_small 8).
Qed.

Lemma init_mem_hdr a c (free : bool) next m st :
  0 <= c < 256 → free = negb (bool_decide (st = Used)) → hdr_ok (init_mem a c free next m) a c st.
Proof.
  intros Hc Hf _. unfold init_mem. split_and!.
  - rewrite (load_store_ne 1 4), (load_store_ne 1 8), (load_store_ne 1 1) by lia.
    by apply (load_store_small 1).
  - by apply (load_store_small 4).
  - rewrite (load_store_ne 1 4), (load_store_ne 1 8) by lia.
    rewrite (load_store_small 1) by (destruct free; simpl; lia).
    rewrite Hf. by destruct (bool_decide (st = Used)).
Qed.

(* ===================================================================== *)
(** ** Primitives on a represented heap *)

Section primitives.
Context {P : Type} `{PageSource P}.
Implicit Types (s : heap P) (live : tiling).

(** The 24 header bytes of a block lie in its mapped pages. *)
Lemma wp_access live hend s a c st off n (Q : unit → heap P → Prop) :
  heap_rep live hend s → live !! a = Some (c, st) → 0 <= off → 0 < n → off + n <= 24 →
  Q () s → wp (access (a + off) n) Q s.
Proof.
  intros Hr Ha ??? HQ. pose proof (block_bounds _ _ (rep_tiled _ _ _ Hr) _ _ _ Ha).
  unfold access. wp_step. wp_step. rewrite !(rep_mapped _ _ _ Hr) by lia. by apply wp_ret.
Qed.

Lemma wp_hread live hend s a c st off n (Q : Z → heap P → Prop) :
  heap_rep live hend s → live !! a = Some (c, st) →
  0 <= off → (0 < n)%nat → off + Z.of_nat n <= 24 →
  Q (load n (h_mem s) (a + off)) s → wp (hread n (a + off)) Q s.
Proof.
  intros Hr Ha ??? HQ. unfold hread. wp_step. eapply wp_access; [done..|lia|lia|].
  by apply wp_read.
Qed.

Lemma wp_hwrite live hend s a c st off n v (Q : unit → heap P → Prop) :
  heap_rep live hend s → live !! a = Some (c, st) →
  0 <= off → (0 < n)%nat → off + Z.of_nat n <= 24 →
  Q () (set_mem (store n (a + off) v (h_mem s)) s) → wp (hwrite n (a + off) v) Q s.
Proof.
  intros Hr Ha ??? HQ. unfold hwrite. wp_step. eapply wp_access; [done..|lia|lia|].
  by apply wp_write.
Qed.

Lemma off_small live hend s a c st off :
  heap_rep live hend s → live !! a = Some (c, st) → 0 <= off < 25 → (a + off)%u64 = a + off.
Proof.
  intros Hr Ha ?. pose proof (block_bounds _ _ (rep_tiled _ _ _ Hr) _ _ _ Ha).
  rewrite VA_48_HEAP_val in *. apply u64_small. lia.
Qed.

Lemma block_u64 live hend s a c st : heap_rep live hend s → live !! a = Some (c, st) →
  is_u64 a ∧ a ≠ NULL.
Proof.
  intros Hr Ha. pose proof (block_bounds _ _ (rep_tiled _ _ _ Hr) _ _ _ Ha).
  rewrite VA_48_HEAP_val in *. unfold is_u64, NULL. lia.
Qed.

Lemma block_page_aligned live hend s a c st :
  heap_rep live hend s → live !! a = Some (c, st) → mm_align_check a PAGE_SIZE_VALUE_4K = true.
Proof.
  intros Hr Ha. pose proof Ha as (?&?&?&Hd)%(tiled_block _ _ (rep_tiled _ _ _ Hr)).
  apply align_check_true; [done|].
  assert (4096 | a - VA_48_HEAP) as [q Hq]
    by (eapply Z.divide_trans; [|exact Hd]; apply page_divide; lia).
  rewrite VA_48_HEAP_val in Hq. exists (q + 4503565268684801). unfold PAGE_SIZE_VALUE_4K. lia.
Qed.

Lemma blocks_apart live hend s a c st b d st' :
  heap_rep live hend s → live !! a = Some (c, st) → live !! b = Some (d, st') → a ≠ b →
  a + 24 <= b ∨ b + 24 <= a.
Proof.
  intros Hr Ha Hb Hne. pose proof (rep_tiled _ _ _ Hr) as Ht.
  pose proof (block_bounds _ _ Ht _ _ _ Ha). pose proof (block_bounds _ _ Ht _ _ _ Hb).
  destruct (decide (a < b)).
  - pose proof (tiled_disjoint _ _ Ht _ _ _ _ _ _ Ha Hb ltac:(lia)). lia.
  - pose proof (tiled_disjoint _ _ Ht _ _ _ _ _ _ Hb Ha ltac:(lia)). lia.
Qed.

Lemma wp_get_class live hend s a c st (Q : Z → heap P → Prop) :
  heap_rep live hend s → live !! a = Some (c, st) → st ≠ Raw → Q c s → wp (get_class a) Q s.
Proof.
  intros Hr Ha Hst HQ. unfold get_class. replace a with (a + 0) at 1 by lia.
  eapply wp_hread; [done..|lia|lia|]. rewrite Z.add_0_r.
  by destruct (rep_hdr _ _ _ Hr _ _ _ Ha Hst) as (-> & _).
Qed.

Lemma wp_get_magic live hend s a c st (Q : Z → heap P → Prop) :
  heap_rep live hend s → live !! a = Some (c, st) → st ≠ Raw → Q BLOCK_MAGIC s →
  wp (get_magic a) Q s.
Proof.
  intros Hr Ha Hst HQ. unfold get_magic. erewrite off_small by (done || lia).
  eapply wp_hread; [done..|lia|lia|].
  by destruct (rep_hdr _ _ _ Hr _ _ _ Ha Hst) as (_ & -> & _).
Qed.

Lemma wp_get_is_free live hend s a c st (Q : bool → heap P → Prop) :
  heap_rep live hend s → live !! a = Some (c, st) → st ≠ Raw →
  Q (negb (bool_decide (st = Used))) s → wp (get_is_free a) Q s.
Proof.
  intros Hr Ha Hst HQ. unfold get_is_free. wp_step. erewrite off_small by (done || lia).
  eapply wp_hread; [done..|lia|lia|]. wp_step.
  by destruct (rep_hdr _ _ _ Hr _ _ _ Ha Hst) as (_ & _ & ->).
Qed.

Lemma wp_get_next_free live hend s a c st (Q : Z → heap P → Prop) :
  heap_rep live hend s → live !! a = Some (c, st) →
  Q (load 8 (h_mem s) (a + 8)) s → wp (get_next_free a) Q s.
Proof.
  intros Hr Ha HQ. unfold get_next_free. erewrite off_small by (done || lia).
  eapply wp_hread; [done..|lia|lia|done].
Qed.

Lemma wp_block_validate live hend s a c st (Q : unit → heap P → Prop) :
  heap_rep live hend s → live !! a = Some (c, st) → st ≠ Raw → Q () s →
  wp (_block_validate a) Q s.
Proof.
  intros Hr Ha Hst HQ. unfold _block_validate. wp_step.
  wp_step; [by eapply block_page_aligned|]. wp_step.
  eapply wp_get_magic; [done..|]. by apply wp_assert.
Qed.

Lemma wp_size_of_class c (Q : Z → heap P → Prop) s :
  0 <= c < 16 → Q (bsize c) s → wp (_size_of_class c) Q s.
Proof.
  intros Hc HQ. unfold _size_of_class. wp_step. wp_step; [unfold _BLOCK_MAX_CLASS; bsimp; lia|].
  rewrite util_math_2_exp_pow by lia. wp_step. wp_step. wp_step. u64_unfold.
  pose proof (bsize_bounds c Hc) as Hb. unfold bsize in *.
  by rewrite u64_small by (unfold PAGE_SIZE_VALUE_4K; lia).
Qed.

(** A representation survives changes of one header if that header is right
    afterwards and the block is on no list. *)
Lemma rep_change_header live hend s m' a c st st' :
  heap_rep live hend s → live !! a = Some (c, st) → st ≠ Free → st' ≠ Free →
  hdr_agree a (h_mem s) m' → hdr_ok m' a c st' →
  heap_rep (<[a := (c, st')]> live) hend (set_mem m' s).
Proof.
  intros Hr Ha Hst Hst' Hag Hok. split.
  - eapply tiled_set_state; [apply Hr|done].
  - intros b d u [[<- ?]|[Hne Hb]]%lookup_insert_Some; simplify_eq; [done|].
    eapply (hdr_agree_ok a (h_mem s)); [done| |by eapply rep_hdr].
    eapply blocks_apart; done.
  - apply Hr.
  - intros d Hd. destruct (rep_list _ _ _ Hr d Hd) as (h & l & Hh & Hl & Hnd & Hin).
    exists h, l. split; [done|]. split_and!; [|done|].
    + eapply lseg_agree; [done| |done]. intros b Hb%Hin.
      eapply blocks_apart; [done..|]. congruence.
    + intros b. rewrite Hin. destruct (decide (a = b)) as [->|Hne].
      * rewrite lookup_insert_eq. split; congruence.
      * by rewrite lookup_insert_ne.
  - apply Hr.
Qed.

(** Reading a list head. *)
Lemma wp_get_list live hend s c (Q : Z → heap P → Prop) :
  heap_rep live hend s → 0 <= c < 16 →
  (∀ h l, _free_list s !! Z.to_nat c = Some h → list_rep live (h_mem s) c h l → Q h s) →
  wp (get_list c) Q s.
Proof.
  intros Hr Hc HQ. destruct (rep_list _ _ _ Hr c Hc) as (h & l & Hh & Hl).
  unfold get_list. wp_step. wp_step. rewrite Hh. eapply wp_of_option; eauto.
Qed.

Lemma wp_set_list c v (Q : unit → heap P → Prop) s :
  0 <= c < 16 → length (_free_list s) = 16%nat →
  Q () (set_free_lists (<[Z.to_nat c := v]> (_free_list s)) s) → wp (set_list c v) Q s.
Proof.
  intros Hc Hl HQ. unfold set_list. wp_step. wp_step.
  rewrite bool_decide_true by lia. by apply wp_modify.
Qed.

(** Putting a new head on the list of class [c], possibly after a change of
    the memory that the other lists do not see. *)
Lemma rep_set_list live live' hend s m' c h l :
  heap_rep live hend s → 0 <= c < 16 →
  tiled live' hend →
  (∀ a d st, live' !! a = Some (d, st) → hdr_ok m' a d st) →
  list_rep live' m' c h l →
  (∀ d h l, 0 <= d < 16 → d ≠ c → list_rep live (h_mem s) d h l → list_rep live' m' d h l) →
  heap_rep live' hend (set_free_lists (<[Z.to_nat c := h]> (_free_list s)) (set_mem m' s)).
Proof.
  intros Hr Hc Ht Hh Hl Hls. split; simpl.
  - done.
  - done.
  - rewrite length_insert. apply Hr.
  - intros d Hd. destruct (decide (d = c)) as [->|Hne].
    + exists h, l. split; [|done]. apply list_lookup_insert_eq.
      rewrite (rep_len _ _ _ Hr). lia.
    + destruct (rep_list _ _ _ Hr d Hd) as (h' & l' & Hh' & Hl').
      exists h', l'. split; [|by apply Hls]. by rewrite list_lookup_insert_ne by lia.
  - apply Hr.
Qed.

End primitives.
