(* ===== verification/MmHeapLists.v ===== *)
(** The free lists of mm_heap.c: taking the head of a list, unlinking a block
    from the middle of one, and putting a block in front.

    A block that is taken off its list becomes [Limbo] in the tiling; a
    [Limbo] or [Raw] block that is put on a list becomes [Free]. *)
From S2P Require Import Prelude Memory Util MmCore MmHeap HeapTiling MmHeapRep.

(** The bytes of the blocks in use, headers included, are the same. *)
Definition keeps (u : gmap Z Z) (m m' : memory) : Prop :=
  ∀ a c x, u !! a = Some c → a <= x < a + bsize c → load8 m' x = load8 m x.

(** [m] and [m'] differ only in headers of blocks of [live] or [live']. *)
Definition headers_only (live live' : tiling) (m m' : memory) : Prop := ∀ x,
  (∀ b d st, live !! b = Some (d, st) ∨ live' !! b = Some (d, st) → ¬ (b <= x < b + 24)) → load8 m' x = load8 m x.

(** What every step of the allocator that does not grow the heap does: it
    leads to a state that represents [live'], leaves the pages and the
    blocks in use alone, and writes headers only. *)
Record evolves {P} `{PageSource P} (hend : Z) (live : tiling) (s : heap P)
    (live' : tiling) (s' : heap P) : Prop := {
  ev_rep : heap_rep live' hend s';
  ev_pages : same_pages s s';
  ev_keeps : keeps (used live) (h_mem s) (h_mem s');
  ev_headers : headers_only live live' (h_mem s) (h_mem s');
}.

Definition no_free (live : tiling) (c : Z) : Prop := ∀ a, live !! a ≠ Some (c, Free).

Lemma keeps_refl u m : keeps u m m.
Proof. done. Qed.

Lemma keeps_trans u m m' m'' : keeps u m m' → keeps u m' m'' → keeps u m m''.
Proof. intros H1 H2 a c x Ha Hx. by rewrite (H2 a c), (H1 a c). Qed.

Lemma keeps_hdr live hend a c st m m' :
  tiled live hend → live !! a = Some (c, st) → st ≠ Used → hdr_agree a m m' →
  keeps (used live) m m'.
Proof.
  intros Ht Ha Hst Hag b d x Hb%used_lookup Hx. apply Hag. intros Hx'.
  pose proof (block_bounds _ _ Ht _ _ _ Ha). pose proof (block_bounds _ _ Ht _ _ _ Hb).
  destruct (Z.lt_trichotomy a b) as [Hlt|[->|Hlt]]; [|congruence|].
  - pose proof (tiled_disjoint _ _ Ht _ _ _ _ _ _ Ha Hb Hlt). lia.
  - pose proof (tiled_disjoint _ _ Ht _ _ _ _ _ _ Hb Ha Hlt). lia.
Qed.

Lemma keeps_sub u u' m m' : (∀ a c, u' !! a = Some c → u !! a = Some c) → keeps u m m' → keeps u' m m'.
Proof. intros Hs Hk a c x Ha Hx. eapply Hk; eauto. Qed.

Lemma headers_only_hdr live live' a c st m m' :
  live !! a = Some (c, st) → hdr_agree a m m' → headers_only live live' m m'.
Proof. intros Ha Hag x Hx. apply Hag, (Hx a c st). by left. Qed.

(** The blocks in between are blocks before or after. *)
Lemma headers_only_trans live live1 live2 m m' m'' :
  (∀ b, is_Some (live1 !! b) → is_Some (live !! b) ∨ is_Some (live2 !! b)) →
  headers_only live live1 m m' → headers_only live1 live2 m' m'' → headers_only live live2 m m''.
Proof.
  intros Hsub H1 H2 x Hx.
  assert (∀ b d st, live1 !! b = Some (d, st) → ¬ (b <= x < b + 24)) as Hmid.
  { intros b d st Hb. destruct (Hsub b) as [[[e u] He]|[[e u] He]]; [by exists (d, st)| |];
      apply (Hx b e u); [by left|by right]. }
  rewrite H2, H1; [done|..]; intros b d st [Hb|Hb].
  - apply (Hx b d st). by left.
  - by apply (Hmid b d st).
  - by apply (Hmid b d st).
  - apply (Hx b d st). by right.
Qed.

Section lists.
Context {P : Type} `{PageSource P}.
Implicit Types (s : heap P) (live : tiling).

(* --------------------------------------------------------------------- *)
(** ** Writing headers *)

Lemma rep_block_mapped live hend s a c st x :
  heap_rep live hend s → live !! a = Some (c, st) → a <= x < a + 24 → va_mapped (h_pages s) x = true.
Proof.
  intros Hr Ha Hx. pose proof (block_bounds _ _ (rep_tiled _ _ _ Hr) _ _ _ Ha).
  apply (rep_mapped _ _ _ Hr). lia.
Qed.

Lemma wp_hwrite_at n off v a s (Q : unit → heap P → Prop) :
  (∀ x, a <= x < a + 24 → va_mapped (h_pages s) x = true) →
  0 <= off → (0 < n)%nat → off + Z.of_nat n <= 24 →
  Q () (set_mem (store n (a + off) v (h_mem s)) s) → wp (hwrite n (a + off) v) Q s.
Proof.
  intros Hm ??? HQ. unfold hwrite, access. wp_steps. rewrite !Hm by lia. apply wp_ret. by apply wp_write.
Qed.

Lemma wp_block_init a c free next s (Q : unit → heap P → Prop) :
  (∀ x, a <= x < a + 24 → va_mapped (h_pages s) x = true) →
  (4096 | a) → 0 <= a < 18446744073709551616 - 24 →
  Q () (set_mem (init_mem a c free next (h_mem s)) s) → wp (_block_init a c free next) Q s.
Proof.
  intros Hm Hd Hb HQ. unfold _block_init. wp_step. wp_step; [by apply align_check_true|].
  unfold set_class, set_is_free, set_next_free, set_magic.
  u64_unfold. rewrite !u64_small by lia.
  wp_step. replace a with (a + 0) at 1 by lia. apply wp_hwrite_at; [done|lia..|].
  wp_step. apply wp_hwrite_at; [done|lia..|].
  wp_step. apply wp_hwrite_at; [done|lia..|].
  apply wp_hwrite_at; [done|lia..|]. simpl. by rewrite Z.add_0_r.
Qed.

Lemma block_divide live hend s a c st :
  heap_rep live hend s → live !! a = Some (c, st) → (4096 | a) ∧ 0 <= a < 18446744073709551616 - 24.
Proof.
  intros Hr Ha. split.
  - apply (align_check_iff a 4096); [done|]. by eapply block_page_aligned.
  - pose proof (block_bounds _ _ (rep_tiled _ _ _ Hr) _ _ _ Ha). rewrite VA_48_HEAP_val in *. lia.
Qed.

(* --------------------------------------------------------------------- *)
(** ** The other lists *)

Lemma list_rep_other live m d h l b c st st' :
  d ≠ c → live !! b = Some (c, st') → list_rep live m d h l →
  list_rep (<[b := (c, st)]> live) m d h l.
Proof.
  intros Hne Hb (Hs & Hnd & Hin). split_and!; [done|done|].
  intros a. rewrite Hin. destruct (decide (b = a)) as [->|Hne'].
  - rewrite lookup_insert_eq. split; congruence.
  - by rewrite lookup_insert_ne.
Qed.

Lemma list_rep_agree live a m m' d h l :
  hdr_agree a m m' → (∀ b, live !! b = Some (d, Free) → a + 24 <= b ∨ b + 24 <= a) →
  list_rep live m d h l → list_rep live m' d h l.
Proof.
  intros Hag Hl (Hs & Hnd & Hin). split_and!; [|done|done].
  eapply lseg_agree; [done| |done]. intros b Hb. by apply Hl, Hin.
Qed.

(* --------------------------------------------------------------------- *)
(** ** Enqueue *)

Lemma wp_enqueue live hend s a c st (Q : unit → heap P → Prop) :
  heap_rep live hend s → live !! a = Some (c, st) → st ≠ Used → st ≠ Free →
  (∀ s', evolves hend live s (<[a := (c, Free)]> live) s' → Q () s') →
  wp (_free_list_enqueue a c) Q s.
Proof.
  intros Hr Ha Hu Hf HQ. pose proof (block_bounds _ _ (rep_tiled _ _ _ Hr) _ _ _ Ha) as Hb.
  destruct (block_divide _ _ _ _ _ _ Hr Ha) as [Hd Hrange].
  unfold _free_list_enqueue. wp_step. wp_step; [unfold _BLOCK_MAX_CLASS; bsimp; lia|].
  wp_step. eapply wp_get_list; [done|lia|]. intros h l Hh (Hs & Hnd & Hin).
  assert (is_u64 h) as Hh64.
  { destruct l as [|b l]; simpl in Hs; [subst; split; unfold NULL; lia|].
    destruct Hs as [-> _]. eapply block_u64; [done|]. apply Hin. set_solver. }
  wp_step. apply wp_block_init; [by intros; eapply rep_block_mapped|done..|].
  wp_step. apply wp_set_list; [lia|apply Hr|]. simpl.
  set (m' := init_mem a c true h (h_mem s)).
  pose proof (init_mem_agree a c true h (h_mem s)) as Hag. fold m' in Hag.
  assert (∀ b d st', live !! b = Some (d, st') → a ≠ b → a + 24 <= b ∨ b + 24 <= a) as Hapart
    by (intros; eapply blocks_apart; done).
  assert (∀ b, b ∈ l → a + 24 <= b ∨ b + 24 <= a) as Hl
    by (intros b Hb'%Hin; eapply Hapart; [done|congruence]).
  assert (heap_rep (<[a := (c, Free)]> live) hend
    (set_free_lists (<[Z.to_nat c := a]> (_free_list s)) (set_mem m' s))) as Hr'.
  { apply (rep_set_list live _ _ _ _ _ _ (a :: l)); [done|lia|..].
    - eapply tiled_set_state; [apply Hr|done].
    - intros b d u [[<- ?]|[Hne Hb']]%lookup_insert_Some; simplify_eq.
      + apply init_mem_hdr; [lia|]. by rewrite bool_decide_false by done.
      + eapply hdr_agree_ok; [done| |by eapply rep_hdr]. by eapply Hapart.
    - split_and!.
      + simpl. split; [done|]. unfold m'. rewrite init_mem_next by done.
        by eapply lseg_agree.
      + constructor; [|done]. rewrite Hin. congruence.
      + intros b. rewrite elem_of_cons, Hin. destruct (decide (a = b)) as [->|Hne].
        * rewrite lookup_insert_eq. naive_solver.
        * rewrite lookup_insert_ne by done. naive_solver.
    - intros d h' l' Hd' Hne Hl'. eapply list_rep_other; [done..|].
      eapply list_rep_agree; [done| |done]. intros b Hb'. eapply Hapart; [done|congruence]. }
  wp_step. eapply wp_get_class; [exact Hr'|by rewrite lookup_insert_eq|done|].
  apply wp_assert; [bsimp; lia|]. apply HQ. split; [done|done| |].
  - simpl. eapply keeps_hdr; [apply Hr|done..].
  - simpl. by eapply headers_only_hdr.
Qed.

(* --------------------------------------------------------------------- *)
(** ** Dequeue of the head *)

Lemma list_rep_cons live m c h a l :
  list_rep live m c h (a :: l) → h = a ∧ a ≠ NULL → list_rep (<[a := (c, Limbo)]> live) m c (load 8 m (a + 8)) l.
Proof.
  intros (Hs & Hnd & Hin) [-> Hn]. simpl in Hs. destruct Hs as [_ Hs].
  apply list.NoDup_cons in Hnd as [Ha Hnd]. split_and!; [done|done|].
  intros b. destruct (decide (a = b)) as [->|Hne].
  - rewrite lookup_insert_eq. split; [done|congruence].
  - rewrite lookup_insert_ne by done. rewrite <-Hin, elem_of_cons. naive_solver.
Qed.

Lemma wp_dequeue live hend s c (Q : Z → heap P → Prop) :
  heap_rep live hend s → 0 <= c < 16 →
  (no_free live c → Q NULL s) →
  (∀ a s', a ≠ NULL → live !! a = Some (c, Free) →
     evolves hend live s (<[a := (c, Limbo)]> live) s' → Q a s') →
  wp (_free_list_dequeue c) Q s.
Proof.
  intros Hr Hc Hempty HQ. unfold _free_list_dequeue. wp_step.
  wp_step; [unfold _BLOCK_MAX_CLASS; bsimp; lia|].
  wp_step. eapply wp_get_list; [done..|]. intros h l Hh Hl.
  destruct l as [|a l]; pose proof Hl as (Hs & Hnd & Hin); simpl in Hs.
  { subst h. simpl. wp_step. apply Hempty. intros a Ha. apply Hin in Ha. set_solver. }
  destruct Hs as [-> Hs]. assert (live !! a = Some (c, Free)) as Ha by (apply Hin; set_solver).
  destruct (block_u64 _ _ _ _ _ _ Hr Ha) as [Ha64 Hn].
  destruct (a =? NULL) eqn:Hz; bsimp; [done|].
  wp_step. eapply wp_block_validate; [done..|].
  wp_step. eapply wp_get_class; [done..|]. wp_step. wp_step; [bsimp; lia|].
  wp_step. eapply wp_get_next_free; [done..|].
  wp_step. apply wp_set_list; [lia|apply Hr|]. wp_step. apply HQ; [done..|].
  split; [|done|done|by intros x _].
  change (set_free_lists ?l s) with (set_free_lists l (set_mem (h_mem s) s)).
  apply (rep_set_list live _ _ _ _ _ _ l); [done..| | | |].
  - eapply tiled_set_state; [apply Hr|done].
  - intros b d u [[<- ?]|[Hne Hb']]%lookup_insert_Some; simplify_eq; [|by eapply rep_hdr].
    intros _. destruct (rep_hdr _ _ _ Hr _ _ _ Ha ltac:(done)) as (?&?&?). done.
  - by eapply list_rep_cons.
  - intros d h' l' Hd' Hne. by eapply list_rep_other.
Qed.

(* --------------------------------------------------------------------- *)
(** ** Unlinking a given block *)

(** Distinct blocks are at most as many as the pages of the heap. *)
Lemma blocks_bounded live hend l : tiled live hend → NoDup l → (∀ a, a ∈ l → ∃ b, live !! a = Some b) →
  (length l <= Z.to_nat ((hend - VA_48_HEAP) / 4096))%nat.
Proof.
  intros Ht Hnd Hin.
  assert (∀ a, a ∈ l → ∃ q, a - VA_48_HEAP = q * 4096 ∧ 0 <= q < (hend - VA_48_HEAP) / 4096) as Hq.
  { intros a [[c st] Ha]%Hin. pose proof Ha as (Hc & ? & ? & Hd)%(tiled_block _ _ Ht).
    pose proof (bsize_bounds c Hc).
    assert (4096 | a - VA_48_HEAP) as [q Hq]
      by (eapply Z.divide_trans; [apply page_divide|done]; lia).
    exists q. split; [done|]. zlia. }
  assert (length ((λ a, ((a - VA_48_HEAP) / 4096)%Z) <$> l) <=
          length (seqZ 0%Z ((hend - VA_48_HEAP) / 4096)%Z))%nat as Hle.
  { apply submseteq_length, NoDup_submseteq.
    - apply NoDup_fmap_2_strong; [|done]. intros x y [q [Hx ?]]%Hq [r [Hy ?]]%Hq.
      rewrite Hx, Hy, !Z.div_mul by lia. lia.
    - intros x [a [-> [q [Ha ?]]%Hq]]%list_elem_of_fmap. rewrite Ha, Z.div_mul by lia.
      apply elem_of_seqZ. lia. }
  by rewrite length_fmap, length_seqZ in Hle.
Qed.

(** A free list has at most one entry per page of the heap. *)
Lemma free_list_fuel live hend s c h l :
  heap_rep live hend s → _heap_end s = hend → list_rep live (h_mem s) c h l →
  (length l < list_fuel s)%nat.
Proof.
  intros Hr He (_ & Hnd & Hin). pose proof (rep_tiled _ _ _ Hr) as Ht.
  assert (length l <= Z.to_nat ((hend - VA_48_HEAP) / 4096))%nat as Hle.
  { apply (blocks_bounded live hend l Ht Hnd). intros a Ha%Hin. eauto. }
  unfold list_fuel, PAGE_SIZE_VALUE_4K. rewrite He. destruct (tiled_end _ _ Ht) as [_ ?].
  pose proof (Z.div_pos (hend - VA_48_HEAP) 4096 ltac:(lia) ltac:(lia)). lia.
Qed.

(** The walk: from an entry [p] before [b], the loop reaches the predecessor
    [q] of [b] and links it past [b]. *)
Lemma dequeue_walk live hend s c b p l1 l2 fuel (Q : bool → heap P → Prop) :
  heap_rep live hend s →
  lseg (h_mem s) p (p :: l1 ++ b :: l2) NULL → NoDup (p :: l1 ++ b :: l2) →
  (∀ a, a ∈ p :: l1 ++ b :: l2 → live !! a = Some (c, Free)) →
  (length l1 < fuel)%nat →
  (∀ l0 q, p :: l1 = l0 ++ [q] →
    Q true (set_mem (store 8 (q + 8) (load 8 (h_mem s) (b + 8)) (h_mem s)) s)) →
  wp (dequeue_block_loop fuel b p) Q s.
Proof.
  intros Hr. revert p fuel Q. induction l1 as [|p' l1 IH]; intros p fuel Q Hs Hnd Hl Hfuel HQ.
  all: destruct fuel as [|fuel]; [simpl in Hfuel; lia|].
  all: unfold dequeue_block_loop; cbn [loop]; fold (@dequeue_block_loop P H fuel b).
  all: assert (live !! p = Some (c, Free)) as Hp by (apply Hl; set_solver).
  all: assert (live !! b = Some (c, Free)) as Hb by (apply Hl; set_solver).
  all: destruct (block_u64 _ _ _ _ _ _ Hr Hp) as [_ Hpn].
  all: assert (p ≠ b) as Hpb by (apply list.NoDup_cons in Hnd as [Hnin _]; set_solver).
  all: destruct (p =? NULL) eqn:Hz; bsimp; [done|]; destruct (p =? b) eqn:Hz'; bsimp; [done|].
  all: simpl in Hs; destruct Hs as [_ [Hnext Hs]].
  all: wp_step; wp_step; eapply wp_get_next_free; [done..|]; rewrite Hnext.
  - rewrite Z.eqb_refl. wp_step. eapply wp_get_next_free; [done..|]. wp_step.
    unfold set_next_free. erewrite off_small by (done || lia).
    apply wp_hwrite_at; [intros; by eapply (rep_block_mapped _ _ _ p)|lia|lia|lia|].
    repeat apply wp_ret. by apply (HQ []).
  - assert (p' ≠ b) as Hne.
    { apply list.NoDup_cons in Hnd as [_ Hnd]. apply list.NoDup_cons in Hnd as [Hnin _]. set_solver. }
    destruct (p' =? b) eqn:Hz''; bsimp; [done|].
    wp_step. eapply wp_get_next_free; [done..|]. rewrite Hnext. apply wp_ret.
    apply IH.
    + simpl. done.
    + by apply list.NoDup_cons in Hnd as [_ Hnd].
    + intros a Ha. apply Hl. set_solver.
    + simpl in Hfuel. lia.
    + intros l0 q Heq. apply (HQ (p :: l0) q). simpl. by rewrite Heq.
Qed.

(** Linking the predecessor past the block takes the block off the list. *)
Lemma rep_unlink live hend s c l0 q b l2 h :
  heap_rep live hend s → 0 <= c < 16 → _free_list s !! Z.to_nat c = Some h →
  list_rep live (h_mem s) c h (l0 ++ q :: b :: l2) →
  evolves hend live s (<[b := (c, Limbo)]> live)
    (set_mem (store 8 (q + 8) (load 8 (h_mem s) (b + 8)) (h_mem s)) s).
Proof.
  intros Hr Hc Hh (Hs & Hnd & Hin). set (m' := store 8 _ _ _).
  assert (live !! q = Some (c, Free)) as Hq by (apply Hin; set_solver).
  assert (live !! b = Some (c, Free)) as Hb by (apply Hin; set_solver).
  assert (hdr_agree q (h_mem s) m') as Hag by (apply hdr_agree_store; lia).
  assert (∀ a d st', live !! a = Some (d, st') → q ≠ a → q + 24 <= a ∨ a + 24 <= q) as Hapart
    by (intros; eapply blocks_apart; done).
  apply list.NoDup_app in Hnd as (Hnd0 & Hdis & Hnd1).
  apply list.NoDup_cons in Hnd1 as [Hq1 Hnd1]. apply list.NoDup_cons in Hnd1 as [Hb1 Hnd2].
  assert (q ≠ b) as Hqb by set_solver.
  split; [|done|apply (keeps_hdr _ hend q c Free); [apply Hr|done..]|eapply headers_only_hdr; [exact Hq|exact Hag]].
  assert (∀ a d st', live !! a = Some (d, st') → hdr_ok m' a d st') as Hhdr.
  { intros a d st' Ha. destruct (decide (q = a)) as [<-|Hne].
    - rewrite Hq in Ha. simplify_eq. intros Hst.
      destruct (rep_hdr _ _ _ Hr _ _ _ Hq Hst) as (H1 & H2 & H3).
      unfold m'. rewrite !load_store_ne by lia. done.
    - eapply hdr_agree_ok; [done| |by eapply rep_hdr]. by eapply Hapart. }
  split.
  - eapply tiled_set_state; [apply Hr|done].
  - intros a d st' [[<- ?]|[Hne Ha]]%lookup_insert_Some; simplify_eq; [|by apply Hhdr].
    intros _. by destruct (Hhdr _ _ _ Hb ltac:(done)) as (?&?&?).
  - apply Hr.
  - intros d Hd. simpl. destruct (decide (d = c)) as [->|Hne].
    + exists h, (l0 ++ q :: l2). split; [done|]. split_and!.
      * apply lseg_app in Hs as (x & Hs0 & Hs1). simpl in Hs1. destruct Hs1 as (-> & _ & Hs2).
        apply lseg_app. exists q. split.
        { eapply lseg_agree; [done| |done]. intros a Ha. eapply Hapart; [apply Hin; set_solver|set_solver]. }
        simpl. split; [done|]. assert (load 8 m' (q + 8) = load 8 (h_mem s) (b + 8)) as ->
          by (apply (load_store_small 8), load_range).
        eapply lseg_agree; [done| |done]. intros a Ha. eapply Hapart; [apply Hin; set_solver|set_solver].
      * apply list.NoDup_app. split_and!; [done|set_solver|].
        apply list.NoDup_cons. split; [set_solver|done].
      * intros a. destruct (decide (b = a)) as [<-|Hne].
        -- rewrite lookup_insert_eq. split; [|congruence]. set_solver.
        -- rewrite lookup_insert_ne, <-Hin by done. set_solver.
    + destruct (rep_list _ _ _ Hr d Hd) as (h' & l' & Hh' & Hl').
      exists h', l'. split; [done|]. eapply list_rep_other; [done..|].
      eapply list_rep_agree; [done| |done]. intros a Ha. eapply Hapart; [done|congruence].
  - apply Hr.
Qed.

Lemma wp_dequeue_block live hend s b c (Q : unit → heap P → Prop) :
  heap_rep live hend s → _heap_end s = hend → live !! b = Some (c, Free) →
  (∀ s', evolves hend live s (<[b := (c, Limbo)]> live) s' → Q () s') →
  wp (_free_list_dequeue_block b) Q s.
Proof.
  intros Hr He Hb HQ. pose proof (block_bounds _ _ (rep_tiled _ _ _ Hr) _ _ _ Hb) as Hbb.
  unfold _free_list_dequeue_block. wp_step. eapply wp_block_validate; [done..|].
  wp_step. eapply wp_get_class; [done..|].
  wp_step. eapply wp_get_list; [done|lia|]. intros h l Hh Hl.
  pose proof (free_list_fuel _ _ _ _ _ _ Hr He Hl) as Hfuel.
  pose proof Hl as (Hs & Hnd & Hin).
  wp_step. wp_step. wp_step.
  assert (b ∈ l) as (l1 & l2 & ->)%list_elem_of_split by by apply Hin.
  destruct l1 as [|p l1].
  - simpl in Hs. destruct Hs as [-> Hs].
    destruct (block_u64 _ _ _ _ _ _ Hr Hb) as [_ Hbn].
    destruct (list_fuel s) as [|fuel]; [lia|]. unfold dequeue_block_loop. cbn [loop].
    destruct (b =? NULL) eqn:Hz; bsimp; [done|]. rewrite Z.eqb_refl.
    wp_step. wp_step. eapply wp_get_class; [done..|].
    wp_step. eapply wp_get_list; [done|lia|]. intros h' l' Hh' _. simplify_eq. clear l'.
    wp_step. wp_step; [by apply Z.eqb_eq|].
    wp_step. eapply wp_get_next_free; [done..|].
    wp_step. apply wp_set_list; [lia|apply Hr|]. do 2 apply wp_ret. apply wp_assert; [done|].
    apply HQ. split; [|done|done|by intros x _].
    change (set_free_lists ?l s) with (set_free_lists l (set_mem (h_mem s) s)).
    apply (rep_set_list live _ _ _ _ _ _ l2); [done|lia|..].
    + eapply tiled_set_state; [apply Hr|done].
    + intros a d u [[<- ?]|[Hne Ha]]%lookup_insert_Some; simplify_eq; [|by eapply rep_hdr].
      intros _. by destruct (rep_hdr _ _ _ Hr _ _ _ Hb ltac:(done)) as (?&?&?).
    + by eapply list_rep_cons.
    + intros d h' l' Hd' Hne. by eapply list_rep_other.
  - assert (h = p) as -> by (simpl in Hs; tauto).
    simpl app in Hs, Hnd, Hin.
    eapply (dequeue_walk _ _ _ c _ _ l1 l2); [done|exact Hs|done| | |].
    + intros a Ha. by apply Hin.
    + simpl in Hfuel. rewrite length_app in Hfuel. simpl in Hfuel. lia.
    + intros l0 q Heq. apply wp_assert; [done|]. apply HQ.
      eapply (rep_unlink _ _ _ _ l0 q b l2 p); [done|lia|done|].
      replace (l0 ++ q :: b :: l2) with ((l0 ++ [q]) ++ b :: l2) by by rewrite <-app_assoc.
      by rewrite <-Heq.
Qed.

End lists.
