(* ===== verification/MmHeapOps.v ===== *)
(** The compound operations of mm_heap.c on represented heaps: checking a
    block out and in, finding a buddy, growing the heap, splitting and
    coalescing. *)
From S2P Require Import Prelude Memory Util MmCore MmHeap HeapTiling MmHeapRep MmHeapLists.

(** The result of [find_buddy] in the wrapping arithmetic of the code. *)
Lemma u64_mod_block c x : 0 <= c < 15 → u64 x `mod` bsize (c + 1) = x `mod` bsize (c + 1).
Proof.
  intros Hc. unfold u64. apply Z.mod_mod_divide.
  change 18446744073709551616 with (2 ^ 52 * 4096). unfold bsize.
  apply Z.mul_divide_mono_r, pow2_divide. lia.
Qed.

(** A tiling that names the same free blocks, and whose headers are either
    known or not written yet, is represented by the same state. *)
Lemma rep_retile {P} `{PageSource P} live live' hend hend' (s : heap P) :
  heap_rep live hend s → tiled live' hend' →
  (∀ a c, live' !! a = Some (c, Free) ↔ live !! a = Some (c, Free)) →
  (∀ a c st, live' !! a = Some (c, st) → st ≠ Raw → live !! a = Some (c, st)) →
  (∀ x, hend <= x < hend' → va_mapped (h_pages s) x = true) →
  heap_rep live' hend' s.
Proof.
  intros Hr Ht Hfree Hsub Hmap. split.
  - done.
  - intros a c st Ha Hst. eapply rep_hdr; eauto.
  - apply Hr.
  - intros c Hc. destruct (rep_list _ _ _ Hr c Hc) as (h & l & Hh & Hs & Hnd & Hin).
    exists h, l. split; [done|]. split_and!; [done|done|]. intros a. by rewrite Hin, Hfree.
  - intros x Hx. destruct (decide (x < hend)); [apply (rep_mapped _ _ _ Hr)|apply Hmap]; lia.
Qed.

(** A representation looks at the memory, the lists and the mapped pages. *)
Lemma rep_pages {P} `{PageSource P} live hend (s s' : heap P) :
  heap_rep live hend s → h_mem s' = h_mem s → _free_list s' = _free_list s →
  (∀ x, va_mapped (h_pages s) x = true → va_mapped (h_pages s') x = true) →
  heap_rep live hend s'.
Proof.
  intros Hr Hm Hl Hp. split; rewrite ?Hm, ?Hl; [apply Hr..|].
  intros x Hx. by apply Hp, (rep_mapped _ _ _ Hr).
Qed.

Section ops.
Context {P : Type} `{PageSource P}.
Implicit Types (s : heap P) (live : tiling).

(* --------------------------------------------------------------------- *)
(** ** Check out, check in *)

Lemma mark_hdr m a c st st' (free : bool) :
  hdr_ok m a c st → st ≠ Raw → free = negb (bool_decide (st' = Used)) →
  hdr_ok (store 1 (a + 1) (Z.b2z free) m) a c st'.
Proof.
  intros Hok Hst Hf _. destruct (Hok Hst) as (H1 & H2 & _).
  rewrite (load_store_ne 1 1), (load_store_ne 4 1) by lia. split_and!; [done|done|].
  rewrite (load_store_small 1) by (destruct free; simpl; lia). rewrite Hf.
  by destruct (bool_decide (st' = Used)).
Qed.

Lemma wp_set_is_free live hend s a c st st' (free : bool) (Q : unit → heap P → Prop) :
  heap_rep live hend s → live !! a = Some (c, st) → st ≠ Raw → st ≠ Free → st' ≠ Free →
  free = negb (bool_decide (st' = Used)) →
  (∀ s', heap_rep (<[a := (c, st')]> live) hend s' → same_pages s s' →
     hdr_agree a (h_mem s) (h_mem s') → Q () s') →
  wp (set_is_free a free) Q s.
Proof.
  intros Hr Ha Hraw Hst Hst' Hf HQ. unfold set_is_free. erewrite off_small by (done || lia).
  eapply wp_hwrite; [done..|lia|lia|]. apply HQ; [|done|apply hdr_agree_store; lia].
  eapply rep_change_header; [done..|apply hdr_agree_store; lia|].
  eapply mark_hdr; [by eapply rep_hdr|done..].
Qed.

Lemma wp_check_out live hend s a c (Q : Z * Z → heap P → Prop) :
  heap_rep live hend s → live !! a = Some (c, Limbo) →
  (∀ s', evolves hend live s (<[a := (c, Used)]> live) s' → Q (a + 24, bsize c - 24) s') →
  wp (_block_check_out a) Q s.
Proof.
  intros Hr Ha HQ. pose proof (block_bounds _ _ (rep_tiled _ _ _ Hr) _ _ _ Ha) as Hb.
  unfold _block_check_out. wp_step. wp_step; [by eapply block_page_aligned|].
  wp_step. eapply wp_get_class; [done..|].
  wp_step. wp_step; [unfold _BLOCK_MAX_CLASS; bsimp; lia|].
  wp_step. eapply wp_get_is_free; [done..|]. wp_step. wp_step; [done|].
  wp_step. eapply wp_set_is_free with (st' := Used); [done..|]. intros s' Hr' Hp Hag.
  wp_step. eapply wp_get_class; [exact Hr'|by rewrite lookup_insert_eq|done|].
  wp_step. apply wp_size_of_class; [lia|]. apply wp_ret.
  unfold sizeof_block. u64_unfold. rewrite VA_48_HEAP_val in *. rewrite !u64_small by lia.
  apply HQ. split; [done|done| |by eapply headers_only_hdr].
  eapply keeps_hdr; [apply Hr|exact Ha|done|done].
Qed.

Lemma wp_check_in live hend s a c (Q : Z → heap P → Prop) :
  heap_rep live hend s → live !! a = Some (c, Used) →
  (∀ s', heap_rep (<[a := (c, Limbo)]> live) hend s' → same_pages s s' →
     keeps (delete a (used live)) (h_mem s) (h_mem s') → hdr_agree a (h_mem s) (h_mem s') → Q a s') →
  wp (_block_check_in (a + 24)) Q s.
Proof.
  intros Hr Ha HQ. pose proof (block_bounds _ _ (rep_tiled _ _ _ Hr) _ _ _ Ha) as Hb.
  unfold _block_check_in. unfold sizeof_block. u64_unfold.
  rewrite VA_48_HEAP_val in *.
  replace (a + 24 - 24) with a by lia. rewrite u64_small by lia.
  wp_step. eapply wp_block_validate; [done..|].
  wp_step. eapply wp_get_is_free; [done..|]. wp_step. wp_step; [done|].
  wp_step. eapply wp_set_is_free with (st' := Limbo); [done..|]. intros s' Hr' Hp Hag.
  apply wp_ret. apply HQ; [done|done| |done].
  rewrite <-(used_remove live a c Limbo) by done.
  eapply keeps_hdr; [apply Hr'|by rewrite lookup_insert_eq|done|done].
Qed.

(* --------------------------------------------------------------------- *)
(** ** The buddy *)

(** The choice between the two neighbours: [r] is the offset of the block in
    its 128 MiB stretch, [base] the start of that stretch. *)
Lemma wp_buddy_addr a c r base s :
  0 <= c < 15 → VA_48_HEAP <= a < 18446744073709551616 → 0 <= r < bsize 15 → 0 <= base →
  a - VA_48_HEAP = base + r → (bsize (c + 1) | base) → (bsize c | r) →
  is_u64 (buddy_of c a) →
  wp (if mm_align_check (r - bsize c)%u64 (bsize (c + 1)) then mret (r - bsize c)%u64
      else kernel_assert_d (mm_align_check r (bsize (c + 1))) ;; mret (r + bsize c)%u64)
    (λ b s', (b + base + VA_48_HEAP)%u64 = buddy_of c a ∧ s' = s) s.
Proof.
  intros Hc Ha Hr Hb0 Hx Hb Hrc H64.
  pose proof (bsize_pos c ltac:(lia)) as Hpos. pose proof (bsize_pos (c + 1) ltac:(lia)) as Hpos'.
  assert (∀ b, b + base + VA_48_HEAP = buddy_of c a → (u64 b + base + VA_48_HEAP)%u64 = buddy_of c a) as Hu.
  { intros b Heq. u64_unfold. unfold u64. rewrite Z.add_mod_idemp_l by lia.
    rewrite <-(Z.add_assoc (b `mod` _)), Z.add_mod_idemp_l by lia.
    rewrite Z.add_assoc, Heq. by apply Z.mod_small. }
  assert ((bsize (c + 1) | a - bsize c - VA_48_HEAP) ↔ (bsize (c + 1) | r - bsize c)) as Hodd.
  { replace (a - bsize c - VA_48_HEAP) with ((r - bsize c) + base) by lia. split; intros Hd.
    - replace (r - bsize c) with (r - bsize c + base - base) by lia. by apply Z.divide_sub_r.
    - by apply Z.divide_add_r. }
  destruct (mm_align_check (r - bsize c)%u64 (bsize (c + 1))) eqn:Hchk.
  - apply wp_ret. split; [|done]. apply Hu.
    apply align_check_iff in Hchk; [|done]. u64_unfold.
    apply Z.mod_divide in Hchk; [|lia]. rewrite u64_mod_block in Hchk by lia.
    apply Z.mod_divide in Hchk; [|lia].
    apply Hodd in Hchk. pose proof (buddy_odd c (a - bsize c) ltac:(lia) Hchk) as Hbo.
    replace (a - bsize c + bsize c) with a in Hbo by lia. lia.
  - assert (bsize c | a - VA_48_HEAP) as Hda.
    { rewrite Hx. apply Z.divide_add_r; [|done].
      eapply Z.divide_trans; [apply bsize_divide|exact Hb]. lia. }
    destruct (buddy_cases c a ltac:(lia) Hda) as [[Heq Hd]|[_ Hd]].
    + wp_step. wp_step.
      { apply align_check_true; [done|]. replace r with (a - VA_48_HEAP - base) by lia.
        by apply Z.divide_sub_r. }
      wp_step. split; [|done]. apply Hu. lia.
    + exfalso. apply not_true_iff_false in Hchk. apply Hchk, align_check_iff; [done|].
      u64_unfold. apply Z.mod_divide; [lia|]. rewrite u64_mod_block by lia.
      apply Z.mod_divide; [lia|]. by apply Hodd.
Qed.

Lemma wp_find_buddy live hend s a c st (Q : Z → heap P → Prop) :
  heap_rep live hend s → live !! a = Some (c, st) → st ≠ Raw → c < 15 →
  (∀ d, live !! buddy_of c a ≠ Some (d, Raw)) → Q (buddy_of c a) s →
  wp (_block_find_buddy a) Q s.
Proof.
  intros Hr Ha Hst Hc Hraw HQ. pose proof (rep_tiled _ _ _ Hr) as Ht.
  pose proof (block_bounds _ _ Ht _ _ _ Ha) as Hb.
  pose proof Ha as (_ & _ & _ & Hd)%(tiled_block _ _ Ht).
  pose proof (buddy_aligned c a ltac:(lia) Hd) as Hbd.
  destruct (buddy_live _ _ Ht a c st Ha Hc) as (d & st' & Hbl & Hdc).
  pose proof (block_bounds _ _ Ht _ _ _ Hbl) as Hbb.
  assert (st' ≠ Raw) as Hst' by (intros ->; by apply (Hraw d)).
  pose proof (bsize_pos c ltac:(lia)) as Hpos.
  pose proof (bsize_succ c ltac:(lia)) as Hsucc.
  pose proof (bsize_bounds c ltac:(lia)) as Hbs.
  unfold _block_find_buddy. wp_step. wp_step; [by eapply block_page_aligned|].
  wp_step. eapply wp_get_class; [done..|].
  wp_step. wp_step; [unfold _BLOCK_MAX_CLASS; bsimp; lia|].
  wp_step. apply wp_size_of_class; [lia|].
  wp_step. apply wp_size_of_class; [unfold _BLOCK_MAX_CLASS; lia|].
  unfold _BLOCK_MAX_CLASS. change (16 - 1) with 15.
  assert (is_u64 (a - VA_48_HEAP)) as Hx by (rewrite VA_48_HEAP_val in *; unfold is_u64; lia).
  assert ((a - VA_48_HEAP)%u64 = a - VA_48_HEAP) as Ex by by apply u64_small.
  rewrite Ex. wp_step. change (bsize 15) with (2 ^ 27) at 1. apply wp_align_down; [lia|done|].
  change (2 ^ 27) with (bsize 15). set (x := a - VA_48_HEAP) in *.
  set (r := x `mod` bsize 15).
  assert (0 <= r < bsize 15) as Hrr by (apply Z.mod_pos_bound; done).
  assert (r <= x) by (unfold r; apply Z.mod_le; [apply Hx|done]).
  assert ((x - (x - r)%Z)%u64 = r) as Er.
  { u64_unfold. replace (x - (x - r)) with r by lia. apply u64_small. unfold is_u64 in Hx. lia. }
  rewrite Er.
  assert (bsize (c + 1) | x - r) as Hxr.
  { unfold r. pose proof (Z.div_mod x (bsize 15) ltac:(done)).
    replace (x - x `mod` bsize 15) with (bsize 15 * (x / bsize 15)) by lia.
    apply Z.divide_mul_l, bsize_divide. lia. }
  assert (bsize c | r) as Hrc.
  { replace r with (x - (x - r)) by lia. apply Z.divide_sub_r; [done|].
    eapply Z.divide_trans; [apply bsize_divide|exact Hxr]. lia. }
  assert ((bsize c * 2)%u64 = bsize (c + 1)) as E2
    by (u64_unfold; rewrite u64_small by lia; lia).
  wp_step. wp_step; [by apply align_check_true|]. rewrite E2.
  wp_step. eapply (wp_mono _ (λ b s', (b + (x - r)%Z + VA_48_HEAP)%u64 = buddy_of c a ∧ s' = s)).
  - apply wp_buddy_addr; [lia..| |done|done|].
    + lia.
    + unfold is_u64. rewrite VA_48_HEAP_val in *. lia.
  - intros b s' [-> ->]. wp_step. eapply wp_block_validate; [done..|].
    wp_step. eapply wp_get_class; [done..|]. wp_step. eapply wp_get_class; [done..|].
    wp_step. wp_step; [bsimp; lia|]. by wp_step.
Qed.

End ops.

(* --------------------------------------------------------------------- *)
(** ** Growing the heap *)

Section growing.
Context {P : Type} `{PageSourceSpec P}.
Implicit Types (s : heap P) (live : tiling).

(** The heap can grow [k] more times: the page source can back the pages,
    and the addresses do not run out. *)
Definition room (k : Z) (s : heap P) : Prop :=
  can_map (h_pages s) (_heap_end s) (32768 * k) ∧
  _heap_end s + k * bsize 15 < 18446744073709551616.

Lemma room_mono k k' s : room k s → 0 <= k' <= k → room k' s.
Proof.
  intros [Hc Hb] Hk. split; [eapply can_map_mono; [done|lia]|].
  change (bsize 15) with 134217728 in *. lia.
Qed.

Lemma room_pages k s s' : same_pages s s' → room k s → room k s'.
Proof. unfold room. intros [-> ->]. done. Qed.

Lemma wp_expand_page s add n (Q : unit → heap P → Prop) :
  0 < n → 0 <= add → _heap_end s + add < 18446744073709551616 → 0 <= _heap_end s →
  can_map (h_pages s) (_heap_end s + add) n →
  (∀ p, (∀ x, va_mapped (h_pages s) x = true → va_mapped p x = true) →
     (∀ x, _heap_end s + add <= x < _heap_end s + add + 4096 → va_mapped p x = true) →
     can_map p (_heap_end s + add + 4096) (n - 1) → Q () (set_pages p s)) →
  wp (expand_page add) Q s.
Proof.
  intros Hn Hadd Hlt He0 Hcan HQ. unfold expand_page. wp_step. unfold pages.
  apply wp_zoom. eapply wp_mono; [by apply can_map_step|].
  intros r p1 (pa & -> & Hpa & Hm1 & Hmap). wp_step. wp_step; [done|].
  simpl. wp_step. wp_step; [apply negb_true_iff; bsimp; done|].
  wp_step. wp_step. wp_step. apply wp_zoom. simpl.
  assert ((_heap_end s + add)%u64 = _heap_end s + add) as -> by (apply u64_small; lia).
  eapply wp_mono; [exact Hmap|]. intros ok p2 (-> & Hm2 & Hm3 & Hcan').
  apply wp_assert; [done|]. apply HQ; [by eauto|done|done].
Qed.

Lemma wp_expand live s k (Q : bool → heap P → Prop) :
  heap_rep live (_heap_end s) s → no_free live 15 → room (k + 1) s → 0 <= k →
  (∀ s', heap_rep (<[_heap_end s := (15, Free)]> live) (_heap_end s') s' →
     _heap_end s' = _heap_end s + bsize 15 → room k s' →
     keeps (used live) (h_mem s) (h_mem s') → Q true s') →
  wp _expand_heap Q s.
Proof.
  intros Hr Hnf [Hcan Hroom] Hk HQ. pose proof (rep_tiled _ _ _ Hr) as Ht.
  destruct (tiled_end _ _ Ht) as [_ Hend].
  assert (0 < VA_48_HEAP) as Hpos by (rewrite VA_48_HEAP_val; lia).
  set (e := _heap_end s) in *. change (bsize 15) with 134217728 in *.
  unfold _expand_heap. wp_step. apply wp_size_of_class; [unfold _BLOCK_MAX_CLASS; lia|].
  unfold _BLOCK_MAX_CLASS. change (16 - 1) with 15. change (bsize 15) with 134217728.
  wp_step. wp_step; [done|]. wp_step. wp_step; [done|].
  wp_step. unfold _free_list_is_empty. wp_step. wp_step; [done|].
  wp_step. eapply wp_get_list; [done|lia|]. intros h l _ (Hs & _ & Hin). wp_step.
  assert (l = []) as ->.
  { destruct l as [|a l]; [done|]. exfalso. apply (Hnf a), Hin. set_solver. }
  simpl in Hs. subst h. wp_step. wp_step; [done|]. wp_step.
  apply (wp_for_n (λ i s1, ∃ p, s1 = set_pages p s ∧
    (∀ x, va_mapped (h_pages s) x = true → va_mapped p x = true) ∧
    (∀ x, e <= x < e + i * 4096 → va_mapped p x = true) ∧
    can_map p (e + i * 4096) (32768 * (k + 1) - i))).
  - exists (h_pages s). split_and!; [by destruct s|done|intros; lia|].
    by rewrite Z.mul_0_l, Z.add_0_r, Z.sub_0_r.
  - change (Z.of_nat (Z.to_nat (134217728 / PAGE_SIZE_VALUE_4K))) with 32768.
    intros i s1 Hi (p & -> & Hm & Hm' & Hc).
    assert ((i * PAGE_SIZE_VALUE_4K)%u64 = i * 4096) as ->
      by (apply u64_small; unfold PAGE_SIZE_VALUE_4K; lia).
    apply wp_expand_page with (n := 32768 * (k + 1) - i); simpl; fold e; [lia..|done|].
    intros p' Hp Hp' Hcan'. exists p'. split_and!; [done|by eauto| |].
    + intros x Hx. destruct (decide (x < e + i * 4096)); [apply Hp, Hm'|apply Hp']; lia.
    + replace (e + (i + 1) * 4096) with (e + i * 4096 + 4096) by lia.
      by replace (32768 * (k + 1) - (i + 1)) with (32768 * (k + 1) - i - 1) by lia.
  - change (Z.of_nat (Z.to_nat (134217728 / PAGE_SIZE_VALUE_4K))) with 32768.
    change (0 + 32768) with 32768. change (32768 * 4096) with 134217728.
    intros s1 (p & -> & Hm & Hm' & Hc).
    wp_step. wp_step. simpl. fold e.
    assert (tiled (<[e := (15, Raw)]> live) (e + 134217728)) as Ht'
      by (apply tiled_extend; [done|]; change (bsize 15) with 134217728; lia).
    assert (live !! e = None) as Hnone by (eapply beyond_none; [done|lia]).
    wp_step. eapply (wp_enqueue (<[e := (15, Raw)]> live) (e + 134217728) _ _ _ Raw); [|
      by rewrite lookup_insert_eq|done|done|].
    { eapply (rep_retile live _ e); [|done|..].
      - by eapply rep_pages.
      - intros a c. rewrite lookup_insert_Some. naive_solver.
      - intros a c st [[? ?]|[? ?]]%lookup_insert_Some Hst; [congruence|done].
      - intros x Hx. apply Hm'. lia. }
    intros s' [Hr' [He' Hp'] Hkeep]. wp_step. wp_step. wp_step.
    simpl in He', Hp'. rewrite insert_insert_eq in Hr'. unfold set_heap_end.
    assert ((_heap_end s' + 134217728)%u64 = e + 134217728) as E
      by (rewrite He'; apply u64_small; lia).
    rewrite E. apply HQ; simpl; [| done| |].
    + by eapply rep_pages.
    + split; simpl.
      * rewrite Hp'. replace (32768 * k) with (32768 * (k + 1) - 32768) by lia. done.
      * change (bsize 15) with 134217728. lia.
    + rewrite used_insert_other in Hkeep; [done..|].
      apply used_none. intros c. congruence.
Qed.

End growing.
