(* ===== verification/MmHeapAlloc.v ===== *)
(** Allocation: obtaining a block of a class by taking it off its list, by
    splitting a larger one, or by growing the heap (mm_heap.c:
    [_split_from], [mm_heap_alloc]). *)
From S2P Require Import Prelude Memory Util MmCore MmHeap HeapTiling MmHeapRep MmHeapLists MmHeapOps.

(** Between two operations every block is in use or free. *)
Definition settled (live : tiling) : Prop :=
  ∀ a c st, live !! a = Some (c, st) → st = Used ∨ st = Free.
Definition settled_but (a : Z) (live : tiling) : Prop :=
  ∀ b c st, b ≠ a → live !! b = Some (c, st) → st = Used ∨ st = Free.
Definition coalesced_at (live : tiling) (c : Z) : Prop :=
  ∀ a, live !! a = Some (c, Free) → live !! buddy_of c a ≠ Some (c, Free).

(** The invariant of the heap between operations: its headers and lists
    represent a tiling in which no two buddies are both free, and the heap
    can still grow [k] times. *)
Record heap_inv {P} `{PageSourceSpec P} (k : Z) (live : tiling) (s : heap P) : Prop := {
  inv_rep : heap_rep live (_heap_end s) s;
  inv_settled : settled live;
  inv_coalesced : coalesced live;
  inv_room : room k s;
}.

(** A block of class [c] was taken out of the heap [live]: the blocks in use
    are the same, and so are the free blocks of smaller classes. *)
Record obtained {P} `{PageSourceSpec P} (k : Z) (live : tiling) (s : heap P) (c a : Z)
    (live1 : tiling) (s1 : heap P) : Prop := {
  ob_rep : heap_rep live1 (_heap_end s1) s1;
  ob_block : live1 !! a = Some (c, Limbo);
  ob_nonnull : a ≠ NULL;
  ob_used : used live1 = used live;
  ob_keeps : keeps (used live) (h_mem s) (h_mem s1);
  ob_settled : settled_but a live1;
  ob_coalesced : coalesced live1;
  ob_low b d : d < c → live1 !! b = Some (d, Free) ↔ live !! b = Some (d, Free);
  ob_room : room k s1;
}.

(** What [_split_from(c)] leaves: the two halves are the only free blocks of
    class [c - 1]. *)
Record split_done {P} `{PageSourceSpec P} (k : Z) (live : tiling) (s : heap P) (c : Z)
    (live' : tiling) (s' : heap P) : Prop := {
  sp_rep : heap_rep live' (_heap_end s') s';
  sp_used : used live' = used live;
  sp_keeps : keeps (used live) (h_mem s) (h_mem s');
  sp_settled : settled live';
  sp_coalesced d : 0 <= d < 15 → d ≠ c - 1 → coalesced_at live' d;
  sp_pair : ∃ a, ∀ b, live' !! b = Some (c - 1, Free) ↔ b = a ∨ b = a + bsize (c - 1);
  sp_low b d : d < c - 1 → live' !! b = Some (d, Free) ↔ live !! b = Some (d, Free);
  sp_room : room k s';
}.

(* --------------------------------------------------------------------- *)
(** ** Tilings with a block taken *)

Lemma coalesced_take (live : tiling) a c : coalesced live → coalesced (<[a := (c, Limbo)]> live).
Proof.
  intros Hco b d Hd [[??]|[Hne Hb]]%lookup_insert_Some; [congruence|].
  rewrite lookup_insert_Some. intros [[??]|[_ Hbb]]; [congruence|]. by apply (Hco b d).
Qed.

Lemma settled_take (live : tiling) a c st : settled live → settled_but a (<[a := (c, st)]> live).
Proof. intros Hs b d st' Hne. rewrite lookup_insert_ne by done. apply Hs. Qed.

Lemma free_take (live : tiling) a c b d :
  live !! a = Some (c, Free) → d < c →
  <[a := (c, Limbo)]> live !! b = Some (d, Free) ↔ live !! b = Some (d, Free).
Proof.
  intros Ha Hd. destruct (decide (a = b)) as [<-|Hne].
  - rewrite lookup_insert_eq, Ha. split; [congruence|]. intros [=]. lia.
  - by rewrite lookup_insert_ne.
Qed.

Lemma used_take (live : tiling) a c st d st' :
  live !! a = Some (c, st) → st ≠ Used → st' ≠ Used → used (<[a := (d, st')]> live) = used live.
Proof.
  intros Ha Hst Hst'. apply used_insert_other; [done|]. apply used_none. congruence.
Qed.

(** Taking one of two buddies that are the only free blocks of their class
    leaves a coalesced tiling. *)
Lemma coalesced_take_pair (live : tiling) c a1 a2 b :
  (∀ d, 0 <= d < 15 → d ≠ c → coalesced_at live d) →
  (∀ b, live !! b = Some (c, Free) ↔ b = a1 ∨ b = a2) → live !! b = Some (c, Free) → 0 <= c →
  coalesced (<[b := (c, Limbo)]> live).
Proof.
  intros Hco Hpair Hb Hc x d Hd [[??]|[Hne Hx]]%lookup_insert_Some; [congruence|].
  rewrite lookup_insert_Some. intros [[??]|[Hne' Hxx]]; [congruence|].
  destruct (decide (d = c)) as [->|Hdc]; [|by apply (Hco d ltac:(lia) Hdc x)].
  pose proof (buddy_ne c x Hc). apply Hpair in Hx, Hxx, Hb. naive_solver.
Qed.

Section obtaining.
Context {P : Type} `{PageSourceSpec P}.
Implicit Types (s : heap P) (live : tiling).

Lemma evolves_end hend live s live' s' :
  evolves hend live s live' s' → _heap_end s' = _heap_end s.
Proof. by intros [_ [] _]. Qed.

(** The list of the class had a block. *)
Lemma obtain_hit k live s c a s' :
  heap_inv (k + 1) live s → 0 <= k → live !! a = Some (c, Free) → a ≠ NULL →
  evolves (_heap_end s) live s (<[a := (c, Limbo)]> live) s' →
  obtained k live s c a (<[a := (c, Limbo)]> live) s'.
Proof.
  intros [Hr Hs Hco Hroom] Hk Ha Hn [Hr' Hp Hkeep]. split.
  - destruct Hp as [-> _]. done.
  - apply lookup_insert_eq.
  - done.
  - by eapply used_take.
  - done.
  - by apply settled_take.
  - by apply coalesced_take.
  - intros b d Hd. by apply free_take.
  - eapply room_pages; [done|]. eapply room_mono; [done|lia].
Qed.

(** After a split of the next class the list has exactly the two halves. *)
Lemma wp_obtain_after_split k live s c live' s' (Q : Z → heap P → Prop) :
  split_done k live s (c + 1) live' s' → 0 <= c < 15 →
  (∀ a live1 s1, obtained k live s c a live1 s1 → Q a s1) →
  wp (_free_list_dequeue c) Q s'.
Proof.
  intros [Hr Hu Hkeep Hs Hco [a Hpair] Hlow Hroom] Hc HQ.
  replace (c + 1 - 1) with c in * by lia.
  eapply wp_dequeue; [done|lia| |].
  - intros Hnf. exfalso. apply (Hnf a), Hpair. by left.
  - intros b s1 Hn Hb [Hr1 Hp1 Hk1]. eapply HQ. split.
    + destruct Hp1 as [-> _]. exact Hr1.
    + apply lookup_insert_eq.
    + done.
    + rewrite <-Hu. by eapply used_take.
    + eapply keeps_trans; [done|]. by rewrite <-Hu.
    + by apply settled_take.
    + eapply coalesced_take_pair; [done..|lia].
    + intros x d Hd. rewrite free_take by done. apply Hlow. lia.
    + by eapply room_pages.
Qed.

(** After the heap has grown the list of the largest class has the new block. *)
Lemma wp_obtain_after_expand k live s s' (Q : Z → heap P → Prop) :
  settled live → coalesced live → live !! _heap_end s = None →
  heap_rep (<[_heap_end s := (15, Free)]> live) (_heap_end s') s' → room k s' →
  keeps (used live) (h_mem s) (h_mem s') →
  (∀ a live1 s1, obtained k live s 15 a live1 s1 → Q a s1) →
  wp (_free_list_dequeue 15) Q s'.
Proof.
  intros Hs Hco Hnone Hr Hroom Hkeep HQ. set (live' := <[_heap_end s := (15, Free)]> live) in *.
  assert (used live' = used live) as Hu
    by (apply used_insert_other; [done|]; apply used_none; congruence).
  assert (∀ b d, d < 15 → live' !! b = Some (d, Free) ↔ live !! b = Some (d, Free)) as Hlow.
  { intros b d Hd. unfold live'. rewrite lookup_insert_Some. split; [|intros Hb; right]; [|split; congruence].
    intros [[_ [= ?]]|[_ Hb]]; [lia|done]. }
  eapply wp_dequeue; [done|lia| |].
  - intros Hnf. exfalso. apply (Hnf (_heap_end s)). apply lookup_insert_eq.
  - intros b s1 Hn Hb [Hr1 Hp1 Hk1]. eapply HQ. split.
    + destruct Hp1 as [-> _]. exact Hr1.
    + apply lookup_insert_eq.
    + done.
    + rewrite <-Hu. by eapply used_take.
    + eapply keeps_trans; [done|]. by rewrite <-Hu.
    + apply settled_take. intros x d st [[? [= <- <-]]|[_ Hx]]%lookup_insert_Some; [by right|].
      by eapply Hs.
    + apply coalesced_take. intros x d Hd. rewrite !Hlow by lia. by apply Hco.
    + intros x d Hd. rewrite free_take by done. by apply Hlow.
    + by eapply room_pages.
Qed.

(* --------------------------------------------------------------------- *)
(** ** Splitting *)

(** The tiling after the block at [a] was cut into two free halves. *)
Definition halves (a c : Z) (live : tiling) : tiling :=
  <[a + bsize c := (c, Free)]> (<[a := (c, Free)]> live).

Lemma halves_lookup a c live b d st :
  0 <= c → halves a c live !! b = Some (d, st) ↔
  ((b = a ∨ b = a + bsize c) ∧ d = c ∧ st = Free) ∨
  (b ≠ a ∧ b ≠ a + bsize c ∧ live !! b = Some (d, st)).
Proof.
  intros Hc. pose proof (bsize_pos c Hc). unfold halves.
  destruct (decide (b = a + bsize c)) as [->|Hb1]; [|destruct (decide (b = a)) as [->|Hb2]].
  - rewrite lookup_insert_eq. intuition congruence.
  - rewrite lookup_insert_ne, lookup_insert_eq by done. intuition congruence.
  - rewrite !lookup_insert_ne by done. intuition congruence.
Qed.

Lemma wp_list_empty live hend s c (Q : Z → heap P → Prop) :
  heap_rep live hend s → 0 <= c < 16 → no_free live c → Q NULL s → wp (get_list c) Q s.
Proof.
  intros Hr Hc Hnf HQ. eapply wp_get_list; [done..|].
  intros h [|a l] Hh (Hs & _ & Hin); simpl in Hs; [by subst|].
  exfalso. apply (Hnf a), Hin. by left.
Qed.

Lemma wp_split_block live hend s a c (Q : unit → heap P → Prop) :
  heap_rep live hend s → live !! a = Some (c + 1, Limbo) → 0 <= c → no_free live c →
  (∀ s', evolves hend live s (halves a c live) s' → Q () s') →
  wp (split_block (c + 1) a) Q s.
Proof.
  intros Hr Ha Hc Hnf HQ. pose proof (rep_tiled _ _ _ Hr) as Ht.
  pose proof (block_bounds _ _ Ht _ _ _ Ha) as Hb.
  pose proof (bsize_pos c Hc) as Hpos. pose proof (bsize_succ c Hc) as Hsucc.
  destruct (block_u64 _ _ _ _ _ _ Hr Ha) as [_ Hn].
  assert (live !! (a + bsize c) = None) as Hnone
    by (apply (inside_none _ _ Ht _ _ _ _ Ha); lia).
  assert (u8 (c + 1 - 1) = c) as Eu by (rewrite u8_small; lia).
  unfold split_block. rewrite Eu. replace (c + 1 - 1) with c by lia.
  wp_step. apply wp_size_of_class; [lia|].
  wp_step. wp_step; [apply negb_true_iff; by bsimp|].
  wp_step. eapply wp_get_class; [done..|]. wp_step. wp_step; [by bsimp|].
  wp_step. eapply wp_list_empty; [done|lia|done|]. wp_step. wp_step; [done|].
  assert (heap_rep (<[a := (c, Raw)]> (<[a + bsize c := (c, Raw)]> live)) hend s) as Hr1.
  { eapply rep_retile; [done|by apply (tiled_split _ _ _ _ Limbo)|..].
    - intros x d. rewrite !lookup_insert_Some. split; [intuition congruence|].
      intros Hx. right. split; [congruence|]. right. split; congruence.
    - intros x d st. rewrite !lookup_insert_Some. intuition congruence.
    - intros; lia. }
  wp_step. eapply wp_enqueue; [exact Hr1|by rewrite lookup_insert_eq|done|done|].
  intros s1 [Hr2 Hp2 Hk2 Hh2]. rewrite insert_insert_eq in Hr2.
  assert ((a + bsize c)%u64 = a + bsize c) as ->
    by (apply u64_small; rewrite VA_48_HEAP_val in *; lia).
  eapply (wp_enqueue _ _ _ _ _ Raw); [exact Hr2| |done|done|].
  { rewrite lookup_insert_ne by lia. apply lookup_insert_eq. }
  intros s2 [Hr3 Hp3 Hk3 Hh3]. apply HQ.
  assert (<[a + bsize c := (c, Free)]> (<[a := (c, Free)]> (<[a + bsize c := (c, Raw)]> live)) =
    halves a c live) as Eh.
  { unfold halves. rewrite (insert_insert_ne _ a) by lia. by rewrite insert_insert_eq. }
  rewrite insert_insert_eq in Hh2. rewrite Eh in Hr3, Hh3. split; [done|by etrans| |].
  2: { assert (∀ st b, is_Some (<[a := (c, st)]> (<[a + bsize c := (c, Raw)]> live) !! b) →
         is_Some (halves a c live !! b)) as Hdom.
       { intros st b. unfold halves. rewrite !lookup_insert_is_Some'. tauto. }
       eapply (headers_only_trans _ (<[a := (c, Raw)]> (<[a + bsize c := (c, Raw)]> live)) _ _ (h_mem s));
         [intros b Hb'; right; by apply (Hdom Raw)|by intros x _|].
       eapply headers_only_trans; [|exact Hh2|exact Hh3]. intros b Hb'. right. by apply (Hdom Free). }
  assert (∀ st, used (<[a := (c, st)]> (<[a + bsize c := (c, Raw)]> live)) =
    used (<[a := (c, st)]> live)) as Eu1.
  { intros st. rewrite insert_insert_ne by lia. apply used_insert_other; [done|].
    apply used_none. intros d. rewrite lookup_insert_ne by lia. congruence. }
  rewrite Eu1, (used_take live a (c + 1) Limbo) in Hk2, Hk3 by done.
  by eapply keeps_trans.
Qed.

Lemma halves_free live hend a c b d :
  tiled live hend → 0 <= c → live !! a = Some (c + 1, Limbo) → d ≠ c →
  halves a c live !! b = Some (d, Free) ↔ live !! b = Some (d, Free).
Proof.
  intros Ht Hc Ha Hd. rewrite halves_lookup by done.
  assert (live !! (a + bsize c) = None) as Hnone.
  { apply (inside_none _ _ Ht _ _ _ _ Ha). rewrite bsize_succ by done.
    pose proof (bsize_pos c Hc). lia. }
  split; [intuition congruence|]. intros Hb. right. split_and!; [congruence..|done].
Qed.

Lemma wp_split_obtained k live s c a live1 s1 (Q : unit → heap P → Prop) :
  obtained k live s (c + 1) a live1 s1 → 0 <= c → no_free live c →
  (∀ live' s', split_done k live s (c + 1) live' s' → Q () s') →
  wp (split_block (c + 1) a) Q s1.
Proof.
  intros [Hr Ha Hn Hu Hk Hs Hco Hlow Hroom] Hc Hnf HQ.
  pose proof (rep_tiled _ _ _ Hr) as Ht.
  pose proof (bsize_pos c Hc) as Hpos. pose proof (bsize_succ c Hc) as Hsucc.
  assert (no_free live1 c) as Hnf1 by (intros b; rewrite Hlow by lia; apply Hnf).
  assert (live1 !! (a + bsize c) = None) as Hnone
    by (apply (inside_none _ _ Ht _ _ _ _ Ha); lia).
  eapply wp_split_block; [done..|]. intros s' Hev. pose proof (evolves_end _ _ _ _ _ Hev) as He.
  destruct Hev as [Hr' Hp Hkeep]. eapply HQ. split.
  - by rewrite He.
  - rewrite <-Hu. unfold halves. rewrite used_insert_other; [by eapply used_take|done|].
    apply used_none. intros d. rewrite lookup_insert_ne by lia. congruence.
  - eapply keeps_trans; [done|]. by rewrite <-Hu.
  - intros b d st [(_ & _ & ->)|(Hb & _ & Hl)]%halves_lookup; [by right|by eapply Hs|done].
  - intros d Hd Hdc b. rewrite !(halves_free _ _ _ _ _ _ Ht) by (done || lia). by apply Hco.
  - exists a. intros b. replace (c + 1 - 1) with c by lia. rewrite halves_lookup by done.
    specialize (Hnf1 b). intuition congruence.
  - intros b d Hd. rewrite (halves_free _ _ _ _ _ _ Ht) by (done || lia). apply Hlow. lia.
  - by eapply room_pages.
Qed.

(** [_split_from] succeeds whenever the heap can still grow once, and leaves
    two free buddies of the class below. *)
Lemma wp_split_from fuel k live s c (Q : bool → heap P → Prop) :
  heap_inv (k + 1) live s → 0 <= k → 0 <= c < 15 → (15 - c <= Z.of_nat fuel) → no_free live c →
  (∀ live' s', split_done k live s (c + 1) live' s' → Q true s') →
  wp (split_from_fuel fuel (c + 1)) Q s.
Proof.
  intros Hinv Hk. pose proof Hinv as [Hr Hs Hco Hroom]. revert c Q.
  induction fuel as [|fuel IH]; intros c Q Hc Hfuel Hnf HQ; [lia|].
  cbn [split_from_fuel].
  wp_step. wp_step; [unfold _BLOCK_MAX_CLASS; bsimp; lia|]. wp_step. wp_step; [bsimp; lia|].
  assert (∀ a live1 s1, obtained k live s (c + 1) a live1 s1 →
    wp (split_block (c + 1) a ;; mret true) Q s1) as Htail.
  { intros a live1 s1 Hob. wp_step. eapply wp_split_obtained; [done|lia|done|].
    intros live' s' Hd. wp_step. by eapply HQ. }
  wp_step. eapply wp_dequeue; [done|lia| |].
  - intros Hnf1. change (NULL =? NULL) with true. wp_step.
    unfold _BLOCK_MAX_CLASS. destruct (c + 1 + 1 <? 16) eqn:Hlt; bsimp.
    + rewrite u8_small by lia. wp_step. apply IH; [lia..|done|].
      intros live' s' Hd. wp_step. eapply wp_obtain_after_split; [done|lia|].
      intros a live1 s1 Hob. wp_step. wp_step; [apply negb_true_iff; bsimp; by eapply ob_nonnull|].
      apply wp_ret. by eapply Htail.
    + assert (c = 14) as -> by lia. change (14 + 1) with 15 in *.
      wp_step. wp_step; [done|]. wp_step. eapply wp_expand; [done..|].
      intros s' Hr' He Hroom' Hkeep. wp_step. wp_step; [done|]. wp_step.
      eapply wp_obtain_after_expand; [done|done| |done|done|done|].
      { eapply beyond_none; [apply Hr|lia]. }
      intros a live1 s1 Hob. wp_step. wp_step; [apply negb_true_iff; bsimp; by eapply ob_nonnull|].
      apply wp_ret. by eapply Htail.
  - intros a s' Hn Ha Hev. destruct (a =? NULL) eqn:Hz; bsimp; [done|]. wp_step. apply wp_ret.
    eapply Htail. by eapply obtain_hit.
Qed.

(* --------------------------------------------------------------------- *)
(** ** Allocation *)

(** The class the allocator picks: the smallest whose blocks hold [len]. *)
Lemma wp_alloc_class len s (Q : Z → heap P → Prop) :
  0 < len <= bsize 15 - 24 →
  (∀ log, let c := if u8 log <=? PAGE_SIZE_VALUE_LOG_4K then 0
                   else u8 (u8 log - PAGE_SIZE_VALUE_LOG_4K) in
     0 <= c < 16 → len + 24 <= bsize c → (c = 0 ∨ bsize (c - 1) < len + 24) → Q log s) →
  wp (util_math_log_2_up (len + sizeof_block)%u64) Q s.
Proof.
  change (bsize 15) with (2 ^ 27). unfold sizeof_block. u64_unfold. intros Hlen HQ.
  rewrite u64_small by lia. apply log_2_up_wp; [lia|]. apply HQ; clear HQ.
  all: assert (4 < Z.log2_up (len + 24) <= 27) as Hlog
    by (split; [apply Z.log2_up_lt_pow2; lia|]; apply Z.log2_up_le_pow2; lia).
  all: destruct (Z.log2_up_spec (len + 24) ltac:(lia)) as [Hlo Hhi].
  all: set (l := Z.log2_up (len + 24)) in *; unfold PAGE_SIZE_VALUE_LOG_4K.
  all: rewrite !(u8_small l) by lia; destruct (l <=? 12) eqn:Hl; bsimp.
  all: rewrite ?(u8_small (l - 12)) by lia; try lia.
  - change (bsize 0) with (2 ^ 12). pose proof (Z.pow_le_mono_r 2 l 12 ltac:(lia) ltac:(lia)). lia.
  - unfold bsize. change 4096 with (2 ^ 12).
    rewrite <-Z.pow_add_r by lia. by replace (l - 12 + 12) with l by lia.
  - right. unfold bsize. change 4096 with (2 ^ 12).
    rewrite <-Z.pow_add_r by lia. by replace (l - 12 - 1 + 12) with (Z.pred l) by lia.
Qed.

(** What an allocation of [len] bytes yields: a block that was not in use,
    large enough, of the smallest class that fits; nothing else changed. *)
Record alloc_done (k : Z) (live : tiling) (s : heap P) (len a c : Z)
    (live' : tiling) (s' : heap P) : Prop := {
  al_inv : heap_inv k live' s';
  al_used : used live' = <[a := c]> (used live);
  al_fresh : used live !! a = None;
  al_fits : len <= bsize c - 24;
  al_smallest : c = 0 ∨ bsize (c - 1) < len + 24;
  al_keeps : keeps (used live) (h_mem s) (h_mem s');
}.

Lemma wp_alloc_finish k live s len c a live1 s1 (Q : Z * option Z → heap P → Prop) :
  obtained k live s c a live1 s1 → 0 <= c < 16 → 0 < len → len + 24 <= bsize c →
  (c = 0 ∨ bsize (c - 1) < len + 24) →
  (∀ live' s', alloc_done k live s len a c live' s' → Q (a + 24, Some (bsize c - 24)) s') →
  wp (c' ← get_class a;
      kernel_assert_d (c' =? c) ;;
      kernel_assert_d (negb (a =? NULL)) ;;
      '(payload, all_len) ← _block_check_out a;
      kernel_assert_d (len <=? all_len) ;;
      mret (payload, Some all_len)) Q s1.
Proof.
  intros [Hr Ha Hn Hu Hk Hs Hco Hlow Hroom] Hc Hlen Hfit Hmin HQ.
  wp_step. eapply wp_get_class; [done..|]. wp_step. wp_step; [by bsimp|].
  wp_step. wp_step; [apply negb_true_iff; by bsimp|].
  wp_step. eapply wp_check_out; [done..|]. intros s' Hev.
  pose proof (evolves_end _ _ _ _ _ Hev) as He. destruct Hev as [Hr' Hp Hkeep].
  wp_step. wp_step; [bsimp; lia|]. wp_step. eapply HQ. split.
  - split; [by rewrite He| | |by eapply room_pages].
    + intros b d st [[_ [= <- <-]]|[Hne Hb]]%lookup_insert_Some; [by left|]. by eapply Hs.
    + intros b d Hd [[??]|[Hne Hb]]%lookup_insert_Some; [congruence|].
      rewrite lookup_insert_Some. intros [[??]|[_ Hbb]]; [congruence|]. by apply (Hco b d).
  - by rewrite used_insert_used, Hu.
  - rewrite <-Hu. apply used_none. congruence.
  - lia.
  - done.
  - eapply keeps_trans; [done|]. by rewrite <-Hu.
Qed.

Lemma wp_heap_alloc k live s len (Q : Z * option Z → heap P → Prop) :
  heap_inv (k + 1) live s → 0 <= k → 0 < len <= bsize 15 - 24 →
  (∀ a c live' s', alloc_done k live s len a c live' s' → Q (a + 24, Some (bsize c - 24)) s') →
  wp (mm_heap_alloc len) Q s.
Proof.
  intros Hinv Hk Hlen HQ. pose proof Hinv as [Hr Hs Hco Hroom].
  unfold mm_heap_alloc. wp_step. wp_step; [bsimp; lia|].
  wp_step. apply wp_size_of_class; [unfold _BLOCK_MAX_CLASS; lia|].
  unfold _BLOCK_MAX_CLASS. change (16 - 1) with 15 in *.
  wp_step. wp_step.
  { unfold sizeof_block. u64_unfold. change (bsize 15) with 134217728 in *.
    rewrite u64_small by lia. bsimp. lia. }
  wp_step. apply wp_alloc_class; [done|]. intros log.
  set (c := if u8 log <=? PAGE_SIZE_VALUE_LOG_4K then 0
            else u8 (u8 log - PAGE_SIZE_VALUE_LOG_4K)).
  intros c' Hc Hfit Hmin. subst c'. fold c in Hc, Hfit, Hmin |- *.
  wp_step. wp_step; [bsimp; lia|].
  assert (∀ a live1 s1, obtained k live s c a live1 s1 →
    wp (c' ← get_class a;
        kernel_assert_d (c' =? c) ;;
        kernel_assert_d (negb (a =? NULL)) ;;
        '(payload, all_len) ← _block_check_out a;
        kernel_assert_d (len <=? all_len) ;;
        mret (payload, Some all_len)) Q s1) as Htail.
  { intros a live1 s1 Hob. eapply wp_alloc_finish; [done..|lia|done|done|]. by eauto. }
  wp_step. eapply wp_dequeue; [done|lia| |].
  - intros Hnf. change (NULL =? NULL) with true. wp_step.
    change (16 - 1) with 15. destruct (c <? 15) eqn:Hlt; bsimp.
    + unfold _split_from. rewrite u8_small by lia. wp_step.
      eapply wp_split_from; [done|done|lia|unfold _BLOCK_MAX_CLASS; lia|done|].
      intros live' s' Hd. wp_step. eapply wp_obtain_after_split; [done|lia|].
      intros a live1 s1 Hob. wp_step. wp_step; [apply negb_true_iff; bsimp; by eapply ob_nonnull|].
      apply wp_ret. by eapply Htail.
    + assert (c = 15) as E by lia. rewrite E in *.
      wp_step. eapply wp_expand; [done..|].
      intros s' Hr' He Hroom' Hkeep. wp_step. wp_step; [done|]. wp_step.
      eapply wp_obtain_after_expand; [done|done| |done|done|done|].
      { eapply beyond_none; [apply Hr|lia]. }
      intros a live1 s1 Hob. wp_step. wp_step; [apply negb_true_iff; bsimp; by eapply ob_nonnull|].
      apply wp_ret. by eapply Htail.
  - intros a s' Hn Ha Hev. destruct (a =? NULL) eqn:Hz; bsimp; [done|]. wp_step. apply wp_ret.
    eapply Htail. by eapply obtain_hit.
Qed.

End obtaining.
