(* ===== verification/MmHeapFree.v ===== *)
(** Freeing: checking a block in, merging it with its buddies for as long as
    they are free, and putting the result on its list (mm_heap.c:
    [_coalescing_block], [mm_heap_free]). *)
From S2P Require Import Prelude Memory Util MmCore MmHeap HeapTiling.
From S2P Require Import MmHeapRep MmHeapLists MmHeapOps MmHeapAlloc.

(** The tiling after the free block [b] and the block [a], both of class [c],
    became one block. *)
Definition merged (c a : Z) (live : tiling) : tiling :=
  <[pair_low c a := (c + 1, Limbo)]> (delete (pair_low c a + bsize c) live).

(** There is no block in use at [x] any more: the block is free, or it became
    part of a lower one and its header was wiped. *)
Definition retired (live : tiling) (hend : Z) (m : memory) (x : Z) : Prop :=
  (∃ d st, live !! x = Some (d, st) ∧ (st = Free ∨ st = Limbo)) ∨
  (live !! x = None ∧ VA_48_HEAP <= x ∧ x + 24 <= hend ∧ (4096 | x) ∧ load 4 m (x + 16) = 0).

(** What coalescing leaves: one block [b] off the lists, whose buddy is not a
    free block of its class. *)
Record coalesced_to {P} `{PageSource P} (live : tiling) (s : heap P) (b d : Z)
    (live' : tiling) (s' : heap P) : Prop := {
  co_ev : evolves (_heap_end s) live s live' s';
  co_block : live' !! b = Some (d, Limbo);
  co_used : used live' = used live;
  co_settled : settled_but b live';
  co_coalesced : coalesced live';
  co_buddy : d < 15 → live' !! buddy_of d b ≠ Some (d, Free);
  co_retired x : retired live (_heap_end s) (h_mem s) x → retired live' (_heap_end s) (h_mem s') x;
}.

Section merging.
Context (live : tiling) (hend a c : Z).
Context (Ht : tiled live hend) (Hc : 0 <= c < 15).
Context (Ha : live !! a = Some (c, Limbo)) (Hb : live !! buddy_of c a = Some (c, Limbo)).

Lemma merged_cases :
  (bsize (c + 1) | pair_low c a - VA_48_HEAP) ∧ 0 < bsize c ∧
  ((a = pair_low c a ∧ buddy_of c a = pair_low c a + bsize c) ∨
   (buddy_of c a = pair_low c a ∧ a = pair_low c a + bsize c)).
Proof.
  pose proof Ha as (_ & _ & _ & Hd)%(tiled_block _ _ Ht).
  destruct (pair_low_spec c a ltac:(lia) Hd). split_and!; [done|apply bsize_pos; lia|done].
Qed.

Lemma merged_lookup x :
  merged c a live !! x =
    if decide (x = pair_low c a) then Some (c + 1, Limbo)
    else if decide (x = pair_low c a + bsize c) then None
    else live !! x.
Proof.
  unfold merged. destruct merged_cases as (_ & Hp & _).
  destruct (decide (x = pair_low c a)) as [->|Hne]; [apply lookup_insert_eq|].
  rewrite lookup_insert_ne by done.
  destruct (decide (x = pair_low c a + bsize c)) as [->|Hne']; [apply lookup_delete_eq|].
  by rewrite lookup_delete_ne.
Qed.

(** Blocks in use and free blocks are the same before and after. *)
Lemma merged_other x d st :
  st ≠ Limbo → merged c a live !! x = Some (d, st) ↔ live !! x = Some (d, st).
Proof.
  intros Hst. rewrite merged_lookup. destruct merged_cases as (_ & _ & Hcase).
  repeat case_decide; subst; [| |done]; split; try congruence;
    destruct Hcase as [[? ?]|[? ?]]; congruence.
Qed.

Lemma merged_used : used (merged c a live) = used live.
Proof.
  apply map_eq. intros x. apply option_eq. intros d. by rewrite !used_lookup, merged_other.
Qed.

Lemma merged_settled :
  (∀ x d st, x ≠ a → x ≠ buddy_of c a → live !! x = Some (d, st) → st = Used ∨ st = Free) →
  settled_but (pair_low c a) (merged c a live).
Proof.
  intros Hs x d st Hx. rewrite merged_lookup, decide_False by done.
  case_decide; [done|]. intros Hl. apply (Hs x d); [..|done];
    destruct merged_cases as (_ & _ & [[? ?]|[? ?]]); congruence.
Qed.

Lemma merged_coalesced : coalesced live → coalesced (merged c a live).
Proof. intros Hco x d Hd. rewrite !merged_other by done. by apply Hco. Qed.

End merging.

Section freeing.
Context {P : Type} `{PageSource P}.
Implicit Types (s : heap P) (live : tiling).

(** Bytes of a page that begins no block are not written. *)
Lemma wiped_stays hend live s live' s' x : heap_rep live hend s → heap_rep live' hend s' →
  headers_only live live' (h_mem s) (h_mem s') → live !! x = None → live' !! x = None → (4096 | x) →
  load 4 (h_mem s') (x + 16) = load 4 (h_mem s) (x + 16).
Proof.
  intros Hr Hr' Hh Hx Hx' [q Hq]. apply load_agree. intros y Hy. apply Hh. intros b d st Hb.
  assert (b ≠ x ∧ (4096 | b)) as [Hne [r Hr4]]; [|lia].
  destruct Hb as [Hb|Hb]; (split; [congruence|]); [apply (block_divide _ _ _ _ _ _ Hr Hb)|apply (block_divide _ _ _ _ _ _ Hr' Hb)].
Qed.

(** A retired block stays retired when no block is put to use and the headers
    of the blocks that disappear are wiped. *)
Lemma retired_step hend live s live' s' x : heap_rep live hend s → heap_rep live' hend s' →
  headers_only live live' (h_mem s) (h_mem s') →
  (is_Some (live' !! x) → is_Some (live !! x)) →
  (∀ d st, live' !! x = Some (d, st) → st = Used ∨ st = Raw → live !! x = Some (d, st)) →
  (is_Some (live !! x) → live' !! x = None → load 4 (h_mem s') (x + 16) = 0) →
  retired live hend (h_mem s) x → retired live' hend (h_mem s') x.
Proof.
  intros Hr Hr' Hh Hdom Huse Hwipe Hret. destruct (live' !! x) as [[d st]|] eqn:Hx'.
  - left. exists d, st. split; [done|]. destruct Hret as [(e&u&He&Hu)|[Hno _]].
    + destruct st; [|by left|by right|]; (rewrite (Huse _ _ eq_refl) in He; [|tauto]);
        injection He as <- <-; by destruct Hu.
    + rewrite Hno in Hdom. by destruct (Hdom ltac:(eauto)).
  - right. split; [done|]. destruct Hret as [(e&u&He&_)|(Hno&H1&H2&H3&H4)].
    + pose proof (block_bounds _ _ (rep_tiled _ _ _ Hr) _ _ _ He) as Hb.
      destruct (block_divide _ _ _ _ _ _ Hr He) as [Hd _]. split; [lia|]. split; [lia|]. split; [done|].
      apply Hwipe; [by eauto|done].
    + split; [done|]. split; [done|]. split; [done|]. rewrite <-H4. by eapply wiped_stays.
Qed.

(** Wiping the upper header and writing the lower one joins two blocks that
    are off the lists. *)
Lemma wp_join live hend s lo c (Q : Z → heap P → Prop) (m : M (heap P) Z) :
  heap_rep live hend s → 0 <= c < 15 → (bsize (c + 1) | lo - VA_48_HEAP) →
  live !! lo = Some (c, Limbo) → live !! (lo + bsize c) = Some (c, Limbo) →
  (∀ s', evolves hend live s (<[lo := (c + 1, Limbo)]> (delete (lo + bsize c) live)) s' →
     load 4 (h_mem s') (lo + bsize c + 16) = 0 → wp m Q s') →
  wp (mm_clean (lo + bsize c) sizeof_block)
    (λ _ s1, wp (class ← get_class lo;
                 _block_init lo (u8 (class + 1)) true NULL ;; m) Q s1) s.
Proof.
  intros Hr Hc Hd Hlo Hhi HQ. set (hi := lo + bsize c) in *.
  pose proof (rep_tiled _ _ _ Hr) as Ht. pose proof (bsize_pos c ltac:(lia)) as Hpos.
  pose proof (block_bounds _ _ Ht _ _ _ Hlo). pose proof (block_bounds _ _ Ht _ _ _ Hhi).
  assert (lo ≠ hi) as Hne by (unfold hi; lia).
  rewrite VA_48_HEAP_val in *.
  apply wp_mm_clean; [lia|done|unfold sizeof_block; lia|].
  set (m1 := fill _ _ _ _).
  assert (hdr_agree hi (h_mem s) m1) as Hag1 by by apply hdr_agree_fill.
  assert (heap_rep (<[hi := (c, Raw)]> live) hend (set_mem m1 s)) as Hr1
    by (by eapply rep_change_header).
  wp_step. eapply wp_get_class; [exact Hr1|by rewrite lookup_insert_ne|done|].
  rewrite u8_small by lia. wp_step.
  destruct (block_divide _ _ _ _ _ _ Hr Hlo) as [Hd4 Hrange].
  apply wp_block_init; [|done..|].
  { intros x Hx. exact (rep_block_mapped _ _ _ _ _ _ _ Hr Hlo Hx). }
  set (m2 := init_mem _ _ _ _ _).
  set (live2 := <[lo := (c + 1, Raw)]> (delete hi live)).
  assert (heap_rep live2 hend (set_mem m1 s)) as Hr2.
  { eapply rep_retile; [exact Hr1| | | |intros; lia].
    - unfold live2, hi. eapply tiled_merge; [done..|]. done.
    - intros x d. unfold live2. rewrite !lookup_insert_Some, lookup_delete_Some.
      destruct (decide (x = lo)) as [->|]; intuition congruence.
    - intros x d st. unfold live2. rewrite !lookup_insert_Some, lookup_delete_Some.
      intuition congruence. }
  assert (hdr_agree lo m1 m2) as Hag2 by apply init_mem_agree.
  apply HQ; [split; [|done| |]|].
  - eapply (rep_change_header _ _ _ m2 lo (c + 1) Raw Limbo) in Hr2;
      [|apply lookup_insert_eq|done|done|done|apply init_mem_hdr; [lia|done]].
    unfold live2 in Hr2. rewrite insert_insert_eq in Hr2. done.
  - simpl. eapply keeps_trans; eapply (keeps_hdr live hend); [done|exact Hhi|done|done|done|exact Hlo|done|done].
  - simpl. intros x Hx. rewrite Hag2, Hag1; [done|by apply (Hx hi c Limbo); left|by apply (Hx lo c Limbo); left].
  - cbn [h_mem set_mem heap_has_memory]. rewrite (hdr_agree_load 4 lo hi 16 m1 m2 Hag2) by (lia || (right; unfold hi; lia)).
    apply load_zero. intros x Hx. unfold m1. rewrite load8_fill, decide_True by (unfold sizeof_block in *; lia). done.
Qed.

(** The pair is joined whichever of the two blocks is the lower one. *)
Lemma wp_absorb live hend s a c (Q : Z → heap P → Prop) (m : Z → M (heap P) Z) :
  heap_rep live hend s → 0 <= c < 15 →
  live !! a = Some (c, Limbo) → live !! buddy_of c a = Some (c, Limbo) →
  (∀ s', evolves hend live s (merged c a live) s' → load 4 (h_mem s') (pair_low c a + bsize c + 16) = 0 →
     wp (m (pair_low c a)) Q s') →
  wp (block ← (if buddy_of c a <? a
               then mm_clean a sizeof_block ;; mret (buddy_of c a)
               else mm_clean (buddy_of c a) sizeof_block ;; mret a);
      class ← get_class block;
      _block_init block (u8 (class + 1)) true NULL ;; m block) Q s.
Proof.
  intros Hr Hc Ha Hb HQ. pose proof (bsize_pos c ltac:(lia)) as Hpos.
  pose proof Ha as (_ & _ & _ & Hd)%(tiled_block _ _ (rep_tiled _ _ _ Hr)).
  destruct (pair_low_spec c a ltac:(lia) Hd) as [Hdl Hcase].
  assert (∃ hi, hi = pair_low c a + bsize c ∧
    (if buddy_of c a <? a
     then mm_clean a sizeof_block ;; mret (buddy_of c a)
     else mm_clean (buddy_of c a) sizeof_block ;; mret a) =
    (mm_clean hi sizeof_block ;; mret (pair_low c a) : M (heap P) Z) ∧
    live !! pair_low c a = Some (c, Limbo) ∧ live !! hi = Some (c, Limbo)) as (hi & Ehi & -> & Hlo & Hhi).
  { destruct (buddy_of c a <? a) eqn:Hlt; bsimp.
    - destruct Hcase as [[E1 E2]|[E1 E2]]; [lia|]. exists a.
      split_and!; [done|by rewrite E1|by rewrite <-E1|done].
    - destruct Hcase as [[E1 E2]|[E1 E2]]; [|lia]. exists (buddy_of c a).
      split_and!; [done|by rewrite <-E1|by rewrite <-E1|done]. }
  subst hi. wp_step. wp_step. eapply wp_mono; [by apply (wp_join live hend s (pair_low c a) c Q (m (pair_low c a)))|].
  intros [] s1 Hw. apply wp_ret. exact Hw.
Qed.

(** Coalescing ends: every round raises the class. *)
Lemma wp_coalescing fuel live s a c (Q : Z → heap P → Prop) :
  heap_rep live (_heap_end s) s → live !! a = Some (c, Limbo) → settled_but a live → coalesced live →
  15 - c < Z.of_nat fuel →
  (∀ b d live' s', coalesced_to live s b d live' s' → Q b s') →
  wp (coalescing_fuel fuel a) Q s.
Proof.
  revert live s a c. induction fuel as [|fuel IH]; intros live s a c Hr Ha Hs Hco Hfuel HQ.
  { pose proof (block_bounds _ _ (rep_tiled _ _ _ Hr) _ _ _ Ha). lia. }
  pose proof (rep_tiled _ _ _ Hr) as Ht. pose proof (block_bounds _ _ Ht _ _ _ Ha) as Hb.
  assert ((c < 15 → live !! buddy_of c a ≠ Some (c, Free)) → Q a s) as Hstop.
  { intros Hbd. eapply HQ. split; [by split|done..]. }
  cbn [coalescing_fuel]. wp_step. eapply wp_block_validate; [done..|].
  wp_step. eapply wp_get_class; [done..|]. unfold _BLOCK_MAX_CLASS. change (16 - 1) with 15.
  destruct (c <? 15) eqn:Hc15; bsimp; [|wp_step; apply Hstop; lia].
  destruct (buddy_live _ _ Ht _ _ _ Ha Hc15) as (d & st & Hbl & Hdc).
  assert (buddy_of c a ≠ a) as Hba by (apply buddy_ne; lia).
  assert (st = Used ∨ st = Free) as Hst by by eapply Hs.
  wp_step. eapply wp_find_buddy; [done..| |].
  { intros d' Hd'. rewrite Hbl in Hd'. simplify_eq. by destruct Hst. }
  wp_step. eapply wp_get_class; [done|exact Hbl|by destruct Hst as [->| ->]|].
  wp_step. eapply wp_get_class; [done..|].
  wp_step. eapply (wp_mono _ (λ r s', s' = s ∧ r = bool_decide (d = c ∧ st = Free))).
  { destruct (d =? c) eqn:Hdc'; bsimp.
    - eapply wp_get_is_free; [done|exact Hbl|by destruct Hst as [->| ->]|]. split; [done|].
      destruct Hst as [->| ->]; symmetry; [apply bool_decide_false|apply bool_decide_true]; naive_solver.
    - apply wp_ret. split; [done|]. symmetry. apply bool_decide_false. tauto. }
  intros r s' [-> ->]. case_bool_decide as Hcond; [|wp_step; apply Hstop; naive_solver].
  destruct Hcond as [-> ->].
  wp_step. eapply wp_dequeue_block; [done|done|exact Hbl|]. intros s1 [Hr1 Hp1 Hk1 Hh1].
  set (live1 := <[buddy_of c a := (c, Limbo)]> live) in *.
  assert (live1 !! a = Some (c, Limbo)) as Ha1 by (unfold live1; by rewrite lookup_insert_ne).
  assert (live1 !! buddy_of c a = Some (c, Limbo)) as Hb1 by apply lookup_insert_eq.
  pose proof (rep_tiled _ _ _ Hr1) as Ht1.
  eapply wp_absorb; [done|lia|done|done|]. intros s2 Hev2 Hwiped.
  pose proof Hev2 as [Hr2 Hp2 Hk2 Hh2].
  assert (used live1 = used live) as Hu1 by (by eapply used_take).
  pose proof (merged_used live1 _ a c Ht1 ltac:(lia) Ha1 Hb1) as Hu2.
  assert (_heap_end s2 = _heap_end s) as He by (destruct Hp1, Hp2; congruence).
  eapply (IH (merged c a live1) s2 (pair_low c a) (c + 1)); [by rewrite He| | | |lia|].
  - rewrite (merged_lookup live1 _ a c Ht1) by (done || lia). by rewrite decide_True.
  - eapply merged_settled; [done|lia|done|]. intros x e u Hxa Hxb Hl. apply (Hs x e); [done|].
    unfold live1 in Hl. by rewrite lookup_insert_ne in Hl.
  - eapply merged_coalesced; [done|lia|done|done|]. by apply coalesced_take.
  - assert (∀ x, is_Some (merged c a live1 !! x) → is_Some (live1 !! x)) as Hdom2.
    { intros x. rewrite (merged_lookup live1 _ a c Ht1) by (done || lia). repeat case_decide; [|by intros []|done].
      subst x. intros _. destruct (merged_cases live1 _ a c Ht1 ltac:(lia) Ha1) as (_&_&[[E _]|[E _]]);
        rewrite <-E; eauto. }
    assert (∀ x, is_Some (live1 !! x) → is_Some (live !! x)) as Hdom1.
    { intros x. unfold live1. rewrite lookup_insert_is_Some'. intros [<-|?]; [by eauto|done]. }
    assert (headers_only live (merged c a live1) (h_mem s) (h_mem s2)) as Hh12.
    { eapply headers_only_trans; [|exact Hh1|exact Hh2]. intros x Hx. left. by apply Hdom1. }
    intros b e live' s' [[Hr' Hp' Hk' Hh'] Hbb Hu Hs' Hco' Hbd Hret]. eapply HQ. split; [|done| |done..|].
    + split; [by rewrite <-He|by do 2 (etrans; [done|])| |].
      * rewrite Hu2, Hu1 in Hk'. rewrite Hu1 in Hk2. by do 2 (eapply keeps_trans; [done|]).
      * eapply headers_only_trans; [|exact Hh12|exact Hh']. intros x Hx. left. by apply Hdom1, Hdom2.
    + by rewrite Hu, Hu2, Hu1.
    + intros x Hx. rewrite <-He. apply Hret. rewrite He. eapply (retired_step _ live s); [done|done|done| | | |exact Hx].
      * intros Hxs. by apply Hdom1, Hdom2.
      * intros e' u Hd Hu'. apply (merged_other live1 _ a c Ht1) in Hd; [|lia|done|done|by destruct Hu' as [->| ->]].
        unfold live1 in Hd. apply lookup_insert_Some in Hd as [[_ [= _ <-]]|[_ Hd]]; [by destruct Hu'|done].
      * intros [[e' u] Hxl] Hnone. rewrite (merged_lookup live1 _ a c Ht1) in Hnone by (done || lia).
        repeat case_decide; [done|by subst x|]. exfalso. unfold live1 in Hnone.
        apply lookup_insert_None in Hnone as [Hnone _]. congruence.
Qed.

End freeing.
