(* ===== verification/MmHeapTop.v ===== *)
(** What the kernel heap promises: the contract of [mm_heap_bootstrap],
    [mm_heap_alloc] and [mm_heap_free], what they do on bad arguments, and
    the checks that the built-in test of mm_heap.c performs.

    The client's view of the heap is [used live]: the blocks in use with
    their classes.  The payload of a block at [a] is what follows its header,
    from [a + 24] to [a + bsize c]. *)
From S2P Require Import Prelude Memory Util MmCore MmHeap HeapTiling.
From S2P Require Import MmHeapRep MmHeapLists MmHeapOps MmHeapAlloc MmHeapFree.

(** A page source whose pages are mapped one after the other, for the
    concrete instances of the theorems: the state is the first unmapped
    address. *)
Definition flat : Type := Z.

#[export] Instance flat_pages : PageSource flat := {
  mm_frame_alloc := mret (Some 4096);
  mm_page_map va _ := next ← gets (λ p : flat, p);
    if va =? next then modify (λ p : flat, p + 4096) ;; mret true else mret false;
  va_mapped p x := x <? p;
}.

#[export] Instance flat_pages_spec : PageSourceSpec flat.
Proof.
  refine {| can_map p va n := p = va |}.
  - done.
  - intros p va n Hn ->. apply wp_ret. exists 4096. split_and!; [done..|].
    simpl. wp_step. wp_step. rewrite Z.eqb_refl. wp_steps. split_and!; [done| | |done].
    + intros x Hx. bsimp. lia.
    + intros x Hx. bsimp. lia.
Defined.

Definition flat_heap : heap flat := Heap ∅ (replicate 16 NULL) VA_48_HEAP VA_48_HEAP.

Section top.
Context {P : Type} `{PageSourceSpec P}.
Implicit Types (s : heap P) (live : tiling).

(* --------------------------------------------------------------------- *)
(** ** Free *)

(** What freeing the block at [a] yields. *)
Record free_done (k : Z) (live : tiling) (s : heap P) (a : Z) (live' : tiling) (s' : heap P) : Prop := {
  fr_inv : heap_inv k live' s';
  fr_used : used live' = delete a (used live);
  fr_keeps : keeps (delete a (used live)) (h_mem s) (h_mem s');
  fr_pages : same_pages s s';
  fr_retired x : x = a ∨ retired live (_heap_end s) (h_mem s) x → retired live' (_heap_end s) (h_mem s') x;
}.

Lemma coalesced_put live hend b d :
  tiled live hend → live !! b = Some (d, Limbo) → coalesced live →
  (d < 15 → live !! buddy_of d b ≠ Some (d, Free)) → coalesced (<[b := (d, Free)]> live).
Proof.
  intros Ht Hb Hco Hbd x e He.
  rewrite !lookup_insert_Some. intros [[<- [= <-]]|[Hne Hx]] [[Heq Hd]|[Hne' Hxx]].
  - by apply (buddy_ne d b ltac:(lia)).
  - by apply Hbd; [lia|].
  - injection Hd as <-. apply Hbd; [lia|].
    pose proof Hx as (_ & _ & _ & Hdx)%(tiled_block _ _ Ht).
    rewrite Heq, buddy_involutive by (done || lia). done.
  - by apply (Hco x e).
Qed.

Lemma wp_heap_free k live s a c (Q : unit → heap P → Prop) :
  heap_inv k live s → used live !! a = Some c →
  (∀ live' s', free_done k live s a live' s' → Q () s') →
  wp (mm_heap_free (a + 24)) Q s.
Proof.
  intros [Hr Hs Hco Hroom] Hu HQ. apply used_lookup in Hu as Ha.
  pose proof (block_bounds _ _ (rep_tiled _ _ _ Hr) _ _ _ Ha) as Hb.
  unfold mm_heap_free. wp_step. eapply wp_check_in; [done..|]. intros s1 Hr1 Hp1 Hk1 Hag1.
  set (live1 := <[a := (c, Limbo)]> live) in *.
  assert (used live1 = delete a (used live)) as Hu1 by by apply used_remove.
  assert (_heap_end s1 = _heap_end s) as He1 by apply Hp1.
  wp_step. unfold _coalescing_block.
  eapply (wp_coalescing _ live1 s1 a c); [by rewrite He1|apply lookup_insert_eq|
    by apply settled_take|by apply coalesced_take|unfold _BLOCK_MAX_CLASS; lia|].
  intros b d live2 s2 [[Hr2 Hp2 Hk2 Hh2] Hb2 Hu2 Hs2 Hco2 Hbd2 Hret2].
  assert (_heap_end s2 = _heap_end s1) as He2 by apply Hp2.
  wp_step. eapply wp_get_class; [done..|].
  eapply wp_enqueue; [done..|]. intros s3 [Hr3 Hp3 Hk3 Hh3]. eapply HQ.
  assert (_heap_end s3 = _heap_end s2) as He3 by apply Hp3.
  assert (used (<[b := (d, Free)]> live2) = used live2) as Hu3 by by eapply used_take.
  assert (same_pages s s3) as Hp by (etrans; [exact Hp1|]; by etrans).
  split; [split| | |done|].
  - by rewrite He3, He2.
  - intros x e st [[_ [= <- <-]]|[Hne Hx]]%lookup_insert_Some; [by right|]. by eapply Hs2.
  - eapply coalesced_put; [apply Hr2|done..].
  - by eapply room_pages.
  - by rewrite Hu3, Hu2, Hu1.
  - rewrite Hu2, Hu1 in Hk3. rewrite Hu1 in Hk2. by do 2 (eapply keeps_trans; [done|]).
  - rewrite He1 in *. intros x Hx. eapply (retired_step _ live2 s2); [exact Hr2|exact Hr3|exact Hh3| | | |apply Hret2].
    + rewrite lookup_insert_is_Some'. intros [<-|?]; [by eauto|done].
    + intros e st [[_ [= _ <-]]|[_ He]]%lookup_insert_Some; [by intros []|done].
    + intros [? E] Hnone. apply lookup_insert_None in Hnone as [Hnone _]. congruence.
    + destruct (decide (x = a)) as [->|Hne]; [left; exists c, Limbo; split; [apply lookup_insert_eq|by right]|].
      destruct Hx as [?|Hx]; [done|].
      eapply (retired_step _ live s); [exact Hr|exact Hr1|by eapply headers_only_hdr| | | |exact Hx].
      * unfold live1. by rewrite lookup_insert_ne.
      * intros e st. unfold live1. by rewrite lookup_insert_ne.
      * unfold live1. rewrite lookup_insert_ne by done. intros [? E] E'. congruence.
Qed.

(** Freeing one payload after another. *)
Fixpoint free_all (bs : list Z) : M (heap P) unit :=
  match bs with
  | [] => mret ()
  | b :: bs => mm_heap_free (b + 24) ;; free_all bs
  end.

Lemma wp_free_all bs k live s (Q : unit → heap P → Prop) :
  heap_inv k live s → NoDup bs → (∀ b, b ∈ bs → is_Some (used live !! b)) →
  (∀ live' s', heap_inv k live' s' →
    (∀ x, x ∈ bs ∨ retired live (_heap_end s) (h_mem s) x → retired live' (_heap_end s') (h_mem s') x) → Q () s') →
  wp (free_all bs) Q s.
Proof.
  revert live s. induction bs as [|b bs IH]; intros live s Hinv Hnd Hin HQ; cbn [free_all].
  - apply wp_ret. eapply HQ; [exact Hinv|]. intros x [?%elem_of_nil|?]; done.
  - apply list.NoDup_cons in Hnd as [Hb Hnd]. destruct (Hin b ltac:(by left)) as [c Hc].
    apply wp_bind. eapply wp_heap_free; [exact Hinv|exact Hc|]. intros live1 s1 [Hinv1 Hu1 _ [He1 _] Hret1].
    eapply IH; [exact Hinv1|exact Hnd| |].
    + intros b' Hb'. rewrite Hu1, lookup_delete_ne by congruence. apply Hin. by right.
    + intros live' s' Hinv' Hret'. eapply HQ; [exact Hinv'|]. intros x Hx. apply Hret'.
      destruct (decide (x ∈ bs)) as [?|Hno]; [by left|]. right. rewrite He1. apply Hret1.
      destruct Hx as [[->|?]%elem_of_cons|?]; [by left|done|by right].
Qed.

(** A free that fails the checks of [_block_check_in]. *)
Lemma free_listed live hend s a c : heap_rep live hend s → live !! a = Some (c, Free) → mm_heap_free (a + 24) s = Assert.
Proof.
  intros Hr Ha. destruct (block_divide _ _ _ _ _ _ Hr Ha) as [_ Hrange].
  unfold mm_heap_free. apply bind_assert. unfold _block_check_in.
  unfold sizeof_block. u64_unfold. replace (a + 24 - 24) with a by lia. rewrite u64_small by lia.
  assert (wp (_block_validate a) (λ _ s', s' = s) s) as ([] & s' & Hv & ->)%wp_done
    by (by eapply wp_block_validate).
  assert (wp (get_is_free a) (λ b s', b = true ∧ s' = s) s) as (b & s' & Hf & -> & ->)%wp_done
    by (by eapply wp_get_is_free).
  rewrite (bind_done _ _ _ _ _ Hv), (bind_done _ _ _ _ _ Hf). done.
Qed.

Lemma free_wiped live hend s a : heap_rep live hend s → VA_48_HEAP <= a → a + 24 <= hend → (4096 | a) →
  load 4 (h_mem s) (a + 16) = 0 → mm_heap_free (a + 24) s = Assert.
Proof.
  intros Hr Hlo Hhi Hd Hm. destruct (tiled_end _ _ (rep_tiled _ _ _ Hr)) as [_ Hend]. rewrite VA_48_HEAP_val in *.
  unfold mm_heap_free. apply bind_assert. unfold _block_check_in. apply bind_assert.
  unfold sizeof_block. u64_unfold. replace (a + 24 - 24) with a by lia. rewrite u64_small by lia.
  unfold _block_validate. rewrite assert_then, align_check_true by done.
  assert (wp (get_magic a) (λ r s', r = 0 ∧ s' = s) s) as (r & s' & Hg & -> & ->)%wp_done.
  { unfold get_magic, hread, access. u64_unfold. rewrite u64_small by lia. wp_step. wp_step. wp_step.
    assert (∀ x, a <= x < a + 24 → va_mapped (h_pages s) x = true) as Hmap
      by (intros x Hx; apply (rep_mapped _ _ _ Hr); rewrite VA_48_HEAP_val; lia).
    rewrite !Hmap by lia. apply wp_ret. by apply wp_read. }
  rewrite (bind_done _ _ _ _ _ Hg). done.
Qed.

Lemma free_retired k live s a : heap_inv k live s → retired live (_heap_end s) (h_mem s) a → mm_heap_free (a + 24) s = Assert.
Proof.
  intros [Hr Hs _ _] [(d & st & Ha & Hst)|(_ & ? & ? & ? & ?)]; [|by eapply free_wiped].
  destruct Hst as [->| ->]; [by eapply free_listed|]. by destruct (Hs _ _ _ Ha).
Qed.

Lemma free_misaligned s p : is_u64 p → (p - 24) `mod` 4096 ≠ 0 → mm_heap_free p s = Assert.
Proof.
  intros Hp Hal. unfold mm_heap_free. apply bind_assert. unfold _block_check_in. apply bind_assert.
  unfold _block_validate. apply bind_assert.
  assert (mm_align_check (p - sizeof_block)%u64 PAGE_SIZE_VALUE_4K = false) as ->; [|done].
  apply not_true_iff_false. rewrite align_check_iff by done. unfold sizeof_block. u64_unfold.
  intros Hd%Z.mod_divide; [|done]. unfold u64, PAGE_SIZE_VALUE_4K in Hd.
  rewrite Z.mod_mod_divide in Hd; [done|]. by exists 4503599627370496.
Qed.

(* --------------------------------------------------------------------- *)
(** ** Start *)

Lemma wp_heap_bootstrap k s (Q : unit → heap P → Prop) :
  length (_free_list s) = 16%nat →
  can_map (h_pages s) VA_48_HEAP (32768 * k) → VA_48_HEAP + k * bsize 15 < 18446744073709551616 →
  (∀ s', heap_inv k ∅ s' → h_mem s' = h_mem s → h_pages s' = h_pages s → Q () s') →
  wp mm_heap_bootstrap Q s.
Proof.
  intros Hlen Hcan Hroom HQ. unfold mm_heap_bootstrap. wp_step.
  apply (wp_for_n (λ i s1, h_mem s1 = h_mem s ∧ h_pages s1 = h_pages s ∧
    length (_free_list s1) = 16%nat ∧ ∀ j, 0 <= j < i → _free_list s1 !! Z.to_nat j = Some NULL)).
  - split_and!; [done..|]. intros; lia.
  - intros i s1 Hi (Hm & Hp & Hl & Hj). change (Z.of_nat (Z.to_nat _BLOCK_MAX_CLASS)) with 16 in Hi.
    apply wp_set_list; [lia|done|]. simpl. split_and!; [done|done|by rewrite length_insert|].
    intros j Hlt. destruct (decide (j = i)) as [->|Hne].
    + apply list_lookup_insert_eq. lia.
    + rewrite list_lookup_insert_ne by lia. apply Hj. lia.
  - change (0 + Z.of_nat (Z.to_nat _BLOCK_MAX_CLASS)) with 16.
    intros s1 (Hm & Hp & Hl & Hj). apply wp_modify. apply HQ; [|done|done].
    split; [|by intros ? ? ? ?%lookup_empty_Some|by intros ? ? ? ?%lookup_empty_Some|].
    + split; simpl.
      * apply tiled_empty.
      * by intros ? ? ? ?%lookup_empty_Some.
      * done.
      * intros c Hc. exists NULL, []. split; [by apply Hj|].
        split_and!; [done|constructor|]. intros a. rewrite lookup_empty. set_solver.
      * intros; lia.
    + split; simpl; [by rewrite Hp|done].
Qed.

(* --------------------------------------------------------------------- *)
(** ** The theorems *)

(** C3: on a heap that satisfies the invariant and can grow, [mm_heap_alloc]
    returns for every length from 1 to the largest payload: the payload of a
    block that was not in use, disjoint from every block in use, long enough
    and of the smallest class that is; the blocks in use keep their bytes and
    the invariant holds again. *)
Theorem heap_alloc_ok (k : Z) (live : tiling) (s : heap P) (len : Z)
    (Hinv : heap_inv (k + 1) live s) (Hk : 0 <= k) (Hlen : 0 < len <= bsize 15 - 24) :
  ∃ a c live' s',
    mm_heap_alloc len s = Done ((a + 24, Some (bsize c - 24)), s') ∧
    heap_inv k live' s' ∧
    used live' = <[a := c]> (used live) ∧ used live !! a = None ∧
    len <= bsize c - 24 ∧ (c = 0 ∨ bsize (c - 1) - 24 < len) ∧
    (∀ b d, used live !! b = Some d → a + bsize c <= b ∨ b + bsize d <= a) ∧
    keeps (used live) (h_mem s) (h_mem s').
Proof.
  assert (wp (mm_heap_alloc len) (λ r s', ∃ a c live', r = (a + 24, Some (bsize c - 24)) ∧
    alloc_done k live s len a c live' s') s) as (r & s' & Hrun & a & c & live' & -> & Hd)%wp_done.
  { eapply wp_heap_alloc; [done..|]. intros a c live' s' Hd. eauto 10. }
  destruct Hd as [Hinv' Hu Hfresh Hfit Hmin Hkeep]. exists a, c, live', s'.
  split_and!; [done..|intuition lia| |done].
  intros b d Hb. pose proof (rep_tiled _ _ _ (inv_rep _ _ _ Hinv')) as Ht.
  assert (live' !! a = Some (c, Used)) as Ha by (apply used_lookup; rewrite Hu; apply lookup_insert_eq).
  assert (a ≠ b) as Hne by congruence.
  assert (live' !! b = Some (d, Used)) as Hb' by (apply used_lookup; by rewrite Hu, lookup_insert_ne).
  destruct (Z.lt_trichotomy a b) as [Hlt|[?|Hlt]]; [left|done|right];
    by eapply (tiled_disjoint _ _ Ht).
Qed.

(** C4: freeing the payload of a block in use returns: exactly that block
    leaves the set of blocks in use, the others keep their bytes, and the
    invariant (free buddies are merged) holds again. *)
Theorem heap_free_ok (k : Z) (live : tiling) (s : heap P) (a c : Z)
    (Hinv : heap_inv k live s) (Ha : used live !! a = Some c) :
  ∃ live' s',
    mm_heap_free (a + 24) s = Done ((), s') ∧
    heap_inv k live' s' ∧
    used live' = delete a (used live) ∧
    keeps (delete a (used live)) (h_mem s) (h_mem s').
Proof.
  assert (wp (mm_heap_free (a + 24)) (λ _ s', ∃ live', free_done k live s a live' s') s)
    as ([] & s' & Hrun & live' & [H1 H2 H3])%wp_done by (eapply wp_heap_free; eauto).
  by exists live', s'.
Qed.

(** C24: double and stray frees.  A block that has been freed is not freed
    again: whether it still stands on a free list or was merged into a larger
    block, and whatever other blocks were freed after it, freeing its payload
    once more fails an assertion.  So does freeing an address whose distance
    from a page is not that of a payload, and freeing any block that is on a
    free list. *)
Theorem heap_free_rejects (k : Z) (live : tiling) (s : heap P) (Hinv : heap_inv k live s) :
  (∀ a c bs, used live !! a = Some c → NoDup (a :: bs) → (∀ b, b ∈ bs → is_Some (used live !! b)) →
    ∃ s', free_all (a :: bs) s = Done ((), s') ∧ mm_heap_free (a + 24) s' = Assert) ∧
  (∀ a c, live !! a = Some (c, Free) → mm_heap_free (a + 24) s = Assert) ∧
  (∀ p, is_u64 p → (p - 24) `mod` 4096 ≠ 0 → mm_heap_free p s = Assert).
Proof.
  split; [|split].
  - intros a c bs Ha Hnd Hbs.
    assert (wp (free_all (a :: bs)) (λ _ s', mm_heap_free (a + 24) s' = Assert) s) as ([] & s' & Hrun & Hrej)%wp_done.
    { eapply wp_free_all; [exact Hinv|exact Hnd| |].
      - intros b [->|Hb]%elem_of_cons; [by exists c|by apply Hbs].
      - intros live' s' Hinv' Hret. eapply free_retired; [exact Hinv'|]. apply Hret. left. by left. }
    by exists s'.
  - intros a c Ha. by eapply free_listed; [apply (inv_rep _ _ _ Hinv)|].
  - intros p. apply free_misaligned.
Qed.

(** An allocation of no bytes, or of more than the payload of the largest
    block (short of the lengths whose sum with the header size wraps around),
    fails an assertion. *)
Theorem heap_alloc_rejects (s : heap P) (len : Z)
    (Hlen : len = 0 ∨ bsize 15 - 24 < len < 18446744073709551616 - 24) :
  mm_heap_alloc len s = Assert.
Proof.
  unfold mm_heap_alloc. destruct Hlen as [->|Hlen]; [done|].
  change (bsize 15) with 134217728 in Hlen.
  assert ((0 <? len) = true) as E1 by (bsimp; lia).
  assert ((len + sizeof_block <=? 134217728)%u64 = false) as E2.
  { unfold sizeof_block. u64_unfold. rewrite u64_small by lia. bsimp. lia. }
  rewrite E1. rewrite (bind_done _ _ s () s) by done.
  rewrite (bind_done _ _ s 134217728 s) by done.
  apply bind_assert. by rewrite E2.
Qed.

(** After [mm_heap_bootstrap] the heap is empty and satisfies the
    invariant, whatever the free lists held before. *)
Theorem heap_bootstrap_ok (k : Z) (s : heap P) (Hlen : length (_free_list s) = 16%nat)
    (Hcan : can_map (h_pages s) VA_48_HEAP (32768 * k))
    (Hroom : VA_48_HEAP + k * bsize 15 < 18446744073709551616) :
  ∃ s', mm_heap_bootstrap s = Done ((), s') ∧ heap_inv k ∅ s'.
Proof.
  assert (wp mm_heap_bootstrap (λ _ s', heap_inv k ∅ s') s) as ([] & s' & Hrun & Hinv)%wp_done
    by (by eapply wp_heap_bootstrap).
  eauto.
Qed.

(** When every block has been freed, the heap consists of free blocks of
    the largest class only, and the check of the built-in test,
    [_test_helper_verify_all_block_coalesced], passes. *)
Theorem idle_heap_coalesced (k : Z) (live : tiling) (s : heap P)
    (Hinv : heap_inv k live s) (Hidle : used live = ∅) (Hne : VA_48_HEAP < _heap_end s) :
  _test_helper_verify_all_block_coalesced s = Done ((), s) ∧
  ∀ a c st, live !! a = Some (c, st) → c = 15 ∧ st = Free.
Proof.
  destruct Hinv as [Hr Hs Hco _]. pose proof (rep_tiled _ _ _ Hr) as Ht.
  assert (∀ a c st, live !! a = Some (c, st) → st = Free) as Hfree.
  { intros a c st Ha. destruct (Hs _ _ _ Ha) as [->| ->]; [|done].
    apply used_lookup in Ha. by rewrite Hidle, lookup_empty in Ha. }
  pose proof (idle_all_max _ _ Ht Hco Hfree) as Hmax.
  split; [|by intros a c st Ha; split; eauto].
  cut (wp _test_helper_verify_all_block_coalesced (λ _ s', s' = s) s).
  { by intros ([] & s' & -> & ->)%wp_done. }
  unfold _test_helper_verify_all_block_coalesced. unfold _BLOCK_MAX_CLASS.
  change (16 - 1) with 15. wp_step. apply (wp_for_n (λ _ s', s' = s)); [done| |].
  - intros i s' Hi ->. wp_step. eapply wp_list_empty; [done|lia| |].
    + intros a Ha%Hmax. lia.
    + by apply wp_assert.
  - intros s' ->. destruct (tiled_cover _ _ Ht VA_48_HEAP ltac:(lia)) as (a & c & st & Ha & _).
    pose proof (Hmax _ _ _ Ha) as ->. pose proof (Hfree _ _ _ Ha) as ->.
    assert (∀ Q : Z → heap P → Prop, (∀ h, h ≠ NULL → live !! h = Some (15, Free) → Q h s) →
      wp (get_list 15) Q s) as Hget.
    { intros Q HQ. eapply wp_get_list; [done|lia|]. intros h [|b l] Hh (Hl & _ & Hin).
      - apply Hin in Ha. by apply not_elem_of_nil in Ha.
      - destruct Hl as [-> _]. assert (live !! b = Some (15, Free)) as Hb by (apply Hin; by left).
        apply HQ; [|done]. by eapply block_u64. }
    wp_step. apply Hget. intros h Hn Hh. wp_step. wp_step; [apply negb_true_iff; by bsimp|].
    wp_step. apply Hget. intros h1 _ Hh1. wp_step. eapply wp_block_validate; [done..|].
    wp_step. apply Hget. intros h2 _ Hh2. wp_step. eapply wp_get_class; [done..|].
    by apply wp_assert.
Qed.

(** Every free list holds blocks of its own class only: the built-in
    check [_test_helper_verify_all_list_class] terminates and passes in every
    state that satisfies the invariant. *)
Theorem list_class_check_ok (k : Z) (live : tiling) (s : heap P) (Hinv : heap_inv k live s) :
  _test_helper_verify_all_list_class (list_fuel s) s = Done ((), s).
Proof.
  pose proof (inv_rep _ _ _ Hinv) as Hr.
  cut (wp (_test_helper_verify_all_list_class (list_fuel s)) (λ _ s', s' = s) s).
  { by intros ([] & s' & -> & ->)%wp_done. }
  unfold _test_helper_verify_all_list_class. apply (wp_for_n (λ _ s', s' = s)); [done| |done].
  intros c s' Hc ->. change (0 + Z.of_nat (Z.to_nat _BLOCK_MAX_CLASS)) with 16 in Hc.
  wp_step. eapply wp_get_list; [done|lia|]. intros h l Hh Hl.
  pose proof (free_list_fuel _ _ _ _ _ _ Hr eq_refl Hl) as Hfuel.
  destruct Hl as (Hseg & _ & Hin).
  assert (∀ a, a ∈ l → live !! a = Some (c, Free)) as Hl by (intros a; apply Hin). clear Hin Hh.
  revert h Hseg Hfuel. generalize (list_fuel s). induction l as [|a l IH]; intros n h Hseg Hfuel.
  all: destruct n as [|n]; [simpl in Hfuel; lia|]; cbn [loop]; simpl in Hseg.
  - subst h. by repeat apply wp_ret.
  - destruct Hseg as [-> Hseg]. pose proof (Hl a ltac:(by left)) as Ha.
    destruct (block_u64 _ _ _ _ _ _ Hr Ha) as [_ Hn].
    destruct (a =? NULL) eqn:Hz; bsimp; [done|].
    wp_step. wp_step. eapply wp_get_class; [done..|]. wp_step. wp_step; [by bsimp|].
    wp_step. eapply wp_get_next_free; [done..|]. apply wp_ret.
    apply IH; [|done|simpl in Hfuel; lia]. intros b Hb. apply Hl. by right.
Qed.

(** A round of [_heap_validate] on a block accepts it and goes on 24 times its
    size higher. *)
Lemma wp_validate_block k live s c st (Q : Z + unit → heap P → Prop) : heap_inv k live s →
  live !! VA_48_HEAP = Some (c, st) → Q (inl (VA_48_HEAP + 24 * bsize c)) s → wp (validate_block VA_48_HEAP) Q s.
Proof.
  intros Hinv Hb HQ. pose proof (inv_rep _ _ _ Hinv) as Hr.
  assert (st ≠ Raw) as Hst by (by destruct (inv_settled _ _ _ Hinv _ _ _ Hb) as [->| ->]).
  pose proof (block_bounds _ _ (rep_tiled _ _ _ Hr) _ _ _ Hb) as (_&Hend&_&_&Hc).
  pose proof (bsize_bounds c Hc) as Hs.
  unfold validate_block. wp_step. wp_step. destruct (VA_48_HEAP <? _heap_end s) eqn:E; bsimp; [|lia].
  wp_step. wp_step; [by eapply block_page_aligned|]. wp_step. eapply wp_block_validate; [done..|].
  wp_step. eapply wp_get_class; [done..|]. wp_step. apply wp_size_of_class; [done|].
  wp_step. wp_step; [unfold mm_align_check; u64_unfold; rewrite Z.sub_diag; bsimp; by rewrite Z.mod_0_l by lia|].
  apply wp_ret. unfold sizeof_block. u64_unfold. rewrite VA_48_HEAP_val in *.
  by rewrite (u64_small (bsize c * 24)), u64_small, (Z.mul_comm (bsize c)) by lia.
Qed.

(** The walk of [_heap_validate] is only right by luck: on a heap that
    satisfies the invariant it looks at the first block and then 24 times the
    size of that block higher.  If this is past the end of the heap it has
    passed, with only one block looked at; if it is inside the heap and no
    block happens to start there, the kernel stops. *)
Theorem heap_validate_skips (k : Z) (live : tiling) (s : heap P) (c : Z) (st : bstate) (fuel : nat)
    (Hinv : heap_inv k live s) (Hb : live !! VA_48_HEAP = Some (c, st)) :
  (_heap_end s <= VA_48_HEAP + 24 * bsize c → _heap_validate (2 + fuel) s = Done ((), s)) ∧
  (VA_48_HEAP + 24 * bsize c < _heap_end s → load 4 (h_mem s) (VA_48_HEAP + 24 * bsize c + 16) ≠ BLOCK_MAGIC →
    _heap_validate (2 + fuel) s = Assert).
Proof.
  pose proof (inv_rep _ _ _ Hinv) as Hr.
  assert (_heap_validate (2 + fuel) s = loop (1 + fuel) validate_block (VA_48_HEAP + 24 * bsize c) s) as E.
  { unfold _heap_validate. cbn [Nat.add loop].
    cut (wp (validate_block VA_48_HEAP) (λ r s', r = inl (VA_48_HEAP + 24 * bsize c) ∧ s' = s) s).
    { intros (r&s'&Hm&->&->)%wp_done. by rewrite (bind_done _ _ _ _ _ Hm). }
    by eapply wp_validate_block. }
  pose proof (block_bounds _ _ (rep_tiled _ _ _ Hr) _ _ _ Hb) as (_&_&_&_&Hc).
  pose proof (bsize_bounds c Hc) as Hs. rewrite E. cbn [Nat.add loop]. remember (VA_48_HEAP + 24 * bsize c) as blk eqn:Eb.
  split.
  - intros Hend. cut (wp (validate_block blk) (λ r s', r = inr () ∧ s' = s) s).
    { intros (r&s'&Hm&->&->)%wp_done. by rewrite (bind_done _ _ _ _ _ Hm). }
    unfold validate_block. wp_step. wp_step. destruct (blk <? _heap_end s) eqn:E2; bsimp; [lia|by apply wp_ret].
  - intros Hend Hm. destruct (tiled_end _ _ (rep_tiled _ _ _ Hr)) as [Hd Hh].
    assert (4096 | _heap_end s - VA_48_HEAP) as [q Hq] by (eapply Z.divide_trans; [apply (page_divide 15); lia|exact Hd]).
    destruct (page_divide c ltac:(lia)) as [r Hr2].
    assert (∀ x, 0 <= x < 24 → va_mapped (h_pages s) (blk + x) = true) as Hmap.
    { intros x Hx. apply (rep_mapped _ _ _ Hr). lia. }
    assert (mm_align_check blk PAGE_SIZE_VALUE_4K = true) as Hal.
    { apply align_check_true; [done|]. rewrite VA_48_HEAP_val in Eb. exists (4503565268684801 + 24 * r).
      unfold PAGE_SIZE_VALUE_4K. lia. }
    assert ((blk + 16)%u64 = blk + 16) as E16.
    { rewrite VA_48_HEAP_val in Eb. u64_unfold. by rewrite u64_small by lia. }
    apply bind_assert. unfold validate_block. apply then_assert. wp_step.
    destruct (blk <? _heap_end s) eqn:E2; bsimp; [|lia]. apply then_assert. wp_step; [done|].
    apply bind_assert. unfold _block_validate. apply then_assert. wp_step; [done|].
    apply then_assert. unfold get_magic, hread, access. rewrite E16. wp_step. wp_step. wp_step.
    replace (blk + 16 + Z.of_nat 4 - 1) with (blk + 19) by lia. rewrite !Hmap by lia. apply wp_ret, wp_read.
    change (mem_of s) with (h_mem s). unfold kernel_assert.
    destruct (load 4 (h_mem s) (blk + 16) =? BLOCK_MAGIC) eqn:E3; bsimp; done.
Qed.
End top.

(* --------------------------------------------------------------------- *)
(** ** Concrete instances *)

Lemma flat_heap_inv : heap_inv 2 ∅ flat_heap.
Proof.
  apply (wp_run mm_heap_bootstrap (λ _ s', heap_inv 2 ∅ s') flat_heap () flat_heap eq_refl).
  apply (wp_heap_bootstrap 2); [done|done|reflexivity|done].
Qed.

(** The flat heap after it has grown once: its single block is in use, or
    free. *)
Definition grown_end : Z := VA_48_HEAP + bsize 15.
Definition grown_heap : heap flat := Heap ∅ (replicate 16 NULL) grown_end grown_end.
Definition used_heap : heap flat :=
  Heap (init_mem VA_48_HEAP 15 false NULL ∅) (replicate 16 NULL) grown_end grown_end.
Definition free_heap : heap flat :=
  Heap (init_mem VA_48_HEAP 15 true NULL ∅) (<[15%nat := VA_48_HEAP]> (replicate 16 NULL))
    grown_end grown_end.
Definition one_block (st : bstate) : tiling := {[VA_48_HEAP := (15, st)]}.

Lemma lookup_one_block u a c st :
  one_block u !! a = Some (c, st) → VA_48_HEAP = a ∧ 15 = c ∧ u = st.
Proof. unfold one_block. rewrite lookup_singleton_Some. intuition congruence. Qed.

Lemma grown_rep : heap_rep (one_block Raw) grown_end grown_heap.
Proof.
  destruct flat_heap_inv as [Hr _ _ _]. eapply (rep_pages _ _ _ grown_heap) in Hr; [|done..|].
  - eapply rep_retile; [exact Hr| | | |].
    + change (one_block Raw) with (<[VA_48_HEAP := (15, Raw)]> (∅ : tiling)).
      apply tiled_extend; [apply tiled_empty|done].
    + intros a c. unfold one_block. rewrite lookup_singleton_Some, lookup_empty. intuition congruence.
    + intros a c st. unfold one_block. rewrite lookup_singleton_Some. intuition congruence.
    + intros x Hx. simpl in *. bsimp. lia.
  - intros x Hx. simpl in *. bsimp. change grown_end with (VA_48_HEAP + 134217728). lia.
Qed.

Lemma grown_room s : _heap_end s = grown_end → h_pages s = grown_end → room 1 s.
Proof. intros He Hp. split; [by rewrite He, Hp|by rewrite He]. Qed.

Lemma used_heap_inv : heap_inv 1 (one_block Used) used_heap.
Proof.
  split; [| | |by apply grown_room].
  - pose proof grown_rep as Hr.
    eapply (rep_change_header _ _ _ (h_mem used_heap) VA_48_HEAP 15 Raw Used) in Hr;
      [|done|done|done|apply init_mem_agree|by apply init_mem_hdr].
    unfold one_block in *. rewrite insert_singleton_eq in Hr. exact Hr.
  - intros a c st Ha. apply lookup_one_block in Ha as (_ & _ & <-). by left.
  - intros a c Hc (_ & _ & ?)%lookup_one_block. congruence.
Qed.

Lemma free_heap_inv : heap_inv 1 (one_block Free) free_heap.
Proof.
  split; [| | |by apply grown_room].
  - assert (_free_list_enqueue VA_48_HEAP 15 grown_heap = Done ((), free_heap)) as Hrun
      by (vm_compute; reflexivity).
    refine (wp_run _ (λ _ s', heap_rep (one_block Free) grown_end s') _ _ _ Hrun _).
    eapply (wp_enqueue (one_block Raw) grown_end grown_heap VA_48_HEAP 15 Raw);
      [exact grown_rep|exact (lookup_singleton_eq _ _)|done|done|].
    intros s' [Hr _ _]. unfold one_block in *. by rewrite insert_singleton_eq in Hr.
  - intros a c st Ha. apply lookup_one_block in Ha as (_ & _ & <-). by right.
  - intros a c Hc (_ & ? & _)%lookup_one_block. lia.
Qed.

Lemma heap_alloc_ok_witness :
  heap_inv 2 ∅ flat_heap ∧ 0 <= 1 ∧ 0 < 100 <= bsize 15 - 24 ∧
  ∃ a c live' s',
    mm_heap_alloc 100 flat_heap = Done ((a + 24, Some (bsize c - 24)), s') ∧ heap_inv 1 live' s'.
Proof.
  split; [exact flat_heap_inv|]. split; [lia|].
  assert (0 < 100 <= bsize 15 - 24) as Hlen by (change (bsize 15) with 134217728; lia).
  split; [exact Hlen|].
  destruct (heap_alloc_ok 1 ∅ flat_heap 100 flat_heap_inv ltac:(lia) Hlen)
    as (a & c & live' & s' & Hrun & Hinv & _).
  exists a, c, live', s'. split; [exact Hrun|exact Hinv].
Defined.

Lemma heap_free_ok_witness :
  heap_inv 1 (one_block Used) used_heap ∧ used (one_block Used) !! VA_48_HEAP = Some 15 ∧
  ∃ live' s', mm_heap_free (VA_48_HEAP + 24) used_heap = Done ((), s') ∧ used live' = ∅.
Proof.
  split; [exact used_heap_inv|]. split; [reflexivity|].
  destruct (heap_free_ok 1 (one_block Used) used_heap VA_48_HEAP 15 used_heap_inv eq_refl)
    as (live' & s' & Hrun & _ & Hu & _).
  exists live', s'. split; [exact Hrun|]. rewrite Hu. reflexivity.
Defined.

Lemma heap_free_rejects_witness :
  (∃ s', mm_heap_free (VA_48_HEAP + 24) used_heap = Done ((), s') ∧ mm_heap_free (VA_48_HEAP + 24) s' = Assert) ∧
  mm_heap_free (VA_48_HEAP + 24) free_heap = Assert ∧ mm_heap_free (VA_48_HEAP + 25) free_heap = Assert.
Proof.
  split; [|split].
  - destruct (proj1 (heap_free_rejects 1 (one_block Used) used_heap used_heap_inv) VA_48_HEAP 15 []) as (s'&Hrun&Hrej).
    + reflexivity.
    + apply NoDup_singleton.
    + intros b Hb. by apply not_elem_of_nil in Hb.
    + exists s'. split; [|exact Hrej]. cbn [free_all] in Hrun. unfold mbind, M_bind, mret, M_ret in Hrun.
      destruct (mm_heap_free (VA_48_HEAP + 24) used_heap) as [[[] s1]| | | |]; [|discriminate..]. exact Hrun.
  - apply (proj1 (proj2 (heap_free_rejects 1 (one_block Free) free_heap free_heap_inv)) VA_48_HEAP 15). reflexivity.
  - apply (proj2 (proj2 (heap_free_rejects 1 (one_block Free) free_heap free_heap_inv))); [|by vm_compute].
    rewrite VA_48_HEAP_val. unfold is_u64. lia.
Defined.

Lemma heap_alloc_rejects_witness :
  bsize 15 - 24 < 134217728 < 18446744073709551616 - 24 ∧
  mm_heap_alloc 134217728 flat_heap = Assert.
Proof.
  assert (bsize 15 - 24 < 134217728 < 18446744073709551616 - 24) as Hl
    by (change (bsize 15) with 134217728; lia).
  split; [exact Hl|]. apply heap_alloc_rejects. right. exact Hl.
Defined.

Lemma heap_bootstrap_ok_witness :
  ∃ s', mm_heap_bootstrap flat_heap = Done ((), s') ∧ heap_inv 2 ∅ s'.
Proof. apply (heap_bootstrap_ok 2 flat_heap); reflexivity. Defined.

Lemma idle_heap_coalesced_witness :
  used (one_block Free) = ∅ ∧ VA_48_HEAP < _heap_end free_heap ∧
  _test_helper_verify_all_block_coalesced free_heap = Done ((), free_heap).
Proof.
  split; [reflexivity|]. split; [reflexivity|].
  apply (idle_heap_coalesced 1 (one_block Free) free_heap free_heap_inv); reflexivity.
Defined.

Lemma list_class_check_ok_witness :
  heap_inv 1 (one_block Free) free_heap ∧
  _test_helper_verify_all_list_class (list_fuel free_heap) free_heap = Done ((), free_heap).
Proof.
  split; [exact free_heap_inv|]. apply (list_class_check_ok 1 (one_block Free)), free_heap_inv.
Defined.
