(* ===== verification/MmHeapClient.v ===== *)
(** The heap against its abstract specification.

    A client of the heap, like [_test_random_alloc_free] of mm_heap.c, keeps
    a list of the payloads it holds, allocates, writes bytes into payloads
    and frees.  The specification of such a run mentions no addresses: a
    payload is a length with the bytes that were written into it.  The
    concrete run of a script on the heap refines the abstract one. *)
From S2P Require Import Prelude Memory Util MmCore MmHeap HeapTiling.
From S2P Require Import MmHeapRep MmHeapLists MmHeapOps MmHeapAlloc MmHeapFree MmHeapTop.

Inductive op :=
| OAlloc (len : Z)
| OFree (i : nat)
| OWrite (i : nat) (off v : Z).

(** A payload as the specification sees it. *)
Abbreviation buffer := (Z * gmap Z Z)%type.

Definition max_payload : Z := bsize 15 - 24.

(** [None]: the client breaks the contract. *)
Definition spec_step (o : op) (σ : list buffer) : option (list buffer) :=
  match o with
  | OAlloc len => if (0 <? len) && (len <=? max_payload) then Some (σ ++ [(len, ∅)]) else None
  | OFree i => if bool_decide (is_Some (σ !! i)) then Some (delete i σ) else None
  | OWrite i off v =>
      '(len, bytes) ← σ !! i;
      if (0 <=? off) && (off <? len) then Some (<[i := (len, <[off := u8 v]> bytes)]> σ) else None
  end.

Fixpoint spec_run (ops : list op) (σ : list buffer) : option (list buffer) :=
  match ops with
  | [] => Some σ
  | o :: ops => σ ← spec_step o σ; spec_run ops σ
  end.

(** How often the heap may have to grow: once per allocation. *)
Fixpoint allocs (ops : list op) : Z :=
  match ops with
  | [] => 0
  | OAlloc _ :: ops => 1 + allocs ops
  | _ :: ops => allocs ops
  end.

Section client.
Context {P : Type} `{PageSourceSpec P}.
Implicit Types (s : heap P) (live : tiling).

(** A held payload: its address and the length that [mm_heap_alloc] reported. *)
Definition run_op (o : op) (hs : list (Z * Z)) : M (heap P) (list (Z * Z)) :=
  match o with
  | OAlloc len =>
      '(p, all_len) ← mm_heap_alloc len;
      n ← of_option all_len;
      mret (hs ++ [(p, n)])
  | OFree i =>
      '(p, _) ← of_option (hs !! i);
      mm_heap_free p ;;
      mret (delete i hs)
  | OWrite i off v =>
      '(p, _) ← of_option (hs !! i);
      write 1 (p + off)%u64 v ;;
      mret hs
  end.

Fixpoint run_ops (ops : list op) (hs : list (Z * Z)) : M (heap P) (list (Z * Z)) :=
  match ops with
  | [] => mret hs
  | o :: ops => hs ← run_op o hs; run_ops ops hs
  end.

(** The payload at [h] holds the buffer [b]. *)
Definition holds (u : gmap Z Z) (m : memory) (b : buffer) (h : Z * Z) : Prop :=
  ∃ c, u !! (h.1 - 24) = Some c ∧ h.2 = bsize c - 24 ∧ b.1 <= h.2 ∧
    ∀ off v, b.2 !! off = Some v → 0 <= off < b.1 ∧ load8 m (h.1 + off) = v.

(** The heap implements the buffers [σ] by the payloads [hs]. *)
Record implements (k : Z) (σ : list buffer) (hs : list (Z * Z)) (s : heap P) : Prop := {
  im_heap : ∃ live, heap_inv k live s ∧
    Forall2 (holds (used live) (h_mem s)) σ hs ∧
    ∀ a c, used live !! a = Some c → a + 24 ∈ hs.*1;
  im_nodup : NoDup hs.*1;
}.

(* --------------------------------------------------------------------- *)
(** ** Writing into a payload *)

Lemma rep_same_headers live hend s m' :
  heap_rep live hend s →
  (∀ a c st, live !! a = Some (c, st) → agree a (a + 24) (h_mem s) m') →
  heap_rep live hend (set_mem m' s).
Proof.
  intros Hr Hag.
  assert (∀ n a c st off, live !! a = Some (c, st) → 0 <= off → off + Z.of_nat n <= 24 →
    load n m' (a + off) = load n (h_mem s) (a + off)) as Hload.
  { intros n a c st off Ha ??. symmetry. apply load_agree. eapply agree_weaken; [by eapply Hag|lia|lia]. }
  split; [apply Hr| |apply Hr| |apply Hr].
  - intros a c st Ha Hst. destruct (rep_hdr _ _ _ Hr _ _ _ Ha Hst) as (H1 & H2 & H3). simpl.
    pose proof (Hload 1%nat a c st 0 Ha ltac:(lia) ltac:(lia)) as E0. rewrite !Z.add_0_r in E0.
    rewrite E0, !(Hload _ a c st) by (done || lia). done.
  - intros c Hc. destruct (rep_list _ _ _ Hr c Hc) as (h & l & Hh & Hs & Hnd & Hin).
    exists h, l. split; [done|]. split_and!; [|done|done]. simpl.
    assert (∀ a, a ∈ l → live !! a = Some (c, Free)) as Hl by (intros a; apply Hin).
    clear Hh Hnd Hin. revert h Hs. induction l as [|a l IH]; intros h Hs; [done|].
    destruct Hs as [-> Hs]. split; [done|].
    rewrite (Hload 8%nat a c Free) by (done || lia || (apply Hl; by left)).
    apply IH; [|done]. intros b Hb. apply Hl. by right.
Qed.

Lemma inv_payload_write k live s a c x v :
  heap_inv k live s → used live !! a = Some c → a + 24 <= x < a + bsize c →
  heap_inv k live (set_mem (store8 x v (h_mem s)) s).
Proof.
  intros [Hr Hs Hco Hroom] Ha%used_lookup Hx. split; [|done|done|done].
  apply rep_same_headers; [done|]. intros b d st Hb i Hi. symmetry. apply load8_store8_ne.
  pose proof (rep_tiled _ _ _ Hr) as Ht. pose proof (block_bounds _ _ Ht _ _ _ Hb).
  destruct (Z.lt_trichotomy a b) as [Hlt|[->|Hlt]]; [|lia|].
  - pose proof (tiled_disjoint _ _ Ht _ _ _ _ _ _ Ha Hb Hlt). lia.
  - pose proof (tiled_disjoint _ _ Ht _ _ _ _ _ _ Hb Ha Hlt). lia.
Qed.

Lemma Forall2_impl_r {A B} (R R' : A → B → Prop) l k :
  Forall2 R l k → (∀ x y, y ∈ k → R x y → R' x y) → Forall2 R' l k.
Proof.
  induction 1 as [|x y l k Hxy Hlk IH]; intros Himp; constructor.
  - by apply Himp; [left|].
  - apply IH. intros x' y' Hy'. apply Himp. by right.
Qed.

Lemma holds_keeps u u' m m' b h :
  (∀ c, u !! (h.1 - 24) = Some c → u' !! (h.1 - 24) = Some c) →
  (∀ c x, u !! (h.1 - 24) = Some c → h.1 - 24 <= x < h.1 - 24 + bsize c → load8 m' x = load8 m x) →
  holds u m b h → holds u' m' b h.
Proof.
  intros Hu Hm (c & Hc & Hn & Hle & Hb). exists c. split_and!; [by apply Hu|done|done|].
  intros off v Hv. destruct (Hb off v Hv) as [Ho Hl]. split; [done|].
  rewrite (Hm c); [done|done|lia].
Qed.

(* --------------------------------------------------------------------- *)
(** ** One step *)

Lemma step_alloc k len σ hs s :
  implements (1 + k) σ hs s → 0 <= k → 0 < len <= max_payload →
  wp (run_op (OAlloc len) hs) (implements k (σ ++ [(len, ∅)])) s.
Proof.
  intros [(live & Hinv & Hall & Hdom) Hnd] Hk Hlen. rewrite Z.add_comm in Hinv.
  simpl. wp_step. eapply wp_heap_alloc; [done..|].
  intros a c live' s' [Hinv' Hu Hfresh Hfit _ Hkeep]. wp_step. apply wp_ret. wp_step.
  assert (a + 24 ∉ hs.*1) as Hnew.
  { intros ([p n] & Hp & Hin)%list_elem_of_fmap. simpl in Hp. subst p.
    apply list_elem_of_lookup in Hin as [i Hi].
    destruct (Forall2_lookup_r _ _ _ _ _ Hall Hi) as ([l b] & _ & c' & Hc' & _).
    simpl in Hc'. replace (a + 24 - 24) with a in Hc' by lia. congruence. }
  split.
  - exists live'. split_and!; [done| |].
    + apply Forall2_app.
      * eapply Forall2_impl_r; [done|]. intros b h _. apply holds_keeps.
        -- intros d Hd. rewrite Hu, lookup_insert_ne; [done|]. congruence.
        -- intros d x Hd Hx. by eapply Hkeep.
      * repeat constructor. exists c. simpl. split_and!; [|done|lia|].
        -- replace (a + 24 - 24) with a by lia. rewrite Hu. apply lookup_insert_eq.
        -- intros off v. by rewrite lookup_empty.
    + intros b d. rewrite Hu, fmap_app, elem_of_app. intros [[<- _]|[_ Hb]]%lookup_insert_Some.
      * right. by left.
      * left. by eapply Hdom.
  - rewrite fmap_app. apply list.NoDup_app. split_and!; [done| |apply NoDup_singleton].
    intros p Hp [->|Hq]%elem_of_cons; [done|]. by apply not_elem_of_nil in Hq.
Qed.

Lemma step_free k i σ hs s :
  implements k σ hs s → is_Some (σ !! i) →
  wp (run_op (OFree i) hs) (implements k (delete i σ)) s.
Proof.
  intros [(live & Hinv & Hall & Hdom) Hnd] [b Hb].
  destruct (Forall2_lookup_l _ _ _ _ _ Hall Hb) as ([p n] & Hp & c & Hc & Hn & Hle & Hbytes).
  simpl in *. wp_step. eapply wp_of_option; [done|]. cbv beta iota. wp_step.
  replace p with (p - 24 + 24) by lia.
  eapply wp_heap_free; [done..|]. intros live' s' [Hinv' Hu Hkeep _]. wp_step.
  assert (∀ q m, (q, m) ∈ delete i hs → q ≠ p) as Hneq.
  { intros q m Hq ->. apply list_elem_of_lookup in Hq as [j Hj].
    rewrite list_lookup_delete in Hj. case_decide as Hlt.
    - assert (j = i) as ->; [|lia]. eapply (NoDup_lookup (hs.*1)); [done|..];
        rewrite list_lookup_fmap; by rewrite ?Hj, ?Hp.
    - assert (S j = i) as <-; [|lia]. eapply (NoDup_lookup (hs.*1)); [done|..];
        rewrite list_lookup_fmap; by rewrite ?Hj, ?Hp. }
  split.
  - exists live'. split_and!; [done| |].
    + eapply Forall2_impl_r; [by apply Forall2_delete|].
      intros b' [q m] Hin. pose proof (Hneq q m Hin) as Hqp. apply holds_keeps; simpl.
      * intros d Hd. rewrite Hu, lookup_delete_ne; [done|lia].
      * intros d x Hd Hx. eapply Hkeep; [|done]. rewrite lookup_delete_ne; [done|lia].
    + intros a d. rewrite Hu. intros [Hne Ha]%lookup_delete_Some.
      pose proof (Hdom _ _ Ha) as ([q m] & Hq & Hin)%list_elem_of_fmap. simpl in Hq.
      apply list_elem_of_fmap. exists (q, m). split; [done|].
      apply list_elem_of_lookup in Hin as [j Hj].
      assert (j ≠ i) as Hji by (intros ->; rewrite Hp in Hj; simplify_eq; lia).
      apply list_elem_of_lookup. destruct (decide (j < i)%nat).
      * exists j. rewrite list_lookup_delete_lt by lia. done.
      * exists (j - 1)%nat. rewrite list_lookup_delete_ge by lia.
        replace (S (j - 1)) with j by lia. done.
  - eapply sublist_NoDup; [done|]. apply fmap_sublist, sublist_delete.
Qed.

Lemma step_write k i off v len bytes σ hs s :
  implements k σ hs s → σ !! i = Some (len, bytes) → 0 <= off < len →
  wp (run_op (OWrite i off v) hs) (implements k (<[i := (len, <[off := u8 v]> bytes)]> σ)) s.
Proof.
  intros [(live & Hinv & Hall & Hdom) Hnd] Hi Hoff.
  destruct (Forall2_lookup_l _ _ _ _ _ Hall Hi) as ([p n] & Hp & c & Hc & Hn & Hle & Hbytes).
  simpl in *. wp_step. eapply wp_of_option; [done|]. cbv beta iota. wp_step.
  pose proof (rep_tiled _ _ _ (inv_rep _ _ _ Hinv)) as Ht.
  pose proof Hc as Hlive%used_lookup. pose proof (block_bounds _ _ Ht _ _ _ Hlive) as Hb.
  rewrite VA_48_HEAP_val in *.
  assert ((p + off)%u64 = p + off) as -> by (apply u64_small; lia).
  apply wp_write. apply wp_ret. rewrite store_1. simpl.
  split; [|done]. exists live.
  assert (∀ j b h, j ≠ i → σ !! j = Some b → hs !! j = Some h → holds (used live) (h_mem s) b h →
    holds (used live) (store8 (p + off) v (h_mem s)) b h) as Hother.
  { intros j b [q m] Hj Hbj Hh. apply holds_keeps; [done|]. simpl. intros d x Hd Hx.
    apply load8_store8_ne. intros <-. apply used_lookup in Hd.
    assert (p ≠ q) as Hpq.
    { intros ->. apply Hj. eapply (NoDup_lookup (hs.*1)); [done|..];
        rewrite list_lookup_fmap; by rewrite ?Hh, ?Hp. }
    destruct (Z.lt_trichotomy p q) as [Hlt|[?|Hlt]]; [|lia|].
    - pose proof (tiled_disjoint _ _ Ht _ _ _ _ _ _ Hlive Hd ltac:(lia)). lia.
    - pose proof (tiled_disjoint _ _ Ht _ _ _ _ _ _ Hd Hlive ltac:(lia)). lia. }
  split_and!; [apply (inv_payload_write _ _ _ (p - 24) c); [done|done|lia]| |done].
  apply Forall2_lookup. intros j. apply Forall2_lookup with (i := j) in Hall as Hj.
  destruct (decide (j = i)) as [->|Hne].
  - rewrite list_lookup_insert_eq by (by eapply lookup_lt_Some). rewrite Hp. constructor.
    exists c. simpl. split_and!; [done..|]. intros o w [[<- <-]|[Ho Hw]]%lookup_insert_Some.
    + split; [done|]. apply load8_store8_eq.
    + destruct (Hbytes o w Hw) as [Hor Hl]. split; [done|].
      rewrite load8_store8_ne by lia. done.
  - rewrite list_lookup_insert_ne by done.
    destruct (σ !! j) eqn:Hσj, (hs !! j) eqn:Hhj; inversion Hj; subst; constructor.
    by eapply Hother.
Qed.

Lemma allocs_nonneg ops : 0 <= allocs ops.
Proof. induction ops as [|[] ops IH]; simpl; lia. Qed.

Lemma wp_run_ops ops k σ σ' hs s :
  implements (allocs ops + k) σ hs s → 0 <= k → spec_run ops σ = Some σ' →
  wp (run_ops ops hs) (implements k σ') s.
Proof.
  revert σ hs s. induction ops as [|o ops IH]; intros σ hs s Him Hk Hrun.
  - simpl in Hrun. injection Hrun as <-. by apply wp_ret.
  - simpl in Hrun. destruct (spec_step o σ) as [σ1|] eqn:Hstep; [|done]. simpl in Hrun.
    pose proof (allocs_nonneg ops). cbn [run_ops]. wp_step.
    eapply (wp_mono _ (implements (allocs ops + k) σ1)); [|intros; by eapply IH].
    destruct o as [len|i|i off v]; simpl in Hstep, Him.
    + destruct ((0 <? len) && (len <=? max_payload)) eqn:Hlen; [|done]. bsimp. injection Hstep as <-.
      apply step_alloc; [by rewrite Z.add_assoc|lia|lia].
    + case_bool_decide; [|done]. injection Hstep as <-. by apply step_free.
    + destruct (σ !! i) as [[len bytes]|] eqn:Hi; [|done]. simpl in Hstep.
      destruct ((0 <=? off) && (off <? len)) eqn:Hoff; [|done]. bsimp. injection Hstep as <-.
      by eapply step_write.
Qed.

Lemma run_ops_reach ops k σ σ' hs s :
  implements (allocs ops + k) σ hs s → 0 <= k → spec_run ops σ = Some σ' →
  ∃ hs' s', implements k σ' hs' s'.
Proof.
  intros Him Hk Hrun. pose proof (wp_run_ops _ _ _ _ _ _ Him Hk Hrun) as Hw.
  apply wp_done in Hw as (hs' & s' & _ & ?). eauto.
Qed.

(** C2: every script of allocations, writes and frees that the specification
    accepts runs on the heap without a failed assertion, a page fault or
    exhausted fuel, and ends in a state that implements the specification's
    result: distinct payloads, each as long as requested or longer, which
    hold exactly the bytes last written into them. *)
Theorem heap_refines_spec (ops : list op) (k : Z) (σ σ' : list buffer) (hs : list (Z * Z)) (s : heap P)
    (Him : implements (allocs ops + k) σ hs s) (Hk : 0 <= k) (Hspec : spec_run ops σ = Some σ') :
  ∃ hs' s', run_ops ops hs s = Done (hs', s') ∧ implements k σ' hs' s'.
Proof.
  assert (wp (run_ops ops hs) (implements k σ') s) as (hs' & s' & ? & ?)%wp_done
    by (by eapply wp_run_ops).
  eauto.
Qed.

(** What an implementation gives the client: payloads that do not
    overlap, and reads that return the bytes last written. *)
Theorem implements_reads (k : Z) (σ : list buffer) (hs : list (Z * Z)) (s : heap P)
    (Him : implements k σ hs s) :
  (∀ i len bytes off v, σ !! i = Some (len, bytes) → bytes !! off = Some v →
     ∃ p n, hs !! i = Some (p, n) ∧ 0 <= off < n ∧ load8 (h_mem s) (p + off) = v) ∧
  (∀ i j p n q m, i ≠ j → hs !! i = Some (p, n) → hs !! j = Some (q, m) → p + n <= q ∨ q + m <= p).
Proof.
  destruct Him as [(live & Hinv & Hall & _) Hnd].
  pose proof (rep_tiled _ _ _ (inv_rep _ _ _ Hinv)) as Ht. split.
  - intros i len bytes off v Hi Hv.
    destruct (Forall2_lookup_l _ _ _ _ _ Hall Hi) as ([p n] & Hp & c & Hc & Hn & Hle & Hbytes).
    simpl in *. destruct (Hbytes _ _ Hv). exists p, n. split_and!; [done|lia|lia|done].
  - intros i j p n q m Hij Hi Hj.
    destruct (Forall2_lookup_r _ _ _ _ _ Hall Hi) as (b1 & _ & c & Hc%used_lookup & Hn & _).
    destruct (Forall2_lookup_r _ _ _ _ _ Hall Hj) as (b2 & _ & d & Hd%used_lookup & Hm & _).
    simpl in *. assert (p ≠ q) as Hpq.
    { intros ->. apply Hij. eapply (NoDup_lookup (hs.*1)); [done|..];
        rewrite list_lookup_fmap; by rewrite ?Hi, ?Hj. }
    destruct (Z.lt_trichotomy p q) as [Hlt|[?|Hlt]]; [left|done|right].
    + pose proof (tiled_disjoint _ _ Ht _ _ _ _ _ _ Hc Hd ltac:(lia)). lia.
    + pose proof (tiled_disjoint _ _ Ht _ _ _ _ _ _ Hd Hc ltac:(lia)). lia.
Qed.

End client.

(* --------------------------------------------------------------------- *)
(** ** Concrete instances *)

Definition sample_script : list op :=
  [OAlloc 100; OAlloc 5000; OWrite 0 99 0x5a; OWrite 1 0 0x17; OFree 0].

Lemma flat_implements : implements 2 [] [] flat_heap.
Proof.
  split; [|constructor]. exists ∅. split_and!; [exact flat_heap_inv|constructor|].
  intros a c Ha%used_lookup. by apply lookup_empty_Some in Ha.
Qed.

Lemma heap_refines_spec_witness :
  spec_run sample_script [] = Some [(5000, {[0 := 0x17]})] ∧
  ∃ hs' s', run_ops sample_script [] flat_heap = Done (hs', s') ∧
    implements 0 [(5000, {[0 := 0x17]})] hs' s'.
Proof.
  split; [vm_compute; reflexivity|].
  apply (heap_refines_spec sample_script 0 []); [exact flat_implements|lia|vm_compute; reflexivity].
Defined.

Lemma implements_reads_witness :
  ∃ hs (s : heap flat), implements 0 [(5000, {[0 := 0x17]})] hs s ∧
    ∃ p n, hs !! 0%nat = Some (p, n) ∧ 0 <= 0 < n ∧ load8 (h_mem s) (p + 0) = 0x17.
Proof.
  destruct (run_ops_reach sample_script 0 [] _ [] flat_heap flat_implements ltac:(lia) eq_refl)
    as (hs & s & Him).
  exists hs, s. split; [exact Him|].
  destruct (implements_reads 0 _ hs s Him) as [Hread _].
  exact (Hread 0%nat 5000 _ 0 0x17 eq_refl eq_refl).
Defined.
