(* ===== verification/MmAllocator.v ===== *)
(** The object allocator, src/mm/mm_allocator.c: arenas cut from heap blocks.

    An allocator is a 16-byte record that heads a list of areas.  An area is a
    heap block: a 32-byte record, the bytes that are handed out from the bottom
    up, and at the end a guard word that names the allocator.  Allocator records
    are cut from heap blocks of their own and recycled through [_free_alls].
    All of it lives in the heap's memory; every access checks its page. *)
From S2P Require Import Prelude Memory Util Strings MmCore MmHeap.

Definition sizeof_area : Z := 32.
Definition sizeof_allocator : Z := 16.
Definition sizeof_ptr : Z := 8.

Record allocs (P : Type) := Allocs {
  al_heap : heap P;
  _free_alls : Z;
}.
Arguments Allocs {P} _ _.
Arguments al_heap {P} _.
Arguments _free_alls {P} _.

Definition set_heap {P} (h : heap P) (s : allocs P) : allocs P := Allocs h (_free_alls s).
Definition set_free_alls {P} (p : Z) (s : allocs P) : allocs P := Allocs (al_heap s) p.

Section mm_allocator.
Context {P : Type} `{PageSource P}.

Local Abbreviation AM := (M (allocs P)).

Definition on_heap {A} (m : M (heap P) A) : AM A := zoom al_heap set_heap m.
Definition aread (a : Z) : AM Z := on_heap (hread 8 a).
Definition awrite (a v : Z) : AM unit := on_heap (hwrite 8 a v).

(** The fields of [area_t] and [mm_allocator_t]. *)
Definition get_block (a : Z) : AM Z := aread a.
Definition get_block_len (a : Z) : AM Z := aread (a + 8)%u64.
Definition get_use_len (a : Z) : AM Z := aread (a + 16)%u64.
Definition get_prev_area (a : Z) : AM Z := aread (a + 24)%u64.
Definition get_areas (all : Z) : AM Z := aread all.
Definition get_next_all (all : Z) : AM Z := aread (all + 8)%u64.

Definition set_block (a v : Z) : AM unit := awrite a v.
Definition set_block_len (a v : Z) : AM unit := awrite (a + 8)%u64 v.
Definition set_use_len (a v : Z) : AM unit := awrite (a + 16)%u64 v.
Definition set_prev_area (a v : Z) : AM unit := awrite (a + 24)%u64 v.
Definition set_areas (all v : Z) : AM unit := awrite all v.
Definition set_next_all (all v : Z) : AM unit := awrite (all + 8)%u64 v.

Definition mm_allocator_bootstrap : AM unit := modify (set_free_alls NULL).

Definition _area_free_len (a : Z) : AM Z :=
  block_len ← get_block_len a;
  use_len ← get_use_len a;
  mret (block_len - use_len)%u64.

Definition _area_free_start (a : Z) : AM Z :=
  free_len ← _area_free_len a;
  kernel_assert_d (0 <? free_len)%u64 ;;
  block ← get_block a;
  use_len ← get_use_len a;
  mret (block + use_len)%u64.

Definition _area_block_end (a : Z) : AM Z :=
  block ← get_block a;
  block_len ← get_block_len a;
  mret (block + block_len)%u64.

Definition _allocator_init (all : Z) : AM unit := set_areas all NULL.

(** One round of the loop that cuts a heap block into allocator records.
    [all += sizeof(mm_allocator_t)] on a [mm_allocator_t *] advances by
    [sizeof_allocator * sizeof_allocator] bytes. *)
Definition cut_allocator (heap heap_len all : Z) : AM (Z + unit) :=
  if ((all + sizeof_allocator - heap) <=? heap_len)%u64 then
    head ← gets _free_alls;
    set_next_all all head ;;
    modify (set_free_alls all) ;;
    all ← mm_align_up (all + sizeof_allocator * sizeof_allocator)%u64 sizeof_ptr;
    mret (inl all)
  else mret (inr ()).

(** [heap_len] is left unassigned when the heap has no block to give. *)
Definition mm_allocator_new : AM Z :=
  all ← gets _free_alls;
  all ← (if all =? NULL then
      '(heap, all_len) ← on_heap mm_heap_alloc_minimum;
      all ← mm_align_up heap sizeof_ptr;
      heap_len ← of_option all_len;
      kernel_assert_d ((all + sizeof_allocator - heap) <=? heap_len)%u64 ;;
      loop (Datatypes.S (Z.to_nat heap_len)) (cut_allocator heap heap_len) all ;;
      gets _free_alls
    else mret all);
  kernel_assert_d (negb (all =? NULL)) ;;
  next ← get_next_all all;
  modify (set_free_alls next) ;;
  set_next_all all NULL ;;
  _allocator_init all ;;
  mret all.

Definition _allocator_new_area (all block_min : Z) : AM Z :=
  let need_size := (block_min + sizeof_area + sizeof_ptr)%u64 in
  '(area, all_len) ← on_heap (mm_heap_alloc need_size);
  set_block area (area + sizeof_area)%u64 ;;
  block_size ← of_option all_len;
  let guard := (area + block_size - sizeof_ptr)%u64 in
  kernel_assert (mm_align_check guard sizeof_ptr) ;;
  awrite guard all ;;
  block ← get_block area;
  set_block_len area (guard - block)%u64 ;;
  block_len ← get_block_len area;
  kernel_assert (block_min <=? block_len)%u64 ;;
  set_use_len area 0 ;;
  list ← get_areas all;
  set_prev_area area list ;;
  set_areas all area ;;
  mret area.

(** [slop = ret % align; if (slop > 0) slop = align - slop;] *)
Definition slop_of (ret align : Z) : AM Z :=
  slop ← urem ret align;
  mret (if 0 <? slop then (align - slop)%u64 else slop).

(** The area of an allocator that has none yet is made first. *)
Definition first_area (all size align : Z) : AM Z :=
  area ← get_areas all;
  if area =? NULL then
    area ← _allocator_new_area all (size + align)%u64;
    list ← get_areas all;
    kernel_assert_d (list =? area) ;;
    mret area
  else mret area.

(** An area without room for the request is followed by a new one. *)
Definition roomy_area (all size align area : Z) : AM Z :=
  ret ← _area_free_start area;
  slop ← slop_of ret align;
  let need := (size + slop)%u64 in
  free_len ← _area_free_len area;
  if free_len <? need then
    let need := (size + align)%u64 in
    area ← _allocator_new_area all need;
    list ← get_areas all;
    kernel_assert_d (list =? area) ;;
    free_len ← _area_free_len area;
    kernel_assert_d (need <=? free_len) ;;
    mret area
  else mret area.

(** The request is cut from the free bytes of the area. *)
Definition hand_out (size align area : Z) : AM Z :=
  ret ← _area_free_start area;
  slop ← slop_of ret align;
  let need := (size + slop)%u64 in
  free_len ← _area_free_len area;
  kernel_assert_d (need <=? free_len) ;;
  let ret := (ret + slop)%u64 in
  use_len ← get_use_len area;
  set_use_len area (use_len + need)%u64 ;;
  use_len ← get_use_len area;
  block_len ← get_block_len area;
  kernel_assert_d (use_len <? block_len) ;;
  r ← urem ret align;
  kernel_assert_d (r =? 0) ;;
  mret ret.

Definition mm_allocate (all size align : Z) : AM Z :=
  area ← first_area all size align;
  area ← roomy_area all size align area;
  hand_out size align area.

(** The client in src/containers/containers_string.c: a size as text, in a
    buffer of its own.  [note i] is the address of the name of the [i]th unit. *)
Definition str_buf_marshal_uint_in_size_new (note : nat → Z) (all val : Z) : AM Z :=
  let buf_len := 128 in
  ret ← mm_allocate all buf_len 1;
  len ← on_heap (str_buf_marshal_uint_in_size note ret 0 buf_len val);
  kernel_assert (len <? buf_len) ;;
  mret ret.

(** One round of [mm_allocator_free]: check the guard, free the area. *)
Definition free_area (all a : Z) : AM (Z + unit) :=
  if a =? NULL then mret (inr ())
  else
    guard ← _area_block_end a;
    kernel_assert_d (mm_align_check guard sizeof_ptr) ;;
    owner ← aread guard;
    kernel_assert_d (owner =? all) ;;
    prev ← get_prev_area a;
    on_heap (mm_heap_free a) ;;
    mret (inl prev).

(** The areas of a list are distinct blocks, so the heap bounds their number. *)
Definition area_fuel (s : allocs P) : nat :=
  Datatypes.S (Z.to_nat ((_heap_end (al_heap s) - VA_48_HEAP) / PAGE_SIZE_VALUE_4K)).

Definition mm_allocator_free (all : Z) : AM unit :=
  a ← get_areas all;
  fuel ← gets area_fuel;
  loop fuel (free_area all) a ;;
  set_areas all NULL ;;
  head ← gets _free_alls;
  set_next_all all head ;;
  modify (set_free_alls all).

(* --------------------------------------------------------------------- *)
(** ** The built-in test *)

Definition _TEST_MAX_UNITS : Z := 32.
Definition _TEST_UNIT_MEMS_CAP : Z := 128.
Definition _TEST_MAX_ALLOC : Z := 1048576.
Definition _TEST_MAX_ALIGN : Z := 1048576.

(** [mem_cnt] is the length of [mems], the pairs of address and length. *)
Record test_allocator_unit := TestUnit { tu_all : Z; tu_mems : list (Z * Z) }.

Definition mem_cnt (u : test_allocator_unit) : Z := Z.of_nat (length (tu_mems u)).

(** [for (usz_t by_idx; by_idx < len; by_idx++)]: the loop variable is never
    initialised; [by_idx] is the value it happens to have. *)
Definition check_bytes (by_idx mem len by_ : Z) : AM unit :=
  loop (Datatypes.S (Z.to_nat (len - by_idx))) (λ i,
    if i <? len then
      b ← on_heap (hread 1 (mem + i)%u64);
      kernel_assert (b =? by_) ;;
      mret (inl (i + 1)%u64)
    else mret (inr ())) by_idx.

Definition _test_unit_free (by_idx : Z) (u : test_allocator_unit) : AM bool :=
  for_n (length (tu_mems u)) 0 (λ i,
    '(mem, len) ← of_option (tu_mems u !! Z.to_nat i);
    check_bytes by_idx mem len (i mod BYTE_MAX)%u64) ;;
  mm_allocator_free (tu_all u) ;;
  mret true.

Definition _test_rand_alloc (u : test_allocator_unit) : AM (bool * test_allocator_unit) :=
  if mem_cnt u <? _TEST_UNIT_MEMS_CAP then
    size ← (if 0 <? mem_cnt u then
        '(_, len) ← of_option (tu_mems u !! pred (length (tu_mems u)));
        mret (util_rand_int_next len)
      else mret (util_rand_int_next _TEST_MAX_ALLOC));
    let align := util_rand_int_next size in
    let align := (align mod _TEST_MAX_ALIGN + 1)%u64 in
    let size := (size mod _TEST_MAX_ALLOC + 1)%u64 in
    mem ← mm_allocate (tu_all u) size align;
    kernel_assert (mm_align_check mem align) ;;
    on_heap (mm_fill_bytes mem size (mem_cnt u mod BYTE_MAX)%u64) ;;
    mret (true, TestUnit (tu_all u) (tu_mems u ++ [(mem, size)]))
  else mret (false, u).

Definition test_rand_unit (units : list test_allocator_unit) (unit_idx : Z) :
    AM (bool * list test_allocator_unit) :=
  u ← of_option (units !! Z.to_nat unit_idx);
  '(ok, u) ← _test_rand_alloc u;
  mret (ok, <[Z.to_nat unit_idx := u]> units).

(** One operation of the test: the locals are [op], [op_type], [op_clock],
    [unit_idx] and the units in use. *)
Definition test_op (by_idx : Z) : Z * Z * Z * Z * list test_allocator_unit →
    AM (Z * Z * Z * Z * list test_allocator_unit + unit) := λ '(op, op_type, op_clock, unit_idx, units),
  if op <? 10000 then
    let unit_cnt := Z.of_nat (length units) in
    let op_clock := (op_clock + 1)%u64 in
    let op_type := (util_rand_int_next (op_type + op_clock)%u64 mod 9)%u64 in
    if op_type =? 0 then
      if unit_cnt <? _TEST_MAX_UNITS then
        all ← mm_allocator_new;
        mret (inl (op + 1, op_type, op_clock, unit_idx, units ++ [TestUnit all []]))
      else mret (inl (op, op_type, op_clock, unit_idx, units))
    else if op_type =? 1 then
      if 0 <? unit_cnt then
        u ← of_option (units !! pred (length units));
        ok ← _test_unit_free by_idx u;
        if ok : bool then mret (inl (op + 1, op_type, op_clock, unit_idx, removelast units))
        else mret (inl (op, op_type, op_clock, unit_idx, units))
      else mret (inl (op, op_type, op_clock, unit_idx, units))
    else if op_type <=? 8 then
      if 0 <? unit_cnt then
        let unit_idx := (util_rand_int_next unit_idx mod unit_cnt)%u64 in
        '(ok, units) ← test_rand_unit units unit_idx;
        mret (inl ((if ok : bool then op + 1 else op), op_type, op_clock, unit_idx, units))
      else mret (inl (op, op_type, op_clock, unit_idx, units))
    else kernel_panic "Impossible"
  else mret (inr ()).

Definition test_allocator (fuel : nat) (by_idx : Z) : AM unit :=
  loop fuel (test_op by_idx) (0, 123, 0, 0, []).

End mm_allocator.
