(* ===== verification/MmAllocatorRep.v ===== *)
(** What a state of the object allocator stands for.

    [heap_inv] of the heap below, the heap blocks that hold allocator records
    (the pools), the chain of free records, and for every allocator in use the
    list of its areas, newest first, each with the regions handed out from it.
    The section on cells shows that reads and writes of the records go through
    and touch nothing else. *)
From S2P Require Import Prelude Memory Util MmCore MmHeap HeapTiling.
From S2P Require Import MmHeapRep MmHeapLists MmHeapOps MmHeapAlloc MmHeapFree MmHeapTop.
From S2P Require Import MmHeapClient MmAllocator.

(** An area: the heap block it is, how much of it is handed out, and the
    regions handed out, the last one first. *)
Record arena := Arena { ar_blk : Z; ar_class : Z; ar_use : Z; ar_regs : list (Z * Z) }.

Definition ar_area (A : arena) : Z := ar_blk A + 24.
Definition ar_base (A : arena) : Z := ar_blk A + 56.
Definition ar_guard (A : arena) : Z := ar_blk A + bsize (ar_class A) - 8.
Definition ar_len (A : arena) : Z := bsize (ar_class A) - 64.

(** Regions in [lo, hi) one above the other, the topmost first. *)
Fixpoint stacked (lo hi : Z) (l : list (Z * Z)) : Prop :=
  match l with
  | [] => lo <= hi
  | (x, n) :: l => 0 <= n ∧ x + n <= hi ∧ stacked lo x l
  end.

Record arena_ok (live : tiling) (A : arena) : Prop := {
  ao_block : used live !! ar_blk A = Some (ar_class A);
  ao_use : 0 <= ar_use A < ar_len A;
  ao_regs : stacked (ar_base A) (ar_base A + ar_use A) (ar_regs A);
}.

(** The areas in memory, from the newest on. *)
Fixpoint areas_at (m : memory) (p h : Z) (l : list arena) : Prop :=
  match l with
  | [] => h = NULL
  | A :: l => h = ar_area A ∧ load 8 m (ar_area A) = ar_base A ∧ load 8 m (ar_area A + 8) = ar_len A ∧
      load 8 m (ar_area A + 16) = ar_use A ∧ load 8 m (ar_guard A) = p ∧
      areas_at m p (load 8 m (ar_area A + 24)) l
  end.

(** The records in a pool: 16 of them, 256 bytes apart. *)
Definition slot_of (pools : list Z) (p : Z) : Prop :=
  ∃ a i, a ∈ pools ∧ 0 <= i < 16 ∧ p = a + 24 + 256 * i.

Abbreviation arenas := (gmap Z (list arena)).

(** The blocks and records of the allocators are where they belong. *)
Record layout (live : tiling) (σ : arenas) (free pools : list Z) : Prop := {
  ly_pools a : a ∈ pools → used live !! a = Some 0;
  ly_slots p : p ∈ free ∨ is_Some (σ !! p) → slot_of pools p;
  ly_free_nodup : NoDup free;
  ly_free_unused p : p ∈ free → σ !! p = None;
  ly_ok p l A : σ !! p = Some l → A ∈ l → arena_ok live A ∧ ar_blk A ∉ pools;
  ly_nodup p l : σ !! p = Some l → NoDup (ar_blk <$> l);
  ly_apart p q l l' A B : σ !! p = Some l → σ !! q = Some l' → A ∈ l → B ∈ l' → ar_blk A = ar_blk B → p = q;
}.

(** The records in memory: the chain of free ones, and the lists of areas. *)
Record stored (m : memory) (σ : arenas) (free : list Z) (head : Z) : Prop := {
  sd_free : lseg m head free NULL;
  sd_areas p l : σ !! p = Some l → areas_at m p (load 8 m p) l;
}.

Record alloc_inv {P} `{PageSourceSpec P} (k : Z) (live : tiling) (σ : arenas) (free pools : list Z)
    (s : allocs P) : Prop := {
  ai_heap : heap_inv k live (al_heap s);
  ai_layout : layout live σ free pools;
  ai_stored : stored (h_mem (al_heap s)) σ free (_free_alls s);
}.

(** The bytes of the records. *)
Definition book (σ : arenas) (free : list Z) (x : Z) : Prop :=
  (∃ p, (p ∈ free ∨ is_Some (σ !! p)) ∧ p <= x < p + 16) ∨
  (∃ p l A, σ !! p = Some l ∧ A ∈ l ∧ (ar_area A <= x < ar_base A ∨ ar_guard A <= x < ar_guard A + 8)).

(** The regions handed out. *)
Definition region (σ : arenas) (x n : Z) : Prop :=
  ∃ p l A, σ !! p = Some l ∧ A ∈ l ∧ (x, n) ∈ ar_regs A.

(** The regions keep their bytes. *)
Definition regions_keep (σ : arenas) (m m' : memory) : Prop :=
  ∀ x n i, region σ x n → x <= i < x + n → load8 m' i = load8 m i.

(* --------------------------------------------------------------------- *)
(** ** Stacks of regions *)

Lemma stacked_le lo hi l : stacked lo hi l → lo <= hi.
Proof.
  revert hi. induction l as [|[x n] l IH]; intros hi; [done|]. cbn [stacked]. intros (?&?&?%IH). lia.
Qed.

Lemma stacked_mono lo hi hi' l : stacked lo hi l → hi <= hi' → stacked lo hi' l.
Proof. destruct l as [|[x n] l]; cbn [stacked]; [lia|]. intros (?&?&?) ?. split; [done|]. split; [lia|done]. Qed.

Lemma stacked_in lo hi l x n : stacked lo hi l → (x, n) ∈ l → lo <= x ∧ 0 <= n ∧ x + n <= hi.
Proof.
  revert hi. induction l as [|[y k] l IH]; intros hi; [by intros _ ?%elem_of_nil|]. cbn [stacked].
  intros (?&?&Hs) [[= -> ->]|Hin]%elem_of_cons.
  - pose proof (stacked_le _ _ _ Hs). lia.
  - destruct (IH y Hs Hin) as (?&?&?). lia.
Qed.

Lemma stacked_apart lo hi l i j x n y k : stacked lo hi l → (i < j)%nat → l !! i = Some (x, n) → l !! j = Some (y, k) →
  y + k <= x.
Proof.
  revert hi i j. induction l as [|[z c] l IH]; intros hi i j; [by intros _ _ Hn; rewrite lookup_nil in Hn|]. cbn [stacked].
  intros (?&?&Hs) Hij Hi Hj. destruct j as [|j]; [lia|]. destruct i as [|i].
  - injection Hi as -> ->. cbn in Hj. apply list_elem_of_lookup_2 in Hj. destruct (stacked_in _ _ _ _ _ Hs Hj) as (?&?&?). lia.
  - cbn in Hi, Hj. eapply (IH z i j); [done|lia|done|done].
Qed.

(* --------------------------------------------------------------------- *)
(** ** Memory that agrees on the records *)

Lemma free_chain_agree m m' h l t : (∀ p, p ∈ l → agree (p + 8) (p + 16) m m') → lseg m h l t → lseg m' h l t.
Proof.
  revert h. induction l as [|p l IH]; intros h Hag; [done|]. cbn [lseg]. intros [-> Hs]. split; [done|].
  assert (load 8 m (p + 8) = load 8 m' (p + 8)) as <-.
  { apply (load_agree 8). eapply agree_weaken; [by apply Hag; left|lia|lia]. }
  apply IH; [|done]. intros q Hq. apply Hag. by right.
Qed.

Lemma areas_agree m m' p h l :
  (∀ A, A ∈ l → agree (ar_area A) (ar_base A) m m' ∧ agree (ar_guard A) (ar_guard A + 8) m m') →
  areas_at m p h l → areas_at m' p h l.
Proof.
  revert h. induction l as [|A l IH]; intros h Hag; [done|]. cbn [areas_at]. intros (->&H1&H2&H3&H4&Hs).
  destruct (Hag A) as [Ha Hg]; [by left|]. unfold ar_area, ar_base in *.
  assert (∀ off, 0 <= off <= 24 → load 8 m' (ar_blk A + 24 + off) = load 8 m (ar_blk A + 24 + off)) as Hl.
  { intros off Hoff. symmetry. apply (load_agree 8). eapply agree_weaken; [exact Ha|lia|lia]. }
  pose proof (Hl 0 ltac:(lia)) as E0. rewrite Z.add_0_r in E0.
  rewrite E0, (Hl 8), (Hl 16), (Hl 24) by lia. split; [done|]. split; [done|]. split; [done|]. split; [done|].
  split; [rewrite <-H4; symmetry; apply (load_agree 8); exact Hg|].
  apply IH; [|done]. intros B HB. apply Hag. by right.
Qed.

Lemma stored_agree m m' σ free head : (∀ x, book σ free x → load8 m x = load8 m' x) →
  stored m σ free head → stored m' σ free head.
Proof.
  intros Hag [Hf Ha]. split.
  - eapply free_chain_agree; [|exact Hf]. intros p Hp x Hx. apply Hag. left. exists p. split; [by left|lia].
  - intros p l Hl. assert (load 8 m p = load 8 m' p) as <-.
    { apply (load_agree 8). intros x Hx. apply Hag. left. exists p. split; [right; by exists l|lia]. }
    eapply areas_agree; [|by apply Ha]. intros A HA. split; intros x Hx; apply Hag; right; exists p, l, A; auto.
Qed.

Lemma stored_delete m σ free head p : stored m σ free head → stored m (delete p σ) free head.
Proof. intros [Hf Ha]. split; [done|]. intros q l [_ Hq]%lookup_delete_Some. by apply Ha. Qed.

Lemma stored_insert m σ free head p l : stored m (delete p σ) free head → areas_at m p (load 8 m p) l →
  stored m (<[p := l]> σ) free head.
Proof.
  intros [Hf Ha] Hp. split; [done|]. intros q l' [[<- <-]|[Hne Hq]]%lookup_insert_Some; [done|].
  apply Ha. apply lookup_delete_Some. done.
Qed.

(* --------------------------------------------------------------------- *)
(** ** Where the records lie *)

Section geometry.
Context {P : Type} `{PageSourceSpec P}.
Context {k : Z} {live : tiling} {s : heap P} (Hinv : heap_inv k live s).

Lemma used_bounds a c : used live !! a = Some c →
  VA_48_HEAP <= a ∧ a + bsize c <= _heap_end s ∧ 4096 <= bsize c <= 134217728 ∧
  _heap_end s <= 18446744073709551616 ∧ 0 <= c < 16 ∧ (4096 | a) ∧ (4096 | bsize c).
Proof.
  intros Ha%used_lookup. pose proof (rep_tiled _ _ _ (inv_rep _ _ _ Hinv)) as Ht.
  destruct (block_bounds _ _ Ht _ _ _ Ha) as (?&?&?&?&Hc). pose proof (bsize_bounds c Hc) as Hb.
  split; [done|]. split; [done|]. split; [done|]. split; [done|]. split; [done|]. split; [|apply page_divide; lia].
  apply (block_divide _ _ _ _ _ _ (inv_rep _ _ _ Hinv) Ha).
Qed.

Lemma used_disjoint a b c d : used live !! a = Some c → used live !! b = Some d → a ≠ b →
  a + bsize c <= b ∨ b + bsize d <= a.
Proof.
  intros Ha%used_lookup Hb%used_lookup Hne. pose proof (rep_tiled _ _ _ (inv_rep _ _ _ Hinv)) as Ht.
  destruct (Z.lt_trichotomy a b) as [Hlt|[?|Hlt]]; [left|done|right]; by eapply (tiled_disjoint _ _ Ht).
Qed.

Lemma used_u64 a c off : used live !! a = Some c → 0 <= off < bsize c → (a + off)%u64 = a + off.
Proof.
  intros Ha Hoff. destruct (used_bounds a c Ha) as (?&?&?&?&?&_). rewrite VA_48_HEAP_val in *.
  unfold uadd. apply u64_small. lia.
Qed.

(** Writing into the payload of a block in use. *)
Lemma inv_store n a c x v : used live !! a = Some c → a + 24 <= x → x + Z.of_nat n <= a + bsize c →
  heap_inv k live (set_mem (store n x v (h_mem s)) s).
Proof.
  intros Ha Hx Hn. destruct Hinv as [Hr Hs Hco Hroom]. split; [|done|done|done].
  apply rep_same_headers; [done|]. intros b d st Hb i Hi. symmetry. apply load8_store_ne.
  pose proof (rep_tiled _ _ _ Hr) as Ht. pose proof (block_bounds _ _ Ht _ _ _ Hb).
  apply used_lookup in Ha. destruct (Z.lt_trichotomy a b) as [Hlt|[->|Hlt]]; [|lia|].
  - pose proof (tiled_disjoint _ _ Ht _ _ _ _ _ _ Ha Hb Hlt). lia.
  - pose proof (tiled_disjoint _ _ Ht _ _ _ _ _ _ Hb Ha Hlt). lia.
Qed.

Lemma wp_block_access a c x n (Q : unit → heap P → Prop) : used live !! a = Some c → a <= x → 0 < n →
  x + n <= a + bsize c → Q () s → wp (access x n) Q s.
Proof.
  intros Ha Hx Hn Hxn HQ. destruct (used_bounds a c Ha) as (?&?&_). unfold access. wp_step. wp_step.
  rewrite !(rep_mapped _ _ _ (inv_rep _ _ _ Hinv)) by lia. by apply wp_ret.
Qed.
End geometry.

(** A word of a record. *)
Section cells.
Context {P : Type} `{PageSourceSpec P}.
Implicit Types s : allocs P.

(** The state after a store. *)
Definition poke (x v : Z) (s : allocs P) : allocs P :=
  set_heap (set_mem (store 8 x v (h_mem (al_heap s))) (al_heap s)) s.

Lemma wp_on_heap {A} (m : M (heap P) A) (Q : A → allocs P → Prop) s :
  wp m (λ a h, Q a (set_heap h s)) (al_heap s) → wp (on_heap m) Q s.
Proof. apply wp_zoom. Qed.

Lemma set_heap_id s : set_heap (al_heap s) s = s.
Proof. by destruct s. Qed.

Lemma wp_aread k live s a c x (Q : Z → allocs P → Prop) : heap_inv k live (al_heap s) → used live !! a = Some c →
  a <= x → x + 8 <= a + bsize c → Q (load 8 (h_mem (al_heap s)) x) s → wp (aread x) Q s.
Proof.
  intros Hinv Ha Hx Hx8 HQ. apply wp_on_heap. unfold hread. wp_step.
  eapply wp_block_access; [exact Hinv|exact Ha|done..|]. apply wp_read. by rewrite set_heap_id.
Qed.

Lemma wp_awrite k live s a c x v (Q : unit → allocs P → Prop) : heap_inv k live (al_heap s) → used live !! a = Some c →
  a + 24 <= x → x + 8 <= a + bsize c → (heap_inv k live (al_heap (poke x v s)) → Q () (poke x v s)) → wp (awrite x v) Q s.
Proof.
  intros Hinv Ha Hx Hx8 HQ. apply wp_on_heap. unfold hwrite. wp_step.
  eapply wp_block_access; [exact Hinv|exact Ha|lia|done|done|]. apply wp_write. apply HQ. by eapply (inv_store Hinv 8).
Qed.

Lemma poke_ne x v s y n : y + Z.of_nat n <= x ∨ x + 8 <= y →
  load n (h_mem (al_heap (poke x v s))) y = load n (h_mem (al_heap s)) y.
Proof. apply (load_store_ne n 8). Qed.

Lemma poke_eq x v s : is_u64 v → load 8 (h_mem (al_heap (poke x v s))) x = v.
Proof. apply load64_store64_eq. Qed.

Lemma poke_outside x v s y : y < x ∨ x + 8 <= y → load8 (h_mem (al_heap (poke x v s))) y = load8 (h_mem (al_heap s)) y.
Proof. intros Hy. apply load8_store_ne. change (Z.of_nat 8) with 8. lia. Qed.
End cells.

(* --------------------------------------------------------------------- *)
(** ** Layouts *)

Lemma layout_live live live' σ free pools : (∀ a c, used live !! a = Some c → used live' !! a = Some c) →
  layout live σ free pools → layout live' σ free pools.
Proof.
  intros Hl [Hp ? ? ? Hok ? ?]. split; [by intros a Ha; apply Hl, Hp|done|done|done| |done|done].
  intros p l A Hpl HA. destruct (Hok p l A Hpl HA) as [[? ? ?] ?]. split; [|done]. split; [by apply Hl|done|done].
Qed.

Lemma layout_delete live σ free pools p : layout live σ free pools → layout live (delete p σ) free pools.
Proof.
  intros [? Hs ? Hu Hok Hnd Hap]. split; [done| |done| | | |].
  - intros q [?|Hq]; apply Hs; [by left|]. right. destruct Hq as [l [_ ?]%lookup_delete_Some]. by exists l.
  - intros q Hq. apply lookup_delete_None. right. by apply Hu.
  - intros q l A [_ ?]%lookup_delete_Some. by apply (Hok q).
  - intros q l [_ ?]%lookup_delete_Some. by apply (Hnd q).
  - intros q r l l' A B [_ ?]%lookup_delete_Some [_ ?]%lookup_delete_Some. by eapply Hap.
Qed.

(** The areas [l] go to the allocator [p]. *)
Record fits (live : tiling) (σ : arenas) (free pools : list Z) (p : Z) (l : list arena) : Prop := {
  fi_slot : slot_of pools p;
  fi_used : p ∉ free;
  fi_ok A : A ∈ l → arena_ok live A ∧ ar_blk A ∉ pools;
  fi_nodup : NoDup (ar_blk <$> l);
  fi_apart q l' A B : q ≠ p → σ !! q = Some l' → A ∈ l → B ∈ l' → ar_blk A ≠ ar_blk B;
}.

Lemma layout_insert live σ free pools p l : layout live (delete p σ) free pools → fits live σ free pools p l →
  layout live (<[p := l]> σ) free pools.
Proof.
  intros [? Hs ? Hu Hok Hnd Hap] [? ? ? ? Hf].
  assert (∀ q l', q ≠ p → σ !! q = Some l' → delete p σ !! q = Some l') as Hd.
  { intros q l' Hq Hl. by rewrite lookup_delete_ne. }
  split; [done| |done| | | |].
  - intros q [Hq|[l' [[<- _]|[Hq ?]]%lookup_insert_Some]]; [apply Hs; by left|done|].
    apply Hs. right. exists l'. by apply Hd.
  - intros q Hq. destruct (decide (q = p)) as [->|Hne]; [done|]. rewrite lookup_insert_ne by done.
    specialize (Hu q Hq). by rewrite lookup_delete_ne in Hu.
  - intros q l' A [[<- <-]|[Hq ?]]%lookup_insert_Some; [naive_solver|]. apply (Hok q). by apply Hd.
  - intros q l' [[<- <-]|[Hq ?]]%lookup_insert_Some; [done|]. apply (Hnd q). by apply Hd.
  - intros q r l' l'' A B [[<- <-]|[Hq Hl']]%lookup_insert_Some [[<- <-]|[Hr Hl'']]%lookup_insert_Some HA HB E.
    + done.
    + by destruct (Hf r l'' A B).
    + by destruct (Hf q l' B A).
    + eapply (Hap q r l' l'' A B); [by apply Hd|by apply Hd|done..].
Qed.

Lemma layout_fits live σ free pools p l : layout live σ free pools → σ !! p = Some l → fits live σ free pools p l.
Proof.
  intros [? Hs ? Hu Hok Hnd Hap] Hp. split.
  - apply Hs. right. by exists l.
  - intros Hf. by rewrite (Hu p Hf) in Hp.
  - intros A. by apply (Hok p).
  - by apply (Hnd p).
  - intros q l' A B Hq Hl' HA HB E. by destruct (Hap p q l l' A B Hp Hl' HA HB E).
Qed.

(** The newest area changes, the block stays. *)
Lemma fits_head live σ free pools p A A' l : fits live σ free pools p (A :: l) → ar_blk A' = ar_blk A → arena_ok live A' →
  fits live σ free pools p (A' :: l).
Proof.
  intros [? ? Hok Hnd Hap] E Hok'. split; [done|done| | |].
  - intros B [->|HB]%elem_of_cons; [|by apply Hok; right]. split; [done|]. rewrite E. by apply Hok; left.
  - cbn [fmap list_fmap] in *. by rewrite E.
  - intros q l' B C Hq Hl' [->|HB]%elem_of_cons; [rewrite E; eapply Hap; [done|done|by left]|].
    eapply Hap; [done|done|by right].
Qed.

(** A fresh area on top. *)
Lemma fits_push live σ free pools p A l : fits live σ free pools p l → arena_ok live A → ar_blk A ∉ pools →
  (∀ q l' B, (<[p := l]> σ) !! q = Some l' → B ∈ l' → ar_blk B ≠ ar_blk A) → fits live σ free pools p (A :: l).
Proof.
  intros [? ? Hok Hnd Hap] Hok' Hp Hnew. split; [done|done| | |].
  - intros B [->|HB]%elem_of_cons; [done|]. by apply Hok.
  - cbn [fmap list_fmap]. apply list.NoDup_cons. split; [|done]. intros (B&E&HB)%list_elem_of_fmap.
    apply (Hnew p l B); [by rewrite lookup_insert_eq|done|done].
  - intros q l' B C Hq Hl' [->|HB]%elem_of_cons HC.
    + apply not_eq_sym, (Hnew q l'); [by rewrite lookup_insert_ne|done].
    + by eapply Hap.
Qed.

(* --------------------------------------------------------------------- *)
(** ** The records do not overlap *)

Section apart.
Context {P : Type} `{PageSourceSpec P}.
Context {k : Z} {live : tiling} {s : heap P} (Hinv : heap_inv k live s).
Context {σ : arenas} {free pools : list Z} (Hly : layout live σ free pools).

Lemma slot_block p : slot_of pools p → ∃ a, a ∈ pools ∧ used live !! a = Some 0 ∧ a + 24 <= p ∧ p + 16 <= a + 4096 ∧
  (256 | p - 24) ∧ (8 | p).
Proof.
  intros (a&i&Ha&Hi&->). pose proof (ly_pools _ _ _ _ Hly a Ha) as Hu.
  destruct (used_bounds Hinv a 0 Hu) as (_&_&_&_&_&[q ->]&_). exists (q * 4096).
  split; [done|]. split; [done|]. split; [lia|]. split; [lia|].
  split; [exists (q * 16 + i); lia|exists (q * 512 + 3 + 32 * i); lia].
Qed.

Lemma slots_apart p q : slot_of pools p → slot_of pools q → p ≠ q → p + 16 <= q ∨ q + 16 <= p.
Proof.
  intros (?&_&_&_&_&[i Hi]&_)%slot_block (?&_&_&_&_&[j Hj]&_)%slot_block Hne. lia.
Qed.

(** The records outside a block that is neither a pool nor an area. *)
Lemma book_off_block b c x : used live !! b = Some c → b ∉ pools →
  (∀ q l A, σ !! q = Some l → A ∈ l → ar_blk A ≠ b) → book σ free x → x < b ∨ b + bsize c <= x.
Proof.
  intros Hb Hp Hnew [(p&Hp'&Hx)|(p&l&A&Hl&HA&Hx)].
  - destruct (slot_block p) as (a&Ha&Hu&?&?&_); [by apply (ly_slots _ _ _ _ Hly)|].
    assert (a ≠ b) as Hne by (by intros ->). pose proof (used_disjoint Hinv a b 0 c Hu Hb Hne) as Hd.
    change (bsize 0) with 4096 in Hd. lia.
  - destruct (ly_ok _ _ _ _ Hly p l A Hl HA) as [[Hu ? _] _].
    pose proof (used_disjoint Hinv _ b _ c Hu Hb (Hnew p l A Hl HA)) as Hd.
    destruct (used_bounds Hinv _ _ Hu) as (_&_&?&_). unfold ar_area, ar_base, ar_guard in Hx. lia.
Qed.

(** An area outside an allocator record. *)
Lemma area_off_slot p q l A x : slot_of pools p → σ !! q = Some l → A ∈ l → ar_blk A <= x < ar_blk A + bsize (ar_class A) →
  x < p ∨ p + 16 <= x.
Proof.
  intros Hp Hl HA Hx. destruct (slot_block p Hp) as (a&Ha&Hu&?&?&_).
  destruct (ly_ok _ _ _ _ Hly q l A Hl HA) as [[Hu' ? _] Hnp].
  assert (ar_blk A ≠ a) as Hne by (by intros <-). pose proof (used_disjoint Hinv _ a _ 0 Hu' Hu Hne) as Hd.
  change (bsize 0) with 4096 in Hd. lia.
Qed.

Lemma record_in_block q l A x : σ !! q = Some l → A ∈ l →
  (ar_area A <= x < ar_base A ∨ ar_guard A <= x < ar_guard A + 8) → ar_blk A <= x < ar_blk A + bsize (ar_class A).
Proof.
  intros Hl HA Hx. destruct (ly_ok _ _ _ _ Hly q l A Hl HA) as [[Hu _ _] _].
  destruct (used_bounds Hinv _ _ Hu) as (_&_&?&_). unfold ar_area, ar_base, ar_guard in Hx. lia.
Qed.

(** The other records outside an allocator record. *)
Lemma book_off_slot p x : slot_of pools p → p ∉ free → σ !! p = None → book σ free x → x < p ∨ p + 16 <= x.
Proof.
  intros Hp Hpf Hps [(q&Hq&Hx)|(q&l&A&Hl&HA&Hx)].
  - assert (p ≠ q) as Hne by (intros ->; destruct Hq as [?|[??]]; congruence).
    destruct (slots_apart p q) as [?|?]; [done|by apply (ly_slots _ _ _ _ Hly)|done|lia|lia].
  - eapply area_off_slot; [done|exact Hl|exact HA|]. by eapply record_in_block.
Qed.

(** Regions lie between the record of their area and its guard. *)
Lemma region_block x n : region σ x n → ∃ p l A, σ !! p = Some l ∧ A ∈ l ∧ arena_ok live A ∧ ar_blk A ∉ pools ∧
  (x, n) ∈ ar_regs A ∧ ar_base A <= x ∧ 0 <= n ∧ x + n <= ar_base A + ar_use A ∧ ar_base A + ar_use A <= ar_guard A.
Proof.
  intros (p&l&A&Hl&HA&Hr). destruct (ly_ok _ _ _ _ Hly p l A Hl HA) as [Hok Hp]. exists p, l, A.
  destruct Hok as [? Hu Hs]. destruct (stacked_in _ _ _ _ _ Hs Hr) as (?&?&?).
  split_and!; try done. unfold ar_base, ar_guard, ar_len in *. lia.
Qed.
End apart.
