(* ===== verification/MmAllocatorOps.v ===== *)
(** The operations of the object allocator on states that stand for arenas:
    records taken from and given to the chain of free ones, pools cut, areas
    added, regions handed out, allocators freed. *)
From S2P Require Import Prelude Memory Util MmCore MmHeap HeapTiling.
From S2P Require Import MmHeapRep MmHeapLists MmHeapOps MmHeapAlloc MmHeapFree MmHeapTop.
From S2P Require Import MmHeapClient MmAllocator MmAllocatorRep.

(** The blocks in use keep their bytes, the records apart. *)
Definition calm (live : tiling) (σ : arenas) (free : list Z) (m m' : memory) : Prop :=
  ∀ a c x, used live !! a = Some c → a <= x < a + bsize c → ¬ book σ free x → load8 m' x = load8 m x.

Section ops.
Context {P : Type} `{PageSourceSpec P}.
Implicit Types (s : allocs P) (live : tiling) (σ : arenas) (free pools : list Z).

(** Every address of a record is a word that is not null. *)
Lemma slot_u64 k live σ free pools s p : alloc_inv k live σ free pools s → slot_of pools p →
  is_u64 p ∧ p ≠ NULL ∧ (p + 8)%u64 = p + 8 ∧ (8 | p).
Proof.
  intros [Hi Hly _] (a&_&Hu&?&?&_&Hd)%(slot_block Hi Hly). destruct (used_bounds Hi a 0 Hu) as (?&?&_&?&_).
  change (bsize 0) with 4096 in *. rewrite VA_48_HEAP_val in *. unfold is_u64, NULL.
  split; [lia|]. split; [lia|]. split; [|done]. unfold uadd. apply u64_small. lia.
Qed.

Lemma free_slot k live σ free pools s p : alloc_inv k live σ free pools s → p ∈ free → slot_of pools p.
Proof. intros Hi Hp. apply (ly_slots _ _ _ _ (ai_layout _ _ _ _ _ _ Hi)). by left. Qed.

Lemma head_word k live σ free pools s : alloc_inv k live σ free pools s →
  is_u64 (_free_alls s) ∧ (_free_alls s = NULL ↔ free = []).
Proof.
  intros Hi. pose proof (sd_free _ _ _ _ (ai_stored _ _ _ _ _ _ Hi)) as Hs. destruct free as [|p free].
  - cbn [lseg] in Hs. rewrite Hs. split; [unfold is_u64, NULL; lia|done].
  - destruct Hs as [-> _]. destruct (slot_u64 _ _ _ _ _ _ p Hi) as (?&?&_).
    { eapply free_slot; [done|by left]. }
    split; [done|]. split; [done|]. intros [=].
Qed.

(** The reads and writes of an allocator record. *)
Lemma wp_slot_read k live σ free pools s p off (Q : Z → allocs P → Prop) : heap_inv k live (al_heap s) →
  layout live σ free pools → slot_of pools p → 0 <= off <= 8 → Q (load 8 (h_mem (al_heap s)) (p + off)) s → wp (aread (p + off)) Q s.
Proof.
  intros Hi Hly (a&_&Hu&?&?&_)%(slot_block Hi Hly) Hoff HQ.
  eapply wp_aread; [exact Hi|exact Hu|lia|change (bsize 0) with 4096; lia|done].
Qed.

Lemma wp_slot_write k live σ free pools s p off v (Q : unit → allocs P → Prop) :
  heap_inv k live (al_heap s) → layout live σ free pools →
  slot_of pools p → 0 <= off <= 8 → (heap_inv k live (al_heap (poke (p + off) v s)) → Q () (poke (p + off) v s)) →
  wp (awrite (p + off) v) Q s.
Proof.
  intros Hi Hly (a&_&Hu&?&?&_)%(slot_block Hi Hly) Hoff HQ.
  eapply wp_awrite; [exact Hi|exact Hu|lia|change (bsize 0) with 4096; lia|done].
Qed.

(** Records that are stored stay so when a record outside them changes. *)
Lemma stored_poke_slot k live σ free pools s p off v head : heap_inv k live (al_heap s) → layout live σ free pools →
  slot_of pools p → p ∉ free → σ !! p = None → 0 <= off <= 8 →
  stored (h_mem (al_heap s)) σ free head → stored (h_mem (al_heap (poke (p + off) v s))) σ free head.
Proof.
  intros Hi Hly Hp Hf Hs Hoff. apply stored_agree. intros x Hx. symmetry. apply poke_outside.
  destruct (book_off_slot Hi Hly p x) as [?|?]; [done..|lia|lia].
Qed.

(** The record [p] goes to the front of the free chain. *)
Lemma inv_push_free k live σ free pools s p : alloc_inv k live σ free pools s → slot_of pools p → p ∉ free →
  σ !! p = None → alloc_inv k live σ (p :: free) pools (set_free_alls p (poke (p + 8) (_free_alls s) s)).
Proof.
  intros Hinv Hp Hf Hs. pose proof Hinv as [Hi Hly Hst]. pose proof (slot_block Hi Hly p Hp) as (a&_&Hu&?&?&_).
  split.
  - eapply (inv_store Hi 8); [exact Hu|lia|change (bsize 0) with 4096; lia].
  - destruct Hly as [? Hsl ? Hun ? ? ?]. split; try done.
    + intros q [[->|Hq]%elem_of_cons|Hq]; [done|apply Hsl; by left|apply Hsl; by right].
    + by constructor.
    + intros q [->|Hq]%elem_of_cons; [done|by apply Hun].
  - assert (stored (h_mem (al_heap (poke (p + 8) (_free_alls s) s))) σ free (_free_alls s)) as [Hfr Har]
      by (by eapply stored_poke_slot).
    split; [|exact Har]. cbn [lseg]. split; [done|]. change (al_heap (set_free_alls _ ?t)) with (al_heap t).
    rewrite poke_eq; [done|]. by apply (head_word _ _ _ _ _ _ Hinv).
Qed.

Lemma slot_calm live σ free m m' p : p ∈ free ∨ is_Some (σ !! p) →
  (∀ x, x < p ∨ p + 16 <= x → load8 m' x = load8 m x) → calm live σ free m m'.
Proof.
  intros Hp Hm a c x _ _ Hx. apply Hm. destruct (decide (p <= x < p + 16)); [|lia].
  destruct Hx. left. exists p. done.
Qed.

Lemma fits_nil live σ free pools p : slot_of pools p → p ∉ free → fits live σ free pools p [].
Proof.
  intros Hp Hf. split; [done|done|by intros A ?%elem_of_nil|by constructor|by intros q l' A B _ _ ?%elem_of_nil].
Qed.

(* --------------------------------------------------------------------- *)
(** ** A new allocator *)

(** The end of [mm_allocator_new]: the record at the head of the chain is
    taken and cleared. *)
Definition take_allocator (all : Z) : M (allocs P) Z :=
  kernel_assert_d (negb (all =? NULL)) ;;
  next ← get_next_all all;
  modify (set_free_alls next) ;;
  set_next_all all NULL ;;
  _allocator_init all ;;
  mret all.

Lemma wp_take_allocator k live σ free pools s p (Q : Z → allocs P → Prop) :
  alloc_inv k live σ (p :: free) pools s →
  (∀ s', alloc_inv k live (<[p := []]> σ) free pools s' →
    (∀ x, x < p ∨ p + 16 <= x → load8 (h_mem (al_heap s')) x = load8 (h_mem (al_heap s)) x) → Q p s') →
  wp (take_allocator p) Q s.
Proof.
  intros Hinv HQ. pose proof Hinv as [Hi Hly Hst]. assert (slot_of pools p) as Hp by (eapply free_slot; [done|by left]).
  destruct (slot_u64 _ _ _ _ _ _ p Hinv Hp) as (?&Hp0&Hp8&_).
  pose proof Hst as [[_ Hfr] Har]. pose proof (ly_free_nodup _ _ _ _ Hly) as Hnd.
  apply list.NoDup_cons in Hnd as [Hpf Hnd].
  assert (σ !! p = None) as Hps by (apply (ly_free_unused _ _ _ _ Hly); by left).
  assert (layout live σ free pools) as Hly'.
  { destruct Hly as [? Hsl ? Hun ? ? ?]. split; try done.
    - intros q [Hq|Hq]; apply Hsl; [left; by right|by right].
    - intros q Hq. apply Hun. by right. }
  unfold take_allocator, get_next_all, set_next_all, _allocator_init, set_areas. rewrite !Hp8.
  wp_step. wp_step; [bsimp; by apply negb_true_iff, Z.eqb_neq|].
  wp_step. eapply wp_slot_read; [exact Hi|exact Hly|exact Hp|lia|]. wp_step. wp_step. wp_step.
  set (s1 := set_free_alls _ s).
  assert (stored (h_mem (al_heap s1)) σ free (load 8 (h_mem (al_heap s)) (p + 8))) as Hst1 by (by split).
  eapply (wp_slot_write k live σ free pools s1 p 8); [exact Hi|done|done|lia|]. intros Hi2.
  pose proof (stored_poke_slot k live σ free pools s1 p 8 NULL _ Hi Hly' Hp Hpf Hps ltac:(lia) Hst1) as Hst2.
  set (s2 := poke (p + 8) NULL s1) in *.
  wp_step. replace (awrite p NULL) with (awrite (P := P) (p + 0) NULL) by (by rewrite Z.add_0_r).
  eapply (wp_slot_write k live σ free pools s2 p 0); [exact Hi2|done|done|lia|]. intros Hi3.
  pose proof (stored_poke_slot k live σ free pools s2 p 0 NULL _ Hi2 Hly' Hp Hpf Hps ltac:(lia) Hst2) as Hst3.
  rewrite Z.add_0_r in Hi3, Hst3 |- *. wp_step. apply HQ.
  - split; [exact Hi3| |].
    + apply layout_insert; [by apply layout_delete|]. by apply fits_nil.
    + apply stored_insert; [by apply stored_delete|]. cbn [areas_at]. apply poke_eq. unfold is_u64, NULL. lia.
  - intros x Hx. rewrite poke_outside by lia. unfold s2. rewrite poke_outside by lia. done.
Qed.

(** A step of the heap below leaves the records alone. *)
Lemma book_used k live σ free pools h x : heap_inv k live h → layout live σ free pools → book σ free x →
  ∃ a c, used live !! a = Some c ∧ a <= x < a + bsize c.
Proof.
  intros Hi Hly [(p&Hp&Hx)|(p&l&A&Hl&HA&Hx)].
  - destruct (slot_block Hi Hly p) as (a&_&Hu&?&?&_); [by apply (ly_slots _ _ _ _ Hly)|]. exists a, 0.
    change (bsize 0) with 4096. split; [done|lia].
  - destruct (ly_ok _ _ _ _ Hly p l A Hl HA) as [[Hu ? _] _]. destruct (used_bounds Hi _ _ Hu) as (_&_&?&_).
    exists (ar_blk A), (ar_class A). unfold ar_area, ar_base, ar_guard in Hx. split; [done|lia].
Qed.

Lemma inv_heap_step k k' live live' σ free pools s h : alloc_inv k live σ free pools s → heap_inv k' live' h →
  (∀ a c, used live !! a = Some c → used live' !! a = Some c) → keeps (used live) (h_mem (al_heap s)) (h_mem h) →
  alloc_inv k' live' σ free pools (set_heap h s).
Proof.
  intros [Hi Hly Hst] Hi' Hu Hk. split; [done|by eapply layout_live|]. eapply stored_agree; [|exact Hst].
  intros x (a&c&Ha&Hx)%(book_used k live σ free pools (al_heap s)); [|done|done]. symmetry. by eapply Hk.
Qed.

(** A fresh heap block becomes a pool. *)
Lemma inv_more_pool k live σ free pools s a : alloc_inv k live σ free pools s → used live !! a = Some 0 →
  (∀ p l A, σ !! p = Some l → A ∈ l → ar_blk A ≠ a) → alloc_inv k live σ free (a :: pools) s.
Proof.
  intros [Hi [Hp Hsl Hnd Hun Hok ? ?] Hst] Hu Hnew. split; [done| |done]. split; try done.
  - intros b [->|Hb]%elem_of_cons; [done|by apply Hp].
  - intros p Hp'. destruct (Hsl p Hp') as (b&i&?&?&?). exists b, i. split; [by right|done].
  - intros p l A Hl HA. destruct (Hok p l A Hl HA) as [? Hnp]. split; [done|].
    intros [E|?]%elem_of_cons; [by eapply Hnew|done].
Qed.

(** The records cut from the pool [a] after [i] rounds. *)
Fixpoint cuts (a : Z) (i : nat) : list Z :=
  match i with O => [] | S i => a + 24 + 256 * Z.of_nat i :: cuts a i end.

Lemma elem_of_cuts a i p : p ∈ cuts a i → ∃ j, (j < i)%nat ∧ p = a + 24 + 256 * Z.of_nat j.
Proof.
  induction i as [|i IH]; [by intros ?%elem_of_nil|]. intros [->|Hp]%elem_of_cons; [by exists i; split; [lia|]|].
  destruct (IH Hp) as (j&?&->). exists j. split; [lia|done].
Qed.

(** What the cutting leads to: sixteen free records. *)
Definition pool_cut (k : Z) (live : tiling) (σ : arenas) (pools : list Z) (a : Z) (s s' : allocs P) : Prop :=
  alloc_inv k live σ (cuts a 16) (a :: pools) s' ∧
  ∀ x, x < a + 24 ∨ a + 4096 <= x → load8 (h_mem (al_heap s')) x = load8 (h_mem (al_heap s)) x.

(** The heap ends well before the end of the address space. *)
Lemma heap_end_gap k live (h : heap P) : heap_inv k live h → _heap_end h + 4096 < 18446744073709551616.
Proof.
  intros Hi. destruct (tiled_end _ _ (rep_tiled _ _ _ (inv_rep _ _ _ Hi))) as [[q Hq] He].
  change (bsize 15) with 134217728 in Hq. rewrite VA_48_HEAP_val in *. lia.
Qed.

(** The next record of the pool: whether it fits, and where the one after it is. *)
Lemma cut_fits a i p : p = a + 24 + 256 * i → 0 <= a → a + 4096 + 4096 < 18446744073709551616 → 0 <= i <= 16 →
  ((p + sizeof_allocator - (a + 24)%Z) <=? 4072)%u64 = (i <? 16).
Proof.
  intros -> Ha Ha' Hi. unfold sizeof_allocator. u64_unfold. rewrite (u64_small (_ + 16)), u64_small by lia.
  apply eq_true_iff_eq. rewrite Z.leb_le, Z.ltb_lt. lia.
Qed.

Lemma wp_cut_next a i (Q : Z → allocs P → Prop) s : (4096 | a) → 0 <= a → a + 4096 + 4096 < 18446744073709551616 →
  0 <= i < 16 → let p := a + 24 + 256 * i in Q (a + 24 + 256 * (i + 1)) s →
  wp (mm_align_up (p + sizeof_allocator * sizeof_allocator)%u64 sizeof_ptr) Q s.
Proof.
  intros [q ->] Ha Ha' Hi p HQ. unfold sizeof_allocator, sizeof_ptr, p. change 8 with (2 ^ 3).
  apply wp_align_up; [lia|apply u64_range|]. u64_unfold. change (u64 (16 * 16)) with 256.
  rewrite (u64_small (_ + 256)) by lia. rewrite u64_small by lia. change (2 ^ 3) with 8.
  replace (_ - _) with (q * 4096 + 24 + 256 * (i + 1)); [done|zlia].
Qed.

Lemma wp_cut_round k live σ pools a i s (Q : Z + unit → allocs P → Prop) : (i < 16)%nat → used live !! a = Some 0 →
  a + 4096 + 4096 < 18446744073709551616 →
  let p := a + 24 + 256 * Z.of_nat i in σ !! p = None → alloc_inv k live σ (cuts a i) (a :: pools) s →
  (∀ s', alloc_inv k live σ (cuts a (S i)) (a :: pools) s' →
    (∀ x, x < a + 24 ∨ a + 4096 <= x → load8 (h_mem (al_heap s')) x = load8 (h_mem (al_heap s)) x) →
    Q (inl (a + 24 + 256 * Z.of_nat (S i))) s') →
  wp (cut_allocator (a + 24) 4072 p) Q s.
Proof.
  intros Hi Hu Ha p Hps Hinv HQ. destruct (used_bounds (ai_heap _ _ _ _ _ _ Hinv) a 0 Hu) as (Hlo&_&_&_&_&Hd&_).
  rewrite VA_48_HEAP_val in Hlo. assert (slot_of (a :: pools) p) as Hp by (exists a, (Z.of_nat i); split; [by left|]; split; [lia|done]).
  destruct (slot_u64 _ _ _ _ _ _ p Hinv Hp) as (?&_&Hp8&_).
  assert (p ∉ cuts a i) as Hpf by (intros (j&?&?)%elem_of_cuts; lia).
  pose proof (inv_push_free _ _ _ _ _ _ _ Hinv Hp Hpf Hps) as Hinv'.
  unfold cut_allocator. rewrite (cut_fits a (Z.of_nat i) p eq_refl) by lia. rewrite (proj2 (Z.ltb_lt (Z.of_nat i) 16)) by lia.
  wp_step. wp_step. wp_step. unfold set_next_all. rewrite Hp8.
  eapply wp_slot_write; [apply Hinv|apply Hinv|exact Hp|lia|]. intros _. wp_step. wp_step. wp_step.
  apply wp_cut_next; [done|lia|lia|lia|]. wp_step.
  replace (Z.of_nat i + 1) with (Z.of_nat (S i)) by lia. apply HQ; [exact Hinv'|].
  intros x Hx. apply poke_outside. lia.
Qed.

Lemma wp_cut k live σ pools a s0 (Q : unit → allocs P → Prop) n : used live !! a = Some 0 →
  a + 4096 + 4096 < 18446744073709551616 → (∀ j, (j < 16)%nat → σ !! (a + 24 + 256 * Z.of_nat j) = None) →
  (∀ s', pool_cut k live σ pools a s0 s' → Q () s') → ∀ i fuel s, (i + n = 16)%nat → (n < fuel)%nat →
  alloc_inv k live σ (cuts a i) (a :: pools) s →
  (∀ x, x < a + 24 ∨ a + 4096 <= x → load8 (h_mem (al_heap s)) x = load8 (h_mem (al_heap s0)) x) →
  wp (loop fuel (cut_allocator (a + 24) 4072) (a + 24 + 256 * Z.of_nat i)) Q s.
Proof.
  intros Hu Ha Hnew HQ. induction n as [|n IH]; intros i fuel s Hi Hf Hinv Hout; destruct fuel as [|fuel]; try lia;
    apply wp_loop_step.
  - destruct (used_bounds (ai_heap _ _ _ _ _ _ Hinv) a 0 Hu) as (Hlo&_). rewrite VA_48_HEAP_val in Hlo.
    unfold cut_allocator. rewrite (cut_fits a (Z.of_nat i) _ eq_refl) by lia.
    rewrite (proj2 (Z.ltb_ge (Z.of_nat i) 16)) by lia. apply wp_ret, HQ. assert (i = 16%nat) as -> by lia. done.
  - eapply wp_cut_round; [lia|done|done|by apply Hnew; lia|exact Hinv|]. intros s' Hinv' Hout'.
    apply IH; [lia|lia|exact Hinv'|]. intros x Hx. by rewrite Hout', Hout.
Qed.

Lemma heap_inv_mono k k' live (h : heap P) : heap_inv k live h → 0 <= k' <= k → heap_inv k' live h.
Proof. intros [? ? ? ?] Hk. split; try done. by eapply room_mono. Qed.

Lemma alloc_inv_mono k k' live σ free pools s : alloc_inv k live σ free pools s → 0 <= k' <= k →
  alloc_inv k' live σ free pools s.
Proof. intros [? ? ?] Hk. split; try done. by eapply heap_inv_mono. Qed.

(** A heap block that is not in use belongs to no allocator. *)
Lemma fresh_block live σ free pools a : layout live σ free pools → used live !! a = None →
  a ∉ pools ∧ ∀ p l A, σ !! p = Some l → A ∈ l → ar_blk A ≠ a.
Proof.
  intros Hly Ha. split.
  - intros Hp. rewrite (ly_pools _ _ _ _ Hly a Hp) in Ha. done.
  - intros p l A Hl HA E. destruct (ly_ok _ _ _ _ Hly p l A Hl HA) as [[Hu _ _] _]. rewrite E, Ha in Hu. done.
Qed.

(** The records of a fresh pool are no allocators. *)
Lemma fresh_slots k live σ free pools (h : heap P) a j : heap_inv k live h → layout live σ free pools →
  used live !! a = Some 0 → a ∉ pools → (j < 16)%nat → σ !! (a + 24 + 256 * Z.of_nat j) = None.
Proof.
  intros Hi Hly Hu Ha Hj. apply eq_None_not_Some. intros Hs.
  destruct (slot_block Hi Hly (a + 24 + 256 * Z.of_nat j)) as (b&Hb&Hub&?&?&_).
  { apply (ly_slots _ _ _ _ Hly). by right. }
  assert (a ≠ b) as Hne by (by intros ->). pose proof (used_disjoint Hi a b 0 0 Hu Hub Hne) as Hd.
  change (bsize 0) with 4096 in Hd. lia.
Qed.

(** What a heap allocation makes of the state. *)
Record heap_grown (k : Z) (live : tiling) (σ : arenas) (free pools : list Z) (s : allocs P) (a c : Z)
    (live' : tiling) (s' : allocs P) : Prop := {
  hg_inv : alloc_inv k live' σ free pools s';
  hg_used : used live' = <[a := c]> (used live);
  hg_fresh : used live !! a = None;
  hg_new : a ∉ pools ∧ ∀ p l A, σ !! p = Some l → A ∈ l → ar_blk A ≠ a;
  hg_keeps : keeps (used live) (h_mem (al_heap s)) (h_mem (al_heap s'));
  hg_free : _free_alls s' = _free_alls s;
}.

Lemma wp_grow k live σ free pools s len (Q : Z * option Z → allocs P → Prop) :
  alloc_inv (k + 1) live σ free pools s → 0 <= k → 0 < len <= bsize 15 - 24 →
  (∀ a c live' s', heap_grown k live σ free pools s a c live' s' → len <= bsize c - 24 →
    (c = 0 ∨ bsize (c - 1) < len + 24) → Q (a + 24, Some (bsize c - 24)) s') →
  wp (on_heap (mm_heap_alloc len)) Q s.
Proof.
  intros Hinv Hk Hlen HQ. apply wp_on_heap. eapply wp_heap_alloc; [apply Hinv|done|done|].
  intros a c live' h [Hi Hu Hf Hfit Hsm Hkeep]. apply (HQ a c live' (set_heap h s)); [|done|done].
  split; [|done|done|by eapply fresh_block; [apply Hinv|]|done|done].
  eapply inv_heap_step; [exact Hinv|done| |done]. intros b d Hb. rewrite Hu, lookup_insert_ne; [done|congruence].
Qed.

Record renewed (k : Z) (live : tiling) (σ : arenas) (free : list Z) (s : allocs P) (p : Z) (s' : allocs P) : Prop := {
  rn_inv : ∃ live' free' pools', alloc_inv k live' (<[p := []]> σ) free' pools' s' ∧
    ∀ a c, used live !! a = Some c → used live' !! a = Some c;
  rn_fresh : σ !! p = None;
  rn_calm : calm live σ free (h_mem (al_heap s)) (h_mem (al_heap s'));
}.

Lemma wp_mm_allocator_new k live σ free pools s (Q : Z → allocs P → Prop) :
  alloc_inv (k + 1) live σ free pools s → 0 <= k → (∀ p s', renewed k live σ free s p s' → Q p s') →
  wp mm_allocator_new Q s.
Proof.
  intros Hinv Hk HQ. destruct (head_word _ _ _ _ _ _ Hinv) as [_ Hnull]. unfold mm_allocator_new. wp_step. wp_step.
  wp_step. destruct (Z.eqb_spec (_free_alls s) NULL) as [E|E].
  - apply Hnull in E as ->. unfold mm_heap_alloc_minimum. wp_step. eapply wp_grow; [exact Hinv|done| |].
    { change (bsize 15) with 134217728. lia. }
    intros a c live' s1 Hg Hfit Hc. pose proof Hg as [Hinv1 Hu1 Hf1 [Hnp Hna] Hkeep Hfree1].
    assert (used live' !! a = Some c) as Hua by (rewrite Hu1; apply lookup_insert_eq).
    pose proof (heap_end_gap _ _ _ (ai_heap _ _ _ _ _ _ Hinv1)) as Hgap.
    destruct (used_bounds (ai_heap _ _ _ _ _ _ Hinv1) a c Hua) as (Hlo&Hhi&_&_&Hc16&[q Hq]&_). rewrite VA_48_HEAP_val in Hlo.
    assert (c = 0) as ->.
    { destruct Hc as [?|Hlt]; [done|]. destruct (decide (c = 0)) as [?|Hne]; [done|].
      pose proof (bsize_bounds (c - 1) ltac:(lia)). lia. }
    change (bsize 0 - 24) with 4072 in *. change (bsize 0) with 4096 in *. cbv beta iota. wp_step.
    change sizeof_ptr with (2 ^ 3). apply wp_align_up; [lia|unfold is_u64; lia|].
    assert (u64 (a + 24 + (2 ^ 3 - 1)) - u64 (a + 24 + (2 ^ 3 - 1)) `mod` 2 ^ 3 = a + 24) as ->.
    { change (2 ^ 3) with 8. rewrite u64_small by lia. subst a. zlia. }
    wp_step. eapply wp_of_option; [done|]. wp_step. wp_step.
    { pose proof (cut_fits a 0 (a + 24) ltac:(lia) ltac:(lia) ltac:(lia) ltac:(lia)) as ->. done. }
    wp_step. replace (a + 24) with (a + 24 + 256 * Z.of_nat 0) at 2 by lia.
    eapply (wp_cut k live' σ pools a s1 _ 16); [done|lia| | |done|lia| |done].
    { intros j Hj. eapply fresh_slots; [apply Hinv1|apply Hinv1|done..]. }
    2:{ apply inv_more_pool; [done|done|done]. }
    intros s2 [Hinv2 Hout2]. wp_step. pose proof (sd_free _ _ _ _ (ai_stored _ _ _ _ _ _ Hinv2)) as [-> _].
    eapply wp_take_allocator; [exact Hinv2|]. intros s3 Hinv3 Hout3. apply HQ. split.
    + exists live', (cuts a 15), (a :: pools). split; [done|]. intros b d Hb. rewrite Hu1, lookup_insert_ne; [done|congruence].
    + eapply (fresh_slots k live' σ [] pools _ a 15); [apply Hinv1|apply Hinv1|done|done|lia].
    + intros b d x Hb Hx _. assert (a ≠ b) as Hab by congruence.
      assert (used live' !! b = Some d) as Hb' by (by rewrite Hu1, lookup_insert_ne).
      pose proof (used_disjoint (ai_heap _ _ _ _ _ _ Hinv1) a b 0 d Hua Hb' Hab) as Hd. change (bsize 0) with 4096 in Hd.
      rewrite Hout3 by lia. rewrite Hout2 by lia. by eapply Hkeep.
  - wp_step. destruct free as [|p free]; [by destruct E; apply Hnull|].
    pose proof (sd_free _ _ _ _ (ai_stored _ _ _ _ _ _ Hinv)) as [-> _].
    eapply wp_take_allocator; [apply (alloc_inv_mono (k + 1) k); [exact Hinv|lia]|]. intros s' Hinv' Hout. apply HQ. split.
    + by exists live, free, pools.
    + apply (ly_free_unused _ _ _ _ (ai_layout _ _ _ _ _ _ Hinv)). by left.
    + eapply slot_calm; [by left; left|done].
Qed.

(* --------------------------------------------------------------------- *)
(** ** A new area *)

(** The records when only the block [b] and the record [p] changed. *)
Lemma stored_area k live σ free pools h m' p l b c head : heap_inv k live h → layout live σ free pools →
  used live !! b = Some c → b ∉ pools → (∀ q l A, σ !! q = Some l → A ∈ l → ar_blk A ≠ b) →
  σ !! p = Some l → stored (h_mem h) σ free head →
  (∀ x, (x < b ∨ b + bsize c <= x) → (x < p ∨ p + 16 <= x) → load8 m' x = load8 (h_mem h) x) →
  stored m' (delete p σ) free head ∧ areas_at m' p (load 8 (h_mem h) p) l.
Proof.
  intros Hi Hly Hu Hb Hnew Hp Hst Hout. pose proof (layout_fits _ _ _ _ _ _ Hly Hp) as [Hps Hpf _ _ _]. split.
  - eapply stored_agree; [|by apply stored_delete]. intros x Hx. symmetry.
    pose proof (layout_delete _ _ _ _ p Hly) as Hly'. apply Hout.
    + eapply (book_off_block Hi Hly'); [done..| |exact Hx]. intros q l' A [_ Hq]%lookup_delete_Some. by apply (Hnew q l').
    + eapply (book_off_slot Hi Hly'); [done|done|apply lookup_delete_eq|exact Hx].
  - eapply areas_agree; [|by apply (sd_areas _ _ _ _ Hst)]. intros A HA. 
    assert (∀ x, ar_area A <= x < ar_base A ∨ ar_guard A <= x < ar_guard A + 8 → load8 (h_mem h) x = load8 m' x) as Hag.
    { intros x Hx. symmetry. apply Hout.
      - apply (book_off_block Hi Hly b c); [done..|]. right. exists p, l, A. done.
      - eapply (area_off_slot Hi Hly); [done|exact Hp|exact HA|]. by eapply (record_in_block Hi Hly). }
    split; intros x Hx; apply Hag; auto.
Qed.

(** The words of a fresh area, written one after the other. *)
Record area_written (m : memory) (p b c head : Z) (m' : memory) : Prop := {
  aw_block : load 8 m' (b + 24) = b + 56;
  aw_len : load 8 m' (b + 24 + 8) = bsize c - 64;
  aw_use : load 8 m' (b + 24 + 16) = 0;
  aw_prev : load 8 m' (b + 24 + 24) = head;
  aw_guard : load 8 m' (b + bsize c - 8) = p;
  aw_head : load 8 m' p = b + 24;
  aw_else x : (x < b + 24 ∨ b + bsize c <= x) → (x < p ∨ p + 8 <= x) → load8 m' x = load8 m x;
}.

Lemma load64_is_u64 m a : is_u64 (load 8 m a).
Proof. pose proof (load_range 8 m a) as Hr. exact Hr. Qed.

Lemma poke_free x v s : _free_alls (poke x v s) = _free_alls s.
Proof. done. Qed.

(** A write into the fresh block and on. *)
Lemma wp_area_write k live s b c off v (Q : unit → allocs P → Prop) : heap_inv k live (al_heap s) →
  used live !! b = Some c → 24 <= off → off + 8 <= bsize c →
  (heap_inv k live (al_heap (poke (b + off) v s)) → Q () (poke (b + off) v s)) → wp (awrite (b + off) v) Q s.
Proof. intros Hi Hu ? ? HQ. eapply wp_awrite; [exact Hi|exact Hu|lia|lia|exact HQ]. Qed.

Lemma wp_area_read k live s b c off (Q : Z → allocs P → Prop) : heap_inv k live (al_heap s) →
  used live !! b = Some c → 0 <= off → off + 8 <= bsize c →
  Q (load 8 (h_mem (al_heap s)) (b + off)) s → wp (aread (b + off)) Q s.
Proof. intros Hi Hu ? ? HQ. eapply wp_aread; [exact Hi|exact Hu|lia|lia|exact HQ]. Qed.

(** The addresses that the code computes inside a block in use. *)
Lemma area_words k live (h : heap P) b c : heap_inv k live h → used live !! b = Some c →
  ((b + 24)%Z + 8)%u64 = b + 32 ∧ ((b + 24)%Z + 16)%u64 = b + 40 ∧ ((b + 24)%Z + 24)%u64 = b + 48 ∧
  ((b + 24)%Z + sizeof_area)%u64 = b + 56 ∧ ((b + 24)%Z + (bsize c - 24)%Z - sizeof_ptr)%u64 = b + bsize c - 8 ∧
  ((b + bsize c - 8)%Z - (b + 56)%Z)%u64 = bsize c - 64 ∧ mm_align_check (b + bsize c - 8) sizeof_ptr = true ∧
  is_u64 (b + 24) ∧ is_u64 (b + 56) ∧ b + 24 ≠ NULL.
Proof.
  intros Hi Hu. destruct (used_bounds Hi b c Hu) as (Hlo&Hhi&Hb&_&_&[q ->]&[r Hr]). rewrite VA_48_HEAP_val in Hlo.
  pose proof (heap_end_gap _ _ _ Hi). unfold sizeof_area, sizeof_ptr, is_u64, NULL. u64_unfold.
  rewrite (u64_small (q * 4096 + 24 + (bsize c - 24))) by lia.
  rewrite !u64_small by lia. split_and!; try lia. apply align_check_true; [done|]. exists (q * 512 + r * 512 - 1). lia.
Qed.

Lemma wp_write_area k live σ free pools s1 p b c all_len block_min (Q : Z → allocs P → Prop) :
  heap_inv k live (al_heap s1) → layout live σ free pools → used live !! b = Some c → b ∉ pools → slot_of pools p →
  is_u64 p → all_len = Some (bsize c - 24) → block_min <= bsize c - 64 →
  (∀ s', heap_inv k live (al_heap s') → _free_alls s' = _free_alls s1 →
    area_written (h_mem (al_heap s1)) p b c (load 8 (h_mem (al_heap s1)) p) (h_mem (al_heap s')) → Q (b + 24) s') →
  wp (let area := b + 24 in
      set_block area (area + sizeof_area)%u64 ;;
      block_size ← of_option all_len;
      let guard := (area + block_size - sizeof_ptr)%u64 in
      kernel_assert (mm_align_check guard sizeof_ptr) ;;
      awrite guard p ;;
      block ← get_block area;
      set_block_len area (guard - block)%u64 ;;
      block_len ← get_block_len area;
      kernel_assert (block_min <=? block_len)%u64 ;;
      set_use_len area 0 ;;
      list ← get_areas p;
      set_prev_area area list ;;
      set_areas p area ;;
      mret area) Q s1.
Proof.
  intros Hi1 Hly Hu Hbp Hp Hpu -> Hmin HQ. cbv zeta. destruct (used_bounds Hi1 b c Hu) as (_&_&Hb&_).
  destruct (area_words _ _ _ _ _ Hi1 Hu) as (E8&E16&E24&E32&Eg&El&Hal&Ha&Hbase&_).
  destruct (slot_block Hi1 Hly p Hp) as (a&Hap&Hau&?&?&_). assert (a ≠ b) as Hne by (by intros ->).
  pose proof (used_disjoint Hi1 a b 0 c Hau Hu Hne) as Hd. change (bsize 0) with 4096 in Hd.
  unfold set_block, get_block, set_block_len, get_block_len, set_use_len, set_prev_area, set_areas, get_areas.
  rewrite E8, E16, E24, E32.
  wp_step. eapply wp_area_write; [exact Hi1|exact Hu|lia|lia|]. intros Hi2. set (s2 := poke _ _ s1) in *.
  wp_step. eapply wp_of_option; [done|]. rewrite Eg. wp_step. wp_step; [done|]. wp_step.
  eapply wp_awrite; [exact Hi2|exact Hu|lia|lia|]. intros Hi3. set (s3 := poke _ _ s2) in *.
  wp_step. eapply wp_area_read; [exact Hi3|exact Hu|lia|lia|].
  assert (load 8 (h_mem (al_heap s3)) (b + 24) = b + 56) as B3.
  { unfold s3. rewrite poke_ne by lia. by apply poke_eq. }
  rewrite B3, El. wp_step. eapply wp_area_write; [exact Hi3|exact Hu|lia|lia|]. intros Hi4. set (s4 := poke _ _ s3) in *.
  wp_step. eapply wp_area_read; [exact Hi4|exact Hu|lia|lia|].
  assert (load 8 (h_mem (al_heap s4)) (b + 32) = bsize c - 64) as B4 by (apply poke_eq; unfold is_u64; lia).
  rewrite B4. wp_step. wp_step; [unfold uleb; bsimp; lia|]. wp_step. eapply wp_area_write; [exact Hi4|exact Hu|lia|lia|]. intros Hi5.
  set (s5 := poke _ _ s4) in *. wp_step.
  eapply (wp_aread k live s5 a 0); [exact Hi5|exact Hau|lia|change (bsize 0) with 4096; lia|].
  assert (load 8 (h_mem (al_heap s5)) p = load 8 (h_mem (al_heap s1)) p) as ->.
  { unfold s5, s4, s3, s2. by rewrite !poke_ne by lia. }
  wp_step. eapply wp_area_write; [exact Hi5|exact Hu|lia|lia|]. intros Hi6. set (s6 := poke _ _ s5) in *.
  wp_step. eapply (wp_awrite k live s6 a 0); [exact Hi6|exact Hau|lia|change (bsize 0) with 4096; lia|]. intros Hi7.
  wp_step. apply HQ; [exact Hi7|done|]. split; rewrite <-?Z.add_assoc; cbn [Z.add Pos.add Pos.succ].
  - rewrite poke_ne by lia. unfold s6, s5, s4. by rewrite !poke_ne by lia.
  - rewrite poke_ne by lia. unfold s6, s5. by rewrite !poke_ne by lia.
  - rewrite poke_ne by lia. unfold s6, s5. rewrite poke_ne by lia. apply poke_eq. unfold is_u64. lia.
  - rewrite poke_ne by lia. apply poke_eq, load64_is_u64.
  - rewrite poke_ne by lia. unfold s6, s5, s4, s3. rewrite !poke_ne by lia. by apply poke_eq.
  - by apply poke_eq.
  - intros x Hx Hxp. rewrite poke_outside by lia. unfold s6, s5, s4, s3, s2. by rewrite !poke_outside by lia.
Qed.

(** What a new area on top of the areas [l] of [p] makes of the state. *)
Record area_added (k : Z) (live : tiling) (σ : arenas) (free pools : list Z) (s : allocs P) (p : Z) (l : list arena)
    (block_min : Z) (A : arena) (live' : tiling) (s' : allocs P) : Prop := {
  aa_inv : alloc_inv k live' (<[p := A :: l]> σ) free pools s';
  aa_used a c : used live !! a = Some c → used live' !! a = Some c;
  aa_fresh : used live !! ar_blk A = None;
  aa_empty : ar_use A = 0 ∧ ar_regs A = [];
  aa_room : block_min <= ar_len A;
  aa_calm : calm live σ free (h_mem (al_heap s)) (h_mem (al_heap s'));
}.

Lemma wp_allocator_new_area k live σ free pools s p l block_min (Q : Z → allocs P → Prop) :
  alloc_inv (k + 1) live σ free pools s → 0 <= k → σ !! p = Some l → 0 <= block_min <= bsize 15 - 64 →
  (∀ A live' s', area_added k live σ free pools s p l block_min A live' s' → Q (ar_area A) s') →
  wp (_allocator_new_area p block_min) Q s.
Proof.
  intros Hinv Hk Hp Hmin HQ. change (bsize 15) with 134217728 in Hmin.
  pose proof (layout_fits _ _ _ _ _ _ (ai_layout _ _ _ _ _ _ Hinv) Hp) as Hfits.
  pose proof (fi_slot _ _ _ _ _ _ Hfits) as Hps. destruct (slot_u64 _ _ _ _ _ _ p Hinv Hps) as (Hpu&_).
  unfold _allocator_new_area.
  assert ((block_min + sizeof_area + sizeof_ptr)%u64 = block_min + 40) as ->.
  { unfold sizeof_area, sizeof_ptr. u64_unfold. rewrite (u64_small (block_min + 32)) by lia. rewrite u64_small by lia. lia. }
  wp_step. eapply wp_grow; [exact Hinv|done|change (bsize 15) with 134217728; lia|].
  intros b c live' s1 [Hinv1 Hu1 Hf1 [Hbp Hnew] Hkeep Hfree1] Hfit _. cbv beta iota. pose proof Hinv1 as [Hi1 Hly1 Hst1].
  assert (used live' !! b = Some c) as Hub by (rewrite Hu1; apply lookup_insert_eq).
  assert (∀ a d, used live !! a = Some d → used live' !! a = Some d) as Hsub.
  { intros a d Ha. rewrite Hu1, lookup_insert_ne; [done|congruence]. }
  apply (wp_write_area k live' σ free pools s1 p b c (Some (bsize c - 24)) block_min); try done; [lia|].
  intros s' Hi' Hfr [Wb Wl Wu Wp Wg Wh Wo]. destruct (used_bounds Hi1 b c Hub) as (_&_&Hb&_&Hc&_).
  destruct (stored_area k live' σ free pools (al_heap s1) (h_mem (al_heap s')) p l b c (_free_alls s1)) as [Hst' Hl']; try done.
  { intros x Hx Hxp. apply Wo; lia. }
  assert (fits live' σ free pools p (Arena b c 0 [] :: l)) as Hfits'.
  { apply fits_push; [by apply layout_fits| |done|].
    - split; [done|unfold ar_len; cbn; lia|cbn; unfold ar_base; cbn; lia].
    - rewrite insert_id by done. exact Hnew. }
  apply (HQ (Arena b c 0 []) live' s'). split; [|done|done|done|unfold ar_len; cbn; lia|].
  - split; [done|apply layout_insert; [by apply layout_delete|done]|]. rewrite Hfr. apply stored_insert; [done|].
    cbn [areas_at]. unfold ar_area, ar_base, ar_len, ar_guard. cbn [ar_blk ar_class ar_use]. rewrite Wp. done.
  - intros a d x Ha Hx Hbook. assert (a ≠ b) as Hab by congruence.
    pose proof (used_disjoint Hi1 a b d c (Hsub a d Ha) Hub Hab) as Hd. rewrite Wo; [by eapply Hkeep|lia|].
    destruct (decide (p <= x < p + 8)); [|lia]. destruct Hbook. left. exists p. split; [right; by exists l|lia].
Qed.
End ops.
