(* ===== verification/MmAllocatorTake.v ===== *)
(** Requests to the object allocator: how [mm_allocate] cuts a region from the
    newest area of an allocator, or from a new area. *)
From S2P Require Import Prelude Memory Util MmCore MmHeap HeapTiling.
From S2P Require Import MmHeapRep MmHeapLists MmHeapOps MmHeapAlloc MmHeapFree MmHeapTop.
From S2P Require Import MmHeapClient MmAllocator MmAllocatorRep MmAllocatorOps.

Section take.
Context {P : Type} `{PageSourceSpec P}.
Implicit Types (s : allocs P) (live : tiling) (σ : arenas) (free pools : list Z).

(* --------------------------------------------------------------------- *)
(** ** Handing out *)

(** The bytes from [x] on to the next multiple of [align]. *)
Definition pad (x align : Z) : Z := (- x) `mod` align.

Lemma pad_range x align : 0 < align → 0 <= pad x align < align.
Proof. intros. by apply Z.mod_pos_bound. Qed.

Lemma pad_aligned x align : 0 < align → (align | x + pad x align).
Proof.
  intros Ha. unfold pad. exists (x / align + (if decide (x `mod` align = 0) then 0 else 1)).
  pose proof (Z.div_mod x align ltac:(lia)). case_decide as E.
  - rewrite Z.mod_opp_l_z by lia. lia.
  - rewrite Z.mod_opp_l_nz by lia. lia.
Qed.

Lemma wp_slop_of x align (Q : Z → allocs P → Prop) s : 0 < align < 18446744073709551616 → Q (pad x align) s →
  wp (slop_of x align) Q s.
Proof.
  intros Ha HQ. unfold slop_of, urem. assert ((align =? 0) = false) as -> by (bsimp; lia). wp_step. wp_step. wp_step.
  pose proof (Z.mod_pos_bound x align ltac:(lia)). u64_unfold. rewrite u64_small by lia. unfold pad in HQ.
  destruct (Z.ltb_spec 0 (x `mod` align)).
  - by rewrite Z.mod_opp_l_nz in HQ by lia.
  - assert (x `mod` align = 0) as E by lia. rewrite E. by rewrite Z.mod_opp_l_z in HQ by lia.
Qed.

Section head.
Context {k live σ free pools} {s : allocs P} (Hinv : alloc_inv k live σ free pools s).
Context {p A l} (Hp : σ !! p = Some (A :: l)).

Lemma head_block : used live !! ar_blk A = Some (ar_class A) ∧ arena_ok live A ∧ 4096 <= bsize (ar_class A) <= 134217728.
Proof.
  destruct (ly_ok _ _ _ _ (ai_layout _ _ _ _ _ _ Hinv) p _ A Hp) as [Hok _]; [by left|].
  destruct Hok as [Hu ? ?]. split; [done|]. split; [done|]. by destruct (used_bounds (ai_heap _ _ _ _ _ _ Hinv) _ _ Hu) as (_&_&?&_).
Qed.

Lemma head_cells : let m := h_mem (al_heap s) in load 8 m p = ar_area A ∧ load 8 m (ar_blk A + 24) = ar_base A ∧
  load 8 m (ar_blk A + 32) = ar_len A ∧ load 8 m (ar_blk A + 40) = ar_use A.
Proof.
  cbv zeta. destruct (sd_areas _ _ _ _ (ai_stored _ _ _ _ _ _ Hinv) p _ Hp) as (?&?&H8&H16&_). unfold ar_area in *.
  rewrite <-Z.add_assoc in H8, H16. done.
Qed.

Lemma wp_head (Q : Z → allocs P → Prop) : Q (ar_area A) s → wp (get_areas p) Q s.
Proof.
  intros HQ. unfold get_areas. rewrite <-(Z.add_0_r p). eapply wp_slot_read; [apply Hinv|apply Hinv| |lia|].
  - by apply (fi_slot _ _ _ _ _ _ (layout_fits _ _ _ _ _ _ (ai_layout _ _ _ _ _ _ Hinv) Hp)).
  - rewrite Z.add_0_r. destruct head_cells as (->&_). exact HQ.
Qed.

Lemma wp_head_word off v (Q : Z → allocs P → Prop) : 0 <= off <= 48 → load 8 (h_mem (al_heap s)) (ar_blk A + off) = v →
  Q v s → wp (aread (ar_blk A + off)) Q s.
Proof.
  intros Hoff <- HQ. destruct head_block as (Hu&_&?). eapply wp_area_read; [apply Hinv|exact Hu|lia|lia|exact HQ].
Qed.

Lemma wp_area_free_len (Q : Z → allocs P → Prop) : Q (ar_len A - ar_use A) s → wp (_area_free_len (ar_area A)) Q s.
Proof.
  intros HQ. destruct head_block as (Hu&[_ Huse _]&?). destruct head_cells as (_&_&Hl&Hus).
  destruct (area_words _ _ _ _ _ (ai_heap _ _ _ _ _ _ Hinv) Hu) as (E8&E16&_). unfold ar_len in *.
  unfold _area_free_len, get_block_len, get_use_len, ar_area. rewrite E8, E16.
  wp_step. eapply wp_head_word; [lia|exact Hl|]. wp_step. eapply wp_head_word; [lia|exact Hus|]. wp_step.
  unfold usub. rewrite u64_small by lia. exact HQ.
Qed.

Lemma wp_area_free_start (Q : Z → allocs P → Prop) : Q (ar_base A + ar_use A) s → wp (_area_free_start (ar_area A)) Q s.
Proof.
  intros HQ. destruct head_block as (Hu&[_ Huse _]&?). destruct head_cells as (_&Hb&_&Hus).
  destruct (area_words _ _ _ _ _ (ai_heap _ _ _ _ _ _ Hinv) Hu) as (E8&E16&_).
  unfold _area_free_start. wp_step. apply wp_area_free_len. wp_step. wp_step; [unfold ultb; bsimp; lia|]. wp_step.
  unfold get_block, get_use_len, ar_area. rewrite E16. eapply wp_head_word; [lia|exact Hb|]. wp_step.
  eapply wp_head_word; [lia|exact Hus|]. wp_step. unfold ar_base in *.
  assert ((ar_blk A + 56)%Z + ar_use A = ar_blk A + (56 + ar_use A)) as E by lia.
  assert (((ar_blk A + 56)%Z + ar_use A)%u64 = ar_blk A + 56 + ar_use A) as ->; [|exact HQ].
  unfold ar_len in Huse. rewrite E. rewrite <-(used_u64 (ai_heap _ _ _ _ _ _ Hinv) _ _ (56 + ar_use A) Hu) by lia.
  unfold uadd. f_equal. lia.
Qed.
End head.

(** The other records when only the block of the newest area changed. *)
Lemma stored_head k live σ free pools s p A l m' : alloc_inv k live σ free pools s → σ !! p = Some (A :: l) →
  (∀ x, x < ar_blk A ∨ ar_blk A + bsize (ar_class A) <= x → load8 m' x = load8 (h_mem (al_heap s)) x) →
  stored m' (delete p σ) free (_free_alls s) ∧ areas_at m' p (load 8 (h_mem (al_heap s)) (ar_area A + 24)) l.
Proof.
  intros Hinv Hp Hout. pose proof Hinv as [Hi Hly Hst].
  destruct (layout_fits _ _ _ _ _ _ Hly Hp) as [Hps Hpf Hok Hnd Hap].
  destruct (Hok A) as [[Hu _ _] Hnp]; [by left|]. split.
  - eapply stored_agree; [|by apply stored_delete]. intros x Hx. symmetry. apply Hout.
    eapply (book_off_block Hi (layout_delete _ _ _ _ p Hly)); [exact Hu|done| |exact Hx].
    intros q l' B [Hne Hq]%lookup_delete_Some HB. eapply not_eq_sym, Hap; [by apply not_eq_sym|exact Hq|by left|done].
  - destruct (sd_areas _ _ _ _ Hst p _ Hp) as (_&_&_&_&_&Hl). eapply areas_agree; [|exact Hl].
    intros B HB. cbn [fmap list_fmap] in Hnd. apply list.NoDup_cons in Hnd as [Hnd _].
    assert (ar_blk B ≠ ar_blk A) as Hne by (intros E; apply Hnd; rewrite <-E; by apply list_elem_of_fmap_2).
    destruct (Hok B) as [[HuB _ _] _]; [by right|].
    pose proof (used_disjoint Hi _ _ _ _ HuB Hu Hne) as Hd. split; intros x Hx; symmetry; apply Hout.
    + assert (ar_blk B <= x < ar_blk B + bsize (ar_class B)); [|lia].
      eapply (record_in_block Hi Hly); [exact Hp|by right|by left].
    + assert (ar_blk B <= x < ar_blk B + bsize (ar_class B)); [|lia].
      eapply (record_in_block Hi Hly); [exact Hp|by right|by right].
Qed.

(** The area after [size] bytes at a multiple of [align] were taken from it. *)
Definition next_addr (A : arena) (align : Z) : Z := ar_base A + ar_use A + pad (ar_base A + ar_use A) align.
Definition needed (A : arena) (size align : Z) : Z := size + pad (ar_base A + ar_use A) align.
Definition taken (A : arena) (size align : Z) : arena :=
  Arena (ar_blk A) (ar_class A) (ar_use A + needed A size align) ((next_addr A align, size) :: ar_regs A).

Lemma taken_ok live A size align : arena_ok live A → 0 <= size → 0 < align →
  ar_use A + needed A size align < ar_len A → arena_ok live (taken A size align).
Proof.
  intros [Hu Huse Hs] Hsz Hal Hfit. pose proof (pad_range (ar_base A + ar_use A) align Hal). unfold needed in Hfit.
  split; cbn [taken ar_blk ar_class ar_use ar_regs]; [done|unfold needed, ar_len in *; cbn; lia|].
  cbn [stacked]. unfold next_addr, needed, ar_base in *. cbn [ar_blk taken]. split; [done|]. split; [lia|].
  eapply stacked_mono; [exact Hs|lia].
Qed.

(** The state after [use_len] of the newest area was raised. *)
Lemma inv_taken k live σ free pools s p A l size align : alloc_inv k live σ free pools s → σ !! p = Some (A :: l) →
  0 <= size → 0 < align → ar_use A + needed A size align < ar_len A →
  let s' := poke (ar_blk A + 40) (ar_use A + needed A size align) s in
  alloc_inv k live (<[p := taken A size align :: l]> σ) free pools s' ∧
  calm live σ free (h_mem (al_heap s)) (h_mem (al_heap s')).
Proof.
  intros Hinv Hp Hsz Hal Hfit s'. destruct (head_block Hinv Hp) as (Hu&Hok&Hb). pose proof Hinv as [Hi Hly Hst].
  destruct Hok as [_ Huse Hregs]. pose proof (pad_range (ar_base A + ar_use A) align Hal).
  destruct (stored_head k live σ free pools s p A l (h_mem (al_heap s')) Hinv Hp) as [Hst' Hl].
  { intros x Hx. apply poke_outside. lia. }
  assert (is_u64 (ar_use A + needed A size align)) as Hw by (unfold is_u64, ar_len, needed in *; lia).
  destruct (sd_areas _ _ _ _ Hst p _ Hp) as (Eh&Ebl&Ele&_&Egu&_).
  destruct (slot_block Hi Hly p) as (a&Hap&Hau&?&?&_); [by apply (layout_fits _ _ _ _ _ _ Hly Hp)|].
  assert (a ≠ ar_blk A) as Hne.
  { intros ->. destruct (ly_ok _ _ _ _ Hly p _ A Hp) as [_ Hn]; [by left|done]. }
  pose proof (used_disjoint Hi a _ 0 _ Hau Hu Hne) as Hd. change (bsize 0) with 4096 in Hd. split.
  - split.
    + eapply (inv_store Hi 8); [exact Hu|lia|lia].
    + apply layout_insert; [by apply layout_delete|]. eapply fits_head; [by apply layout_fits|done|].
      by apply taken_ok.
    + apply stored_insert; [done|]. cbn [areas_at]. unfold ar_area, ar_base, ar_len, ar_guard in *.
      cbn [taken ar_blk ar_class ar_use]. subst s'.
      rewrite (poke_ne _ _ _ p 8) by lia. rewrite (poke_ne _ _ _ (ar_blk A + 24) 8) by lia.
      rewrite (poke_ne _ _ _ (ar_blk A + 24 + 8) 8) by lia. rewrite (poke_ne _ _ _ (ar_blk A + 24 + 24) 8) by lia.
      rewrite (poke_ne _ _ _ (ar_blk A + bsize (ar_class A) - 8) 8) by lia.
      split; [done|]. split; [done|]. split; [done|]. split; [|done].
      replace (ar_blk A + 24 + 16) with (ar_blk A + 40) by lia. by apply poke_eq.
  - intros b d x Hbu Hx Hbook. apply poke_outside. destruct (decide (ar_blk A + 40 <= x < ar_blk A + 48)); [|lia].
    destruct Hbook. right. exists p, (A :: l), A. split; [done|]. split; [by left|]. left. unfold ar_area, ar_base. lia.
Qed.

Section hand_out.
Context {k live σ free pools} {s : allocs P} (Hinv : alloc_inv k live σ free pools s).
Context {p A l} (Hp : σ !! p = Some (A :: l)).
Context {size align : Z} (Hsize : 0 <= size) (Halign : 0 < align) (Hsum : size + align <= bsize 15).

Lemma needed_word : (size + pad (ar_base A + ar_use A) align)%u64 = needed A size align ∧
  0 <= needed A size align < size + align ∧ size + align <= 134217728.
Proof.
  change (bsize 15) with 134217728 in Hsum. pose proof (pad_range (ar_base A + ar_use A) align Halign).
  unfold needed. split; [|lia]. unfold uadd. apply u64_small. lia.
Qed.

Lemma wp_roomy_area_same (Q : Z → allocs P → Prop) : needed A size align <= ar_len A - ar_use A → Q (ar_area A) s →
  wp (roomy_area p size align (ar_area A)) Q s.
Proof.
  intros Hfit HQ. destruct needed_word as (Hn&?&?). unfold roomy_area. wp_step. apply (wp_area_free_start Hinv Hp).
  wp_step. apply wp_slop_of; [lia|]. rewrite Hn. wp_step. apply (wp_area_free_len Hinv Hp).
  rewrite (proj2 (Z.ltb_ge _ _)) by done. by apply wp_ret.
Qed.

(** The end of [hand_out], from the store of [use_len] on. *)
Lemma wp_hand_out (Q : Z → allocs P → Prop) : ar_use A + needed A size align < ar_len A →
  (∀ s', alloc_inv k live (<[p := taken A size align :: l]> σ) free pools s' →
    calm live σ free (h_mem (al_heap s)) (h_mem (al_heap s')) → Q (next_addr A align) s') →
  wp (hand_out size align (ar_area A)) Q s.
Proof.
  intros Hfit HQ. destruct needed_word as (Hn&?&?). destruct (head_block Hinv Hp) as (Hu&[_ Huse _]&Hb).
  destruct (inv_taken k live σ free pools s p A l size align Hinv Hp Hsize Halign Hfit) as [Hinv' Hcalm].
  destruct (head_cells Hinv Hp) as (_&_&Hlen&Hus). pose proof (ai_heap _ _ _ _ _ _ Hinv) as Hi.
  destruct (area_words _ _ _ _ _ Hi Hu) as (E8&E16&_). unfold ar_len in Hfit, Huse.
  assert (((ar_base A + ar_use A)%Z + pad (ar_base A + ar_use A) align)%u64 = next_addr A align) as Hret.
  { unfold next_addr, needed, ar_base in *. set (n := pad _ _) in *.
    pose proof (pad_range (ar_blk A + 56 + ar_use A) align Halign) as Hn'. fold n in Hn'.
    pose proof (used_u64 Hi _ _ (56 + ar_use A + n) Hu ltac:(lia)) as E. unfold uadd in E |- *.
    rewrite !Z.add_assoc in E. done. }
  unfold hand_out, get_use_len, set_use_len, get_block_len, urem, ar_area. rewrite E8, E16.
  wp_step. apply (wp_area_free_start Hinv Hp). wp_step. apply wp_slop_of; [lia|]. rewrite Hn, Hret.
  wp_step. apply (wp_area_free_len Hinv Hp). wp_step. wp_step; [unfold ar_len; bsimp; lia|].
  wp_step. eapply (wp_head_word Hinv Hp); [lia|exact Hus|].
  assert ((ar_use A + needed A size align)%u64 = ar_use A + needed A size align) as -> by (unfold uadd; apply u64_small; lia).
  wp_step. eapply wp_area_write; [exact Hi|exact Hu|lia|lia|]. intros _.
  pose proof (lookup_insert_eq σ p (taken A size align :: l)) as Hp'. destruct (head_cells Hinv' Hp') as (_&_&Hlen'&Hus').
  wp_step. eapply (wp_head_word Hinv' Hp'); [lia|exact Hus'|]. wp_step. eapply (wp_head_word Hinv' Hp'); [lia|exact Hlen'|].
  wp_step. wp_step; [unfold ultb; bsimp; exact Hfit|]. assert ((align =? 0) = false) as -> by (bsimp; lia).
  wp_step. wp_step. wp_step. wp_step.
  { u64_unfold. bsimp. apply Z.mod_divide; [lia|]. by apply pad_aligned. }
  wp_step. by apply HQ.
Qed.

(** A request that would fill the area to its last byte. *)
Lemma hand_out_exact : ar_use A + needed A size align = ar_len A → hand_out size align (ar_area A) s = Assert.
Proof.
  intros Hfit. destruct needed_word as (Hn&?&?). destruct (head_block Hinv Hp) as (Hu&[_ Huse _]&Hb).
  destruct (head_cells Hinv Hp) as (_&_&Hlen&Hus). pose proof (ai_heap _ _ _ _ _ _ Hinv) as Hi.
  destruct (area_words _ _ _ _ _ Hi Hu) as (E8&E16&_). unfold ar_len in Hfit, Huse.
  unfold hand_out, get_use_len, set_use_len, get_block_len, ar_area. rewrite E8, E16.
  apply then_assert, (wp_area_free_start Hinv Hp), then_assert, wp_slop_of; [lia|]. rewrite Hn.
  apply then_assert, (wp_area_free_len Hinv Hp), then_assert, wp_assert; [unfold ar_len; bsimp; lia|].
  apply then_assert. eapply (wp_head_word Hinv Hp); [lia|exact Hus|].
  assert ((ar_use A + needed A size align)%u64 = ar_use A + needed A size align) as -> by (unfold uadd; apply u64_small; lia).
  apply then_assert. eapply wp_area_write; [exact Hi|exact Hu|lia|lia|]. intros Hi'.
  apply then_assert. eapply wp_area_read; [exact Hi'|exact Hu|lia|lia|]. rewrite poke_eq by (unfold is_u64; lia).
  apply then_assert. eapply wp_area_read; [exact Hi'|exact Hu|lia|lia|]. rewrite poke_ne, Hlen by lia. apply bind_assert.
  unfold kernel_assert. rewrite Hfit. unfold ar_len. by rewrite Z.ltb_irrefl.
Qed.
End hand_out.

(** The records of a new area are the only new ones. *)
Lemma book_push k live σ free pools h p A l x : heap_inv k live h → layout live (<[p := A :: l]> σ) free pools →
  σ !! p = Some l → book (<[p := A :: l]> σ) free x → book σ free x ∨ ar_blk A <= x < ar_blk A + bsize (ar_class A).
Proof.
  intros Hi Hly Hp [(q&Hq&Hx)|(q&l'&B&Hl'&HB&Hx)].
  - left. left. exists q. split; [|done]. destruct Hq as [?|[l' [[<- _]|[? ?]]%lookup_insert_Some]]; [by left|right..]; eauto.
  - pose proof (record_in_block Hi Hly q l' B x Hl' HB Hx) as Hblk.
    apply lookup_insert_Some in Hl' as [[<- <-]|[Hne Hl']].
    + apply elem_of_cons in HB as [->|HB]; [by right|]. left. right. exists p, l, B. done.
    + left. right. exists q, l', B. done.
Qed.

Lemma calm_then k live σ free pools s p l block_min A live' s1 m2 :
  area_added k live σ free pools s p l block_min A live' s1 → σ !! p = Some l →
  calm live' (<[p := A :: l]> σ) free (h_mem (al_heap s1)) m2 → calm live σ free (h_mem (al_heap s)) m2.
Proof.
  intros [[Hi Hly _] Hu Hf _ _ Hc1] Hp Hc2 a c x Ha Hx Hb. rewrite <-(Hc1 a c x) by done. apply (Hc2 a c); [by apply Hu|done|].
  intros [Hb'|Hb']%(book_push _ _ _ _ _ _ _ _ _ _ Hi Hly Hp); [done|].
  destruct (ly_ok _ _ _ _ Hly p (A :: l) A) as [[HuA _ _] _]; [apply lookup_insert_eq|by left|].
  assert (a ≠ ar_blk A) as Hne by congruence.
  pose proof (used_disjoint Hi a _ c _ (Hu a c Ha) HuA Hne). lia.
Qed.

(** What a request makes of the state: the region comes from the newest area
    when it has room for it, and from a new area otherwise. *)
Record allocated (k : Z) (live : tiling) (σ : arenas) (free pools : list Z) (s : allocs P) (p : Z) (l : list arena)
    (size align : Z) (A : arena) (l' : list arena) (s' : allocs P) : Prop := {
  ad_inv : ∃ live', alloc_inv k live' (<[p := taken A size align :: l']> σ) free pools s' ∧
    ∀ a c, used live !! a = Some c → used live' !! a = Some c;
  ad_room : ar_use A + needed A size align < ar_len A;
  ad_area : l = A :: l' ∨ l' = l ∧ used live !! ar_blk A = None ∧ ar_use A = 0 ∧ ar_regs A = [] ∧
    ∀ B, head l = Some B → ar_len B < ar_use B + needed B size align;
  ad_calm : calm live σ free (h_mem (al_heap s)) (h_mem (al_heap s'));
}.

Section allocate.
Context {k live σ free pools} {s : allocs P} (Hinv : alloc_inv (k + 1) live σ free pools s) (Hk : 0 <= k).
Context {size align : Z} (Hsize : 0 <= size) (Halign : 0 < align) (Hsum : size + align <= bsize 15 - 64).

(** A new area takes the request. *)
Lemma wp_area_then p l (Q : Z → allocs P → Prop) (f : Z → M (allocs P) Z) : σ !! p = Some l →
  (∀ B, head l = Some B → ar_len B < ar_use B + needed B size align) →
  (∀ A live' s1, area_added k live σ free pools s p l (size + align) A live' s1 →
     needed A size align < ar_len A - ar_use A →
     (∀ R, (∀ s', allocated k live σ free pools s p l size align A l s' → R (next_addr A align) s') →
        wp (hand_out size align (ar_area A)) R s1) → wp (f (ar_area A)) Q s1) →
  wp (_allocator_new_area p (size + align)%u64 ≫= f) Q s.
Proof.
  intros Hp Hfull Hf. assert ((size + align)%u64 = size + align) as ->.
  { change (bsize 15) with 134217728 in Hsum. unfold uadd. apply u64_small. lia. }
  wp_step. eapply wp_allocator_new_area; [exact Hinv|done|exact Hp|lia|]. intros A live' s1 Haa.
  pose proof Haa as [Hinv1 Hu1 Hf1 [Hu0 Hr0] Hroom _]. pose proof (pad_range (ar_base A + ar_use A) align Halign).
  assert (needed A size align < ar_len A - ar_use A) as Hfit by (unfold needed; lia).
  apply (Hf A live' s1 Haa Hfit). intros R HR.
  eapply (wp_hand_out Hinv1 (lookup_insert_eq _ _ _)); [done|done|lia|lia|]. intros s' Hinv' Hcalm. apply HR. split.
  - exists live'. rewrite insert_insert_eq in Hinv'. done.
  - lia.
  - right. done.
  - by eapply calm_then.
Qed.

Lemma wp_new_list p A live' s1 l (Q : Z → allocs P → Prop) : area_added k live σ free pools s p l (size + align) A live' s1 →
  Q (ar_area A) s1 → wp (list ← get_areas p; kernel_assert_d (list =? ar_area A) ;; mret (ar_area A)) Q s1.
Proof.
  intros Haa HQ. wp_step. apply (wp_head (aa_inv _ _ _ _ _ _ _ _ _ _ _ _ Haa) (lookup_insert_eq _ _ _)).
  wp_step. wp_step; [by apply Z.eqb_refl|]. by wp_step.
Qed.

Lemma wp_areas_nil p (Q : Z → allocs P → Prop) : σ !! p = Some [] → Q NULL s → wp (get_areas p) Q s.
Proof.
  intros Hp HQ. pose proof (sd_areas _ _ _ _ (ai_stored _ _ _ _ _ _ Hinv) p _ Hp) as Hh. cbn [areas_at] in Hh.
  unfold get_areas. rewrite <-(Z.add_0_r p). eapply wp_slot_read; [apply Hinv|apply Hinv| |lia|].
  - by apply (fi_slot _ _ _ _ _ _ (layout_fits _ _ _ _ _ _ (ai_layout _ _ _ _ _ _ Hinv) Hp)).
  - rewrite Z.add_0_r, Hh. exact HQ.
Qed.

(** The first request to an allocator. *)
Lemma wp_allocate_first p (Q : Z → allocs P → Prop) : σ !! p = Some [] →
  (∀ A s', allocated k live σ free pools s p [] size align A [] s' → Q (next_addr A align) s') →
  wp (mm_allocate p size align) Q s.
Proof.
  intros Hp HQ. unfold mm_allocate, first_area. wp_step. wp_step. apply wp_areas_nil; [done|]. rewrite Z.eqb_refl.
  apply (wp_area_then p [] _ _ Hp); [done|]. intros A live' s1 Haa Hfit Hhand. eapply wp_new_list; [exact Haa|].
  wp_step. eapply (wp_roomy_area_same (aa_inv _ _ _ _ _ _ _ _ _ _ _ _ Haa) (lookup_insert_eq _ _ _)); [done|done|lia|lia|].
  apply Hhand. by apply HQ.
Qed.

Lemma wp_first_area_same p B l (Q : Z → allocs P → Prop) : σ !! p = Some (B :: l) → Q (ar_area B) s →
  wp (first_area p size align) Q s.
Proof.
  intros Hp HQ. unfold first_area. wp_step. apply (wp_head Hinv Hp). destruct (head_block Hinv Hp) as (Hu&_).
  destruct (area_words _ _ _ _ _ (ai_heap _ _ _ _ _ _ Hinv) Hu) as (_&_&_&_&_&_&_&_&_&Hn).
  unfold ar_area in *. rewrite (proj2 (Z.eqb_neq _ _)) by done. by wp_step.
Qed.

(** A request that the newest area cannot take. *)
Lemma wp_allocate_full p B l (Q : Z → allocs P → Prop) : σ !! p = Some (B :: l) →
  ar_len B < ar_use B + needed B size align →
  (∀ A s', allocated k live σ free pools s p (B :: l) size align A (B :: l) s' → Q (next_addr A align) s') →
  wp (mm_allocate p size align) Q s.
Proof.
  intros Hp Hfull HQ. unfold mm_allocate. wp_step. eapply wp_first_area_same; [done|].
  assert (size + align <= bsize 15) as Hsum' by lia. destruct (needed_word (A := B) Hsize Halign Hsum') as (Hn&?&?).
  wp_step. unfold roomy_area. wp_step. apply (wp_area_free_start Hinv Hp).
  wp_step. apply wp_slop_of; [lia|]. rewrite Hn. wp_step. apply (wp_area_free_len Hinv Hp).
  rewrite (proj2 (Z.ltb_lt _ _)) by lia. cbv zeta. apply (wp_area_then p (B :: l) _ _ Hp); [by intros ? [= <-]|].
  intros A live' s1 Haa Hfit Hhand. pose proof Haa as [Hinv1 _ _ [Hu0 _] Hroom _].
  wp_step. apply (wp_head Hinv1 (lookup_insert_eq _ _ _)). wp_step. wp_step; [by apply Z.eqb_refl|].
  wp_step. apply (wp_area_free_len Hinv1 (lookup_insert_eq _ _ _)). wp_step. wp_step.
  { unfold uadd. rewrite u64_small by (change (bsize 15) with 134217728 in Hsum; lia). bsimp. lia. }
  wp_step. apply Hhand. by apply HQ.
Qed.

Lemma wp_mm_allocate p l (Q : Z → allocs P → Prop) : σ !! p = Some l →
  (∀ B, head l = Some B → ar_use B + needed B size align ≠ ar_len B) →
  (∀ A l' s', allocated k live σ free pools s p l size align A l' s' → Q (next_addr A align) s') →
  wp (mm_allocate p size align) Q s.
Proof.
  intros Hp Hexact HQ. destruct l as [|B l]; [by apply wp_allocate_first; [|intros A s' ?; apply (HQ A [])]|].
  specialize (Hexact B eq_refl). destruct (decide (ar_len B < ar_use B + needed B size align)).
  - by apply (wp_allocate_full p B l); [|done|intros A s' ?; apply (HQ A (B :: l))].
  - unfold mm_allocate. wp_step. eapply wp_first_area_same; [done|]. wp_step.
    apply (wp_roomy_area_same Hinv Hp); [done|done|lia|lia|].
    apply (wp_hand_out (alloc_inv_mono _ k _ _ _ _ _ Hinv ltac:(lia)) Hp); [done|done|lia|lia|]. intros s' Hinv' Hc.
    apply (HQ B l). split; [exists live; split; [done|done]|lia|by left|done].
Qed.

(** The request that the newest area could just take fails an assertion. *)
Lemma mm_allocate_exact p B l : σ !! p = Some (B :: l) → ar_use B + needed B size align = ar_len B →
  mm_allocate p size align s = Assert.
Proof.
  intros Hp Hfit. unfold mm_allocate. apply then_assert, (wp_first_area_same p B l _ Hp), then_assert.
  apply (wp_roomy_area_same Hinv Hp); [done|done|lia|lia|]. apply (hand_out_exact Hinv Hp); [done|done|lia|done].
Qed.
End allocate.

End take.
