(* ===== verification/MmAllocatorFree.v ===== *)
(** Freeing an object allocator: its areas go back to the heap one after the
    other, its record to the chain of free ones. *)
From S2P Require Import Prelude Memory Util MmCore MmHeap HeapTiling.
From S2P Require Import MmHeapRep MmHeapLists MmHeapOps MmHeapAlloc MmHeapFree MmHeapTop.
From S2P Require Import MmHeapClient MmAllocator MmAllocatorRep MmAllocatorOps.

Section free.
Context {P : Type} `{PageSourceSpec P}.
Implicit Types (s : allocs P) (live : tiling) (σ : arenas) (free pools : list Z) (rest : list arena).

(** In the middle of the loop: the areas [rest] of [p] are still there, the
    other allocators are as they were in [s0]. *)
Record freeing (k : Z) (live0 : tiling) (σ : arenas) (free pools : list Z) (s0 : allocs P) (p : Z) (gone : list Z)
    (live : tiling) (a : Z) (rest : list arena) (s : allocs P) : Prop := {
  fg_heap : heap_inv k live (al_heap s);
  fg_layout : layout live (delete p σ) free pools;
  fg_rest : fits live σ free pools p rest;
  fg_stored : stored (h_mem (al_heap s)) (delete p σ) free (_free_alls s0);
  fg_areas : areas_at (h_mem (al_heap s)) p a rest;
  fg_used b : used live !! b = if decide (b ∈ gone) then None else used live0 !! b;
  fg_keeps : keeps (used live) (h_mem (al_heap s0)) (h_mem (al_heap s));
  fg_free : _free_alls s = _free_alls s0;
}.

(** The records survive when one block of the heap is freed. *)
Lemma stored_after_free k live live' σ free pools h m' b head : heap_inv k live h → layout live σ free pools →
  (∃ c, used live !! b = Some c) → b ∉ pools → (∀ q l A, σ !! q = Some l → A ∈ l → ar_blk A ≠ b) →
  used live' = delete b (used live) → keeps (delete b (used live)) (h_mem h) m' → stored (h_mem h) σ free head →
  stored m' σ free head ∧ layout live' σ free pools.
Proof.
  intros Hi Hly [c Hb] Hbp Hnew Hu Hk Hst. split.
  - eapply stored_agree; [|exact Hst]. intros x Hx. symmetry.
    pose proof (book_off_block Hi Hly b c x Hb Hbp Hnew Hx).
    destruct (book_used k live σ free pools h x Hi Hly Hx) as (a&d&Ha&Hxa).
    apply (Hk a d); [|done]. apply lookup_delete_Some. split; [|done]. intros ->. rewrite Hb in Ha. simplify_eq. lia.
  - destruct Hly as [Hp ? ? ? Hok ? ?]. split; try done.
    + intros a Ha. rewrite Hu, lookup_delete_ne; [by apply Hp|]. by intros ->.
    + intros q l A Hl HA. destruct (Hok q l A Hl HA) as [[HuA ? ?] ?]. split; [|done]. split; [|done|done].
      rewrite Hu, lookup_delete_ne; [done|]. apply not_eq_sym. by eapply Hnew.
Qed.

Lemma freeing_step k live0 σ free pools s0 p gone live A rest s live' h :
  freeing k live0 σ free pools s0 p gone live (ar_area A) (A :: rest) s →
  free_done k live (al_heap s) (ar_blk A) live' h →
  freeing k live0 σ free pools s0 p (ar_blk A :: gone) live' (load 8 (h_mem (al_heap s)) (ar_area A + 24)) rest (set_heap h s).
Proof.
  intros [Hi Hly Hre Hst Har Hu Hk Hf] [Hi' Hu' Hk' Hp']. destruct Hre as [Hps Hpf Hok Hnd Hap].
  destruct (Hok A) as [[HuA _ _] HpA]; [by left|]. destruct Har as (_&_&_&_&_&Hrest).
  cbn [fmap list_fmap] in Hnd. apply list.NoDup_cons in Hnd as [HAn Hnd].
  assert (∀ B, B ∈ rest → ar_blk B ≠ ar_blk A) as HBne.
  { intros B HB E. apply HAn. rewrite <-E. by apply list_elem_of_fmap_2. }
  assert (∀ q l B, delete p σ !! q = Some l → B ∈ l → ar_blk B ≠ ar_blk A) as Hother.
  { intros q l B [Hne Hq]%lookup_delete_Some HB. apply not_eq_sym. eapply Hap; [by apply not_eq_sym|exact Hq|by left|done]. }
  destruct (stored_after_free k live live' (delete p σ) free pools (al_heap s) (h_mem h) (ar_blk A) (_free_alls s0))
    as [Hst' Hly']; try done; [by eexists|].
  assert (∀ b c x, used live !! b = Some c → b ≠ ar_blk A → b <= x < b + bsize c → load8 (h_mem h) x = load8 (h_mem (al_heap s)) x)
    as Hag by (intros b c x Hb Hne Hx; apply (Hk' b c); [by rewrite lookup_delete_ne|done]).
  split; [done|done| |done| | | |done].
  - split; [done|done| |done|].
    + intros B HB. destruct (Hok B) as [[? ? ?] ?]; [by right|]. split; [|done]. split; [|done|done].
      rewrite Hu', lookup_delete_ne; [done|]. by apply not_eq_sym, HBne.
    + intros q l B C Hq Hl HB. eapply Hap; [done|done|by right].
  - eapply areas_agree; [|exact Hrest]. intros B HB. destruct (Hok B) as [[HuB ? _] _]; [by right|].
    destruct (used_bounds Hi _ _ HuB) as (_&_&?&_). unfold ar_area, ar_base, ar_guard.
    split; intros x Hx; symmetry; eapply Hag; [exact HuB|by apply HBne|lia|exact HuB|by apply HBne|lia].
  - intros b. rewrite Hu', lookup_delete, Hu. repeat case_decide; try done; set_solver.
  - intros b c x Hb Hx. cbn [set_heap al_heap]. rewrite (Hk' b c x); [|by rewrite <-Hu'|done].
    apply (Hk b c); [|done]. rewrite Hu' in Hb. by apply lookup_delete_Some in Hb as [_ ?].
Qed.

(** One round of the loop. *)
Lemma wp_free_area k live0 σ free pools s0 p gone live A rest s (Q : Z + unit → allocs P → Prop) :
  freeing k live0 σ free pools s0 p gone live (ar_area A) (A :: rest) s →
  (∀ live' a s', freeing k live0 σ free pools s0 p (ar_blk A :: gone) live' a rest s' →
    same_pages (al_heap s) (al_heap s') → Q (inl a) s') →
  wp (free_area p (ar_area A)) Q s.
Proof.
  intros Hfg HQ. pose proof Hfg as [Hi Hly Hre Hst Har Hu Hk Hf]. destruct (fi_ok _ _ _ _ _ _ Hre A) as [[HuA Huse _] _]; [by left|].
  destruct Har as (_&Hbl&Hle&_&Hgu&_). destruct (used_bounds Hi _ _ HuA) as (_&_&Hb&_).
  destruct (area_words _ _ _ _ _ Hi HuA) as (E8&_&E24&_&_&_&Hal&_&_&Hn).
  unfold free_area, _area_block_end, get_block, get_block_len, get_prev_area, ar_area in *.
  rewrite (proj2 (Z.eqb_neq _ _)) by done. rewrite E8, E24.
  replace (ar_blk A + 24 + 8) with (ar_blk A + 32) in Hle by lia.
  wp_step. wp_step. eapply wp_area_read; [exact Hi|exact HuA|lia|lia|]. rewrite Hbl.
  wp_step. eapply wp_area_read; [exact Hi|exact HuA|lia|lia|]. rewrite Hle. wp_step.
  assert ((ar_base A + ar_len A)%u64 = ar_guard A) as ->.
  { unfold ar_base, ar_len, ar_guard. pose proof (used_u64 Hi _ _ (bsize (ar_class A) - 8) HuA ltac:(lia)) as E.
    unfold uadd in E |- *. replace (ar_blk A + 56 + (bsize (ar_class A) - 64)) with (ar_blk A + (bsize (ar_class A) - 8)) by lia.
    rewrite E. lia. }
  wp_step. wp_step; [exact Hal|]. wp_step. eapply wp_aread; [exact Hi|exact HuA|unfold ar_guard; lia|unfold ar_guard; lia|].
  rewrite Hgu. wp_step. wp_step; [apply Z.eqb_refl|]. wp_step. eapply wp_area_read; [exact Hi|exact HuA|lia|lia|].
  wp_step. apply wp_on_heap. eapply wp_heap_free; [exact Hi|exact HuA|]. intros live' h Hfr. wp_step.
  pose proof (freeing_step _ _ _ _ _ _ _ _ _ _ _ _ _ _ Hfg Hfr) as Hfg'. unfold ar_area in Hfg'.
  replace (ar_blk A + 24 + 24) with (ar_blk A + 48) in Hfg' by lia. eapply HQ; [exact Hfg'|]. apply Hfr.
Qed.

Lemma wp_free_areas k live0 σ free pools s0 p l0 (Q : unit → allocs P → Prop) :
  (∀ live s', freeing k live0 σ free pools s0 p (rev (ar_blk <$> l0)) live NULL [] s' → Q () s') →
  ∀ rest fuel done live a s, (length rest < fuel)%nat → l0 = done ++ rest →
  freeing k live0 σ free pools s0 p (rev (ar_blk <$> done)) live a rest s → wp (loop fuel (free_area p) a) Q s.
Proof.
  intros HQ. induction rest as [|A rest IH]; intros fuel dn live a s Hfuel Hl Hfg; destruct fuel as [|fuel];
    cbn [length] in Hfuel; [lia| |lia|].
  - apply wp_loop_step. pose proof (fg_areas _ _ _ _ _ _ _ _ _ _ _ _ Hfg) as ->. unfold free_area. rewrite Z.eqb_refl.
    apply wp_ret. rewrite app_nil_r in Hl. subst dn. by eapply HQ.
  - apply wp_loop_step. destruct (fg_areas _ _ _ _ _ _ _ _ _ _ _ _ Hfg) as (->&_).
    eapply wp_free_area; [exact Hfg|]. intros live' a s' Hfg' _. eapply (IH fuel (dn ++ [A])); [lia|by rewrite <-app_assoc|].
    rewrite fmap_app, rev_app_distr. exact Hfg'.
Qed.

(** What freeing the allocator [p] with the areas [l] makes of the state. *)
Record released (k : Z) (live : tiling) (σ : arenas) (free pools : list Z) (s : allocs P) (p : Z) (l : list arena)
    (s' : allocs P) : Prop := {
  rl_inv : ∃ live', alloc_inv k live' (delete p σ) (p :: free) pools s' ∧
    ∀ b, used live' !! b = if decide (b ∈ ar_blk <$> l) then None else used live !! b;
  rl_keeps b c x : used live !! b = Some c → b ∉ ar_blk <$> l → b <= x < b + bsize c → ¬ (p <= x < p + 16) →
    load8 (h_mem (al_heap s')) x = load8 (h_mem (al_heap s)) x;
}.

Lemma freeing_start k live σ free pools s p l : alloc_inv k live σ free pools s → σ !! p = Some l →
  freeing k live σ free pools s p [] live (load 8 (h_mem (al_heap s)) p) l s.
Proof.
  intros [Hi Hly Hst] Hp. split; [done|by apply layout_delete|by apply layout_fits|by apply stored_delete| | |done|done].
  - by apply (sd_areas _ _ _ _ Hst).
  - intros b. rewrite decide_False; [done|]. apply not_elem_of_nil.
Qed.

Lemma wp_mm_allocator_free k live σ free pools s p l (Q : unit → allocs P → Prop) :
  alloc_inv k live σ free pools s → σ !! p = Some l → (∀ s', released k live σ free pools s p l s' → Q () s') →
  wp (mm_allocator_free p) Q s.
Proof.
  intros Hinv Hp HQ. pose proof Hinv as [Hi Hly Hst]. pose proof (layout_fits _ _ _ _ _ _ Hly Hp) as [Hps Hpf Hok Hnd _].
  destruct (slot_u64 _ _ _ _ _ _ p Hinv Hps) as (_&_&Hp8&_).
  unfold mm_allocator_free, get_areas, set_areas, set_next_all. rewrite Hp8, <-(Z.add_0_r p).
  wp_step. eapply wp_slot_read; [exact Hi|exact Hly|exact Hps|lia|]. rewrite Z.add_0_r. wp_step. wp_step. wp_step.
  eapply (wp_free_areas k live σ free pools s p l) with (rest := l) (done := []) (live := live);
    [| |done|by apply freeing_start].
  2:{ unfold area_fuel. assert (length l <= Z.to_nat ((_heap_end (al_heap s) - VA_48_HEAP) / 4096))%nat; [|unfold PAGE_SIZE_VALUE_4K; lia].
      rewrite <-(length_fmap ar_blk). eapply blocks_bounded; [apply (inv_rep _ _ _ Hi)|done|].
      intros b (A&->&HA)%list_elem_of_fmap. destruct (Hok A HA) as [[Hu%used_lookup _ _] _]. by eexists. }
  intros live' s1 [Hi1 Hly1 _ Hst1 _ Hu1 Hk1 Hf1].
  wp_step. replace (awrite p NULL) with (awrite (P := P) (p + 0) NULL) by (by rewrite Z.add_0_r).
  eapply (wp_slot_write k live' (delete p σ) free pools s1 p 0); [exact Hi1|done|done|lia|]. intros Hi2.
  pose proof (stored_poke_slot k live' _ free pools s1 p 0 NULL _ Hi1 Hly1 Hps Hpf (lookup_delete_eq _ _) ltac:(lia) Hst1) as Hst2.
  rewrite Z.add_0_r in Hi2, Hst2 |- *. set (s2 := poke p NULL s1) in *. rewrite <-Hf1 in Hst2. change (_free_alls s1) with (_free_alls s2) in Hst2.
  assert (alloc_inv k live' (delete p σ) free pools s2) as Hinv2 by done.
  wp_step. wp_step. wp_step. eapply (wp_slot_write k live' (delete p σ) free pools s2 p 8); [exact Hi2|done|done|lia|]. intros _.
  wp_step. apply HQ. split.
  - exists live'. split; [by apply inv_push_free; [|done|done|apply lookup_delete_eq]|]. intros b. rewrite Hu1.
    apply decide_ext. rewrite !list_elem_of_In, <-in_rev. done.
  - intros b c x Hb Hbl Hx Hxp. change (al_heap (set_free_alls _ ?t)) with (al_heap t). rewrite poke_outside by lia.
    unfold s2. rewrite poke_outside by lia. apply (Hk1 b c); [|done]. rewrite Hu1, decide_False; [done|].
    by rewrite list_elem_of_In, <-in_rev, <-list_elem_of_In.
Qed.

End free.
