(* ===== verification/MmAllocatorTop.v ===== *)
(** The theorems on the object allocator, and their instances on a heap with
    enough pages. *)
From S2P Require Import Prelude Memory Util MmCore MmHeap HeapTiling.
From S2P Require Import MmHeapRep MmHeapLists MmHeapOps MmHeapAlloc MmHeapFree MmHeapTop.
From S2P Require Import MmHeapClient MmAllocator MmAllocatorRep MmAllocatorOps MmAllocatorTake MmAllocatorFree.

Section top.
Context {P : Type} `{PageSourceSpec P}.
Implicit Types (s : allocs P) (live : tiling) (σ : arenas) (free pools : list Z).

(** A region that was handed out does not meet the records. *)
Lemma region_not_book k live σ free pools (h : heap P) x n i : heap_inv k live h → layout live σ free pools →
  region σ x n → x <= i < x + n → ¬ book σ free i ∧
  ∃ a c, used live !! a = Some c ∧ a <= i < a + bsize c.
Proof.
  intros Hi Hly (p&l&A&Hp&HA&[Hu Huse _]&Hn&Hr&?&?&?&?)%(region_block Hly) Hx.
  destruct (used_bounds Hi _ _ Hu) as (_&_&Hb&_). split.
  - intros [(q&Hq&Hiq)|(q&l'&B&Hl'&HB&Hrec)].
    + destruct (area_off_slot Hi Hly q p l A i) as [?|?]; [by apply (ly_slots _ _ _ _ Hly)|done|done| |lia|lia].
      unfold ar_base, ar_guard in *. lia.
    + pose proof (record_in_block Hi Hly q l' B i Hl' HB Hrec) as HiB.
      destruct (decide (ar_blk A = ar_blk B)) as [E|E].
      * pose proof (ly_apart _ _ _ _ Hly p q l l' A B Hp Hl' HA HB E) as <-. simplify_eq.
        assert (A = B) as <-.
        { pose proof (ly_nodup _ _ _ _ Hly p l Hp) as Hnd. apply list_elem_of_lookup in HA as [u HA], HB as [v HB].
          assert (u = v) as ->; [|congruence].
          eapply (NoDup_lookup (ar_blk <$> l)); [done|by rewrite list_lookup_fmap, HA|by rewrite list_lookup_fmap, HB, E]. }
        unfold ar_area, ar_base, ar_guard in *. lia.
      * destruct (ly_ok _ _ _ _ Hly q l' B Hl' HB) as [[HuB _ _] _].
        pose proof (used_disjoint Hi _ _ _ _ Hu HuB E). unfold ar_base, ar_guard in *. lia.
  - exists (ar_blk A), (ar_class A). split; [done|]. unfold ar_base, ar_guard in *. lia.
Qed.

Lemma calm_regions k live σ free pools (h : heap P) m' : heap_inv k live h → layout live σ free pools →
  calm live σ free (h_mem h) m' → regions_keep σ (h_mem h) m'.
Proof.
  intros Hi Hly Hc x n i Hr Hx. destruct (region_not_book k live σ free pools h x n i Hi Hly Hr Hx) as (Hb&a&c&Ha&Hai).
  by eapply Hc.
Qed.

(** The regions handed out by the allocator [p]. *)
Definition region_of (σ : arenas) (p x n : Z) : Prop := ∃ l A, σ !! p = Some l ∧ A ∈ l ∧ (x, n) ∈ ar_regs A.

Lemma region_of_other σ p q l y n : q ≠ p → region_of (<[p := l]> σ) q y n ↔ region_of σ q y n.
Proof. intros Hq. unfold region_of. by rewrite lookup_insert_ne. Qed.

Lemma region_of_delete σ p q y n : region_of (delete p σ) q y n ↔ q ≠ p ∧ region_of σ q y n.
Proof.
  unfold region_of. split.
  - intros (l&A&[? ?]%lookup_delete_Some&?&?). split; [done|]. by exists l, A.
  - intros (?&l&A&?&?&?). exists l, A. by rewrite lookup_delete_ne.
Qed.

Lemma region_of_region σ p x n : region_of σ p x n → region σ x n.
Proof. intros (l&A&?&?&?). by exists p, l, A. Qed.

(** Regions of different areas do not meet. *)
Lemma regions_apart k live σ free pools (h : heap P) p q l l' A B x n y m : heap_inv k live h → layout live σ free pools →
  σ !! p = Some l → σ !! q = Some l' → A ∈ l → B ∈ l' → ar_blk A ≠ ar_blk B → (x, n) ∈ ar_regs A → (y, m) ∈ ar_regs B →
  x + n <= y ∨ y + m <= x.
Proof.
  intros Hi Hly Hp Hq HA HB Hne Hx Hy. destruct (ly_ok _ _ _ _ Hly p l A Hp HA) as [[HuA ? HsA] _].
  destruct (ly_ok _ _ _ _ Hly q l' B Hq HB) as [[HuB ? HsB] _]. pose proof (used_disjoint Hi _ _ _ _ HuA HuB Hne).
  destruct (stacked_in _ _ _ _ _ HsA Hx) as (?&?&?), (stacked_in _ _ _ _ _ HsB Hy) as (?&?&?).
  unfold ar_len, ar_base in *. lia.
Qed.

(** What the request adds to the regions. *)
Lemma allocated_regions k live σ free pools s p l size align A l' s' : alloc_inv (k + 1) live σ free pools s →
  σ !! p = Some l → allocated k live σ free pools s p l size align A l' s' → let x := next_addr A align in
  let σ' := <[p := taken A size align :: l']> σ in
  (∀ q y n, region_of σ' q y n ↔ region_of σ q y n ∨ q = p ∧ y = x ∧ n = size) ∧
  ∀ y n, region σ y n → x + size <= y ∨ y + n <= x.
Proof.
  intros [Hi Hly _] Hp [(live'&[Hi' Hly' _]&Hu) Hroom Harea _] x σ'.
  assert (σ' !! p = Some (taken A size align :: l')) as Hp' by apply lookup_insert_eq.
  assert (∀ B, B ∈ l → B = A ∨ B ∈ l' ∧ ar_blk B ≠ ar_blk A) as Hl.
  { pose proof (ly_nodup _ _ _ _ Hly' p _ Hp') as Hnd. cbn [fmap list_fmap] in Hnd. apply list.NoDup_cons in Hnd as [Hn _].
    assert (∀ B, B ∈ l' → ar_blk B ≠ ar_blk A) as Hne by (intros B HB E; apply Hn; change (ar_blk (taken A size align)) with (ar_blk A); rewrite <-E; by apply list_elem_of_fmap_2).
    intros B HB. destruct Harea as [->|(->&_)]; [|right; eauto]. apply elem_of_cons in HB as [->|?]; [by left|right; eauto]. }
  assert (∀ B, B ∈ l' → B ∈ l) as Hl' by (destruct Harea as [->|(->&_)]; [by right|done]).
  assert (∀ r, r ∈ ar_regs A → A ∈ l) as HA by (destruct Harea as [->|(_&_&_&->&_)]; [by left|by intros ? ?%elem_of_nil]).
  split.
  - intros q y n. destruct (decide (q = p)) as [->|Hq]; [|unfold σ'; rewrite region_of_other by done; naive_solver].
    split.
    + intros (l1&B&Hl1&HB&Hr). rewrite Hp' in Hl1. injection Hl1 as <-. apply elem_of_cons in HB as [->|HB].
      * cbn [taken ar_regs] in Hr. apply elem_of_cons in Hr as [[= -> ->]|Hr]; [by right|]. left. exists l, A. eauto.
      * left. exists l, B. eauto.
    + intros [(l1&B&Hl1&HB&Hr)|(_&->&->)].
      * rewrite Hp in Hl1. injection Hl1 as <-. destruct (Hl B HB) as [->|[HB' _]].
        -- exists (taken A size align :: l'), (taken A size align). split; [done|]. split; [by left|]. by right.
        -- exists (taken A size align :: l'), B. split; [done|]. split; [by right|done].
      * exists (taken A size align :: l'), (taken A size align). split; [done|]. split; by left.
  - intros y n (q&l1&B&Hq&HB&Hr).
    assert (∃ l2, σ' !! q = Some l2 ∧ (q = p ∧ B = A ∨ B ∈ l2 ∧ ar_blk (taken A size align) ≠ ar_blk B)) as (l2&Hl2&Hcase).
    { destruct (decide (q = p)) as [->|Hne].
      - rewrite Hp in Hq. injection Hq as <-. exists (taken A size align :: l'). split; [done|].
        destruct (Hl B HB) as [->|[HB' HBA]]; [by left|]. right. split; [by right|]. by apply not_eq_sym.
      - exists l1. split; [unfold σ'; by rewrite lookup_insert_ne|]. right. split; [done|]. intros E. apply Hne.
        eapply (ly_apart _ _ _ _ Hly' q p l1 _ B (taken A size align)); [unfold σ'; by rewrite lookup_insert_ne|done|done|by left|done]. }
    destruct Hcase as [[-> ->]|[HB2 Hne]].
    + destruct (ly_ok _ _ _ _ Hly' p _ (taken A size align) Hp') as [[_ _ Hs] _]; [by left|]. cbn [taken ar_regs stacked] in Hs.
      destruct Hs as (_&_&Hs). destruct (stacked_in _ _ _ _ _ Hs Hr) as (?&?&?). right. unfold x. lia.
    + eapply (regions_apart k live' σ' free pools (al_heap s') p q _ l2 (taken A size align) B); try done; by left.
Qed.

Lemma new_reach k live σ free pools s : alloc_inv (k + 1) live σ free pools s → 0 <= k →
  ∃ p s', mm_allocator_new s = Done (p, s') ∧ renewed k live σ free s p s'.
Proof. intros Hinv Hk. apply wp_done. by eapply wp_mm_allocator_new. Qed.

Lemma allocate_reach k live σ free pools s p l size align : alloc_inv (k + 1) live σ free pools s → 0 <= k →
  σ !! p = Some l → 0 <= size → 0 < align → size + align <= bsize 15 - 64 →
  (∀ B, head l = Some B → ar_use B + needed B size align ≠ ar_len B) →
  ∃ x s', mm_allocate p size align s = Done (x, s') ∧
    ∃ A l', x = next_addr A align ∧ allocated k live σ free pools s p l size align A l' s'.
Proof. intros Hinv Hk Hp Hs Ha Hsum Hex. apply wp_done. eapply (wp_mm_allocate Hinv); [done..|]. eauto. Qed.

(** [mm_allocator_new] returns an allocator that was not in use and has
    handed out nothing; the regions of the others keep their bytes. *)
Theorem mm_allocator_new_ok k live σ free pools s (Hinv : alloc_inv (k + 1) live σ free pools s) (Hk : 0 <= k) :
  ∃ p s' live' σ' free' pools', mm_allocator_new s = Done (p, s') ∧ alloc_inv k live' σ' free' pools' s' ∧
    σ !! p = None ∧ σ' = <[p := []]> σ ∧ regions_keep σ (h_mem (al_heap s)) (h_mem (al_heap s')).
Proof.
  destruct (new_reach k live σ free pools s Hinv Hk) as (p&s'&Hrun&[(live'&free'&pools'&Hinv'&_) Hf Hc]).
  exists p, s', live', (<[p := []]> σ), free', pools'. split; [done|]. split; [done|]. split; [done|]. split; [done|].
  eapply calm_regions; [apply Hinv|apply Hinv|done].
Qed.

(** The request fills the newest area to its last byte. *)
Definition exact_fit (l : list arena) (size align : Z) : bool :=
  match l with [] => false | A :: _ => ar_use A + needed A size align =? ar_len A end.

(** C7: [mm_allocate] returns, for every size and alignment that one heap block
    can serve, the address of a region at a multiple of the alignment that
    meets no region handed out before by any allocator, all of which keep their
    bytes; exactly this region is added.  The one exception is a request that
    would fill the newest area to its last byte: it fails an assertion. *)
Theorem mm_allocate_ok k live σ free pools s p l size align (Hinv : alloc_inv (k + 1) live σ free pools s) (Hk : 0 <= k)
    (Hp : σ !! p = Some l) (Hsize : 0 <= size) (Halign : 0 < align) (Hsum : size + align <= bsize 15 - 64) :
  if exact_fit l size align then mm_allocate p size align s = Assert
  else ∃ x s' live' σ', mm_allocate p size align s = Done (x, s') ∧ (align | x) ∧ alloc_inv k live' σ' free pools s' ∧
    (∀ q, is_Some (σ' !! q) ↔ is_Some (σ !! q)) ∧
    (∀ q y n, region_of σ' q y n ↔ region_of σ q y n ∨ q = p ∧ y = x ∧ n = size) ∧
    (∀ y n, region σ y n → x + size <= y ∨ y + n <= x) ∧ regions_keep σ (h_mem (al_heap s)) (h_mem (al_heap s')).
Proof.
  destruct (exact_fit l size align) eqn:Hfit.
  - destruct l as [|B l]; [done|]. cbn in Hfit. apply Z.eqb_eq in Hfit. by eapply (mm_allocate_exact Hinv).
  - destruct (allocate_reach k live σ free pools s p l size align) as (x&s'&Hrun&A&l'&->&Had); try done.
    { intros B HB. destruct l; simplify_eq/=. by apply Z.eqb_neq. }
    destruct (allocated_regions _ _ _ _ _ _ _ _ _ _ _ _ _ Hinv Hp Had) as [Hr Hap].
    destruct Had as [(live'&Hinv'&_) _ _ Hc]. exists (next_addr A align), s', live', (<[p := taken A size align :: l']> σ).
    split; [done|]. split; [by apply pad_aligned|]. split; [done|]. split.
    + intros q. rewrite lookup_insert_is_Some. split; [|destruct (decide (q = p)); naive_solver].
      intros [<-|[_ ?]]; [by exists l|done].
    + split; [done|]. split; [done|]. eapply calm_regions; [apply Hinv|apply Hinv|done].
Qed.

(** C10: [mm_allocator_free] gives every area of the allocator back to the heap
    and its record to the free ones; the regions of the other allocators stay
    handed out and keep their bytes. *)
Theorem mm_allocator_free_ok k live σ free pools s p l (Hinv : alloc_inv k live σ free pools s) (Hp : σ !! p = Some l) :
  ∃ s' live', mm_allocator_free p s = Done ((), s') ∧ alloc_inv k live' (delete p σ) (p :: free) pools s' ∧
    (∀ b, used live' !! b = if decide (b ∈ ar_blk <$> l) then None else used live !! b) ∧
    regions_keep (delete p σ) (h_mem (al_heap s)) (h_mem (al_heap s')).
Proof.
  destruct (wp_done (mm_allocator_free p) (λ _ s', released k live σ free pools s p l s') s) as [Hw _].
  destruct Hw as ([]&s'&Hrun&[(live'&Hinv'&Hu) Hk]); [by eapply wp_mm_allocator_free|].
  exists s', live'. split; [done|]. split; [done|]. split; [done|]. intros x n i Hr Hx.
  pose proof Hinv as [Hi Hly _]. destruct Hr as (q&l'&A&[Hne Hq]%lookup_delete_Some&HA&Hr).
  assert (region σ x n) as Hreg by (by exists q, l', A).
  destruct (ly_ok _ _ _ _ Hly q l' A Hq HA) as [[HuA ? Hs] _]. destruct (stacked_in _ _ _ _ _ Hs Hr) as (?&?&?).
  apply (Hk (ar_blk A) (ar_class A)); [done| |unfold ar_base, ar_len in *; lia|].
  - intros (B&E&HB)%list_elem_of_fmap. by destruct (ly_apart _ _ _ _ Hly q p l' l A B Hq Hp HA HB E).
  - intros Hxp. destruct (region_not_book k live σ free pools (al_heap s) x n i Hi Hly Hreg Hx) as [Hb _].
    destruct Hb. left. exists p. split; [right; by exists l|done].
Qed.
End top.

(* --------------------------------------------------------------------- *)
(** ** Instances *)

(** An empty heap that can grow twice, after [mm_allocator_bootstrap]. *)
Definition flat_allocs : allocs flat := Allocs flat_heap NULL.

Lemma flat_allocs_inv : alloc_inv 2 ∅ ∅ [] [] flat_allocs.
Proof.
  split; [exact flat_heap_inv| |].
  - split; try (by intros ? ?%elem_of_nil); try (by intros ? ? ? ?%lookup_empty_Some).
    + intros p [?%elem_of_nil|[l ?%lookup_empty_Some]]; done.
    + constructor.
    + by intros ? ? ?%lookup_empty_Some.
    + by intros ? ? ? ? ? ? ?%lookup_empty_Some.
  - split; [done|]. by intros ? ? ?%lookup_empty_Some.
Qed.

Lemma mm_allocator_new_ok_witness : ∃ p s', mm_allocator_new flat_allocs = Done (p, s').
Proof.
  destruct (mm_allocator_new_ok 1 ∅ ∅ [] [] flat_allocs) as (p&s'&_&_&_&_&Hrun&_).
  - exact flat_allocs_inv.
  - lia.
  - exists p, s'. exact Hrun.
Defined.

Lemma sample_new : ∃ p s' live' free' pools', mm_allocator_new flat_allocs = Done (p, s') ∧
  alloc_inv 1 live' {[p := []]} free' pools' s'.
Proof.
  destruct (new_reach 1 ∅ ∅ [] [] flat_allocs flat_allocs_inv ltac:(lia)) as (p&s'&Hrun&[(live'&free'&pools'&Hinv'&_) _ _]).
  exists p, s', live', free', pools'. split; [exact Hrun|exact Hinv'].
Qed.

Lemma mm_allocate_ok_witness : ∃ p s1 x s2, mm_allocator_new flat_allocs = Done (p, s1) ∧
  mm_allocate p 100 48 s1 = Done (x, s2) ∧ (48 | x).
Proof.
  destruct sample_new as (p&s1&live&free&pools&Hrun&Hinv). exists p, s1.
  destruct (mm_allocate_ok 0 live {[p := []]} free pools s1 p [] 100 48) as (x&s2&_&_&Hrun2&Hx&_).
  - exact Hinv.
  - lia.
  - apply lookup_singleton_eq.
  - lia.
  - lia.
  - change (bsize 15) with 134217728. lia.
  - exists x, s2. split; [exact Hrun|]. split; [exact Hrun2|exact Hx].
Defined.

Lemma sample_allocated : ∃ p s live σ free pools l, alloc_inv 0 live σ free pools s ∧ σ !! p = Some l ∧ l ≠ [].
Proof.
  destruct sample_new as (p&s1&live&free&pools&_&Hinv).
  destruct (allocate_reach 0 live {[p := []]} free pools s1 p [] 100 48) as (x&s2&_&A&l'&_&[(live'&Hinv'&_) _ _ _]);
    [exact Hinv|lia|apply lookup_singleton_eq|lia|lia|change (bsize 15) with 134217728; lia|done|].
  exists p, s2, live', (<[p := taken A 100 48 :: l']> {[p := []]}), free, pools, (taken A 100 48 :: l').
  split; [exact Hinv'|]. split; [apply lookup_insert_eq|done].
Qed.

Lemma mm_allocator_free_ok_witness : ∃ p (s s' : allocs flat), mm_allocator_free p s = Done ((), s') ∧
  _free_alls s' = p.
Proof.
  destruct sample_allocated as (p&s&live&σ&free&pools&l&Hinv&Hp&_). exists p, s.
  destruct (mm_allocator_free_ok 0 live σ free pools s p l) as (s'&live'&Hrun&Hinv'&_).
  - exact Hinv.
  - exact Hp.
  - exists s'. split; [exact Hrun|]. apply (sd_free _ _ _ _ (ai_stored _ _ _ _ _ _ Hinv')).
Defined.
