(* ===== verification/Nvme.v ===== *)
(** The NVMe driver, src/drivers/drivers_nvme.c: it records a controller for
    each function of the PCI express scan with the class of NVMe.

    What the first base address register of a function holds after a write is a
    parameter; the configuration space and the heap are separate memories. *)
From S2P Require Import Prelude Memory Util MmCore MmHeap HeapTiling.
From S2P Require Import MmHeapRep MmHeapTop Pcie MmAllocator MmAllocatorRep MmAllocatorOps.
From S2P Require Import MmAllocatorTop.

Definition _CLASS_CODE_BASE : Z := 0x01.
Definition _CLASS_CODE_SUB : Z := 0x08.
Definition _CFG_SPACE_BAR_0 : Z := 0x10.
Definition _CFG_SPACE_BAR_0_BASE_MASK : Z := 0xFFFFC000.
Definition _CTRL_CAP : Z := 32.

(** struct d_nvme_ctrl; [None] is the null pointer. *)
Record d_nvme_ctrl := Ctrl {
  c_mm : Z;
  c_pcie : option d_pcie_func;
  reg_size : Z;
  regs : Z;
}.

(** The value that the register keeps of the value written. *)
Class NvmeDevices := { bar_0 : d_pcie_func → Z → Z }.

Record nvme (P : Type) := Nvme {
  nv_alls : allocs P;
  nv_pcie : world pcie;
  _ctrls : list d_nvme_ctrl;
  _ctrl_cnt : Z;
}.
Arguments Nvme {P} _ _ _ _.
Arguments nv_alls {P} _.
Arguments nv_pcie {P} _.
Arguments _ctrls {P} _.
Arguments _ctrl_cnt {P} _.

Definition set_alls {P} (a : allocs P) (s : nvme P) : nvme P := Nvme a (nv_pcie s) (_ctrls s) (_ctrl_cnt s).
Definition set_nv_pcie {P} (w : world pcie) (s : nvme P) : nvme P := Nvme (nv_alls s) w (_ctrls s) (_ctrl_cnt s).
Definition set_ctrls {P} (l : list d_nvme_ctrl) (s : nvme P) : nvme P := Nvme (nv_alls s) (nv_pcie s) l (_ctrl_cnt s).
Definition set_ctrl_cnt {P} (n : Z) (s : nvme P) : nvme P := Nvme (nv_alls s) (nv_pcie s) (_ctrls s) n.

Section driver.
Context {P : Type} `{PageSource P} `{NvmeDevices}.

Local Abbreviation NM := (M (nvme P)).

Definition on_alls {A} (m : M (allocs P) A) : NM A := zoom nv_alls set_alls m.
Definition on_pcie {A} (m : PM A) : NM A := zoom nv_pcie set_nv_pcie m.

(** A field of _ctrls[i]. *)
Definition update_ctrl (i : Z) (f : d_nvme_ctrl → d_nvme_ctrl) : NM unit :=
  cs ← gets _ctrls;
  c ← array_get cs i;
  cs ← array_set cs i (f c);
  modify (set_ctrls cs).

Definition _ctrl_add (pcie_fun : d_pcie_func) : NM unit :=
  ctrl ← gets _ctrl_cnt;
  modify (set_ctrl_cnt (ctrl + 1)%u64) ;;
  all ← on_alls mm_allocator_new;
  update_ctrl ctrl (λ c, Ctrl all (c_pcie c) (reg_size c) (regs c)) ;;
  update_ctrl ctrl (λ c, Ctrl (c_mm c) (Some pcie_fun) (reg_size c) (regs c)) ;;
  on_pcie (d_pcie_cfg_space_write_dword pcie_fun _CFG_SPACE_BAR_0 (bar_0 pcie_fun 0xFFFFFFFF)) ;;
  bar0 ← on_pcie (d_pcie_cfg_space_read_dword pcie_fun _CFG_SPACE_BAR_0);
  let by_ := u8 (Z.land bar0 0xFF) in
  kernel_assert (by_ =? 4) ;;
  let bar0 := Z.land bar0 _CFG_SPACE_BAR_0_BASE_MASK in
  size ← mm_align_class bar0;
  update_ctrl ctrl (λ c, Ctrl (c_mm c) (c_pcie c) size (regs c)).

Definition is_nvme (f : d_pcie_func) : bool :=
  (d_pcie_func_get_base_class f =? _CLASS_CODE_BASE) && (d_pcie_func_get_sub_class f =? _CLASS_CODE_SUB).

Definition d_nvme_bootstrap : NM unit :=
  func_cnt ← on_pcie d_pcie_get_func_cnt;
  for_n (Z.to_nat func_cnt) 0 (λ i,
    fun_ ← on_pcie (d_pcie_get_func i);
    if is_nvme fun_ then
      _ctrl_add fun_ ;;
      vname ← on_pcie (d_pcie_func_get_vendor_name fun_);
      dname ← on_pcie (d_pcie_func_get_device_name fun_);
      mret ()
    else mret ()).
End driver.

(* ===================================================================== *)
(** ** The controllers found *)

(** A function whose first register is a 64-bit one of at least 16K. *)
Definition answers_as_nvme `{NvmeDevices} (f : d_pcie_func) : Prop :=
  let b := bar_0 f 0xFFFFFFFF in
  group_ok (f_group f) ∧ bdf_ok (f_bus f) (f_dev f) (f_fun f) ∧ 0 <= b < 4294967296 ∧
  Z.land b 0xFF = 4 ∧ Z.land b _CFG_SPACE_BAR_0_BASE_MASK ≠ 0.

(** [size] is the lowest bit of the base address that the device decodes. *)
Definition lowest_bit (x size : Z) : Prop := ∃ k, size = 2 ^ k ∧ 0 < k < 63 ∧ (size | x) ∧ ¬ (2 * size | x).

Definition ctrl_of `{NvmeDevices} (f : d_pcie_func) (c : d_nvme_ctrl) : Prop :=
  c_pcie c = Some f ∧ lowest_bit (Z.land (bar_0 f 0xFFFFFFFF) _CFG_SPACE_BAR_0_BASE_MASK) (reg_size c).

Lemma wp_read_bar f (Q : Z → world pcie → Prop) w : group_ok (f_group f) → bdf_ok (f_bus f) (f_dev f) (f_fun f) →
  Q (load 4 (w_mem w) (cfg_address (f_group f) (f_bus f) (f_dev f) (f_fun f) _CFG_SPACE_BAR_0)) w →
  wp (d_pcie_cfg_space_read_dword f _CFG_SPACE_BAR_0) Q w.
Proof.
  intros Hg Hb HQ. unfold d_pcie_cfg_space_read_dword, _cfg_space_read_dword.
  wp_step. wp_step; [done|]. wp_step. wp_step; [done|]. wp_step. apply wp_cfg_space_pa; [done|done|by unfold _CFG_SPACE_BAR_0|].
  by apply wp_read.
Qed.

Lemma wp_write_bar f v (Q : unit → world pcie → Prop) w : group_ok (f_group f) → bdf_ok (f_bus f) (f_dev f) (f_fun f) →
  Q () (World (store 4 (cfg_address (f_group f) (f_bus f) (f_dev f) (f_fun f) _CFG_SPACE_BAR_0) v (w_mem w)) (w_st w)) →
  wp (d_pcie_cfg_space_write_dword f _CFG_SPACE_BAR_0 v) Q w.
Proof.
  intros Hg Hb HQ. unfold d_pcie_cfg_space_write_dword, _cfg_space_write_dword.
  wp_step. wp_step; [done|]. wp_step. wp_step; [done|]. wp_step. apply wp_cfg_space_pa; [done|done|by unfold _CFG_SPACE_BAR_0|].
  by apply wp_write.
Qed.

(** Names never fail. *)
(** The masked base is even and below 2^32. *)
Lemma masked_base b : 0 <= b < 4294967296 → 0 <= Z.land b _CFG_SPACE_BAR_0_BASE_MASK < 4294967296 ∧
  Z.odd (Z.land b _CFG_SPACE_BAR_0_BASE_MASK) = false.
Proof.
  intros Hb. split.
  - assert (Z.land b _CFG_SPACE_BAR_0_BASE_MASK = Z.land (Z.land b _CFG_SPACE_BAR_0_BASE_MASK) (Z.ones 32)) as ->.
    { by rewrite <-Z.land_assoc. }
    rewrite Z.land_ones by lia. by apply Z.mod_pos_bound.
  - rewrite <-Z.bit0_odd, Z.land_spec. change (Z.testbit _CFG_SPACE_BAR_0_BASE_MASK 0) with false. by rewrite andb_false_r.
Qed.

Lemma wp_bar_size {S} b (Q : Z → S → Prop) (s : S) : 0 <= b < 4294967296 → Z.land b _CFG_SPACE_BAR_0_BASE_MASK ≠ 0 →
  (∀ size, lowest_bit (Z.land b _CFG_SPACE_BAR_0_BASE_MASK) size → Q size s) →
  wp (mm_align_class (Z.land b _CFG_SPACE_BAR_0_BASE_MASK)) Q s.
Proof.
  intros Hb Hnz HQ. destruct (masked_base b Hb) as [Hr Hodd]. pose proof (align_class_ok (Z.land b _CFG_SPACE_BAR_0_BASE_MASK) s ltac:(lia)) as Hok.
  rewrite (proj2 (Z.eqb_neq _ _) Hnz), Hodd in Hok. destruct Hok as (k&Hrun&Hk&Hd&Hnd).
  apply wp_done. exists (2 ^ k), s. split; [exact Hrun|]. apply HQ. exists k. split; [done|]. split; [done|]. split; [done|].
  by rewrite <-Z.pow_succ_r by lia.
Qed.

Section found.
Context {P : Type} `{PageSourceSpec P} `{NvmeDevices}.
Implicit Types (s : nvme P) (σ : arenas) (ds fs : list d_pcie_func) (ps : list Z).

(** The allocators [ps] were made for the functions [ds] since [s0], and the
    first controllers record both. *)
Record found (k : Z) (s0 : nvme P) σ0 ds ps s : Prop := {
  fd_allocs : ∃ live σ free pools, alloc_inv k live σ free pools (nv_alls s) ∧
    ∀ p, σ !! p = (if decide (p ∈ ps) then Some [] else σ0 !! p);
  fd_fresh : NoDup ps ∧ Forall (λ p, σ0 !! p = None) ps;
  fd_len : length (_ctrls s) = 32%nat;
  fd_cnt : _ctrl_cnt s = Z.of_nat (length ds);
  fd_pcie : w_st (nv_pcie s) = w_st (nv_pcie s0);
  fd_ctrls : Forall2 (λ f p, True) ds ps ∧ ∀ i f p, ds !! i = Some f → ps !! i = Some p →
    ∃ c, _ctrls s !! i = Some c ∧ c_mm c = p ∧ ctrl_of f c;
}.

Lemma wp_update_ctrl i f c s (Q : unit → nvme P → Prop) : 0 <= i → _ctrls s !! Z.to_nat i = Some c →
  Q () (set_ctrls (<[Z.to_nat i := f c]> (_ctrls s)) s) → wp (update_ctrl i f) Q s.
Proof.
  intros Hi Hc HQ. unfold update_ctrl. wp_step. wp_step. wp_step. eapply wp_array_get; [done|exact Hc|].
  wp_step. eapply wp_array_set; [pose proof (lookup_lt_Some _ _ _ Hc); lia|]. by apply wp_modify.
Qed.

Lemma wp_ctrl_add k s0 σ0 ds ps f s (Q : unit → nvme P → Prop) : found (k + 1) s0 σ0 ds ps s → 0 <= k →
  (length ds < 32)%nat → answers_as_nvme f →
  (∀ p s', found k s0 σ0 (ds ++ [f]) (ps ++ [p]) s' → Q () s') → wp (_ctrl_add f) Q s.
Proof.
  intros [(live&σ&free&pools&Hinv&Hσ) [Hnd Hfresh] Hlen Hcnt Hpcie [Hpair Hctrls]] Hk Hroom (Hg&Hbdf&Hb&Hlow&Hbase) HQ.
  set (n := length ds) in *. assert (length ps = n) as Hps by (symmetry; by eapply Forall2_length).
  destruct (lookup_lt_is_Some_2 (_ctrls s) n ltac:(lia)) as [c Hc].
  unfold _ctrl_add. wp_step. wp_step. rewrite Hcnt. wp_step. wp_step. unfold uadd. rewrite u64_small by lia.
  wp_step. apply wp_zoom. cbn [nv_alls set_ctrl_cnt]. eapply wp_mm_allocator_new; [exact Hinv|done|].
  intros p al [(live'&free'&pools'&Hinv'&_) Hp _].
  set (s1 := set_alls al _). wp_step. eapply (wp_update_ctrl _ _ c); [lia|by rewrite Nat2Z.id|]. rewrite Nat2Z.id.
  set (c1 := Ctrl p _ _ _). wp_step. eapply (wp_update_ctrl _ _ c1); [lia|rewrite Nat2Z.id; apply list_lookup_insert_eq; change (_ctrls s1) with (_ctrls s); lia|].
  rewrite Nat2Z.id. cbn [_ctrls set_ctrls s1 set_alls set_ctrl_cnt]. rewrite list_insert_insert_eq.
  wp_step. apply wp_zoom. apply wp_write_bar; [done|done|]. wp_step. apply wp_zoom. apply wp_read_bar; [done|done|].
  cbn [nv_pcie set_nv_pcie set_ctrls s1 set_alls set_ctrl_cnt w_mem w_st]. rewrite load_store_small by done.
  wp_step. wp_step; [rewrite Hlow; done|]. wp_step. apply wp_bar_size; [done|done|]. intros size Hsize.
  eapply wp_update_ctrl; [lia|rewrite Nat2Z.id; apply list_lookup_insert_eq; lia|]. rewrite Nat2Z.id.
  cbn [_ctrls set_ctrls set_nv_pcie]. rewrite list_insert_insert_eq. apply (HQ p). clear HQ.
  assert (p ∉ ps) as Hpn. { intros Hin. rewrite Hσ, decide_True in Hp by done. done. }
  subst s1 c1. split; cbn [nv_alls nv_pcie _ctrls _ctrl_cnt set_ctrls set_nv_pcie set_alls set_ctrl_cnt].
  - exists live', (<[p := []]> σ), free', pools'. split; [exact Hinv'|]. intros q. destruct (decide (q = p)) as [->|Hq].
    + rewrite lookup_insert_eq, decide_True; [done|]. apply elem_of_app. right. by left.
    + rewrite lookup_insert_ne, Hσ by done. apply decide_ext. rewrite elem_of_app, list_elem_of_singleton. naive_solver.
  - split.
    + apply list.NoDup_app. split; [done|]. split; [|apply list.NoDup_singleton]. intros q Hq ->%list_elem_of_singleton. done.
    + apply Forall_app_2; [done|]. apply Forall_singleton. rewrite Hσ, decide_False in Hp by done. done.
  - by rewrite length_insert.
  - rewrite length_app. cbn [length]. fold n. lia.
  - done.
  - split; [apply Forall2_app; [done|by constructor]|]. intros i g q Hi Hq.
    destruct (decide (i = n)) as [->|Hne].
    + rewrite lookup_app_r, Nat.sub_diag in Hi by lia. rewrite lookup_app_r, Hps, Nat.sub_diag in Hq by lia.
      injection Hi as <-. injection Hq as <-. eexists. rewrite list_lookup_insert_eq by lia. split; [done|].
      split; [done|]. split; [done|exact Hsize].
    + apply lookup_app_Some in Hi as [Hi|[Hge Hi]]; [|apply list_lookup_singleton_Some in Hi as [? _]; lia].
      rewrite lookup_app_l in Hq by (apply lookup_lt_Some in Hi; lia). rewrite list_lookup_insert_ne by done. by eapply Hctrls.
Qed.

(** C38: [d_nvme_bootstrap] finds the NVMe controllers.  When the functions of
    the scan with the class of NVMe - 32 of them at most - answer as NVMe
    controllers do and the heap can grow once for each, it records exactly
    these, in the order of the scan, each with an allocator of its own that was
    not in use and the size of its register area: the lowest bit of the base
    address that the device decodes. *)
Theorem d_nvme_bootstrap_ok (s : nvme P) live σ free pools (fs : list d_pcie_func)
    (Hfs : _functions (w_st (nv_pcie s)) = fs) (Hn : _func_cnt (w_st (nv_pcie s)) = Z.of_nat (length fs))
    (Hcap : Z.of_nat (length fs) < _FUNCTIONS_CAP)
    (Hinv : alloc_inv (Z.of_nat (length (filter (λ f, is_nvme f = true) fs))) live σ free pools (nv_alls s))
    (Hans : Forall (λ f, is_nvme f = true → answers_as_nvme f) fs)
    (Hmax : (length (filter (λ f, is_nvme f = true) fs) <= 32)%nat)
    (Hlen : length (_ctrls s) = 32%nat) (Hcnt : _ctrl_cnt s = 0) :
  ∃ s' ps, d_nvme_bootstrap s = Done ((), s') ∧ found 0 s σ (filter (λ f, is_nvme f = true) fs) ps s'.
Proof.
  set (N := λ l : list d_pcie_func, filter (λ f, is_nvme f = true) l) in *. change (filter _ fs) with (N fs) in *.
  cut (wp d_nvme_bootstrap (λ _ s', ∃ ps, found 0 s σ (N fs) ps s') s).
  { intros Hw. destruct (proj1 (wp_done _ _ _) Hw) as (u&s'&Hrun&ps&Hf). destruct u. exists s', ps. split; [exact Hrun|exact Hf]. }
  unfold d_nvme_bootstrap. wp_step. apply wp_zoom. unfold d_pcie_get_func_cnt. wp_step. apply wp_static. rewrite Hn.
  wp_step. wp_step; [bsimp; lia|]. apply wp_ret. rewrite Nat2Z.id.
  replace (set_nv_pcie (nv_pcie s) s) with s by (by destruct s).
  apply (wp_for_n (λ i s', ∃ ps, found (Z.of_nat (length (N fs)) - Z.of_nat (length (N (take (Z.to_nat i) fs)))) s σ
    (N (take (Z.to_nat i) fs)) ps s')).
  - exists []. cbn [Z.to_nat take]. split; [|split; constructor|done|done|done|split; [constructor|by intros ? ? ? ?]].
    exists live, σ, free, pools. split; [|done]. change (Z.of_nat (length (N []))) with 0. by rewrite Z.sub_0_r.
  - intros i s1 Hi (ps&Hf). rewrite Z.add_0_l in Hi.
    destruct (lookup_lt_is_Some_2 fs (Z.to_nat i) ltac:(lia)) as [f Hif].
    assert (take (Z.to_nat (i + 1)) fs = take (Z.to_nat i) fs ++ [f]) as Htake.
    { replace (Z.to_nat (i + 1)) with (Datatypes.S (Z.to_nat i)) by lia. by apply take_S_r. }
    assert (length (N (take (Z.to_nat (i + 1)) fs)) <= length (N fs))%nat as Hle.
    { unfold N. rewrite <-(take_drop (Z.to_nat (i + 1)) fs) at 2. rewrite list.filter_app, length_app. lia. }
    rewrite Htake in Hle |- *. unfold N in Hle |- *. rewrite list.filter_app in Hle |- *. fold (N (take (Z.to_nat i) fs)) in *.
    wp_step. apply wp_zoom. unfold d_pcie_get_func. wp_step. apply wp_static. rewrite (fd_pcie _ _ _ _ _ _ Hf), Hfs.
    eapply wp_array_get; [lia|exact Hif|]. replace (set_nv_pcie (nv_pcie s1) s1) with s1 by (by destruct s1).
    destruct (is_nvme f) eqn:Hnv; cycle 1.
    { apply wp_ret. exists ps. rewrite filter_cons_False, filter_nil, app_nil_r by (by rewrite Hnv). exact Hf. }
    rewrite filter_cons_True, filter_nil in Hle |- * by done. rewrite length_app in *. cbn [length] in *.
    wp_step. eapply (wp_ctrl_add (Z.of_nat (length (N fs)) - Z.of_nat (length (N (take (Z.to_nat i) fs)) + 1)) s σ); [| | | |].
    + replace (_ + 1) with (Z.of_nat (length (N fs)) - Z.of_nat (length (N (take (Z.to_nat i) fs)))) by lia. exact Hf.
    + fold (N fs) in Hle. lia.
    + fold (N fs) in Hle. lia.
    + by apply (proj1 (list.Forall_forall _ _) Hans f (list_elem_of_lookup_2 _ _ _ Hif)).
    + intros p s2 Hf2. wp_step. apply wp_zoom. unfold d_pcie_func_get_vendor_name. wp_step. apply wp_iden_name. intros [v d].
      apply wp_ret. replace (set_nv_pcie (nv_pcie s2) s2) with s2 by (by destruct s2).
      wp_step. apply wp_zoom. unfold d_pcie_func_get_device_name. wp_step. apply wp_iden_name. intros [v' d'].
      apply wp_ret. replace (set_nv_pcie (nv_pcie s2) s2) with s2 by (by destruct s2). apply wp_ret. exists (ps ++ [p]). exact Hf2.
  - intros s1 (ps&Hf). rewrite Z.add_0_l, Nat2Z.id, firstn_all in Hf. exists ps. by rewrite Z.sub_diag in Hf.
Qed.
End found.

(* --------------------------------------------------------------------- *)
(** ** Two controllers among three functions *)

Definition nvme_device : NvmeDevices := {| bar_0 _ _ := 0xFFFFC004 |}.

Definition sample_group : d_pcie_group := PcieGroup 0xB0000000 0 0 255 0.
Definition sample_functions : list d_pcie_func :=
  [PcieFunc sample_group 0 0 0 0x8086 0x29c0 0 6 0 0; PcieFunc sample_group 0 4 0 0x1b36 0x10 0 1 8 2;
   PcieFunc sample_group 0 5 0 0x15b7 0x5009 0 1 8 2].
Definition sample_nvme : nvme flat :=
  Nvme (P := flat) flat_allocs (World ∅ (Pcie [sample_group] 1 sample_functions 3)) (replicate 32 (Ctrl 0 None 0 0)) 0.

Lemma sample_nvme_answers : Forall (λ f, is_nvme f = true → @answers_as_nvme nvme_device f) sample_functions.
Proof.
  assert (group_ok sample_group) as Hg.
  { split; [exists 11; vm_compute; reflexivity|vm_compute; split; congruence]. }
  apply Forall_cons_2; [by vm_compute|].
  repeat (apply Forall_cons_2; [intros _; split; [exact Hg|]; split; [unfold bdf_ok; cbn; lia|]; split; [cbn; lia|];
    split; [vm_compute; reflexivity|vm_compute; congruence]|]). constructor.
Qed.

Lemma d_nvme_bootstrap_ok_witness : ∃ s' p c,
  @d_nvme_bootstrap flat _ nvme_device sample_nvme = Done ((), s') ∧ _ctrl_cnt s' = 2 ∧
  _ctrls s' !! 0%nat = Some c ∧ c_mm c = p ∧ lowest_bit 0xFFFFC000 (reg_size c).
Proof.
  destruct (@d_nvme_bootstrap_ok flat _ _ nvme_device sample_nvme ∅ ∅ [] [] sample_functions) as (s'&ps&Hrun&Hf).
  - reflexivity.
  - reflexivity.
  - vm_compute. reflexivity.
  - exact flat_allocs_inv.
  - exact sample_nvme_answers.
  - vm_compute. lia.
  - reflexivity.
  - reflexivity.
  - destruct Hf as [_ _ _ Hcnt _ [Hpair Hctrls]]. apply Forall2_length in Hpair. 
    destruct ps as [|p ps]; [by vm_compute in Hpair|].
    destruct (Hctrls 0%nat _ p eq_refl eq_refl) as (c&Hc&Hm&_&Hb). exists s', p, c. split; [exact Hrun|]. split; [exact Hcnt|].
    split; [exact Hc|]. split; [exact Hm|exact Hb].
Defined.
