(* ===== verification/MmHeapPages.v ===== *)
(** The run-time page tables as the page source of the kernel heap.

    The heap (MmHeap.v) is proved against the interface [PageSourceSpec]: it
    asks for frames and maps them at the end of the heap.  Here mm_frame.c and
    mm_page.c discharge it: four free frames are enough for each new page,
    one for the page and at most three for the tables above it. *)
From S2P Require Import Prelude Memory MmCore Mmu VirtMem MmPage.
From S2P Require Import MmPageRep MmPageFrames MmPageMap.
From S2P Require MmHeap MmHeapRep MmHeapTop MmHeapClient MmPageSample.

Section pages.
Context `{VmLink}.

Definition vm_mapped (w : world vm) (x : Z) : bool :=
  bool_decide (is_Some (va_to_pa (w_mem w) (cr3 (w_st w)) x)).

#[export] Instance vm_page_source : MmHeap.PageSource (world vm) := {|
  MmHeap.mm_frame_alloc := mm_frame_alloc;
  MmHeap.mm_page_map := mm_page_map;
  MmHeap.va_mapped := vm_mapped;
|}.

(** The pages of the heap up to [va] are mapped at the frames [held], in this
    order: distinct frames, which are neither tables nor free. *)
Record backed (dt : Z) (F : Z → Prop) (l held : list Z) (va : Z) (w : world vm) : Prop := {
  bk_ok : vm_ok dt F l w;
  bk_end : va = VA_48_HEAP + 4096 * Z.of_nat (length held);
  bk_nodup : NoDup held;
  bk_spare f : f ∈ held → spare F l f;
  bk_page i f : held !! i = Some f → translate (w_mem w) _tab_4 (VA_48_HEAP + 4096 * Z.of_nat i) = Some f;
}.

(** The pages of the heap end at [va], the next [n] pages are not mapped, and
    there are frames for them. *)
Definition can_map (w : world vm) (va n : Z) : Prop := ∃ dt F l held,
  backed dt F l held va w ∧ va + 4096 * n <= 18446744073709551616 ∧ 4 * n <= Z.of_nat (length l) ∧
  ∀ i, 0 <= i < n → translate (w_mem w) _tab_4 (va + 4096 * i) = None.

(** Pages above the window are different pages. *)
Lemma high_pages_differ x y : VA_48_DIRECT_ACCESS_PAGE <= x → x + 4096 <= y → y < 18446744073709551616 →
  page_of 1 y ≠ page_of 1 x.
Proof.
  rewrite (eq_refl : VA_48_DIRECT_ACCESS_PAGE = 18446603340532940800). unfold page_of, page_span.
  change (2 ^ (12 + 9 * (1 - 1))) with 4096. change (2 ^ (36 - 9 * (1 - 1))) with 68719476736. zlia.
Qed.

Lemma heap_page va k : VA_48_HEAP <= va → 0 <= k < 4096 → va + k < 18446744073709551616 → canonical (va + k) = true.
Proof.
  rewrite VA_48_HEAP_val. intros ???. unfold canonical. apply orb_true_iff. right.
  apply andb_true_iff. split; [apply Z.leb_le|apply Z.ltb_lt]; lia.
Qed.

Lemma mapped_same w w' : cr3 (w_st w') = cr3 (w_st w) →
  (∀ va x, translate (w_mem w) (cr3 (w_st w)) va = Some x → ∃ y, translate (w_mem w') (cr3 (w_st w)) va = Some y) →
  ∀ x, vm_mapped w x = true → vm_mapped w' x = true.
Proof.
  intros Hr Ht x. unfold vm_mapped, va_to_pa. rewrite Hr, !bool_decide_eq_true. destruct (canonical x); [|done].
  intros [y Hy]. by apply Ht in Hy.
Qed.

Lemma frees_cr3 s s' : frees s s' → cr3 s' = cr3 s.
Proof. by intros ->. Qed.

Lemma heap_base_aligned n : (4096 | VA_48_HEAP + 4096 * n).
Proof. apply Z.divide_add_r; [by exists (VA_48_HEAP / 4096)|by exists n; lia]. Qed.

Lemma can_map_mono w va n n' : can_map w va n → n' <= n → can_map w va n'.
Proof.
  intros (dt&F&l&held&Hb&Htop&Hl&Hno) Hn. exists dt, F, l, held. split_and!; [done|lia|lia|].
  intros i Hi. apply Hno. lia.
Qed.

(** Before the heap has a page. *)
Lemma can_map_start dt F l w n : vm_ok dt F l w → VA_48_HEAP + 4096 * n <= 18446744073709551616 →
  4 * n <= Z.of_nat (length l) →
  (∀ i, 0 <= i < n → translate (w_mem w) _tab_4 (VA_48_HEAP + 4096 * i) = None) → can_map w VA_48_HEAP n.
Proof.
  intros Hok Htop Hl Hno. exists dt, F, l, []. split_and!; try done. split; try done.
  - constructor.
  - by intros f ?%elem_of_nil.
Qed.

(** A frame taken from the free list backs the next page; the tables that
    [mm_page_map] adds are other frames of that list. *)
Lemma backed_extend dt F l f held va w w' n : backed dt F (f :: l) held va w →
  va + 4096 <= 18446744073709551616 → vm_ok dt (more F (take n l)) (drop n l) w' →
  (∀ x, translate (w_mem w') _tab_4 x =
    if decide (page_of 1 x = page_of 1 va) then Some (f + x `mod` 4096) else translate (w_mem w) _tab_4 x) →
  backed dt (more F (take n l)) (drop n l) (held ++ [f]) (va + 4096) w'.
Proof.
  intros [Hok Hva Hnd Hsp Hpage] Htop Hok' Hx.
  pose proof (vo_nodup _ _ _ _ Hok) as [Hfl _]%list.NoDup_cons.
  assert (∀ g, g ∈ take n l ∨ g ∈ drop n l → g ∈ l) as Hin.
  { intros g Hg. rewrite <-(take_drop n l). by apply elem_of_app. }
  assert (VA_48_HEAP = VA_48_DIRECT_ACCESS_PAGE + 4096 ∧ 0 <= VA_48_DIRECT_ACCESS_PAGE) as [Hheap H0] by done.
  split; [done| | | |].
  - rewrite length_app. cbn [length]. lia.
  - apply list.NoDup_app. split_and!; [done| |apply NoDup_singleton].
    intros g Hg ->%list_elem_of_singleton. apply (sp_new _ _ _ (Hsp f Hg)). by left.
  - intros g [Hg| ->%list_elem_of_singleton]%elem_of_app.
    + destruct (Hsp g Hg) as [? ? ? ? Hnew]. split; try done.
      * intros [?|Hgt]; [done|]. apply Hnew. right. by apply Hin; left.
      * intros Hgd. apply Hnew. right. by apply Hin; right.
    + destruct (vo_frames _ _ _ _ Hok f) as (?&?&?&?); [by left|]. split; try done.
      * intros [?|Hgt]; [done|]. by apply Hfl, Hin; left.
      * intros Hgd. by apply Hfl, Hin; right.
  - intros i g [Hi|[Hi Hg]]%lookup_app_Some.
    + pose proof (lookup_lt_Some _ _ _ Hi). rewrite Hx, decide_False; [by apply Hpage|].
      intros Heq. symmetry in Heq. revert Heq. apply high_pages_differ; lia.
    + apply list_lookup_singleton_Some in Hg as [Hi' <-]. assert (i = length held) as -> by lia.
      rewrite <-Hva, Hx, decide_True by done. f_equal.
      rewrite (proj2 (Z.mod_divide va 4096 ltac:(lia))); [lia|]. rewrite Hva. apply heap_base_aligned.
Qed.

Lemma can_map_next w va n : 0 < n → can_map w va n →
  wp mm_frame_alloc (λ r w1, ∃ pa, r = Some pa ∧ pa ≠ 0 ∧
    (∀ x, vm_mapped w x = true → vm_mapped w1 x = true) ∧
    wp (mm_page_map va pa) (λ ok w2, ok = true ∧
      (∀ x, vm_mapped w1 x = true → vm_mapped w2 x = true) ∧
      (∀ x, va <= x < va + 4096 → vm_mapped w2 x = true) ∧
      can_map w2 (va + 4096) (n - 1)) w1) w.
Proof.
  intros Hn (dt&F&l&held&Hb&Htop&Hl&Hno). destruct l as [|f l]; [simpl in Hl; lia|].
  change (length (f :: l)) with (S (length l)) in Hl.
  assert (VA_48_HEAP = VA_48_DIRECT_ACCESS_PAGE + 4096) as Hheap by done.
  assert (0 <= VA_48_DIRECT_ACCESS_PAGE) by done.
  pose proof (bk_ok _ _ _ _ _ _ Hb) as Hok. pose proof (bk_end _ _ _ _ _ _ Hb) as Hva.
  assert (4096 | va) as Hd by (rewrite Hva; apply heap_base_aligned).
  destruct (vo_frames _ _ _ _ Hok f) as (Hf&Hf0&_); [by left|].
  eapply wp_mm_frame_alloc; [exact Hok|]. intros m s Hok1 Hm Hs. exists f. split; [done|]. split; [done|].
  assert (translate m _tab_4 va = None) as Hno1.
  { rewrite Hm, <-(Z.add_0_r va). apply (Hno 0). lia. }
  assert (page_of 1 va ≠ page_of 1 VA_48_DIRECT_ACCESS_PAGE) as Hpage by (apply high_pages_differ; lia).
  split.
  { apply mapped_same; cbn [w_mem w_st]; [by rewrite Hs|]. intros x y Hy. exists y. by rewrite Hm. }
  apply (wp_mm_page_map dt F l (World m s)); [done..|]. intros ok w2 Hsuf Hok2 Hfrees Hx _ _. cbn [w_mem w_st] in *.
  pose proof (lacking_le m va) as Hk.
  assert (ok = true) as ->.
  { rewrite Hsuf. apply bool_decide_eq_true. lia. }
  split; [done|]. pose proof (frees_cr3 _ _ Hfrees) as Hcr.
  pose proof (sc_root _ _ (vo_static _ _ _ _ Hok1)) as Hroot. cbn [w_st] in Hroot.
  split; [|split].
  - apply mapped_same; cbn [w_mem w_st]; [done|]. rewrite Hroot. intros x y Hy. rewrite Hx. destruct (decide (true = true ∧ page_of 1 x = page_of 1 va)); [by eexists|by exists y].
  - intros x Hxr. replace x with (va + (x - va)) by lia. unfold vm_mapped, va_to_pa. rewrite heap_page, Hcr, Hroot by lia.
    apply bool_decide_eq_true. rewrite Hx, decide_True; [done|]. split; [done|]. apply page_of_low; [lia|done].
  - assert (∀ x, translate (w_mem w2) _tab_4 x =
      if decide (page_of 1 x = page_of 1 va) then Some (f + x `mod` 4096) else translate (w_mem w) _tab_4 x) as Hx2.
    { intros x. rewrite Hx, (translate_proper _ _ Hm _ _ eq_refl _ _ eq_refl). repeat case_decide; tauto. }
    exists dt, (more F (take (lacking m va 1) l)), (drop (lacking m va 1) l), (held ++ [f]).
    split; [by eapply backed_extend; [exact Hb|lia|..]|]. split; [lia|].
    split; [rewrite length_drop; lia|]. intros i Hi. rewrite Hx2, decide_False.
    + replace (va + 4096 + 4096 * i) with (va + 4096 * (i + 1)) by lia. apply Hno. lia.
    + apply high_pages_differ; lia.
Qed.

#[export] Instance vm_page_source_spec : MmHeapRep.PageSourceSpec (world vm) := {|
  MmHeapRep.can_map := can_map;
  MmHeapRep.can_map_mono := can_map_mono;
  MmHeapRep.can_map_step := λ w va n, can_map_next w va n;
|}.

(* --------------------------------------------------------------------- *)
(** ** The bytes of the heap in the physical memory

    The heap's own bytes are a memory of their own in [MmHeap.heap].  Behind
    the page tables they lie in the frames [held], next to the tables and the
    free frames, in the one memory of the machine. *)

Fixpoint copy (n : nat) (a x : Z) (h m : memory) : memory :=
  match n with
  | O => m
  | S n => copy n (a + 1) (x + 1) h (store8 a (load8 h x) m)
  end.

Lemma load8_copy n a x h m b : load8 (copy n a x h m) b =
  if decide (a <= b < a + Z.of_nat n) then load8 h (x + (b - a)) else load8 m b.
Proof.
  revert a x m. induction n as [|n IH]; intros a x m; cbn [copy].
  - by rewrite decide_False by lia.
  - rewrite IH. destruct (decide (a = b)) as [->|Hne].
    + rewrite decide_False, decide_True, load8_store8_eq by lia. rewrite Z.sub_diag, Z.add_0_r.
      apply u8_small, load8_range.
    + rewrite load8_store8_ne by done. destruct (decide (a + 1 <= b < a + 1 + Z.of_nat n)).
      * rewrite decide_True by lia. f_equal. lia.
      * by rewrite decide_False by lia.
Qed.

(** The pages of [h] from [va] on, laid into the frames [fs] of [m]. *)
Fixpoint lay (fs : list Z) (va : Z) (h m : memory) : memory :=
  match fs with
  | [] => m
  | f :: fs => lay fs (va + 4096) h (copy (Z.to_nat 4096) f va h m)
  end.

Lemma load8_copy_out f va h m a : ¬ (f <= a < f + 4096) → load8 (copy (Z.to_nat 4096) f va h m) a = load8 m a.
Proof. intros Ha. rewrite load8_copy, Z2Nat.id, decide_False by lia. done. Qed.

Lemma load8_lay_out fs va h m a : (∀ f, f ∈ fs → ¬ (f <= a < f + 4096)) → load8 (lay fs va h m) a = load8 m a.
Proof.
  revert va m. induction fs as [|f fs IH]; intros va m Ha; [done|]. cbn [lay].
  rewrite IH by (intros g Hg; apply Ha; by right). apply load8_copy_out, Ha. by left.
Qed.

Lemma load8_lay fs va h m i f k : (∀ g, g ∈ fs → frame_ok g) → NoDup fs → fs !! i = Some f → 0 <= k < 4096 →
  load8 (lay fs va h m) (f + k) = load8 h (va + 4096 * Z.of_nat i + k).
Proof.
  revert va m i. induction fs as [|g fs IH]; intros va m i Hfr Hnd Hi Hk; [done|]. cbn [lay].
  apply list.NoDup_cons in Hnd as [Hg Hnd]. destruct i as [|i]; simpl in Hi.
  - injection Hi as ->. rewrite load8_lay_out.
    + rewrite load8_copy, Z2Nat.id, decide_True by lia. f_equal. lia.
    + intros g Hg'. destruct (frames_apart f g); [apply Hfr; set_solver..|congruence|lia|lia].
  - rewrite (IH _ _ i) by (done || (intros; apply Hfr; by right)). f_equal. lia.
Qed.

(** Storing into a held frame leaves everything else as it is. *)
Lemma backed_store dt F l held va w f m : backed dt F l held va w → f ∈ held →
  (∀ a, ¬ (f <= a < f + 4096) → load8 m a = load8 (w_mem w) a) →
  backed dt F l held va (World m (w_st w)) ∧ ∀ x, translate m _tab_4 x = translate (w_mem w) _tab_4 x.
Proof.
  intros [Hok Hva Hnd Hsp Hpage] Hf Hm. pose proof (Hsp f Hf) as Hspf.
  destruct (spare_same dt F (w_mem w) f m) as [_ Hx]; [apply Hok|apply Hspf..|done|].
  split; [|done]. split; [by eapply spare_agree|done..|]. intros i g Hi. cbn [w_mem]. rewrite Hx. by apply Hpage.
Qed.

Lemma backed_lay fs dt F l held va w h x : backed dt F l held va w → (∀ f, f ∈ fs → f ∈ held) →
  backed dt F l held va (World (lay fs x h (w_mem w)) (w_st w)) ∧
  ∀ y, translate (lay fs x h (w_mem w)) _tab_4 y = translate (w_mem w) _tab_4 y.
Proof.
  revert x w. induction fs as [|f fs IH]; intros x [m s] Hb Hin; cbn [lay w_mem w_st]; [done|].
  destruct (backed_store dt F l held va (World m s) f (copy (Z.to_nat 4096) f x h m) Hb) as [Hb1 Hx1];
    [apply Hin; by left|intros a Ha; by apply load8_copy_out|].
  destruct (IH (x + 4096) _ Hb1) as [Hb2 Hx2]; [intros g Hg; apply Hin; by right|].
  split; [exact Hb2|]. intros y. cbn [w_mem] in *. by rewrite Hx2.
Qed.

(** A byte of the heap, and where it lies. *)
Lemma backed_byte dt F l held e w x : backed dt F l held e w → e <= 18446744073709551616 → VA_48_HEAP <= x < e →
  ∃ i f k, held !! i = Some f ∧ x = VA_48_HEAP + 4096 * Z.of_nat i + k ∧ 0 <= k < 4096 ∧
    va_to_pa (w_mem w) (cr3 (w_st w)) x = Some (f + k).
Proof.
  intros [Hok Hva Hnd Hsp Hpage] He Hx. set (i := Z.to_nat ((x - VA_48_HEAP) / 4096)).
  set (k := (x - VA_48_HEAP) `mod` 4096).
  assert (x = VA_48_HEAP + 4096 * Z.of_nat i + k ∧ 0 <= k < 4096) as [Hxk Hk] by (subst i k; zlia).
  destruct (lookup_lt_is_Some_2 held i) as [f Hi]; [lia|].
  exists i, f, k. split; [done|]. split; [done|]. split; [done|].
  rewrite Hxk, (sc_root _ _ (vo_static _ _ _ _ Hok)). unfold va_to_pa. rewrite heap_page by lia.
  apply translate_offset; [apply heap_base_aligned|by apply Hpage|done].
Qed.

(** [m] is the physical memory of the machine whose heap is [s]: its page
    tables and free frames are in order and translate every address as those
    of [s] do, every byte of the heap is found behind its address, and
    the other bytes are those of the paging state. *)
Record one_memory (m : memory) (s : MmHeap.heap (world vm)) : Prop := {
  om_backed : ∃ dt F l held, backed dt F l held (MmHeap._heap_end s) (World m (w_st (MmHeap.h_pages s)));
  om_end : MmHeap._heap_end s <= 18446744073709551616;
  om_translate x : translate m _tab_4 x = translate (w_mem (MmHeap.h_pages s)) _tab_4 x;
  om_byte x pa : VA_48_HEAP <= x < MmHeap._heap_end s →
    va_to_pa m (cr3 (w_st (MmHeap.h_pages s))) x = Some pa → load8 m pa = load8 (MmHeap.h_mem s) x;
  om_other pa : (∀ x, VA_48_HEAP <= x < MmHeap._heap_end s →
    va_to_pa m (cr3 (w_st (MmHeap.h_pages s))) x ≠ Some pa) → load8 m pa = load8 (w_mem (MmHeap.h_pages s)) pa;
}.

(** Every heap on the page tables has such a memory. *)
Lemma can_map_one_memory s : can_map (MmHeap.h_pages s) (MmHeap._heap_end s) 0 → ∃ m, one_memory m s.
Proof.
  intros (dt&F&l&held&Hb&Htop&_).
  exists (lay held VA_48_HEAP (MmHeap.h_mem s) (w_mem (MmHeap.h_pages s))).
  destruct (backed_lay held dt F l held _ _ (MmHeap.h_mem s) VA_48_HEAP Hb ltac:(done)) as [Hb1 Hx].
  assert (∀ f, f ∈ held → frame_ok f) as Hfr by (intros f Hf; apply (bk_spare _ _ _ _ _ _ Hb f Hf)).
  split.
  - by exists dt, F, l, held.
  - lia.
  - done.
  - intros x pa Hxr Hpa.
    destruct (backed_byte _ _ _ _ _ _ x Hb1 ltac:(lia) Hxr) as (i&f&k&Hi&Hxk&Hk&Hpa'). cbn [w_mem w_st] in Hpa'.
    rewrite Hpa' in Hpa. injection Hpa as <-.
    rewrite (load8_lay _ _ _ _ i) by (done || apply (bk_nodup _ _ _ _ _ _ Hb)). by rewrite <-Hxk.
  - intros pa Hno. apply load8_lay_out. intros f Hf Hr. apply list_elem_of_lookup in Hf as [i Hi].
    pose proof (lookup_lt_Some _ _ _ Hi) as Hlt. pose proof (bk_end _ _ _ _ _ _ Hb) as He.
    apply (Hno (VA_48_HEAP + 4096 * Z.of_nat i + (pa - f))); [lia|].
    rewrite (sc_root _ _ (vo_static _ _ _ _ (bk_ok _ _ _ _ _ _ Hb))). unfold va_to_pa. rewrite heap_page by lia.
    rewrite (translate_offset _ _ _ f) by (apply heap_base_aligned || (rewrite Hx; by apply (bk_page _ _ _ _ _ _ Hb)) || lia).
    f_equal. lia.
Qed.

Lemma om_root m s : one_memory m s → cr3 (w_st (MmHeap.h_pages s)) = _tab_4.
Proof. intros [(dt&F&l&held&Hb) _ _ _ _]. apply (vo_static _ _ _ _ (bk_ok _ _ _ _ _ _ Hb)). Qed.

Lemma one_memory_reach m s x : one_memory m s → VA_48_HEAP <= x < MmHeap._heap_end s →
  ∃ pa, va_to_pa m (cr3 (w_st (MmHeap.h_pages s))) x = Some pa.
Proof.
  intros Hm Hx. destruct (om_backed _ _ Hm) as (dt&F&l&held&Hb).
  destruct (backed_byte _ _ _ _ _ _ x Hb (om_end _ _ Hm) Hx) as (i&f&k&_&_&_&Hpa). by exists (f + k).
Qed.

(** Loads through the page tables see the bytes of the heap. *)
Lemma one_memory_load n m s x : one_memory m s → VA_48_HEAP <= x → x + Z.of_nat n <= MmHeap._heap_end s →
  vload n m (cr3 (w_st (MmHeap.h_pages s))) x = Some (load n (MmHeap.h_mem s) x).
Proof.
  intros Hm. revert x. induction n as [|n IH]; intros x H0 Hx; [done|]. cbn [vload].
  destruct (om_backed _ _ Hm) as (dt&F&l&held&Hb).
  destruct (backed_byte _ _ _ _ _ _ x Hb (om_end _ _ Hm) ltac:(lia)) as (i&f&k&_&_&_&Hpa). cbn [w_mem w_st] in Hpa.
  rewrite Hpa, (IH (x + 1)) by lia. cbn [mbind option_bind]. by rewrite (om_byte _ _ Hm x) by (done || lia).
Qed.

(** Different bytes of the heap are different bytes of the memory. *)
Lemma one_memory_distinct m s x y : one_memory m s → VA_48_HEAP <= x < MmHeap._heap_end s →
  VA_48_HEAP <= y < MmHeap._heap_end s → x ≠ y →
  va_to_pa m (cr3 (w_st (MmHeap.h_pages s))) x ≠ va_to_pa m (cr3 (w_st (MmHeap.h_pages s))) y.
Proof.
  intros Hm Hx Hy Hne Heq. destruct (om_backed _ _ Hm) as (dt&F&l&held&Hb).
  destruct (backed_byte _ _ _ _ _ _ x Hb (om_end _ _ Hm) Hx) as (i&f&k&Hi&Hxk&Hk&Hpx).
  destruct (backed_byte _ _ _ _ _ _ y Hb (om_end _ _ Hm) Hy) as (j&g&q&Hj&Hyq&Hq&Hpy). cbn [w_mem w_st] in *.
  rewrite Hpx, Hpy in Heq. injection Heq as Heq.
  assert (frame_ok f ∧ frame_ok g) as [Hf Hg]
    by (split; apply (bk_spare _ _ _ _ _ _ Hb); eapply list_elem_of_lookup_2; eassumption).
  destruct (decide (f = g)) as [->|Hfg].
  - assert (i = j) as -> by (eapply NoDup_lookup; [apply (bk_nodup _ _ _ _ _ _ Hb)|done..]). lia.
  - destruct (frames_apart f g); [done..|lia|lia].
Qed.

Lemma vstore_translate n m0 m1 root x v m : (∀ y, translate m0 root y = translate m1 root y) →
  vstore n m0 root x v m = vstore n m1 root x v m.
Proof.
  intros Ht. revert x v m. induction n as [|n IH]; intros x v m; [done|]. cbn [vstore]. unfold va_to_pa.
  rewrite Ht. destruct (canonical x); [|done]. by destruct (translate m1 root x); cbn [mbind option_bind].
Qed.

(** The heap with other bytes. *)
Definition with_bytes (h : memory) (s : MmHeap.heap (world vm)) : MmHeap.heap (world vm) :=
  MmHeap.Heap h (MmHeap._free_list s) (MmHeap._heap_end s) (MmHeap.h_pages s).

Lemma with_bytes_same s : with_bytes (MmHeap.h_mem s) s = s.
Proof. by destruct s. Qed.

(** A store through the page tables is a store into the heap. *)
Lemma one_memory_store8 m s x v pa : one_memory m s → VA_48_HEAP <= x < MmHeap._heap_end s →
  va_to_pa m (cr3 (w_st (MmHeap.h_pages s))) x = Some pa →
  one_memory (store8 pa v m) (with_bytes (store8 x v (MmHeap.h_mem s)) s) ∧
  ∀ y, translate (store8 pa v m) _tab_4 y = translate m _tab_4 y.
Proof.
  intros Hm Hx Hpa. pose proof (om_root _ _ Hm) as Hroot. destruct (om_backed _ _ Hm) as (dt&F&l&held&Hb).
  destruct (backed_byte _ _ _ _ _ _ x Hb (om_end _ _ Hm) Hx) as (i&f&k&Hi&Hxk&Hk&Hpx). cbn [w_mem w_st] in Hpx.
  rewrite Hpx in Hpa. injection Hpa as <-.
  destruct (backed_store _ _ _ _ _ _ f (store8 (f + k) v m) Hb) as [Hb' Ht];
    [by eapply list_elem_of_lookup_2|intros a Ha; cbn [w_mem]; apply load8_store8_ne; lia|].
  cbn [w_mem w_st] in *. split; [|done].
  assert (∀ y, va_to_pa (store8 (f + k) v m) _tab_4 y = va_to_pa m _tab_4 y) as Hva
    by (intros y; unfold va_to_pa; by rewrite Ht).
  split; cbn [with_bytes MmHeap._heap_end MmHeap.h_pages MmHeap.h_mem].
  - by exists dt, F, l, held.
  - apply Hm.
  - intros y. rewrite Ht. apply Hm.
  - intros y pa Hy Hpa. rewrite Hroot, Hva, <-Hroot in Hpa. destruct (decide (x = y)) as [<-|Hne].
    + rewrite Hpx in Hpa. injection Hpa as <-. by rewrite !load8_store8_eq.
    + rewrite (load8_store8_ne _ x y) by done. rewrite load8_store8_ne; [by apply (om_byte _ _ Hm)|].
      intros <-. apply (one_memory_distinct _ _ x y Hm Hx Hy Hne). by rewrite Hpx, Hpa.
  - intros pa Hno. rewrite load8_store8_ne.
    + apply (om_other _ _ Hm). intros y Hy. rewrite Hroot, <-Hva, <-Hroot. by apply Hno.
    + intros <-. apply (Hno x Hx). by rewrite Hroot, Hva, <-Hroot.
Qed.

Lemma one_memory_store n m s x v : one_memory m s → VA_48_HEAP <= x → x + Z.of_nat n <= MmHeap._heap_end s →
  ∃ m', vstore n m (cr3 (w_st (MmHeap.h_pages s))) x v m = Some m' ∧
    one_memory m' (with_bytes (store n x v (MmHeap.h_mem s)) s).
Proof.
  revert m s x v. induction n as [|n IH]; intros m s x v Hm H0 Hx.
  - exists m. split; [done|]. by destruct s.
  - destruct (om_backed _ _ Hm) as (dt&F&l&held&Hb).
    destruct (backed_byte _ _ _ _ _ _ x Hb (om_end _ _ Hm) ltac:(lia)) as (i&f&k&_&_&_&Hpa). cbn [w_mem w_st] in Hpa.
    destruct (one_memory_store8 m s x v _ Hm ltac:(lia) Hpa) as [Hm1 Ht].
    destruct (IH _ _ (x + 1) (v / 256) Hm1) as (m'&Hv&Hm'); [lia|cbn [with_bytes MmHeap._heap_end]; lia|].
    exists m'. split; [|exact Hm']. cbn [vstore]. rewrite Hpa. cbn [mbind option_bind].
    rewrite <-Hv. rewrite (om_root _ _ Hm). cbn [with_bytes MmHeap.h_pages].
    rewrite (om_root _ _ Hm). apply vstore_translate. intros y. symmetry. apply Ht.
Qed.

(* --------------------------------------------------------------------- *)
(** ** A client on the real page tables *)

(** What the physical memory [m] shows of the payloads [hs] of the buffers
    [σ]: each is backed by bytes of its own, which a client reads and writes
    through the page tables, and which hold the buffers. *)
Record in_memory (σ : list MmHeapClient.buffer) (hs : list (Z * Z)) (s : MmHeap.heap (world vm)) (m : memory) : Prop := {
  im_memory : one_memory m s;
  im_apart x y : VA_48_HEAP <= x < MmHeap._heap_end s → VA_48_HEAP <= y < MmHeap._heap_end s → x ≠ y →
    va_to_pa m (cr3 (w_st (MmHeap.h_pages s))) x ≠ va_to_pa m (cr3 (w_st (MmHeap.h_pages s))) y;
  im_read i len bytes off v : σ !! i = Some (len, bytes) → bytes !! off = Some v →
    ∃ p n, hs !! i = Some (p, n) ∧ vload 1 m (cr3 (w_st (MmHeap.h_pages s))) (p + off) = Some v;
  im_write i p n off k v : hs !! i = Some (p, n) → 0 <= off → off + Z.of_nat k <= n →
    ∃ m', vstore k m (cr3 (w_st (MmHeap.h_pages s))) (p + off) v m = Some m' ∧
      one_memory m' (with_bytes (store k (p + off) v (MmHeap.h_mem s)) s);
}.

Lemma implements_in_memory σ hs s : MmHeapClient.implements 0 σ hs s → ∃ m, in_memory σ hs s m.
Proof.
  intros [(live&Hinv&Hall&_) _]. pose proof (MmHeapRep.rep_tiled _ _ _ (MmHeapAlloc.inv_rep _ _ _ Hinv)) as Ht.
  destruct (MmHeapAlloc.inv_room _ _ _ Hinv) as [Hroom _]. change (32768 * 0) with 0 in Hroom.
  destruct (can_map_one_memory s Hroom) as [m Hm].
  assert (∀ i p n, hs !! i = Some (p, n) → VA_48_HEAP <= p ∧ p + n <= MmHeap._heap_end s) as Hin.
  { intros i p n Hi. destruct (Forall2_lookup_r _ _ _ _ _ Hall Hi) as (b&_&c&Hc%HeapTiling.used_lookup&Hn&_).
    cbn [fst snd] in *. destruct (HeapTiling.tiled_block _ _ Ht _ _ _ Hc) as (_&?&?&_). lia. }
  exists m. split; [done|by intros; eapply one_memory_distinct| |].
  - intros i len bytes off v Hi Hv.
    destruct (Forall2_lookup_l _ _ _ _ _ Hall Hi) as ([p n]&Hp&c&_&_&Hle&Hbytes). cbn [fst snd] in *.
    destruct (Hbytes _ _ Hv) as [Hoff Hl]. destruct (Hin _ _ _ Hp). exists p, n. split; [done|].
    rewrite (one_memory_load 1 _ s) by (done || lia). by rewrite load_1, Hl.
  - intros i p n off k v Hi H0 Hoff. destruct (Hin _ _ _ Hi). apply one_memory_store; [done|lia..].
Qed.

Lemma wp_heap_on_page_tables (ops : list MmHeapClient.op) (σ : list MmHeapClient.buffer) dt F l (s : MmHeap.heap (world vm)) :
  let n := 32768 * MmHeapClient.allocs ops in
  length (MmHeap._free_list s) = 16%nat → vm_ok dt F l (MmHeap.h_pages s) →
  4 * n <= Z.of_nat (length l) → VA_48_HEAP + 4096 * n < 18446744073709551616 →
  (∀ i, 0 <= i < n → translate (w_mem (MmHeap.h_pages s)) _tab_4 (VA_48_HEAP + 4096 * i) = None) →
  MmHeapClient.spec_run ops [] = Some σ →
  wp (MmHeap.mm_heap_bootstrap ;; MmHeapClient.run_ops ops []) (λ hs s',
    MmHeapClient.implements 0 σ hs s' ∧ ∃ m, in_memory σ hs s' m) s.
Proof.
  intros n Hlen Hok Hl Htop Hno Hrun. apply wp_bind.
  apply (MmHeapTop.wp_heap_bootstrap (MmHeapClient.allocs ops)); [exact Hlen| | |].
  - apply (can_map_start dt F l); [done|lia|done|done].
  - change (HeapTiling.bsize 15) with 134217728. lia.
  - intros s1 Hinv _ _. eapply wp_mono; [|intros hs s' Him; split; [exact Him|by apply implements_in_memory]].
    eapply (MmHeapClient.wp_run_ops ops 0 []); [|done|exact Hrun].
    split; [|constructor]. exists ∅. split_and!; [by rewrite Z.add_0_r|constructor|].
    intros a c Ha%HeapTiling.used_lookup. by apply lookup_empty_Some in Ha.
Qed.

(** C9: the heap on the real page tables: from a paging state with enough free
    frames and an unmapped heap area, [mm_heap_bootstrap] and then any script
    of allocations, writes and frees that the specification accepts run
    without a failed assertion or page fault, the payloads hold what the
    specification says, and they do so in one physical memory: there is a
    memory of the machine, with page tables and free frames in order, in
    which different bytes of the heap lie at different addresses, outside the
    tables and the free frames; a load through the page tables finds the
    bytes last written into a payload, and a store through them is the
    store into the heap and leaves the tables as they are. *)
Theorem heap_on_page_tables (ops : list MmHeapClient.op) (σ : list MmHeapClient.buffer) dt F l
    (s : MmHeap.heap (world vm))
    (Hlen : length (MmHeap._free_list s) = 16%nat) (Hok : vm_ok dt F l (MmHeap.h_pages s))
    (Hl : 4 * (32768 * MmHeapClient.allocs ops) <= Z.of_nat (length l))
    (Htop : VA_48_HEAP + 4096 * (32768 * MmHeapClient.allocs ops) < 18446744073709551616)
    (Hno : ∀ i, 0 <= i < 32768 * MmHeapClient.allocs ops →
      translate (w_mem (MmHeap.h_pages s)) _tab_4 (VA_48_HEAP + 4096 * i) = None)
    (Hspec : MmHeapClient.spec_run ops [] = Some σ) :
  ∃ hs s', (MmHeap.mm_heap_bootstrap ;; MmHeapClient.run_ops ops []) s = Done (hs, s') ∧
    MmHeapClient.implements 0 σ hs s' ∧ ∃ m, in_memory σ hs s' m.
Proof. apply wp_done. by eapply wp_heap_on_page_tables. Qed.

End pages.

(* --------------------------------------------------------------------- *)
(** ** A concrete run *)

Definition sample_heap (n : nat) : MmHeap.heap (world vm) :=
  MmHeap.Heap ∅ (replicate 16 NULL) 0 (MmPageSample.sample_state n).

(** Nothing is mapped in the heap's area. *)
Lemma sample_unmapped va : VA_48_HEAP <= va < VA_48_HEAP + 268435456 → translate MmPageSample.mem_5 0x1000 va = None.
Proof.
  rewrite VA_48_HEAP_val. intros Hva. rewrite translate_xlate. unfold xlate.
  assert (idx va 4 = 256) as ->.
  { unfold idx. change (2 ^ (12 + 9 * (4 - 1))) with 549755813888. zlia. }
  assert (idx va 3 = 4) as ->.
  { unfold idx. change (2 ^ (12 + 9 * (3 - 1))) with 1073741824. zlia. }
  rewrite (pte_walk _ _ [256; 4] _ 0x5000) by (vm_compute; reflexivity).
  pose proof (idx_range va 2) as H2. pose proof (idx_range va 1) as H1. unfold index_ok in *.
  destruct (decide (idx va 2 = 8)) as [->|Hne].
  - rewrite (pte_walk _ _ [256; 4; 8] _ 0x6000) by (vm_compute; reflexivity).
    assert (load64 MmPageSample.mem_5 (0x6000 + 8 * idx va 1) = 0) as ->; [|by vm_compute].
    apply Z.eqb_eq, (forallb_seqZ (λ j, load64 MmPageSample.mem_5 (0x6000 + 8 * j) =? 0) 512);
      [vm_compute; reflexivity|lia].
  - assert (load64 MmPageSample.mem_5 (0x5000 + 8 * idx va 2) = 0) as ->; [|by vm_compute].
    pose proof (forallb_seqZ (λ j, (j =? 8) || (load64 MmPageSample.mem_5 (0x5000 + 8 * j) =? 0)) 512 (idx va 2)
      ltac:(vm_compute; reflexivity) H2) as Hj.
    apply orb_true_iff in Hj as [Hj|Hj]; apply Z.eqb_eq in Hj; done.
Qed.

Definition one_page_script : list MmHeapClient.op :=
  [MmHeapClient.OAlloc 5000; MmHeapClient.OWrite 0 0 0x17].

Lemma heap_on_page_tables_witness :
  let _ := MmPageSample.sample_vm_link in
  ∃ hs s', (MmHeap.mm_heap_bootstrap ;; MmHeapClient.run_ops one_page_script [])
      (sample_heap (Z.to_nat 131072)) = Done (hs, s') ∧
    MmHeapClient.implements 0 [(5000, {[0 := 0x17]})] hs s' ∧
    ∃ m, in_memory [(5000, {[0 := 0x17]})] hs s' m.
Proof.
  intros link. refine (@heap_on_page_tables link one_page_script [(5000, {[0 := 0x17]})] 0x6000 (λ u, u ∈ MmPageSample.sample_tables)
    (MmPageSample.sample_list (Z.to_nat 131072)) (sample_heap (Z.to_nat 131072)) _ _ _ _ _ _).
  - reflexivity.
  - apply MmPageSample.sample_ok. rewrite Z2Nat.id by lia. reflexivity.
  - rewrite MmPageSample.sample_length, Z2Nat.id by lia. reflexivity.
  - reflexivity.
  - intros i Hi. change (MmHeap.h_pages (sample_heap (Z.to_nat 131072))) with (MmPageSample.sample_state (Z.to_nat 131072)).
    rewrite MmPageSample.sample_translate by (rewrite Z2Nat.id by lia; reflexivity).
    apply sample_unmapped. change (32768 * MmHeapClient.allocs one_page_script) with 32768 in Hi. lia.
  - vm_compute. reflexivity.
Defined.
