(* ===== verification/MmBoot.v ===== *)
(** The memory managers put together, src/mm/mm.c: frames, page tables, heap
    and object allocator on one state; the allocator on the real page tables. *)
From S2P Require Import Prelude Memory MmCore Mmu VirtMem MmPage.
From S2P Require Import MmPageRep MmPageFrames MmPageMap MmHeapPages.
From S2P Require Import MmAllocator MmAllocatorRep MmAllocatorOps MmAllocatorTake MmAllocatorTop.
From S2P Require MmHeap MmHeapRep MmHeapTop HeapTiling MmPageSample.

Section boot.
Context `{VmLink}.

Definition on_pages {A} (m : M (world vm) A) : M (allocs (world vm)) A := on_heap (MmHeap.pages m).

Definition mm_bootstrap (fuel : nat) (boot_stack_bottom boot_stack_top stack_position : Z) : M (allocs (world vm)) unit :=
  on_pages mm_frame_bootstrap ;;
  start ← on_pages (static _kernel_start);
  end_ ← on_pages (static _kernel_end);
  on_pages (mm_page_bootstrap fuel start end_ boot_stack_bottom boot_stack_top stack_position) ;;
  on_heap MmHeap.mm_heap_bootstrap ;;
  mm_allocator_bootstrap.

(** The built-in tests; [op] and [by_idx] are what two uninitialised locals
    happen to hold. *)
Definition test_mm (fuel : nat) (op by_idx : Z) : M (allocs (world vm)) unit :=
  on_heap (MmHeap.test_heap fuel op) ;;
  test_allocator fuel by_idx.

Lemma no_arenas live : layout live ∅ [] [].
Proof.
  split; try (by intros ? ?%elem_of_nil); try (by intros ? ? ? ?%lookup_empty_Some).
  - intros p [?%elem_of_nil|[l ?%lookup_empty_Some]]; done.
  - constructor.
  - by intros ? ? ?%lookup_empty_Some.
  - by intros ? ? ? ? ? ? ?%lookup_empty_Some.
Qed.

(** A region lies in the pages of the heap. *)
Lemma region_in_heap k live σ free pools (s : allocs (world vm)) x n i : alloc_inv k live σ free pools s →
  region σ x n → x <= i < x + n → VA_48_HEAP <= i < MmHeap._heap_end (al_heap s).
Proof.
  intros [Hi Hly _] Hr Hx. destruct (region_not_book k live σ free pools (al_heap s) x n i Hi Hly Hr Hx) as (_&a&c&Ha&Hai).
  destruct (used_bounds Hi a c Ha) as (?&?&_). lia.
Qed.

Lemma alloc_inv_memory live σ free pools (s : allocs (world vm)) : alloc_inv 0 live σ free pools s →
  ∃ m, one_memory m (al_heap s).
Proof. intros [Hi _ _]. apply can_map_one_memory. by destruct (MmHeapAlloc.inv_room _ _ _ Hi) as [Hroom _]. Qed.

Lemma wp_allocator_on_page_tables dt F l size align (s : allocs (world vm)) :
  length (MmHeap._free_list (al_heap s)) = 16%nat → vm_ok dt F l (MmHeap.h_pages (al_heap s)) →
  4 * (32768 * 2) <= Z.of_nat (length l) →
  (∀ i, 0 <= i < 32768 * 2 → translate (w_mem (MmHeap.h_pages (al_heap s))) _tab_4 (VA_48_HEAP + 4096 * i) = None) →
  0 <= size → 0 < align → size + align <= HeapTiling.bsize 15 - 64 →
  wp (on_heap MmHeap.mm_heap_bootstrap ;; mm_allocator_bootstrap ;;
      all ← mm_allocator_new; mm_allocate all size align)
    (λ x s', (align | x) ∧ (∀ i, x <= i < x + size → VA_48_HEAP <= i < MmHeap._heap_end (al_heap s')) ∧
      ∃ m, one_memory m (al_heap s')) s.
Proof.
  intros Hlen Hok Hl Hno Hs Ha Hsum. wp_step. apply wp_on_heap.
  apply (MmHeapTop.wp_heap_bootstrap 2); [exact Hlen|by apply (can_map_start dt F l)|done|].
  intros h Hinv _ _. wp_step. unfold mm_allocator_bootstrap. wp_step. set (s1 := set_free_alls NULL _).
  assert (alloc_inv (1 + 1) ∅ ∅ [] [] s1) as Hinv1.
  { split; [exact Hinv|apply no_arenas|]. split; [done|]. by intros ? ? ?%lookup_empty_Some. }
  wp_step. eapply (wp_mm_allocator_new 1); [exact Hinv1|lia|]. intros p s2 [(live&free&pools&Hinv2&_) _ _].
  eapply (wp_mm_allocate (k := 0) Hinv2); [lia..|done|apply lookup_insert_eq|done|].
  intros A l' s3 [(live'&Hinv3&_) _ _ _]. split; [by apply pad_aligned|]. split; [|by eapply alloc_inv_memory].
  intros i Hi. eapply region_in_heap; [exact Hinv3| |exact Hi]. eexists p, _, (taken A size align).
  split; [apply lookup_insert_eq|]. split; by left.
Qed.

(** C12: the object allocator on the real page tables: from a paging state with
    enough free frames and an unmapped heap area, the last two steps of
    [mm_bootstrap] start the heap and the allocator, and a client that makes an
    allocator and asks it for memory that one heap block can serve gets an
    aligned address; its bytes lie in the heap, and in the physical memory
    behind the page tables they have addresses of their own, which a store
    reaches and from which a load reads back what was stored. *)
Theorem allocator_on_page_tables dt F l size align (s : allocs (world vm))
    (Hlen : length (MmHeap._free_list (al_heap s)) = 16%nat) (Hok : vm_ok dt F l (MmHeap.h_pages (al_heap s)))
    (Hl : 4 * (32768 * 2) <= Z.of_nat (length l))
    (Hno : ∀ i, 0 <= i < 32768 * 2 →
      translate (w_mem (MmHeap.h_pages (al_heap s))) _tab_4 (VA_48_HEAP + 4096 * i) = None)
    (Hsize : 0 <= size) (Halign : 0 < align) (Hsum : size + align <= HeapTiling.bsize 15 - 64) :
  ∃ x s', (on_heap MmHeap.mm_heap_bootstrap ;; mm_allocator_bootstrap ;;
      all ← mm_allocator_new; mm_allocate all size align) s = Done (x, s') ∧
    (align | x) ∧
    ∃ m, one_memory m (al_heap s') ∧
      (∀ i j, x <= i < x + size → VA_48_HEAP <= j < MmHeap._heap_end (al_heap s') → i ≠ j →
        ∃ pa qa, va_to_pa m _tab_4 i = Some pa ∧ va_to_pa m _tab_4 j = Some qa ∧ pa ≠ qa) ∧
      (∀ off k v, 0 <= off → off + Z.of_nat k <= size →
        ∃ m', vstore k m _tab_4 (x + off) v m = Some m' ∧
          one_memory m' (with_bytes (store k (x + off) v (MmHeap.h_mem (al_heap s'))) (al_heap s')) ∧
          vload k m' _tab_4 (x + off) = Some (v `mod` 256 ^ Z.of_nat k)).
Proof.
  pose proof (wp_allocator_on_page_tables dt F l size align s Hlen Hok Hl Hno Hsize Halign Hsum)
    as (x&s'&Hrun&Hx&Hin&m&Hm)%wp_done.
  exists x, s'. split; [exact Hrun|]. split; [exact Hx|]. exists m. split; [exact Hm|].
  pose proof (om_root _ _ Hm) as Hroot. split.
  - intros i j Hi Hj Hij. rewrite <-Hroot. pose proof (one_memory_distinct _ _ i j Hm (Hin i Hi) Hj Hij) as Hd.
    destruct (one_memory_reach _ _ i Hm (Hin i Hi)) as [pa Hpa], (one_memory_reach _ _ j Hm Hj) as [qa Hqa].
    exists pa, qa. rewrite Hpa, Hqa in *. split; [done|]. split; [done|]. congruence.
  - intros off k v H0 Hoff. rewrite <-Hroot. destruct k as [|k].
    { exists m. change (store 0 _ _ ?h) with h. rewrite with_bytes_same, Z.mod_1_r. done. }
    pose proof (Hin (x + off) ltac:(lia)). pose proof (Hin (x + off + Z.of_nat k) ltac:(lia)).
    destruct (one_memory_store (S k) m _ (x + off) v Hm) as (m'&Hst&Hm'); [lia..|].
    exists m'. split; [exact Hst|]. split; [exact Hm'|].
    change (MmHeap.h_pages (al_heap s')) with (MmHeap.h_pages (with_bytes (store (S k) (x + off) v (MmHeap.h_mem (al_heap s'))) (al_heap s'))).
    rewrite (one_memory_load _ _ _ _ Hm') by (cbn [with_bytes MmHeap._heap_end]; lia).
    cbn [with_bytes MmHeap.h_mem]. by rewrite load_store_eq.
Qed.

End boot.

(* --------------------------------------------------------------------- *)
(** ** A concrete run *)

Definition sample_managers : allocs (world vm) := Allocs (sample_heap (Z.to_nat 262144)) 0.

Lemma allocator_on_page_tables_witness :
  let _ := MmPageSample.sample_vm_link in
  ∃ x s', (on_heap MmHeap.mm_heap_bootstrap ;; mm_allocator_bootstrap ;;
      all ← mm_allocator_new; mm_allocate all 100 48) sample_managers = Done (x, s') ∧ (48 | x) ∧
    ∃ m m', one_memory m (al_heap s') ∧ vstore 8 m _tab_4 x 77 m = Some m' ∧ vload 8 m' _tab_4 x = Some 77.
Proof.
  intros link.
  destruct (@allocator_on_page_tables link 0x6000 (λ u, u ∈ MmPageSample.sample_tables)
    (MmPageSample.sample_list (Z.to_nat 262144)) 100 48 sample_managers) as (x&s'&Hrun&Hx&m&Hm&_&Hst).
  - reflexivity.
  - apply MmPageSample.sample_ok. rewrite Z2Nat.id by lia. reflexivity.
  - rewrite MmPageSample.sample_length, Z2Nat.id by lia. lia.
  - intros i Hi. change (MmHeap.h_pages (al_heap sample_managers)) with (MmPageSample.sample_state (Z.to_nat 262144)).
    rewrite MmPageSample.sample_translate by (rewrite Z2Nat.id by lia; reflexivity).
    apply sample_unmapped. lia.
  - lia.
  - lia.
  - change (HeapTiling.bsize 15) with 134217728. lia.
  - exists x, s'. split; [exact Hrun|]. split; [exact Hx|].
    destruct (Hst 0 8%nat 77) as (m'&Hv&_&Hl); [lia|lia|]. rewrite Z.add_0_r in Hv, Hl.
    exists m, m'. split; [exact Hm|]. split; [exact Hv|exact Hl].
Defined.
